(* ===== verification/_CoqProject ===== *)
-Q . S2P
Prelude.v
DlList.v
Ies.v
Arbiter.v
Merkle.v
Md4.v
Md5.v
Sha1.v
Sha256.v
Rc4.v
Aes.v
AesSpec.v
AesModes.v
EapolSupp.v
EapolGuard.v
WpaIe.v
WpaSm.v
WpaHandshake.v
RsnIe.v
WpaConf.v
WpaCommon.v
Pmksa.v
Eloop.v
Bss.v
Elems.v
Network.v
Select.v
Suites.v
Supplicant.v
EapCommon.v
Des.v
MsFuncs.v
EapMethods.v
EapSimple.v
EapMschapv2.v
Eap.v
EapNak.v
EapSafety.v
EapRfc.v
EapolEap.v
