(* ===== verification/Prelude.v ===== *)
(** * Verification of wpa_supplicant with the network-selection arbiter

    The repository is wpa_supplicant (IEEE 802.1X and WPA/RSN supplicant, under
    src/src and src/wpa_supplicant) with one addition, an arbiter that selects a
    hotspot among the networks found (src/wpa_supplicant/arbiter).  A frame from
    the network reaches either the EAPOL state machines (eapol_supp_sm.c), which
    run the EAP peer machine (eap_peer/eap.c) with its methods and own the
    controlled port, or the key handshakes of the RSN component
    (rsn_supp/wpa.c), which install keys and tell the EAPOL machines that the
    keys are valid.  Before that, scan results enter the BSS table (bss.c) and a
    network is selected for them (events.c, config.c, blacklist.c), or by the
    arbiter, called from interworking.c; the suites are negotiated, the driver is
    asked to associate, and its events and the callbacks of the components
    (wpa_supplicant.c, events.c, wpas_glue.c) drive the rest.  This library models these parts as
    executable definitions and proves what they promise.

    ** Outcomes and effects

    C code that can leave defined behaviour returns a [run]: [Ret] a value,
    [UB] a reason (null or dangling pointer, access outside a buffer, ...), or
    [OutOfFuel] for a loop of the model that did not finish in the iterations
    given.  A byte buffer is a list of integers below 256; every access goes
    through [rd], [rdn] or [splice] and is checked.  Machine integers are
    integers reduced by [u8], [u16], [u32] where the code relies on the width.
    Calls to the outside (driver, EAP layer, event loop) are recorded as events
    in a log, in the order the code makes them; what a call obtains from outside
    is an argument (an environment record or a type class).  Safety theorems
    have the form "the function returns [Ret]", so they include termination.

    ** Files

    - Prelude (this file): the [run] monad, machine integers, checked buffer
      access, big- and little-endian values, [memcmp], record update.
    - DlList: the intrusive lists of src/src/utils/list.h over a heap of nodes,
      with the representation predicate [rep].
    - Ies: element lookup in a BSS entry ([wpa_bss_get_ie],
      [wpa_bss_get_vendor_ie], [wpa_bss_get_max_rate] of bss.c).
    - Arbiter: candidates, filters and [arbiter_select] of
      src/wpa_supplicant/arbiter, and the selection loop of interworking.c, on
      the heap of DlList with explicit allocation and freeing.
    - Merkle, Md4, Md5, Sha1, Sha256, Rc4: block-iterated hashing, MD4
      (md4-internal.c), MD5 and HMAC-MD5 (md5-internal.c, md5.c), SHA-1 with HMAC, the PRF of 802.11i and PBKDF2
      (sha1-internal.c, sha1.c, sha1-pbkdf2.c), SHA-256 with HMAC and two key
      derivations (sha256-internal.c, sha256.c, sha256-tlsprf.c) and RC4 (rc4.c).
    - Aes, AesSpec: AES-128 with tables and the key wrap (aes-internal*.c,
      aes-wrap.c, aes-unwrap.c); the cipher of FIPS 197 as a reference.
    - AesModes: CBC, counter mode, OMAC1 and EAX (aes-cbc.c, aes-ctr.c,
      aes-omac1.c, aes-eax.c, aes-encblock.c).
    - EapolSupp: [struct eapol_sm], the PAE, key-receive and backend machines,
      [eapol_sm_step], processing of EAPOL-Key frames for WEP keys, reception,
      timers and all notifications of eapol_supp_sm.c.  The EAP layer is the
      class [EapPeer].
    - EapolGuard: the port of an EAPOL supplicant that waits for keys: what its
      operations keep, and what they ask of its owner.
    - WpaIe: the key data parser [wpa_supplicant_parse_ies] of wpa_ie.c.
    - WpaSm: [struct wpa_sm] and the handshake code of rsn_supp/wpa.c from
      [wpa_sm_rx_eapol] down to each message, PMK selection, key requests and
      association notifications.  The EAPOL-Key MIC, the PTK derivation and the
      AES key wrap are the class [WpaCrypto] with the laws [WpaCryptoOk]; the
      PMKSA cache is the class [PmksaCache]; instances are given in [Demo].
    - WpaHandshake: runs of the handshake, message by message.
    - RsnIe: the parsers of WPA and RSN elements (wpa_common.c) and the generators
      of the supplicant's element (wpa_ie.c).
    - WpaConf: initialisation, configuration and the notifications of the RSN component
      (wpa.c).
    - WpaCommon: MIC, PTK derivation and PMKID of wpa_common.c, and the instance of
      [WpaCrypto] they make with the key unwrap.
    - Pmksa: the PMKSA cache (pmksa_cache.c) with its timers, its
      specification as a finite map, and opportunistic entries.
    - Bss: the BSS table (bss.c) with entries as memory objects, and the processing
      of scan results (scan.c).
    - Elems: the parser of the elements of management frames (ieee802_11_common.c).
    - Eloop: timeouts, sockets, signals and [eloop_run] of eloop.c, with handlers
      and clock as parameters.
    - Network: the network blocks of the configuration with their priority lists
      (config.c) and the blacklist (blacklist.c).
    - Select: matching of networks and scan results, selection, roaming and the scan
      result handler (events.c), the order of scan results (scan.c), failed
      connections and state changes (wpa_supplicant.c).
    - Suites: the negotiation of protocol, ciphers and key management for an
      association (wpa_supplicant.c).
    - Supplicant: [struct wpa_supplicant] with its components and their callbacks, the
      association request and events, received frames, timeouts, countermeasures and
      disconnection (wpa_supplicant.c, events.c, wpas_glue.c), and the SME (sme.c);
      [run_sup_op] is everything that can happen, [running] the states reached.
    - EapCommon: EAP messages (eap_common.c) in [struct wpabuf] buffers.
    - Des: DES and 3DES (des-internal.c).
    - MsFuncs: the functions of MS-CHAPv2 (ms_funcs.c, RFC 2759 and RFC 3079) and
      the conversion of hexadecimal strings (common.c).
    - EapMethods: the method interface of eap_i.h with the contract [MethodOk],
      configuration access and requests to the user, the registry (eap_methods.c).
    - EapSimple: the methods MD5, OTP, GTC and VENDOR-TEST.
    - EapMschapv2: the method MSCHAPv2 with password change (eap_mschapv2.c,
      mschapv2.c).
    - Eap: [struct eap_sm] and every state, transition and message builder of
      eap.c, for any methods with the interface.
    - EapNak, EapSafety, EapRfc: the Nak builder; reachable states, termination,
      authenticated success and the message limit; the equivalence with RFC 4137.
    - EapolEap: the EAP machine as instance of [EapPeer] of EapolSupp, and the two
      machines together.

    ** What is proved

    - Lists and arbiter: the list operations realise the operations on the
      represented sequence; the filters, which free nodes while they walk the
      list, are memory safe and keep exactly the candidates their test accepts;
      [arbiter_select] and the selection loop return an acceptable network, or
      none only if there is none.
    - Elements and key data: lookups return the first well-formed match and stay
      in bounds; parsing encoded key data gives back its elements; parsing any WPA
      or RSN element stays inside it, and the generated element is parsed back to
      its configuration.
    - Network selection: the configured networks and their priority lists stay
      consistent; the network picked is the best acceptable one, the blacklist only
      changes the order, and a network for WPA is never associated with an access
      point that does not announce suitable protection; a failed access point is
      blacklisted and another one of the network tried.
    - The supplicant as a whole: in an association to a network with WPA, after any
      sequence of frames, events, timeouts and requests, the port is open only with a
      PTK that an authentic frame confirmed or a cached PMKSA; a deauthentication
      closes the port and clears keys, network and timer; a second MIC failure within
      a minute starts the countermeasures.  A connection from the scan results to
      the end of the handshake is run as an example.
    - Suites: the suites used are offered by the access point and enabled for the
      network, the strongest that both have; what selection accepts can associate.
    - EAP: the machine settles after at most ten transitions from every reachable
      state; a success was preceded by a method that accepted the server; the
      transitions out of RECEIVED are those of RFC 4137; Naks propose exactly the
      allowed methods; messages are bounded in number; one-time passwords are sent
      once.  With the EAPOL machines on top, every entry point returns and eapSuccess
      implies such a success.
    - BSS table: any sequence of scans, expirations and flushes is memory safe and
      keeps the table consistent; a scan result is stored and found again; the end of
      a scan removes exactly the entries missed too often.
    - PMKSA cache: any sequence of operations refines a map from authenticator
      addresses of at most 32 entries, the current entry is never freed memory, and
      the expiration timer is always set early enough.
    - Event loop: timeouts run in the order of their times and never early whatever
      handlers do, and a loop that only waits for timeouts ends.
    - Cryptography: incremental MD5 and HMAC-MD5 equal the reference functions
      on the concatenated message whatever the chunking; RC4 is an involution
      and its skip argument continues the key stream; SHA-1, SHA-256, their HMACs,
      the PRFs and PBKDF2 equal their standards; table AES encrypts as FIPS 197 says and
      its decryption inverts it; the key unwrap inverts the key wrap, which is that
      of RFC 3394 up to 42 units; counter mode, OMAC1 and EAX are those of their
      standards, CBC and EAX decryption invert encryption; MD4 is that of RFC 1320
      whatever the chunking, and DES and 3DES decryption invert encryption.  The
      hashes, ciphers and key unwrap meet the laws [WpaCryptoOk] the
      handshake theorems assume, and both ends derive the same PTK.
    - MS-CHAPv2: the method ends with success only for the authenticator
      response it computed with its last answer, from a configured password and its own
      challenge, and exports the keys of RFC 3079; a request is processed without
      undefined behaviour apart from one null pointer, exhibited; the encrypted password block is decrypted to the password.
    - EAPOL: in every reachable state the port in the driver, the port status
      and the PAE state agree; every entry point is memory safe; the machines
      settle or ask for another call; the port opens only under the documented
      conditions and closes on link loss; a WEP key is installed only from an
      authentic key frame with an increasing replay counter.
    - Handshakes: keys are installed and the port made valid only by frames with
      the MIC of a held PTK and an increasing counter, along any sequence of
      frames; frames without MIC are harmless to the confirmed key; reception is
      memory safe but for one case, exhibited as an over-read; an honest access
      point completes the 4-way handshake with the derived key; a repeated third
      message reinstalls the key in use with a zero packet number.
    - Defects found are theorems too: the leak of candidates on a manual
      selection, the unterminated SSID, the uninitialised LEAP key bytes, the
      over-read on empty encrypted key data, the key reinstallation, the use of a
      freed entry by opportunistic key caching in a full cache, the current BSS
      left dangling by a moved or an evicted entry of the BSS table, the acceptance of
      an EAP-GTC request that was not answered, the over-read of OMAC1, the cyclic
      comparison of scan results, the selection that stops at a result without
      BSS entry, and the port that message 1/4 opens when it names a cached PMKSA.

    ** Bounds

    [eapol_sm_step] runs its machines at most 100 times, the bound in the C code
    itself; one call of [eap_peer_sm_step] takes at most ten transitions and the
    selection of a network at most two rounds.  Loops over elements get as many iterations as the buffer has bytes
    (an element takes at least two), list traversals as many as the list has
    nodes, hash, PRF and PBKDF2 loops as many as bytes are asked for or given, the
    key schedule inversion as many as there are round keys.  The theorems show
    that these suffice.

    ** Not modelled

    Null state-machine arguments, debug output, status and MIB text.  A callback of a
    component that changes another component runs when the first one returns, in
    the order of the calls.  EAP methods with tunnels or keys other than
    MSCHAPv2 (LEAP, TLS, SIM, ...), TLS, the construction of scans, start-up and shutdown, the driver
    events other than authentication, association, disassociation, MIC failure and
    scan results, SA queries, drivers, control interfaces, the configuration parser, access
    point, RADIUS, P2P and WPS code, and the optional protocols IEEE 802.11r,
    802.11w, peer keys and TDLS of the RSN component.  The theorem on the port of the
    supplicant is for drivers that leave the 4-way handshake to it.  The refinement
    and the timer theorem of the PMKSA cache are for runs without opportunistic
    entries, whose expiration the code changes without reordering the list.
    MSCHAPv2 has theorems of its own but does not meet [MethodOk], which asks for
    defined behaviour on every request, because of that null pointer; the theorems
    that compose the EAP machine with its methods leave it out.
    Extensions that would come next: LEAP, the other driver events. *)

From Stdlib Require Export ZArith Lia.
From stdpp Require Export base list numbers gmap.

#[global] Open Scope Z_scope.

(** ** Outcomes of C code

    [Ret a] is a normal return.  [UB r] is an execution that leaves the defined
    behaviour of C (the reason [r] says how).  [OutOfFuel] is a loop that did not
    finish within the iterations the model allows; every theorem about a loop
    shows that it does not happen. *)

Inductive ub_reason : Type :=
| NullDeref
| OutOfBounds
| UseAfterFree
| DivisionByZero
| BufferOverflowAbort.

Inductive run (A : Type) : Type :=
| Ret (a : A)
| UB (r : ub_reason)
| OutOfFuel.
Arguments Ret {A} a.
Arguments UB {A} r.
Arguments OutOfFuel {A}.

#[global] Instance run_ret : MRet run := λ A a, Ret a.
#[global] Instance run_bind : MBind run := λ A B k m,
  match m with
  | Ret a => k a
  | UB r => UB r
  | OutOfFuel => OutOfFuel
  end.

#[global] Instance ub_reason_eq_dec : EqDecision ub_reason.
Proof. solve_decision. Defined.

Lemma run_bind_Ret {A B} (m : run A) (k : A → run B) b :
  (m ≫= k) = Ret b ↔ ∃ a, m = Ret a ∧ k a = Ret b.
Proof. destruct m; split; naive_solver. Qed.

Lemma run_bind_l {A B} (a : A) (k : A → run B) : (Ret a ≫= k) = k a.
Proof. done. Qed.

(** [run_inv] inverts every [x ← m; k = Ret b] of the context. *)
Ltac run_inv :=
  repeat match goal with
  | H : mbind _ _ = Ret _ |- _ =>
      let x := fresh "x" in let H1 := fresh "Hrun" in
      apply run_bind_Ret in H as (x & H1 & H)
  | H : Ret _ = Ret _ |- _ => injection H as H
  | H : UB _ = Ret _ |- _ => discriminate H
  | H : OutOfFuel = Ret _ |- _ => discriminate H
  end; simplify_eq.

(** The two cases of the first conditional of the goal. *)
Ltac if_branch := match goal with |- context [if ?b then _ else _] => destruct b eqn:? end.

(** ** Machine integers *)

Definition u8 (z : Z) : Z := z mod 2 ^ 8.
Definition u16 (z : Z) : Z := z mod 2 ^ 16.
Definition u32 (z : Z) : Z := z mod 2 ^ 32.
Definition u64 (z : Z) : Z := z mod 2 ^ 64.

Definition is_byte (z : Z) : Prop := 0 ≤ z < 2 ^ 8.
Definition is_u16 (z : Z) : Prop := 0 ≤ z < 2 ^ 16.
Definition is_u32 (z : Z) : Prop := 0 ≤ z < 2 ^ 32.

#[global] Instance is_byte_dec z : Decision (is_byte z).
Proof. unfold is_byte. apply _. Defined.

Notation bytes := (list Z) (only parsing).
Definition bytes_ok (l : list Z) : Prop := Forall is_byte l.

#[global] Instance bytes_ok_dec l : Decision (bytes_ok l).
Proof. unfold bytes_ok. apply _. Defined.

Create HintDb wpa.

Lemma u8_byte z : is_byte (u8 z).
Proof. unfold is_byte, u8. apply Z.mod_pos_bound. lia. Qed.
Lemma u8_small z : is_byte z → u8 z = z.
Proof. unfold is_byte, u8. intros. by apply Z.mod_small. Qed.
Lemma u16_range z : is_u16 (u16 z).
Proof. unfold is_u16, u16. apply Z.mod_pos_bound. lia. Qed.
Lemma u16_small z : is_u16 z → u16 z = z.
Proof. unfold is_u16, u16. intros. by apply Z.mod_small. Qed.
Lemma u32_range z : is_u32 (u32 z).
Proof. unfold is_u32, u32. apply Z.mod_pos_bound. lia. Qed.
Lemma u32_small z : is_u32 z → u32 z = z.
Proof. unfold is_u32, u32. intros. by apply Z.mod_small. Qed.
Lemma u32_land x : u32 x = Z.land x 0xffffffff.
Proof. change 0xffffffff with (Z.ones 32). by rewrite Z.land_ones. Qed.
Lemma land32_range x : is_u32 (Z.land x 0xffffffff).
Proof. rewrite <-u32_land. apply u32_range. Qed.
Lemma land_lxor x y m : Z.land (Z.lxor x y) m = Z.lxor (Z.land x m) (Z.land y m).
Proof. apply Z.bits_inj. intros n. rewrite !Z.land_spec, !Z.lxor_spec, !Z.land_spec. by destruct (Z.testbit x n), (Z.testbit y n), (Z.testbit m n). Qed.
Lemma lxor_u32 x y : is_u32 x → is_u32 y → is_u32 (Z.lxor x y).
Proof.
  intros Hx Hy. rewrite <-(u32_small x Hx), <-(u32_small y Hy), !u32_land, <-land_lxor. apply land32_range.
Qed.

#[export] Hint Resolve u8_byte u16_range u32_range : wpa.

Lemma bytes_ok_app l k : bytes_ok (l ++ k) ↔ bytes_ok l ∧ bytes_ok k.
Proof. apply Forall_app. Qed.

Lemma bytes_ok_lookup l i b : bytes_ok l → l !! i = Some b → is_byte b.
Proof. intros H Hi. by eapply Forall_lookup_1. Qed.

#[export] Hint Resolve bytes_ok_lookup : wpa.

(** ** Byte buffers

    [rd buf i] is the read [buf[i]] of a buffer of [length buf] bytes. *)

Definition rd (buf : list Z) (i : nat) : run Z :=
  match buf !! i with Some b => Ret b | None => UB OutOfBounds end.

Lemma rd_lookup buf i b : buf !! i = Some b → rd buf i = Ret b.
Proof. unfold rd. by intros ->. Qed.

Lemma rd_Ret buf i b : rd buf i = Ret b → buf !! i = Some b.
Proof. unfold rd. case_match; congruence. Qed.

Lemma rd_app_r pre buf i : rd (pre ++ buf) (length pre + i) = rd buf i.
Proof. unfold rd. by rewrite lookup_app_r, Nat.add_comm, Nat.add_sub by lia. Qed.

Lemma rd_app_0 pre buf : rd (pre ++ buf) (length pre) = rd buf 0.
Proof. rewrite <-(rd_app_r pre buf 0). by rewrite Nat.add_0_r. Qed.

Lemma rd_lt buf i : (i < length buf)%nat → ∃ b, rd buf i = Ret b ∧ buf !! i = Some b.
Proof. intros [b Hb]%lookup_lt_is_Some_2. exists b. by rewrite (rd_lookup _ _ _ Hb). Qed.

(** [rdn buf off n]: the [n] bytes from [buf + off]. *)
Definition rdn (buf : list Z) (off n : nat) : run (list Z) :=
  if (off + n <=? length buf)%nat then Ret (take n (drop off buf)) else UB OutOfBounds.

Lemma rdn_ok buf off n :
  (off + n ≤ length buf)%nat → rdn buf off n = Ret (take n (drop off buf)).
Proof. intros H. unfold rdn. by rewrite (proj2 (Nat.leb_le _ _) H). Qed.

Lemma rdn_Ret buf off n d : rdn buf off n = Ret d → length d = n ∧ d = take n (drop off buf).
Proof.
  unfold rdn. destruct (Nat.leb_spec (off + n) (length buf)); [|done].
  intros [= <-]. split; [|done]. rewrite length_take, length_drop. lia.
Qed.

(** Big-endian reads of [common.h] as values of the bytes read. *)
Definition be16 (a b : Z) : Z := Z.lor (Z.shiftl a 8) b.
Definition be32 (a b c d : Z) : Z :=
  Z.lor (Z.lor (Z.lor (Z.shiftl a 24) (Z.shiftl b 16)) (Z.shiftl c 8)) d.

Lemma testbit_small b n k : 0 ≤ b < 2 ^ n → n ≤ k → Z.testbit b k = false.
Proof.
  intros Hb Hk. destruct (Z.eq_dec b 0) as [->|]; [apply Z.bits_0|].
  assert (0 ≤ n) by (destruct (Z.lt_ge_cases n 0); [rewrite Z.pow_neg_r in Hb by done; lia|done]).
  apply Z.bits_above_log2; [lia|]. apply Z.log2_lt_pow2; [lia|].
  apply Z.lt_le_trans with (2 ^ n); [lia|]. apply Z.pow_le_mono_r; lia.
Qed.

Lemma lor_shiftl_add a b n : 0 ≤ n → 0 ≤ b < 2 ^ n → Z.lor (Z.shiftl a n) b = a * 2 ^ n + b.
Proof.
  intros Hn Hb. rewrite <-Z.add_nocarry_lor; [by rewrite Z.shiftl_mul_pow2|].
  apply Z.bits_inj'. intros k Hk. rewrite Z.land_spec, Z.bits_0.
  destruct (Z.ltb_spec k n); [by rewrite Z.shiftl_spec_low|].
  by rewrite (testbit_small b n k), andb_false_r.
Qed.

Lemma be16_val a b : 0 ≤ b < 256 → be16 a b = a * 256 + b.
Proof. intros Hb. unfold be16. by rewrite lor_shiftl_add. Qed.

(** [splice dst off src]: [os_memcpy(dst + off, src, length src)].  Inside the
    bounds of [dst] the length does not change. *)
Definition splice (dst : list Z) (off : nat) (src : list Z) : list Z :=
  take off dst ++ src ++ drop (off + length src) dst.

Lemma length_splice dst off src :
  (off + length src ≤ length dst)%nat → length (splice dst off src) = length dst.
Proof. intros. unfold splice. rewrite !length_app, length_take, length_drop. lia. Qed.

Lemma take_splice dst off src :
  (off + length src ≤ length dst)%nat →
  take (off + length src) (splice dst off src) = take off dst ++ src.
Proof.
  intros. unfold splice. rewrite app_assoc, take_app_length'; [done|].
  rewrite length_app, length_take. lia.
Qed.

Lemma bytes_ok_splice dst off src : bytes_ok dst → bytes_ok src → bytes_ok (splice dst off src).
Proof.
  intros Hd Hs. unfold splice, bytes_ok. rewrite !Forall_app.
  split_and!; [by apply Forall_take|done|by apply Forall_drop].
Qed.

Lemma rd_splice_before dst off src i :
  (i < off)%nat → (off ≤ length dst)%nat → rd (splice dst off src) i = rd dst i.
Proof.
  intros Hi Hoff. unfold rd, splice. rewrite lookup_app_l by (rewrite length_take; lia).
  by rewrite lookup_take_lt.
Qed.

Lemma slice_splice_before dst off src i n :
  (i + n ≤ off)%nat → (off ≤ length dst)%nat →
  take n (drop i (splice dst off src)) = take n (drop i dst).
Proof.
  intros Hi Hoff. unfold splice.
  rewrite drop_app_le, take_app_le by (rewrite ?length_drop, length_take; lia).
  rewrite <-(take_drop off dst) at 2.
  by rewrite drop_app_le, take_app_le by (rewrite ?length_drop, length_take; lia).
Qed.

Lemma drop_splice dst off src :
  (off ≤ length dst)%nat → drop off (splice dst off src) = src ++ drop (off + length src) dst.
Proof. intros H. unfold splice. by rewrite drop_app_length' by (rewrite length_take; lia). Qed.

Lemma drop_splice_after dst off src k :
  (off + length src ≤ k)%nat → (off + length src ≤ length dst)%nat →
  drop k (splice dst off src) = drop k dst.
Proof.
  intros Hk Hl. replace k with (off + (length src + (k - off - length src)))%nat by lia.
  rewrite <-!drop_drop, drop_splice, drop_app_length by lia. rewrite !drop_drop. f_equal. lia.
Qed.

Lemma slice_splice dst off src :
  (off + length src ≤ length dst)%nat → take (length src) (drop off (splice dst off src)) = src.
Proof.
  intros. unfold splice. rewrite drop_app_length'; [|rewrite length_take; lia].
  by rewrite take_app_length.
Qed.

(** Little-endian and big-endian encodings of [n]-byte integers. *)
Fixpoint le_bytes (n : nat) (z : Z) : list Z :=
  match n with O => [] | S n => u8 z :: le_bytes n (Z.shiftr z 8) end.

Fixpoint le_val (l : list Z) : Z :=
  match l with [] => 0 | b :: l => b + 256 * le_val l end.

Lemma length_le_bytes n z : length (le_bytes n z) = n.
Proof. revert z. induction n; intros; simpl; [done|]. by rewrite IHn. Qed.

Lemma le_bytes_ok n z : bytes_ok (le_bytes n z).
Proof. revert z. induction n; intros; constructor; [apply u8_byte|apply IHn]. Qed.

Lemma le_val_bytes n z : le_val (le_bytes n z) = z mod 2 ^ (8 * Z.of_nat n).
Proof.
  revert z. induction n as [|n IH]; intros z; [by rewrite Z.mod_1_r|].
  cbn [le_bytes le_val]. rewrite IH. unfold u8. rewrite Z.shiftr_div_pow2 by lia.
  replace (8 * Z.of_nat (S n)) with (8 + 8 * Z.of_nat n) by lia.
  rewrite Z.pow_add_r by lia. rewrite Z.rem_mul_r by lia. done.
Qed.

#[export] Hint Resolve le_bytes_ok : wpa.

Lemma splice_app a b off s : length a = off → splice (a ++ b) off s = a ++ s ++ drop (length s) b.
Proof.
  intros <-. unfold splice. rewrite take_app_length.
  rewrite (drop_app_ge a) by lia. by rewrite Nat.add_comm, Nat.add_sub.
Qed.

Lemma le_bytes_app n k z : le_bytes (n + k) z = le_bytes n z ++ le_bytes k (Z.shiftr z (8 * Z.of_nat n)).
Proof.
  revert z. induction n as [|n IH]; intros z.
  - simpl. by rewrite Z.shiftr_0_r.
  - cbn [Nat.add le_bytes app]. rewrite IH, Z.shiftr_shiftr by lia. do 4 f_equal. lia.
Qed.

Lemma le_bytes_mod n z : le_bytes n (z mod 2 ^ (8 * Z.of_nat n)) = le_bytes n z.
Proof.
  revert z. induction n as [|n IH]; intros z; [done|]. cbn [le_bytes].
  replace (8 * Z.of_nat (S n)) with (8 + 8 * Z.of_nat n) by lia. f_equal.
  - unfold u8. rewrite Z.pow_add_r by lia. apply Z.mod_mod_divide.
    apply Z.divide_factor_l.
  - rewrite <-IH. rewrite <-(IH (Z.shiftr z 8)). f_equal.
    rewrite !Z.shiftr_div_pow2 by lia. rewrite Z.pow_add_r, Z.rem_mul_r by lia.
    rewrite Z.mul_comm, Z.div_add, Z.div_small by (try apply Z.mod_pos_bound; lia).
    rewrite Z.add_0_l, Z.mod_mod by lia. done.
Qed.

(** ** Comparison of memory

    [os_memcmp] as the sign of the first difference. *)
Fixpoint memcmp (a b : list Z) : Z :=
  match a, b with
  | x :: a, y :: b => if x <? y then -1 else if y <? x then 1 else memcmp a b
  | _, _ => 0
  end.

Lemma memcmp_refl a : memcmp a a = 0.
Proof. induction a as [|x a IH]; [done|]. simpl. by rewrite Z.ltb_irrefl. Qed.

Lemma memcmp_eq a b : length a = length b → memcmp a b = 0 → a = b.
Proof.
  revert b. induction a as [|x a IH]; intros [|y b] Hl; try done. simpl. injection Hl as Hl.
  destruct (Z.ltb_spec x y); [done|]. destruct (Z.ltb_spec y x); [done|].
  intros H'. f_equal; [lia|by apply IH].
Qed.

(** The number a byte string denotes, most significant byte first. *)
Definition be_val (l : list Z) : Z := foldl (λ acc b, acc * 256 + b) 0 l.

Lemma be_val_acc acc l :
  foldl (λ acc b, acc * 256 + b) acc l = acc * 256 ^ Z.of_nat (length l) + be_val l.
Proof.
  unfold be_val. revert acc. induction l as [|b l IH]; intros acc; [simpl; lia|].
  cbn [foldl length]. rewrite IH, (IH (0 * 256 + b)), Nat2Z.inj_succ, Z.pow_succ_r by lia. lia.
Qed.

Lemma be_val_cons b l : be_val (b :: l) = b * 256 ^ Z.of_nat (length l) + be_val l.
Proof. unfold be_val at 1. cbn [foldl]. by rewrite be_val_acc. Qed.

Lemma be_val_range l : bytes_ok l → 0 ≤ be_val l < 256 ^ Z.of_nat (length l).
Proof.
  induction 1 as [|b l Hb _ IH]; [done|]. rewrite be_val_cons. cbn [length].
  rewrite Nat2Z.inj_succ, Z.pow_succ_r by lia. unfold is_byte in Hb. nia.
Qed.

(** [os_memcmp] compares equally long byte strings as big-endian numbers. *)
Lemma memcmp_be a b :
  bytes_ok a → bytes_ok b → length a = length b → memcmp a b < 0 ↔ be_val a < be_val b.
Proof.
  intros Ha. revert b. induction Ha as [|x a Hx Ha IH]; intros b Hb Hl; destruct b as [|y b]; try done.
  simpl in Hl. injection Hl as Hl. apply Forall_cons in Hb as [Hy Hb]. simpl.
  rewrite !be_val_cons, Hl. pose proof (be_val_range _ Ha) as Hra. rewrite Hl in Hra.
  pose proof (be_val_range _ Hb) as Hrb. unfold is_byte in *.
  destruct (Z.ltb_spec x y); [split; [nia|lia]|].
  destruct (Z.ltb_spec y x); [split; [lia|nia]|].
  assert (x = y) as -> by lia. rewrite IH by done. lia.
Qed.

Lemma memcmp_le_be a b :
  bytes_ok a → bytes_ok b → length a = length b → be_val a ≤ be_val b → memcmp a b ≤ 0.
Proof.
  intros Ha. revert b. induction Ha as [|x a Hx Ha IH]; intros b Hb Hl; destruct b as [|y b]; try done.
  simpl in Hl. injection Hl as Hl. apply Forall_cons in Hb as [Hy Hb]. simpl.
  rewrite !be_val_cons, Hl. pose proof (be_val_range _ Ha) as Hra. rewrite Hl in Hra.
  pose proof (be_val_range _ Hb) as Hrb. unfold is_byte in *. intros Hle.
  destruct (Z.ltb_spec x y); [lia|]. destruct (Z.ltb_spec y x); [nia|].
  apply IH; [done|done|nia].
Qed.

(** ** Record update

    [s <| f := v |>] is [s] with field [f] replaced.  A record opts in with an
    [Eta] instance that rebuilds a value from its fields. *)

Class Eta (R : Type) := eta : R → R.
Class Update {R T : Type} (f : R → T) := update : (T → T) → R → R.

Ltac derive_update f :=
  match goal with
  | |- @Update ?R ?T _ =>
      let e := constr:(fun r : R => ltac:(
        let e := eval cbv [eta] in (@eta R _ r) in
        let i := constr:(_ : Eta R) in
        let h := eval hnf in (i r) in exact h)) in
      exact (fun (u : T → T) (r : R) => ltac:(
        let b := eval cbv beta in (e r) in
        let p := eval pattern (f r) in b in
        match p with ?g _ => let t := eval cbv beta in (g (u (f r))) in exact t end))
  end.

#[global] Hint Extern 1 (Update ?f) => derive_update f : typeclass_instances.

Notation "s <| f := v |>" := (update (f := f) (λ _, v) s)
  (at level 12, f at next level, left associativity).

Arguments update _ _ _ _ / .
