(* ===== verification/DlList.v ===== *)
(** * Intrusive doubly-linked lists (src/src/utils/list.h)

    The store maps the address of every live [struct dl_list] to its two
    pointers; a freed address is absent, so reading or writing through a
    dangling pointer is [UB UseAfterFree] and through NULL is [UB NullDeref].
    [rep h head xs] is the abstraction: the circular list at [head] holds the
    items [xs], in order.  Every operation is proved to realise the matching
    operation on [xs], to leave the rest of the store alone and never to be
    undefined. *)

From S2P Require Import Prelude.

Notation addr := positive (only parsing).

(** ** Data and operations *)

Record dl_list := DlNode { next : option addr; prev : option addr }.

Notation links := (gmap addr dl_list) (only parsing).

Definition load (h : links) (p : option addr) : run dl_list :=
  match p with
  | None => UB NullDeref
  | Some a => match h !! a with Some n => Ret n | None => UB UseAfterFree end
  end.

Definition set_next (h : links) (p : option addr) (v : option addr) : run links :=
  match p with
  | None => UB NullDeref
  | Some a =>
      match h !! a with
      | Some n => Ret (<[a := DlNode v (prev n)]> h)
      | None => UB UseAfterFree
      end
  end.

Definition set_prev (h : links) (p : option addr) (v : option addr) : run links :=
  match p with
  | None => UB NullDeref
  | Some a =>
      match h !! a with
      | Some n => Ret (<[a := DlNode (next n) v]> h)
      | None => UB UseAfterFree
      end
  end.

Definition dl_list_init (h : links) (lst : addr) : run links :=
  h ← set_next h (Some lst) (Some lst);
  set_prev h (Some lst) (Some lst).

Definition dl_list_add (h : links) (lst : option addr) (item : addr) : run links :=
  l ← load h lst;
  h ← set_next h (Some item) (next l);
  h ← set_prev h (Some item) lst;
  l ← load h lst;
  h ← set_prev h (next l) (Some item);
  set_next h lst (Some item).

Definition dl_list_add_tail (h : links) (lst item : addr) : run links :=
  l ← load h (Some lst);
  dl_list_add h (prev l) item.

Definition dl_list_del (h : links) (item : addr) : run links :=
  i ← load h (Some item);
  h ← set_prev h (next i) (prev i);
  i ← load h (Some item);
  h ← set_next h (prev i) (next i);
  h ← set_next h (Some item) None;
  set_prev h (Some item) None.

Definition dl_list_empty (h : links) (lst : addr) : run bool :=
  l ← load h (Some lst);
  Ret (bool_decide (next l = Some lst)).

(** The counting loop; [fuel] bounds the iterations.  [dl_list_len] allows one
    more than the number of live nodes: a walk that long has met a cycle that
    does not contain the head, so the C loop would not end either. *)
Fixpoint dl_list_len_from (fuel : nat) (h : links) (lst : addr)
    (item : option addr) (count : Z) : run Z :=
  match fuel with
  | O => OutOfFuel
  | S fuel =>
      if bool_decide (item = Some lst) then Ret count
      else
        i ← load h item;
        dl_list_len_from fuel h lst (next i) (count + 1)
  end.

Definition dl_list_len (h : links) (lst : addr) : run Z :=
  l ← load h (Some lst);
  c ← dl_list_len_from (S (size h)) h lst (next l) 0;
  Ret (u32 c).

(** [dl_list_first] with the list member at offset 0 of the entry. *)
Definition dl_list_first (h : links) (lst : addr) : run (option addr) :=
  e ← dl_list_empty h lst;
  if e : bool then Ret None else l ← load h (Some lst); Ret (next l).

Definition dl_list_last (h : links) (lst : addr) : run (option addr) :=
  e ← dl_list_empty h lst;
  if e : bool then Ret None else l ← load h (Some lst); Ret (prev l).

(** ** The abstraction *)

Definition nxt (h : links) (x y : addr) : Prop :=
  ∃ n, h !! x = Some n ∧ next n = Some y.
Definition prv (h : links) (x y : addr) : Prop :=
  ∃ n, h !! x = Some n ∧ prev n = Some y.

(** [chain h x l]: following [next] from [x] visits [l], and [prev] undoes
    every step. *)
Fixpoint chain (h : links) (x : addr) (l : list addr) : Prop :=
  match l with
  | [] => True
  | y :: l => nxt h x y ∧ prv h y x ∧ chain h y l
  end.

Definition rep (h : links) (head : addr) (xs : list addr) : Prop :=
  NoDup (head :: xs) ∧ chain h head (xs ++ [head]).

Lemma chain_app h x l y k :
  chain h x (l ++ y :: k) ↔ chain h x (l ++ [y]) ∧ chain h y k.
Proof. revert x. induction l as [|z l IH]; intros x; simpl; [tauto|]. rewrite IH. tauto. Qed.

(** A chain only depends on the [next] of its sources and the [prev] of its
    targets. *)
Lemma chain_frame h h' x l y :
  (∀ z w, z ∈ x :: l → nxt h z w → nxt h' z w) →
  (∀ z w, z ∈ l ++ [y] → prv h z w → prv h' z w) →
  chain h x (l ++ [y]) → chain h' x (l ++ [y]).
Proof.
  revert x. induction l as [|z l IH]; intros x Hn Hp; simpl.
  - intros (? & ? & _). split; [|split; [|done]].
    + apply Hn; set_solver.
    + apply Hp; set_solver.
  - intros (? & ? & ?). split; [apply Hn; set_solver|].
    split; [apply Hp; set_solver|].
    apply IH; [| |done]; intros; [apply Hn|apply Hp]; set_solver.
Qed.

Lemma chain_nxt_live h x l y z : chain h x (l ++ [y]) → z ∈ x :: l → is_Some (h !! z).
Proof.
  revert x. induction l as [|w l IH]; intros x; simpl; intros (Hn & _ & Hc) Hz.
  - apply list_elem_of_singleton in Hz as ->. destruct Hn as (? & ? & _). eauto.
  - apply elem_of_cons in Hz as [->|Hz]; [destruct Hn as (? & ? & _); eauto|]. eauto.
Qed.

Lemma rep_live h head xs z : rep h head xs → z ∈ head :: xs → is_Some (h !! z).
Proof. intros [_ Hc]. by eapply chain_nxt_live. Qed.

Lemma rep_next h head xs : rep h head xs →
  ∃ n, h !! head = Some n ∧ next n = Some (default head (list.head xs)).
Proof. intros [_ Hc]. destruct xs; simpl in *; naive_solver. Qed.

Lemma rep_prev h head xs : rep h head xs →
  ∃ n, h !! head = Some n ∧ prev n = Some (default head (last xs)).
Proof.
  intros [_ Hc]. induction xs as [|x xs _] using rev_ind.
  - simpl in *. naive_solver.
  - rewrite last_snoc; simpl. rewrite <-app_assoc in Hc; simpl in Hc.
    apply chain_app in Hc as [_ (_ & (n & ? & ?) & _)]. eauto.
Qed.

(** ** Effect of the pointer operations on the store *)

(** What [dl_list_add] and [dl_list_del] leave alone: the [next] of every node
    but those of [ns], the [prev] of every node but those of [ps], and every
    node outside both. *)
Record frame (h h' : links) (ns ps : list addr) : Prop := {
  frame_next : ∀ z w, z ∉ ns → nxt h z w → nxt h' z w;
  frame_prev : ∀ z w, z ∉ ps → prv h z w → prv h' z w;
  frame_other : ∀ z, z ∉ ns → z ∉ ps → h' !! z = h !! z;
  frame_dom : dom h' = dom h
}.

Ltac step_store :=
  unfold nxt, prv in *; intros; destruct_and?; simplify_map_eq; eauto.

(** Set reasoning about node membership, without the store's hypotheses. *)
Ltac node_solver :=
  repeat match goal with
  | H : chain _ _ _ |- _ => clear H
  | H : nxt _ _ _ |- _ => clear H
  | H : prv _ _ _ |- _ => clear H
  | H : frame _ _ _ _ |- _ => clear H
  | H : rep _ _ _ |- _ => clear H
  | H : _ = Ret _ |- _ => clear H
  | H : match _ with _ => _ end |- _ => clear H
  | H : _ ∧ _ |- _ => destruct H
  | H : _ !! _ = _ |- _ => clear H
  | H : is_Some _ |- _ => clear H
  | x := _ |- _ => clearbody x
  end; set_solver.

Lemma dl_list_add_eff h p q item :
  nxt h p q → is_Some (h !! q) → is_Some (h !! item) → item ≠ p → item ≠ q →
  ∃ h', dl_list_add h (Some p) item = Ret h' ∧
    nxt h' p item ∧ prv h' item p ∧ nxt h' item q ∧ prv h' q item ∧
    frame h h' [p; item] [q; item].
Proof.
  intros (np & Hp & Hpq) [nq Hq] [ni Hi] Hip Hiq.
  unfold dl_list_add, load, set_next, set_prev; simpl.
  rewrite Hp; simpl. rewrite Hi; simpl. rewrite lookup_insert_eq; simpl.
  rewrite insert_insert_eq, lookup_insert_ne, Hp by done; simpl. rewrite Hpq.
  rewrite lookup_insert_ne, Hq by done; simpl.
  destruct (decide (p = q)) as [->|Hne].
  - rewrite lookup_insert_eq; simpl. eexists; split; [done|].
    split_and!; try by step_store.
    split; try by (intros z w ? (?&?&?); assert (z ≠ q) by set_solver;
                   assert (z ≠ item) by set_solver; step_store).
    + intros z ??. rewrite !lookup_insert_ne by set_solver. done.
    + rewrite !dom_insert_L. apply elem_of_dom_2 in Hp, Hi. set_solver.
  - rewrite lookup_insert_ne, lookup_insert_ne, Hp by done; simpl.
    eexists; split; [done|]. split_and!; try by step_store.
    split.
    + intros z w ? (n&?&?). destruct (decide (z = q)) as [->|]; [|
        exists n; rewrite !lookup_insert_ne by set_solver; done].
      step_store.
    + intros z w ? (n&?&?). destruct (decide (z = p)) as [->|]; [|
        exists n; rewrite !lookup_insert_ne by set_solver; done].
      step_store.
    + intros z ??. rewrite !lookup_insert_ne by set_solver. done.
    + rewrite !dom_insert_L. apply elem_of_dom_2 in Hp, Hi, Hq. set_solver.
Qed.

Lemma dl_list_del_eff h p q item :
  prv h item p → nxt h item q → is_Some (h !! p) → is_Some (h !! q) →
  item ≠ p → item ≠ q →
  ∃ h', dl_list_del h item = Ret h' ∧
    nxt h' p q ∧ prv h' q p ∧ h' !! item = Some (DlNode None None) ∧
    frame h h' [p; item] [q; item].
Proof.
  intros (ni & Hi & Hpi) (ni' & Hi' & Hqi) [np Hp] [nq Hq] Hip Hiq. simplify_eq.
  unfold dl_list_del, load, set_next, set_prev; simpl.
  rewrite Hi; simpl. rewrite Hqi, Hq; simpl.
  rewrite lookup_insert_ne, Hi by done; simpl. rewrite Hpi, Hqi.
  destruct (decide (p = q)) as [->|Hne].
  - rewrite lookup_insert_eq; simpl.
    rewrite insert_insert_eq, lookup_insert_ne, Hi by done; simpl.
    rewrite lookup_insert_eq; simpl. rewrite insert_insert_eq.
    eexists; split; [done|]. split_and!; try by step_store.
    split; try by (intros z w ? (?&?&?); assert (z ≠ q) by set_solver;
                   assert (z ≠ item) by set_solver; step_store).
    + intros z ??. rewrite !lookup_insert_ne by set_solver. done.
    + rewrite !dom_insert_L. apply elem_of_dom_2 in Hq, Hi. set_solver.
  - rewrite lookup_insert_ne, Hp by done; simpl.
    rewrite !(lookup_insert_ne _ _ item) by done. rewrite Hi; simpl.
    rewrite lookup_insert_eq; simpl. rewrite insert_insert_eq.
    eexists; split; [done|]. split_and!; try by step_store.
    split.
    + intros z w ? (n&?&?). destruct (decide (z = q)) as [->|]; [|
        exists n; rewrite !lookup_insert_ne by set_solver; done].
      step_store.
    + intros z w ? (n&?&?). destruct (decide (z = p)) as [->|]; [|
        exists n; rewrite !lookup_insert_ne by set_solver; done].
      step_store.
    + intros z ??. rewrite !lookup_insert_ne by set_solver. done.
    + rewrite !dom_insert_L. apply elem_of_dom_2 in Hp, Hi, Hq. set_solver.
Qed.

(** ** The operations on represented lists *)

Lemma NoDup_middle {A} (l k : list A) x :
  NoDup (l ++ x :: k) ↔ (x ∉ l ++ k) ∧ NoDup (l ++ k).
Proof. rewrite <-Permutation_middle. apply NoDup_cons. Qed.

Lemma dl_list_init_rep h a :
  is_Some (h !! a) → ∃ h', dl_list_init h a = Ret h' ∧ rep h' a [] ∧
    dom h' = dom h ∧ (∀ z, z ≠ a → h' !! z = h !! z).
Proof.
  intros [n Ha]. unfold dl_list_init, set_next, set_prev; simpl.
  rewrite Ha; simpl. rewrite lookup_insert_eq; simpl.
  eexists; split; [done|]. split_and!.
  - split; [apply NoDup_singleton|]. simpl. split_and!; by step_store.
  - rewrite !dom_insert_L. apply elem_of_dom_2 in Ha. set_solver.
  - intros. by rewrite !lookup_insert_ne by done.
Qed.

(** Splitting the circular chain at a position: the node before it and the
    node after it. *)
Lemma chain_split h x l k y :
  chain h x (l ++ k ++ [y]) →
  chain h x (l ++ [default y (head k)]) ∧
  match k with [] => True | z :: k => chain h z (k ++ [y]) end.
Proof. destruct k; simpl; [done|]. by rewrite chain_app. Qed.

(** The last step of a chain. *)
Lemma chain_last h x l y : chain h x (l ++ [y]) →
  nxt h (default x (last l)) y ∧ prv h y (default x (last l)).
Proof.
  induction l as [|z l _] using rev_ind; simpl; [tauto|].
  rewrite <-app_assoc; simpl. rewrite chain_app, last_snoc; simpl. tauto.
Qed.

(** A chain whose last step is redirected: every source but the last keeps
    its [next]. *)
Lemma chain_relink h h' x l y y' :
  NoDup (x :: l) →
  (∀ z w, z ∈ x :: l → z ≠ default x (last l) → nxt h z w → nxt h' z w) →
  (∀ z w, z ∈ l → prv h z w → prv h' z w) →
  nxt h' (default x (last l)) y' → prv h' y' (default x (last l)) →
  chain h x (l ++ [y]) → chain h' x (l ++ [y']).
Proof.
  revert x. induction l as [|z l IH]; intros x Hnd Hn Hp Hl Hr Hc; simpl in *; [tauto|].
  destruct Hc as (H1 & H2 & Hc). apply NoDup_cons in Hnd as [Hx Hnd].
  assert (default x (last (z :: l)) = default z (last l)) as E
    by (rewrite last_cons; by destruct (last l)).
  rewrite E in *.
  assert (default z (last l) ∈ z :: l) as Hin.
  { destruct (last l) as [w|] eqn:El; simpl; [|set_solver].
    apply last_Some in El as [? ->]. set_solver. }
  split; [|split].
  - apply Hn; [set_solver| |done]. intros ->. done.
  - apply Hp; [set_solver|done].
  - apply IH; try done; intros; [apply Hn|apply Hp]; try set_solver; done.
Qed.

Lemma dl_list_add_rep h hd l k item :
  rep h hd (l ++ k) → is_Some (h !! item) → item ∉ hd :: l ++ k →
  ∃ h', dl_list_add h (Some (default hd (last l))) item = Ret h' ∧
    rep h' hd (l ++ item :: k) ∧ dom h' = dom h ∧
    (∀ z, z ∉ item :: hd :: l ++ k → h' !! z = h !! z).
Proof.
  intros Hrep Hlive Hni. pose proof Hrep as [Hnd Hc].
  rewrite <-app_assoc in Hc. apply chain_split in Hc as [Hc1 Hc2].
  set (p := default hd (last l)). set (q := default hd (head k)) in *.
  assert (p ∈ hd :: l) as Hp.
  { subst p. destruct (last l) eqn:El; simpl; [|set_solver].
    apply last_Some in El as [? ->]. set_solver. }
  assert (q ∈ hd :: k) as Hq by (subst q; destruct k; set_solver).
  destruct (chain_last _ _ _ _ Hc1) as [Hpq Hqp].
  destruct (dl_list_add_eff h p q item) as (h' & Hrun & ? & ? & ? & ? & Hfr);
    [done|destruct Hqp as (?&?&?); eauto|done|node_solver|node_solver|].
  pose proof Hnd as Hnd'. apply NoDup_cons in Hnd' as [? Hnd'].
  apply NoDup_app in Hnd' as (_ & Hd & Hk).
  exists h'. split; [done|]. split_and!.
  - split.
    + change (hd :: l ++ item :: k) with ((hd :: l) ++ item :: k).
      apply NoDup_middle. split; [node_solver|done].
    + rewrite <-app_assoc; simpl. apply chain_app. split.
      * apply (chain_relink h h' hd l q); try done.
        -- by apply (NoDup_app (hd :: l) k) in Hnd as (? & _ & _).
        -- intros z w ? Hz. fold p in Hz. apply (frame_next _ _ _ _ Hfr). node_solver.
        -- intros z w Hz. apply (frame_prev _ _ _ _ Hfr).
           assert (z ≠ q) by (intros ->; node_solver). node_solver.
      * subst q. destruct k as [|z k]; simpl in *; [done|]. split; [done|]. split; [done|].
        apply NoDup_cons in Hk as [? ?].
        eapply chain_frame; [| |done].
        -- intros y w Hy. apply (frame_next _ _ _ _ Hfr). node_solver.
        -- intros y w Hy. apply (frame_prev _ _ _ _ Hfr). node_solver.
  - apply Hfr.
  - intros z Hz. apply Hfr; node_solver.
Qed.

Lemma dl_list_add_tail_rep h hd xs item :
  rep h hd xs → is_Some (h !! item) → item ∉ hd :: xs →
  ∃ h', dl_list_add_tail h hd item = Ret h' ∧ rep h' hd (xs ++ [item]) ∧
    dom h' = dom h ∧ (∀ z, z ∉ item :: hd :: xs → h' !! z = h !! z).
Proof.
  intros Hrep Hlive Hni. destruct (rep_prev _ _ _ Hrep) as (n & Hn & Hpr).
  unfold dl_list_add_tail, load; simpl. rewrite Hn; simpl. rewrite Hpr.
  destruct (dl_list_add_rep h hd xs [] item) as (h' & Hr & ? & ? & ?);
    rewrite ?app_nil_r in *; eauto 10.
Qed.

Lemma dl_list_del_rep h hd l k item :
  rep h hd (l ++ item :: k) →
  ∃ h', dl_list_del h item = Ret h' ∧ rep h' hd (l ++ k) ∧
    h' !! item = Some (DlNode None None) ∧ dom h' = dom h ∧
    (∀ z, z ∉ hd :: l ++ item :: k → h' !! z = h !! z).
Proof.
  intros [Hnd Hc]. rewrite <-app_assoc in Hc; simpl in Hc.
  apply chain_app in Hc as [Hc1 Hc2].
  change (item :: k ++ [hd]) with ([item] ++ k ++ [hd]) in Hc2.
  pose proof Hnd as Hnd'. change (hd :: l ++ item :: k) with ((hd :: l) ++ item :: k) in Hnd'.
  apply NoDup_middle in Hnd' as [Hni Hnd'].
  set (p := default hd (last l)). set (q := default hd (head k)).
  assert (p ∈ hd :: l) as Hp.
  { subst p. destruct (last l) eqn:El; simpl; [|set_solver].
    apply last_Some in El as [? ->]. set_solver. }
  assert (q ∈ hd :: k) as Hq by (subst q; destruct k; set_solver).
  destruct (chain_last _ _ _ _ Hc1) as [Hpi Hip]. fold p in Hpi, Hip.
  assert (nxt h item q ∧ prv h q item) as [Hiq Hqi]
    by (subst q; destruct k; simpl in *; tauto).
  destruct (dl_list_del_eff h p q item) as (h' & Hrun & ? & ? & ? & Hfr);
    [done|done|destruct Hpi as (?&?&?); eauto|destruct Hqi as (?&?&?); eauto
    |node_solver|node_solver|].
  exists h'. split; [done|]. split_and!; [|done|apply Hfr|].
  - split; [done|]. change (hd :: l ++ k) with ((hd :: l) ++ k) in Hnd'.
    apply NoDup_cons in Hnd' as [Hhd Hnd']. apply NoDup_app in Hnd' as (Hl & Hd & Hk).
    assert (chain h' hd (l ++ [q])) as Hl'.
    { apply (chain_relink h h' hd l item); try done.
      - apply NoDup_cons. split; [node_solver|done].
      - intros z w ? Hz. fold p in Hz. apply (frame_next _ _ _ _ Hfr). node_solver.
      - intros z w Hz. apply (frame_prev _ _ _ _ Hfr).
        assert (z ≠ q) by (intros ->; node_solver). node_solver. }
    subst q. destruct k as [|z k]; simpl in *; [by rewrite app_nil_r|].
    rewrite <-app_assoc; simpl. apply chain_app. split; [done|].
    apply NoDup_cons in Hk as [? ?].
    eapply chain_frame; [| |apply Hc2].
    + intros y w Hy. apply (frame_next _ _ _ _ Hfr). node_solver.
    + intros y w Hy. apply (frame_prev _ _ _ _ Hfr). node_solver.
  - intros z Hz. apply Hfr; node_solver.
Qed.

Lemma dl_list_empty_rep h hd xs :
  rep h hd xs → dl_list_empty h hd = Ret (bool_decide (xs = [])).
Proof.
  intros Hrep. destruct (rep_next _ _ _ Hrep) as (n & Hn & Hnx).
  unfold dl_list_empty, load; simpl. rewrite Hn; simpl. rewrite Hnx.
  f_equal. destruct xs as [|x xs]; simpl; [by rewrite !bool_decide_true|].
  apply bool_decide_false. intros [= ->].
  destruct Hrep as [Hnd _]. apply NoDup_cons in Hnd as [Hnd _]. set_solver.
Qed.

Lemma dl_list_first_rep h hd xs : rep h hd xs → dl_list_first h hd = Ret (head xs).
Proof.
  intros Hrep. unfold dl_list_first. rewrite (dl_list_empty_rep _ _ _ Hrep); simpl.
  destruct (rep_next _ _ _ Hrep) as (n & Hn & Hnx).
  destruct xs; simpl in *; [done|]. rewrite Hn; simpl. by rewrite Hnx.
Qed.

Lemma dl_list_last_rep h hd xs : rep h hd xs → dl_list_last h hd = Ret (last xs).
Proof.
  intros Hrep. unfold dl_list_last. rewrite (dl_list_empty_rep _ _ _ Hrep); simpl.
  destruct (rep_prev _ _ _ Hrep) as (n & Hn & Hpr).
  destruct xs as [|x xs]; [done|]. rewrite bool_decide_false by done.
  unfold load. rewrite Hn; simpl. rewrite Hpr. by rewrite last_cons; destruct (last xs).
Qed.

(** The list is no longer than the store, so the fuel of [dl_list_len] (one
    more than the live nodes) always suffices. *)
Lemma rep_size h hd xs : rep h hd xs → (S (length xs) ≤ size h)%nat.
Proof.
  intros Hrep. pose proof Hrep as [Hnd _].
  change (S (length xs)) with (length (hd :: xs)).
  rewrite <-size_dom, <-(size_list_to_set (C := gset positive) _ Hnd).
  apply subseteq_size. intros z Hz%elem_of_list_to_set.
  apply elem_of_dom. by eapply rep_live.
Qed.

Lemma dl_list_len_from_chain fuel h hd x l c :
  hd ∉ x :: l → chain h x (l ++ [hd]) → (S (length l) < fuel)%nat →
  dl_list_len_from fuel h hd (Some x) c = Ret (c + 1 + Z.of_nat (length l)).
Proof.
  revert fuel x c. induction l as [|y l IH]; intros [|fuel] x c Hni Hc Hf; simpl in *; try lia.
  - destruct Hc as ((n & Hn & Hnx) & _). rewrite bool_decide_false by set_solver.
    rewrite Hn; simpl. rewrite Hnx. destruct fuel; [lia|]; simpl.
    rewrite bool_decide_true by done. f_equal. lia.
  - destruct Hc as ((n & Hn & Hnx) & _ & Hc). rewrite bool_decide_false by set_solver.
    rewrite Hn; simpl. rewrite Hnx. rewrite IH; [f_equal; lia|set_solver|done|lia].
Qed.

(** [dl_list_len] terminates within its fuel and counts the items (as a 32-bit
    unsigned value). *)
Lemma dl_list_len_rep h hd xs :
  rep h hd xs → dl_list_len h hd = Ret (u32 (Z.of_nat (length xs))).
Proof.
  intros Hrep. pose proof (rep_size _ _ _ Hrep) as Hs. destruct (rep_next _ _ _ Hrep) as (n & Hn & Hnx).
  unfold dl_list_len, load. rewrite Hn. cbn [mbind run_bind]. rewrite Hnx.
  destruct Hrep as [Hnd Hc]. destruct xs as [|x xs].
  - simpl. by rewrite bool_decide_true.
  - cbn [head default from_option id]. destruct Hc as (_ & _ & Hc).
    apply NoDup_cons in Hnd as [? ?].
    rewrite (dl_list_len_from_chain _ _ _ _ _ _ ltac:(done) Hc) by (simpl in Hs; lia).
    cbn [mbind run_bind]. do 2 f_equal. simpl length. lia.
Qed.

(** Anything that does not touch the nodes of a list preserves it. *)
Lemma rep_ext h h' hd xs :
  (∀ z, z ∈ hd :: xs → h' !! z = h !! z) → rep h hd xs → rep h' hd xs.
Proof.
  intros He [Hnd Hc]. split; [done|]. eapply chain_frame; [| |done];
    intros z w Hz (n & ? & ?); exists n; (split; [|done]); rewrite He; set_solver.
Qed.
