(* ===== verification/Ies.v ===== *)
(** * Information elements of a BSS (src/wpa_supplicant/bss.c)

    The lookups walk the [ie_len] bytes that follow [struct wpa_bss]; they are
    modelled on that byte region, with every read checked against its end.  A
    returned pointer is an offset into the region.  The specification side is
    [ie_stream]: the sequence of type-length-value elements a region holds,
    which stops at the first element that does not fit. *)

From S2P Require Import Prelude.

(** ** Operations *)

(** The walk shared by the lookups: [while (pos + 1 < end) { if (pos + 2 +
    pos[1] > end) break; if (test) return pos; pos += 2 + pos[1]; }]. *)
Fixpoint ie_walk (fuel : nat) (buf : list Z) (test : nat → run bool) (pos : nat)
    : run (option nat) :=
  match fuel with
  | O => OutOfFuel
  | S fuel =>
      if bool_decide (pos + 1 < length buf)%nat then
        len ← rd buf (pos + 1);
        if bool_decide (length buf < pos + 2 + Z.to_nat len)%nat then Ret None
        else
          hit ← test pos;
          if hit : bool then Ret (Some pos)
          else ie_walk fuel buf test (pos + 2 + Z.to_nat len)
      else Ret None
  end.

Definition wpa_bss_get_ie (ies : list Z) (ie : Z) : run (option nat) :=
  ie_walk (S (length ies)) ies
    (λ pos, t ← rd ies pos; Ret (t =? ie)) 0.

Definition WLAN_EID_VENDOR_SPECIFIC : Z := 221.

Definition WPA_GET_BE32_at (buf : list Z) (pos : nat) : run Z :=
  a ← rd buf pos;
  b ← rd buf (pos + 1);
  c ← rd buf (pos + 2);
  d ← rd buf (pos + 3);
  Ret (be32 a b c d).

Definition wpa_bss_get_vendor_ie (ies : list Z) (vendor_type : Z) : run (option nat) :=
  ie_walk (S (length ies)) ies
    (λ pos,
       t ← rd ies pos;
       len ← rd ies (pos + 1);
       if (t =? WLAN_EID_VENDOR_SPECIFIC) && (4 <=? len) then
         v ← WPA_GET_BE32_at ies (pos + 2);
         Ret (vendor_type =? v)
       else Ret false) 0.

Definition WLAN_EID_SUPP_RATES : Z := 1.
Definition WLAN_EID_EXT_SUPP_RATES : Z := 50.

(** [for (i = 0; ie && i < ie[1]; i++) if ((ie[i + 2] & 0x7f) > rate) ...] *)
Fixpoint max_rate_loop (ies : list Z) (ie n i : nat) (rate : Z) : run Z :=
  match n with
  | O => Ret rate
  | S n =>
      b ← rd ies (ie + i + 2);
      max_rate_loop ies ie n (S i)
        (if rate <? Z.land b 0x7f then Z.land b 0x7f else rate)
  end.

Definition max_rate_of (ies : list Z) (ie : option nat) (rate : Z) : run Z :=
  match ie with
  | None => Ret rate
  | Some p => len ← rd ies (p + 1); max_rate_loop ies p (Z.to_nat len) 0 rate
  end.

Definition wpa_bss_get_max_rate (ies : list Z) : run Z :=
  ie ← wpa_bss_get_ie ies WLAN_EID_SUPP_RATES;
  rate ← max_rate_of ies ie 0;
  ie ← wpa_bss_get_ie ies WLAN_EID_EXT_SUPP_RATES;
  max_rate_of ies ie rate.

(** ** Elements of a region *)

Definition ie_bytes (e : Z * list Z) : list Z :=
  e.1 :: Z.of_nat (length e.2) :: e.2.

Inductive ie_stream : list Z → list (Z * list Z) → Prop :=
| ie_stream_short buf : (length buf < 2)%nat → ie_stream buf []
| ie_stream_cut t l r :
    (length r < Z.to_nat l)%nat → ie_stream (t :: l :: r) []
| ie_stream_elem e r es :
    ie_stream r es → ie_stream (ie_bytes e ++ r) (e :: es).

(** Every byte region holds exactly one sequence of elements. *)
Lemma ie_stream_total buf : bytes_ok buf → ∃ es, ie_stream buf es.
Proof.
  remember (length buf) as n eqn:Hn. revert buf Hn.
  induction (lt_wf n) as [n _ IH]; intros buf -> Hok.
  destruct buf as [|t [|l r]]; [exists []; constructor; simpl; lia..|].
  assert (is_byte l) as Hl by (eapply bytes_ok_lookup with (i := 1%nat); eauto).
  destruct (decide (length r < Z.to_nat l)%nat) as [|Hge].
  { exists []. by constructor. }
  assert (length (drop (Z.to_nat l) r) < length (t :: l :: r))%nat as Hlt
    by (rewrite length_drop; simpl; lia).
  assert (bytes_ok (drop (Z.to_nat l) r)) as Hok'.
  { apply Forall_drop. apply (bytes_ok_app [t; l]) in Hok as [_ Hok]. exact Hok. }
  destruct (IH _ Hlt _ eq_refl Hok') as [es Hes].
  exists ((t, take (Z.to_nat l) r) :: es).
  replace (t :: l :: r) with (ie_bytes (t, take (Z.to_nat l) r) ++ drop (Z.to_nat l) r).
  { by constructor. }
  unfold ie_bytes; simpl. rewrite length_take_le by lia.
  unfold is_byte in Hl. rewrite Z2Nat.id, take_drop by lia. done.
Qed.

(** Offset of the first element that satisfies [p]. *)
Fixpoint ie_find (p : Z * list Z → bool) (pos : nat) (es : list (Z * list Z))
    : option nat :=
  match es with
  | [] => None
  | e :: es => if p e then Some pos else ie_find p (pos + 2 + length e.2) es
  end.

(** The walk, started on an element boundary of the region, finds the first
    element whose test succeeds; it neither reads outside the region nor runs
    out of fuel. *)
Lemma ie_walk_spec fuel whole pre buf es test p :
  whole = pre ++ buf → ie_stream buf es →
  (∀ pre' e r, whole = pre' ++ ie_bytes e ++ r → test (length pre') = Ret (p e)) →
  (length buf < fuel)%nat →
  ie_walk fuel whole test (length pre) = Ret (ie_find p (length pre) es).
Proof.
  intros Hw Hs Ht. revert fuel pre Hw.
  induction Hs as [buf Hlen|t l r Hcut|e r es Hs IH]; intros [|fuel] pre Hw Hf; try lia; simpl.
  - rewrite bool_decide_false; [done|]. subst whole. rewrite length_app. lia.
  - rewrite bool_decide_true by (subst whole; rewrite length_app; simpl; lia).
    subst whole. rewrite rd_app_r. simpl.
    rewrite bool_decide_true; [done|]. rewrite length_app; simpl; lia.
  - rewrite bool_decide_true by (subst whole; rewrite !length_app; simpl; lia).
    assert (rd whole (length pre + 1) = Ret (Z.of_nat (length e.2))) as ->.
    { subst whole. by rewrite rd_app_r. }
    cbn [mbind run_bind]. rewrite Nat2Z.id.
    rewrite bool_decide_false
      by (subst whole; rewrite !length_app; unfold ie_bytes; simpl; lia).
    rewrite (Ht _ _ _ Hw). simpl. destruct (p e); [done|].
    replace (length pre + 2 + length e.2)%nat with (length (pre ++ ie_bytes e))
      by (rewrite length_app; unfold ie_bytes; simpl; lia).
    apply IH; [by rewrite <-app_assoc|].
    rewrite length_app in Hf. unfold ie_bytes in Hf. simpl in Hf. lia.
Qed.

Definition ie_is (ie : Z) (e : Z * list Z) : bool := e.1 =? ie.

Definition vendor_is (v : Z) (e : Z * list Z) : bool :=
  (e.1 =? WLAN_EID_VENDOR_SPECIFIC) &&
  match e.2 with a :: b :: c :: d :: _ => v =? be32 a b c d | _ => false end.

Lemma wpa_bss_get_ie_find ies es ie :
  ie_stream ies es → wpa_bss_get_ie ies ie = Ret (ie_find (ie_is ie) 0 es).
Proof.
  intros Hs. apply (ie_walk_spec _ _ [] ies); [done|done| |lia].
  intros pre' e r ->. by rewrite rd_app_0.
Qed.

Lemma wpa_bss_get_vendor_ie_find ies es v :
  ie_stream ies es → wpa_bss_get_vendor_ie ies v = Ret (ie_find (vendor_is v) 0 es).
Proof.
  intros Hs. apply (ie_walk_spec _ _ [] ies); [done|done| |lia].
  intros pre' [t d] r ->. rewrite rd_app_0, rd_app_r. unfold vendor_is; simpl.
  destruct (t =? _); simpl; [|done].
  unfold WPA_GET_BE32_at. rewrite <-!Nat.add_assoc, !rd_app_r.
  destruct d as [|a [|b [|c [|d' d]]]]; simpl; try done.
  rewrite (proj2 (Z.leb_le _ _)) by lia. done.
Qed.

(** The element a lookup returned: it lies inside the region, has the type
    asked for, and its bytes are those of the element in the stream. *)
Lemma ie_find_Some p es : ∀ buf (pre : list Z) pos,
  ie_stream buf es → ie_find p (length pre) es = Some pos →
  ∃ l e r, buf = l ++ ie_bytes e ++ r ∧ pos = (length pre + length l)%nat ∧
    p e = true ∧ e ∈ es.
Proof.
  induction es as [|e es IH]; intros buf pre pos Hs Hf; simpl in *; [done|].
  inversion Hs as [| |? r ? Hs']; subst.
  destruct (p e) eqn:Hp.
  - injection Hf as <-. exists [], e, r. split_and!; [done|simpl; lia|done|set_solver].
  - replace (length pre + 2 + length e.2)%nat with (length (pre ++ ie_bytes e)) in Hf
      by (rewrite length_app; unfold ie_bytes; simpl; lia).
    destruct (IH r _ _ Hs' Hf) as (l & e' & r' & -> & -> & ? & ?).
    exists (ie_bytes e ++ l), e', r'. rewrite !length_app, <-!app_assoc.
    split_and!; [done|lia|done|set_solver].
Qed.

Lemma ie_find_None p es pos : ie_find p pos es = None ↔ Forall (λ e, p e = false) es.
Proof.
  revert pos. induction es as [|e es IH]; intros pos; simpl; [split; [constructor|done]|].
  rewrite Forall_cons, <-(IH (pos + 2 + length e.2)%nat). destruct (p e); naive_solver.
Qed.

(** Contents of the first element that satisfies [p], empty if there is none. *)
Definition ie_data (p : Z * list Z → bool) (es : list (Z * list Z)) : list Z :=
  match List.find p es with Some e => e.2 | None => [] end.

Lemma ie_find_data p es : ∀ buf (pre : list Z),
  ie_stream buf es →
  match ie_find p (length pre) es with
  | None => List.find p es = None
  | Some pos => ∃ l e r, buf = l ++ ie_bytes e ++ r ∧ pos = (length pre + length l)%nat ∧
      List.find p es = Some e
  end.
Proof.
  induction es as [|e es IH]; intros buf pre Hs; simpl in *; [done|].
  inversion Hs as [| |? r ? Hs']; subst. destruct (p e) eqn:Hp.
  - exists [], e, r. split_and!; [done|simpl; lia|done].
  - replace (length pre + 2 + length e.2)%nat with (length (pre ++ ie_bytes e))
      by (rewrite length_app; unfold ie_bytes; simpl; lia).
    specialize (IH r (pre ++ ie_bytes e) Hs').
    destruct (ie_find _ _ es) as [pos|]; [|done].
    destruct IH as (l & e' & r' & -> & -> & ?).
    exists (ie_bytes e ++ l), e', r'. rewrite !length_app, <-!app_assoc.
    split_and!; [done|lia|done].
Qed.

Definition rate_max (rate : Z) (d : list Z) : Z :=
  foldl (λ m b, Z.max m (Z.land b 0x7f)) rate d.

Lemma max_rate_loop_spec pre t d1 d2 r : ∀ rate,
  max_rate_loop (pre ++ ie_bytes (t, d1 ++ d2) ++ r) (length pre) (length d2) (length d1) rate
  = Ret (rate_max rate d2).
Proof.
  revert d1. induction d2 as [|b d2 IH]; intros d1 rate; [done|].
  cbn [max_rate_loop length].
  replace (length pre + length d1 + 2)%nat with (length pre + (2 + length d1))%nat by lia.
  assert (rd (pre ++ ie_bytes (t, d1 ++ b :: d2) ++ r) (length pre + (2 + length d1)) = Ret b)
    as ->.
  { rewrite rd_app_r. apply rd_lookup. unfold ie_bytes; simpl.
    by rewrite <-app_assoc, lookup_app_r, Nat.sub_diag by lia. }
  cbn [mbind run_bind]. specialize (IH (d1 ++ [b])).
  rewrite <-app_assoc, length_app, Nat.add_1_r in IH. cbn [app] in IH.
  etrans; [apply IH|]. unfold rate_max; simpl. f_equal. f_equal.
  destruct (Z.ltb_spec rate (Z.land b 127)); lia.
Qed.

Lemma max_rate_of_spec ies es p rate :
  ie_stream ies es →
  max_rate_of ies (ie_find p 0 es) rate = Ret (rate_max rate (ie_data p es)).
Proof.
  intros Hs. pose proof (ie_find_data p es ies [] Hs) as Hf. unfold ie_data. simpl in Hf.
  destruct (ie_find p 0 es) as [pos|]; simpl; [|by rewrite Hf].
  destruct Hf as (l & [t d] & r & -> & -> & ->). simpl.
  rewrite rd_app_r; simpl. rewrite Nat2Z.id.
  exact (max_rate_loop_spec l t [] d r rate).
Qed.

(** Looking an element up in any byte region is memory-safe and terminates.
    It returns NULL exactly when no element of the region has the type asked
    for, and otherwise the offset of the first such element, whose whole body
    lies inside the region. *)
Theorem wpa_bss_get_ie_correct ies ie :
  bytes_ok ies →
  ∃ es, ie_stream ies es ∧
    match wpa_bss_get_ie ies ie with
    | Ret None => Forall (λ e, e.1 ≠ ie) es
    | Ret (Some pos) =>
        ∃ l e r, ies = l ++ ie_bytes e ++ r ∧ pos = length l ∧ e.1 = ie ∧
          List.find (ie_is ie) es = Some e
    | _ => False
    end.
Proof.
  intros Hok. destruct (ie_stream_total _ Hok) as [es Hs]. exists es. split; [done|].
  rewrite (wpa_bss_get_ie_find _ _ ie Hs).
  pose proof (ie_find_data (ie_is ie) es ies [] Hs) as Hf. simpl in Hf.
  destruct (ie_find _ 0 es) as [pos|] eqn:He.
  - destruct Hf as (l & e & r & ? & ? & Hfind). exists l, e, r.
    split_and!; [done|done| |done].
    apply List.find_some in Hfind as [_ Hfind]. by apply Z.eqb_eq.
  - apply ie_find_None in He. eapply Forall_impl; [exact He|].
    intros e He'. by apply Z.eqb_neq.
Qed.

Lemma wpa_bss_get_ie_correct_witness :
  bytes_ok [0; 2; 97; 98; 107; 1; 0x13; 221; 9; 1] ∧
  wpa_bss_get_ie [0; 2; 97; 98; 107; 1; 0x13; 221; 9; 1] 107 = Ret (Some 4%nat) ∧
  ∃ es, ie_stream [0; 2; 97; 98; 107; 1; 0x13; 221; 9; 1] es ∧
    match wpa_bss_get_ie [0; 2; 97; 98; 107; 1; 0x13; 221; 9; 1] 107 with
    | Ret None => Forall (λ e, e.1 ≠ 107) es
    | Ret (Some pos) =>
        ∃ l e r, [0; 2; 97; 98; 107; 1; 0x13; 221; 9; 1] = l ++ ie_bytes e ++ r ∧
          pos = length l ∧ e.1 = 107 ∧ List.find (ie_is 107) es = Some e
    | _ => False
    end.
Proof.
  assert (bytes_ok [0; 2; 97; 98; 107; 1; 0x13; 221; 9; 1]) as Hok
    by (repeat constructor; vm_compute; congruence).
  split; [exact Hok|]. split; [reflexivity|].
  apply (wpa_bss_get_ie_correct _ 107 Hok).
Defined.

(** The vendor-element lookup is memory-safe on any byte region and finds
    the first vendor-specific element whose first four bytes are the type asked
    for; elements shorter than four bytes are skipped without being read past
    their end. *)
Theorem wpa_bss_get_vendor_ie_correct ies v :
  bytes_ok ies →
  ∃ es, ie_stream ies es ∧
    match wpa_bss_get_vendor_ie ies v with
    | Ret None => Forall (λ e, vendor_is v e = false) es
    | Ret (Some pos) =>
        ∃ l e r, ies = l ++ ie_bytes e ++ r ∧ pos = length l ∧
          List.find (vendor_is v) es = Some e
    | _ => False
    end.
Proof.
  intros Hok. destruct (ie_stream_total _ Hok) as [es Hs]. exists es. split; [done|].
  rewrite (wpa_bss_get_vendor_ie_find _ _ v Hs).
  pose proof (ie_find_data (vendor_is v) es ies [] Hs) as Hf. simpl in Hf.
  destruct (ie_find _ 0 es) as [pos|] eqn:He; [done|]. by apply ie_find_None in He.
Qed.

Lemma wpa_bss_get_vendor_ie_correct_witness :
  wpa_bss_get_vendor_ie [221; 2; 0; 0x50; 221; 5; 0x50; 0x6f; 0x9a; 0x10; 1] 0x506f9a10
    = Ret (Some 4%nat) ∧
  ∃ es, ie_stream [221; 2; 0; 0x50; 221; 5; 0x50; 0x6f; 0x9a; 0x10; 1] es ∧
    match wpa_bss_get_vendor_ie [221; 2; 0; 0x50; 221; 5; 0x50; 0x6f; 0x9a; 0x10; 1]
            0x506f9a10 with
    | Ret None => Forall (λ e, vendor_is 0x506f9a10 e = false) es
    | Ret (Some pos) =>
        ∃ l e r, [221; 2; 0; 0x50; 221; 5; 0x50; 0x6f; 0x9a; 0x10; 1] = l ++ ie_bytes e ++ r ∧
          pos = length l ∧ List.find (vendor_is 0x506f9a10) es = Some e
    | _ => False
    end.
Proof.
  split; [reflexivity|].
  apply (wpa_bss_get_vendor_ie_correct
           [221; 2; 0; 0x50; 221; 5; 0x50; 0x6f; 0x9a; 0x10; 1] 0x506f9a10).
  repeat constructor; vm_compute; congruence.
Defined.

(** [wpa_bss_get_max_rate] is memory-safe and returns the largest 7-bit
    rate of the supported and extended supported rates elements, 0 if neither
    is present. *)
Theorem wpa_bss_get_max_rate_correct ies :
  bytes_ok ies →
  ∃ es, ie_stream ies es ∧
    wpa_bss_get_max_rate ies =
      Ret (rate_max 0 (ie_data (ie_is WLAN_EID_SUPP_RATES) es ++
                       ie_data (ie_is WLAN_EID_EXT_SUPP_RATES) es)).
Proof.
  intros Hok. destruct (ie_stream_total _ Hok) as [es Hs]. exists es. split; [done|].
  unfold wpa_bss_get_max_rate. rewrite !(wpa_bss_get_ie_find _ _ _ Hs).
  cbn [mbind run_bind]. rewrite (max_rate_of_spec _ _ _ _ Hs). cbn [mbind run_bind].
  rewrite (max_rate_of_spec _ _ _ _ Hs). unfold rate_max. by rewrite foldl_app.
Qed.

Lemma wpa_bss_get_max_rate_correct_witness :
  wpa_bss_get_max_rate [1; 2; 0x82; 0x0c; 50; 1; 0x6c] = Ret 0x6c ∧
  ∃ es, ie_stream [1; 2; 0x82; 0x0c; 50; 1; 0x6c] es ∧
    wpa_bss_get_max_rate [1; 2; 0x82; 0x0c; 50; 1; 0x6c] =
      Ret (rate_max 0 (ie_data (ie_is WLAN_EID_SUPP_RATES) es ++
                       ie_data (ie_is WLAN_EID_EXT_SUPP_RATES) es)).
Proof.
  split; [reflexivity|]. apply (wpa_bss_get_max_rate_correct [1; 2; 0x82; 0x0c; 50; 1; 0x6c]).
  repeat constructor; vm_compute; congruence.
Defined.
