(* ===== verification/Arbiter.v ===== *)
(** * The network-selection arbiter (src/wpa_supplicant/arbiter)

    The arbiter is this repository's own addition: after ANQP information has
    been fetched, [arbiter_select] runs a pipeline of filters over an intrusive
    list of candidates and returns the BSS of the survivor.  The filters unlink
    and free nodes while they walk the list, so the model keeps the store: the
    [dl_list] links of every live node ([lnk]), the [bss] field of every live
    [filter_candidate] ([cand]; the list member is its first member, so both
    have the same address) and the BSS entries they point to ([bsss]).  Freeing
    removes the address.  The messages sent by [arbiter_message] are collected
    in [log]; their transport (log file, wpa_msg) is not modelled. *)

From stdpp Require Import strings.
From S2P Require Import Prelude DlList Ies.

(** ** Data *)

(** The fields of [struct wpa_bss] the arbiter reads: the 32-byte SSID array
    and the [ie_len] bytes of elements that follow the structure. *)
Record wpa_bss := WpaBss { bss_ssid : list Z; bss_ies : list Z }.

Inductive message :=
| Text (s : string)
| ApName (ssid : list Z).

Record world := World {
  lnk : gmap addr dl_list;
  cand : gmap addr addr;
  bsss : gmap addr wpa_bss;
  log : list message
}.

Definition set_lnk (h : gmap addr dl_list) (w : world) : world :=
  World h (cand w) (bsss w) (log w).

Definition arbiter_message (w : world) (m : message) : world :=
  World (lnk w) (cand w) (bsss w) (log w ++ [m]).

Definition os_free (w : world) (p : addr) : run world :=
  match lnk w !! p with
  | Some _ => Ret (World (delete p (lnk w)) (delete p (cand w)) (bsss w) (log w))
  | None => UB UseAfterFree
  end.

Definition candidate_bss (w : world) (item : addr) : run addr :=
  match cand w !! item with Some b => Ret b | None => UB UseAfterFree end.

Definition load_bss (w : world) (b : addr) : run wpa_bss :=
  match bsss w !! b with Some r => Ret r | None => UB UseAfterFree end.

(** ** util.c *)

Definition EXTENDED_CAPABILITIES_IE_ID : Z := 127.
Definition INTERWORKING_IE_ID : Z := 107.

Definition ie_enable_interworking (bss : wpa_bss) : run bool :=
  pos ← wpa_bss_get_ie (bss_ies bss) EXTENDED_CAPABILITIES_IE_ID;
  match pos with
  | None => Ret false
  | Some pos =>
      len ← rd (bss_ies bss) (pos + 1);
      if 4 <=? len then
        b ← rd (bss_ies bss) (pos + 2 + 3); Ret (negb (Z.land b 0x80 =? 0))
      else Ret false
  end.

Definition ie_interworking_internet (bss : wpa_bss) : run bool :=
  pos ← wpa_bss_get_ie (bss_ies bss) INTERWORKING_IE_ID;
  match pos with
  | None => Ret false
  | Some pos =>
      len ← rd (bss_ies bss) (pos + 1);
      if 1 <=? len then
        b ← rd (bss_ies bss) (pos + 2); Ret (negb (Z.land b 0x10 =? 0))
      else Ret false
  end.

Definition is_free_public (bss : wpa_bss) : run bool :=
  pos ← wpa_bss_get_ie (bss_ies bss) INTERWORKING_IE_ID;
  match pos with
  | None => Ret false
  | Some pos =>
      len ← rd (bss_ies bss) (pos + 1);
      if len <? 1 then Ret false
      else b ← rd (bss_ies bss) (pos + 2); Ret (Z.land b 0x0f =? 3)
  end.

(** The C string at the start of an array: the bytes before the first NUL.
    Without one, [%s] reads past the array. *)
Fixpoint c_string (a : list Z) : run (list Z) :=
  match a with
  | [] => UB OutOfBounds
  | c :: a => if c =? 0 then Ret [] else s ← c_string a; Ret (c :: s)
  end.

(** [dl_list_for_each(item, list, ...)] of [display_candidates]; the 128-byte
    message buffer holds any string of a 32-byte array. *)
Fixpoint display_loop (fuel : nat) (w : world) (lst : addr) (item : option addr)
    : run world :=
  match fuel with
  | O => OutOfFuel
  | S fuel =>
      if bool_decide (item = Some lst) then Ret w
      else
        match item with
        | None => UB NullDeref
        | Some it =>
            b ← candidate_bss w it;
            bss ← load_bss w b;
            name ← c_string (bss_ssid bss);
            let w := arbiter_message w (ApName name) in
            n ← load (lnk w) item;
            display_loop fuel w lst (next n)
        end
  end.

Definition display_candidates (w : world) (lst : addr) : run world :=
  e ← dl_list_empty (lnk w) lst;
  let w := if e : bool then arbiter_message w (Text "No network Left!") else w in
  l ← load (lnk w) (Some lst);
  display_loop (S (size (lnk w))) w lst (next l).

(** ** filter.c *)

Definition add_candidate (w : world) (lst candidate : addr) : run world :=
  h ← dl_list_add_tail (lnk w) lst candidate;
  Ret (set_lnk h w).

(** [os_malloc] returns NULL or a block at an address [p] not in use. *)
Definition build_candidate (w : world) (p : option addr) (bss : addr) : world * option addr :=
  match p with
  | None => (w, None)
  | Some p =>
      (World (<[p := DlNode None None]> (lnk w)) (<[p := bss]> (cand w)) (bsss w) (log w),
       Some p)
  end.

Definition consortium_filter (w : world) (candidates : addr) : run world := Ret w.

(** [if (wait_to_delete) { dl_list_del(...); os_free(...); }] *)
Definition delete_waiting (w : world) (wait_to_delete : option addr) : run world :=
  match wait_to_delete with
  | None => Ret w
  | Some d => h ← dl_list_del (lnk w) d; os_free (set_lnk h w) d
  end.

(** The loop shared by the two element filters: a candidate that fails [test]
    is unlinked one iteration later, after the iterator has moved past it. *)
Fixpoint filter_loop (fuel : nat) (test : wpa_bss → run bool) (w : world) (lst : addr)
    (item wait_to_delete : option addr) : run world :=
  match fuel with
  | O => OutOfFuel
  | S fuel =>
      if bool_decide (item = Some lst) then delete_waiting w wait_to_delete
      else
        match item with
        | None => UB NullDeref
        | Some it =>
            w ← delete_waiting w wait_to_delete;
            b ← candidate_bss w it;
            bss ← load_bss w b;
            keep ← test bss;
            n ← load (lnk w) item;
            filter_loop fuel test w lst (next n) (if keep : bool then None else item)
        end
  end.

Definition access_internet_filter (w : world) (candidates : addr) : run world :=
  let w := arbiter_message w (Text "Accessing Internet Filter starts working...") in
  l ← load (lnk w) (Some candidates);
  filter_loop (S (size (lnk w))) ie_interworking_internet w candidates (next l) None.

Definition free_public_filter (w : world) (candidates : addr) : run world :=
  let w := arbiter_message w (Text "Free-Public Filter starts working...") in
  l ← load (lnk w) (Some candidates);
  filter_loop (S (size (lnk w))) is_free_public w candidates (next l) None.

(** [while (!dl_list_empty(candidates))] of [random_filter]. *)
Fixpoint random_loop (fuel : nat) (w : world) (lst : addr) (decide i : Z)
    (ret : option addr) : run (world * option addr) :=
  match fuel with
  | O => OutOfFuel
  | S fuel =>
      e ← dl_list_empty (lnk w) lst;
      if e : bool then Ret (w, ret)
      else
        pointer ← dl_list_first (lnk w) lst;
        match pointer with
        | None => UB NullDeref
        | Some p =>
            h ← dl_list_del (lnk w) p;
            let w := set_lnk h w in
            if i =? decide then random_loop fuel w lst decide (i + 1) (Some p)
            else w ← os_free w p; random_loop fuel w lst decide (i + 1) ret
        end
  end.

(** [rnd] is the value [os_random()] returns. *)
Definition random_filter (rnd : Z) (w : world) (candidates : addr) : run world :=
  num ← dl_list_len (lnk w) candidates;
  if num =? 0 then UB DivisionByZero
  else
    let decide := u64 rnd mod num in
    let w := arbiter_message w (Text "Random Filter starts working...") in
    '(w, ret) ← random_loop (S (size (lnk w))) w candidates decide 0 None;
    match ret with
    | None => UB NullDeref
    | Some r => add_candidate w candidates r
    end.

(** ** arbiter.c *)

Inductive arbiter_state := ARBITER_IDLE | ARBITER_QUERYING | ARBITER_DECIDING.

(** The values the [filters] array can hold. *)
Inductive arbiter_filter := FreePublic | AccessInternet | Random | Consortium.

Record arbiter := Arbiter {
  state : arbiter_state;
  filter_num : nat;
  filters : list arbiter_filter;
  set_auto : bool
}.

(** [mem] says whether [os_malloc] succeeds; [None] is a NULL result. *)
Definition arbiter_init (mem : bool) : option arbiter :=
  if mem then Some (Arbiter ARBITER_IDLE 3 [FreePublic; AccessInternet; Random] false)
  else None.

Definition run_filter (f : arbiter_filter) (rnd : Z) (w : world) (lst : addr) : run world :=
  match f with
  | FreePublic => free_public_filter w lst
  | AccessInternet => access_internet_filter w lst
  | Random => random_filter rnd w lst
  | Consortium => consortium_filter w lst
  end.

(** The loop over [filters[i]], [i < filter_num]: every filter works in place
    on [list]; an empty result ends it. *)
Fixpoint filter_pipeline (fs : list arbiter_filter) (rnd : Z) (w : world) (lst : addr)
    : run world :=
  match fs with
  | [] => Ret w
  | f :: fs =>
      w ← run_filter f rnd w lst;
      let w := arbiter_message w (Text "After this filter, candidates left are:") in
      w ← display_candidates w lst;
      e ← dl_list_empty (lnk w) lst;
      if e : bool then Ret w else filter_pipeline fs rnd w lst
  end.

Definition set_state (s : arbiter_state) (a : arbiter) : arbiter :=
  Arbiter s (filter_num a) (filters a) (set_auto a).

Definition arbiter_select (rnd : Z) (arb : option arbiter) (w : world) (lst : addr)
    : run (arbiter * world * option addr) :=
  match arb with
  | None => UB NullDeref
  | Some a =>
      let a := set_state ARBITER_DECIDING a in
      let w := arbiter_message w (Text "All information retrieved, start selecting process.") in
      let w := arbiter_message w (Text "All interworking networks available are:") in
      w ← display_candidates w lst;
      w ← filter_pipeline (take (filter_num a) (filters a)) rnd w lst;
      let a := set_state ARBITER_IDLE a in
      e ← dl_list_empty (lnk w) lst;
      if e : bool then
        Ret (a, arbiter_message w (Text "No network can be selected after all filters!"), None)
      else
        candidate ← dl_list_first (lnk w) lst;
        match candidate with
        | None => UB NullDeref
        | Some c =>
            ans ← candidate_bss w c;
            w ← os_free w c;
            Ret (a, w, Some ans)
        end
  end.

Definition newline : string := String (Ascii.ascii_of_nat 10) EmptyString.

Definition arbiter_set_auto (a : arbiter) (buf : string) : arbiter * string * Z :=
  if String.prefix "TRUE" buf then
    (Arbiter (state a) (filter_num a) (filters a) true, ("Arbiter: AUTO_SET" +:+ newline)%string, 18)
  else if String.prefix "FALSE" buf then
    (Arbiter (state a) (filter_num a) (filters a) false, ("Arbiter: AUTO_RESET" +:+ newline)%string, 20)
  else (a, EmptyString, -1).

(** ** interworking.c: the client of the arbiter

    [cred] is [interworking_credentials_available], [malloc b] the address
    [os_malloc] returns for the candidate of BSS [b] and [table] the BSS list of
    the interface.  The [wpa_msg] announcements of the networks found are not
    modelled. *)

Record iw_state := IwState {
  network_select : bool;
  auto_select : bool;
  arb : option arbiter
}.

Fixpoint collect_candidates (cred : addr → bool) (malloc : addr → option addr)
    (auto : bool) (w : world) (lst : addr) (table : list addr) : run world :=
  match table with
  | [] => Ret w
  | bss :: table =>
      if cred bss then
        let '(w, candidate) := build_candidate w (malloc bss) bss in
        w ← match candidate with
            | Some c => if auto then add_candidate w lst c else Ret w
            | None => Ret w
            end;
        collect_candidates cred malloc auto w lst table
      else collect_candidates cred malloc auto w lst table
  end.

(** The [BSS] passed to [interworking_connect], if any, is the last result. *)
Definition interworking_select_network (cred : addr → bool) (malloc : addr → option addr)
    (rnd : Z) (s : iw_state) (w : world) (candidates : addr) (table : list addr)
    : run (iw_state * world * option addr) :=
  let s := IwState false (auto_select s) (arb s) in
  h ← dl_list_init (lnk w) candidates;
  w ← collect_candidates cred malloc (auto_select s) (set_lnk h w) candidates table;
  '(a, w, selected) ← arbiter_select rnd (arb s) w candidates;
  Ret (IwState (network_select s) (auto_select s) (Some a), w, selected).

(** ** The walks over the candidate list *)

(** [w'] is [w] with the candidates of [rem] freed. *)
Record freed (w w' : world) (rem : list addr) : Prop := {
  freed_cand : ∀ z, cand w' !! z = if decide (z ∈ rem) then None else cand w !! z;
  freed_dom : dom (lnk w') = dom (lnk w) ∖ list_to_set rem;
  freed_bsss : bsss w' = bsss w
}.

Lemma freed_refl w : freed w w [].
Proof.
  split; [|set_solver|done].
  intros z. rewrite decide_False; [done|]. set_solver.
Qed.

Lemma freed_trans w1 w2 w3 r1 r2 :
  freed w1 w2 r1 → freed w2 w3 r2 → freed w1 w3 (r1 ++ r2).
Proof.
  intros [Hc1 Hd1 Hb1] [Hc2 Hd2 Hb2]. split; [|set_solver|congruence].
  intros z. rewrite Hc2, Hc1. repeat case_decide; set_solver.
Qed.

Lemma unlink_free w lst l k d :
  rep (lnk w) lst (l ++ d :: k) →
  ∃ h w', dl_list_del (lnk w) d = Ret h ∧ os_free (set_lnk h w) d = Ret w' ∧
    rep (lnk w') lst (l ++ k) ∧ freed w w' [d].
Proof.
  intros Hrep. destruct (dl_list_del_rep _ _ _ _ _ Hrep) as (h & Hdel & Hrep' & Hd & Hdom & _).
  exists h. unfold os_free; simpl. rewrite Hd.
  eexists; split; [done|]. split; [done|]. split.
  - eapply rep_ext; [|exact Hrep']. simpl. intros z Hz.
    apply lookup_delete_ne. intros <-.
    destruct Hrep as [Hnd _]. change (lst :: l ++ d :: k) with ((lst :: l) ++ d :: k) in Hnd.
    apply NoDup_middle in Hnd as [Hnd _]. set_solver.
  - split; simpl; [|by rewrite dom_delete_L, Hdom; set_solver|done].
    intros z. rewrite lookup_delete. repeat case_decide; set_solver.
Qed.

(** The node an iterator over [todo] stands on. *)
Definition cursor (lst : addr) (todo : list addr) : option addr :=
  Some (default lst (head todo)).

Lemma cursor_next h lst l x todo :
  rep h lst (l ++ x :: todo) → ∃ n, h !! x = Some n ∧ next n = cursor lst todo.
Proof.
  intros [_ Hc]. rewrite <-app_assoc in Hc; simpl in Hc.
  apply chain_app in Hc as [_ Hc]. destruct todo; simpl in Hc; naive_solver.
Qed.

Lemma rep_not_head h lst l x k : rep h lst (l ++ x :: k) → x ≠ lst.
Proof. intros [Hnd _] ->. apply NoDup_cons in Hnd as [Hnd _]. set_solver. Qed.

(** What a filter needs of its candidates: live entries on which the test
    answers [keep]. *)
Definition testable (test : wpa_bss → run bool) (keep : addr → bool) (w : world)
    (xs : list addr) : Prop :=
  ∀ x, x ∈ xs → ∃ b bss, cand w !! x = Some b ∧ bsss w !! b = Some bss ∧
    test bss = Ret (keep x).

Lemma testable_freed test keep w w' rem xs ys :
  testable test keep w xs → freed w w' rem → (∀ y, y ∈ ys → y ∈ xs ∧ y ∉ rem) →
  testable test keep w' ys.
Proof.
  intros Ht Hf Hsub y Hy. destruct (Hsub y Hy) as [Hx Hr].
  destruct (Ht y Hx) as (b & bss & Hc & Hb & Hk). exists b, bss.
  rewrite (freed_cand _ _ _ Hf), decide_False, (freed_bsss _ _ _ Hf) by done. done.
Qed.

Lemma filter_loop_spec test keep lst todo : ∀ fuel w kept wait,
  rep (lnk w) lst (kept ++ option_list wait ++ todo) →
  testable test keep w todo → (length todo < fuel)%nat →
  ∃ w', filter_loop fuel test w lst (cursor lst todo) wait = Ret w' ∧
    rep (lnk w') lst (kept ++ List.filter keep todo) ∧
    freed w w' (option_list wait ++ List.filter (λ x, negb (keep x)) todo).
Proof.
  assert (∀ w kept wait todo, rep (lnk w) lst (kept ++ option_list wait ++ todo) →
    ∃ w', delete_waiting w wait = Ret w' ∧ rep (lnk w') lst (kept ++ todo) ∧
      freed w w' (option_list wait)) as Hwait.
  { intros w kept [d|] td Hrep; simpl in *; [|eauto using freed_refl].
    destruct (unlink_free _ _ _ _ _ Hrep) as (h & w' & -> & ? & ? & ?). eauto. }
  induction todo as [|x todo IH]; intros [|fuel] w kept wait Hrep Ht Hf; simpl in *; try lia.
  - rewrite bool_decide_true by done. rewrite app_nil_r. rewrite app_nil_r.
    destruct (Hwait w kept wait [] Hrep) as (w' & ? & Hr & ?).
    rewrite app_nil_r in Hr. eauto.
  - destruct (Hwait w kept wait (x :: todo) Hrep) as (w1 & Hw1 & Hrep1 & Hfr1).
    rewrite bool_decide_false by (intros [= ?]; by eapply rep_not_head).
    rewrite Hw1; cbn [mbind run_bind].
    assert ((x ∉ option_list wait) ∧ (∀ y, y ∈ todo → y ∉ option_list wait)) as [Hxw Hyw].
    { destruct Hrep as [Hnd _]. apply NoDup_cons in Hnd as [_ Hnd].
      apply NoDup_app in Hnd as (_ & _ & Hnd). apply NoDup_app in Hnd as (_ & Hnd & _).
      set_solver. }
    assert (testable test keep w1 (x :: todo)) as Ht1
      by (eapply testable_freed; [done|done|]; intros y Hy;
          apply elem_of_cons in Hy as [->|Hy]; set_solver).
    destruct (Ht1 x ltac:(set_solver)) as (b & bss & Hc & Hb & Hk).
    unfold candidate_bss, load_bss. rewrite Hc; cbn [mbind run_bind].
    rewrite Hb; cbn [mbind run_bind]. rewrite Hk; cbn [mbind run_bind].
    destruct (cursor_next _ _ _ _ _ Hrep1) as (n & Hn & Hnx).
    unfold load. rewrite Hn; cbn [mbind run_bind]. rewrite Hnx.
    assert (testable test keep w1 todo) as Ht2 by (intros y Hy; apply Ht1; set_solver).
    destruct (keep x) eqn:Hkx; simpl.
    + destruct (IH fuel w1 (kept ++ [x]) None) as (w' & ? & ? & ?);
        [by rewrite <-app_assoc|done|lia|].
      exists w'. rewrite <-app_assoc in *. split; [done|]. split; [done|].
      by eapply freed_trans.
    + destruct (IH fuel w1 kept (Some x)) as (w' & ? & ? & ?); [done|done|lia|].
      exists w'. split; [done|]. split; [done|].
      by eapply freed_trans.
Qed.

Lemma message_freed w m : freed w (arbiter_message w m) [].
Proof. by destruct (freed_refl w) as [Hc Hd Hb]; split. Qed.

Lemma relink_freed h w : dom h = dom (lnk w) → freed w (set_lnk h w) [].
Proof. intros Hh. destruct (freed_refl w) as [Hc Hd Hb]; split; [done|by rewrite <-Hd|done]. Qed.

(** *** The random choice *)

(** The candidate at index [dec] when the first of [xs] has index [i], and the
    others. *)
Fixpoint picked (dec i : Z) (xs : list addr) (ret : option addr) : option addr :=
  match xs with
  | [] => ret
  | x :: xs => picked dec (i + 1) xs (if i =? dec then Some x else ret)
  end.

Fixpoint unpicked (dec i : Z) (xs : list addr) : list addr :=
  match xs with
  | [] => []
  | x :: xs => (if i =? dec then [] else [x]) ++ unpicked dec (i + 1) xs
  end.

Lemma picked_past dec i xs ret : dec < i → picked dec i xs ret = ret ∧ unpicked dec i xs = xs.
Proof.
  revert i ret. induction xs as [|x xs IH]; intros i ret Hi; simpl; [done|].
  destruct (Z.eqb_spec i dec); [lia|]. destruct (IH (i + 1) ret) as [-> ->]; [lia|done].
Qed.

Lemma picked_at dec i l x k ret :
  dec = i + Z.of_nat (length l) →
  picked dec i (l ++ x :: k) ret = Some x ∧ unpicked dec i (l ++ x :: k) = l ++ k.
Proof.
  revert i ret. induction l as [|y l IH]; intros i ret Hd; simpl in *.
  - destruct (Z.eqb_spec i dec); [|lia]. destruct (picked_past dec (i + 1) k (Some x)); [lia|done].
  - destruct (Z.eqb_spec i dec); [lia|]. destruct (IH (i + 1) ret) as [-> ->]; [lia|done].
Qed.

Lemma random_loop_spec lst dec xs : ∀ fuel w i ret,
  rep (lnk w) lst xs → (length xs < fuel)%nat →
  ∃ w', random_loop fuel w lst dec i ret = Ret (w', picked dec i xs ret) ∧
    rep (lnk w') lst [] ∧ freed w w' (unpicked dec i xs).
Proof.
  induction xs as [|x xs IH]; intros [|fuel] w i ret Hrep Hf; simpl in *; try lia;
    rewrite (dl_list_empty_rep _ _ _ Hrep); cbn [mbind run_bind].
  - rewrite bool_decide_true by done. eauto using freed_refl.
  - rewrite bool_decide_false by done.
    rewrite (dl_list_first_rep _ _ _ Hrep); cbn [mbind run_bind head].
    destruct (unlink_free w lst [] xs x Hrep) as (h & w1 & Hdel & Hfree & Hrep1 & Hfr1).
    destruct (dl_list_del_rep _ _ [] _ _ Hrep) as (h' & Hdel' & Hrep2 & _ & Hdom & _).
    rewrite Hdel; cbn [mbind run_bind]. rewrite Hdel in Hdel'. injection Hdel' as <-.
    destruct (Z.eqb_spec i dec).
    + destruct (IH fuel (set_lnk h w) (i + 1) (Some x)) as (w' & ? & ? & ?); [done|lia|].
      exists w'. split; [done|]. split; [done|]. simpl.
      eapply (freed_trans _ (set_lnk h w) _ []); [by apply relink_freed|done].
    + rewrite Hfree; cbn [mbind run_bind].
      destruct (IH fuel w1 (i + 1) ret) as (w' & ? & ? & ?); [done|lia|].
      exists w'. split; [done|]. split; [done|]. simpl.
      by eapply (freed_trans _ w1 _ [x]).
Qed.

Lemma freed_live w w' rem z :
  freed w w' rem → is_Some (lnk w !! z) → z ∉ rem → is_Some (lnk w' !! z).
Proof. intros Hf Hz Hr. apply elem_of_dom. rewrite (freed_dom _ _ _ Hf). apply elem_of_dom in Hz. set_solver. Qed.

Lemma random_filter_spec rnd w lst xs :
  rep (lnk w) lst xs → xs ≠ [] → Z.of_nat (length xs) < 2 ^ 32 →
  ∃ l x k w', xs = l ++ x :: k ∧ random_filter rnd w lst = Ret w' ∧
    Z.of_nat (length l) = u64 rnd mod Z.of_nat (length xs) ∧
    rep (lnk w') lst [x] ∧ freed w w' (l ++ k).
Proof.
  intros Hrep Hne Hlen.
  assert (0 < Z.of_nat (length xs)) as Hpos by (destruct xs; [done|simpl; lia]).
  assert (0 ≤ u64 rnd mod Z.of_nat (length xs) < Z.of_nat (length xs)) as Hd
    by (apply Z.mod_pos_bound; lia).
  set (dec := u64 rnd mod Z.of_nat (length xs)) in *.
  destruct (lookup_lt_is_Some_2 xs (Z.to_nat dec)) as [x Hx]; [lia|].
  apply list_elem_of_split_length in Hx as (l & k & Hxs & Hl).
  unfold random_filter. rewrite (dl_list_len_rep _ _ _ Hrep); cbn [mbind run_bind].
  rewrite u32_small by (unfold is_u32; lia).
  destruct (Z.eqb_spec (Z.of_nat (length xs)) 0); [lia|]. fold dec.
  set (w0 := arbiter_message w _).
  destruct (random_loop_spec lst dec xs (S (size (lnk w0))) w0 0 None) as (w1 & Hrun & Hrep1 & Hfr1);
    [exact Hrep|pose proof (rep_size _ _ _ Hrep); simpl; lia|].
  rewrite Hrun; cbn [mbind run_bind]. clear Hrun.
  destruct (picked_at dec 0 l x k None) as [Hp Hu]; [lia|].
  rewrite <-Hxs in Hp, Hu. rewrite Hp. rewrite Hu in Hfr1.
  assert (x ∉ lst :: l ++ k) as Hxn.
  { destruct Hrep as [Hnd _]. rewrite Hxs in Hnd.
    change (lst :: l ++ x :: k) with ((lst :: l) ++ x :: k) in Hnd.
    by apply NoDup_middle in Hnd as [Hnd _]. }
  assert (is_Some (lnk w1 !! x)) as Hlive.
  { eapply freed_live; [exact Hfr1| |set_solver]. eapply rep_live; [exact Hrep|set_solver]. }
  destruct (dl_list_add_tail_rep _ _ _ x Hrep1 Hlive) as (h & Hadd & Hrep2 & Hdom & _);
    [set_solver|].
  unfold add_candidate. rewrite Hadd; cbn [mbind run_bind].
  exists l, x, k, (set_lnk h w1). split_and!; [done|done|lia|done|].
  rewrite <-(app_nil_r (l ++ k)). eapply freed_trans; [|by apply relink_freed].
  destruct Hfr1; by split.
Qed.

(** *** The element tests *)

Section tests.
Context (bss : wpa_bss) (es : list (Z * list Z)) (Hs : ie_stream (bss_ies bss) es).

(** First byte of the Interworking element, if it has one. *)
Definition interworking_byte (es : list (Z * list Z)) : option Z :=
  head (ie_data (ie_is INTERWORKING_IE_ID) es).

Lemma interworking_read {A} (short : A) (f : Z → A) (k : nat → run A) :
  (∀ pos, k pos = (len ← rd (bss_ies bss) (pos + 1);
                   if len <? 1 then Ret short
                   else b ← rd (bss_ies bss) (pos + 2); Ret (f b))) →
  (pos ← wpa_bss_get_ie (bss_ies bss) INTERWORKING_IE_ID;
   match pos with None => Ret short | Some pos => k pos end) =
  Ret (from_option f short (interworking_byte es)).
Proof.
  intros Hk. rewrite (wpa_bss_get_ie_find _ _ _ Hs); cbn [mbind run_bind].
  pose proof (ie_find_data (ie_is INTERWORKING_IE_ID) es _ [] Hs) as Hf. simpl in Hf.
  unfold interworking_byte, ie_data.
  destruct (ie_find _ 0 es) as [pos|]; [|by rewrite Hf].
  destruct Hf as (l & [t d] & r & Hies & -> & ->). rewrite Hk, Hies, !rd_app_r.
  destruct d; simpl; [done|].
  destruct (Z.ltb_spec (Z.of_nat (S (length d))) 1); [lia|done].
Qed.

Lemma is_free_public_spec :
  is_free_public bss =
  Ret (from_option (λ b, Z.land b 0x0f =? 3) false (interworking_byte es)).
Proof. by apply interworking_read. Qed.

Lemma ie_interworking_internet_spec :
  ie_interworking_internet bss =
  Ret (from_option (λ b, negb (Z.land b 0x10 =? 0)) false (interworking_byte es)).
Proof.
  apply interworking_read. intros pos. destruct (rd (bss_ies bss) (pos + 1)); simpl; try done.
  destruct (Z.leb_spec 1 a), (Z.ltb_spec a 1); try lia; done.
Qed.
End tests.

(** *** Candidates of a selection *)

(** Every candidate is live and points to a BSS whose elements are bytes and
    whose SSID array holds a NUL. *)
Definition candidates_ok (w : world) (xs : list addr) : Prop :=
  ∀ x, x ∈ xs → ∃ b bss, cand w !! x = Some b ∧ bsss w !! b = Some bss ∧
    bytes_ok (bss_ies bss) ∧ 0 ∈ bss_ssid bss.

Lemma candidates_ok_freed w w' rem xs ys :
  candidates_ok w xs → freed w w' rem → (∀ y, y ∈ ys → y ∈ xs ∧ y ∉ rem) →
  candidates_ok w' ys.
Proof.
  intros Ht Hf Hsub y Hy. destruct (Hsub y Hy) as [Hx Hr].
  destruct (Ht y Hx) as (b & bss & Hc & Hb & Hk). exists b, bss.
  rewrite (freed_cand _ _ _ Hf), decide_False, (freed_bsss _ _ _ Hf) by done. done.
Qed.

(** The verdict of a test on the BSS of a candidate. *)
Definition verdict (test : wpa_bss → run bool) (w : world) (x : addr) : bool :=
  match b ← candidate_bss w x; bss ← load_bss w b; test bss with
  | Ret v => v
  | _ => false
  end.

Definition total_test (test : wpa_bss → run bool) : Prop :=
  ∀ bss, bytes_ok (bss_ies bss) → ∃ v, test bss = Ret v.

Lemma is_free_public_total : total_test is_free_public.
Proof. intros bss [es Hs]%ie_stream_total. by rewrite (is_free_public_spec _ _ Hs); eauto. Qed.

Lemma ie_interworking_internet_total : total_test ie_interworking_internet.
Proof. intros bss [es Hs]%ie_stream_total. by rewrite (ie_interworking_internet_spec _ _ Hs); eauto. Qed.

Lemma candidates_testable test w xs :
  total_test test → candidates_ok w xs → testable test (verdict test w) w xs.
Proof.
  intros Ht Hok x Hx. destruct (Hok x Hx) as (b & bss & Hc & Hb & Hies & _).
  destruct (Ht bss Hies) as [v Hv]. exists b, bss. split_and!; [done..|].
  unfold verdict, candidate_bss, load_bss. rewrite Hc; simpl. rewrite Hb; simpl. by rewrite Hv.
Qed.

Lemma verdict_freed test w w' rem x :
  freed w w' rem → x ∉ rem → verdict test w' x = verdict test w x.
Proof.
  intros Hf Hx. unfold verdict, candidate_bss, load_bss.
  by rewrite (freed_cand _ _ _ Hf), decide_False, (freed_bsss _ _ _ Hf).
Qed.

Lemma c_string_nul a : 0 ∈ a → ∃ s, c_string a = Ret s.
Proof.
  induction a as [|c a IH]; [set_solver|]. intros H. simpl.
  destruct (Z.eqb_spec c 0); [eauto|].
  destruct IH as [s ->]; [set_solver|]. simpl. eauto.
Qed.

Lemma display_loop_spec lst todo : ∀ fuel w l,
  rep (lnk w) lst (l ++ todo) → candidates_ok w todo → (length todo < fuel)%nat →
  ∃ w', display_loop fuel w lst (cursor lst todo) = Ret w' ∧
    lnk w' = lnk w ∧ cand w' = cand w ∧ bsss w' = bsss w.
Proof.
  induction todo as [|x todo IH]; intros [|fuel] w l Hrep Hok Hf; simpl in *; try lia.
  - rewrite bool_decide_true by done. eauto.
  - rewrite bool_decide_false by (intros [= ?]; by eapply rep_not_head).
    destruct (Hok x) as (b & bss & Hc & Hb & _ & Hnul); [set_solver|].
    destruct (c_string_nul _ Hnul) as [s Hcs].
    unfold candidate_bss, load_bss. rewrite Hc; cbn [mbind run_bind].
    rewrite Hb; cbn [mbind run_bind]. rewrite Hcs; cbn [mbind run_bind].
    destruct (cursor_next _ _ _ _ _ Hrep) as (n & Hn & Hnx).
    unfold load; simpl. rewrite Hn; cbn [mbind run_bind]. rewrite Hnx.
    destruct (IH fuel (arbiter_message w (ApName s)) (l ++ [x])) as (w' & ? & ? & ? & ?);
      [by rewrite <-app_assoc|intros y Hy; apply (Hok y); set_solver|lia|].
    eauto.
Qed.

Lemma rep_cursor h lst xs : rep h lst xs → ∃ n, h !! lst = Some n ∧ next n = cursor lst xs.
Proof. apply rep_next. Qed.

Lemma display_candidates_spec w lst xs :
  rep (lnk w) lst xs → candidates_ok w xs →
  ∃ w', display_candidates w lst = Ret w' ∧
    lnk w' = lnk w ∧ cand w' = cand w ∧ bsss w' = bsss w.
Proof.
  intros Hrep Hok. unfold display_candidates.
  rewrite (dl_list_empty_rep _ _ _ Hrep); cbn [mbind run_bind].
  set (w1 := if bool_decide (xs = []) then _ else w).
  assert (lnk w1 = lnk w ∧ cand w1 = cand w ∧ bsss w1 = bsss w) as (Hl & Hc & Hb)
    by (subst w1; by case_bool_decide).
  rewrite Hl. destruct (rep_cursor _ _ _ Hrep) as (n & Hn & Hnx).
  unfold load. rewrite Hn; cbn [mbind run_bind]. rewrite Hnx.
  destruct (display_loop_spec lst xs (S (size (lnk w))) w1 []) as (w' & ? & ? & ? & ?).
  - by rewrite Hl.
  - intros x Hx. destruct (Hok x Hx) as (b & bss & ?). exists b, bss. by rewrite Hc, Hb.
  - pose proof (rep_size _ _ _ Hrep). lia.
  - exists w'. split_and!; congruence.
Qed.

(** [narrowed w w' lst xs ys]: in [w'] the list holds [ys], a part of [xs], and
    the rest of [xs], nothing else, has been freed. *)
Record narrowed (w w' : world) (lst : addr) (xs ys : list addr) : Prop := {
  narrowed_rep : rep (lnk w') lst ys;
  narrowed_sub : ys ⊆ xs;
  narrowed_freed : ∃ rem, freed w w' rem ∧ ∀ z, z ∈ rem ↔ z ∈ xs ∧ z ∉ ys
}.

Lemma narrowed_trans w1 w2 w3 lst xs ys zs :
  narrowed w1 w2 lst xs ys → narrowed w2 w3 lst ys zs → narrowed w1 w3 lst xs zs.
Proof.
  intros [Hr1 Hs1 (r1 & Hf1 & He1)] [Hr2 Hs2 (r2 & Hf2 & He2)].
  split; [done|set_solver|]. exists (r1 ++ r2). split; [by eapply freed_trans|].
  intros z. rewrite elem_of_app, He1, He2. split; [set_solver|].
  intros [??]. destruct (decide (z ∈ ys)); set_solver.
Qed.

Lemma narrowed_same w w' lst xs :
  rep (lnk w) lst xs → lnk w' = lnk w → cand w' = cand w → bsss w' = bsss w →
  narrowed w w' lst xs xs.
Proof.
  intros Hrep Hl Hc Hb. split; [by rewrite Hl|done|]. exists [].
  split; [|set_solver]. destruct (freed_refl w) as [Hc' Hd' Hb'].
  split; [by rewrite Hc|by rewrite Hl|by rewrite Hb].
Qed.

Lemma narrowed_ok w w' lst xs ys :
  narrowed w w' lst xs ys → candidates_ok w xs → candidates_ok w' ys.
Proof.
  intros [_ Hs (r & Hf & He)] Hok. eapply candidates_ok_freed; [done|done|].
  intros y Hy. rewrite He. set_solver.
Qed.

Lemma narrowed_verdict test w w' lst xs ys x :
  narrowed w w' lst xs ys → x ∈ ys → verdict test w' x = verdict test w x.
Proof. intros [_ _ (r & Hf & He)] Hx. eapply verdict_freed; [done|]. rewrite He. set_solver. Qed.

Lemma element_filter_spec test m w lst xs :
  total_test test → rep (lnk w) lst xs → candidates_ok w xs →
  ∃ w', (l ← load (lnk (arbiter_message w m)) (Some lst);
         filter_loop (S (size (lnk (arbiter_message w m)))) test (arbiter_message w m)
           lst (next l) None) = Ret w' ∧
    narrowed w w' lst xs (List.filter (verdict test w) xs).
Proof.
  intros Ht Hrep Hok. destruct (rep_cursor _ _ _ Hrep) as (n & Hn & Hnx).
  unfold load; simpl lnk. rewrite Hn; cbn [mbind run_bind]. rewrite Hnx.
  pose proof (rep_size _ _ _ Hrep).
  destruct (filter_loop_spec test (verdict test w) lst xs (S (size (lnk w)))
              (arbiter_message w m) [] None) as (w' & Hrun & Hrep' & Hf);
    [done|exact (candidates_testable test w xs Ht Hok)|lia|].
  exists w'. split; [done|]. split; [done| |].
  - intros z Hz%list_elem_of_In. apply List.filter_In in Hz as [Hz _]. by apply list_elem_of_In.
  - exists ([] ++ List.filter (λ x, negb (verdict test w x)) xs).
    split; [eapply freed_trans; [apply message_freed|done]|].
    intros z. simpl. rewrite !list_elem_of_In, !List.filter_In.
    destruct (verdict test w z); naive_solver.
Qed.

Lemma pipeline_step f fs rnd w lst xs ys w1 :
  run_filter f rnd w lst = Ret w1 → narrowed w w1 lst xs ys → candidates_ok w xs →
  ∃ w2, narrowed w w2 lst xs ys ∧
    filter_pipeline (f :: fs) rnd w lst =
      if bool_decide (ys = []) then Ret w2 else filter_pipeline fs rnd w2 lst.
Proof.
  intros Hrun Hn Hok. simpl. rewrite Hrun; cbn [mbind run_bind].
  assert (candidates_ok w1 ys) as Hok1 by by eapply narrowed_ok.
  destruct (display_candidates_spec
    (arbiter_message w1 (Text "After this filter, candidates left are:")) lst ys)
    as (w2 & Hd & Hl & Hc & Hb); [apply Hn|done|].
  rewrite Hd; cbn [mbind run_bind]. exists w2.
  assert (narrowed w w2 lst xs ys) as Hn2.
  { eapply narrowed_trans; [done|]. apply narrowed_same; [apply Hn|done..]. }
  split; [done|]. by rewrite (dl_list_empty_rep _ _ _ (narrowed_rep _ _ _ _ _ Hn2)).
Qed.

Lemma elem_of_all_but (l k : list addr) x z :
  x ∉ l ++ k → z ∈ l ++ k ↔ z ∈ l ++ x :: k ∧ z ∉ [x].
Proof.
  intros Hx. rewrite list_elem_of_singleton, !elem_of_app, elem_of_cons.
  split; [|naive_solver]. intros Hz. split; [tauto|]. intros ->. apply Hx. by apply elem_of_app.
Qed.

(** The installed pipeline: what is left is empty only if no candidate passes
    both tests, and otherwise one candidate that does. *)
Lemma pipeline_spec rnd w lst xs :
  rep (lnk w) lst xs → candidates_ok w xs → Z.of_nat (length xs) < 2 ^ 32 →
  ∃ w' ys, filter_pipeline [FreePublic; AccessInternet; Random] rnd w lst = Ret w' ∧
    narrowed w w' lst xs ys ∧
    ((ys = [] ∧ ∀ x, x ∈ xs →
        verdict is_free_public w x && verdict ie_interworking_internet w x = false) ∨
     (∃ x, ys = [x] ∧ verdict is_free_public w x = true ∧
        verdict ie_interworking_internet w x = true)).
Proof.
  intros Hrep Hok Hlen.
  destruct (element_filter_spec is_free_public (Text "Free-Public Filter starts working...")
    w lst xs is_free_public_total Hrep Hok) as (w1 & Hr1 & Hn1).
  destruct (pipeline_step FreePublic [AccessInternet; Random] rnd w lst _ _ w1 Hr1 Hn1 Hok)
    as (w2 & Hn2 & ->). clear w1 Hr1 Hn1.
  set (xs1 := List.filter (verdict is_free_public w) xs) in *.
  assert (∀ z, z ∈ xs1 ↔ z ∈ xs ∧ verdict is_free_public w z = true) as Hxs1
    by (intros z; unfold xs1; by rewrite !list_elem_of_In, List.filter_In).
  case_bool_decide as He1.
  { exists w2, xs1. split; [done|]. split; [done|]. left. split; [done|].
    intros x Hx. destruct (verdict is_free_public w x) eqn:E; [|done].
    assert (x ∈ xs1) as Hx1 by by apply Hxs1.
    rewrite He1 in Hx1. by apply elem_of_nil in Hx1. }
  pose proof (narrowed_ok _ _ _ _ _ Hn2 Hok) as Hok2.
  destruct (element_filter_spec ie_interworking_internet
    (Text "Accessing Internet Filter starts working...") w2 lst xs1
    ie_interworking_internet_total (narrowed_rep _ _ _ _ _ Hn2) Hok2) as (w3 & Hr3 & Hn3).
  destruct (pipeline_step AccessInternet [Random] rnd w2 lst _ _ w3 Hr3 Hn3 Hok2)
    as (w4 & Hn4 & ->). clear w3 Hr3 Hn3.
  set (xs2 := List.filter (verdict ie_interworking_internet w2) xs1) in *.
  assert (∀ z, z ∈ xs2 ↔ z ∈ xs1 ∧ verdict ie_interworking_internet w z = true) as Hxs2.
  { intros z. unfold xs2. rewrite list_elem_of_In, List.filter_In, <-list_elem_of_In.
    split; intros [Hz ?]; (split; [done|]); by rewrite ?(narrowed_verdict _ _ _ _ _ _ _ Hn2 Hz) in *. }
  pose proof (narrowed_trans _ _ _ _ _ _ _ Hn2 Hn4) as Hn24.
  case_bool_decide as He2.
  { exists w4, xs2. split; [done|]. split; [done|]. left. split; [done|].
    intros x Hx. destruct (verdict is_free_public w x) eqn:E1; [|done].
    destruct (verdict ie_interworking_internet w x) eqn:E2; [|done].
    assert (x ∈ xs2) as Hx2 by by apply Hxs2; rewrite Hxs1.
    rewrite He2 in Hx2. by apply elem_of_nil in Hx2. }
  assert (Z.of_nat (length xs2) < 2 ^ 32) as Hlen2.
  { pose proof (List.filter_length_le (verdict ie_interworking_internet w2) xs1).
    pose proof (List.filter_length_le (verdict is_free_public w) xs).
    subst xs1 xs2. lia. }
  destruct (random_filter_spec rnd w4 lst xs2 (narrowed_rep _ _ _ _ _ Hn4) He2 Hlen2)
    as (l & x & k & w5 & Hxs & Hr5 & _ & Hrep5 & Hf5).
  assert (narrowed w4 w5 lst xs2 [x]) as Hn5.
  { split; [done| |].
    { intros z ->%list_elem_of_singleton. rewrite Hxs. apply elem_of_app. right. left. }
    exists (l ++ k). split; [done|]. intros z. rewrite Hxs.
    apply elem_of_all_but. pose proof (narrowed_rep _ _ _ _ _ Hn4) as [Hnd _]. rewrite Hxs in Hnd.
    apply NoDup_cons in Hnd as [_ Hnd]. by apply NoDup_middle in Hnd as [? _]. }
  pose proof (narrowed_ok _ _ _ _ _ Hn4 Hok2) as Hok4.
  destruct (pipeline_step Random [] rnd w4 lst _ _ w5 Hr5 Hn5 Hok4) as (w6 & Hn6 & ->).
  exists w6, [x]. rewrite bool_decide_false by done. split; [done|].
  split; [by eapply narrowed_trans|]. right. exists x. split; [done|].
  assert (x ∈ xs2) as Hx by (rewrite Hxs; apply elem_of_app; right; left).
  apply Hxs2 in Hx as [Hx ?]. apply Hxs1 in Hx as [_ ?]. done.
Qed.

(** ** Properties *)

(** The arbiter as [arbiter_init] sets it up, in any state and mode. *)
Definition standard (a : arbiter) : Prop :=
  filter_num a = 3%nat ∧ filters a = [FreePublic; AccessInternet; Random].

(** [access_internet_filter], which unlinks and frees nodes of the list it
    is walking, is memory-safe and terminates; it leaves exactly the candidates
    whose BSS advertises internet access, in order, and frees exactly the
    others. *)
Theorem access_internet_filter_correct w lst xs :
  rep (lnk w) lst xs → candidates_ok w xs →
  ∃ w', access_internet_filter w lst = Ret w' ∧
    narrowed w w' lst xs (List.filter (verdict ie_interworking_internet w) xs).
Proof. apply element_filter_spec, ie_interworking_internet_total. Qed.

(** [free_public_filter] is memory-safe and terminates; it leaves exactly
    the candidates whose BSS advertises a free public network, in order, and
    frees exactly the others. *)
Theorem free_public_filter_correct w lst xs :
  rep (lnk w) lst xs → candidates_ok w xs →
  ∃ w', free_public_filter w lst = Ret w' ∧
    narrowed w w' lst xs (List.filter (verdict is_free_public w) xs).
Proof. apply element_filter_spec, is_free_public_total. Qed.

(** [random_filter] on a non-empty list keeps exactly the candidate at
    index [os_random() % num] and frees all others. *)
Theorem random_filter_correct rnd w lst xs :
  rep (lnk w) lst xs → xs ≠ [] → Z.of_nat (length xs) < 2 ^ 32 →
  ∃ x w', xs !! Z.to_nat (u64 rnd mod Z.of_nat (length xs)) = Some x ∧
    random_filter rnd w lst = Ret w' ∧ narrowed w w' lst xs [x].
Proof.
  intros Hrep Hne Hlen.
  destruct (random_filter_spec rnd w lst xs Hrep Hne Hlen)
    as (l & x & k & w' & Hxs & Hrun & Hl & Hrep' & Hf).
  exists x, w'. split_and!; [|done|].
  - rewrite <-Hl, Nat2Z.id, Hxs. by apply list_lookup_middle.
  - split; [done| |].
    + intros z ->%list_elem_of_singleton. rewrite Hxs. apply elem_of_app. right. left.
    + exists (l ++ k). split; [done|]. intros z. rewrite Hxs. apply elem_of_all_but.
      destruct Hrep as [Hnd _]. rewrite Hxs in Hnd.
      apply NoDup_cons in Hnd as [_ Hnd]. by apply NoDup_middle in Hnd as [? _].
Qed.

Lemma arbiter_select_spec rnd a w lst xs :
  standard a → rep (lnk w) lst xs → candidates_ok w xs → Z.of_nat (length xs) < 2 ^ 32 →
  ∃ a' w' ans, arbiter_select rnd (Some a) w lst = Ret (a', w', ans) ∧
    state a' = ARBITER_IDLE ∧
    (∃ rem, freed w w' rem ∧ ∀ z, z ∈ rem ↔ z ∈ xs) ∧
    match ans with
    | Some b => ∃ x, x ∈ xs ∧ cand w !! x = Some b ∧
        verdict is_free_public w x = true ∧ verdict ie_interworking_internet w x = true
    | None => ∀ x, x ∈ xs →
        verdict is_free_public w x && verdict ie_interworking_internet w x = false
    end.
Proof.
  intros [Hnum Hfil] Hrep Hok Hlen. unfold arbiter_select. simpl filter_num. simpl filters.
  rewrite Hnum, Hfil. simpl take.
  set (w0 := arbiter_message (arbiter_message w _) _).
  destruct (display_candidates_spec w0 lst xs Hrep Hok) as (w1 & Hd & Hl1 & Hc1 & Hb1).
  rewrite Hd; cbn [mbind run_bind].
  assert (narrowed w w1 lst xs xs) as Hn1 by by apply narrowed_same.
  destruct (pipeline_spec rnd w1 lst xs (narrowed_rep _ _ _ _ _ Hn1)
    (narrowed_ok _ _ _ _ _ Hn1 Hok) Hlen) as (w2 & ys & Hp & Hn2 & Hys).
  rewrite Hp; cbn [mbind run_bind].
  rewrite (dl_list_empty_rep _ _ _ (narrowed_rep _ _ _ _ _ Hn2)); cbn [mbind run_bind].
  pose proof (narrowed_trans _ _ _ _ _ _ _ Hn1 Hn2) as [_ _ (rem & Hf & He)].
  assert (∀ t x, verdict t w1 x = verdict t w x) as Hv
    by (intros; unfold verdict, candidate_bss, load_bss; by rewrite Hc1, Hb1).
  destruct Hys as [[-> Hno]|(x & -> & Hx1 & Hx2)].
  - rewrite bool_decide_true by done. do 3 eexists. split; [done|]. split; [done|].
    split; [|intros x Hx; rewrite <-!Hv; by apply Hno].
    exists (rem ++ []). split; [eapply freed_trans; [done|apply message_freed]|].
    intros z. rewrite app_nil_r, He, elem_of_nil. tauto.
  - rewrite bool_decide_false by done.
    rewrite (dl_list_first_rep _ _ _ (narrowed_rep _ _ _ _ _ Hn2)); cbn [mbind run_bind head].
    assert (x ∈ xs) as Hx by (apply (narrowed_sub _ _ _ _ _ Hn2); left).
    destruct (Hok x Hx) as (b & bss & Hcb & _).
    assert (x ∉ rem) as Hxr by (rewrite He, list_elem_of_singleton; tauto).
    assert (cand w2 !! x = Some b) as Hc2
      by by rewrite (freed_cand _ _ _ Hf), decide_False.
    unfold candidate_bss. rewrite Hc2; cbn [mbind run_bind].
    destruct (rep_live _ _ _ x (narrowed_rep _ _ _ _ _ Hn2)) as [n Hnode]; [right; left|].
    unfold os_free. rewrite Hnode; cbn [mbind run_bind].
    do 3 eexists. split; [done|]. split; [done|]. split.
    + exists (rem ++ [x]). split.
      * eapply freed_trans; [done|]. split; simpl; [|by rewrite dom_delete_L; set_solver|done].
        intros z. rewrite lookup_delete. case_decide; case_decide; set_solver.
      * intros z. rewrite elem_of_app, He, list_elem_of_singleton.
        split; [naive_solver|]. destruct (decide (z = x)); naive_solver.
    + exists x. rewrite <-!Hv. done.
Qed.

Lemma verdict_true test w x :
  verdict test w x = true ↔
  ∃ b bss, cand w !! x = Some b ∧ bsss w !! b = Some bss ∧ test bss = Ret true.
Proof.
  unfold verdict, candidate_bss, load_bss.
  destruct (cand w !! x) as [b|]; simpl; [|naive_solver].
  destruct (bsss w !! b) as [bss|] eqn:Hb; simpl; [|naive_solver].
  split.
  - destruct (test bss) eqn:Ht; [|done..]. intros ->. eauto.
  - intros (b' & bss' & ? & ? & Ht). simplify_eq. by rewrite Ht.
Qed.


(** *** Candidate collection *)

(** What [os_malloc] guarantees for the candidates of [table]: a fresh address
    for each. *)
Record fresh_blocks (malloc : addr → option addr) (w : world) (lst : addr)
    (table : list addr) : Prop := {
  fresh_some : ∀ b, b ∈ table → ∃ p, malloc b = Some p ∧ lnk w !! p = None ∧ p ≠ lst;
  fresh_inj : ∀ b c p, b ∈ table → c ∈ table → malloc b = Some p → malloc c = Some p → b = c
}.

(** Candidates [ps] hold the BSSes [bs], in order. *)
Definition holds (w : world) (ps bs : list addr) : Prop :=
  Forall2 (λ p b, cand w !! p = Some b) ps bs.

Lemma holds_ext w w' ps bs :
  (∀ z, z ∈ ps → cand w' !! z = cand w !! z) → holds w ps bs → holds w' ps bs.
Proof.
  intros He Hh. induction Hh; constructor.
  - rewrite He; [done|left].
  - apply IHHh. intros z Hz. apply He. by right.
Qed.

Lemma fresh_blocks_tail malloc w w' lst b table :
  fresh_blocks malloc w lst (b :: table) → b ∉ table →
  (∀ z, lnk w !! z = None → malloc b ≠ Some z → lnk w' !! z = None) →
  fresh_blocks malloc w' lst table.
Proof.
  intros [Hs Hi] Hb He. split.
  - intros c Hc. destruct (Hs c) as (p & Hp & Hn & Hl); [by right|].
    exists p. split_and!; [done| |done]. apply He; [done|]. intros Hbp.
    apply Hb. by rewrite (Hi b c p); [|left|right|..].
  - intros c d p Hc Hd. apply Hi; by right.
Qed.

Lemma collect_spec cred malloc lst table : ∀ w xs bs,
  rep (lnk w) lst xs → holds w xs bs → fresh_blocks malloc w lst table → NoDup table →
  ∃ w' ps, collect_candidates cred malloc true w lst table = Ret w' ∧
    rep (lnk w') lst (xs ++ ps) ∧ holds w' (xs ++ ps) (bs ++ List.filter cred table) ∧
    bsss w' = bsss w.
Proof.
  induction table as [|b table IH]; intros w xs bs Hrep Hh Hfr Hnd; simpl.
  { exists w, []. by rewrite !app_nil_r. }
  apply NoDup_cons in Hnd as [Hb Hnd]. destruct (cred b).
  2:{ apply IH; [done|done| |done]. by eapply fresh_blocks_tail. }
  destruct (fresh_some _ _ _ _ Hfr b) as (p & Hp & Hfree & Hplst); [left|]. rewrite Hp. simpl.
  assert (p ∉ lst :: xs) as Hpx.
  { intros Hin. destruct (rep_live _ _ _ p Hrep Hin) as [? ?]. congruence. }
  set (w1 := World _ _ _ _).
  assert (rep (lnk w1) lst xs) as Hrep1.
  { eapply rep_ext; [|exact Hrep]. intros z Hz. simpl.
    apply lookup_insert_ne. intros <-. done. }
  destruct (dl_list_add_tail_rep (lnk w1) lst xs p) as (h & Hadd & Hrep2 & Hdom & Hoth);
    [done|simpl; rewrite lookup_insert_eq; eauto|done|].
  unfold add_candidate. rewrite Hadd; cbn [mbind run_bind].
  destruct (IH (set_lnk h w1) (xs ++ [p]) (bs ++ [b])) as (w' & ps & Hrun & Hr & Hho & Hbs);
    [done| | |done|].
  - apply Forall2_app; [|constructor; [simpl; by rewrite lookup_insert_eq|constructor]].
    eapply holds_ext; [|exact Hh]. intros z Hz. simpl. apply lookup_insert_ne.
    intros <-. apply Hpx. by right.
  - eapply fresh_blocks_tail; [exact Hfr|done|]. intros z Hz Hne. simpl.
    apply not_elem_of_dom. rewrite Hdom. apply not_elem_of_dom. simpl.
    rewrite lookup_insert_ne; [done|]. congruence.
  - exists w', (p :: ps). rewrite <-!app_assoc in *. split_and!; done.
Qed.

(** Every BSS of the table is live, its elements are bytes and its SSID array
    holds a NUL. *)
Definition table_ok (w : world) (table : list addr) : Prop :=
  ∀ b, b ∈ table → ∃ bss, bsss w !! b = Some bss ∧ bytes_ok (bss_ies bss) ∧ 0 ∈ bss_ssid bss.

Lemma holds_lookup w ps bs x : holds w ps bs → x ∈ ps → ∃ b, b ∈ bs ∧ cand w !! x = Some b.
Proof.
  intros Hh Hx. induction Hh as [|p b ps bs Hp Hh IH]; [by apply elem_of_nil in Hx|].
  apply elem_of_cons in Hx as [->|Hx]; [exists b; split; [left|done]|].
  destruct (IH Hx) as (b' & ? & ?). exists b'. split; [by right|done].
Qed.

Lemma holds_lookup_r w ps bs b : holds w ps bs → b ∈ bs → ∃ x, x ∈ ps ∧ cand w !! x = Some b.
Proof.
  intros Hh Hx. induction Hh as [|p b' ps bs Hp Hh IH]; [by apply elem_of_nil in Hx|].
  apply elem_of_cons in Hx as [->|Hx]; [exists p; split; [left|done]|].
  destruct (IH Hx) as (x & ? & ?). exists x. split; [by right|done].
Qed.

(** An automatic selection is memory-safe, clears [network_select], and
    connects only to a BSS of the table for which credentials are available,
    which is a free public network with internet access; it connects to none
    only if the table has no such BSS. *)
Theorem interworking_select_network_correct cred malloc rnd s a w lst table :
  arb s = Some a → standard a → auto_select s = true →
  is_Some (lnk w !! lst) → fresh_blocks malloc w lst table → NoDup table →
  table_ok w table → Z.of_nat (length table) < 2 ^ 32 →
  ∃ s' w' sel,
    interworking_select_network cred malloc rnd s w lst table = Ret (s', w', sel) ∧
    network_select s' = false ∧
    match sel with
    | Some b => b ∈ table ∧ cred b = true ∧ ∃ bss, bsss w !! b = Some bss ∧
        is_free_public bss = Ret true ∧ ie_interworking_internet bss = Ret true
    | None => ∀ b bss, b ∈ table → cred b = true → bsss w !! b = Some bss →
        ¬ (is_free_public bss = Ret true ∧ ie_interworking_internet bss = Ret true)
    end.
Proof.
  intros Ha Hst Hauto Hlst Hfr Hnd Htab Hlen. unfold interworking_select_network.
  destruct (dl_list_init_rep _ _ Hlst) as (h & Hinit & Hrep & Hdom & Hoth).
  rewrite Hinit; cbn [mbind run_bind auto_select arb]. rewrite Hauto, Ha.
  destruct (collect_spec cred malloc lst table (set_lnk h w) [] []) as (w1 & ps & Hrun & Hr & Hho & Hbs);
    [done|constructor| |done|].
  { destruct Hfr as [Hs Hi]. split; [|done]. intros b Hb.
    destruct (Hs b Hb) as (p & ? & ? & ?). exists p. split_and!; [done| |done].
    simpl. by rewrite Hoth. }
  rewrite Hrun; cbn [mbind run_bind]. simpl in Hr, Hho, Hbs.
  assert (∀ b, b ∈ List.filter cred table ↔ b ∈ table ∧ cred b = true) as Hfil
    by (intros b; by rewrite !list_elem_of_In, List.filter_In).
  destruct (arbiter_select_spec rnd a w1 lst ps Hst Hr) as (a' & w' & ans & Hsel & _ & _ & Hans).
  - intros x Hx. destruct (holds_lookup _ _ _ _ Hho Hx) as (b & [Hb _]%Hfil & Hc).
    destruct (Htab b Hb) as (bss & ? & ? & ?). exists b, bss. by rewrite Hbs.
  - apply Forall2_length in Hho. rewrite Hho.
    pose proof (List.filter_length_le cred table). lia.
  - rewrite Hsel; cbn [mbind run_bind]. do 3 eexists. split; [done|]. split; [done|].
    destruct ans as [b|].
    + destruct Hans as (x & Hx & Hc & (b1 & bss & Hc1 & Hb1 & ?)%verdict_true
        & (b2 & bss2 & Hc2 & Hb2 & ?)%verdict_true). simplify_eq.
      destruct (holds_lookup _ _ _ _ Hho Hx) as (b' & [? ?]%Hfil & ?). simplify_eq.
      rewrite Hbs in Hb1. eauto 10.
    + intros b bss Hb Hcr Hlk [H1 H2].
      destruct (holds_lookup_r _ _ _ b Hho) as (x & Hx & Hc); [by apply Hfil|].
      specialize (Hans x Hx).
      rewrite (proj2 (verdict_true is_free_public w1 x)) in Hans by (rewrite Hbs; eauto).
      rewrite (proj2 (verdict_true ie_interworking_internet w1 x)) in Hans by (rewrite Hbs; eauto).
      done.
Qed.

Lemma collect_manual cred malloc lst table : ∀ w,
  fresh_blocks malloc w lst table → NoDup table → is_Some (lnk w !! lst) →
  ∃ w', collect_candidates cred malloc false w lst table = Ret w' ∧
    lnk w' !! lst = lnk w !! lst ∧ (∀ z, is_Some (lnk w !! z) → cand w' !! z = cand w !! z) ∧
    (∀ b p, b ∈ table → cred b = true → malloc b = Some p → cand w' !! p = Some b).
Proof.
  induction table as [|b table IH]; intros w Hfr Hnd Hlst; simpl.
  { exists w. split_and!; try done. intros b p Hb. by apply elem_of_nil in Hb. }
  apply NoDup_cons in Hnd as [Hb Hnd]. destruct (cred b) eqn:Hcr.
  2:{ destruct (IH w) as (w' & ? & ? & ? & Hl); [by eapply fresh_blocks_tail|done|done|].
      exists w'. split_and!; try done. intros c p [->|Hc]%elem_of_cons; [congruence|]. by apply Hl. }
  destruct (fresh_some _ _ _ _ Hfr b) as (p & Hp & Hfree & Hplst); [left|]. rewrite Hp.
  cbn [build_candidate mbind run_bind]. set (w1 := World _ _ _ _).
  destruct (IH w1) as (w' & Hrun & Hl1 & Hl2 & Hl); [|done|..].
  - eapply fresh_blocks_tail; [exact Hfr|done|]. intros z Hz Hne. simpl.
    rewrite lookup_insert_ne; [done|]. congruence.
  - simpl. by rewrite lookup_insert_ne.
  - exists w'. simpl in Hl1, Hl2. split_and!; [done| | |].
    + by rewrite Hl1, lookup_insert_ne.
    + intros z Hz. assert (p ≠ z) by (intros ->; destruct Hz; congruence).
      rewrite Hl2; by rewrite lookup_insert_ne.
    + intros c q [->|Hc]%elem_of_cons; [|by apply Hl]. intros _ Hq. simplify_eq.
      rewrite Hl2; by rewrite lookup_insert_eq; eauto.
Qed.

(** A manual selection ([auto_select] clear) never connects, and every
    candidate it builds is still allocated when it returns, although only the
    function's local variables ever pointed to it: the blocks of
    [build_candidate] are leaked. *)
Theorem interworking_manual_select_leaks cred malloc rnd s a w lst table :
  arb s = Some a → standard a → auto_select s = false →
  is_Some (lnk w !! lst) → fresh_blocks malloc w lst table → NoDup table →
  ∃ s' w',
    interworking_select_network cred malloc rnd s w lst table = Ret (s', w', None) ∧
    (∀ b p, b ∈ table → cred b = true → malloc b = Some p → cand w' !! p = Some b).
Proof.
  intros Ha Hst Hauto Hlst Hfr Hnd. unfold interworking_select_network.
  destruct (dl_list_init_rep _ _ Hlst) as (h & Hinit & Hrep & Hdom & Hoth).
  rewrite Hinit; cbn [mbind run_bind auto_select arb]. rewrite Hauto, Ha.
  destruct (collect_manual cred malloc lst table (set_lnk h w)) as (w1 & Hrun & Hl & _ & Hleak);
    [|done|eapply rep_live; [exact Hrep|left]|].
  { destruct Hfr as [Hs Hi]. split; [|done]. intros b Hb.
    destruct (Hs b Hb) as (p & ? & ? & ?). exists p. split_and!; [done| |done].
    simpl. by rewrite Hoth. }
  rewrite Hrun; cbn [mbind run_bind].
  assert (rep (lnk w1) lst []) as Hrep1.
  { eapply rep_ext; [|exact Hrep]. intros z ->%list_elem_of_singleton. exact Hl. }
  destruct (arbiter_select_spec rnd a w1 lst [] Hst Hrep1)
    as (a' & w' & ans & Hsel & _ & (rem & Hf & He) & Hans); [by intros x ?%elem_of_nil|simpl; lia|].
  assert (rem = []) as ->.
  { destruct rem as [|z rem]; [done|]. by destruct (proj1 (elem_of_nil z)); apply He; left. }
  destruct ans as [b|]; [destruct Hans as (x & Hx & _); by apply elem_of_nil in Hx|].
  rewrite Hsel; cbn [mbind run_bind]. do 2 eexists. split; [done|].
  intros b p Hb Hc Hm. rewrite (freed_cand _ _ _ Hf), decide_False by apply not_elem_of_nil.
  by apply Hleak.
Qed.

Lemma c_string_unterminated a : Forall (λ c, c ≠ 0) a → c_string a = UB OutOfBounds.
Proof.
  induction 1 as [|c a Hc _ IH]; simpl; [done|].
  destruct (Z.eqb_spec c 0); [done|]. by rewrite IH.
Qed.

(** Displaying the candidates reads past the SSID array of the first
    candidate when that SSID fills the array without a NUL, as every 32-byte
    SSID does. *)
Theorem display_candidates_full_ssid w lst x xs b bss :
  rep (lnk w) lst (x :: xs) → cand w !! x = Some b → bsss w !! b = Some bss →
  Forall (λ c, c ≠ 0) (bss_ssid bss) →
  display_candidates w lst = UB OutOfBounds.
Proof.
  intros Hrep Hc Hb Hs. unfold display_candidates.
  rewrite (dl_list_empty_rep _ _ _ Hrep); cbn [mbind run_bind].
  rewrite bool_decide_false by done.
  destruct (rep_cursor _ _ _ Hrep) as (n & Hn & Hnx). unfold load. rewrite Hn.
  cbn [mbind run_bind]. rewrite Hnx. simpl.
  rewrite bool_decide_false by (intros [= ?]; by eapply (rep_not_head _ _ [])).
  unfold candidate_bss, load_bss. rewrite Hc; cbn [mbind run_bind].
  rewrite Hb; cbn [mbind run_bind]. by rewrite (c_string_unterminated _ Hs).
Qed.

(** ** Concrete selections *)

(** A list at address 1 with candidates 2, 3 and 4 for the BSSes 11 (free
    public, internet), 12 (free public, no internet) and 13 (chargeable, internet). *)
Definition demo_lnk : gmap addr dl_list :=
  list_to_map [(1, DlNode (Some 2) (Some 4)); (2, DlNode (Some 3) (Some 1));
               (3, DlNode (Some 4) (Some 2)); (4, DlNode (Some 1) (Some 3))]%positive.

Definition demo_bsss : gmap addr wpa_bss :=
  list_to_map [(11, WpaBss [97; 0]%Z [0; 1; 97; 107; 1; 0x13]%Z);
               (12, WpaBss [98; 0]%Z [107; 1; 0x03]%Z);
               (13, WpaBss [99; 0]%Z [107; 1; 0x12]%Z)]%positive.

Definition demo_world : world :=
  World demo_lnk (list_to_map [(2, 11); (3, 12); (4, 13)]%positive) demo_bsss [].

Definition demo_arbiter : arbiter :=
  Arbiter ARBITER_QUERYING 3 [FreePublic; AccessInternet; Random] true.

Lemma demo_rep : rep (lnk demo_world) 1 [2; 3; 4]%positive.
Proof.
  split; [by apply (bool_decide_unpack _); vm_compute|].
  simpl. split_and!; try done; eexists; split; vm_compute; reflexivity.
Qed.

Lemma demo_ok : candidates_ok demo_world [2; 3; 4]%positive.
Proof.
  intros x Hx. rewrite !elem_of_cons, elem_of_nil in Hx.
  destruct Hx as [->|[->|[->|[]]]]; do 2 eexists; (split; [vm_compute; reflexivity|]);
    (split; [vm_compute; reflexivity|]); split;
    by apply (bool_decide_unpack _); vm_compute.
Qed.

Lemma access_internet_filter_correct_witness :
  ∃ w', access_internet_filter demo_world 1 = Ret w' ∧
    narrowed demo_world w' 1 [2; 3; 4]%positive [2; 4]%positive.
Proof. exact (access_internet_filter_correct demo_world 1 _ demo_rep demo_ok). Defined.

Lemma free_public_filter_correct_witness :
  ∃ w', free_public_filter demo_world 1 = Ret w' ∧
    narrowed demo_world w' 1 [2; 3; 4]%positive [2; 3]%positive.
Proof. exact (free_public_filter_correct demo_world 1 _ demo_rep demo_ok). Defined.

Lemma random_filter_correct_witness :
  ∃ x w', [2; 3; 4]%positive !! Z.to_nat (u64 7 mod 3) = Some x ∧
    random_filter 7 demo_world 1 = Ret w' ∧ narrowed demo_world w' 1 [2; 3; 4]%positive [x].
Proof.
  apply (random_filter_correct 7 demo_world 1 [2; 3; 4]%positive demo_rep); [done|simpl; lia].
Defined.


(** An interface with the three BSSes and an empty candidate list at 1. *)
Definition demo_start : world := World {[1%positive := DlNode None None]} ∅ demo_bsss [].
Definition demo_malloc (b : addr) : option addr := Some (b + 100)%positive.
Definition demo_cred (b : addr) : bool := bool_decide (b ≠ 13%positive).

Lemma demo_fresh : fresh_blocks demo_malloc demo_start 1 [11; 12; 13]%positive.
Proof.
  split; [|intros b c p _ _; unfold demo_malloc; intros [= <-] [= ?]; lia].
  intros b Hb. rewrite !elem_of_cons, elem_of_nil in Hb.
  destruct Hb as [->|[->|[->|[]]]]; eexists; (split; [reflexivity|]); by vm_compute.
Qed.

Lemma demo_table : table_ok demo_start [11; 12; 13]%positive.
Proof.
  intros b Hb. rewrite !elem_of_cons, elem_of_nil in Hb.
  destruct Hb as [->|[->|[->|[]]]]; eexists; (split; [vm_compute; reflexivity|]); split;
    by apply (bool_decide_unpack _); vm_compute.
Qed.

Lemma interworking_select_network_correct_witness :
  ∃ s' w' sel,
    interworking_select_network demo_cred demo_malloc 5
      (IwState true true (Some demo_arbiter)) demo_start 1 [11; 12; 13]%positive
      = Ret (s', w', sel) ∧
    network_select s' = false ∧
    match sel with
    | Some b => b ∈ [11; 12; 13]%positive ∧ demo_cred b = true ∧
        ∃ bss, bsss demo_start !! b = Some bss ∧
        is_free_public bss = Ret true ∧ ie_interworking_internet bss = Ret true
    | None => ∀ b bss, b ∈ [11; 12; 13]%positive → demo_cred b = true →
        bsss demo_start !! b = Some bss →
        ¬ (is_free_public bss = Ret true ∧ ie_interworking_internet bss = Ret true)
    end.
Proof.
  apply (interworking_select_network_correct demo_cred demo_malloc 5
           (IwState true true (Some demo_arbiter)) demo_arbiter demo_start 1 [11; 12; 13]%positive);
    [done|done|done|by eexists; vm_compute|apply demo_fresh| |apply demo_table|simpl; lia].
  by apply (bool_decide_unpack _); vm_compute.
Defined.

Lemma interworking_manual_select_leaks_witness :
  ∃ s' w',
    interworking_select_network demo_cred demo_malloc 5
      (IwState true false (Some demo_arbiter)) demo_start 1 [11; 12; 13]%positive
      = Ret (s', w', None) ∧
    (∀ b p, b ∈ [11; 12; 13]%positive → demo_cred b = true → demo_malloc b = Some p →
       cand w' !! p = Some b).
Proof.
  apply (interworking_manual_select_leaks demo_cred demo_malloc 5
           (IwState true false (Some demo_arbiter)) demo_arbiter demo_start 1 [11; 12; 13]%positive);
    [done|done|done|by eexists; vm_compute|apply demo_fresh|].
  by apply (bool_decide_unpack _); vm_compute.
Defined.

Definition demo_full_ssid : world :=
  World (<[1%positive := DlNode (Some 2%positive) (Some 2%positive)]>
           {[2%positive := DlNode (Some 1%positive) (Some 1%positive)]})
    {[2%positive := 11%positive]} {[11%positive := WpaBss (repeat 65 32) []]} [].

Lemma display_candidates_full_ssid_witness :
  display_candidates demo_full_ssid 1 = UB OutOfBounds.
Proof.
  apply (display_candidates_full_ssid demo_full_ssid 1 2 [] 11 (WpaBss (repeat 65 32) []));
    [|reflexivity|reflexivity|by apply (bool_decide_unpack _); vm_compute].
  split; [by apply (bool_decide_unpack _); vm_compute|].
  simpl. split_and!; try done; eexists; split; vm_compute; reflexivity.
Defined.
