(* ===== verification/Merkle.v ===== *)
(** * Block-iterated hashing

    What the hash implementations of src/src/crypto share: a compression
    function applied to the 64-byte blocks of a message, and a context that
    buffers the bytes of an incomplete block.  [absorbed f h0 h buf m] relates
    a context to the message it has consumed; the components prove that their
    update functions preserve it.  [counts] relates a 64-bit bit counter kept in
    two words to the number of bytes hashed. *)

From S2P Require Import Prelude.

Section fold.
Context {H : Type} (f : H → list Z → H).

(** Compress the complete blocks of [l], in order. *)
Fixpoint md_fold_n (n : nat) (h : H) (l : list Z) : H :=
  match n with
  | O => h
  | S n =>
      if bool_decide (64 ≤ length l)%nat then md_fold_n n (f h (take 64 l)) (drop 64 l)
      else h
  end.

Definition md_fold (h : H) (l : list Z) : H := md_fold_n (length l) h l.

Lemma md_fold_n_enough n m h l :
  (length l ≤ n)%nat → (length l ≤ m)%nat → md_fold_n n h l = md_fold_n m h l.
Proof.
  revert m h l. induction n as [|n IH]; intros [|m] h l Hn Hm; simpl; try done.
  - rewrite bool_decide_false by lia. done.
  - rewrite bool_decide_false by lia. done.
  - case_bool_decide; [|done]. apply IH; rewrite length_drop; lia.
Qed.

Lemma md_fold_short h l : (length l < 64)%nat → md_fold h l = h.
Proof.
  intros Hl. unfold md_fold. destruct (length l) eqn:E; simpl; [done|].
  rewrite bool_decide_false by lia. done.
Qed.

Lemma md_fold_block h b l : length b = 64%nat → md_fold h (b ++ l) = md_fold (f h b) l.
Proof.
  intros Hb. unfold md_fold. rewrite length_app, Hb.
  change (64 + length l)%nat with (S (63 + length l)). cbn [md_fold_n].
  rewrite bool_decide_true by (rewrite length_app; lia).
  rewrite take_app_length', drop_app_length' by done. apply md_fold_n_enough; lia.
Qed.

(** A prefix made of complete blocks can be compressed first. *)
Lemma md_fold_app h a b :
  (length a mod 64 = 0)%nat → md_fold h (a ++ b) = md_fold (md_fold h a) b.
Proof.
  remember (length a) as n eqn:Hn. revert h a Hn.
  induction (lt_wf n) as [n _ IH]; intros h a -> Hm.
  destruct (decide (length a < 64)%nat) as [Hlt|Hge].
  - rewrite Nat.mod_small in Hm by done. destruct a; [done|discriminate].
  - assert (∃ t d, a = t ++ d ∧ length t = 64%nat) as (t & d & -> & Ht).
    { exists (take 64 a), (drop 64 a). rewrite take_drop, length_take. split; [done|lia]. }
    rewrite <-app_assoc, (md_fold_block h t (d ++ b)), (md_fold_block h t d) by done.
    rewrite length_app, Ht in *.
    apply (IH (length d)); [lia|done|].
    replace (64 + length d)%nat with (length d + 1 * 64)%nat in Hm by lia.
    by rewrite Nat.Div0.mod_add in Hm.
Qed.
End fold.

(** Two compression functions that agree on the reachable hash values. *)
Lemma md_fold_ext_inv {H} (P : H → Prop) (f g : H → list Z → H) h l :
  (∀ h b, P h → bytes_ok b → length b = 64%nat → f h b = g h b ∧ P (g h b)) →
  P h → bytes_ok l → md_fold f h l = md_fold g h l.
Proof.
  intros Hfg. unfold md_fold. generalize (length l) at 1 2 as n. intros n. revert h l.
  induction n as [|n IH]; intros h l Hh Hl; [done|]. cbn [md_fold_n]. case_bool_decide; [|done].
  destruct (Hfg h (take 64 l)) as [-> Hg]; [done|by apply Forall_take|rewrite length_take; lia|].
  apply IH; [done|]. by apply Forall_drop.
Qed.

Lemma md_fold_ext {H} (f g : H → list Z → H) h l :
  (∀ h b, bytes_ok b → length b = 64%nat → f h b = g h b) → bytes_ok l → md_fold f h l = md_fold g h l.
Proof. intros Hfg. apply (md_fold_ext_inv (λ _, True)); [|done]. auto. Qed.

(** The bytes of [m] after its last complete block. *)
Definition md_tail (m : list Z) : list Z := drop (length m - length m mod 64) m.

Lemma length_md_tail m : length (md_tail m) = (length m mod 64)%nat.
Proof.
  unfold md_tail. rewrite length_drop. pose proof (Nat.mod_upper_bound (length m) 64).
  pose proof (Nat.Div0.mod_le (length m) 64). lia.
Qed.

Record absorbed {H} (f : H → list Z → H) (h0 h : H) (buf m : list Z) : Prop := {
  absorbed_hash : h = md_fold f h0 m;
  absorbed_tail : take (length m mod 64) buf = md_tail m;
  absorbed_buf : length buf = 64%nat
}.

Section absorb.
Context {H : Type} (f : H → list Z → H) (h0 : H).

(** The complete blocks of [m ++ d] are those of [m] and then those of the
    pending bytes followed by [d]. *)
Lemma md_fold_resume m d :
  md_fold f h0 (m ++ d) = md_fold f (md_fold f h0 m) (md_tail m ++ d).
Proof.
  set (k := (length m - length m mod 64)%nat).
  assert (length (take k m) mod 64 = 0)%nat as Hk.
  { rewrite length_take. subst k.
    replace (min (length m - length m mod 64) (length m))%nat
      with (64 * (length m / 64))%nat.
    - rewrite Nat.mul_comm. apply Nat.Div0.mod_mul.
    - pose proof (Nat.div_mod_eq (length m) 64). lia. }
  assert (m = take k m ++ md_tail m) as Hm by (unfold md_tail; by rewrite take_drop).
  assert (md_fold f h0 m = md_fold f h0 (take k m)) as ->.
  { rewrite Hm at 1. rewrite md_fold_app by done. apply md_fold_short.
    rewrite length_md_tail. apply Nat.mod_upper_bound. done. }
  rewrite Hm at 1. rewrite <-app_assoc. by rewrite md_fold_app.
Qed.

Lemma md_tail_resume m d : md_tail (m ++ d) = md_tail (md_tail m ++ d).
Proof.
  unfold md_tail at 1 2. rewrite !length_app, length_md_tail.
  rewrite Nat.Div0.add_mod_idemp_l.
  set (r := ((length m + length d) mod 64)%nat).
  unfold md_tail. set (k := (length m - length m mod 64)%nat).
  pose proof (Nat.Div0.mod_le (length m) 64).
  assert (r ≤ length m mod 64 + length d)%nat.
  { subst r. rewrite <-(Nat.Div0.add_mod_idemp_l (length m)). apply Nat.Div0.mod_le. }
  replace (drop k m ++ d) with (drop k (m ++ d))
    by (rewrite drop_app_le by (subst k; lia); done).
  rewrite drop_drop. f_equal. subst k. lia.
Qed.

Lemma md_tail_short m : (length m < 64)%nat → md_tail m = m.
Proof. intros. unfold md_tail. rewrite Nat.mod_small, Nat.sub_diag by done. done. Qed.

Lemma md_tail_block b l : length b = 64%nat → md_tail (b ++ l) = md_tail l.
Proof.
  intros Hb. rewrite md_tail_resume. unfold md_tail at 2. rewrite Hb.
  rewrite Nat.Div0.mod_same, Nat.sub_0_r, drop_ge by lia. done.
Qed.

Lemma absorbed_init buf : length buf = 64%nat → absorbed f h0 h0 buf [].
Proof. intros. split; [done|done|done]. Qed.

(** Storing [d] behind the pending bytes when the block stays incomplete. *)
Lemma absorbed_store h buf m d :
  absorbed f h0 h buf m → (length m mod 64 + length d < 64)%nat →
  absorbed f h0 h (splice buf (length m mod 64) d) (m ++ d).
Proof.
  intros [Hh Ht Hb] Hlt.
  assert (length (md_tail m ++ d) < 64)%nat by (rewrite length_app, length_md_tail; lia).
  split.
  - rewrite md_fold_resume, md_fold_short by done. done.
  - rewrite length_app, <-(Nat.Div0.add_mod_idemp_l (length m)), Nat.mod_small by lia.
    rewrite take_splice by lia. rewrite Ht, md_tail_resume, (md_tail_short (md_tail m ++ d)); done.
  - rewrite length_splice; lia.
Qed.

(** Completing the pending block with the first bytes [d] and compressing it. *)
Lemma absorbed_fill h buf m d :
  absorbed f h0 h buf m → (length m mod 64 + length d = 64)%nat →
  absorbed f h0 (f h (splice buf (length m mod 64) d)) (splice buf (length m mod 64) d) (m ++ d).
Proof.
  intros [Hh Ht Hb] Hlt.
  assert (splice buf (length m mod 64) d = md_tail m ++ d) as Hs.
  { rewrite <-Ht. rewrite <-take_splice by lia. rewrite take_ge; [done|].
    rewrite length_splice; lia. }
  assert (length (md_tail m ++ d) = 64)%nat by (rewrite length_app, length_md_tail; lia).
  split.
  - rewrite md_fold_resume, Hs, <-Hh. rewrite <-(app_nil_r (md_tail m ++ d)) at 2.
    rewrite md_fold_block, md_fold_short by (simpl; lia). done.
  - rewrite md_tail_resume. rewrite <-(app_nil_r (md_tail m ++ d)), md_tail_block by done.
    rewrite length_app, <-(Nat.Div0.add_mod_idemp_l (length m)), Hlt. done.
  - rewrite length_splice; lia.
Qed.

(** Compressing a whole block that arrives on a block boundary; the buffer
    may or may not hold a copy of it. *)
Lemma absorbed_block h buf buf' m d :
  absorbed f h0 h buf m → (length m mod 64 = 0)%nat → length d = 64%nat →
  length buf' = 64%nat → absorbed f h0 (f h d) buf' (m ++ d).
Proof.
  intros [Hh Ht Hb] Hm Hd Hb'.
  assert (md_tail m = []) as Htl by (apply nil_length_inv; by rewrite length_md_tail).
  split; [| |done].
  - rewrite md_fold_resume, Htl, <-Hh. simpl. rewrite <-(app_nil_r d).
    rewrite md_fold_block, app_nil_r, md_fold_short by (simpl; lia). done.
  - rewrite md_tail_resume, Htl. rewrite <-(app_nil_r d) at 2. rewrite app_nil_l, md_tail_block by done.
    rewrite length_app, <-(Nat.Div0.add_mod_idemp_l (length m)), Hm, Hd. done.
Qed.
End absorb.

(** ** The bit counter *)

(** The bit counter: two 32-bit halves of the message length in bits modulo
    [2^64]. *)
Definition counts (b0 b1 n : Z) : Prop :=
  is_u32 b0 ∧ is_u32 b1 ∧ b0 + 2 ^ 32 * b1 = (8 * n) mod 2 ^ 64.

Lemma counts_add b0 b1 n len :
  counts b0 b1 n → 0 ≤ n → is_u32 len →
  let b0' := u32 (b0 + u32 (Z.shiftl (u32 len) 3)) in
  let b1' := if b0' <? b0 then u32 (b1 + 1) else b1 in
  counts b0' (u32 (b1' + Z.shiftr (u32 len) 29)) (n + len).
Proof.
  intros (H0 & H1 & Hc) Hn Hlen b0' b1'. subst b0' b1'. rewrite !(u32_small len) by done.
  split; [apply u32_range|]. split; [apply u32_range|].
  rewrite Z.mul_add_distr_l, <-Z.add_mod_idemp_l, <-Hc by lia.
  unfold is_u32, u32 in *. rewrite Z.shiftl_mul_pow2, Z.shiftr_div_pow2 by lia.
  change (2 ^ 3) with 8 in *. change (2 ^ 29) with 536870912 in *.
  change (2 ^ 32) with 4294967296 in *. change (2 ^ 64) with 18446744073709551616 in *.
  set (lo := (len * 8) mod 4294967296). set (hi := len / 536870912).
  assert (8 * len = lo + 4294967296 * hi ∧ 0 ≤ lo < 4294967296 ∧ 0 ≤ hi < 8) as (Hsp & Hlo & Hhi)
    by (subst lo hi; Z.to_euclidean_division_equations; lia).
  rewrite Hsp. clearbody lo hi. clear Hsp Hc Hlen.
  assert ((b0 + lo) mod 4294967296 = if b0 + lo <? 4294967296 then b0 + lo else b0 + lo - 4294967296) as ->
    by (destruct (Z.ltb_spec (b0 + lo) 4294967296); Z.to_euclidean_division_equations; lia).
  destruct (Z.ltb_spec (b0 + lo) 4294967296).
  - destruct (Z.ltb_spec (b0 + lo) b0); [lia|]. Z.to_euclidean_division_equations; lia.
  - destruct (Z.ltb_spec (b0 + lo - 4294967296) b0); [|lia].
    rewrite Z.add_mod_idemp_l by lia. Z.to_euclidean_division_equations; lia.
Qed.

Lemma counts_index b0 b1 n :
  counts b0 b1 (Z.of_nat n) → Z.to_nat (Z.land (Z.shiftr b0 3) 0x3f) = (n mod 64)%nat.
Proof.
  intros (H0 & H1 & Hc). unfold is_u32 in *. change 0x3f with (Z.ones 6).
  rewrite Z.land_ones, Z.shiftr_div_pow2 by lia.
  change (2 ^ 3) with 8. change (2 ^ 6) with 64.
  change (2 ^ 32) with 4294967296 in *. change (2 ^ 64) with 18446744073709551616 in *.
  rewrite <-(Nat2Z.id (n mod 64)), Nat2Z.inj_mod. f_equal. simpl.
  Z.to_euclidean_division_equations. lia.
Qed.

Lemma counts_bytes b0 b1 n :
  counts b0 b1 n → le_bytes 8 (8 * n) = le_bytes 4 b0 ++ le_bytes 4 b1.
Proof.
  intros (H0 & H1 & Hc). rewrite <-le_bytes_mod.
  change (2 ^ (8 * Z.of_nat 8)) with (2 ^ 64). rewrite <-Hc. rewrite (le_bytes_app 4 4). f_equal.
  - rewrite <-le_bytes_mod. rewrite <-(le_bytes_mod 4 b0). f_equal.
    change (2 ^ (8 * Z.of_nat 4)) with (2 ^ 32). rewrite Z.mul_comm. by rewrite Z.mod_add.
  - f_equal. change (8 * Z.of_nat 4) with 32. rewrite Z.shiftr_div_pow2 by lia.
    rewrite Z.mul_comm, Z.div_add by lia. unfold is_u32 in *. rewrite Z.div_small; lia.
Qed.

(** ** Lengths and pads *)

(** The length of a chunk fits the 32-bit length arguments. *)
Definition small (l : list Z) : Prop := is_u32 (Z.of_nat (length l)).

Definition xor_pad (k_pad : list Z) (c : Z) : list Z := map (λ b, Z.lxor b c) k_pad.

(** A key in a zeroed block. *)
Lemma splice_key k :
  (length k ≤ 64)%nat → splice (repeat 0 64) 0 k = k ++ repeat 0 (64 - length k).
Proof.
  intros Hk. unfold splice. rewrite take_0, app_nil_l, Nat.add_0_l. f_equal.
  replace 64%nat with (length k + (64 - length k))%nat at 1 by lia.
  rewrite repeat_app. by rewrite drop_app_length' by (by rewrite repeat_length).
Qed.

Lemma small_pad k c : (length k ≤ 64)%nat → small (xor_pad (k ++ repeat 0 (64 - length k)) c).
Proof.
  intros Hk. unfold small, xor_pad, is_u32. rewrite length_map, length_app, repeat_length. lia.
Qed.
