(* ===== verification/Md4.v ===== *)
(** * MD4 (src/src/crypto/md4-internal.c)

    As in Md5, on a little-endian host; the bit count is one 64-bit word here, and the
    padding goes through the update function.  The reference is the compression function
    folded over the message padded as RFC 1320 prescribes. *)

From S2P Require Import Prelude Merkle.

(** ** The compression function *)

Definition F1 (x y z : Z) : Z := Z.lxor z (Z.land x (Z.lxor y z)).
Definition F2 (x y z : Z) : Z := Z.lor (Z.lor (Z.land x y) (Z.land x z)) (Z.land y z).
Definition F3 (x y z : Z) : Z := Z.lxor (Z.lxor x y) z.

(** [w += f(x, y, z) + data, w = w<<s | w>>(32-s)] *)
Definition MD4STEP (f : Z → Z → Z → Z) (w x y z data s : Z) : Z :=
  let w := u32 (w + (f x y z + data)) in
  Z.lor (u32 (Z.shiftl w s)) (Z.shiftr w (32 - s)).

Definition inw (block : list Z) (i : nat) : Z := le_val (take 4 (drop (4 * i) block)).

Definition md4_hash : Type := Z * Z * Z * Z.

Definition MD4Transform (state : md4_hash) (block : list Z) : md4_hash :=
  let '(a0, b0, c0, d0) := state in
  let a := a0 in let b := b0 in let c := c0 in let d := d0 in
  let a := MD4STEP F1 a b c d (inw block 0) 3 in
  let d := MD4STEP F1 d a b c (inw block 1) 7 in
  let c := MD4STEP F1 c d a b (inw block 2) 11 in
  let b := MD4STEP F1 b c d a (inw block 3) 19 in
  let a := MD4STEP F1 a b c d (inw block 4) 3 in
  let d := MD4STEP F1 d a b c (inw block 5) 7 in
  let c := MD4STEP F1 c d a b (inw block 6) 11 in
  let b := MD4STEP F1 b c d a (inw block 7) 19 in
  let a := MD4STEP F1 a b c d (inw block 8) 3 in
  let d := MD4STEP F1 d a b c (inw block 9) 7 in
  let c := MD4STEP F1 c d a b (inw block 10) 11 in
  let b := MD4STEP F1 b c d a (inw block 11) 19 in
  let a := MD4STEP F1 a b c d (inw block 12) 3 in
  let d := MD4STEP F1 d a b c (inw block 13) 7 in
  let c := MD4STEP F1 c d a b (inw block 14) 11 in
  let b := MD4STEP F1 b c d a (inw block 15) 19 in
  let a := MD4STEP F2 a b c d (inw block 0 + 0x5a827999) 3 in
  let d := MD4STEP F2 d a b c (inw block 4 + 0x5a827999) 5 in
  let c := MD4STEP F2 c d a b (inw block 8 + 0x5a827999) 9 in
  let b := MD4STEP F2 b c d a (inw block 12 + 0x5a827999) 13 in
  let a := MD4STEP F2 a b c d (inw block 1 + 0x5a827999) 3 in
  let d := MD4STEP F2 d a b c (inw block 5 + 0x5a827999) 5 in
  let c := MD4STEP F2 c d a b (inw block 9 + 0x5a827999) 9 in
  let b := MD4STEP F2 b c d a (inw block 13 + 0x5a827999) 13 in
  let a := MD4STEP F2 a b c d (inw block 2 + 0x5a827999) 3 in
  let d := MD4STEP F2 d a b c (inw block 6 + 0x5a827999) 5 in
  let c := MD4STEP F2 c d a b (inw block 10 + 0x5a827999) 9 in
  let b := MD4STEP F2 b c d a (inw block 14 + 0x5a827999) 13 in
  let a := MD4STEP F2 a b c d (inw block 3 + 0x5a827999) 3 in
  let d := MD4STEP F2 d a b c (inw block 7 + 0x5a827999) 5 in
  let c := MD4STEP F2 c d a b (inw block 11 + 0x5a827999) 9 in
  let b := MD4STEP F2 b c d a (inw block 15 + 0x5a827999) 13 in
  let a := MD4STEP F3 a b c d (inw block 0 + 0x6ed9eba1) 3 in
  let d := MD4STEP F3 d a b c (inw block 8 + 0x6ed9eba1) 9 in
  let c := MD4STEP F3 c d a b (inw block 4 + 0x6ed9eba1) 11 in
  let b := MD4STEP F3 b c d a (inw block 12 + 0x6ed9eba1) 15 in
  let a := MD4STEP F3 a b c d (inw block 2 + 0x6ed9eba1) 3 in
  let d := MD4STEP F3 d a b c (inw block 10 + 0x6ed9eba1) 9 in
  let c := MD4STEP F3 c d a b (inw block 6 + 0x6ed9eba1) 11 in
  let b := MD4STEP F3 b c d a (inw block 14 + 0x6ed9eba1) 15 in
  let a := MD4STEP F3 a b c d (inw block 1 + 0x6ed9eba1) 3 in
  let d := MD4STEP F3 d a b c (inw block 9 + 0x6ed9eba1) 9 in
  let c := MD4STEP F3 c d a b (inw block 5 + 0x6ed9eba1) 11 in
  let b := MD4STEP F3 b c d a (inw block 13 + 0x6ed9eba1) 15 in
  let a := MD4STEP F3 a b c d (inw block 3 + 0x6ed9eba1) 3 in
  let d := MD4STEP F3 d a b c (inw block 11 + 0x6ed9eba1) 9 in
  let c := MD4STEP F3 c d a b (inw block 7 + 0x6ed9eba1) 11 in
  let b := MD4STEP F3 b c d a (inw block 15 + 0x6ed9eba1) 15 in
  (u32 (a0 + a), u32 (b0 + b), u32 (c0 + c), u32 (d0 + d)).

(** ** The context and its operations *)

Record MD4_CTX := Md4Ctx { state : md4_hash; count : Z; buffer : list Z }.

Definition md4_h0 : md4_hash := (0x67452301, 0xefcdab89, 0x98badcfe, 0x10325476).

(** The buffer is not initialised. *)
Definition MD4Init (mem : list Z) : MD4_CTX := Md4Ctx md4_h0 0 mem.

(** [while (len >= MD4_BLOCK_LENGTH)]: the state and the rest. *)
Fixpoint md4_chunks (fuel : nat) (h : md4_hash) (data : list Z) : md4_hash * list Z :=
  match fuel with
  | O => (h, data)
  | S fuel =>
      if bool_decide (64 ≤ length data)%nat then md4_chunks fuel (MD4Transform h (take 64 data)) (drop 64 data)
      else (h, data)
  end.

Definition MD4Update (ctx : MD4_CTX) (data : list Z) : MD4_CTX :=
  let have := Z.to_nat (Z.land (Z.shiftr (count ctx) 3) 0x3f) in
  let need := (64 - have)%nat in
  let n := u64 (count ctx + u64 (Z.shiftl (Z.of_nat (length data)) 3)) in
  if bool_decide (need ≤ length data)%nat then
    let '(h, b, data) :=
      if bool_decide (have ≠ 0)%nat then
        let b := splice (buffer ctx) have (take need data) in (MD4Transform (state ctx) b, b, drop need data)
      else (state ctx, buffer ctx, data) in
    let '(h, data) := md4_chunks (length data) h data in
    Md4Ctx h n (splice b 0 data)
  else Md4Ctx (state ctx) n (splice (buffer ctx) have data).

Definition PADDING : list Z := 0x80 :: repeat 0 63.

Definition MD4Pad (ctx : MD4_CTX) : MD4_CTX :=
  let cnt := le_bytes 8 (count ctx) in
  let padlen := (64 - Z.to_nat (Z.land (Z.shiftr (count ctx) 3) 0x3f))%nat in
  let padlen := if bool_decide (padlen < 1 + 8)%nat then (padlen + 64)%nat else padlen in
  MD4Update (MD4Update ctx (take (padlen - 8) PADDING)) cnt.

Definition md4_digest (h : md4_hash) : list Z :=
  let '(a, b, c, d) := h in le_bytes 4 a ++ le_bytes 4 b ++ le_bytes 4 c ++ le_bytes 4 d.
Definition MD4Final (ctx : MD4_CTX) : list Z := md4_digest (state (MD4Pad ctx)).

(** [mem] is the uninitialised stack memory of the context. *)
Definition md4_vector (mem : list Z) (elems : list (list Z)) : list Z :=
  MD4Final (foldl MD4Update (MD4Init mem) elems).

(** ** The reference *)

Definition md4_pad (m : list Z) : list Z :=
  m ++ [0x80] ++ repeat 0 ((119 - length m mod 64) mod 64) ++ le_bytes 8 (8 * Z.of_nat (length m)).
Definition md4_ref (m : list Z) : list Z := md4_digest (md_fold MD4Transform md4_h0 (md4_pad m)).

(** The test suite of RFC 1320. *)
Example md4_abc : md4_vector (repeat 7 64) [[97]; [98; 99]] =
  [0xa4; 0x48; 0x01; 0x7a; 0xaf; 0x21; 0xd8; 0x52; 0x5f; 0xc1; 0x0a; 0xe8; 0x7a; 0xa6; 0x72; 0x9d].
Proof. vm_compute. reflexivity. Qed.

#[local] Opaque MD4Transform.

(** ** Correctness *)

Record md4_inv (ctx : MD4_CTX) (m : list Z) : Prop := {
  md4_absorbed : absorbed MD4Transform md4_h0 (state ctx) (buffer ctx) m;
  md4_count : count ctx = u64 (8 * Z.of_nat (length m))
}.

Lemma md4_index ctx m : md4_inv ctx m → Z.to_nat (Z.land (Z.shiftr (count ctx) 3) 0x3f) = (length m mod 64)%nat.
Proof.
  intros [_ ->]. change 0x3f with (Z.ones 6). rewrite Z.land_ones, Z.shiftr_div_pow2 by lia. unfold u64.
  rewrite <-(Nat2Z.id (length m mod 64)), Nat2Z.inj_mod. f_equal. change (2 ^ 3) with 8. change (2 ^ 6) with 64.
  change (2 ^ 64) with 18446744073709551616. simpl. Z.to_euclidean_division_equations. lia.
Qed.

Lemma md4_count_add n len : u64 (u64 (8 * n) + u64 (Z.shiftl len 3)) = u64 (8 * (n + len)).
Proof.
  unfold u64. rewrite Z.shiftl_mul_pow2 by lia. change (2 ^ 3) with 8. rewrite <-Z.add_mod by lia. f_equal. lia.
Qed.

Lemma md4_chunks_spec data : ∀ fuel h b m,
  absorbed MD4Transform md4_h0 h b m → (length m mod 64 = 0)%nat → (length data ≤ fuel)%nat →
  ∃ d r h', md4_chunks fuel h data = (h', r) ∧ data = d ++ r ∧
    absorbed MD4Transform md4_h0 h' b (m ++ d) ∧ (length (m ++ d) mod 64 = 0)%nat ∧ (length r < 64)%nat.
Proof.
  remember (length data) as n eqn:Hn. revert data Hn.
  induction (lt_wf n) as [n _ IH]; intros data -> [|fuel] h b m Ha Hm Hf.
  { exists [], data, h. rewrite app_nil_r. split_and!; try done. lia. }
  cbn [md4_chunks]. case_bool_decide as Hge.
  2:{ exists [], data, h. rewrite app_nil_r. split_and!; try done. lia. }
  assert (length (take 64 data) = 64%nat) as Ht by (rewrite length_take; lia).
  destruct (IH (length (drop 64 data)) ltac:(rewrite length_drop; lia) (drop 64 data) eq_refl
    fuel (MD4Transform h (take 64 data)) b (m ++ take 64 data)) as (d & r & h' & -> & Hd & Ha' & Hm' & Hr).
  - eapply absorbed_block; [exact Ha|done..|]. apply (absorbed_buf _ _ _ _ _ Ha).
  - rewrite length_app, Ht, <-(Nat.Div0.add_mod_idemp_l (length m)), Hm. done.
  - rewrite length_drop. lia.
  - exists (take 64 data ++ d), r, h'. rewrite <-!app_assoc in *. split_and!; try done. by rewrite <-Hd, take_drop.
Qed.

(** The end of an update, from a block boundary. *)
Lemma md4_finish h b m data :
  absorbed MD4Transform md4_h0 h b m → (length m mod 64 = 0)%nat →
  ∃ h' r, md4_chunks (length data) h data = (h', r) ∧ absorbed MD4Transform md4_h0 h' (splice b 0 r) (m ++ data).
Proof.
  intros Ha Hm. destruct (md4_chunks_spec data (length data) h b m Ha Hm) as (d & r & h' & -> & -> & Ha' & Hm' & Hr); [lia|].
  exists h', r. split; [done|]. rewrite app_assoc.
  pose proof (absorbed_store _ _ _ _ _ r Ha') as Hs. rewrite Hm' in Hs. apply Hs. lia.
Qed.

Lemma MD4Update_inv ctx m data : md4_inv ctx m → md4_inv (MD4Update ctx data) (m ++ data).
Proof.
  intros Hi. pose proof (md4_index ctx m Hi) as Hx. destruct Hi as [Ha Hc]. unfold MD4Update. cbv zeta.
  rewrite Hx, Hc, md4_count_add, <-Nat2Z.inj_add, <-length_app.
  assert (length m mod 64 < 64)%nat as Ht by (apply Nat.mod_upper_bound; done).
  set (t := (length m mod 64)%nat) in *. case_bool_decide as Hl.
  2:{ split; [|done]. apply absorbed_store; [done|]. fold t. lia. }
  destruct (decide (t = 0)%nat) as [Hz|Hz].
  - rewrite (bool_decide_false (_ ≠ 0)%nat) by tauto.
    destruct (md4_finish _ _ _ data Ha Hz) as (h' & r & -> & ?). by split.
  - rewrite (bool_decide_true (_ ≠ 0)%nat) by done.
    assert (absorbed MD4Transform md4_h0 (MD4Transform (state ctx) (splice (buffer ctx) t (take (64 - t) data)))
      (splice (buffer ctx) t (take (64 - t) data)) (m ++ take (64 - t) data)) as Ha'
      by (apply absorbed_fill; [done|]; rewrite length_take; lia).
    destruct (md4_finish _ _ _ (drop (64 - t) data) Ha') as (h' & r & -> & Hfin).
    + rewrite length_app, <-(Nat.Div0.add_mod_idemp_l (length m)). fold t. rewrite length_take, Nat.min_l by lia.
      by replace (t + (64 - t))%nat with 64%nat by lia.
    + rewrite <-app_assoc, take_drop in Hfin. by split.
Qed.

Lemma MD4Init_inv mem : length mem = 64%nat → md4_inv (MD4Init mem) [].
Proof. intros. split; [by apply absorbed_init|done]. Qed.

Lemma take_padding k : (0 < k ≤ 64)%nat → take k PADDING = [0x80] ++ repeat 0 (k - 1).
Proof.
  intros Hk. unfold PADDING. destruct k as [|k]; [lia|]. cbn [take app]. rewrite Nat.sub_succ, Nat.sub_0_r. f_equal.
  replace 63%nat with (k + (63 - k))%nat by lia. rewrite repeat_app. by rewrite take_app_length' by (by rewrite repeat_length).
Qed.

Lemma MD4Final_spec ctx m : md4_inv ctx m → MD4Final ctx = md4_ref m.
Proof.
  intros Hi. pose proof (md4_index ctx m Hi) as Hx. unfold MD4Final, MD4Pad, md4_ref. cbv zeta. rewrite Hx. f_equal.
  assert (length m mod 64 < 64)%nat as Hn by (apply Nat.mod_upper_bound; done). set (n := (length m mod 64)%nat) in *.
  set (k := if bool_decide (64 - n < 1 + 8)%nat then _ else _).
  assert (take (k - 8) PADDING = [0x80] ++ repeat 0 ((119 - n) mod 64)) as ->.
  { subst k. case_bool_decide.
    - rewrite take_padding by lia. do 2 f_equal. rewrite Nat.mod_small by lia. lia.
    - rewrite take_padding by lia. do 2 f_equal. replace (119 - n)%nat with (55 - n + 1 * 64)%nat by lia.
      rewrite Nat.Div0.mod_add, Nat.mod_small; lia. }
  rewrite (md4_count _ _ Hi). change (u64 (8 * Z.of_nat (length m))) with ((8 * Z.of_nat (length m)) mod 2 ^ (8 * Z.of_nat 8)).
  rewrite le_bytes_mod.
  pose proof (MD4Update_inv _ _ (le_bytes 8 (8 * Z.of_nat (length m))) (MD4Update_inv _ _ ([0x80] ++ repeat 0 ((119 - n) mod 64)) Hi))
    as [[-> _ _] _]. unfold md4_pad. fold n. by rewrite <-!app_assoc.
Qed.

(** Whatever the uninitialised memory of the context holds and however the message is cut
    into elements, the hash is the one of RFC 1320. *)
Theorem md4_vector_correct mem elems : length mem = 64%nat → md4_vector mem elems = md4_ref (concat elems).
Proof.
  intros Hmem. apply MD4Final_spec.
  assert (∀ ctx m, md4_inv ctx m → md4_inv (foldl MD4Update ctx elems) (m ++ concat elems)) as Hf.
  { induction elems as [|e elems IH]; intros ctx m Hinv; simpl; [by rewrite app_nil_r|].
    rewrite app_assoc. apply IH. by apply MD4Update_inv. }
  apply (Hf _ []). by apply MD4Init_inv.
Qed.

Lemma md4_digest_ok h : length (md4_digest h) = 16%nat ∧ bytes_ok (md4_digest h).
Proof.
  destruct h as [[[a b] c] d]. split; [done|]. unfold md4_digest. repeat apply Forall_app_2; apply le_bytes_ok.
Qed.
Lemma md4_vector_ok mem elems : length (md4_vector mem elems) = 16%nat ∧ bytes_ok (md4_vector mem elems).
Proof. apply md4_digest_ok. Qed.
