(* ===== verification/Md5.v ===== *)
(** * MD5 and HMAC-MD5 (src/src/crypto/md5-internal.c, md5.c)

    The implementation keeps 32-bit words as integers reduced modulo [2^32] and
    the 64-byte block buffer as a byte list, on a little-endian host.  The
    reference is [md5_ref]: the compression function folded over the message
    padded as RFC 1321 prescribes. *)

From S2P Require Import Prelude Merkle.

(** ** The compression function *)

Definition not32 (z : Z) : Z := Z.lxor z 0xffffffff.

Definition F1 (x y z : Z) : Z := Z.lxor z (Z.land x (Z.lxor y z)).
Definition F2 (x y z : Z) : Z := F1 z x y.
Definition F3 (x y z : Z) : Z := Z.lxor (Z.lxor x y) z.
Definition F4 (x y z : Z) : Z := Z.lxor y (Z.lor x (not32 z)).

(** [w += f(x, y, z) + data, w = w<<s | w>>(32-s), w += x] *)
Definition MD5STEP (f : Z → Z → Z → Z) (w x y z data s : Z) : Z :=
  let w := u32 (w + (f x y z + data)) in
  let w := Z.lor (u32 (Z.shiftl w s)) (Z.shiftr w (32 - s)) in
  u32 (w + x).

(** [in[i]] of a 64-byte block read as sixteen 32-bit words. *)
Definition inw (block : list Z) (i : nat) : Z := le_val (take 4 (drop (4 * i) block)).

Definition md5_hash : Type := Z * Z * Z * Z.

Definition MD5Transform (buf : md5_hash) (block : list Z) : md5_hash :=
  let '(a0, b0, c0, d0) := buf in
  let a := a0 in let b := b0 in let c := c0 in let d := d0 in
  let a := MD5STEP F1 a b c d (inw block 0 + 0xd76aa478) 7 in
  let d := MD5STEP F1 d a b c (inw block 1 + 0xe8c7b756) 12 in
  let c := MD5STEP F1 c d a b (inw block 2 + 0x242070db) 17 in
  let b := MD5STEP F1 b c d a (inw block 3 + 0xc1bdceee) 22 in
  let a := MD5STEP F1 a b c d (inw block 4 + 0xf57c0faf) 7 in
  let d := MD5STEP F1 d a b c (inw block 5 + 0x4787c62a) 12 in
  let c := MD5STEP F1 c d a b (inw block 6 + 0xa8304613) 17 in
  let b := MD5STEP F1 b c d a (inw block 7 + 0xfd469501) 22 in
  let a := MD5STEP F1 a b c d (inw block 8 + 0x698098d8) 7 in
  let d := MD5STEP F1 d a b c (inw block 9 + 0x8b44f7af) 12 in
  let c := MD5STEP F1 c d a b (inw block 10 + 0xffff5bb1) 17 in
  let b := MD5STEP F1 b c d a (inw block 11 + 0x895cd7be) 22 in
  let a := MD5STEP F1 a b c d (inw block 12 + 0x6b901122) 7 in
  let d := MD5STEP F1 d a b c (inw block 13 + 0xfd987193) 12 in
  let c := MD5STEP F1 c d a b (inw block 14 + 0xa679438e) 17 in
  let b := MD5STEP F1 b c d a (inw block 15 + 0x49b40821) 22 in
  let a := MD5STEP F2 a b c d (inw block 1 + 0xf61e2562) 5 in
  let d := MD5STEP F2 d a b c (inw block 6 + 0xc040b340) 9 in
  let c := MD5STEP F2 c d a b (inw block 11 + 0x265e5a51) 14 in
  let b := MD5STEP F2 b c d a (inw block 0 + 0xe9b6c7aa) 20 in
  let a := MD5STEP F2 a b c d (inw block 5 + 0xd62f105d) 5 in
  let d := MD5STEP F2 d a b c (inw block 10 + 0x02441453) 9 in
  let c := MD5STEP F2 c d a b (inw block 15 + 0xd8a1e681) 14 in
  let b := MD5STEP F2 b c d a (inw block 4 + 0xe7d3fbc8) 20 in
  let a := MD5STEP F2 a b c d (inw block 9 + 0x21e1cde6) 5 in
  let d := MD5STEP F2 d a b c (inw block 14 + 0xc33707d6) 9 in
  let c := MD5STEP F2 c d a b (inw block 3 + 0xf4d50d87) 14 in
  let b := MD5STEP F2 b c d a (inw block 8 + 0x455a14ed) 20 in
  let a := MD5STEP F2 a b c d (inw block 13 + 0xa9e3e905) 5 in
  let d := MD5STEP F2 d a b c (inw block 2 + 0xfcefa3f8) 9 in
  let c := MD5STEP F2 c d a b (inw block 7 + 0x676f02d9) 14 in
  let b := MD5STEP F2 b c d a (inw block 12 + 0x8d2a4c8a) 20 in
  let a := MD5STEP F3 a b c d (inw block 5 + 0xfffa3942) 4 in
  let d := MD5STEP F3 d a b c (inw block 8 + 0x8771f681) 11 in
  let c := MD5STEP F3 c d a b (inw block 11 + 0x6d9d6122) 16 in
  let b := MD5STEP F3 b c d a (inw block 14 + 0xfde5380c) 23 in
  let a := MD5STEP F3 a b c d (inw block 1 + 0xa4beea44) 4 in
  let d := MD5STEP F3 d a b c (inw block 4 + 0x4bdecfa9) 11 in
  let c := MD5STEP F3 c d a b (inw block 7 + 0xf6bb4b60) 16 in
  let b := MD5STEP F3 b c d a (inw block 10 + 0xbebfbc70) 23 in
  let a := MD5STEP F3 a b c d (inw block 13 + 0x289b7ec6) 4 in
  let d := MD5STEP F3 d a b c (inw block 0 + 0xeaa127fa) 11 in
  let c := MD5STEP F3 c d a b (inw block 3 + 0xd4ef3085) 16 in
  let b := MD5STEP F3 b c d a (inw block 6 + 0x04881d05) 23 in
  let a := MD5STEP F3 a b c d (inw block 9 + 0xd9d4d039) 4 in
  let d := MD5STEP F3 d a b c (inw block 12 + 0xe6db99e5) 11 in
  let c := MD5STEP F3 c d a b (inw block 15 + 0x1fa27cf8) 16 in
  let b := MD5STEP F3 b c d a (inw block 2 + 0xc4ac5665) 23 in
  let a := MD5STEP F4 a b c d (inw block 0 + 0xf4292244) 6 in
  let d := MD5STEP F4 d a b c (inw block 7 + 0x432aff97) 10 in
  let c := MD5STEP F4 c d a b (inw block 14 + 0xab9423a7) 15 in
  let b := MD5STEP F4 b c d a (inw block 5 + 0xfc93a039) 21 in
  let a := MD5STEP F4 a b c d (inw block 12 + 0x655b59c3) 6 in
  let d := MD5STEP F4 d a b c (inw block 3 + 0x8f0ccc92) 10 in
  let c := MD5STEP F4 c d a b (inw block 10 + 0xffeff47d) 15 in
  let b := MD5STEP F4 b c d a (inw block 1 + 0x85845dd1) 21 in
  let a := MD5STEP F4 a b c d (inw block 8 + 0x6fa87e4f) 6 in
  let d := MD5STEP F4 d a b c (inw block 15 + 0xfe2ce6e0) 10 in
  let c := MD5STEP F4 c d a b (inw block 6 + 0xa3014314) 15 in
  let b := MD5STEP F4 b c d a (inw block 13 + 0x4e0811a1) 21 in
  let a := MD5STEP F4 a b c d (inw block 4 + 0xf7537e82) 6 in
  let d := MD5STEP F4 d a b c (inw block 11 + 0xbd3af235) 10 in
  let c := MD5STEP F4 c d a b (inw block 2 + 0x2ad7d2bb) 15 in
  let b := MD5STEP F4 b c d a (inw block 9 + 0xeb86d391) 21 in
  (u32 (a0 + a), u32 (b0 + b), u32 (c0 + c), u32 (d0 + d)).

(** ** The context and its operations *)

Record MD5Context := MD5Ctx {
  buf : md5_hash;
  bits0 : Z;
  bits1 : Z;
  in_ : list Z
}.

Definition md5_h0 : md5_hash := (0x67452301, 0xefcdab89, 0x98badcfe, 0x10325476).

(** [in] is not initialised: it keeps whatever the memory held. *)
Definition MD5Init (mem : list Z) : MD5Context := MD5Ctx md5_h0 0 0 mem.

(** [while (len >= 64)]: returns the hash, the buffer and the rest. *)
Fixpoint md5_chunks (fuel : nat) (h : md5_hash) (inb data : list Z)
    : md5_hash * list Z * list Z :=
  match fuel with
  | O => (h, inb, data)
  | S fuel =>
      if bool_decide (64 ≤ length data)%nat then
        let inb := splice inb 0 (take 64 data) in
        md5_chunks fuel (MD5Transform h inb) inb (drop 64 data)
      else (h, inb, data)
  end.

Definition MD5Update (ctx : MD5Context) (data : list Z) : MD5Context :=
  let len := Z.of_nat (length data) in
  let t := bits0 ctx in
  let b0 := u32 (t + u32 (Z.shiftl (u32 len) 3)) in
  let b1 := if b0 <? t then u32 (bits1 ctx + 1) else bits1 ctx in
  let b1 := u32 (b1 + Z.shiftr (u32 len) 29) in
  let t := Z.to_nat (Z.land (Z.shiftr t 3) 0x3f) in
  if bool_decide (t ≠ 0)%nat && bool_decide (length data < 64 - t)%nat then
    MD5Ctx (buf ctx) b0 b1 (splice (in_ ctx) t data)
  else
    let '(h, inb, data) :=
      if bool_decide (t ≠ 0)%nat then
        let inb := splice (in_ ctx) t (take (64 - t) data) in
        (MD5Transform (buf ctx) inb, inb, drop (64 - t) data)
      else (buf ctx, in_ ctx, data) in
    let '(h, inb, data) := md5_chunks (length data) h inb data in
    MD5Ctx h b0 b1 (splice inb 0 data).

Definition md5_digest (h : md5_hash) : list Z :=
  let '(a, b, c, d) := h in
  le_bytes 4 a ++ le_bytes 4 b ++ le_bytes 4 c ++ le_bytes 4 d.

Definition MD5Final (ctx : MD5Context) : list Z :=
  let count := Z.to_nat (Z.land (Z.shiftr (bits0 ctx) 3) 0x3f) in
  let inb := splice (in_ ctx) count [0x80] in
  let p := S count in
  let count := (64 - 1 - count)%nat in
  let '(h, inb) :=
    if bool_decide (count < 8)%nat then
      let inb := splice inb p (repeat 0 count) in
      (MD5Transform (buf ctx) inb, splice inb 0 (repeat 0 56))
    else (buf ctx, splice inb p (repeat 0 (count - 8))) in
  let inb := splice inb 56 (le_bytes 4 (bits0 ctx)) in
  let inb := splice inb 60 (le_bytes 4 (bits1 ctx)) in
  md5_digest (MD5Transform h inb).

(** [mem] is the uninitialised stack memory of the context. *)
Definition md5_vector (mem : list Z) (elems : list (list Z)) : list Z :=
  MD5Final (foldl MD5Update (MD5Init mem) elems).

(** [None] is the failure of a vector of more than five elements. *)
Definition hmac_md5_vector (mem key : list Z) (elems : list (list Z)) : option (list Z) :=
  if bool_decide (5 < length elems)%nat then None
  else
    let key := if bool_decide (64 < length key)%nat then md5_vector mem [key] else key in
    let k_pad := xor_pad (splice (repeat 0 64) 0 key) 0x36 in
    let mac := md5_vector mem (k_pad :: elems) in
    let k_pad := xor_pad (splice (repeat 0 64) 0 key) 0x5c in
    Some (md5_vector mem [k_pad; mac]).

Definition hmac_md5 (mem key data : list Z) : option (list Z) :=
  hmac_md5_vector mem key [data].

(** ** The reference *)

(** RFC 1321 padding: a one bit, zeros up to 56 modulo 64 bytes, and the length
    in bits modulo [2^64], low-order byte first. *)
Definition md5_pad (m : list Z) : list Z :=
  m ++ [0x80] ++ repeat 0 ((119 - length m mod 64) mod 64) ++
  le_bytes 8 (8 * Z.of_nat (length m)).

Definition md5_ref (m : list Z) : list Z :=
  md5_digest (md_fold MD5Transform md5_h0 (md5_pad m)).

(** RFC 2104 over [md5_ref]. *)
Definition hmac_md5_ref (key m : list Z) : list Z :=
  let k := if bool_decide (64 < length key)%nat then md5_ref key else key in
  let k0 := k ++ repeat 0 (64 - length k) in
  md5_ref (xor_pad k0 0x5c ++ md5_ref (xor_pad k0 0x36 ++ m)).

Example md5_abc : md5_vector (repeat 7 64) [[97]; [98; 99]] =
  [0x90; 0x01; 0x50; 0x98; 0x3c; 0xd2; 0x4f; 0xb0; 0xd6; 0x96; 0x3f; 0x7d; 0x28; 0xe1; 0x7f; 0x72].
Proof. vm_compute. reflexivity. Qed.

Example md5_ref_abc : md5_ref [97; 98; 99] =
  [0x90; 0x01; 0x50; 0x98; 0x3c; 0xd2; 0x4f; 0xb0; 0xd6; 0x96; 0x3f; 0x7d; 0x28; 0xe1; 0x7f; 0x72].
Proof. vm_compute. reflexivity. Qed.

#[local] Opaque MD5Transform.

(** ** Correctness *)

Record md5_inv (ctx : MD5Context) (m : list Z) : Prop := {
  md5_absorbed : absorbed MD5Transform md5_h0 (buf ctx) (in_ ctx) m;
  md5_counts : counts (bits0 ctx) (bits1 ctx) (Z.of_nat (length m))
}.

Lemma md5_chunks_spec data : ∀ fuel h inb m,
  absorbed MD5Transform md5_h0 h inb m → (length m mod 64 = 0)%nat → (length data ≤ fuel)%nat →
  ∃ d r h' inb', md5_chunks fuel h inb data = (h', inb', r) ∧ data = d ++ r ∧
    absorbed MD5Transform md5_h0 h' inb' (m ++ d) ∧ (length (m ++ d) mod 64 = 0)%nat ∧
    (length r < 64)%nat.
Proof.
  remember (length data) as n eqn:Hn. revert data Hn.
  induction (lt_wf n) as [n _ IH]; intros data -> fuel h inb m Ha Hm Hf.
  destruct fuel as [|fuel].
  { exists [], data, h, inb. rewrite app_nil_r. split_and!; try done. lia. }
  cbn [md5_chunks]. case_bool_decide as Hge.
  2:{ exists [], data, h, inb. rewrite app_nil_r. split_and!; try done. lia. }
  assert (length (take 64 data) = 64%nat) as Ht by (rewrite length_take; lia).
  assert (splice inb 0 (take 64 data) = take 64 data) as ->.
  { unfold splice. rewrite Ht, drop_ge, app_nil_r; [done|]. rewrite (absorbed_buf _ _ _ _ _ Ha). lia. }
  destruct (IH (length (drop 64 data)) ltac:(rewrite length_drop; lia) (drop 64 data) eq_refl
    fuel (MD5Transform h (take 64 data)) (take 64 data) (m ++ take 64 data))
    as (d & r & h' & inb' & -> & Hd & Ha' & Hm' & Hr).
  - by eapply absorbed_block.
  - rewrite length_app, Ht, <-(Nat.Div0.add_mod_idemp_l (length m)), Hm. done.
  - rewrite length_drop. lia.
  - exists (take 64 data ++ d), r, h', inb'. rewrite <-!app_assoc in *.
    split_and!; try done. by rewrite <-Hd, take_drop.
Qed.

(** The end of [MD5Update], from a block boundary. *)
Lemma md5_finish h inb m data :
  absorbed MD5Transform md5_h0 h inb m → (length m mod 64 = 0)%nat →
  ∃ h' inb' r, md5_chunks (length data) h inb data = (h', inb', r) ∧
    absorbed MD5Transform md5_h0 h' (splice inb' 0 r) (m ++ data).
Proof.
  intros Ha Hm. destruct (md5_chunks_spec data (length data) h inb m Ha Hm)
    as (d & r & h' & inb' & -> & -> & Ha' & Hm' & Hr); [lia|].
  exists h', inb', r. split; [done|]. rewrite app_assoc.
  pose proof (absorbed_store _ _ _ _ _ r Ha') as Hs. rewrite Hm' in Hs. apply Hs. lia.
Qed.

Lemma MD5Update_inv ctx m data :
  md5_inv ctx m → is_u32 (Z.of_nat (length data)) → md5_inv (MD5Update ctx data) (m ++ data).
Proof.
  intros [Ha Hc] Hlen.
  pose proof (counts_add _ _ _ _ Hc (Nat2Z.is_nonneg _) Hlen) as Hc'. cbv zeta in Hc'.
  rewrite <-Nat2Z.inj_add, <-length_app in Hc'.
  unfold MD5Update. cbv zeta. rewrite (counts_index _ _ _ Hc).
  assert (length m mod 64 < 64)%nat as Ht by (apply Nat.mod_upper_bound; done).
  destruct (decide (length m mod 64 = 0)%nat) as [Hz|Hz].
  - rewrite (bool_decide_false (_ ≠ 0)%nat) by tauto. cbn [andb].
    destruct (md5_finish _ _ _ data Ha Hz) as (h' & inb' & r & -> & ?). by split.
  - rewrite (bool_decide_true (_ ≠ 0)%nat) by done. cbn [andb].
    case_bool_decide as Hl.
    + split; [|done]. apply absorbed_store; [done|lia].
    + set (t := (length m mod 64)%nat) in *.
      assert (absorbed MD5Transform md5_h0
        (MD5Transform (buf ctx) (splice (in_ ctx) t (take (64 - t) data)))
        (splice (in_ ctx) t (take (64 - t) data)) (m ++ take (64 - t) data)) as Ha'
        by (apply absorbed_fill; [done|]; rewrite length_take; lia).
      destruct (md5_finish _ _ _ (drop (64 - t) data) Ha') as (h' & inb' & r & -> & Hfin).
      * rewrite length_app, <-(Nat.Div0.add_mod_idemp_l (length m)). fold t.
        rewrite length_take, Nat.min_l by lia.
        by replace (t + (64 - t))%nat with 64%nat by lia.
      * rewrite <-app_assoc, take_drop in Hfin. by split.
Qed.

Lemma MD5Init_inv mem : length mem = 64%nat → md5_inv (MD5Init mem) [].
Proof. intros. split; [by apply absorbed_init|]. repeat split; done. Qed.

Lemma MD5Final_spec ctx m : md5_inv ctx m → MD5Final ctx = md5_ref m.
Proof.
  intros [[Hh Htl Hb] Hc]. unfold MD5Final, md5_ref. cbv zeta.
  rewrite (counts_index _ _ _ Hc).
  set (n := (length m mod 64)%nat) in *.
  assert (n < 64)%nat as Hn by (apply Nat.mod_upper_bound; done).
  pose proof (length_md_tail m) as Hlt. fold n in Hlt.
  pose proof (counts_bytes _ _ _ Hc) as Hle.
  unfold md5_pad. rewrite Hle, md_fold_resume, <-Hh. fold n.
  rewrite <-(take_drop n (in_ ctx)), Htl.
  assert (length (drop n (in_ ctx)) = 64 - n)%nat as Hr by (rewrite length_drop; lia).
  set (r := drop n (in_ ctx)) in *. clearbody r.
  rewrite splice_app by done.
  rewrite (app_assoc (md_tail m) [128]).
  case_bool_decide as Hcase;
    rewrite splice_app, repeat_length, drop_drop by (rewrite length_app, Hlt; simpl; lia).
  - assert ((119 - n) mod 64 = (63 - n) + 56)%nat as -> by (rewrite Nat.mod_small; lia).
    rewrite (drop_ge r), app_nil_r by (simpl; lia).
    rewrite repeat_app, <-!app_assoc.
    set (b1 := (md_tail m ++ [128]) ++ repeat 0 (64 - 1 - n)).
    assert (length b1 = 64%nat) as Hb1
      by (subst b1; rewrite !length_app, repeat_length, Hlt; simpl; lia).
    replace (md_tail m ++ [128] ++ repeat 0 (63 - n) ++ repeat 0 56 ++
      le_bytes 4 (bits0 ctx) ++ le_bytes 4 (bits1 ctx))
      with (b1 ++ (repeat 0 56 ++ le_bytes 4 (bits0 ctx) ++ le_bytes 4 (bits1 ctx)) ++ [])
      by (subst b1; by rewrite app_nil_r, <-!app_assoc).
    rewrite !md_fold_block by (rewrite ?length_app, ?length_le_bytes; done).
    rewrite md_fold_short by (simpl; lia).
    assert (splice (splice (splice b1 0 (repeat 0 56)) 56 (le_bytes 4 (bits0 ctx))) 60
              (le_bytes 4 (bits1 ctx)) =
            repeat 0 56 ++ le_bytes 4 (bits0 ctx) ++ le_bytes 4 (bits1 ctx)) as Hlast.
    { unfold splice at 3. rewrite take_0, app_nil_l, repeat_length, Nat.add_0_l.
      rewrite splice_app by apply repeat_length. rewrite length_le_bytes, drop_drop.
      rewrite (app_assoc (repeat 0 56)), splice_app
        by (rewrite length_app, length_le_bytes, repeat_length; lia).
      rewrite length_le_bytes, drop_drop, drop_ge, app_nil_r by lia. by rewrite <-app_assoc. }
    assert (md_tail m ++ [128] ++ repeat 0 (64 - 1 - n) = b1) as -> by (subst b1; by rewrite <-app_assoc).
    by rewrite Hlast.
  - assert ((119 - n) mod 64 = 55 - n)%nat as ->.
    { replace (119 - n)%nat with (55 - n + 1 * 64)%nat by lia.
      rewrite Nat.Div0.mod_add, Nat.mod_small; lia. }
    replace (64 - 1 - n - 8)%nat with (55 - n)%nat by lia.
    rewrite (app_assoc _ (repeat 0 (55 - n))).
    rewrite splice_app by (rewrite !length_app, repeat_length, Hlt; simpl; lia).
    rewrite length_le_bytes, drop_drop, (app_assoc _ (le_bytes 4 (bits0 ctx))).
    rewrite splice_app by (rewrite !length_app, repeat_length, length_le_bytes, Hlt; simpl; lia).
    rewrite length_le_bytes, drop_drop, drop_ge, app_nil_r by (simpl; lia).
    replace (md_tail m ++ [128] ++ repeat 0 (55 - n) ++
      le_bytes 4 (bits0 ctx) ++ le_bytes 4 (bits1 ctx))
      with ((md_tail m ++ [128] ++ repeat 0 (55 - n) ++
        le_bytes 4 (bits0 ctx) ++ le_bytes 4 (bits1 ctx)) ++ []) by by rewrite app_nil_r.
    rewrite md_fold_block
      by (rewrite !length_app, repeat_length, !length_le_bytes, Hlt; simpl; lia).
    rewrite md_fold_short by (simpl; lia). by rewrite <-!app_assoc.
Qed.

Lemma md5_vector_ref mem elems :
  length mem = 64%nat → Forall small elems → md5_vector mem elems = md5_ref (concat elems).
Proof.
  intros Hmem Hall. apply MD5Final_spec.
  assert (∀ ctx m, md5_inv ctx m → md5_inv (foldl MD5Update ctx elems) (m ++ concat elems)) as Hf.
  { induction Hall as [|e elems He _ IH]; intros ctx m Hinv; simpl; [by rewrite app_nil_r|].
    rewrite app_assoc. apply IH. by apply MD5Update_inv. }
  apply (Hf _ []). by apply MD5Init_inv.
Qed.

Lemma length_md5_ref m : length (md5_ref m) = 16%nat.
Proof.
  unfold md5_ref, md5_digest. destruct (md_fold _ _ _) as [[[a b] c] d].
  by rewrite !length_app, !length_le_bytes.
Qed.

Lemma length_hmac_md5_ref key m : length (hmac_md5_ref key m) = 16%nat.
Proof. apply length_md5_ref. Qed.

Lemma length_md5_digest h : length (md5_digest h) = 16%nat.
Proof. by destruct h as [[[a b] c] d]. Qed.

Lemma length_md5_vector mem elems : length (md5_vector mem elems) = 16%nat.
Proof.
  unfold md5_vector, MD5Final. cbv zeta.
  match goal with |- context [let '(_, _) := ?x in _] => destruct x end.
  apply length_md5_digest.
Qed.

Lemma length_hmac_md5 mem key data mac : hmac_md5 mem key data = Some mac → length mac = 16%nat.
Proof.
  unfold hmac_md5, hmac_md5_vector. cbv zeta.
  match goal with |- (if _ then _ else Some ?x) = _ → _ =>
    generalize (length_md5_vector mem _ : length x = 16%nat); generalize x
  end.
  intros x Hx. case_bool_decide; [done|]. by intros [= <-].
Qed.

Lemma hmac_md5_vector_ref mem key elems :
  length mem = 64%nat → small key → Forall small elems → (length elems ≤ 5)%nat →
  hmac_md5_vector mem key elems = Some (hmac_md5_ref key (concat elems)).
Proof.
  intros Hmem Hkey Hall Hn. unfold hmac_md5_vector, hmac_md5_ref.
  rewrite bool_decide_false by lia.
  assert ((if bool_decide (64 < length key)%nat then md5_vector mem [key] else key) =
          (if bool_decide (64 < length key)%nat then md5_ref key else key)) as ->.
  { case_bool_decide; [|done]. rewrite md5_vector_ref by (done || by constructor).
    simpl. by rewrite app_nil_r. }
  set (k := if bool_decide _ then _ else key).
  assert (length k ≤ 64)%nat as Hk.
  { subst k. case_bool_decide; [rewrite length_md5_ref|]; lia. }
  rewrite splice_key by done. pose proof (λ c, small_pad k c Hk) as Hpad. set (k0 := k ++ _) in *.
  rewrite (md5_vector_ref _ (_ :: elems)) by (done || (constructor; [apply Hpad|done])).
  rewrite md5_vector_ref; [simpl; by rewrite app_nil_r|done|].
  constructor; [apply Hpad|constructor; [|constructor]].
  unfold small, is_u32. rewrite length_md5_ref. lia.
Qed.

Lemma hmac_md5_is_ref mem key data :
  length mem = 64%nat → small key → small data →
  hmac_md5 mem key data = Some (hmac_md5_ref key data).
Proof.
  intros. unfold hmac_md5. rewrite hmac_md5_vector_ref; simpl;
    [by rewrite app_nil_r|done|done|by constructor|lia].
Qed.

(** Whatever the uninitialised context memory holds and however the message
    is cut into elements, [md5_vector] computes the RFC 1321 hash of their
    concatenation; in particular the 64-bit bit counter kept in two 32-bit
    halves is exact and the two padding branches of [MD5Final] agree with the
    padding rule. *)
Theorem md5_vector_correct mem elems :
  length mem = 64%nat → Forall small elems →
  md5_vector mem elems = md5_ref (concat elems).
Proof. apply md5_vector_ref. Qed.

Lemma md5_vector_correct_witness :
  md5_vector (repeat 0xaa 64) [repeat 1 70; []; repeat 2 60] =
  md5_ref (concat [repeat 1 70; []; repeat 2 60]).
Proof.
  apply md5_vector_correct; [reflexivity|].
  repeat constructor; vm_compute; congruence.
Defined.

(** [hmac_md5] computes RFC 2104 HMAC with MD5 for keys of any length
    (keys longer than a block are hashed first). *)
Theorem hmac_md5_correct mem key data :
  length mem = 64%nat → small key → small data →
  hmac_md5 mem key data = Some (hmac_md5_ref key data).
Proof. apply hmac_md5_is_ref. Qed.

Lemma hmac_md5_correct_witness :
  hmac_md5 (repeat 0 64) (repeat 0x0b 16) [72; 105; 32; 84; 104; 101; 114; 101] =
    Some [0x92; 0x94; 0x72; 0x7a; 0x36; 0x38; 0xbb; 0x1c; 0x13; 0xf4; 0x8e; 0xf8; 0x15; 0x8b;
          0xfc; 0x9d] ∧
  hmac_md5 (repeat 0 64) (repeat 0x0b 80) [72; 105] =
    Some (hmac_md5_ref (repeat 0x0b 80) [72; 105]).
Proof.
  split; [vm_compute; reflexivity|].
  apply hmac_md5_correct; [reflexivity|vm_compute; split; congruence..].
Defined.
