(* ===== verification/Sha1.v ===== *)
(** * SHA-1, HMAC-SHA1 and the IEEE 802.11i PRF (src/src/crypto/sha1-internal.c, sha1.c)

    The implementation expands the message schedule in place in a 16-word
    circular buffer and renames its five working variables from round to round.
    The reference is FIPS 180: the 80-word schedule and the functions Ch, Parity
    and Maj.  A little-endian host is modelled, as for MD5. *)

From S2P Require Import Prelude Merkle.

(** ** The compression function *)

Definition rol (value bits : Z) : Z :=
  Z.lor (u32 (Z.shiftl value bits)) (Z.shiftr value (32 - bits)).

Definition sha1_hash : Type := Z * Z * Z * Z * Z.

(** [block->l] of a 64-byte block, on a little-endian host. *)
Definition block_words (block : list Z) : list Z :=
  map (λ i, le_val (take 4 (drop (4 * i) block))) (seq 0 16).

(** Each gives the new word and the updated block. *)
Definition blk0 (l : list Z) (i : nat) : Z * list Z :=
  let v := Z.lor (Z.land (rol (l !!! i) 24) 0xFF00FF00) (Z.land (rol (l !!! i) 8) 0x00FF00FF) in
  (v, <[i := v]> l).
Definition blk (l : list Z) (i : nat) : Z * list Z :=
  let at_ k := l !!! ((i + k) mod 16)%nat in
  let v := rol (Z.lxor (Z.lxor (Z.lxor (at_ 13%nat) (at_ 8%nat)) (at_ 2%nat)) (at_ 0%nat)) 1 in
  (v, <[(i mod 16)%nat := v]> l).

(** The functions and constants of R0/R1, R2, R3 and R4. *)
Definition round_fun (i : nat) (w x y : Z) : Z :=
  if (i <? 20)%nat then Z.lxor (Z.land w (Z.lxor x y)) y
  else if (i <? 40)%nat then Z.lxor (Z.lxor w x) y
  else if (i <? 60)%nat then Z.lor (Z.land (Z.lor w x) y) (Z.land w x)
  else Z.lxor (Z.lxor w x) y.
Definition round_const (i : nat) : Z :=
  if (i <? 20)%nat then 0x5A827999 else if (i <? 40)%nat then 0x6ED9EBA1
  else if (i <? 60)%nat then 0x8F1BBCDC else 0xCA62C1D6.

(** [R0] .. [R4] with arguments [(v,w,x,y,z,i)].  The next call of the unrolled
    loop names the variables [(z,v,w,x,y)]. *)
Definition R (s : list Z * sha1_hash) (i : nat) : list Z * sha1_hash :=
  let '(l, (v, w, x, y, z)) := s in
  let '(b, l) := if (i <? 16)%nat then blk0 l i else blk l i in
  let z := u32 (z + (round_fun i w x y + b + round_const i + rol v 5)) in
  (l, (z, v, rol w 30, x, y)).

Definition SHA1Transform (state : sha1_hash) (buffer : list Z) : sha1_hash :=
  let '(a0, b0, c0, d0, e0) := state in
  let '(_, (a, b, c, d, e)) := foldl R (block_words buffer, state) (seq 0 80) in
  (u32 (a0 + a), u32 (b0 + b), u32 (c0 + c), u32 (d0 + d), u32 (e0 + e)).

(** ** The context and its operations *)

Record SHA1Context := SHA1Ctx {
  state : sha1_hash; count0 : Z; count1 : Z; buffer : list Z
}.

Definition sha1_h0 : sha1_hash := (0x67452301, 0xEFCDAB89, 0x98BADCFE, 0x10325476, 0xC3D2E1F0).

(** The buffer is not initialised. *)
Definition SHA1Init (mem : list Z) : SHA1Context := SHA1Ctx sha1_h0 0 0 mem.

(** [for ( ; i + 63 < len; i += 64)] *)
Fixpoint sha1_blocks (fuel : nat) (h : sha1_hash) (data : list Z) (i : nat) : sha1_hash * nat :=
  match fuel with
  | O => (h, i)
  | S fuel =>
      if u32 (Z.of_nat i + 63) <? Z.of_nat (length data)
      then sha1_blocks fuel (SHA1Transform h (take 64 (drop i data))) data (i + 64)
      else (h, i)
  end.

Definition SHA1Update (ctx : SHA1Context) (data : list Z) : SHA1Context :=
  let len := Z.of_nat (length data) in
  let j := Z.to_nat (Z.land (Z.shiftr (count0 ctx) 3) 63) in
  let c0 := u32 (count0 ctx + u32 (Z.shiftl len 3)) in
  let c1 := if c0 <? u32 (Z.shiftl len 3) then u32 (count1 ctx + 1) else count1 ctx in
  let c1 := u32 (c1 + Z.shiftr len 29) in
  if 63 <? u32 (Z.of_nat j + len) then
    let buf := splice (buffer ctx) j (take (64 - j) data) in
    let '(h, i) := sha1_blocks (length data) (SHA1Transform (state ctx) buf) data (64 - j) in
    SHA1Ctx h c0 c1 (splice buf 0 (drop i data))
  else SHA1Ctx (state ctx) c0 c1 (splice (buffer ctx) j data).

(** The four bytes of a word, most significant first. *)
Definition word_bytes (w : Z) : list Z :=
  map (λ i, Z.land (Z.shiftr w ((3 - Z.of_nat i) * 8)) 255) (seq 0 4).

Definition sha1_digest (h : sha1_hash) : list Z :=
  let '(a, b, c, d, e) := h in
  word_bytes a ++ word_bytes b ++ word_bytes c ++ word_bytes d ++ word_bytes e.

(** [while ((context->count[0] & 504) != 448)] *)
Fixpoint sha1_pad_loop (fuel : nat) (ctx : SHA1Context) : SHA1Context :=
  match fuel with
  | O => ctx
  | S fuel =>
      if Z.land (count0 ctx) 504 =? 448 then ctx else sha1_pad_loop fuel (SHA1Update ctx [0])
  end.

Definition SHA1Final (ctx : SHA1Context) : list Z :=
  let finalcount := word_bytes (count1 ctx) ++ word_bytes (count0 ctx) in
  let ctx := SHA1Update ctx [0x80] in
  let ctx := sha1_pad_loop 64 ctx in
  let ctx := SHA1Update ctx finalcount in
  sha1_digest (state ctx).

(** [mem] is the uninitialised stack memory of the context. *)
Definition sha1_vector (mem : list Z) (elems : list (list Z)) : list Z :=
  SHA1Final (foldl SHA1Update (SHA1Init mem) elems).

(** [None] is the failure of a vector of more than five elements. *)
Definition hmac_sha1_vector (mem key : list Z) (elems : list (list Z)) : option (list Z) :=
  if bool_decide (5 < length elems)%nat then None
  else
    let key := if bool_decide (64 < length key)%nat then sha1_vector mem [key] else key in
    let k_pad := xor_pad (splice (repeat 0 64) 0 key) 0x36 in
    let mac := sha1_vector mem (k_pad :: elems) in
    let k_pad := xor_pad (splice (repeat 0 64) 0 key) 0x5c in
    Some (sha1_vector mem [k_pad; mac]).

Definition hmac_sha1 (mem key data : list Z) : option (list Z) := hmac_sha1_vector mem key [data].

(** The loop of [sha1_prf] from [counter] with [n] bytes still to write; [label]
    includes its NUL. *)
Fixpoint sha1_prf_loop (fuel : nat) (mem key label data : list Z) (counter : Z) (n : nat)
  : option (list Z) :=
  match fuel with
  | O => Some []
  | S fuel =>
      if bool_decide (n = 0)%nat then Some []
      else
        match hmac_sha1_vector mem key [label; data; [counter]] with
        | None => None
        | Some hash =>
            if bool_decide (20 ≤ n)%nat then
              app hash <$> sha1_prf_loop fuel mem key label data (u8 (counter + 1)) (n - 20)
            else Some (take n hash)
        end
  end.

Definition sha1_prf (mem key label data : list Z) (n : nat) : option (list Z) :=
  sha1_prf_loop (S n) mem key label data 0 n.

(** *** PBKDF2 (sha1-pbkdf2.c) *)

(** [for (i = 1; i < iterations; i++)], with [n] iterations left. *)
Fixpoint pbkdf2_sha1_loop (n : nat) (mem passphrase tmp digest : list Z) : option (list Z) :=
  match n with
  | O => Some digest
  | S n =>
      match hmac_sha1 mem passphrase tmp with
      | None => None
      | Some tmp2 => pbkdf2_sha1_loop n mem passphrase tmp2 (zip_with Z.lxor digest tmp2)
      end
  end.

Definition pbkdf2_sha1_f (mem passphrase ssid : list Z) (iterations : nat) (count : Z)
  : option (list Z) :=
  let count_buf := word_bytes count in
  match hmac_sha1_vector mem passphrase [ssid; count_buf] with
  | None => None
  | Some tmp => pbkdf2_sha1_loop (iterations - 1) mem passphrase tmp tmp
  end.

(** [while (left > 0)], after [count] blocks. *)
Fixpoint pbkdf2_sha1_blocks (fuel : nat) (mem passphrase ssid : list Z) (iterations : nat)
    (count : Z) (left : nat) : option (list Z) :=
  match fuel with
  | O => Some []
  | S fuel =>
      if bool_decide (left = 0)%nat then Some []
      else
        let count := u32 (count + 1) in
        match pbkdf2_sha1_f mem passphrase ssid iterations count with
        | None => None
        | Some digest =>
            let plen := if bool_decide (20 < left)%nat then 20%nat else left in
            app (take plen digest) <$>
              pbkdf2_sha1_blocks fuel mem passphrase ssid iterations count (left - plen)
        end
  end.

Definition pbkdf2_sha1 (mem passphrase ssid : list Z) (iterations buflen : nat) : option (list Z) :=
  pbkdf2_sha1_blocks (S buflen) mem passphrase ssid iterations 0 buflen.

Example sha1_abc : sha1_vector (repeat 7 64) [[97]; [98; 99]] =
  [0xA9; 0x99; 0x3E; 0x36; 0x47; 0x06; 0x81; 0x6A; 0xBA; 0x3E; 0x25; 0x71; 0x78; 0x50; 0xC2; 0x6C;
   0x9C; 0xD0; 0xD8; 0x9D].
Proof. vm_compute. reflexivity. Qed.

(** ** The reference: FIPS 180 *)

(** The schedule: sixteen big-endian words, then [n] derived ones. *)
Definition be_words (block : list Z) : list Z :=
  map (λ i, be_val (take 4 (drop (4 * i) block))) (seq 0 16).
Fixpoint schedule (ws : list Z) (n : nat) : list Z :=
  match n with
  | O => ws
  | S n =>
      let W := schedule ws n in let t := (16 + n)%nat in
      W ++ [rol (Z.lxor (Z.lxor (Z.lxor (W !!! (t - 3)%nat) (W !!! (t - 8)%nat))
                   (W !!! (t - 14)%nat)) (W !!! (t - 16)%nat)) 1]
  end.

Definition Ch (x y z : Z) : Z := Z.lor (Z.land x y) (Z.land (Z.lnot x) z).
Definition Parity (x y z : Z) : Z := Z.lxor x (Z.lxor y z).
Definition Maj (x y z : Z) : Z := Z.lxor (Z.lxor (Z.land x y) (Z.land x z)) (Z.land y z).
Definition ft (t : nat) : Z → Z → Z → Z :=
  if (t <? 20)%nat then Ch else if (t <? 40)%nat then Parity else if (t <? 60)%nat then Maj else Parity.

Definition fips_round (W : list Z) (h : sha1_hash) (t : nat) : sha1_hash :=
  let '(a, b, c, d, e) := h in
  (u32 (rol a 5 + ft t b c d + e + round_const t + W !!! t), a, rol b 30, c, d).

Definition sha1_compress (h : sha1_hash) (block : list Z) : sha1_hash :=
  let '(a0, b0, c0, d0, e0) := h in
  let '(a, b, c, d, e) := foldl (fips_round (schedule (be_words block) 64)) h (seq 0 80) in
  (u32 (a0 + a), u32 (b0 + b), u32 (c0 + c), u32 (d0 + d), u32 (e0 + e)).

(** ** The transform computes the compression function *)

Lemma ft_round_fun t w x y : round_fun t w x y = ft t w x y.
Proof.
  unfold round_fun, ft. repeat if_branch; unfold Ch, Parity, Maj; apply Z.bits_inj'; intros n Hn;
    repeat rewrite ?Z.lxor_spec, ?Z.lor_spec, ?Z.land_spec, ?Z.lnot_spec by done;
    by destruct (Z.testbit w n), (Z.testbit x n), (Z.testbit y n).
Qed.

Lemma length_schedule ws n : length (schedule ws n) = (length ws + n)%nat.
Proof. induction n as [|n IH]; simpl; [lia|]. rewrite length_app, IH. simpl. lia. Qed.

(** Longer schedules extend shorter ones. *)
Lemma schedule_prefix ws n m t :
  (n ≤ m)%nat → (t < length ws + n)%nat → schedule ws m !!! t = schedule ws n !!! t.
Proof.
  intros Hnm Ht. induction Hnm as [|m Hnm IH]; [done|]. cbn [schedule].
  rewrite lookup_total_app_l; [done|]. rewrite length_schedule. lia.
Qed.

Lemma schedule_step ws n t :
  length ws = 16%nat → (16 ≤ t)%nat → (t < 16 + n)%nat →
  let W := schedule ws n in
  W !!! t = rol (Z.lxor (Z.lxor (Z.lxor (W !!! (t - 3)%nat) (W !!! (t - 8)%nat))
                   (W !!! (t - 14)%nat)) (W !!! (t - 16)%nat)) 1.
Proof.
  intros Hl H16 Ht W. unfold W. rewrite (schedule_prefix ws (S (t - 16)) n) by lia. cbn [schedule].
  rewrite lookup_total_app_r by (rewrite length_schedule; lia).
  rewrite length_schedule, Hl. replace (t - (16 + (t - 16)))%nat with 0%nat by lia.
  cbn [lookup_total list_lookup_total]. replace (16 + (t - 16))%nat with t by lia.
  by rewrite !(schedule_prefix ws (t - 16) n) by lia.
Qed.

(** *** Swapping the bytes of a word *)

Lemma rol_bit x k n :
  0 ≤ x < 2 ^ 32 → 0 < k < 32 → 0 ≤ n < 32 →
  Z.testbit (rol x k) n = if n <? k then Z.testbit x (n + (32 - k)) else Z.testbit x (n - k).
Proof.
  intros Hx Hk Hn. unfold rol, u32. rewrite Z.lor_spec, Z.mod_pow2_bits_low by lia.
  rewrite Z.shiftl_spec, Z.shiftr_spec by lia. destruct (Z.ltb_spec n k).
  - by rewrite (Z.testbit_neg_r x (n - k)) by lia.
  - by rewrite (testbit_small x 32 (n + (32 - k))), orb_false_r by (done || lia).
Qed.

(** The bits of a word given by its bytes, least significant first. *)
Lemma le_word_bit b0 b1 b2 b3 n :
  bytes_ok [b0; b1; b2; b3] → 0 ≤ n →
  Z.testbit (le_val [b0; b1; b2; b3]) n =
    (Z.testbit b3 (n - 24) || Z.testbit b2 (n - 16) || Z.testbit b1 (n - 8) || Z.testbit b0 n).
Proof.
  intros Hb Hn. repeat (apply Forall_cons in Hb as [? Hb]). unfold is_byte in *.
  assert (le_val [b0; b1; b2; b3] =
    Z.lor (Z.shiftl (Z.lor (Z.shiftl (Z.lor (Z.shiftl b3 8) b2) 8) b1) 8) b0) as ->.
  { rewrite !lor_shiftl_add by lia. cbn [le_val]. lia. }
  rewrite !Z.shiftl_lor, !Z.shiftl_shiftl by lia. by rewrite !Z.lor_spec, !Z.shiftl_spec by lia.
Qed.

Lemma le_word_range b0 b1 b2 b3 : bytes_ok [b0; b1; b2; b3] → 0 ≤ le_val [b0; b1; b2; b3] < 2 ^ 32.
Proof. intros Hb. repeat (apply Forall_cons in Hb as [? Hb]). unfold is_byte in *. cbn [le_val]. lia. Qed.

(** Bit [m] of the swapped word, for bytes given by their bits. *)
Lemma swap_bit (B0 B1 B2 B3 : Z → bool) (m : nat) :
  (∀ k, k < 0 ∨ 8 ≤ k → B0 k = false) → (∀ k, k < 0 ∨ 8 ≤ k → B1 k = false) →
  (∀ k, k < 0 ∨ 8 ≤ k → B2 k = false) → (∀ k, k < 0 ∨ 8 ≤ k → B3 k = false) → (m < 32)%nat →
  let n := Z.of_nat m in
  let X k := B3 (k - 24) || B2 (k - 16) || B1 (k - 8) || B0 k in
  (if n <? 24 then X (n + (32 - 24)) else X (n - 24)) && Z.testbit 0xFF00FF00 n
  || (if n <? 8 then X (n + (32 - 8)) else X (n - 8)) && Z.testbit 0x00FF00FF n =
  B0 (n - 24) || B1 (n - 16) || B2 (n - 8) || B3 n.
Proof.
  intros H0 H1 H2 H3 Hm.
  do 32 (destruct m as [|m]; [
    cbv -[orb andb]; rewrite ?andb_false_r, ?andb_true_r;
    repeat match goal with
    | |- context [B0 ?k] => rewrite (H0 k) by lia
    | |- context [B1 ?k] => rewrite (H1 k) by lia
    | |- context [B2 ?k] => rewrite (H2 k) by lia
    | |- context [B3 ?k] => rewrite (H3 k) by lia
    end; by rewrite ?orb_false_r|]). lia.
Qed.

(** The two masked rotations of [blk0] read the word in network order. *)
Lemma swap_word b0 b1 b2 b3 :
  bytes_ok [b0; b1; b2; b3] →
  let x := le_val [b0; b1; b2; b3] in
  Z.lor (Z.land (rol x 24) 0xFF00FF00) (Z.land (rol x 8) 0x00FF00FF) = be_val [b0; b1; b2; b3].
Proof.
  intros Hb x. pose proof (le_word_range _ _ _ _ Hb) as Hx. fold x in Hx.
  assert (be_val [b0; b1; b2; b3] = le_val [b3; b2; b1; b0]) as -> by (unfold be_val; cbn [foldl le_val]; lia).
  assert (bytes_ok [b3; b2; b1; b0]) as Hb'.
  { repeat (apply Forall_cons in Hb as [? Hb]). by repeat (apply Forall_cons; split). }
  apply Z.bits_inj'. intros n Hn. rewrite le_word_bit by done. rewrite Z.lor_spec, !Z.land_spec.
  repeat (apply Forall_cons in Hb' as [? Hb']). unfold is_byte in *.
  destruct (Z.lt_ge_cases n 32) as [Hlt|Hge].
  2: { rewrite (testbit_small 0xFF00FF00 32 n), (testbit_small 0x00FF00FF 32 n), !andb_false_r by (done || lia).
       by rewrite (testbit_small b0 8 (n - 24)), (testbit_small b1 8 (n - 16)),
         (testbit_small b2 8 (n - 8)), (testbit_small b3 8 n) by (done || lia). }
  rewrite !rol_bit by lia. rewrite <-(Z2Nat.id n) by done.
  rewrite <-(swap_bit (Z.testbit b0) (Z.testbit b1) (Z.testbit b2) (Z.testbit b3) (Z.to_nat n));
    [|intros k [?|?]; [by apply Z.testbit_neg_r|by apply (testbit_small _ 8)]..|lia].
  cbv zeta. rewrite Z2Nat.id by done. unfold x.
  f_equal; f_equal; if_branch; apply le_word_bit; (done || lia).
Qed.

Lemma lookup_total_map_seq (f : nat → Z) i n : (i < n)%nat → map f (seq 0 n) !!! i = f i.
Proof.
  intros Hi. apply list_lookup_total_correct. rewrite list_lookup_fmap.
  by rewrite lookup_seq_lt by done.
Qed.

Section transform.
Context (block : list Z) (Hb : bytes_ok block) (Hl : length block = 64%nat).
Let W := schedule (be_words block) 64.

Lemma swap_block_word i :
  (i < 16)%nat →
  let x := block_words block !!! i in
  Z.lor (Z.land (rol x 24) 0xFF00FF00) (Z.land (rol x 8) 0x00FF00FF) = W !!! i.
Proof.
  intros Hi. unfold W. rewrite (schedule_prefix _ 0) by (simpl; lia). cbn [schedule].
  unfold block_words, be_words. rewrite !lookup_total_map_seq by done.
  assert (length (take 4 (drop (4 * i) block)) = 4%nat) as H4 by (rewrite length_take, length_drop; lia).
  assert (bytes_ok (take 4 (drop (4 * i) block))) as Hb4 by (by apply Forall_take, Forall_drop).
  destruct (take 4 (drop (4 * i) block)) as [|b0 [|b1 [|b2 [|b3 [|]]]]]; try discriminate.
  by apply swap_word.
Qed.

(** The circular buffer before round [i]: the last sixteen words of the
    schedule, or words of the block that no round has read yet. *)
Definition circular (i : nat) (l : list Z) : Prop :=
  length l = 16%nat ∧
  (∀ t, (t < i)%nat → (i ≤ t + 16)%nat → l !!! (t mod 16)%nat = W !!! t) ∧
  (∀ t, (i ≤ t)%nat → (t < 16)%nat → l !!! t = block_words block !!! t).

Lemma circular_insert i l :
  circular i l → circular (S i) (<[(i mod 16)%nat := W !!! i]> l).
Proof.
  intros (Hl16 & Hold & Hnew). pose proof (Nat.mod_upper_bound i 16 ltac:(lia)) as Hi.
  split; [by rewrite length_insert|]. split.
  - intros t Ht Hti. destruct (decide (t = i)) as [->|Hne].
    { apply list_lookup_total_insert_eq. lia. }
    rewrite list_lookup_total_insert_ne; [apply Hold; lia|].
    intros Heq. pose proof (Nat.div_mod_eq i 16). pose proof (Nat.div_mod_eq t 16). lia.
  - intros t Ht H16. rewrite list_lookup_total_insert_ne; [apply Hnew; lia|].
    rewrite Nat.mod_small by lia. lia.
Qed.

Lemma circular_step i l :
  circular i l → (i < 80)%nat →
  (if (i <? 16)%nat then blk0 l i else blk l i) = (W !!! i, <[(i mod 16)%nat := W !!! i]> l).
Proof.
  intros (Hl16 & Hold & Hnew) Hi. destruct (Nat.ltb_spec i 16).
  - unfold blk0. rewrite Hnew, swap_block_word by lia. by rewrite Nat.mod_small.
  - unfold blk. cbv zeta. rewrite Nat.add_0_r.
    assert (∀ k d, (0 < d ≤ 16)%nat → (k + d = 16)%nat → l !!! ((i + k) mod 16)%nat = W !!! (i - d)%nat) as Hk.
    { intros k d Hd Hkd. rewrite <-Hold by lia. f_equal.
      replace (i + k)%nat with (i - d + 1 * 16)%nat by lia. apply Nat.Div0.mod_add. }
    rewrite (Hk 13%nat 3%nat), (Hk 8%nat 8%nat), (Hk 2%nat 14%nat) by lia.
    assert (l !!! (i mod 16)%nat = W !!! (i - 16)%nat) as ->.
    { rewrite <-(Hk 0%nat 16%nat), Nat.add_0_r by lia. done. }
    assert (W !!! i = rol (Z.lxor (Z.lxor (Z.lxor (W !!! (i - 3)%nat) (W !!! (i - 8)%nat))
      (W !!! (i - 14)%nat)) (W !!! (i - 16)%nat)) 1) as <- by (apply schedule_step; [done|lia|lia]).
    done.
Qed.

Lemma rounds_spec h n :
  (n ≤ 80)%nat →
  ∃ l, foldl R (block_words block, h) (seq 0 n) = (l, foldl (fips_round W) h (seq 0 n)) ∧ circular n l.
Proof.
  induction n as [|n IH]; intros Hn.
  { exists (block_words block). split; [done|]. split; [done|]. split; [lia|done]. }
  destruct IH as (l & Hf & Hc); [lia|]. rewrite seq_S, !foldl_app, Hf. cbn [foldl plus].
  destruct (foldl (fips_round W) h (seq 0 n)) as [[[[v w] x] y] z].
  exists (<[(n mod 16)%nat := W !!! n]> l). split; [|by apply circular_insert].
  unfold R. rewrite (circular_step n l) by (done || lia). unfold fips_round.
  rewrite ft_round_fun. do 5 f_equal. f_equal. lia.
Qed.

Lemma transform_compress h : SHA1Transform h block = sha1_compress h block.
Proof.
  unfold SHA1Transform, sha1_compress. destruct h as [[[[a b] c] d] e].
  destruct (rounds_spec (a, b, c, d, e) 80) as (l & -> & _); [done|]. done.
Qed.
End transform.

#[local] Opaque SHA1Transform.

(** ** The incremental interface *)

(** Data whose length fits the 32-bit arithmetic of [SHA1Update]. *)
Definition chunk_ok (l : list Z) : Prop := Z.of_nat (length l) + 63 < 2 ^ 32.

Record sha1_inv (ctx : SHA1Context) (m : list Z) : Prop := {
  sha1_absorbed : absorbed SHA1Transform sha1_h0 (state ctx) (buffer ctx) m;
  sha1_counts : counts (count0 ctx) (count1 ctx) (Z.of_nat (length m))
}.

(** The carry is detected against the added number of bits. *)
Lemma counts_add_carry b0 b1 n len :
  counts b0 b1 n → 0 ≤ n → is_u32 len →
  let lo := u32 (Z.shiftl len 3) in
  let b0' := u32 (b0 + lo) in
  let b1' := if b0' <? lo then u32 (b1 + 1) else b1 in
  counts b0' (u32 (b1' + Z.shiftr len 29)) (n + len).
Proof.
  intros Hc Hn Hlen lo b0' b1'. pose proof (counts_add b0 b1 n len Hc Hn Hlen) as H. cbv zeta in H.
  rewrite !(u32_small len) in H by done. fold lo in H. fold b0' in H.
  assert ((b0' <? lo) = (b0' <? b0)) as Heq; [|subst b1'; by rewrite Heq].
  destruct Hc as ((? & ?) & _). pose proof (u32_range (Z.shiftl len 3)) as [Hlo1 Hlo2]. fold lo in Hlo1, Hlo2.
  unfold b0', u32. change (2 ^ 32) with 4294967296 in *.
  destruct (Z.ltb_spec ((b0 + lo) mod 4294967296) lo), (Z.ltb_spec ((b0 + lo) mod 4294967296) b0); try done;
    Z.to_euclidean_division_equations; lia.
Qed.

Lemma take_block (data : list Z) i :
  (i + 64 ≤ length data)%nat → take (i + 64) data = take i data ++ take 64 (drop i data).
Proof.
  intros H. rewrite <-(take_drop i data) at 1. rewrite take_app_ge by (rewrite length_take; lia).
  rewrite length_take, Nat.min_l by lia. do 2 f_equal. lia.
Qed.

Lemma sha1_blocks_spec data m : chunk_ok data → ∀ fuel h buf i,
  absorbed SHA1Transform sha1_h0 h buf (m ++ take i data) →
  (length (m ++ take i data) mod 64 = 0)%nat → (i ≤ length data)%nat → (length data - i ≤ fuel)%nat →
  ∃ h' i', sha1_blocks fuel h data i = (h', i') ∧ (i' ≤ length data)%nat ∧ (length data - i' < 64)%nat ∧
    absorbed SHA1Transform sha1_h0 h' buf (m ++ take i' data) ∧
    (length (m ++ take i' data) mod 64 = 0)%nat.
Proof.
  intros Hck. unfold chunk_ok in Hck.
  induction fuel as [|fuel IH]; intros h buf i Ha Hm Hi Hf; cbn [sha1_blocks].
  { exists h, i. split_and!; try done. lia. }
  rewrite u32_small by (unfold is_u32; lia).
  destruct (Z.ltb_spec (Z.of_nat i + 63) (Z.of_nat (length data))).
  2: { exists h, i. split_and!; try done. lia. }
  assert (length (take 64 (drop i data)) = 64%nat) as H64 by (rewrite length_take, length_drop; lia).
  apply IH; rewrite ?take_block, ?app_assoc by lia; [| |lia|lia].
  - eapply absorbed_block; [done|done|done|]. by apply (absorbed_buf _ _ _ _ _ Ha).
  - rewrite length_app, H64, <-(Nat.Div0.add_mod_idemp_l (length _)), Hm. done.
Qed.

Lemma SHA1Update_inv ctx m data :
  sha1_inv ctx m → chunk_ok data → sha1_inv (SHA1Update ctx data) (m ++ data).
Proof.
  intros [Ha Hc] Hck. pose proof Hck as Hck'. unfold chunk_ok in Hck'.
  pose proof (counts_add_carry _ _ _ (Z.of_nat (length data)) Hc (Nat2Z.is_nonneg _)
    ltac:(unfold is_u32; lia)) as Hc'.
  cbv zeta in Hc'. rewrite <-Nat2Z.inj_add, <-length_app in Hc'.
  unfold SHA1Update. cbv zeta. rewrite (counts_index _ _ _ Hc : Z.to_nat (Z.land _ 63) = _).
  assert (length m mod 64 < 64)%nat as Hj by (apply Nat.mod_upper_bound; done).
  set (j := (length m mod 64)%nat) in *. rewrite u32_small by (unfold is_u32; lia).
  destruct (Z.ltb_spec 63 (Z.of_nat j + Z.of_nat (length data))) as [Hge|Hlt].
  - assert (length (take (64 - j) data) = 64 - j)%nat as Ht by (rewrite length_take; lia).
    assert (absorbed SHA1Transform sha1_h0
      (SHA1Transform (state ctx) (splice (buffer ctx) j (take (64 - j) data)))
      (splice (buffer ctx) j (take (64 - j) data)) (m ++ take (64 - j) data)) as Ha'
      by (apply absorbed_fill; [done|]; rewrite Ht; lia).
    destruct (sha1_blocks_spec data m Hck (length data) _ _ (64 - j) Ha')
      as (h' & i & -> & Hi & Hr & Ha2 & Hm2); [|lia|lia|].
    { rewrite length_app, Ht, <-(Nat.Div0.add_mod_idemp_l (length m)). fold j.
      by replace (j + (64 - j))%nat with 64%nat by lia. }
    split; [|done]. simpl.
    pose proof (absorbed_store _ _ _ _ _ (drop i data) Ha2) as Hs.
    rewrite Hm2, <-app_assoc, take_drop in Hs. apply Hs. rewrite length_drop. lia.
  - split; [|done]. apply absorbed_store; [done|]. fold j. lia.
Qed.

Lemma SHA1Init_inv mem : length mem = 64%nat → sha1_inv (SHA1Init mem) [].
Proof. intros. split; [by apply absorbed_init|]. repeat split; done. Qed.

(** *** Finishing *)

(** The padding of FIPS 180: a one bit, zeros up to 56 modulo 64 bytes, and the
    length in bits as 64 bits in network order. *)
Definition sha1_pad (m : list Z) : list Z :=
  m ++ [0x80] ++ repeat 0 ((119 - length m mod 64) mod 64) ++
  rev (le_bytes 8 (8 * Z.of_nat (length m))).

Definition sha1_ref (m : list Z) : list Z :=
  sha1_digest (md_fold sha1_compress sha1_h0 (sha1_pad m)).

Lemma word_bytes_rev w : word_bytes w = rev (le_bytes 4 w).
Proof.
  unfold word_bytes. cbn [seq map le_bytes rev app]. unfold u8. rewrite <-!Z.land_ones by lia.
  change (Z.ones 8) with 255. rewrite !Z.shiftr_shiftr by lia. done.
Qed.

Lemma counts_low b0 b1 n :
  counts b0 b1 (Z.of_nat n) → Z.land b0 504 = 8 * Z.of_nat (n mod 64).
Proof.
  intros Hc. pose proof (counts_index _ _ _ Hc) as Hi. destruct Hc as ((Hl & Hu) & _ & Hc).
  assert (b0 = Z.shiftl (Z.shiftr b0 3) 3) as Hb.
  { rewrite Z.shiftl_mul_pow2, Z.shiftr_div_pow2 by lia.
    change (2 ^ 3) with 8. change (2 ^ 32) with 4294967296 in *.
    change (2 ^ 64) with 18446744073709551616 in *. Z.to_euclidean_division_equations. lia. }
  rewrite Hb at 1. change 504 with (Z.shiftl 0x3f 3). rewrite <-Z.shiftl_land, <-Hi.
  rewrite Z2Nat.id, Z.shiftl_mul_pow2; [lia|lia|].
  apply Z.land_nonneg. right. lia.
Qed.

Lemma sha1_pad_loop_spec fuel : ∀ ctx m,
  sha1_inv ctx m → ((120 - length m mod 64) mod 64 ≤ fuel)%nat →
  sha1_inv (sha1_pad_loop fuel ctx) (m ++ repeat 0 ((120 - length m mod 64) mod 64)).
Proof.
  induction fuel as [|fuel IH]; intros ctx m Hinv Hf; cbn [sha1_pad_loop].
  { replace ((120 - length m mod 64) mod 64)%nat with 0%nat by lia. by rewrite app_nil_r. }
  pose proof (Nat.mod_upper_bound (length m) 64 ltac:(lia)) as Hm.
  rewrite (counts_low _ _ _ (sha1_counts _ _ Hinv)).
  destruct (Z.eqb_spec (8 * Z.of_nat (length m mod 64)) 448) as [He|Hne].
  { replace ((120 - length m mod 64) mod 64)%nat with 0%nat; [by rewrite app_nil_r|].
    assert (length m mod 64 = 56)%nat as -> by lia. done. }
  assert ((120 - length m mod 64) mod 64 = S ((120 - length (m ++ [0%Z]) mod 64) mod 64))%nat as Hd.
  { rewrite length_app. simpl (length [0]). rewrite <-(Nat.Div0.add_mod_idemp_l (length m)).
    generalize dependent (length m mod 64)%nat. intros r _ Hr Hn.
    do 64 (destruct r as [|r]; [try done; exfalso; by apply Hn|]). lia. }
  rewrite Hd in *. cbn [repeat]. set (r := repeat 0 _).
  change (m ++ 0 :: r) with (m ++ [0] ++ r). rewrite app_assoc. apply IH; [|lia].
  apply SHA1Update_inv; [done|]. unfold chunk_ok. simpl. lia.
Qed.

Lemma SHA1Final_transform ctx m :
  sha1_inv ctx m → SHA1Final ctx = sha1_digest (md_fold SHA1Transform sha1_h0 (sha1_pad m)).
Proof.
  intros Hinv. unfold SHA1Final. cbv zeta. f_equal.
  assert (word_bytes (count1 ctx) ++ word_bytes (count0 ctx) =
          rev (le_bytes 8 (8 * Z.of_nat (length m)))) as ->.
  { by rewrite (counts_bytes _ _ _ (sha1_counts _ _ Hinv)), rev_app_distr, !word_bytes_rev. }
  assert (∀ d, length d = 8%nat → chunk_ok d) as H8 by (intros d Hd; unfold chunk_ok; lia).
  pose proof (SHA1Update_inv ctx m [0x80] Hinv ltac:(unfold chunk_ok; simpl; lia)) as H1.
  pose proof (sha1_pad_loop_spec 64 _ _ H1 ltac:(pose proof (Nat.mod_upper_bound
    (120 - length (m ++ [0x80]) mod 64) 64); lia)) as H2.
  pose proof (SHA1Update_inv _ _ (rev (le_bytes 8 (8 * Z.of_nat (length m)))) H2
    ltac:(apply H8; by rewrite length_rev, length_le_bytes)) as H3.
  rewrite (absorbed_hash _ _ _ _ _ (sha1_absorbed _ _ H3)). f_equal. unfold sha1_pad.
  rewrite <-!app_assoc. do 2 f_equal. f_equal. f_equal. rewrite length_app. simpl (length [0x80]).
  rewrite <-(Nat.Div0.add_mod_idemp_l (length m)).
  pose proof (Nat.mod_upper_bound (length m) 64 ltac:(lia)) as Hm.
  generalize dependent (length m mod 64)%nat. intros r Hr.
  do 64 (destruct r as [|r]; [done|]). lia.
Qed.

Lemma sha1_pad_bytes m : bytes_ok m → bytes_ok (sha1_pad m).
Proof.
  intros Hm. unfold sha1_pad. rewrite !bytes_ok_app. split; [done|]. split_and!.
  - by repeat constructor.
  - apply Forall_forall. intros x ->%list_elem_of_In%repeat_spec. done.
  - apply Forall_rev, le_bytes_ok.
Qed.

Lemma SHA1Final_spec ctx m : sha1_inv ctx m → bytes_ok m → SHA1Final ctx = sha1_ref m.
Proof.
  intros Hinv Hb. rewrite (SHA1Final_transform ctx m Hinv). unfold sha1_ref. f_equal.
  apply md_fold_ext; [|by apply sha1_pad_bytes]. intros h b Hbb Hl. by apply transform_compress.
Qed.

Lemma sha1_vector_ref mem elems :
  length mem = 64%nat → Forall chunk_ok elems → Forall bytes_ok elems →
  sha1_vector mem elems = sha1_ref (concat elems).
Proof.
  intros Hmem Hall Hb. apply SHA1Final_spec; [|by apply Forall_concat].
  assert (∀ ctx m, sha1_inv ctx m → sha1_inv (foldl SHA1Update ctx elems) (m ++ concat elems)) as Hf.
  { clear Hb. induction Hall as [|e elems He _ IH]; intros ctx m Hinv; simpl; [by rewrite app_nil_r|].
    rewrite app_assoc. apply IH. by apply SHA1Update_inv. }
  apply (Hf _ []). by apply SHA1Init_inv.
Qed.

(** ** HMAC and the PRF *)

Lemma word_bytes_ok w : bytes_ok (word_bytes w).
Proof. rewrite word_bytes_rev. apply Forall_rev, le_bytes_ok. Qed.

Lemma sha1_digest_ok h : bytes_ok (sha1_digest h) ∧ length (sha1_digest h) = 20%nat.
Proof.
  destruct h as [[[[a b] c] d] e]. split; [|done]. unfold sha1_digest.
  rewrite !bytes_ok_app. split_and!; apply word_bytes_ok.
Qed.

Lemma sha1_vector_ok mem elems :
  bytes_ok (sha1_vector mem elems) ∧ length (sha1_vector mem elems) = 20%nat.
Proof. unfold sha1_vector, SHA1Final. cbv zeta. apply sha1_digest_ok. Qed.

Lemma hmac_sha1_vector_ok mem key elems mac :
  hmac_sha1_vector mem key elems = Some mac → bytes_ok mac ∧ length mac = 20%nat.
Proof.
  unfold hmac_sha1_vector. case_bool_decide; [done|]. intros [= <-]. apply sha1_vector_ok.
Qed.

(** RFC 2104 over [sha1_ref]. *)
Definition hmac_sha1_ref (key m : list Z) : list Z :=
  let k := if bool_decide (64 < length key)%nat then sha1_ref key else key in
  let k0 := k ++ repeat 0 (64 - length k) in
  sha1_ref (xor_pad k0 0x5c ++ sha1_ref (xor_pad k0 0x36 ++ m)).

Lemma chunk_short l : (length l ≤ 64)%nat → chunk_ok l.
Proof. unfold chunk_ok. lia. Qed.

Lemma xor_pad_bytes k c : is_byte c → bytes_ok k → bytes_ok (xor_pad k c).
Proof.
  intros Hc Hk. apply Forall_fmap. eapply Forall_impl; [exact Hk|]. intros b Hb. unfold is_byte in *. simpl.
  split; [apply Z.lxor_nonneg; lia|].
  destruct (Z.lt_ge_cases (Z.lxor b c) (2 ^ 8)) as [|Hge]; [done|]. exfalso.
  assert (0 < Z.lxor b c) as Hp by lia. apply Z.log2_le_pow2 in Hge; [|done].
  pose proof (Z.bit_log2 (Z.lxor b c) Hp) as Ht. rewrite Z.lxor_spec in Ht.
  by rewrite !(testbit_small _ 8) in Ht by (done || lia).
Qed.

Lemma repeat_0_bytes n : bytes_ok (repeat 0 n).
Proof. apply Forall_forall. intros x ->%list_elem_of_In%repeat_spec. done. Qed.

Lemma hmac_sha1_vector_ref mem key elems :
  length mem = 64%nat → chunk_ok key → bytes_ok key → Forall chunk_ok elems → Forall bytes_ok elems →
  (length elems ≤ 5)%nat →
  hmac_sha1_vector mem key elems = Some (hmac_sha1_ref key (concat elems)).
Proof.
  intros Hmem Hkc Hkb Hall Hb Hn. unfold hmac_sha1_vector, hmac_sha1_ref.
  rewrite bool_decide_false by lia.
  assert ((if bool_decide (64 < length key)%nat then sha1_vector mem [key] else key) =
          (if bool_decide (64 < length key)%nat then sha1_ref key else key)) as ->.
  { case_bool_decide; [|done]. rewrite sha1_vector_ref by (done || by constructor).
    simpl. by rewrite app_nil_r. }
  set (k := if bool_decide _ then _ else key).
  assert (length k ≤ 64 ∧ bytes_ok k)%nat as [Hk Hkbk].
  { subst k. case_bool_decide; [|split; [lia|done]]. unfold sha1_ref.
    destruct (sha1_digest_ok (md_fold sha1_compress sha1_h0 (sha1_pad key))) as [? ->]. split; [lia|done]. }
  rewrite splice_key by done. set (k0 := k ++ repeat 0 _).
  assert (∀ c, is_byte c → chunk_ok (xor_pad k0 c) ∧ bytes_ok (xor_pad k0 c)) as Hpad.
  { intros c Hc. split.
    - apply chunk_short. unfold xor_pad, k0. rewrite length_map, length_app, repeat_length. lia.
    - apply xor_pad_bytes; [done|]. apply bytes_ok_app. split; [done|apply repeat_0_bytes]. }
  destruct (Hpad 0x36) as [Hi1 Hi2]; [done|]. destruct (Hpad 0x5c) as [Ho1 Ho2]; [done|].
  assert (sha1_vector mem (xor_pad k0 0x36 :: elems) = sha1_ref (xor_pad k0 0x36 ++ concat elems)) as Hin.
  { by rewrite sha1_vector_ref by (done || by constructor). }
  rewrite Hin. rewrite sha1_vector_ref; [simpl; by rewrite app_nil_r|done| |].
  - rewrite <-Hin. repeat constructor; [done|]. apply chunk_short.
    destruct (sha1_vector_ok mem (xor_pad k0 0x36 :: elems)) as [_ ->]. lia.
  - rewrite <-Hin. repeat constructor; [done|]. apply sha1_vector_ok.
Qed.

(** IEEE 802.11i, 8.5.1.1: HMAC blocks over label, data and a counter byte,
    cut to [n] bytes. *)
Definition prf_block (key label data : list Z) (i : nat) : list Z :=
  hmac_sha1_ref key (label ++ data ++ [u8 (Z.of_nat i)]).
Definition sha1_prf_ref (key label data : list Z) (n : nat) : list Z :=
  take n (concat (map (prf_block key label data) (seq 0 (n / 20 + 1)))).

Lemma length_prf_block key label data i : length (prf_block key label data i) = 20%nat.
Proof. apply sha1_digest_ok. Qed.

Section prf.
Context (mem key label data : list Z) (Hmem : length mem = 64%nat).
Context (Hk : chunk_ok key ∧ bytes_ok key) (Hla : chunk_ok label ∧ bytes_ok label).
Context (Hd : chunk_ok data ∧ bytes_ok data).

Lemma prf_hmac i :
  hmac_sha1_vector mem key [label; data; [u8 (Z.of_nat i)]] = Some (prf_block key label data i).
Proof.
  destruct Hk, Hla, Hd. rewrite hmac_sha1_vector_ref; [simpl; done|done|done|done| | |simpl; lia].
  - repeat constructor; try done.
  - repeat constructor; try done; apply u8_byte.
Qed.

Lemma sha1_prf_loop_spec fuel : ∀ i n,
  (n < fuel)%nat →
  sha1_prf_loop fuel mem key label data (u8 (Z.of_nat i)) n =
    Some (take n (concat (map (prf_block key label data) (seq i (n / 20 + 1))))).
Proof.
  induction fuel as [|fuel IH]; intros i n Hn; [lia|]. cbn [sha1_prf_loop].
  case_bool_decide as H0; [by subst n|]. rewrite prf_hmac. case_bool_decide as H20.
  - assert (u8 (u8 (Z.of_nat i) + 1) = u8 (Z.of_nat (S i))) as ->.
    { unfold u8. rewrite Z.add_mod_idemp_l by lia. f_equal. lia. }
    rewrite IH by lia. cbn [fmap option_fmap option_map]. f_equal.
    assert (n / 20 = (n - 20) / 20 + 1)%nat as ->.
    { replace n with (n - 20 + 1 * 20)%nat at 1 by lia. rewrite Nat.div_add by lia. done. }
    rewrite (Nat.add_1_r ((n - 20) / 20 + 1)). cbn [seq map concat].
    by rewrite take_app_ge, length_prf_block by (rewrite length_prf_block; lia).
  - rewrite Nat.div_small by lia. cbn [seq map concat plus]. by rewrite app_nil_r.
Qed.

Lemma sha1_prf_is_ref n : sha1_prf mem key label data n = Some (sha1_prf_ref key label data n).
Proof. apply (sha1_prf_loop_spec (S n) 0). lia. Qed.
End prf.

Lemma length_prf_blocks key label data i n :
  length (concat (map (prf_block key label data) (seq i n))) = (20 * n)%nat.
Proof.
  revert i. induction n as [|n IH]; intros i; cbn [seq map concat]; [done|].
  rewrite length_app, IH, length_prf_block. lia.
Qed.

Lemma length_sha1_prf_ref key label data n : length (sha1_prf_ref key label data n) = n.
Proof.
  unfold sha1_prf_ref. rewrite length_take, length_prf_blocks.
  pose proof (Nat.div_mod_eq n 20). pose proof (Nat.mod_upper_bound n 20). lia.
Qed.

(** ** PBKDF2 *)

(** RFC 2898: U1 = PRF(P, S || INT(i)), Uj = PRF(P, Uj-1), T = U1 xor ... xor Uc,
    and the key is the blocks T(1), T(2), ... cut to its length. *)
Fixpoint pbkdf2_U (P S : list Z) (i : nat) (j : nat) : list Z :=
  match j with
  | O => hmac_sha1_ref P (S ++ word_bytes (Z.of_nat i))
  | Datatypes.S j => hmac_sha1_ref P (pbkdf2_U P S i j)
  end.
Definition pbkdf2_T (P S : list Z) (c i : nat) : list Z :=
  foldl (λ t j, zip_with Z.lxor t (pbkdf2_U P S i j)) (pbkdf2_U P S i 0) (seq 1 (c - 1)).
Definition pbkdf2_ref (P S : list Z) (c n : nat) : list Z :=
  take n (concat (map (pbkdf2_T P S c) (seq 1 (n / 20 + 1)))).

Section pbkdf2.
Context (mem P S : list Z) (Hmem : length mem = 64%nat).
Context (HP : chunk_ok P ∧ bytes_ok P) (HS : chunk_ok S ∧ bytes_ok S).

Lemma pbkdf2_U_ok i j : bytes_ok (pbkdf2_U P S i j) ∧ length (pbkdf2_U P S i j) = 20%nat.
Proof. destruct j; apply sha1_digest_ok. Qed.

Lemma pbkdf2_loop_spec i n : ∀ j d,
  pbkdf2_sha1_loop n mem P (pbkdf2_U P S i j) d =
    Some (foldl (λ t j, zip_with Z.lxor t (pbkdf2_U P S i j)) d (seq (1 + j) n)).
Proof.
  destruct HP as [HP1 HP2]. induction n as [|n IH]; intros j d; cbn [pbkdf2_sha1_loop]; [done|].
  destruct (pbkdf2_U_ok i j) as [Hb Hl]. unfold hmac_sha1.
  rewrite hmac_sha1_vector_ref; [|done|done|done| |by repeat constructor|simpl; lia].
  2: { constructor; [|done]. apply chunk_short. lia. }
  cbn [concat]. rewrite app_nil_r. apply (IH (Datatypes.S j)).
Qed.

Lemma pbkdf2_f_spec c i :
  pbkdf2_sha1_f mem P S c (Z.of_nat i) = Some (pbkdf2_T P S c i).
Proof.
  destruct HP as [HP1 HP2], HS as [HS1 HS2]. unfold pbkdf2_sha1_f.
  rewrite hmac_sha1_vector_ref; [|done|done|done| | |simpl; lia].
  - cbn [concat]. rewrite app_nil_r. apply (pbkdf2_loop_spec i (c - 1) 0).
  - constructor; [done|]. constructor; [apply chunk_short; simpl; lia|constructor].
  - constructor; [done|]. constructor; [apply word_bytes_ok|constructor].
Qed.

Lemma length_pbkdf2_T c i : length (pbkdf2_T P S c i) = 20%nat.
Proof.
  unfold pbkdf2_T. pose proof (proj2 (pbkdf2_U_ok i 0)) as Hl. revert Hl.
  generalize (pbkdf2_U P S i 0) as d. generalize (seq 1 (c - 1)) as js. induction js as [|j js IH]; intros d Hd; [done|].
  cbn [foldl]. apply IH. rewrite length_zip_with, Hd, (proj2 (pbkdf2_U_ok i j)). done.
Qed.

Lemma pbkdf2_blocks_spec c fuel : ∀ i n,
  (n < fuel)%nat → Z.of_nat i + Z.of_nat n < 2 ^ 32 →
  pbkdf2_sha1_blocks fuel mem P S c (Z.of_nat i) n =
    Some (take n (concat (map (pbkdf2_T P S c) (seq (1 + i) (n / 20 + 1))))).
Proof.
  induction fuel as [|fuel IH]; intros i n Hn Hi; [lia|]. cbn [pbkdf2_sha1_blocks].
  case_bool_decide as H0; [by subst n|]. cbv zeta.
  rewrite u32_small by (unfold is_u32; lia). replace (Z.of_nat i + 1) with (Z.of_nat (1 + i)) by lia.
  rewrite pbkdf2_f_spec. pose proof (length_pbkdf2_T c (1 + i)) as HT. case_bool_decide as H20.
  - rewrite IH by lia. cbn [fmap option_fmap option_map]. f_equal.
    assert (n / 20 = (n - 20) / 20 + 1)%nat as ->.
    { replace n with (n - 20 + 1 * 20)%nat at 1 by lia. rewrite Nat.div_add by lia. done. }
    rewrite (Nat.add_1_r ((n - 20) / 20 + 1)). cbn [seq map concat].
    rewrite (take_ge (pbkdf2_T P S c (1 + i))) by lia. by rewrite take_app_ge, HT by lia.
  - rewrite Nat.sub_diag. destruct fuel; [lia|]. cbn [pbkdf2_sha1_blocks].
    rewrite bool_decide_true by done. cbn [fmap option_fmap option_map]. f_equal. rewrite app_nil_r.
    rewrite Nat.add_1_r. cbn [seq map concat]. by rewrite take_app_le by lia.
Qed.

Lemma pbkdf2_is_ref c n : Z.of_nat n < 2 ^ 32 → pbkdf2_sha1 mem P S c n = Some (pbkdf2_ref P S c n).
Proof. intros Hn. apply (pbkdf2_blocks_spec c (Datatypes.S n) 0); lia. Qed.
End pbkdf2.

(** ** Correctness *)

(** [sha1_vector] computes FIPS 180 SHA-1 of the concatenated elements,
    however the message is cut and whatever the context memory held: the in-place
    schedule, the renamed variables, the byte swap, the two-word bit counter and
    the padding loop agree with the standard's definition. *)
Theorem sha1_vector_correct mem elems :
  length mem = 64%nat → Forall chunk_ok elems → Forall bytes_ok elems →
  sha1_vector mem elems = sha1_ref (concat elems).
Proof. apply sha1_vector_ref. Qed.

(** [sha1_prf] computes the IEEE 802.11i PRF: HMAC-SHA1 blocks over label,
    data and counter, cut to the length asked for. *)
Theorem sha1_prf_correct mem key label data n :
  length mem = 64%nat → chunk_ok key ∧ bytes_ok key → chunk_ok label ∧ bytes_ok label →
  chunk_ok data ∧ bytes_ok data →
  sha1_prf mem key label data n = Some (sha1_prf_ref key label data n) ∧
  length (sha1_prf_ref key label data n) = n.
Proof. intros. split; [by apply sha1_prf_is_ref|apply length_sha1_prf_ref]. Qed.

(** [pbkdf2_sha1], which turns a passphrase into a WPA-PSK, computes PBKDF2
    of RFC 2898 with HMAC-SHA1, for every number of iterations and key length. *)
Theorem pbkdf2_sha1_correct mem P S c n :
  length mem = 64%nat → chunk_ok P ∧ bytes_ok P → chunk_ok S ∧ bytes_ok S → Z.of_nat n < 2 ^ 32 →
  pbkdf2_sha1 mem P S c n = Some (pbkdf2_ref P S c n).
Proof. intros. by apply pbkdf2_is_ref. Qed.

Lemma sha1_vector_correct_witness :
  sha1_vector (repeat 7 64) [[97]; [98; 99]] = sha1_ref [97; 98; 99].
Proof.
  apply (sha1_vector_correct (repeat 7 64) [[97]; [98; 99]]);
    [reflexivity|repeat constructor; by vm_compute|repeat constructor; by vm_compute].
Defined.

Lemma sha1_prf_correct_witness :
  sha1_prf (repeat 0 64) [11] [80; 0] [72; 105] 48 = Some (sha1_prf_ref [11] [80; 0] [72; 105] 48).
Proof.
  apply (sha1_prf_correct (repeat 0 64) [11] [80; 0] [72; 105] 48);
    [reflexivity|split; [by vm_compute|repeat constructor; by vm_compute]..].
Defined.

(** RFC 6070, second test vector: two iterations for "password" and "salt". *)
Lemma pbkdf2_sha1_correct_witness :
  pbkdf2_sha1 (repeat 0 64) [112; 97; 115; 115; 119; 111; 114; 100] [115; 97; 108; 116] 2 20 =
    Some [0xea; 0x6c; 0x01; 0x4d; 0xc7; 0x2d; 0x6f; 0x8c; 0xcd; 0x1e;
          0xd9; 0x2a; 0xce; 0x1d; 0x41; 0xf0; 0xd8; 0xde; 0x89; 0x57] ∧
  pbkdf2_sha1 (repeat 0 64) [112] [115] 2 32 = Some (pbkdf2_ref [112] [115] 2 32).
Proof.
  split; [vm_compute; reflexivity|].
  apply (pbkdf2_sha1_correct (repeat 0 64) [112] [115] 2 32);
    [reflexivity|split; [by vm_compute|repeat constructor; by vm_compute]..|lia].
Defined.
