(* ===== verification/Sha256.v ===== *)
(** * SHA-256, HMAC-SHA256 and the key derivation function of IEEE 802.11r
      (src/src/crypto/sha256-internal.c, sha256.c)

    The implementation keeps the eight working variables in an array that it shifts
    after every round, and a byte count per block.  The reference is FIPS 180 with
    its constants computed from the square and cube roots of the first primes. *)

From S2P Require Import Prelude Merkle Sha1.

(** ** The compression function *)

(** The table row by row as the source lays it out, a row written as one number. *)
Definition row (n : nat) (x : Z) : list Z := map (λ i, Z.land (Z.shiftr x (32 * Z.of_nat (n - 1 - i))) 0xFFFFFFFF) (seq 0 n).
Definition K256 : list Z := Eval vm_compute in
  row 5 0x428a2f98_71374491_b5c0fbcf_e9b5dba5_3956c25b ++
  row 5 0x59f111f1_923f82a4_ab1c5ed5_d807aa98_12835b01 ++
  row 5 0x243185be_550c7dc3_72be5d74_80deb1fe_9bdc06a7 ++
  row 5 0xc19bf174_e49b69c1_efbe4786_0fc19dc6_240ca1cc ++
  row 5 0x2de92c6f_4a7484aa_5cb0a9dc_76f988da_983e5152 ++
  row 5 0xa831c66d_b00327c8_bf597fc7_c6e00bf3_d5a79147 ++
  row 5 0x06ca6351_14292967_27b70a85_2e1b2138_4d2c6dfc ++
  row 5 0x53380d13_650a7354_766a0abb_81c2c92e_92722c85 ++
  row 5 0xa2bfe8a1_a81a664b_c24b8b70_c76c51a3_d192e819 ++
  row 5 0xd6990624_f40e3585_106aa070_19a4c116_1e376c08 ++
  row 5 0x2748774c_34b0bcb5_391c0cb3_4ed8aa4a_5b9cca4f ++
  row 5 0x682e6ff3_748f82ee_78a5636f_84c87814_8cc70208 ++
  row 4 0x90befffa_a4506ceb_bef9a3f7_c67178f2.

Definition RORc (x y : Z) : Z :=
  Z.land (Z.lor (Z.shiftr (Z.land x 0xFFFFFFFF) (Z.land y 31)) (u64 (Z.shiftl x (32 - Z.land y 31)))) 0xFFFFFFFF.
Definition Ch256 (x y z : Z) : Z := Z.lxor z (Z.land x (Z.lxor y z)).
Definition Maj256 (x y z : Z) : Z := Z.lor (Z.land (Z.lor x y) z) (Z.land x y).
Definition R256 (x n : Z) : Z := Z.shiftr (Z.land x 0xFFFFFFFF) n.
Definition Sigma0 (x : Z) : Z := Z.lxor (Z.lxor (RORc x 2) (RORc x 13)) (RORc x 22).
Definition Sigma1 (x : Z) : Z := Z.lxor (Z.lxor (RORc x 6) (RORc x 11)) (RORc x 25).
Definition Gamma0 (x : Z) : Z := Z.lxor (Z.lxor (RORc x 7) (RORc x 18)) (R256 x 3).
Definition Gamma1 (x : Z) : Z := Z.lxor (Z.lxor (RORc x 17) (RORc x 19)) (R256 x 10).

(** [W[16..63]]; the written part of the array is a list. *)
Definition fill_W (W : list Z) (i : nat) : list Z :=
  W ++ [u32 (Gamma1 (W !!! (i - 2)%nat) + W !!! (i - 7)%nat + Gamma0 (W !!! (i - 15)%nat) + W !!! (i - 16)%nat)].

(** [RND] and the shift of the array [S]. *)
Definition RND (W S : list Z) (i : nat) : list Z :=
  let at_ j := S !!! j in
  let t0 := u32 (at_ 7%nat + Sigma1 (at_ 4%nat) + Ch256 (at_ 4%nat) (at_ 5%nat) (at_ 6%nat) + K256 !!! i + W !!! i) in
  let t1 := u32 (Sigma0 (at_ 0%nat) + Maj256 (at_ 0%nat) (at_ 1%nat) (at_ 2%nat)) in
  let S := <[3%nat := u32 (at_ 3%nat + t0)]> S in
  let S := <[7%nat := u32 (t0 + t1)]> S in
  let t := S !!! 7%nat in
  t :: take 7 S.

Definition sha256_compress (state : list Z) (buf : list Z) : list Z :=
  let W := map (λ i, be_val (take 4 (drop (4 * i) buf))) (seq 0 16) in
  let W := foldl fill_W W (seq 16 48) in
  let S := foldl (RND W) state (seq 0 64) in
  zip_with (λ a b, u32 (a + b)) state S.

(** ** The context and its operations *)

Record sha256_state := Sha256State { s_length : Z; s_state : list Z; s_curlen : nat; s_buf : list Z }.

Definition sha256_h0 : list Z :=
  [0x6A09E667; 0xBB67AE85; 0x3C6EF372; 0xA54FF53A; 0x510E527F; 0x9B05688C; 0x1F83D9AB; 0x5BE0CD19].

(** The buffer is not initialised. *)
Definition sha256_init (mem : list Z) : sha256_state := Sha256State 0 sha256_h0 0 mem.

(** [while (inlen > 0)] *)
Fixpoint sha256_loop (fuel : nat) (md : sha256_state) (input : list Z) : run sha256_state :=
  match input with
  | [] => Ret md
  | _ =>
      match fuel with
      | O => OutOfFuel
      | S fuel =>
          if (s_curlen md =? 0)%nat && (64 <=? length input)%nat then
            let md := Sha256State (u64 (s_length md + 64 * 8)) (sha256_compress (s_state md) (take 64 input)) (s_curlen md) (s_buf md) in
            sha256_loop fuel md (drop 64 input)
          else
            let n := Nat.min (length input) (64 - s_curlen md) in
            let buf := splice (s_buf md) (s_curlen md) (take n input) in
            let curlen := (s_curlen md + n)%nat in
            let md :=
              if (curlen =? 64)%nat
              then Sha256State (u64 (s_length md + 8 * 64)) (sha256_compress (s_state md) buf) 0 buf
              else Sha256State (s_length md) (s_state md) curlen buf in
            sha256_loop fuel md (drop n input)
      end
  end.
(** [None] is the return value -1. *)
Definition sha256_process (md : sha256_state) (input : list Z) : run (option sha256_state) :=
  if (64 <=? s_curlen md)%nat then Ret None
  else md ← sha256_loop (length input) md input; Ret (Some md).

(** [while (md->curlen < n) md->buf[md->curlen++] = 0] *)
Definition zero_to (n : nat) (md : sha256_state) : sha256_state :=
  Sha256State (s_length md) (s_state md) (Nat.max n (s_curlen md)) (splice (s_buf md) (s_curlen md) (repeat 0 (n - s_curlen md))).

Definition sha256_done (md : sha256_state) : option (list Z) :=
  if (64 <=? s_curlen md)%nat then None
  else
    let md := Sha256State (u64 (s_length md + Z.of_nat (s_curlen md) * 8)) (s_state md) (S (s_curlen md))
                (splice (s_buf md) (s_curlen md) [0x80]) in
    let md :=
      if (56 <? s_curlen md)%nat then
        let md := zero_to 64 md in
        Sha256State (s_length md) (sha256_compress (s_state md) (s_buf md)) 0 (s_buf md)
      else md in
    let md := zero_to 56 md in
    let buf := splice (s_buf md) 56 (rev (le_bytes 8 (s_length md))) in
    Some (concat (map word_bytes (sha256_compress (s_state md) buf))).

Fixpoint sha256_elems (md : sha256_state) (elems : list (list Z)) : run (option sha256_state) :=
  match elems with
  | [] => Ret (Some md)
  | e :: elems =>
      r ← sha256_process md e;
      match r with None => Ret None | Some md => sha256_elems md elems end
  end.
Definition sha256_vector (mem : list Z) (elems : list (list Z)) : run (option (list Z)) :=
  r ← sha256_elems (sha256_init mem) elems;
  Ret (match r with None => None | Some md => sha256_done md end).

(** *** HMAC and the key derivation functions (sha256.c, sha256-tlsprf.c) *)

(** The contents of an output buffer after [sha256_vector]; the callers ignore its
    return value. *)
Definition sha256_out (mem : list Z) (elems : list (list Z)) (out : list Z) : run (list Z) :=
  r ← sha256_vector mem elems; Ret (default out r).

(** [mac] is the output buffer, [tk] the uninitialised array of the function. *)
Definition hmac_sha256_vector (mem tk key : list Z) (elems : list (list Z)) (mac : list Z) : run (list Z) :=
  if bool_decide (5 < length elems)%nat then Ret mac
  else
    key ← (if bool_decide (64 < length key)%nat then sha256_out mem [key] tk else Ret key);
    let k_pad := xor_pad (splice (repeat 0 64) 0 key) 0x36 in
    mac ← sha256_out mem (k_pad :: elems) mac;
    let k_pad := xor_pad (splice (repeat 0 64) 0 key) 0x5c in
    sha256_out mem [k_pad; mac] mac.

Definition hmac_sha256 (mem tk key data mac : list Z) : run (list Z) :=
  hmac_sha256_vector mem tk key [data] mac.

(** [while (pos < buf_len)]; [label] is without its NUL, [hash] is the local array. *)
Fixpoint sha256_prf_loop (fuel : nat) (mem tk hash key label data : list Z) (counter : Z) (pos : nat)
    (buf : list Z) : run (list Z) :=
  match fuel with
  | O => OutOfFuel
  | S fuel =>
      if (pos <? length buf)%nat then
        let plen := (length buf - pos)%nat in
        let addr := [le_bytes 2 counter; label; data; le_bytes 2 (u64 (Z.of_nat (length buf) * 8))] in
        if (32 <=? plen)%nat then
          mac ← hmac_sha256_vector mem tk key addr (take 32 (drop pos buf));
          let buf := splice buf pos mac in
          sha256_prf_loop fuel mem tk hash key label data (u16 (counter + 1)) (pos + 32) buf
        else
          hash ← hmac_sha256_vector mem tk key addr hash;
          Ret (splice buf pos (take plen hash))
      else Ret buf
  end.
Definition sha256_prf (mem tk hash key label data buf : list Z) : run (list Z) :=
  sha256_prf_loop (S (length buf)) mem tk hash key label data 1 0 buf.

Fixpoint tls_prf_loop (fuel : nat) (mem tk secret label seed A P : list Z) (pos : nat) (out : list Z)
  : run (list Z) :=
  match fuel with
  | O => OutOfFuel
  | S fuel =>
      if (pos <? length out)%nat then
        P ← hmac_sha256_vector mem tk secret [A; label; seed] P;
        A ← hmac_sha256 mem tk secret A A;
        let clen := (length out - pos)%nat in
        let clen := if (32 <? clen)%nat then 32%nat else clen in
        tls_prf_loop fuel mem tk secret label seed A P (pos + clen) (splice out pos (take clen P))
      else Ret out
  end.
(** [A] and [P] are the uninitialised arrays of the function. *)
Definition tls_prf_sha256 (mem tk A P secret label seed out : list Z) : run (list Z) :=
  A ← hmac_sha256_vector mem tk secret [label; seed] A;
  tls_prf_loop (S (length out)) mem tk secret label seed A P 0 out.

Example sha256_abc : sha256_vector (repeat 7 64) [[97]; [98; 99]] =
  Ret (Some [0xba; 0x78; 0x16; 0xbf; 0x8f; 0x01; 0xcf; 0xea; 0x41; 0x41; 0x40; 0xde; 0x5d; 0xae; 0x22; 0x23;
             0xb0; 0x03; 0x61; 0xa3; 0x96; 0x17; 0x7a; 0x9c; 0xb4; 0x10; 0xff; 0x61; 0xf2; 0x00; 0x15; 0xad]).
Proof. vm_compute. reflexivity. Qed.

(** RFC 4231, test case 2. *)
Example hmac_sha256_jefe :
  hmac_sha256 (repeat 7 64) [] [74; 101; 102; 101]
    [119; 104; 97; 116; 32; 100; 111; 32; 121; 97; 32; 119; 97; 110; 116; 32; 102; 111; 114; 32;
     110; 111; 116; 104; 105; 110; 103; 63] [] =
  Ret [0x5b; 0xdc; 0xc1; 0x46; 0xbf; 0x60; 0x75; 0x4e; 0x6a; 0x04; 0x24; 0x26; 0x08; 0x95; 0x75; 0xc7;
       0x5a; 0x00; 0x3f; 0x08; 0x9d; 0x27; 0x39; 0x83; 0x9d; 0xec; 0x58; 0xb9; 0x64; 0xec; 0x38; 0x43].
Proof. vm_compute. reflexivity. Qed.

(** ** The reference: FIPS 180-4 *)

(** The first 64 primes, and the first 32 bits of the fractional parts of their cube
    roots (the round constants) and of the square roots of the first eight (the
    initial hash value). *)
Definition primeb (p : Z) : bool :=
  (2 <=? p) && forallb (λ d, negb (p mod d =? 0)) (map Z.of_nat (seq 2 (Z.to_nat p - 2))).
Definition primes64 : list Z := List.filter primeb (map Z.of_nat (seq 2 310)).
(** The cube root of [z] rounded down, bit by bit. *)
Definition cbrt (z : Z) : Z :=
  foldl (λ r k, let r' := r + 2 ^ k in if r' * r' * r' <=? z then r' else r) 0
    (map (λ i, 40 - Z.of_nat i) (seq 0 41)).
Definition fips_K : list Z := map (λ p, cbrt (p * 2 ^ 96) mod 2 ^ 32) primes64.
Definition fips_H0 : list Z := map (λ p, Z.sqrt (p * 2 ^ 64) mod 2 ^ 32) (take 8 primes64).

Lemma K256_fips : K256 = fips_K.
Proof. vm_compute. reflexivity. Qed.
Lemma sha256_h0_fips : sha256_h0 = fips_H0.
Proof. vm_compute. reflexivity. Qed.

Definition rotr (n x : Z) : Z := Z.lor (Z.shiftr x n) (u32 (Z.shiftl x (32 - n))).
Definition big_sigma0 (x : Z) : Z := Z.lxor (rotr 2 x) (Z.lxor (rotr 13 x) (rotr 22 x)).
Definition big_sigma1 (x : Z) : Z := Z.lxor (rotr 6 x) (Z.lxor (rotr 11 x) (rotr 25 x)).
Definition small_sigma0 (x : Z) : Z := Z.lxor (rotr 7 x) (Z.lxor (rotr 18 x) (Z.shiftr x 3)).
Definition small_sigma1 (x : Z) : Z := Z.lxor (rotr 17 x) (Z.lxor (rotr 19 x) (Z.shiftr x 10)).

Fixpoint schedule256 (ws : list Z) (n : nat) : list Z :=
  match n with
  | O => ws
  | S n =>
      let W := schedule256 ws n in let t := (16 + n)%nat in
      W ++ [u32 (small_sigma1 (W !!! (t - 2)%nat) + W !!! (t - 7)%nat +
                 small_sigma0 (W !!! (t - 15)%nat) + W !!! (t - 16)%nat)]
  end.

Definition fips256_round (W : list Z) (st : list Z) (t : nat) : list Z :=
  match st with
  | [a; b; c; d; e; f; g; h] =>
      let T1 := u32 (h + big_sigma1 e + Ch e f g + fips_K !!! t + W !!! t) in
      let T2 := u32 (big_sigma0 a + Maj a b c) in
      [u32 (T1 + T2); a; b; c; u32 (d + T1); e; f; g]
  | _ => st
  end.

Definition fips256_compress (st : list Z) (block : list Z) : list Z :=
  zip_with (λ a b, u32 (a + b)) st
    (foldl (fips256_round (schedule256 (be_words block) 48)) st (seq 0 64)).

(** The padding is that of SHA-1. *)
Definition sha256_ref (m : list Z) : list Z :=
  concat (map word_bytes (md_fold fips256_compress fips_H0 (sha1_pad m))).

(** ** The compression functions agree *)

Definition words_ok (l : list Z) : Prop := Forall is_u32 l.

Lemma RORc_rotr x n : is_u32 x → 0 <= n < 32 → RORc x n = rotr n x.
Proof.
  intros Hx Hn. unfold RORc, rotr.
  assert (Z.land n 31 = n) as ->.
  { change 31 with (Z.ones 5). rewrite Z.land_ones, Z.mod_small by lia. done. }
  change 0xFFFFFFFF with (Z.ones 32). rewrite Z.land_lor_distr_l, !Z.land_ones by lia.
  unfold is_u32 in Hx. rewrite (Z.mod_small x) by lia. f_equal.
  - apply Z.mod_small. rewrite Z.shiftr_div_pow2 by lia. split; [apply Z.div_pos; lia|].
    apply Z.le_lt_trans with x; [|lia]. apply Z.div_le_upper_bound; nia.
  - unfold u64, u32. apply Z.mod_mod_divide. by exists (2 ^ 32).
Qed.

Lemma R256_shiftr x n : is_u32 x → R256 x n = Z.shiftr x n.
Proof.
  intros Hx. unfold R256, is_u32 in *. change 0xFFFFFFFF with (Z.ones 32). by rewrite Z.land_ones, Z.mod_small by lia.
Qed.

Lemma Ch256_Ch x y z : Ch256 x y z = Ch x y z.
Proof. unfold Ch256. rewrite <-(ft_round_fun 0). unfold round_fun. cbn [Nat.ltb Nat.leb]. apply Z.lxor_comm. Qed.

Lemma Maj256_Maj x y z : Maj256 x y z = Maj x y z.
Proof. apply (ft_round_fun 40). Qed.

Lemma Sigma0_fips x : is_u32 x → Sigma0 x = big_sigma0 x.
Proof. intros. unfold Sigma0, big_sigma0. rewrite !RORc_rotr by (done || lia). apply Z.lxor_assoc. Qed.
Lemma Sigma1_fips x : is_u32 x → Sigma1 x = big_sigma1 x.
Proof. intros. unfold Sigma1, big_sigma1. rewrite !RORc_rotr by (done || lia). apply Z.lxor_assoc. Qed.
Lemma Gamma0_fips x : is_u32 x → Gamma0 x = small_sigma0 x.
Proof.
  intros. unfold Gamma0, small_sigma0. rewrite !RORc_rotr, R256_shiftr by (done || lia). apply Z.lxor_assoc.
Qed.
Lemma Gamma1_fips x : is_u32 x → Gamma1 x = small_sigma1 x.
Proof.
  intros. unfold Gamma1, small_sigma1. rewrite !RORc_rotr, R256_shiftr by (done || lia). apply Z.lxor_assoc.
Qed.

Lemma words_ok_at l i : words_ok l → is_u32 (l !!! i).
Proof.
  intros Hl. destruct (decide (i < length l)%nat) as [Hi|Hi].
  - destruct (lookup_lt_is_Some_2 _ _ Hi) as [x Hx]. rewrite (list_lookup_total_correct _ _ _ Hx).
    by apply (Forall_lookup_1 _ _ _ _ Hl Hx).
  - rewrite list_lookup_total_alt, lookup_ge_None_2 by lia. done.
Qed.

Lemma be_words_ok block : bytes_ok block → length block = 64%nat → words_ok (be_words block).
Proof.
  intros Hb Hl. apply Forall_fmap, Forall_forall. intros i Hi%list_elem_of_In%in_seq. simpl.
  assert (bytes_ok (take 4 (drop (4 * i) block))) as H4 by (by apply Forall_take, Forall_drop).
  pose proof (be_val_range _ H4) as Hr. rewrite length_take, length_drop in Hr.
  replace (4 `min` (length block - 4 * i))%nat with 4%nat in Hr by lia. exact Hr.
Qed.

(** The schedule array holds the schedule of the standard, and words. *)
Lemma fill_W_schedule ws n :
  words_ok ws → foldl fill_W ws (seq 16 n) = schedule256 ws n ∧ words_ok (schedule256 ws n).
Proof.
  intros Hws. induction n as [|n [IH Hok]]; [done|]. rewrite seq_S, foldl_app, IH. cbn [foldl schedule256].
  unfold fill_W. rewrite Gamma0_fips, Gamma1_fips by (by apply words_ok_at). split; [done|].
  apply Forall_app. split; [done|]. repeat constructor; apply u32_range.
Qed.

Definition state_ok (st : list Z) : Prop := length st = 8%nat ∧ words_ok st.

Lemma RND_fips W st t :
  state_ok st → RND W st t = fips256_round W st t ∧ state_ok (fips256_round W st t).
Proof.
  intros [Hl Hw]. destruct st as [|a [|b [|c [|d [|e [|f [|g [|h [|]]]]]]]]]; try discriminate.
  repeat (apply Forall_cons in Hw as [? Hw]). split.
  - unfold RND, fips256_round. rewrite K256_fips. simpl.
    by rewrite Sigma0_fips, Sigma1_fips, Ch256_Ch, Maj256_Maj by done.
  - split; [done|]. unfold words_ok, fips256_round.
    repeat (apply Forall_cons; split); (done || apply u32_range || by constructor).
Qed.

Lemma words_ok_sum a b : words_ok (zip_with (λ a b, u32 (a + b)) a b).
Proof.
  revert b. induction a as [|x a IH]; intros [|y b]; try constructor; [apply u32_range|apply IH].
Qed.

Lemma compress_fips st block :
  state_ok st → bytes_ok block → length block = 64%nat →
  sha256_compress st block = fips256_compress st block ∧ state_ok (fips256_compress st block).
Proof.
  intros Hst Hb Hl. unfold sha256_compress, fips256_compress. fold (be_words block).
  destruct (fill_W_schedule (be_words block) 48 (be_words_ok _ Hb Hl)) as [-> _].
  set (W := schedule256 _ _). clearbody W.
  assert (∀ ts s, state_ok s →
    foldl (RND W) s ts = foldl (fips256_round W) s ts ∧ state_ok (foldl (fips256_round W) s ts)) as Hf.
  { induction ts as [|t ts IH]; intros s Hs; [done|]. cbn [foldl]. destruct (RND_fips W s t Hs) as [-> Hs'].
    by apply IH. }
  destruct (Hf (seq 0 64) st Hst) as [-> Hst']. split; [done|]. destruct Hst as [Hl1 _], Hst' as [Hl2 _].
  split; [rewrite length_zip_with; lia|]. apply words_ok_sum.
Qed.

Lemma fold_fips m :
  bytes_ok m → md_fold sha256_compress sha256_h0 m = md_fold fips256_compress fips_H0 m.
Proof.
  intros Hm. rewrite <-sha256_h0_fips. apply (md_fold_ext_inv state_ok); [|by repeat constructor|done].
  intros h b Hh Hb Hl. by apply compress_fips.
Qed.

#[local] Opaque sha256_compress.

(** ** The incremental interface *)

Record sha256_inv (md : sha256_state) (m : list Z) : Prop := {
  sha256_absorbed : absorbed sha256_compress sha256_h0 (s_state md) (s_buf md) m;
  sha256_curlen : s_curlen md = (length m mod 64)%nat;
  sha256_len : s_length md = u64 (8 * Z.of_nat (length m - length m mod 64))
}.

Lemma sha256_init_inv mem : length mem = 64%nat → sha256_inv (sha256_init mem) [].
Proof. intros. by split; [apply absorbed_init|..]. Qed.

Lemma u64_add a b : u64 (u64 a + b) = u64 (a + b).
Proof. apply Z.add_mod_idemp_l. lia. Qed.

(** Bytes that complete a block add one block to the counter. *)
Lemma count_block (m d : list Z) :
  (length m mod 64 + length d = 64)%nat →
  (length (m ++ d) mod 64 = 0)%nat ∧
  u64 (u64 (8 * Z.of_nat (length m - length m mod 64)) + 512) =
    u64 (8 * Z.of_nat (length (m ++ d) - length (m ++ d) mod 64)).
Proof.
  intros Hd. pose proof (Nat.div_mod_eq (length m) 64).
  assert (length (m ++ d) = (length m / 64 + 1) * 64)%nat as Hl by (rewrite length_app; lia).
  rewrite Hl, Nat.Div0.mod_mul. split; [done|]. rewrite u64_add. f_equal. lia.
Qed.

Lemma count_store (m d : list Z) :
  (length m mod 64 + length d < 64)%nat →
  (length (m ++ d) mod 64 = length m mod 64 + length d)%nat ∧
  (length (m ++ d) - length (m ++ d) mod 64 = length m - length m mod 64)%nat.
Proof.
  intros Hd.
  assert (length (m ++ d) mod 64 = length m mod 64 + length d)%nat as ->.
  { rewrite length_app, <-(Nat.Div0.add_mod_idemp_l (length m)). by apply Nat.mod_small. }
  split; [done|]. rewrite length_app. pose proof (Nat.Div0.mod_le (length m) 64). lia.
Qed.

(** A whole block on a block boundary. *)
Lemma sha256_block_inv md m d :
  sha256_inv md m → (length m mod 64 = 0)%nat → length d = 64%nat →
  sha256_inv (Sha256State (u64 (s_length md + 64 * 8)) (sha256_compress (s_state md) d) (s_curlen md) (s_buf md)) (m ++ d).
Proof.
  intros [Ha Hc Hl] H0 Hd. destruct (count_block m d) as [Hm Hn]; [lia|]. split; cbn [s_length s_state s_curlen s_buf].
  - apply (absorbed_block _ _ _ (s_buf md)); [done|done|done|]. apply (absorbed_buf _ _ _ _ _ Ha).
  - lia.
  - rewrite Hl. exact Hn.
Qed.

(** Bytes that fit the buffer, compressed when they fill it. *)
Lemma sha256_part_inv md m d :
  sha256_inv md m → (s_curlen md + length d ≤ 64)%nat →
  let buf := splice (s_buf md) (s_curlen md) d in
  let curlen := (s_curlen md + length d)%nat in
  sha256_inv
    (if (curlen =? 64)%nat
     then Sha256State (u64 (s_length md + 8 * 64)) (sha256_compress (s_state md) buf) 0 buf
     else Sha256State (s_length md) (s_state md) curlen buf) (m ++ d).
Proof.
  intros [Ha Hc Hl] Hd. cbv zeta. rewrite Hc in *. destruct (Nat.eqb_spec (length m mod 64 + length d) 64) as [He|He].
  - destruct (count_block m d) as [Hm Hn]; [lia|]. split; cbn [s_length s_state s_curlen s_buf];
      [by apply absorbed_fill|lia|rewrite Hl; exact Hn].
  - destruct (count_store m d) as [Hm Hn]; [lia|]. split; cbn [s_length s_state s_curlen s_buf];
      [apply absorbed_store; [done|lia]|lia|by rewrite Hl, Hn].
Qed.

Lemma sha256_loop_inv fuel : ∀ md m input,
  sha256_inv md m → (length input ≤ fuel)%nat →
  ∃ md', sha256_loop fuel md input = Ret md' ∧ sha256_inv md' (m ++ input).
Proof.
  induction fuel as [|fuel IH]; intros md m input Hinv Hf.
  { destruct input; [|simpl in Hf; lia]. exists md. by rewrite app_nil_r. }
  destruct input as [|x input]; [exists md; by rewrite app_nil_r|].
  cbn [sha256_loop]. remember (x :: input) as inp eqn:Ei.
  assert (0 < length inp)%nat as Hpos by (subst inp; simpl; lia). clear Ei x input.
  pose proof (Nat.mod_upper_bound (length m) 64 ltac:(lia)) as Hr. pose proof (sha256_curlen _ _ Hinv) as Hc.
  destruct ((s_curlen md =? 0)%nat && (64 <=? length inp)%nat) eqn:E.
  - apply andb_true_iff in E as [E0%Nat.eqb_eq E64%Nat.leb_le].
    replace (m ++ inp) with ((m ++ take 64 inp) ++ drop 64 inp) by (by rewrite <-app_assoc, take_drop). apply IH; [|rewrite length_drop; lia].
    apply sha256_block_inv; [done|lia|rewrite length_take; lia].
  - clear E. set (n := Nat.min _ _). assert (n = length (take n inp)) as Ht by (rewrite length_take; lia).
    assert (0 < n)%nat by lia.
    replace (m ++ inp) with ((m ++ take n inp) ++ drop n inp) by (by rewrite <-app_assoc, take_drop).
    apply IH; [|rewrite length_drop; lia].
    pose proof (sha256_part_inv md m (take n inp) Hinv ltac:(lia)) as Hp. rewrite <-Ht in Hp. exact Hp.
Qed.

Lemma sha256_process_inv md m input :
  sha256_inv md m →
  ∃ md', sha256_process md input = Ret (Some md') ∧ sha256_inv md' (m ++ input).
Proof.
  intros Hinv. unfold sha256_process. rewrite (sha256_curlen _ _ Hinv).
  pose proof (Nat.mod_upper_bound (length m) 64 ltac:(lia)).
  destruct (Nat.leb_spec 64 (length m mod 64)) as [|_]; [lia|].
  destruct (sha256_loop_inv (length input) md m input Hinv) as (md' & -> & Hi); [done|]. by exists md'.
Qed.

Lemma sha256_elems_inv elems : ∀ md m,
  sha256_inv md m →
  ∃ md', sha256_elems md elems = Ret (Some md') ∧ sha256_inv md' (m ++ concat elems).
Proof.
  induction elems as [|e elems IH]; intros md m Hinv; cbn [sha256_elems concat].
  { exists md. by rewrite app_nil_r. }
  destruct (sha256_process_inv md m e Hinv) as (md' & -> & Hi). rewrite app_assoc. by apply IH.
Qed.

(** *** Finishing *)

(** Writing behind the part of the buffer that is known. *)
Lemma take_splice_known buf off p src :
  take off buf = p → length p = off → (off + length src ≤ length buf)%nat →
  take (off + length src) (splice buf off src) = p ++ src.
Proof. intros <- Hp Hs. by rewrite take_splice by done. Qed.

(** Zeros up to [n] and then the eight bytes of the length. *)
Lemma zero_to_known n md p :
  take (s_curlen md) (s_buf md) = p → length p = s_curlen md → length (s_buf md) = 64%nat →
  (s_curlen md ≤ n ≤ 64)%nat →
  take n (s_buf (zero_to n md)) = p ++ repeat 0 (n - s_curlen md) ∧ length (s_buf (zero_to n md)) = 64%nat ∧
  s_curlen (zero_to n md) = n ∧ s_state (zero_to n md) = s_state md ∧ s_length (zero_to n md) = s_length md.
Proof.
  intros Hp Hl Hb Hn. unfold zero_to. cbn [s_buf s_curlen s_state s_length].
  pose proof (take_splice_known (s_buf md) (s_curlen md) p (repeat 0 (n - s_curlen md)) Hp Hl) as Ht.
  rewrite repeat_length in Ht. split_and!; [|rewrite length_splice; rewrite ?repeat_length; lia|lia|done|done].
  rewrite <-Ht by lia. f_equal. lia.
Qed.

Lemma md_fold_block1 {H} (f : H → list Z → H) h b : length b = 64%nat → f h b = md_fold f h b.
Proof. intros Hb. by rewrite <-(app_nil_r b) at 2; rewrite md_fold_block, md_fold_short by (simpl; lia). Qed.

(** The last block: pending bytes [p] with their zeros up to 56, and the length. *)
Lemma final_block md p len :
  take (s_curlen md) (s_buf md) = p → length p = s_curlen md → length (s_buf md) = 64%nat →
  (s_curlen md ≤ 56)%nat → length len = 8%nat →
  sha256_compress (s_state (zero_to 56 md)) (splice (s_buf (zero_to 56 md)) 56 len) =
    md_fold sha256_compress (s_state md) (p ++ repeat 0 (56 - s_curlen md) ++ len).
Proof.
  intros Hp Hl Hb Hn Hlen. destruct (zero_to_known 56 md p) as (Hz & Hzl & _ & -> & _); [done..|lia|].
  unfold splice. rewrite Hz, drop_ge, app_nil_r, <-app_assoc by lia. apply md_fold_block1.
  rewrite !length_app, repeat_length. lia.
Qed.

Lemma sha256_done_fold md m :
  sha256_inv md m →
  sha256_done md = Some (concat (map word_bytes (md_fold sha256_compress sha256_h0 (sha1_pad m)))).
Proof.
  intros [[Hh Ht Hb] Hc Hl]. unfold sha256_done.
  pose proof (Nat.mod_upper_bound (length m) 64 ltac:(lia)) as Hr. rewrite Hc.
  destruct (Nat.leb_spec 64 (length m mod 64)) as [|_]; [lia|]. cbv zeta.
  assert (u64 (s_length md + Z.of_nat (length m mod 64) * 8) = u64 (8 * Z.of_nat (length m))) as ->.
  { rewrite Hl, u64_add. f_equal. pose proof (Nat.Div0.mod_le (length m) 64). lia. }
  assert (rev (le_bytes 8 (u64 (8 * Z.of_nat (length m)))) = rev (le_bytes 8 (8 * Z.of_nat (length m)))) as Hlen.
  { f_equal. apply (le_bytes_mod 8). }
  set (r := (length m mod 64)%nat) in *. set (len := rev (le_bytes 8 (8 * Z.of_nat (length m)))) in *.
  assert (length len = 8%nat) as Hlen8 by (unfold len; by rewrite length_rev, length_le_bytes).
  set (buf := splice (s_buf md) r [128]).
  assert (take (S r) buf = md_tail m ++ [128]) as Hbuf.
  { rewrite <-Nat.add_1_r. apply (take_splice_known _ _ _ [128] Ht); [apply length_md_tail|simpl; lia]. }
  assert (length buf = 64%nat) as Hbl by (unfold buf; rewrite length_splice; simpl; lia).
  assert (length (md_tail m ++ [128]) = S r) as Hpl by (rewrite length_app, length_md_tail; fold r; simpl; lia).
  unfold sha1_pad. fold r len. rewrite md_fold_resume, <-Hh.
  do 3 f_equal. cbn [s_curlen]. destruct (Nat.ltb_spec 56 (S r)) as [Hgt|Hle].
  - set (md1 := Sha256State _ _ (S r) buf).
    destruct (zero_to_known 64 md1 (md_tail m ++ [128])) as (Hz & Hzl & _ & -> & ->); [done..|cbn; lia|].
    rewrite take_ge in Hz by lia. cbn [s_curlen s_length s_state md1] in *.
    set (md2 := Sha256State _ _ 0 _).
    change (s_length (zero_to 56 md2)) with (u64 (8 * Z.of_nat (length m))). rewrite Hlen, (final_block md2 []); [|done|done|done|cbn; lia|done].
    cbn [s_state s_curlen md2 app]. rewrite <-md_fold_block by (by rewrite Hz, length_app, repeat_length; lia).
    rewrite Hz, <-!app_assoc, (app_assoc (repeat 0 _)), <-repeat_app. do 5 f_equal.
    rewrite Nat.mod_small; lia.
  - set (md1 := Sha256State _ _ (S r) buf). change (s_length (zero_to 56 md1)) with (u64 (8 * Z.of_nat (length m))).
    rewrite Hlen, (final_block md1 (md_tail m ++ [128])) by done. cbn [s_state s_curlen md1].
    rewrite <-app_assoc. do 5 f_equal. replace (119 - r)%nat with (55 - r + 1 * 64)%nat by lia.
    rewrite Nat.Div0.mod_add, Nat.mod_small; lia.
Qed.

Lemma sha256_vector_ref mem elems :
  length mem = 64%nat → Forall bytes_ok elems →
  sha256_vector mem elems = Ret (Some (sha256_ref (concat elems))).
Proof.
  intros Hmem Hb. unfold sha256_vector.
  destruct (sha256_elems_inv elems _ [] (sha256_init_inv mem Hmem)) as (md & -> & Hinv). cbn.
  rewrite (sha256_done_fold _ _ Hinv), fold_fips; [done|]. by apply sha1_pad_bytes, Forall_concat.
Qed.

(** ** HMAC and the key derivation functions *)

Lemma md_fold_state_ok m : bytes_ok m → state_ok (md_fold fips256_compress fips_H0 m).
Proof.
  rewrite <-sha256_h0_fips. unfold md_fold. generalize (length m) as n. intros n.
  assert (state_ok sha256_h0) as H0 by (by repeat constructor). revert H0. generalize sha256_h0 as h.
  revert m. induction n as [|n IH]; intros m h Hh Hm; [done|]. cbn [md_fold_n]. case_bool_decide; [|done].
  apply IH; [|by apply Forall_drop]. apply compress_fips; [done|by apply Forall_take|rewrite length_take; lia].
Qed.

Lemma sha256_ref_ok m : bytes_ok m → bytes_ok (sha256_ref m) ∧ length (sha256_ref m) = 32%nat.
Proof.
  intros Hm. unfold sha256_ref. destruct (md_fold_state_ok (sha1_pad m)) as [Hl _]; [by apply sha1_pad_bytes|].
  revert Hl. generalize (md_fold fips256_compress fips_H0 (sha1_pad m)) as h. intros h Hl. split.
  - apply Forall_concat, Forall_fmap, Forall_forall. intros x _. apply word_bytes_ok.
  - do 8 (destruct h as [|? h]; [discriminate|]). by destruct h.
Qed.

(** RFC 2104 over [sha256_ref]. *)
Definition hmac_sha256_ref (key m : list Z) : list Z :=
  let k := if bool_decide (64 < length key)%nat then sha256_ref key else key in
  let k0 := k ++ repeat 0 (64 - length k) in
  sha256_ref (xor_pad k0 0x5c ++ sha256_ref (xor_pad k0 0x36 ++ m)).

Section hmac_key.
Context (key : list Z) (Hkey : bytes_ok key).

Lemma hmac_key : let k := if bool_decide (64 < length key)%nat then sha256_ref key else key in
  bytes_ok k ∧ (length k ≤ 64)%nat.
Proof.
  cbv zeta. case_bool_decide; [|split; [done|lia]]. destruct (sha256_ref_ok key Hkey). split; [done|lia].
Qed.

Lemma hmac_pad_bytes c :
  is_byte c →
  let k := if bool_decide (64 < length key)%nat then sha256_ref key else key in
  bytes_ok (xor_pad (k ++ repeat 0 (64 - length k)) c).
Proof.
  intros Hc. cbv zeta. apply xor_pad_bytes; [done|]. apply bytes_ok_app. split; [apply hmac_key|apply repeat_0_bytes].
Qed.

Lemma hmac_inner_bytes m :
  bytes_ok m →
  let k := if bool_decide (64 < length key)%nat then sha256_ref key else key in
  bytes_ok (sha256_ref (xor_pad (k ++ repeat 0 (64 - length k)) 0x36 ++ m)).
Proof. intros Hm. apply sha256_ref_ok. apply bytes_ok_app. split; [by apply hmac_pad_bytes|done]. Qed.

Lemma hmac_sha256_ref_ok m :
  bytes_ok m → bytes_ok (hmac_sha256_ref key m) ∧ length (hmac_sha256_ref key m) = 32%nat.
Proof.
  intros Hm. apply sha256_ref_ok, bytes_ok_app. split; [by apply hmac_pad_bytes|by apply hmac_inner_bytes].
Qed.
End hmac_key.

Section hmac.
Context (mem tk key : list Z) (Hmem : length mem = 64%nat) (Hkey : bytes_ok key).

Lemma sha256_out_ref elems out :
  Forall bytes_ok elems → sha256_out mem elems out = Ret (sha256_ref (concat elems)).
Proof. intros. unfold sha256_out. by rewrite sha256_vector_ref. Qed.

Lemma hmac_sha256_vector_ref elems mac :
  Forall bytes_ok elems → (length elems ≤ 5)%nat →
  hmac_sha256_vector mem tk key elems mac = Ret (hmac_sha256_ref key (concat elems)).
Proof.
  intros Hb Hn. unfold hmac_sha256_vector, hmac_sha256_ref. rewrite bool_decide_false by lia.
  assert ((if bool_decide (64 < length key)%nat then sha256_out mem [key] tk else Ret key) =
          Ret (if bool_decide (64 < length key)%nat then sha256_ref key else key)) as ->.
  { case_bool_decide; [|done]. rewrite sha256_out_ref by (by constructor). simpl. by rewrite app_nil_r. }
  pose proof (hmac_key key Hkey) as [_ Hkl]. pose proof (hmac_pad_bytes key Hkey) as Hpad.
  pose proof (hmac_inner_bytes key Hkey) as Hin.
  cbv zeta in *. set (k := if bool_decide _ then _ else key) in *. rewrite run_bind_l, splice_key by done.
  rewrite sha256_out_ref by (constructor; [by apply Hpad|done]). rewrite run_bind_l. cbn [concat].
  rewrite sha256_out_ref; [cbn [concat]; by rewrite app_nil_r|].
  repeat constructor; [by apply Hpad|]. apply Hin. by apply Forall_concat.
Qed.

End hmac.

(** *** Filling a buffer block by block *)

Section blocks.
Context (f : nat → list Z) (Hf : ∀ i, length (f i) = 32%nat).

(** The first [n] bytes of the blocks [f 0], [f 1], ... *)
Definition key_stream (n : nat) : list Z := take n (concat (map f (seq 0 (n / 32 + 1)))).
Definition filled (k : nat) (buf : list Z) : Prop := take (32 * k) buf = concat (map f (seq 0 k)).

Lemma length_blocks s k : length (concat (map f (seq s k))) = (32 * k)%nat.
Proof.
  revert s. induction k as [|k IH]; intros s; [done|]. cbn [seq map concat]. rewrite length_app, IH, Hf. lia.
Qed.

Lemma concat_blocks_S k : concat (map f (seq 0 (S k))) = concat (map f (seq 0 k)) ++ f k.
Proof. rewrite seq_S, map_app, concat_app. cbn [map concat]. by rewrite app_nil_r. Qed.

Lemma filled_step k buf :
  filled k buf → (32 * k + 32 ≤ length buf)%nat → filled (S k) (splice buf (32 * k) (f k)).
Proof.
  intros Hk Hl. unfold filled in *. rewrite concat_blocks_S, <-Hk.
  replace (32 * S k)%nat with (32 * k + length (f k))%nat by (rewrite Hf; lia).
  apply take_splice. rewrite Hf. lia.
Qed.

(** More blocks than needed have the same prefix. *)
Lemma blocks_prefix n k m :
  (n ≤ 32 * k)%nat → (k ≤ m)%nat →
  take n (concat (map f (seq 0 m))) = take n (concat (map f (seq 0 k))).
Proof.
  intros Hn Hk. replace m with (k + (m - k))%nat by lia. rewrite seq_app, map_app, concat_app.
  apply take_app_le. rewrite length_blocks. lia.
Qed.

Lemma key_stream_enough n k : (n ≤ 32 * k)%nat → take n (concat (map f (seq 0 k))) = key_stream n.
Proof.
  intros Hn. unfold key_stream. pose proof (Nat.div_mod_eq n 32). pose proof (Nat.mod_upper_bound n 32 ltac:(lia)).
  destruct (decide (k ≤ n / 32 + 1)%nat); [symmetry|]; apply blocks_prefix; lia.
Qed.

Lemma filled_last k buf :
  filled k buf → (32 * k ≤ length buf ≤ 32 * k + 32)%nat →
  splice buf (32 * k) (take (length buf - 32 * k) (f k)) = key_stream (length buf).
Proof.
  intros Hk Hl. rewrite <-(key_stream_enough _ (S k)) by lia.
  rewrite concat_blocks_S, take_app_ge, length_blocks by (rewrite length_blocks; lia).
  unfold splice. rewrite Hk, drop_ge, app_nil_r; [done|]. rewrite length_take, Hf. lia.
Qed.

Lemma filled_all k buf : filled k buf → length buf = (32 * k)%nat → buf = key_stream (length buf).
Proof.
  intros Hk Hl. rewrite <-(filled_last k) by (done || lia). rewrite Hl, Nat.sub_diag, take_0.
  unfold splice. rewrite Nat.add_0_r. symmetry. apply take_drop.
Qed.

Lemma length_kdf_stream n : length (key_stream n) = n.
Proof.
  unfold key_stream. rewrite length_take, length_blocks.
  pose proof (Nat.div_mod_eq n 32). pose proof (Nat.mod_upper_bound n 32 ltac:(lia)). lia.
Qed.
End blocks.

(** IEEE 802.11r, 8.5.1.5.2: block [i] is HMAC-SHA256 over the counter [i + 1], the
    label, the context and the length of the key in bits, with 16-bit integers. *)
Definition kdf_block (key label data : list Z) (n i : nat) : list Z :=
  hmac_sha256_ref key (le_bytes 2 (Z.of_nat (S i)) ++ label ++ data ++ le_bytes 2 (8 * Z.of_nat n)).
Definition kdf_ref (key label data : list Z) (n : nat) : list Z := key_stream (kdf_block key label data n) n.

(** RFC 5246, 5: [A(0)] is label and seed, [A(i)] is HMAC of [A(i-1)]; block [i] is
    HMAC over [A(i + 1)], label and seed. *)
Fixpoint tls_A (secret ls : list Z) (i : nat) : list Z :=
  match i with O => ls | S i => hmac_sha256_ref secret (tls_A secret ls i) end.
Definition tls_block (secret ls : list Z) (i : nat) : list Z :=
  hmac_sha256_ref secret (tls_A secret ls (S i) ++ ls).
Definition P_SHA256 (secret ls : list Z) (n : nat) : list Z := key_stream (tls_block secret ls) n.

Lemma le_bytes_u16 z : le_bytes 2 (u16 z) = le_bytes 2 z.
Proof. apply (le_bytes_mod 2). Qed.
Lemma le_bytes_u64 z : le_bytes 2 (u64 z) = le_bytes 2 z.
Proof.
  rewrite <-le_bytes_u16, <-(le_bytes_u16 z). f_equal. apply Z.mod_mod_divide. by exists (2 ^ 48).
Qed.

Section kdf.
Context (mem tk key : list Z) (Hmem : length mem = 64%nat) (Hkey : bytes_ok key).
Context (label data : list Z) (Hla : bytes_ok label) (Hd : bytes_ok data).

Lemma length_kdf_block n i : length (kdf_block key label data n i) = 32%nat.
Proof.
  apply (hmac_sha256_ref_ok key Hkey). rewrite !bytes_ok_app. split_and!; (done || apply le_bytes_ok).
Qed.

Lemma kdf_hmac n i mac :
  hmac_sha256_vector mem tk key
    [le_bytes 2 (u16 (Z.of_nat (S i))); label; data; le_bytes 2 (u64 (Z.of_nat n * 8))] mac =
  Ret (kdf_block key label data n i).
Proof.
  rewrite hmac_sha256_vector_ref; [|done|done| |simpl; lia].
  - unfold kdf_block. cbn [concat]. rewrite app_nil_r, le_bytes_u16, le_bytes_u64.
    by rewrite (Z.mul_comm (Z.of_nat n)).
  - constructor; [apply le_bytes_ok|]. constructor; [done|]. constructor; [done|].
    constructor; [apply le_bytes_ok|constructor].
Qed.

Lemma sha256_prf_loop_ref hash fuel : ∀ k buf,
  filled (kdf_block key label data (length buf)) k buf → (32 * k ≤ length buf)%nat →
  (length buf < 32 * k + fuel)%nat →
  sha256_prf_loop fuel mem tk hash key label data (u16 (Z.of_nat (S k))) (32 * k) buf =
    Ret (kdf_ref key label data (length buf)).
Proof.
  induction fuel as [|fuel IH]; intros k buf Hk Hl Hf; [lia|]. cbn [sha256_prf_loop].
  pose proof (length_kdf_block (length buf)) as Hb.
  destruct (Nat.ltb_spec (32 * k) (length buf)) as [Hlt|Hge].
  2: { unfold kdf_ref. by rewrite <-(filled_all _ Hb k) by (done || lia). }
  cbv zeta. destruct (Nat.leb_spec 32 (length buf - 32 * k)) as [H32|H32]; rewrite kdf_hmac, run_bind_l.
  - set (buf' := splice buf _ _).
    assert (length buf' = length buf) as Hl' by (unfold buf'; rewrite length_splice; rewrite ?Hb; lia).
    rewrite <-Hl'. replace (32 * k + 32)%nat with (32 * S k)%nat by lia.
    assert (u16 (u16 (Z.of_nat (S k)) + 1) = u16 (Z.of_nat (S (S k)))) as ->.
    { unfold u16. rewrite Z.add_mod_idemp_l by lia. f_equal. lia. }
    apply IH; [rewrite Hl'; apply filled_step; (done || lia)|lia|lia].
  - unfold kdf_ref. by rewrite <-(filled_last _ Hb k) by (done || lia).
Qed.

Lemma tls_A_bytes i : bytes_ok (tls_A key (label ++ data) i).
Proof.
  induction i as [|i IH]; [by apply bytes_ok_app|]. by apply (hmac_sha256_ref_ok key Hkey).
Qed.

Lemma length_tls_block i : length (tls_block key (label ++ data) i) = 32%nat.
Proof.
  apply (hmac_sha256_ref_ok key Hkey). rewrite !bytes_ok_app. split_and!; (done || apply tls_A_bytes).
Qed.

Lemma tls_prf_loop_ref fuel : ∀ k P out,
  filled (tls_block key (label ++ data)) k out → (32 * k ≤ length out)%nat →
  (length out < 32 * k + fuel)%nat →
  tls_prf_loop fuel mem tk key label data (tls_A key (label ++ data) (S k)) P (32 * k) out =
    Ret (P_SHA256 key (label ++ data) (length out)).
Proof.
  pose proof length_tls_block as Hb. pose proof tls_A_bytes as HA.
  induction fuel as [|fuel IH]; intros k P out Hk Hl Hf; [lia|]. cbn [tls_prf_loop].
  destruct (Nat.ltb_spec (32 * k) (length out)) as [Hlt|Hge].
  2: { unfold P_SHA256. by rewrite <-(filled_all _ Hb k) by (done || lia). }
  rewrite hmac_sha256_vector_ref; [|done|done|by repeat (apply Forall_cons; split)|simpl; lia].
  rewrite run_bind_l. unfold hmac_sha256.
  rewrite hmac_sha256_vector_ref; [|done|done|by repeat (apply Forall_cons; split)|simpl; lia].
  rewrite run_bind_l. cbn [concat]. rewrite !app_nil_r. fold (tls_block key (label ++ data) k).
  change (hmac_sha256_ref key (tls_A key (label ++ data) (S k))) with (tls_A key (label ++ data) (S (S k))).
  destruct (Nat.ltb_spec 32 (length out - 32 * k)) as [H32|H32].
  - rewrite take_ge by (rewrite Hb; lia). set (out' := splice out _ _).
    assert (length out' = length out) as Hl' by (unfold out'; rewrite length_splice; rewrite ?Hb; lia).
    rewrite <-Hl'. replace (32 * k + 32)%nat with (32 * S k)%nat by lia.
    apply IH; [apply filled_step; (done || lia)|lia|lia].
  - destruct fuel as [|fuel]; [lia|]. cbn [tls_prf_loop].
    destruct (Nat.ltb_spec (32 * k + (length out - 32 * k)) (length (splice out (32 * k)
      (take (length out - 32 * k) (tls_block key (label ++ data) k))))) as [Hbad|_].
    + rewrite length_splice in Hbad; [lia|]. rewrite length_take, Hb. lia.
    + unfold P_SHA256. by rewrite <-(filled_last _ Hb k) by (done || lia).
Qed.
End kdf.

(** ** Correctness *)

(** [sha256_vector] succeeds and computes FIPS 180-4 SHA-256 of the concatenated
    elements, however the message is cut and whatever the context memory held. *)
Theorem sha256_vector_correct mem elems :
  length mem = 64%nat → Forall bytes_ok elems →
  sha256_vector mem elems = Ret (Some (sha256_ref (concat elems))).
Proof. apply sha256_vector_ref. Qed.

(** [sha256_prf] fills the output buffer with the key derivation function of
    IEEE 802.11r (HMAC-SHA256 over counter, label, context and length, the constants
    of SHA-256 being the roots of the first primes), and [tls_prf_sha256] with the
    P_SHA256 of RFC 5246, for every length and whatever the output buffer and the
    local arrays held. *)
Theorem sha256_prf_correct mem tk hash A P key label data buf :
  length mem = 64%nat → bytes_ok key → bytes_ok label → bytes_ok data →
  sha256_prf mem tk hash key label data buf = Ret (kdf_ref key label data (length buf)) ∧
  tls_prf_sha256 mem tk A P key label data buf = Ret (P_SHA256 key (label ++ data) (length buf)) ∧
  length (kdf_ref key label data (length buf)) = length buf ∧
  length (P_SHA256 key (label ++ data) (length buf)) = length buf.
Proof.
  intros Hmem Hk Hl Hd. split_and!.
  - apply (sha256_prf_loop_ref mem tk key Hmem Hk label data Hl Hd hash (S (length buf)) 0 buf); [done|lia|lia].
  - unfold tls_prf_sha256. rewrite hmac_sha256_vector_ref; [|done|done|by repeat (apply Forall_cons; split)|simpl; lia].
    rewrite run_bind_l. cbn [concat]. rewrite app_nil_r.
    apply (tls_prf_loop_ref mem tk key Hmem Hk label data Hl Hd (S (length buf)) 0 P buf); [done|lia|lia].
  - apply length_kdf_stream. intros i. by apply length_kdf_block.
  - apply length_kdf_stream. intros i. by apply length_tls_block.
Qed.

Lemma sha256_vector_correct_witness :
  sha256_vector (repeat 7 64) [[97]; [98; 99]] = Ret (Some (sha256_ref [97; 98; 99])).
Proof.
  apply (sha256_vector_correct (repeat 7 64) [[97]; [98; 99]]); [reflexivity|repeat constructor; by vm_compute].
Defined.

Lemma sha256_prf_correct_witness :
  sha256_prf (repeat 0 64) [] [] [11] [70; 84] [1; 2] (repeat 9 48) = Ret (kdf_ref [11] [70; 84] [1; 2] 48) ∧
  tls_prf_sha256 (repeat 0 64) [] [] [] [11] [70; 84] [1; 2] (repeat 9 64) = Ret (P_SHA256 [11] [70; 84; 1; 2] 64).
Proof.
  split.
  - exact (proj1 (sha256_prf_correct (repeat 0 64) [] [] [] [] [11] [70; 84] [1; 2] (repeat 9 48)
      eq_refl ltac:(by repeat constructor) ltac:(by repeat constructor) ltac:(by repeat constructor))).
  - exact (proj1 (proj2 (sha256_prf_correct (repeat 0 64) [] [] [] [] [11] [70; 84] [1; 2] (repeat 9 64)
      eq_refl ltac:(by repeat constructor) ltac:(by repeat constructor) ltac:(by repeat constructor)))).
Defined.
