(* ===== verification/Rc4.v ===== *)
(** * RC4 (src/src/crypto/rc4.c)

    [rc4_skip] sets up the permutation [S], discards [skip] bytes of key stream
    and exclusive-ors the rest into the data.  [S] is a list of 256 bytes read
    and swapped at indices below 256. *)

From S2P Require Import Prelude.

(** ** Operations *)

Definition S_SWAP (S : list Z) (a b : Z) : list Z :=
  let t := S !!! Z.to_nat a in
  <[Z.to_nat b := t]> (<[Z.to_nat a := S !!! Z.to_nat b]> S).

Record rc4_state := Rc4 { rc4_i : Z; rc4_j : Z; rc4_S : list Z }.

(** [for (i = 0; i < 256; i++) S[i] = i;] *)
Definition rc4_identity : list Z := Z.of_nat <$> seq 0 256.

(** The key schedule, [n] iterations from [i]; a key byte is read out of bounds
    when the key is empty. *)
Fixpoint rc4_ksa (key : list Z) (n : nat) (i j : Z) (kpos : nat) (S : list Z)
    : run (list Z) :=
  match n with
  | O => Ret S
  | Datatypes.S n =>
      k ← rd key kpos;
      let j := Z.land (j + S !!! Z.to_nat i + k) 0xff in
      let kpos := Datatypes.S kpos in
      let kpos := if bool_decide (length key ≤ kpos)%nat then 0%nat else kpos in
      rc4_ksa key n (i + 1) j kpos (S_SWAP S i j)
  end.

(** One step of the generator: the new state. *)
Definition rc4_step (s : rc4_state) : rc4_state :=
  let i := Z.land (rc4_i s + 1) 0xff in
  let j := Z.land (rc4_j s + rc4_S s !!! Z.to_nat i) 0xff in
  Rc4 i j (S_SWAP (rc4_S s) i j).

Fixpoint rc4_discard (n : nat) (s : rc4_state) : rc4_state :=
  match n with O => s | Datatypes.S n => rc4_discard n (rc4_step s) end.

(** [S[(S[i] + S[j]) & 0xff]] *)
Definition rc4_byte (s : rc4_state) : Z :=
  rc4_S s !!! Z.to_nat (Z.land (rc4_S s !!! Z.to_nat (rc4_i s) +
                                rc4_S s !!! Z.to_nat (rc4_j s)) 0xff).

Fixpoint rc4_apply (s : rc4_state) (data : list Z) : list Z :=
  match data with
  | [] => []
  | b :: data =>
      let s := rc4_step s in
      Z.lxor b (rc4_byte s) :: rc4_apply s data
  end.

Definition rc4_skip (key : list Z) (skip : nat) (data : list Z) : run (list Z) :=
  S ← rc4_ksa key 256 0 0 0 rc4_identity;
  Ret (rc4_apply (rc4_discard skip (Rc4 0 0 S)) data).

Example rc4_vector :
  rc4_skip [0x4b; 0x65; 0x79] 0 [0x50; 0x6c; 0x61; 0x69; 0x6e; 0x74; 0x65; 0x78; 0x74] =
  Ret [0xbb; 0xf3; 0x16; 0xe8; 0xd9; 0x40; 0xaf; 0x0a; 0xd3].
Proof. vm_compute. reflexivity. Qed.

(** ** Lemmas *)

Lemma land_ff z : 0 ≤ Z.land z 0xff < 256.
Proof. change 0xff with (Z.ones 8). rewrite Z.land_ones by lia. apply Z.mod_pos_bound. lia. Qed.

Lemma S_SWAP_perm S a b :
  (Z.to_nat a < length S)%nat → (Z.to_nat b < length S)%nat → S_SWAP S a b ≡ₚ S.
Proof.
  intros Ha Hb. unfold S_SWAP.
  destruct (lookup_lt_is_Some_2 S _ Ha) as [x Hx], (lookup_lt_is_Some_2 S _ Hb) as [y Hy].
  rewrite (list_lookup_total_correct _ _ _ Hx), (list_lookup_total_correct _ _ _ Hy).
  by apply Permutation_insert_swap.
Qed.

(** The generator state: in-range indices and a permutation of the bytes. *)
Record rc4_ok (s : rc4_state) : Prop := {
  rc4_perm : rc4_S s ≡ₚ rc4_identity;
  rc4_i_ok : 0 ≤ rc4_i s < 256;
  rc4_j_ok : 0 ≤ rc4_j s < 256
}.

Lemma perm_length S : S ≡ₚ rc4_identity → length S = 256%nat.
Proof. intros ->. done. Qed.

Lemma perm_byte S i : S ≡ₚ rc4_identity → (i < 256)%nat → is_byte (S !!! i).
Proof.
  intros HS Hi. assert (S !!! i ∈ rc4_identity) as Hin.
  { rewrite <-HS. apply list_elem_of_lookup_total_2. by rewrite (perm_length _ HS). }
  unfold rc4_identity in Hin. apply list_elem_of_fmap in Hin as (n & -> & Hn%elem_of_seq).
  unfold is_byte. lia.
Qed.

Lemma rc4_step_ok s : rc4_ok s → rc4_ok (rc4_step s).
Proof.
  intros [Hp Hi Hj]. split; simpl; [|apply land_ff..].
  rewrite S_SWAP_perm; [done|..]; rewrite (perm_length _ Hp);
    match goal with |- context [Z.land ?z 255] => pose proof (land_ff z) end; lia.
Qed.

Lemma rc4_discard_ok n s : rc4_ok s → rc4_ok (rc4_discard n s).
Proof. revert s. induction n; intros; simpl; auto using rc4_step_ok. Qed.

Lemma rc4_byte_ok s : rc4_ok s → is_byte (rc4_byte s).
Proof.
  intros [Hp _ _]. apply perm_byte; [done|].
  match goal with |- context [Z.land ?z 255] => pose proof (land_ff z) end. lia.
Qed.

Lemma rc4_ksa_ok key n : ∀ i j kpos S,
  key ≠ [] → (kpos < length key)%nat → 0 ≤ i → i + Z.of_nat n ≤ 256 → S ≡ₚ rc4_identity →
  ∃ S', rc4_ksa key n i j kpos S = Ret S' ∧ S' ≡ₚ rc4_identity.
Proof.
  induction n as [|n IH]; intros i j kpos S Hk Hkp Hi Hin HS; [by exists S|].
  cbn [rc4_ksa]. destruct (rd_lt key kpos Hkp) as (k & -> & _). cbn [mbind run_bind].
  apply IH; [done| |lia|lia|].
  - destruct key; [done|]. case_bool_decide; simpl in *; lia.
  - rewrite S_SWAP_perm; [done|..]; rewrite (perm_length _ HS);
      match goal with |- context [Z.land ?z 255] => pose proof (land_ff z) | _ => idtac end; lia.
Qed.

Lemma rc4_setup key : key ≠ [] →
  ∃ S, rc4_ksa key 256 0 0 0 rc4_identity = Ret S ∧ rc4_ok (Rc4 0 0 S).
Proof.
  intros Hk. destruct (rc4_ksa_ok key 256 0 0 0 rc4_identity) as (S & ? & ?);
    [done|destruct key; [done|simpl; lia]|lia|lia|done|].
  exists S. split; [done|]. split; simpl; [done|lia|lia].
Qed.

Lemma rc4_skip_total key skip data : key ≠ [] → ∃ d, rc4_skip key skip data = Ret d.
Proof. intros (S & HS & _)%rc4_setup. unfold rc4_skip. rewrite HS. simpl. eauto. Qed.

(** The key stream of [n] bytes. *)
Fixpoint rc4_stream (n : nat) (s : rc4_state) : list Z :=
  match n with
  | O => []
  | Datatypes.S n => let s := rc4_step s in rc4_byte s :: rc4_stream n s
  end.

Lemma rc4_apply_stream s data :
  rc4_apply s data = zip_with Z.lxor data (rc4_stream (length data) s).
Proof. revert s. induction data; intros; simpl; [done|]. by rewrite IHdata. Qed.

Lemma rc4_apply_discard pre data s :
  rc4_apply (rc4_discard (length pre) s) data = drop (length pre) (rc4_apply s (pre ++ data)).
Proof. revert s. induction pre; intros; simpl; [done|]. apply IHpre. Qed.

Lemma length_rc4_stream n s : length (rc4_stream n s) = n.
Proof. revert s. induction n; intros; simpl; [done|]. by rewrite IHn. Qed.

Lemma rc4_apply_involutive s data : rc4_apply s (rc4_apply s data) = data.
Proof.
  revert s. induction data as [|b data IH]; intros s; simpl; [done|].
  rewrite IH, Z.lxor_assoc, Z.lxor_nilpotent, Z.lxor_0_r. done.
Qed.

Lemma lxor_byte a b : is_byte a → is_byte b → is_byte (Z.lxor a b).
Proof.
  unfold is_byte. intros Ha Hb. split; [apply Z.lxor_nonneg; lia|].
  destruct (Z.eq_dec (Z.lxor a b) 0) as [->|Hnz]; [lia|].
  apply Z.log2_lt_pow2; [pose proof (proj2 (Z.lxor_nonneg a b)); lia|].
  pose proof (Z.log2_lxor a b ltac:(lia) ltac:(lia)).
  assert (Z.log2 a < 8) by (destruct (Z.eq_dec a 0) as [->|]; [done|apply Z.log2_lt_pow2; lia]).
  assert (Z.log2 b < 8) by (destruct (Z.eq_dec b 0) as [->|]; [done|apply Z.log2_lt_pow2; lia]).
  lia.
Qed.

Lemma rc4_apply_ok s data : rc4_ok s → bytes_ok data → bytes_ok (rc4_apply s data).
Proof.
  intros Hs Hd. revert s Hs. induction Hd as [|b data Hb Hd IH]; intros s Hs; constructor.
  - apply lxor_byte; [done|]. by apply rc4_byte_ok, rc4_step_ok.
  - apply IH. by apply rc4_step_ok.
Qed.

(** ** Properties *)

Lemma rc4_skip_bytes key skip data d :
  key ≠ [] → bytes_ok data → rc4_skip key skip data = Ret d →
  bytes_ok d ∧ length d = length data.
Proof.
  intros (S & HS & Hok)%rc4_setup Hd. unfold rc4_skip. rewrite HS. intros [= <-]. split.
  - apply rc4_apply_ok; [by apply rc4_discard_ok|done].
  - rewrite rc4_apply_stream, length_zip_with, length_rc4_stream. lia.
Qed.

(** With a non-empty key, [rc4_skip] never reads outside its arrays, returns
    as many bytes as it was given, and applying it again with the same key and
    skip restores the data. *)
Theorem rc4_skip_roundtrip key skip data :
  key ≠ [] → bytes_ok data →
  ∃ enc, rc4_skip key skip data = Ret enc ∧ length enc = length data ∧ bytes_ok enc ∧
    rc4_skip key skip enc = Ret data.
Proof.
  intros Hk Hd. destruct (rc4_setup key Hk) as (S & HS & Hok). unfold rc4_skip. rewrite HS.
  cbn [mbind run_bind]. eexists. split; [done|]. split_and!.
  - rewrite rc4_apply_stream, length_zip_with_l; [done|]. by rewrite length_rc4_stream.
  - by apply rc4_apply_ok; [apply rc4_discard_ok|].
  - by rewrite rc4_apply_involutive.
Qed.

Lemma rc4_skip_roundtrip_witness :
  ∃ enc, rc4_skip [1; 2; 3] 256 [10; 20; 30] = Ret enc ∧ length enc = 3%nat ∧ bytes_ok enc ∧
    rc4_skip [1; 2; 3] 256 enc = Ret [10; 20; 30].
Proof.
  apply (rc4_skip_roundtrip [1; 2; 3] 256 [10; 20; 30]); [done|].
  repeat constructor; vm_compute; congruence.
Defined.

(** Skipping is the same as encrypting any bytes of the skipped length in
    front of the data and dropping their encryption. *)
Theorem rc4_skip_is_suffix key pre data :
  key ≠ [] →
  ∃ enc, rc4_skip key 0 (pre ++ data) = Ret enc ∧
    rc4_skip key (length pre) data = Ret (drop (length pre) enc).
Proof.
  intros Hk. destruct (rc4_setup key Hk) as (S & HS & Hok). unfold rc4_skip. rewrite HS.
  cbn [mbind run_bind rc4_discard]. eexists. split; [done|]. f_equal.
  apply rc4_apply_discard.
Qed.

Lemma rc4_skip_is_suffix_witness :
  ∃ enc, rc4_skip [1; 2; 3] 0 ([0; 0] ++ [7; 8]) = Ret enc ∧
    rc4_skip [1; 2; 3] 2 [7; 8] = Ret (drop 2 enc).
Proof. apply (rc4_skip_is_suffix [1; 2; 3] [0; 0] [7; 8]). done. Defined.
