(* ===== verification/Aes.v ===== *)
(** * AES-128 and the AES key wrap (src/src/crypto/aes-internal.c, aes-internal-enc.c,
      aes-internal-dec.c, aes-wrap.c, aes-unwrap.c)

    The table implementation with AES_SMALL_TABLES: words of 32 bits, the tables
    Te0, Td0 and Td4s of the source, key schedules as lists of 44 words.
    Decryption uses the equivalent inverse cipher.  The correctness argument works
    on words: the inverse column mixing that the key setup applies to the round
    keys undoes a round, by facts about the tables that are checked for all
    bytes by evaluation. *)

From S2P Require Import Prelude.

(** ** Tables *)

Definition Te0 : list Z :=
  [0xc66363a5; 0xf87c7c84; 0xee777799; 0xf67b7b8d; 0xfff2f20d; 0xd66b6bbd; 0xde6f6fb1; 0x91c5c554;
   0x60303050; 0x02010103; 0xce6767a9; 0x562b2b7d; 0xe7fefe19; 0xb5d7d762; 0x4dababe6; 0xec76769a;
   0x8fcaca45; 0x1f82829d; 0x89c9c940; 0xfa7d7d87; 0xeffafa15; 0xb25959eb; 0x8e4747c9; 0xfbf0f00b;
   0x41adadec; 0xb3d4d467; 0x5fa2a2fd; 0x45afafea; 0x239c9cbf; 0x53a4a4f7; 0xe4727296; 0x9bc0c05b;
   0x75b7b7c2; 0xe1fdfd1c; 0x3d9393ae; 0x4c26266a; 0x6c36365a; 0x7e3f3f41; 0xf5f7f702; 0x83cccc4f;
   0x6834345c; 0x51a5a5f4; 0xd1e5e534; 0xf9f1f108; 0xe2717193; 0xabd8d873; 0x62313153; 0x2a15153f;
   0x0804040c; 0x95c7c752; 0x46232365; 0x9dc3c35e; 0x30181828; 0x379696a1; 0x0a05050f; 0x2f9a9ab5;
   0x0e070709; 0x24121236; 0x1b80809b; 0xdfe2e23d; 0xcdebeb26; 0x4e272769; 0x7fb2b2cd; 0xea75759f;
   0x1209091b; 0x1d83839e; 0x582c2c74; 0x341a1a2e; 0x361b1b2d; 0xdc6e6eb2; 0xb45a5aee; 0x5ba0a0fb;
   0xa45252f6; 0x763b3b4d; 0xb7d6d661; 0x7db3b3ce; 0x5229297b; 0xdde3e33e; 0x5e2f2f71; 0x13848497;
   0xa65353f5; 0xb9d1d168; 0x00000000; 0xc1eded2c; 0x40202060; 0xe3fcfc1f; 0x79b1b1c8; 0xb65b5bed;
   0xd46a6abe; 0x8dcbcb46; 0x67bebed9; 0x7239394b; 0x944a4ade; 0x984c4cd4; 0xb05858e8; 0x85cfcf4a;
   0xbbd0d06b; 0xc5efef2a; 0x4faaaae5; 0xedfbfb16; 0x864343c5; 0x9a4d4dd7; 0x66333355; 0x11858594;
   0x8a4545cf; 0xe9f9f910; 0x04020206; 0xfe7f7f81; 0xa05050f0; 0x783c3c44; 0x259f9fba; 0x4ba8a8e3;
   0xa25151f3; 0x5da3a3fe; 0x804040c0; 0x058f8f8a; 0x3f9292ad; 0x219d9dbc; 0x70383848; 0xf1f5f504;
   0x63bcbcdf; 0x77b6b6c1; 0xafdada75; 0x42212163; 0x20101030; 0xe5ffff1a; 0xfdf3f30e; 0xbfd2d26d;
   0x81cdcd4c; 0x180c0c14; 0x26131335; 0xc3ecec2f; 0xbe5f5fe1; 0x359797a2; 0x884444cc; 0x2e171739;
   0x93c4c457; 0x55a7a7f2; 0xfc7e7e82; 0x7a3d3d47; 0xc86464ac; 0xba5d5de7; 0x3219192b; 0xe6737395;
   0xc06060a0; 0x19818198; 0x9e4f4fd1; 0xa3dcdc7f; 0x44222266; 0x542a2a7e; 0x3b9090ab; 0x0b888883;
   0x8c4646ca; 0xc7eeee29; 0x6bb8b8d3; 0x2814143c; 0xa7dede79; 0xbc5e5ee2; 0x160b0b1d; 0xaddbdb76;
   0xdbe0e03b; 0x64323256; 0x743a3a4e; 0x140a0a1e; 0x924949db; 0x0c06060a; 0x4824246c; 0xb85c5ce4;
   0x9fc2c25d; 0xbdd3d36e; 0x43acacef; 0xc46262a6; 0x399191a8; 0x319595a4; 0xd3e4e437; 0xf279798b;
   0xd5e7e732; 0x8bc8c843; 0x6e373759; 0xda6d6db7; 0x018d8d8c; 0xb1d5d564; 0x9c4e4ed2; 0x49a9a9e0;
   0xd86c6cb4; 0xac5656fa; 0xf3f4f407; 0xcfeaea25; 0xca6565af; 0xf47a7a8e; 0x47aeaee9; 0x10080818;
   0x6fbabad5; 0xf0787888; 0x4a25256f; 0x5c2e2e72; 0x381c1c24; 0x57a6a6f1; 0x73b4b4c7; 0x97c6c651;
   0xcbe8e823; 0xa1dddd7c; 0xe874749c; 0x3e1f1f21; 0x964b4bdd; 0x61bdbddc; 0x0d8b8b86; 0x0f8a8a85;
   0xe0707090; 0x7c3e3e42; 0x71b5b5c4; 0xcc6666aa; 0x904848d8; 0x06030305; 0xf7f6f601; 0x1c0e0e12;
   0xc26161a3; 0x6a35355f; 0xae5757f9; 0x69b9b9d0; 0x17868691; 0x99c1c158; 0x3a1d1d27; 0x279e9eb9;
   0xd9e1e138; 0xebf8f813; 0x2b9898b3; 0x22111133; 0xd26969bb; 0xa9d9d970; 0x078e8e89; 0x339494a7;
   0x2d9b9bb6; 0x3c1e1e22; 0x15878792; 0xc9e9e920; 0x87cece49; 0xaa5555ff; 0x50282878; 0xa5dfdf7a;
   0x038c8c8f; 0x59a1a1f8; 0x09898980; 0x1a0d0d17; 0x65bfbfda; 0xd7e6e631; 0x844242c6; 0xd06868b8;
   0x824141c3; 0x299999b0; 0x5a2d2d77; 0x1e0f0f11; 0x7bb0b0cb; 0xa85454fc; 0x6dbbbbd6; 0x2c16163a].

Definition Td0 : list Z :=
  [0x51f4a750; 0x7e416553; 0x1a17a4c3; 0x3a275e96; 0x3bab6bcb; 0x1f9d45f1; 0xacfa58ab; 0x4be30393;
   0x2030fa55; 0xad766df6; 0x88cc7691; 0xf5024c25; 0x4fe5d7fc; 0xc52acbd7; 0x26354480; 0xb562a38f;
   0xdeb15a49; 0x25ba1b67; 0x45ea0e98; 0x5dfec0e1; 0xc32f7502; 0x814cf012; 0x8d4697a3; 0x6bd3f9c6;
   0x038f5fe7; 0x15929c95; 0xbf6d7aeb; 0x955259da; 0xd4be832d; 0x587421d3; 0x49e06929; 0x8ec9c844;
   0x75c2896a; 0xf48e7978; 0x99583e6b; 0x27b971dd; 0xbee14fb6; 0xf088ad17; 0xc920ac66; 0x7dce3ab4;
   0x63df4a18; 0xe51a3182; 0x97513360; 0x62537f45; 0xb16477e0; 0xbb6bae84; 0xfe81a01c; 0xf9082b94;
   0x70486858; 0x8f45fd19; 0x94de6c87; 0x527bf8b7; 0xab73d323; 0x724b02e2; 0xe31f8f57; 0x6655ab2a;
   0xb2eb2807; 0x2fb5c203; 0x86c57b9a; 0xd33708a5; 0x302887f2; 0x23bfa5b2; 0x02036aba; 0xed16825c;
   0x8acf1c2b; 0xa779b492; 0xf307f2f0; 0x4e69e2a1; 0x65daf4cd; 0x0605bed5; 0xd134621f; 0xc4a6fe8a;
   0x342e539d; 0xa2f355a0; 0x058ae132; 0xa4f6eb75; 0x0b83ec39; 0x4060efaa; 0x5e719f06; 0xbd6e1051;
   0x3e218af9; 0x96dd063d; 0xdd3e05ae; 0x4de6bd46; 0x91548db5; 0x71c45d05; 0x0406d46f; 0x605015ff;
   0x1998fb24; 0xd6bde997; 0x894043cc; 0x67d99e77; 0xb0e842bd; 0x07898b88; 0xe7195b38; 0x79c8eedb;
   0xa17c0a47; 0x7c420fe9; 0xf8841ec9; 0x00000000; 0x09808683; 0x322bed48; 0x1e1170ac; 0x6c5a724e;
   0xfd0efffb; 0x0f853856; 0x3daed51e; 0x362d3927; 0x0a0fd964; 0x685ca621; 0x9b5b54d1; 0x24362e3a;
   0x0c0a67b1; 0x9357e70f; 0xb4ee96d2; 0x1b9b919e; 0x80c0c54f; 0x61dc20a2; 0x5a774b69; 0x1c121a16;
   0xe293ba0a; 0xc0a02ae5; 0x3c22e043; 0x121b171d; 0x0e090d0b; 0xf28bc7ad; 0x2db6a8b9; 0x141ea9c8;
   0x57f11985; 0xaf75074c; 0xee99ddbb; 0xa37f60fd; 0xf701269f; 0x5c72f5bc; 0x44663bc5; 0x5bfb7e34;
   0x8b432976; 0xcb23c6dc; 0xb6edfc68; 0xb8e4f163; 0xd731dcca; 0x42638510; 0x13972240; 0x84c61120;
   0x854a247d; 0xd2bb3df8; 0xaef93211; 0xc729a16d; 0x1d9e2f4b; 0xdcb230f3; 0x0d8652ec; 0x77c1e3d0;
   0x2bb3166c; 0xa970b999; 0x119448fa; 0x47e96422; 0xa8fc8cc4; 0xa0f03f1a; 0x567d2cd8; 0x223390ef;
   0x87494ec7; 0xd938d1c1; 0x8ccaa2fe; 0x98d40b36; 0xa6f581cf; 0xa57ade28; 0xdab78e26; 0x3fadbfa4;
   0x2c3a9de4; 0x5078920d; 0x6a5fcc9b; 0x547e4662; 0xf68d13c2; 0x90d8b8e8; 0x2e39f75e; 0x82c3aff5;
   0x9f5d80be; 0x69d0937c; 0x6fd52da9; 0xcf2512b3; 0xc8ac993b; 0x10187da7; 0xe89c636e; 0xdb3bbb7b;
   0xcd267809; 0x6e5918f4; 0xec9ab701; 0x834f9aa8; 0xe6956e65; 0xaaffe67e; 0x21bccf08; 0xef15e8e6;
   0xbae79bd9; 0x4a6f36ce; 0xea9f09d4; 0x29b07cd6; 0x31a4b2af; 0x2a3f2331; 0xc6a59430; 0x35a266c0;
   0x744ebc37; 0xfc82caa6; 0xe090d0b0; 0x33a7d815; 0xf104984a; 0x41ecdaf7; 0x7fcd500e; 0x1791f62f;
   0x764dd68d; 0x43efb04d; 0xccaa4d54; 0xe49604df; 0x9ed1b5e3; 0x4c6a881b; 0xc12c1fb8; 0x4665517f;
   0x9d5eea04; 0x018c355d; 0xfa877473; 0xfb0b412e; 0xb3671d5a; 0x92dbd252; 0xe9105633; 0x6dd64713;
   0x9ad7618c; 0x37a10c7a; 0x59f8148e; 0xeb133c89; 0xcea927ee; 0xb761c935; 0xe11ce5ed; 0x7a47b13c;
   0x9cd2df59; 0x55f2733f; 0x1814ce79; 0x73c737bf; 0x53f7cdea; 0x5ffdaa5b; 0xdf3d6f14; 0x7844db86;
   0xcaaff381; 0xb968c43e; 0x3824342c; 0xc2a3405f; 0x161dc372; 0xbce2250c; 0x283c498b; 0xff0d9541;
   0x39a80171; 0x080cb3de; 0xd8b4e49c; 0x6456c190; 0x7bcb8461; 0xd532b670; 0x486c5c74; 0xd0b85742].

Definition Td4s : list Z :=
  [0x52; 0x09; 0x6a; 0xd5; 0x30; 0x36; 0xa5; 0x38; 0xbf; 0x40; 0xa3; 0x9e; 0x81; 0xf3; 0xd7; 0xfb;
   0x7c; 0xe3; 0x39; 0x82; 0x9b; 0x2f; 0xff; 0x87; 0x34; 0x8e; 0x43; 0x44; 0xc4; 0xde; 0xe9; 0xcb;
   0x54; 0x7b; 0x94; 0x32; 0xa6; 0xc2; 0x23; 0x3d; 0xee; 0x4c; 0x95; 0x0b; 0x42; 0xfa; 0xc3; 0x4e;
   0x08; 0x2e; 0xa1; 0x66; 0x28; 0xd9; 0x24; 0xb2; 0x76; 0x5b; 0xa2; 0x49; 0x6d; 0x8b; 0xd1; 0x25;
   0x72; 0xf8; 0xf6; 0x64; 0x86; 0x68; 0x98; 0x16; 0xd4; 0xa4; 0x5c; 0xcc; 0x5d; 0x65; 0xb6; 0x92;
   0x6c; 0x70; 0x48; 0x50; 0xfd; 0xed; 0xb9; 0xda; 0x5e; 0x15; 0x46; 0x57; 0xa7; 0x8d; 0x9d; 0x84;
   0x90; 0xd8; 0xab; 0x00; 0x8c; 0xbc; 0xd3; 0x0a; 0xf7; 0xe4; 0x58; 0x05; 0xb8; 0xb3; 0x45; 0x06;
   0xd0; 0x2c; 0x1e; 0x8f; 0xca; 0x3f; 0x0f; 0x02; 0xc1; 0xaf; 0xbd; 0x03; 0x01; 0x13; 0x8a; 0x6b;
   0x3a; 0x91; 0x11; 0x41; 0x4f; 0x67; 0xdc; 0xea; 0x97; 0xf2; 0xcf; 0xce; 0xf0; 0xb4; 0xe6; 0x73;
   0x96; 0xac; 0x74; 0x22; 0xe7; 0xad; 0x35; 0x85; 0xe2; 0xf9; 0x37; 0xe8; 0x1c; 0x75; 0xdf; 0x6e;
   0x47; 0xf1; 0x1a; 0x71; 0x1d; 0x29; 0xc5; 0x89; 0x6f; 0xb7; 0x62; 0x0e; 0xaa; 0x18; 0xbe; 0x1b;
   0xfc; 0x56; 0x3e; 0x4b; 0xc6; 0xd2; 0x79; 0x20; 0x9a; 0xdb; 0xc0; 0xfe; 0x78; 0xcd; 0x5a; 0xf4;
   0x1f; 0xdd; 0xa8; 0x33; 0x88; 0x07; 0xc7; 0x31; 0xb1; 0x12; 0x10; 0x59; 0x27; 0x80; 0xec; 0x5f;
   0x60; 0x51; 0x7f; 0xa9; 0x19; 0xb5; 0x4a; 0x0d; 0x2d; 0xe5; 0x7a; 0x9f; 0x93; 0xc9; 0x9c; 0xef;
   0xa0; 0xe0; 0x3b; 0x4d; 0xae; 0x2a; 0xf5; 0xb0; 0xc8; 0xeb; 0xbb; 0x3c; 0x83; 0x53; 0x99; 0x61;
   0x17; 0x2b; 0x04; 0x7e; 0xba; 0x77; 0xd6; 0x26; 0xe1; 0x69; 0x14; 0x63; 0x55; 0x21; 0x0c; 0x7d].

Definition rcons : list Z := [0x01; 0x02; 0x04; 0x08; 0x10; 0x20; 0x40; 0x80; 0x1B; 0x36].

(** ** Table lookups *)

(** [((w) >> 24) & 0xff] and so on. *)
Definition byte3 (w : Z) : Z := Z.land (Z.shiftr w 24) 0xff.
Definition byte2 (w : Z) : Z := Z.land (Z.shiftr w 16) 0xff.
Definition byte1 (w : Z) : Z := Z.land (Z.shiftr w 8) 0xff.
Definition byte0 (w : Z) : Z := Z.land w 0xff.

(** [t[i]] for a byte [i]. *)
Definition tbl (t : list Z) (i : Z) : Z := t !!! Z.to_nat i.

Definition rotr (val bits : Z) : Z :=
  Z.lor (Z.shiftr val bits) (u32 (Z.shiftl val (32 - bits))).

Definition RCON (i : nat) : Z := Z.shiftl (rcons !!! i) 24.

Definition TE0 (i : Z) : Z := tbl Te0 (byte3 i).
Definition TE1 (i : Z) : Z := rotr (tbl Te0 (byte2 i)) 8.
Definition TE2 (i : Z) : Z := rotr (tbl Te0 (byte1 i)) 16.
Definition TE3 (i : Z) : Z := rotr (tbl Te0 (byte0 i)) 24.
Definition TE41 (i : Z) : Z := Z.land (u32 (Z.shiftl (tbl Te0 (byte3 i)) 8)) 0xff000000.
Definition TE42 (i : Z) : Z := Z.land (tbl Te0 (byte2 i)) 0x00ff0000.
Definition TE43 (i : Z) : Z := Z.land (tbl Te0 (byte1 i)) 0x0000ff00.
Definition TE44 (i : Z) : Z := Z.land (Z.shiftr (tbl Te0 (byte0 i)) 8) 0x000000ff.
Definition TE421 (i : Z) : Z := Z.land (u32 (Z.shiftl (tbl Te0 (byte2 i)) 8)) 0xff000000.
Definition TE432 (i : Z) : Z := Z.land (tbl Te0 (byte1 i)) 0x00ff0000.
Definition TE443 (i : Z) : Z := Z.land (tbl Te0 (byte0 i)) 0x0000ff00.
Definition TE414 (i : Z) : Z := Z.land (Z.shiftr (tbl Te0 (byte3 i)) 8) 0x000000ff.
Definition TE4 (i : Z) : Z := Z.land (Z.shiftr (tbl Te0 i) 8) 0x000000ff.

Definition TD0 (i : Z) : Z := tbl Td0 (byte3 i).
Definition TD1 (i : Z) : Z := rotr (tbl Td0 (byte2 i)) 8.
Definition TD2 (i : Z) : Z := rotr (tbl Td0 (byte1 i)) 16.
Definition TD3 (i : Z) : Z := rotr (tbl Td0 (byte0 i)) 24.
Definition TD41 (i : Z) : Z := Z.shiftl (tbl Td4s (byte3 i)) 24.
Definition TD42 (i : Z) : Z := Z.shiftl (tbl Td4s (byte2 i)) 16.
Definition TD43 (i : Z) : Z := Z.shiftl (tbl Td4s (byte1 i)) 8.
Definition TD44 (i : Z) : Z := tbl Td4s (byte0 i).
Definition TD0_ (i : Z) : Z := tbl Td0 (byte0 i).
Definition TD1_ (i : Z) : Z := rotr (tbl Td0 (byte0 i)) 8.
Definition TD2_ (i : Z) : Z := rotr (tbl Td0 (byte0 i)) 16.
Definition TD3_ (i : Z) : Z := rotr (tbl Td0 (byte0 i)) 24.

Definition xor4 (a b c d : Z) : Z := Z.lxor (Z.lxor (Z.lxor a b) c) d.
Definition xor5 (a b c d e : Z) : Z := Z.lxor (xor4 a b c d) e.

Definition GETU32 (pt : list Z) (off : nat) : Z :=
  xor4 (Z.shiftl (pt !!! off) 24) (Z.shiftl (pt !!! (off + 1)%nat) 16)
       (Z.shiftl (pt !!! (off + 2)%nat) 8) (pt !!! (off + 3)%nat).
Definition PUTU32 (st : Z) : list Z :=
  [u8 (Z.shiftr st 24); u8 (Z.shiftr st 16); u8 (Z.shiftr st 8); u8 st].

(** ** Key schedules *)

(** One iteration of the key expansion; [rk] has the words computed so far. *)
Definition expand_round (rk : list Z) (i : nat) : list Z :=
  let at_ k := rk !!! (4 * i + k)%nat in
  let temp := at_ 3%nat in
  let rk4 := Z.lxor (xor5 (at_ 0%nat) (TE421 temp) (TE432 temp) (TE443 temp) (TE414 temp)) (RCON i) in
  let rk5 := Z.lxor (at_ 1%nat) rk4 in
  let rk6 := Z.lxor (at_ 2%nat) rk5 in
  let rk7 := Z.lxor (at_ 3%nat) rk6 in
  rk ++ [rk4; rk5; rk6; rk7].

Definition rijndaelKeySetupEnc (cipherKey : list Z) : list Z :=
  foldl expand_round
    [GETU32 cipherKey 0; GETU32 cipherKey 4; GETU32 cipherKey 8; GETU32 cipherKey 12] (seq 0 10).

(** Swap of the round keys at [i] and [j]. *)
Definition swap_words (i j : nat) (rk : list Z) (k : nat) : list Z :=
  let temp := rk !!! (i + k)%nat in
  <[(j + k)%nat := temp]> (<[(i + k)%nat := rk !!! (j + k)%nat]> rk).
Fixpoint invert_order (fuel i j : nat) (rk : list Z) : list Z :=
  match fuel with
  | O => rk
  | S fuel =>
      if (i <? j)%nat then invert_order fuel (i + 4) (j - 4) (foldl (swap_words i j) rk (seq 0 4))
      else rk
  end.

(** The inverse MixColumn transform of a round key word. *)
Definition inv_mix (w : Z) : Z :=
  xor4 (TD0_ (TE4 (Z.shiftr w 24))) (TD1_ (TE4 (Z.land (Z.shiftr w 16) 0xff)))
       (TD2_ (TE4 (Z.land (Z.shiftr w 8) 0xff))) (TD3_ (TE4 (Z.land w 0xff))).

(** The round keys of decryption from those of encryption. *)
Definition dec_keys (rk : list Z) : list Z :=
  let rk := invert_order 11 0 40 rk in
  foldl (λ rk i, foldl (λ rk j, <[(4 * i + j)%nat := inv_mix (rk !!! (4 * i + j)%nat)]> rk) rk (seq 0 4))
    rk (seq 1 9).
Definition rijndaelKeySetupDec (cipherKey : list Z) : list Z :=
  dec_keys (rijndaelKeySetupEnc cipherKey).

(** ** Blocks *)

Definition state : Type := Z * Z * Z * Z.

(** [ROUND] of encryption with the round key at [off]. *)
Definition enc_round (rk : list Z) (off : nat) (s : state) : state :=
  let '(s0, s1, s2, s3) := s in
  (xor5 (TE0 s0) (TE1 s1) (TE2 s2) (TE3 s3) (rk !!! off),
   xor5 (TE0 s1) (TE1 s2) (TE2 s3) (TE3 s0) (rk !!! (off + 1)%nat),
   xor5 (TE0 s2) (TE1 s3) (TE2 s0) (TE3 s1) (rk !!! (off + 2)%nat),
   xor5 (TE0 s3) (TE1 s0) (TE2 s1) (TE3 s2) (rk !!! (off + 3)%nat)).

(** The loop over pairs of rounds: the state and the offset of the key pointer. *)
Fixpoint enc_loop (r : nat) (rk : list Z) (off : nat) (s : state) : state * nat :=
  let t := enc_round rk (off + 4) s in
  let off := (off + 8)%nat in
  match r with
  | O | S O => (t, off)
  | S r => enc_loop r rk off (enc_round rk off t)
  end.

Definition enc_last (rk : list Z) (off : nat) (t : state) : state :=
  let '(t0, t1, t2, t3) := t in
  (xor5 (TE41 t0) (TE42 t1) (TE43 t2) (TE44 t3) (rk !!! off),
   xor5 (TE41 t1) (TE42 t2) (TE43 t3) (TE44 t0) (rk !!! (off + 1)%nat),
   xor5 (TE41 t2) (TE42 t3) (TE43 t0) (TE44 t1) (rk !!! (off + 2)%nat),
   xor5 (TE41 t3) (TE42 t0) (TE43 t1) (TE44 t2) (rk !!! (off + 3)%nat)).

(** The first round key added to the block. *)
Definition load_block (rk : list Z) (pt : list Z) : state :=
  (Z.lxor (GETU32 pt 0) (rk !!! 0%nat), Z.lxor (GETU32 pt 4) (rk !!! 1%nat),
   Z.lxor (GETU32 pt 8) (rk !!! 2%nat), Z.lxor (GETU32 pt 12) (rk !!! 3%nat)).
Definition store_block (s : state) : list Z :=
  let '(s0, s1, s2, s3) := s in PUTU32 s0 ++ PUTU32 s1 ++ PUTU32 s2 ++ PUTU32 s3.

Definition rijndaelEncrypt (rk : list Z) (pt : list Z) : list Z :=
  let '(t, off) := enc_loop 5 rk 0 (load_block rk pt) in
  store_block (enc_last rk off t).

Definition dec_round (rk : list Z) (off : nat) (s : state) : state :=
  let '(s0, s1, s2, s3) := s in
  (xor5 (TD0 s0) (TD1 s3) (TD2 s2) (TD3 s1) (rk !!! off),
   xor5 (TD0 s1) (TD1 s0) (TD2 s3) (TD3 s2) (rk !!! (off + 1)%nat),
   xor5 (TD0 s2) (TD1 s1) (TD2 s0) (TD3 s3) (rk !!! (off + 2)%nat),
   xor5 (TD0 s3) (TD1 s2) (TD2 s1) (TD3 s0) (rk !!! (off + 3)%nat)).

Fixpoint dec_loop (r : nat) (rk : list Z) (off : nat) (s : state) : state * nat :=
  let t := dec_round rk (off + 4) s in
  let off := (off + 8)%nat in
  match r with
  | O | S O => (t, off)
  | S r => dec_loop r rk off (dec_round rk off t)
  end.

Definition dec_last (rk : list Z) (off : nat) (t : state) : state :=
  let '(t0, t1, t2, t3) := t in
  (xor5 (TD41 t0) (TD42 t3) (TD43 t2) (TD44 t1) (rk !!! off),
   xor5 (TD41 t1) (TD42 t0) (TD43 t3) (TD44 t2) (rk !!! (off + 1)%nat),
   xor5 (TD41 t2) (TD42 t1) (TD43 t0) (TD44 t3) (rk !!! (off + 2)%nat),
   xor5 (TD41 t3) (TD42 t2) (TD43 t1) (TD44 t0) (rk !!! (off + 3)%nat)).

Definition rijndaelDecrypt (rk : list Z) (ct : list Z) : list Z :=
  let '(t, off) := dec_loop 5 rk 0 (load_block rk ct) in
  store_block (dec_last rk off t).

(** [malloc_ok]: whether the key schedule can be allocated. *)
Definition aes_encrypt_init (malloc_ok : bool) (key : list Z) : option (list Z) :=
  if negb (bool_decide (length key = 16%nat)) then None
  else if malloc_ok then Some (rijndaelKeySetupEnc key) else None.
Definition aes_encrypt (ctx plain : list Z) : list Z := rijndaelEncrypt ctx plain.
Definition aes_decrypt_init (malloc_ok : bool) (key : list Z) : option (list Z) :=
  if negb (bool_decide (length key = 16%nat)) then None
  else if malloc_ok then Some (rijndaelKeySetupDec key) else None.
Definition aes_decrypt (ctx crypt : list Z) : list Z := rijndaelDecrypt ctx crypt.

(** ** Key wrap

    The output buffers are arguments: [cipher] holds [a] in its first eight
    bytes and the registers after it, [plain] the registers.  [n] is the number of
    64-bit units. *)

(** [x[7] ^= t] *)
Definition xor_at7 (x : list Z) (t : nat) : list Z := <[7%nat := u8 (Z.lxor (x !!! 7%nat) (Z.of_nat t))]> x.

Definition wrap_step (ctx : list Z) (n j : nat) (cipher : list Z) (i : nat) : list Z :=
  let b := take 8 cipher ++ take 8 (drop (8 * i) cipher) in
  let b := aes_encrypt ctx b in
  let cipher := splice cipher 0 (take 8 b) in
  let cipher := xor_at7 cipher (n * j + i) in
  splice cipher (8 * i) (drop 8 b).

Definition aes_wrap (malloc_ok : bool) (kek : list Z) (n : nat) (plain cipher : list Z)
  : run (Z * list Z) :=
  p ← rdn plain 0 (8 * n);
  if (length cipher <? 8 + 8 * n)%nat then UB OutOfBounds else
  let cipher := splice cipher 0 (repeat 0xa6 8) in
  let cipher := splice cipher 8 p in
  k ← rdn kek 0 16;
  match aes_encrypt_init malloc_ok k with
  | None => Ret (-1, cipher)
  | Some ctx => Ret (0, foldl (λ c j, foldl (wrap_step ctx n j) c (seq 1 n)) cipher (seq 0 6))
  end.

(** [a] and the output buffer; [i] goes from [n] down to 1. *)
Definition unwrap_step (ctx : list Z) (n j : nat) (s : list Z * list Z) (i : nat)
  : list Z * list Z :=
  let '(a, plain) := s in
  let b := xor_at7 a (n * j + i) ++ take 8 (drop (8 * (i - 1)) plain) in
  let b := aes_decrypt ctx b in
  (take 8 b, splice plain (8 * (i - 1)) (drop 8 b)).

Definition aes_unwrap (malloc_ok : bool) (kek : list Z) (n : nat) (cipher plain : list Z)
  : run (Z * list Z) :=
  a ← rdn cipher 0 8;
  r ← rdn cipher 8 (8 * n);
  if (length plain <? 8 * n)%nat then UB OutOfBounds else
  let plain := splice plain 0 r in
  k ← rdn kek 0 16;
  match aes_decrypt_init malloc_ok k with
  | None => Ret (-1, plain)
  | Some ctx =>
      let '(a, plain) :=
        foldl (λ s j, foldl (unwrap_step ctx n j) s (rev (seq 1 n))) (a, plain) (rev (seq 0 6)) in
      if forallb (λ x, x =? 0xa6) a then Ret (0, plain) else Ret (-1, plain)
  end.

(** RFC 3394, section 4.1. *)
Example aes_wrap_rfc3394 :
  aes_wrap true (map Z.of_nat (seq 0 16)) 2
    [0x00; 0x11; 0x22; 0x33; 0x44; 0x55; 0x66; 0x77; 0x88; 0x99; 0xaa; 0xbb; 0xcc; 0xdd; 0xee; 0xff]
    (repeat 0 24) =
  Ret (0, [0x1f; 0xa6; 0x8b; 0x0a; 0x81; 0x12; 0xb4; 0x47; 0xae; 0xf3; 0x4b; 0xd8; 0xfb; 0x5a; 0x7b;
           0x82; 0x9d; 0x3e; 0x86; 0x23; 0x71; 0xd2; 0xcf; 0xe5]).
Proof. vm_compute. reflexivity. Qed.

(** FIPS 197, appendix B. *)
Example aes_fips197 :
  rijndaelEncrypt
    (rijndaelKeySetupEnc [0x2b; 0x7e; 0x15; 0x16; 0x28; 0xae; 0xd2; 0xa6; 0xab; 0xf7; 0x15; 0x88;
                          0x09; 0xcf; 0x4f; 0x3c])
    [0x32; 0x43; 0xf6; 0xa8; 0x88; 0x5a; 0x30; 0x8d; 0x31; 0x31; 0x98; 0xa2; 0xe0; 0x37; 0x07; 0x34] =
  [0x39; 0x25; 0x84; 0x1d; 0x02; 0xdc; 0x09; 0xfb; 0xdc; 0x11; 0x85; 0x97; 0x19; 0x6a; 0x0b; 0x32].
Proof. vm_compute. reflexivity. Qed.

Example aes_fips197_inverse :
  rijndaelDecrypt
    (rijndaelKeySetupDec [0x2b; 0x7e; 0x15; 0x16; 0x28; 0xae; 0xd2; 0xa6; 0xab; 0xf7; 0x15; 0x88;
                          0x09; 0xcf; 0x4f; 0x3c])
    [0x39; 0x25; 0x84; 0x1d; 0x02; 0xdc; 0x09; 0xfb; 0xdc; 0x11; 0x85; 0x97; 0x19; 0x6a; 0x0b; 0x32] =
  [0x32; 0x43; 0xf6; 0xa8; 0x88; 0x5a; 0x30; 0x8d; 0x31; 0x31; 0x98; 0xa2; 0xe0; 0x37; 0x07; 0x34].
Proof. vm_compute. reflexivity. Qed.

(** ** Words as xor-combinations of their bytes *)

Lemma all_bytes (P : Z → bool) :
  forallb (λ n, P (Z.of_nat n)) (seq 0 256) = true → ∀ x, is_byte x → P x = true.
Proof.
  intros H x Hx. rewrite forallb_forall in H. unfold is_byte in Hx.
  rewrite <- (Z2Nat.id x) by lia. apply H. apply in_seq. lia.
Qed.

Lemma all_bytes_u32 (f : Z → Z) :
  forallb (λ n, (0 <=? f (Z.of_nat n)) && (f (Z.of_nat n) <? 2 ^ 32)) (seq 0 256) = true →
  ∀ x, is_byte x → is_u32 (f x).
Proof.
  intros H x Hx. pose proof (all_bytes (λ x, (0 <=? f x) && (f x <? 2 ^ 32)) H x Hx) as Hr.
  cbv beta in Hr. unfold is_u32. lia.
Qed.

(** A table fact [f x = g x] about every byte, by evaluation. *)
Ltac table_fact x H f g :=
  apply Z.eqb_eq; revert x H; apply (all_bytes (λ x, f x =? g x)); vm_compute; reflexivity.

Lemma lxor_range n a b : 0 ≤ n → 0 ≤ a < 2 ^ n → 0 ≤ b < 2 ^ n → 0 ≤ Z.lxor a b < 2 ^ n.
Proof.
  intros Hn Ha Hb. split; [apply Z.lxor_nonneg; lia|].
  destruct (decide (Z.lxor a b = 0)) as [->|Hz]; [apply Z.pow_pos_nonneg; lia|].
  apply Z.log2_lt_pow2; [pose proof (proj2 (Z.lxor_nonneg a b)); lia|].
  destruct (decide (Z.log2 (Z.lxor a b) < n)) as [|Hl]; [done|].
  pose proof (Z.bit_log2 (Z.lxor a b) ltac:(pose proof (proj2 (Z.lxor_nonneg a b)); lia)) as Hbit.
  rewrite Z.lxor_spec, (testbit_small a n), (testbit_small b n) in Hbit by lia. done.
Qed.
Lemma lxor_is_byte a b : is_byte a → is_byte b → is_byte (Z.lxor a b).
Proof. intros. apply lxor_range; [lia|done..]. Qed.

Lemma byte3_lxor a b : byte3 (Z.lxor a b) = Z.lxor (byte3 a) (byte3 b).
Proof. unfold byte3. by rewrite Z.shiftr_lxor, land_lxor. Qed.
Lemma byte2_lxor a b : byte2 (Z.lxor a b) = Z.lxor (byte2 a) (byte2 b).
Proof. unfold byte2. by rewrite Z.shiftr_lxor, land_lxor. Qed.
Lemma byte1_lxor a b : byte1 (Z.lxor a b) = Z.lxor (byte1 a) (byte1 b).
Proof. unfold byte1. by rewrite Z.shiftr_lxor, land_lxor. Qed.
Lemma byte0_lxor a b : byte0 (Z.lxor a b) = Z.lxor (byte0 a) (byte0 b).
Proof. apply land_lxor. Qed.

Lemma land_255 x : Z.land x 255 = x mod 2 ^ 8.
Proof. by rewrite <- (Z.land_ones x 8). Qed.
Lemma byte3_byte w : is_byte (byte3 w).
Proof. unfold byte3. rewrite land_255. apply u8_byte. Qed.
Lemma byte2_byte w : is_byte (byte2 w).
Proof. unfold byte2. rewrite land_255. apply u8_byte. Qed.
Lemma byte1_byte w : is_byte (byte1 w).
Proof. unfold byte1. rewrite land_255. apply u8_byte. Qed.
Lemma byte0_byte w : is_byte (byte0 w).
Proof. unfold byte0. rewrite land_255. apply u8_byte. Qed.
#[export] Hint Resolve byte3_byte byte2_byte byte1_byte byte0_byte lxor_is_byte lxor_u32 : wpa.

(** The word with the given bytes, most significant first. *)
Definition mk (b3 b2 b1 b0 : Z) : Z :=
  xor4 (Z.shiftl b3 24) (Z.shiftl b2 16) (Z.shiftl b1 8) b0.

Lemma mk_arith b3 b2 b1 b0 : is_byte b3 → is_byte b2 → is_byte b1 → is_byte b0 →
  mk b3 b2 b1 b0 = b3 * 2 ^ 24 + b2 * 2 ^ 16 + b1 * 2 ^ 8 + b0.
Proof.
  unfold is_byte, mk, xor4. intros H3 H2 H1 H0.
  assert (nc : ∀ a b n, 0 ≤ n → 0 ≤ b < 2 ^ n → Z.lxor (Z.shiftl a n) b = a * 2 ^ n + b).
  { intros a b n Hn Hb. rewrite Z.lxor_lor; [by apply lor_shiftl_add|].
    apply Z.bits_inj'. intros k Hk. rewrite Z.land_spec, Z.bits_0, Z.shiftl_spec by done.
    destruct (decide (k < n)); [rewrite Z.testbit_neg_r by lia; done|].
    rewrite (testbit_small b n k) by lia. apply andb_false_r. }
  replace (Z.lxor (Z.shiftl b3 24) (Z.shiftl b2 16)) with (Z.shiftl (b3 * 2 ^ 8 + b2) 16).
  2: { rewrite <- (nc b3 b2 8) by lia. by rewrite Z.shiftl_lxor, Z.shiftl_shiftl by lia. }
  replace (Z.lxor (Z.shiftl (b3 * 2 ^ 8 + b2) 16) (Z.shiftl b1 8))
    with (Z.shiftl ((b3 * 2 ^ 8 + b2) * 2 ^ 8 + b1) 8).
  2: { rewrite <- (nc _ b1 8) by lia. by rewrite Z.shiftl_lxor, Z.shiftl_shiftl by lia. }
  rewrite nc by lia. lia.
Qed.

(** Division and remainder by the powers of two of a word's bytes. *)
Ltac byte_arith :=
  change (2 ^ 24) with 16777216 in *; change (2 ^ 16) with 65536 in *;
  change (2 ^ 8) with 256 in *; change (2 ^ 32) with 4294967296 in *;
  Z.to_euclidean_division_equations; lia.

Lemma mk_u32 b3 b2 b1 b0 : is_byte b3 → is_byte b2 → is_byte b1 → is_byte b0 →
  is_u32 (mk b3 b2 b1 b0).
Proof. intros. rewrite mk_arith by done. unfold is_byte, is_u32 in *. lia. Qed.

Lemma mk_byte3 b3 b2 b1 b0 : is_byte b3 → is_byte b2 → is_byte b1 → is_byte b0 →
  byte3 (mk b3 b2 b1 b0) = b3.
Proof.
  intros. rewrite mk_arith by done. unfold is_byte, byte3 in *.
  rewrite land_255, Z.shiftr_div_pow2 by lia. byte_arith.
Qed.
Lemma mk_byte2 b3 b2 b1 b0 : is_byte b3 → is_byte b2 → is_byte b1 → is_byte b0 →
  byte2 (mk b3 b2 b1 b0) = b2.
Proof.
  intros. rewrite mk_arith by done. unfold is_byte, byte2 in *.
  rewrite land_255, Z.shiftr_div_pow2 by lia. byte_arith.
Qed.
Lemma mk_byte1 b3 b2 b1 b0 : is_byte b3 → is_byte b2 → is_byte b1 → is_byte b0 →
  byte1 (mk b3 b2 b1 b0) = b1.
Proof.
  intros. rewrite mk_arith by done. unfold is_byte, byte1 in *.
  rewrite land_255, Z.shiftr_div_pow2 by lia. byte_arith.
Qed.
Lemma mk_byte0 b3 b2 b1 b0 : is_byte b3 → is_byte b2 → is_byte b1 → is_byte b0 →
  byte0 (mk b3 b2 b1 b0) = b0.
Proof. intros. rewrite mk_arith by done. unfold is_byte, byte0 in *. rewrite land_255. byte_arith. Qed.

Lemma mk_bytes w : is_u32 w → mk (byte3 w) (byte2 w) (byte1 w) (byte0 w) = w.
Proof.
  intros Hw. rewrite mk_arith by auto with wpa. unfold is_u32 in Hw.
  unfold byte3, byte2, byte1, byte0. rewrite !land_255, !Z.shiftr_div_pow2 by lia. byte_arith.
Qed.

(** ** Facts about the tables *)

Lemma TE4_byte x : is_byte (TE4 x).
Proof. unfold TE4. rewrite land_255. apply u8_byte. Qed.
#[export] Hint Resolve TE4_byte mk_u32 : wpa.

Lemma byte0_small x : is_byte x → byte0 x = x.
Proof. intros. unfold byte0. rewrite land_255. by apply Z.mod_small. Qed.

Lemma TE41_sbox i : TE41 i = Z.shiftl (TE4 (byte3 i)) 24.
Proof. unfold TE41. generalize (byte3_byte i). generalize (byte3 i). intros x H.
  table_fact x H (λ x, Z.land (u32 (Z.shiftl (tbl Te0 x) 8)) 0xff000000) (λ x, Z.shiftl (TE4 x) 24).
Qed.
Lemma TE42_sbox i : TE42 i = Z.shiftl (TE4 (byte2 i)) 16.
Proof. unfold TE42. generalize (byte2_byte i). generalize (byte2 i). intros x H.
  table_fact x H (λ x, Z.land (tbl Te0 x) 0x00ff0000) (λ x, Z.shiftl (TE4 x) 16).
Qed.
Lemma TE43_sbox i : TE43 i = Z.shiftl (TE4 (byte1 i)) 8.
Proof. unfold TE43. generalize (byte1_byte i). generalize (byte1 i). intros x H.
  table_fact x H (λ x, Z.land (tbl Te0 x) 0x0000ff00) (λ x, Z.shiftl (TE4 x) 8).
Qed.
Lemma TE44_sbox i : TE44 i = TE4 (byte0 i).
Proof. done. Qed.

(** The inverse S-box undoes the S-box. *)
Lemma Td4s_TE4 x : is_byte x → tbl Td4s (TE4 x) = x.
Proof. intros H. table_fact x H (λ x, tbl Td4s (TE4 x)) (λ x : Z, x). Qed.

(** The column [x] of the inverse mixing is linear, and undoes the columns of
    the mixing tables. *)
Definition imc (x : Z) : Z := tbl Td0 (TE4 x).

Lemma imc_u32 x : is_byte x → is_u32 (imc x).
Proof. revert x. apply (all_bytes_u32 imc). vm_compute. reflexivity. Qed.
#[export] Hint Resolve imc_u32 : wpa.

(** A function of the bits of a byte that is a sum of its values on the powers
    of two. *)
Definition bit_sum (f : Z → Z) (x : Z) : Z :=
  foldr (λ k acc, Z.lxor (if Z.testbit x k then f (Z.shiftl 1 k) else 0) acc) 0 [0; 1; 2; 3; 4; 5; 6; 7].

Lemma bit_sum_lxor f x y : bit_sum f (Z.lxor x y) = Z.lxor (bit_sum f x) (bit_sum f y).
Proof.
  unfold bit_sum. generalize [0; 1; 2; 3; 4; 5; 6; 7]. intros l. induction l as [|k l IH]; [done|].
  cbn [foldr]. rewrite IH, Z.lxor_spec. generalize (f (Z.shiftl 1 k)). intros c.
  apply Z.bits_inj'. intros n _.
  destruct (Z.testbit x k), (Z.testbit y k); cbn [xorb]; rewrite !Z.lxor_spec, ?Z.bits_0;
    by destruct (Z.testbit c n), (Z.testbit (foldr _ 0 l) n), (Z.testbit (foldr _ 0 l) n).
Qed.

Lemma imc_bit_sum x : is_byte x → imc x = bit_sum imc x.
Proof. intros H. table_fact x H imc (bit_sum imc). Qed.

Lemma imc_lxor x y : is_byte x → is_byte y → imc (Z.lxor x y) = Z.lxor (imc x) (imc y).
Proof. intros. rewrite !imc_bit_sum by auto with wpa. apply bit_sum_lxor. Qed.

Lemma rotr_lxor a b n : 0 ≤ n ≤ 32 → is_u32 a → is_u32 b →
  rotr (Z.lxor a b) n = Z.lxor (rotr a n) (rotr b n).
Proof.
  intros Hn Ha Hb. unfold rotr, u32. apply Z.bits_inj'. intros k Hk.
  rewrite Z.lxor_spec, !Z.lor_spec, !Z.shiftr_spec, Z.lxor_spec by done.
  destruct (decide (k < 32)).
  - rewrite !Z.mod_pow2_bits_low, !Z.shiftl_spec, Z.lxor_spec by lia.
    destruct (decide (k < 32 - n)).
    + rewrite !(Z.testbit_neg_r _ (k - (32 - n))) by lia. by rewrite !orb_false_r.
    + unfold is_u32 in *. rewrite (testbit_small a 32 (k + n)), (testbit_small b 32 (k + n)) by lia. done.
  - rewrite !Z.mod_pow2_bits_high by lia. by rewrite !orb_false_r.
Qed.

Lemma rotr_u32 a n : 0 ≤ n ≤ 32 → is_u32 a → is_u32 (rotr a n).
Proof.
  intros Hn Ha. unfold rotr.
  assert (is_u32 (Z.shiftr a n)) as H1.
  { unfold is_u32 in *. rewrite Z.shiftr_div_pow2 by lia.
    pose proof (Z.pow_pos_nonneg 2 n). split; [apply Z.div_pos; lia|].
    apply Z.div_lt_upper_bound; nia. }
  pose proof (u32_range (Z.shiftl a (32 - n))) as H2. revert H1 H2.
  generalize (Z.shiftr a n) (u32 (Z.shiftl a (32 - n))). unfold is_u32. intros x y Hx Hy.
  assert (Z.lor x y = Z.lxor (Z.lxor x y) (Z.land x y)) as ->.
  { apply Z.bits_inj'. intros k _. rewrite !Z.lxor_spec, Z.lor_spec, Z.land_spec.
    by destruct (Z.testbit x k), (Z.testbit y k). }
  apply lxor_range; [lia|by apply lxor_range|].
  rewrite <- (Z.mod_small x (2 ^ 32)) by done. rewrite <- Z.land_ones by lia.
  replace (Z.land (Z.land x (Z.ones 32)) y) with (Z.land (Z.land x y) (Z.ones 32))
    by (rewrite <- !Z.land_assoc; f_equal; apply Z.land_comm).
  rewrite Z.land_ones by lia. apply Z.mod_pos_bound. lia.
Qed.
#[export] Hint Extern 2 (is_u32 (rotr _ _)) => (apply rotr_u32; [lia|]) : wpa.

Lemma inv_mix_imc w : is_u32 w →
  inv_mix w = xor4 (imc (byte3 w)) (rotr (imc (byte2 w)) 8) (rotr (imc (byte1 w)) 16)
                   (rotr (imc (byte0 w)) 24).
Proof.
  intros Hw. unfold inv_mix, TD0_, TD1_, TD2_, TD3_. rewrite !byte0_small by auto with wpa.
  do 4 f_equal. unfold imc. do 2 f_equal. unfold byte3, is_u32 in *.
  rewrite land_255, Z.shiftr_div_pow2 by lia. symmetry. apply Z.mod_small. byte_arith.
Qed.

(** The four-fold xors rearranged. *)
Lemma xor4_lxor a b c d a' b' c' d' :
  xor4 (Z.lxor a a') (Z.lxor b b') (Z.lxor c c') (Z.lxor d d') =
  Z.lxor (xor4 a b c d) (xor4 a' b' c' d').
Proof.
  unfold xor4. apply Z.bits_inj'. intros k _. rewrite !Z.lxor_spec.
  by destruct (Z.testbit a k), (Z.testbit b k), (Z.testbit c k), (Z.testbit d k),
    (Z.testbit a' k), (Z.testbit b' k), (Z.testbit c' k), (Z.testbit d' k).
Qed.

Lemma inv_mix_lxor v w : is_u32 v → is_u32 w → inv_mix (Z.lxor v w) = Z.lxor (inv_mix v) (inv_mix w).
Proof.
  intros Hv Hw. rewrite !inv_mix_imc by auto with wpa.
  rewrite byte3_lxor, byte2_lxor, byte1_lxor, byte0_lxor, !imc_lxor by auto with wpa.
  rewrite !rotr_lxor by (lia || auto with wpa). apply xor4_lxor.
Qed.

Lemma inv_mix_TE0 i : inv_mix (TE0 i) = Z.shiftl (TE4 (byte3 i)) 24.
Proof. unfold TE0. generalize (byte3_byte i). generalize (byte3 i). intros x H.
  table_fact x H (λ x, inv_mix (tbl Te0 x)) (λ x, Z.shiftl (TE4 x) 24).
Qed.
Lemma inv_mix_TE1 i : inv_mix (TE1 i) = Z.shiftl (TE4 (byte2 i)) 16.
Proof. unfold TE1. generalize (byte2_byte i). generalize (byte2 i). intros x H.
  table_fact x H (λ x, inv_mix (rotr (tbl Te0 x) 8)) (λ x, Z.shiftl (TE4 x) 16).
Qed.
Lemma inv_mix_TE2 i : inv_mix (TE2 i) = Z.shiftl (TE4 (byte1 i)) 8.
Proof. unfold TE2. generalize (byte1_byte i). generalize (byte1 i). intros x H.
  table_fact x H (λ x, inv_mix (rotr (tbl Te0 x) 16)) (λ x, Z.shiftl (TE4 x) 8).
Qed.
Lemma inv_mix_TE3 i : inv_mix (TE3 i) = TE4 (byte0 i).
Proof. unfold TE3. generalize (byte0_byte i). generalize (byte0 i). intros x H.
  table_fact x H (λ x, inv_mix (rotr (tbl Te0 x) 24)) TE4.
Qed.

Lemma Te0_u32 x : is_byte x → is_u32 (tbl Te0 x).
Proof. revert x. apply (all_bytes_u32 (tbl Te0)). vm_compute. reflexivity. Qed.
Lemma xor4_u32 a b c d : is_u32 a → is_u32 b → is_u32 c → is_u32 d → is_u32 (xor4 a b c d).
Proof. unfold xor4. auto with wpa. Qed.
Lemma TE0_u32 i : is_u32 (TE0 i).
Proof. apply Te0_u32. auto with wpa. Qed.
Lemma TE1_u32 i : is_u32 (TE1 i).
Proof. apply rotr_u32, Te0_u32; [lia|auto with wpa]. Qed.
Lemma TE2_u32 i : is_u32 (TE2 i).
Proof. apply rotr_u32, Te0_u32; [lia|auto with wpa]. Qed.
Lemma TE3_u32 i : is_u32 (TE3 i).
Proof. apply rotr_u32, Te0_u32; [lia|auto with wpa]. Qed.
#[export] Hint Resolve xor4_u32 TE0_u32 TE1_u32 TE2_u32 TE3_u32 : wpa.

(** ** A round is undone *)

(** A column of an encryption round before the key is added, and of the last
    round, whose column is a word of substituted bytes. *)
Definition mixed (a b c d : Z) : Z := xor4 (TE0 a) (TE1 b) (TE2 c) (TE3 d).
Definition subst (a b c d : Z) : Z := mk (TE4 (byte3 a)) (TE4 (byte2 b)) (TE4 (byte1 c)) (TE4 (byte0 d)).

Lemma subst_last a b c d : xor4 (TE41 a) (TE42 b) (TE43 c) (TE44 d) = subst a b c d.
Proof. by rewrite TE41_sbox, TE42_sbox, TE43_sbox, TE44_sbox. Qed.

Lemma inv_mix_mixed a b c d : inv_mix (mixed a b c d) = subst a b c d.
Proof.
  unfold mixed, xor4. rewrite !inv_mix_lxor by auto with wpa.
  by rewrite inv_mix_TE0, inv_mix_TE1, inv_mix_TE2, inv_mix_TE3.
Qed.

Definition state_ok (s : state) : Prop :=
  let '(s0, s1, s2, s3) := s in is_u32 s0 ∧ is_u32 s1 ∧ is_u32 s2 ∧ is_u32 s3.
Definition sub_state (s : state) : state :=
  let '(s0, s1, s2, s3) := s in
  (subst s0 s1 s2 s3, subst s1 s2 s3 s0, subst s2 s3 s0 s1, subst s3 s0 s1 s2).
Definition add_key (rk : list Z) (off : nat) (s : state) : state :=
  let '(s0, s1, s2, s3) := s in
  (Z.lxor s0 (rk !!! off), Z.lxor s1 (rk !!! (off + 1)%nat), Z.lxor s2 (rk !!! (off + 2)%nat),
   Z.lxor s3 (rk !!! (off + 3)%nat)).

Lemma subst_u32 a b c d : is_u32 (subst a b c d).
Proof. unfold subst. auto with wpa. Qed.
Lemma mixed_u32 a b c d : is_u32 (mixed a b c d).
Proof. unfold mixed. auto with wpa. Qed.
#[export] Hint Resolve subst_u32 mixed_u32 : wpa.

Lemma lxor_cancel a b : Z.lxor (Z.lxor a b) b = a.
Proof. by rewrite Z.lxor_assoc, Z.lxor_nilpotent, Z.lxor_0_r. Qed.

Lemma add_key_cancel rk rk' off off' s :
  (∀ c, (c < 4)%nat → rk' !!! (off' + c)%nat = rk !!! (off + c)%nat) →
  add_key rk' off' (add_key rk off s) = s.
Proof.
  intros H. destruct s as [[[s0 s1] s2] s3]. unfold add_key.
  pose proof (H 0%nat ltac:(lia)) as Hk0. rewrite !Nat.add_0_r in Hk0.
  rewrite Hk0, !H by lia. by rewrite !lxor_cancel.
Qed.

Lemma enc_last_eq rk off t : enc_last rk off t = add_key rk off (sub_state t).
Proof. destruct t as [[[t0 t1] t2] t3]. unfold enc_last, xor5. by rewrite !subst_last. Qed.

Section words.
Context (rk : list Z) (Hlen : length rk = 44%nat) (Hrk : Forall is_u32 rk).

Lemma rk_u32 i : (i < 44)%nat → is_u32 (rk !!! i).
Proof using Hlen Hrk.
  intros Hi. rewrite <- Hlen in Hi. destruct (lookup_lt_is_Some_2 rk i Hi) as [w Hw].
  rewrite (list_lookup_total_correct _ _ _ Hw). by eapply Forall_lookup_1.
Qed.

Lemma add_key_ok off s : (off < 41)%nat → state_ok s → state_ok (add_key rk off s).
Proof using Hlen Hrk.
  intros Ho Hs. destruct s as [[[s0 s1] s2] s3]. destruct Hs as (? & ? & ? & ?).
  repeat split; (apply lxor_u32; [done|apply rk_u32; lia]).
Qed.

Lemma enc_round_ok off s : (off < 41)%nat → state_ok (enc_round rk off s).
Proof using Hlen Hrk.
  intros Ho. destruct s as [[[s0 s1] s2] s3].
  repeat split; (apply lxor_u32; [auto with wpa|apply rk_u32; lia]).
Qed.
End words.

(** One column of the inverse round on substituted bytes. *)
Lemma inv_column w a1 a2 a3 b0 b2 b3 c0 c1 c3 d0 d1 d2 : is_u32 w →
  xor4 (TD0 (subst w a1 a2 a3)) (TD1 (subst b0 w b2 b3)) (TD2 (subst c0 c1 w c3))
       (TD3 (subst d0 d1 d2 w)) = inv_mix w.
Proof.
  intros Hw. rewrite inv_mix_imc by done. unfold TD0, TD1, TD2, TD3, subst, imc.
  rewrite mk_byte3, mk_byte2, mk_byte1, mk_byte0 by auto with wpa. done.
Qed.

Lemma inv_last_column w a1 a2 a3 b0 b2 b3 c0 c1 c3 d0 d1 d2 : is_u32 w →
  xor4 (TD41 (subst w a1 a2 a3)) (TD42 (subst b0 w b2 b3)) (TD43 (subst c0 c1 w c3))
       (TD44 (subst d0 d1 d2 w)) = w.
Proof.
  intros Hw. unfold TD41, TD42, TD43, TD44, subst.
  rewrite mk_byte3, mk_byte2, mk_byte1, mk_byte0, !Td4s_TE4 by auto with wpa. by apply mk_bytes.
Qed.

Lemma dec_last_eq rk off s : state_ok s → dec_last rk off (sub_state s) = add_key rk off s.
Proof.
  destruct s as [[[s0 s1] s2] s3]. intros (? & ? & ? & ?).
  unfold dec_last, sub_state, xor5. by rewrite !inv_last_column by done.
Qed.

(** A decryption round with the mixed key undoes the encryption round. *)
Lemma dec_round_undo ek dk off off' s :
  length ek = 44%nat → Forall is_u32 ek → (off < 41)%nat →
  (∀ c, (c < 4)%nat → dk !!! (off' + c)%nat = inv_mix (ek !!! (off + c)%nat)) →
  dec_round dk off' (sub_state (enc_round ek off s)) = sub_state s.
Proof.
  intros Hlen Hek Ho Hk. destruct s as [[[s0 s1] s2] s3].
  pose proof (enc_round_ok ek Hlen Hek off (s0, s1, s2, s3) Ho) as Hok.
  pose proof (rk_u32 ek Hlen Hek) as Hr.
  unfold enc_round, xor5, state_ok in *. fold (mixed s0 s1 s2 s3) (mixed s1 s2 s3 s0)
    (mixed s2 s3 s0 s1) (mixed s3 s0 s1 s2) in *. destruct Hok as (? & ? & ? & ?).
  pose proof (Hk 0%nat ltac:(lia)) as Hk0. rewrite !Nat.add_0_r in Hk0.
  unfold dec_round, sub_state, xor5. rewrite !inv_column by done.
  rewrite !inv_mix_lxor by (auto with wpa; apply Hr; lia).
  rewrite Hk0, !Hk, !lxor_cancel, !inv_mix_mixed by lia. done.
Qed.

(** ** Blocks as states *)

Definition load (pt : list Z) : state := (GETU32 pt 0, GETU32 pt 4, GETU32 pt 8, GETU32 pt 12).

Lemma PUTU32_bytes w : PUTU32 w = [byte3 w; byte2 w; byte1 w; byte0 w].
Proof. unfold PUTU32, u8, byte3, byte2, byte1, byte0. by rewrite !land_255. Qed.

Lemma GETU32_mk l off b3 b2 b1 b0 t :
  drop off l = b3 :: b2 :: b1 :: b0 :: t → GETU32 l off = mk b3 b2 b1 b0.
Proof.
  intros H. unfold GETU32.
  assert (∀ k, l !!! (off + k)%nat = (b3 :: b2 :: b1 :: b0 :: t) !!! k) as L.
  { intros k. rewrite <- H. rewrite !list_lookup_total_alt, lookup_drop. done. }
  rewrite <- (Nat.add_0_r off) at 1. by rewrite !L.
Qed.

Lemma load_store s : state_ok s → load (store_block s) = s.
Proof.
  destruct s as [[[s0 s1] s2] s3]. intros (? & ? & ? & ?).
  unfold load, store_block. rewrite !PUTU32_bytes. 
  repeat (erewrite GETU32_mk by reflexivity). by rewrite !mk_bytes.
Qed.

Lemma store_load pt : length pt = 16%nat → bytes_ok pt → store_block (load pt) = pt.
Proof.
  intros Hl Hb. do 16 (destruct pt as [|? pt]; [done|]). destruct pt; [|done].
  unfold bytes_ok in Hb. repeat (apply Forall_cons in Hb as [? Hb]).
  unfold load, store_block. repeat (erewrite GETU32_mk by reflexivity). rewrite !PUTU32_bytes.
  rewrite !mk_byte3, !mk_byte2, !mk_byte1, !mk_byte0 by done. done.
Qed.

Lemma load_ok pt : length pt = 16%nat → bytes_ok pt → state_ok (load pt).
Proof.
  intros Hl Hb. do 16 (destruct pt as [|? pt]; [done|]). destruct pt; [|done].
  unfold bytes_ok in Hb. repeat (apply Forall_cons in Hb as [? Hb]).
  unfold load. repeat (erewrite GETU32_mk by reflexivity). repeat split; by apply mk_u32.
Qed.

Lemma length_store s : length (store_block s) = 16%nat.
Proof. by destruct s as [[[s0 s1] s2] s3]. Qed.
Lemma store_bytes s : bytes_ok (store_block s).
Proof. destruct s as [[[s0 s1] s2] s3]. repeat constructor; apply u8_byte. Qed.

(** ** The key schedules *)

(** The decryption schedule: the groups of four in the opposite order, all but
    the first and last mixed. *)
Lemma dec_keys_lookup ek r c :
  length ek = 44%nat → (r ≤ 10)%nat → (c < 4)%nat →
  dec_keys ek !!! (4 * r + c)%nat =
  (if (r =? 0)%nat || (r =? 10)%nat then ek !!! (4 * (10 - r) + c)%nat
   else inv_mix (ek !!! (4 * (10 - r) + c)%nat)).
Proof.
  intros Hl Hr Hc. do 44 (destruct ek as [|? ek]; [done|]). destruct ek; [|done].
  do 11 (destruct r as [|r]; [do 4 (destruct c as [|c]; [reflexivity|]); lia|]). lia.
Qed.

Lemma foldl_ext {A B} (f g : A → B → A) a l :
  (∀ x b, b ∈ l → f x b = g x b) → foldl f a l = foldl g a l.
Proof.
  revert a. induction l as [|b l IH]; intros a H; simpl; [done|].
  rewrite H by set_solver. apply IH. set_solver.
Qed.

Lemma length_expand rk i : length (expand_round rk i) = (length rk + 4)%nat.
Proof. unfold expand_round. by rewrite length_app. Qed.

Lemma length_key_setup key : length (rijndaelKeySetupEnc key) = 44%nat.
Proof. reflexivity. Qed.

(** The range of a lookup [f] of a byte, by evaluation; [b] shows that the
    index is a byte. *)
Ltac table_range f b :=
  let H := fresh in
  assert (H : ∀ x, is_byte x → is_u32 (f x))
    by (apply (all_bytes_u32 f); vm_compute; reflexivity);
  exact (H _ b).

Lemma TE421_u32 i : is_u32 (TE421 i).
Proof. table_range (λ x, Z.land (u32 (Z.shiftl (tbl Te0 x) 8)) 0xff000000) (byte2_byte i). Qed.
Lemma TE432_u32 i : is_u32 (TE432 i).
Proof. table_range (λ x, Z.land (tbl Te0 x) 0x00ff0000) (byte1_byte i). Qed.
Lemma TE443_u32 i : is_u32 (TE443 i).
Proof. table_range (λ x, Z.land (tbl Te0 x) 0x0000ff00) (byte0_byte i). Qed.
Lemma TE414_u32 i : is_u32 (TE414 i).
Proof. table_range (λ x, Z.land (Z.shiftr (tbl Te0 x) 8) 0x000000ff) (byte3_byte i). Qed.
Lemma RCON_u32 i : is_u32 (RCON i).
Proof.
  do 10 (destruct i as [|i]; [split; vm_compute; congruence|]). unfold RCON.
  rewrite (list_lookup_total_alt rcons), lookup_ge_None_2 by (simpl; lia). by split.
Qed.
#[export] Hint Resolve TE421_u32 TE432_u32 TE443_u32 TE414_u32 RCON_u32 : wpa.

Lemma lookup_u32 rk i : Forall is_u32 rk → is_u32 (rk !!! i).
Proof.
  intros H. rewrite list_lookup_total_alt. destruct (rk !! i) eqn:Hi; simpl; [|by split].
  by eapply Forall_lookup_1.
Qed.

Lemma expand_u32 rk i : Forall is_u32 rk → Forall is_u32 (expand_round rk i).
Proof.
  intros H. pose proof (λ k, lookup_u32 rk k H) as Hk. unfold expand_round, xor5, xor4.
  apply Forall_app. split; [done|]. repeat (apply Forall_cons; split; [repeat apply lxor_u32; auto with wpa|]). done.
Qed.

Lemma GETU32_u32 l off : bytes_ok l → is_u32 (GETU32 l off).
Proof.
  intros H. assert (∀ k, is_byte (l !!! k)) as Hk.
  { intros k. rewrite list_lookup_total_alt. destruct (l !! k) eqn:?; simpl; [by eapply bytes_ok_lookup|by split]. }
  exact (mk_u32 (l !!! off) (l !!! (off + 1)%nat) (l !!! (off + 2)%nat) (l !!! (off + 3)%nat)
    (Hk _) (Hk _) (Hk _) (Hk _)).
Qed.

Lemma key_setup_u32 key : bytes_ok key → Forall is_u32 (rijndaelKeySetupEnc key).
Proof.
  intros Hk. unfold rijndaelKeySetupEnc. generalize (seq 0 10). intros l.
  assert (∀ rk, Forall is_u32 rk → Forall is_u32 (foldl expand_round rk l)) as H.
  { induction l as [|i l IH]; intros rk Hrk; simpl; [done|]. by apply IH, expand_u32. }
  apply H. repeat (apply Forall_cons; split; [by apply GETU32_u32|]). done.
Qed.

(** ** Decryption inverts encryption *)

Lemma encrypt_state rk pt :
  rijndaelEncrypt rk pt =
  store_block (add_key rk 40 (sub_state (enc_round rk 36 (enc_round rk 32 (enc_round rk 28
    (enc_round rk 24 (enc_round rk 20 (enc_round rk 16 (enc_round rk 12 (enc_round rk 8
      (enc_round rk 4 (add_key rk 0 (load pt))))))))))))).
Proof. rewrite <- enc_last_eq. reflexivity. Qed.

Lemma decrypt_state rk ct :
  rijndaelDecrypt rk ct =
  store_block (dec_last rk 40 (dec_round rk 36 (dec_round rk 32 (dec_round rk 28
    (dec_round rk 24 (dec_round rk 20 (dec_round rk 16 (dec_round rk 12 (dec_round rk 8
      (dec_round rk 4 (add_key rk 0 (load ct)))))))))))).
Proof. reflexivity. Qed.

Lemma sub_state_ok s : state_ok (sub_state s).
Proof. destruct s as [[[s0 s1] s2] s3]. repeat split; apply subst_u32. Qed.

Lemma decrypt_encrypt ek pt :
  length ek = 44%nat → Forall is_u32 ek → length pt = 16%nat → bytes_ok pt →
  rijndaelDecrypt (dec_keys ek) (rijndaelEncrypt ek pt) = pt.
Proof.
  intros Hl Hek Hlp Hbp. rewrite encrypt_state, decrypt_state.
  assert (Hmid : ∀ r c, (0 < r < 10)%nat → (c < 4)%nat →
            dec_keys ek !!! (4 * r + c)%nat = inv_mix (ek !!! (4 * (10 - r) + c)%nat)).
  { intros r c Hr Hc. rewrite dec_keys_lookup by lia.
    by rewrite (proj2 (Nat.eqb_neq r 0)), (proj2 (Nat.eqb_neq r 10)) by lia. }
  rewrite load_store by (apply add_key_ok; [done..|lia|apply sub_state_ok]).
  rewrite (add_key_cancel ek (dec_keys ek) 40 0) by (intros c Hc; by apply (dec_keys_lookup ek 0 c); lia).
  rewrite (dec_round_undo ek _ 36 4) by (done || lia || (intros c ?; apply (Hmid 1%nat c); lia)).
  rewrite (dec_round_undo ek _ 32 8) by (done || lia || (intros c ?; apply (Hmid 2%nat c); lia)).
  rewrite (dec_round_undo ek _ 28 12) by (done || lia || (intros c ?; apply (Hmid 3%nat c); lia)).
  rewrite (dec_round_undo ek _ 24 16) by (done || lia || (intros c ?; apply (Hmid 4%nat c); lia)).
  rewrite (dec_round_undo ek _ 20 20) by (done || lia || (intros c ?; apply (Hmid 5%nat c); lia)).
  rewrite (dec_round_undo ek _ 16 24) by (done || lia || (intros c ?; apply (Hmid 6%nat c); lia)).
  rewrite (dec_round_undo ek _ 12 28) by (done || lia || (intros c ?; apply (Hmid 7%nat c); lia)).
  rewrite (dec_round_undo ek _ 8 32) by (done || lia || (intros c ?; apply (Hmid 8%nat c); lia)).
  rewrite (dec_round_undo ek _ 4 36) by (done || lia || (intros c ?; apply (Hmid 9%nat c); lia)).
  rewrite dec_last_eq by (apply add_key_ok; [done..|lia|by apply load_ok]).
  rewrite add_key_cancel by (intros c Hc; by apply (dec_keys_lookup ek 10 c); lia).
  by apply store_load.
Qed.

(** ** Key wrap *)

Lemma length_encrypt rk pt : length (rijndaelEncrypt rk pt) = 16%nat.
Proof. rewrite encrypt_state. apply length_store. Qed.
Lemma encrypt_bytes rk pt : bytes_ok (rijndaelEncrypt rk pt).
Proof. rewrite encrypt_state. apply store_bytes. Qed.
Lemma length_decrypt rk ct : length (rijndaelDecrypt rk ct) = 16%nat.
Proof. rewrite decrypt_state. apply length_store. Qed.
Lemma decrypt_bytes rk ct : bytes_ok (rijndaelDecrypt rk ct).
Proof. rewrite decrypt_state. apply store_bytes. Qed.

#[local] Opaque rijndaelEncrypt rijndaelDecrypt rijndaelKeySetupEnc dec_keys.

Lemma length_xor_at7 a t : length (xor_at7 a t) = length a.
Proof. apply length_insert. Qed.
Lemma xor_at7_bytes a t : bytes_ok a → bytes_ok (xor_at7 a t).
Proof. intros H. apply Forall_insert; [done|]. intros. apply u8_byte. Qed.

Lemma u8_lxor_u8 x t : u8 (Z.lxor (u8 (Z.lxor x t)) t) = u8 x.
Proof.
  unfold u8. rewrite <- !land_255, !land_lxor.
  rewrite <- !Z.land_assoc. change (Z.land 255 255) with 255. apply lxor_cancel.
Qed.

Lemma xor_at7_cancel a t : length a = 8%nat → bytes_ok a → xor_at7 (xor_at7 a t) t = a.
Proof.
  intros Hl Hb. unfold xor_at7. rewrite list_lookup_total_insert_eq by lia.
  rewrite list_insert_insert_eq, u8_lxor_u8.
  rewrite u8_small.
  - apply list_insert_id. apply list_lookup_lookup_total_lt. lia.
  - destruct (lookup_lt_is_Some_2 a 7 ltac:(lia)) as [b Hi].
    rewrite (list_lookup_total_correct _ _ _ Hi). by eapply bytes_ok_lookup.
Qed.

(** A loop whose steps are undone by another loop in the opposite order. *)
Lemma foldl_undo {A B} (I : A → Prop) (f g : A → B → A) (l : list B) a :
  (∀ s b, b ∈ l → I s → I (f s b) ∧ g (f s b) b = s) → I a →
  I (foldl f a l) ∧ foldl g (foldl f a l) (rev l) = a.
Proof.
  revert a. induction l as [|b l IH]; intros a H Ha; simpl; [done|].
  destruct (H a b ltac:(set_solver) Ha) as [Hf Hg].
  destruct (IH (f a b)) as [HI Hr]; [intros; apply H; [set_solver|done]|done|].
  split; [done|]. rewrite foldl_app, Hr. simpl. done.
Qed.

(** The buffer of [aes_wrap] as the register [a] and the others. *)
Definition wrap_reg (ctx : list Z) (n j : nat) (s : list Z * list Z) (i : nat) : list Z * list Z :=
  let '(a, r) := s in
  let b := aes_encrypt ctx (a ++ take 8 (drop (8 * (i - 1)) r)) in
  (xor_at7 (take 8 b) (n * j + i), splice r (8 * (i - 1)) (drop 8 b)).

Definition regs_ok (n : nat) (s : list Z * list Z) : Prop :=
  length s.1 = 8%nat ∧ bytes_ok s.1 ∧ (8 * n ≤ length s.2)%nat ∧ bytes_ok s.2.

Lemma length_halves (b : list Z) : length b = 16%nat → length (take 8 b) = 8%nat ∧ length (drop 8 b) = 8%nat.
Proof. intros H. rewrite length_take, length_drop. lia. Qed.

Lemma wrap_reg_ok ctx n j s i : (1 ≤ i ≤ n)%nat → regs_ok n s → regs_ok n (wrap_reg ctx n j s i).
Proof.
  destruct s as [a r]. unfold regs_ok, wrap_reg, aes_encrypt. cbn [fst snd].
  intros Hi (Ha & Hba & Hr & Hbr). set (x := a ++ _).
  pose proof (length_encrypt ctx x) as Hb. pose proof (encrypt_bytes ctx x) as Hbb.
  revert Hb Hbb. generalize (rijndaelEncrypt ctx x). intros b Hb Hbb.
  destruct (length_halves b Hb) as [H1 H2].
  rewrite length_xor_at7, length_splice by lia. split_and!; [done| |done|].
  - by apply xor_at7_bytes, Forall_take.
  - by apply bytes_ok_splice, Forall_drop.
Qed.

(** The registers back after writing the eight bytes of one of them twice. *)
Lemma splice_back r off (b x : list Z) :
  (off + 8 ≤ length r)%nat → length b = 8%nat → x = take 8 (drop off r) →
  splice (splice r off b) off x = r.
Proof.
  intros Hr Hb ->. assert (length (take 8 (drop off r)) = 8%nat) as Hx
    by (rewrite length_take, length_drop; lia).
  unfold splice at 1. rewrite Hx, drop_splice_after by lia.
  unfold splice. rewrite take_app_length' by (rewrite length_take; lia).
  rewrite <- (drop_drop r 8 off), take_drop. apply take_drop.
Qed.

Lemma unwrap_wrap_step ek n j s i :
  length ek = 44%nat → Forall is_u32 ek → (1 ≤ i ≤ n)%nat → regs_ok n s →
  unwrap_step (dec_keys ek) n j (wrap_reg ek n j s i) i = s.
Proof.
  intros Hl Hek Hi. destruct s as [a r]. unfold regs_ok, wrap_reg, unwrap_step, aes_encrypt, aes_decrypt.
  cbn [fst snd]. intros (Ha & Hba & Hr & Hbr).
  remember (take 8 (drop (8 * (i - 1)) r)) as x eqn:Ex.
  assert (length x = 8%nat) as Hx by (rewrite Ex, length_take, length_drop; lia).
  assert (bytes_ok x) as Hbx by (rewrite Ex; by apply Forall_take, Forall_drop).
  assert (rijndaelDecrypt (dec_keys ek) (rijndaelEncrypt ek (a ++ x)) = a ++ x) as Hd.
  { apply decrypt_encrypt; [done|done|by rewrite length_app, Ha, Hx|].
    apply bytes_ok_app. split; assumption. }
  pose proof (length_encrypt ek (a ++ x)) as Hb. pose proof (encrypt_bytes ek (a ++ x)) as Hbb.
  revert Hd Hb Hbb. generalize (rijndaelEncrypt ek (a ++ x)). intros b Hd Hb Hbb.
  destruct (length_halves b Hb) as [H1 H2].
  rewrite xor_at7_cancel by (assumption || apply Forall_take, Hbb).
  pose proof (slice_splice r (8 * (i - 1)) (drop 8 b) ltac:(lia)) as Hs.
  rewrite H2 in Hs. rewrite Hs, take_drop, Hd.
  rewrite take_app_length', drop_app_length' by done. f_equal. apply splice_back; [lia|done..].
Qed.

Lemma foldl_inv {A B} (I : A → Prop) (f : A → B → A) l a :
  (∀ s b, b ∈ l → I s → I (f s b)) → I a → I (foldl f a l).
Proof.
  revert a. induction l as [|b l IH]; intros a H Ha; [done|]. cbn [foldl].
  apply IH; [set_solver|]. apply H; [set_solver|done].
Qed.

Lemma splice_app_r a r k x : splice (a ++ r) (length a + k) x = a ++ splice r k x.
Proof.
  unfold splice. rewrite take_app_add, <- app_assoc. do 3 f_equal.
  rewrite <- Nat.add_assoc. apply drop_app_add.
Qed.

(** The loops on the registers. *)
Definition wrap_regs (ctx : list Z) (n : nat) (s : list Z * list Z) : list Z * list Z :=
  foldl (λ s j, foldl (wrap_reg ctx n j) s (seq 1 n)) s (seq 0 6).

Lemma wrap_step_reg ctx n j a r i :
  (1 ≤ i ≤ n)%nat → length a = 8%nat → (8 * n ≤ length r)%nat →
  wrap_step ctx n j (a ++ r) i =
  (wrap_reg ctx n j (a, r) i).1 ++ (wrap_reg ctx n j (a, r) i).2.
Proof.
  intros Hi Ha Hr. unfold wrap_step, wrap_reg, aes_encrypt. cbn [fst snd].
  rewrite take_app_length' by done.
  replace (8 * i)%nat with (length a + 8 * (i - 1))%nat by lia. rewrite drop_app_add.
  set (x := a ++ take 8 _). pose proof (length_encrypt ctx x) as Hb. revert Hb.
  generalize (rijndaelEncrypt ctx x). intros b Hb. destruct (length_halves b Hb) as [H1 H2].
  assert (splice (a ++ r) 0 (take 8 b) = take 8 b ++ r) as ->.
  { unfold splice. simpl take. rewrite H1, <- Ha. simpl. by rewrite drop_app_length. }
  assert (xor_at7 (take 8 b ++ r) (n * j + i) = xor_at7 (take 8 b) (n * j + i) ++ r) as ->.
  { unfold xor_at7. rewrite insert_app_l by lia. by rewrite lookup_total_app_l by lia. }
  replace (length a) with (length (xor_at7 (take 8 b) (n * j + i))) by (rewrite length_xor_at7; lia).
  apply splice_app_r.
Qed.

Definition regs_buf (s : list Z * list Z) : list Z := s.1 ++ s.2.

Lemma wrap_buf ctx n s : regs_ok n s →
  foldl (λ c j, foldl (wrap_step ctx n j) c (seq 1 n)) (regs_buf s) (seq 0 6) =
  regs_buf (wrap_regs ctx n s) ∧ regs_ok n (wrap_regs ctx n s).
Proof.
  intros Hs. unfold wrap_regs. revert s Hs. generalize (seq 0 6). intros l.
  assert (inner : ∀ j k s, (∀ i, i ∈ k → 1 ≤ i ≤ n)%nat → regs_ok n s →
    foldl (wrap_step ctx n j) (regs_buf s) k = regs_buf (foldl (wrap_reg ctx n j) s k) ∧
    regs_ok n (foldl (wrap_reg ctx n j) s k)).
  { intros j k. induction k as [|i k IH]; intros s Hk Hs; [done|]. cbn [foldl].
    assert (Hi : (1 ≤ i ≤ n)%nat) by set_solver. pose proof (wrap_reg_ok ctx n j s i Hi Hs) as Hok.
    replace (wrap_step ctx n j (regs_buf s) i) with (regs_buf (wrap_reg ctx n j s i)).
    2: { destruct s as [a r]. destruct Hs as (Ha & _ & Hr & _). symmetry. by apply wrap_step_reg. }
    revert Hok. generalize (wrap_reg ctx n j s i). intros s' Hok. apply IH; [set_solver|done]. }
  induction l as [|j l IH]; intros s Hs; [done|]. cbn [foldl].
  destruct (inner j (seq 1 n) s) as [-> H]; [|done|by apply IH].
  intros i Hi. apply elem_of_seq in Hi. lia.
Qed.

Lemma unwrap_wrap_regs ek n s :
  length ek = 44%nat → Forall is_u32 ek → regs_ok n s →
  foldl (λ s j, foldl (unwrap_step (dec_keys ek) n j) s (rev (seq 1 n))) (wrap_regs ek n s) (rev (seq 0 6)) = s.
Proof.
  intros Hl Hek Hs. apply (foldl_undo (regs_ok n)); [|done]. intros t j _ Ht.
  apply (foldl_undo (regs_ok n)); [|done]. intros u i Hi Hu.
  apply elem_of_seq in Hi. split; [apply wrap_reg_ok; [lia|done]|]. apply unwrap_wrap_step; [done..|lia|done].
Qed.

Lemma length_wrap_regs ctx n s : regs_ok n s → length (wrap_regs ctx n s).2 = length s.2.
Proof.
  intros Hs. unfold wrap_regs.
  refine (proj2 (foldl_inv (λ t, regs_ok n t ∧ length t.2 = length s.2) _ _ _ _ _)); [|done]. intros t j _ Ht.
  apply (foldl_inv (λ t, regs_ok n t ∧ length t.2 = length s.2)); [|done]. intros [a r] i Hi [Hu Hl].
  apply elem_of_seq in Hi. split; [apply wrap_reg_ok; [lia|done]|].
  destruct Hu as (_ & _ & Hr & _). unfold wrap_reg, aes_encrypt. cbn [fst snd] in *.
  set (x := a ++ take 8 _). pose proof (length_encrypt ctx x) as Hb. revert Hb.
  generalize (rijndaelEncrypt ctx x). intros b Hb. destruct (length_halves b Hb).
  by rewrite length_splice by lia.
Qed.

Lemma iv_regs_ok n plain : length plain = (8 * n)%nat → bytes_ok plain → regs_ok n (repeat 0xa6 8, plain).
Proof.
  intros Hp Hb. split_and!; cbn [fst snd]; [done| |lia|done].
  simpl. unfold bytes_ok. repeat (apply Forall_cons; split; [by split|]). done.
Qed.

Lemma init_ok key : length key = 16%nat →
  aes_encrypt_init true key = Some (rijndaelKeySetupEnc key) ∧
  aes_decrypt_init true key = Some (dec_keys (rijndaelKeySetupEnc key)).
Proof. intros H. unfold aes_encrypt_init, aes_decrypt_init. by rewrite bool_decide_true. Qed.

Lemma aes_wrap_regs kek n plain cipher :
  (16 ≤ length kek)%nat → length plain = (8 * n)%nat → length cipher = (8 + 8 * n)%nat → bytes_ok plain →
  let ek := rijndaelKeySetupEnc (take 16 kek) in
  let s := wrap_regs ek n (repeat 0xa6 8, plain) in
  aes_wrap true kek n plain cipher = Ret (0, regs_buf s) ∧ regs_ok n s.
Proof.
  intros Hk Hp Hc Hb ek s. unfold aes_wrap. cbv zeta.
  rewrite (rdn_ok plain), run_bind_l by lia.
  rewrite (proj2 (Nat.ltb_ge _ _)) by lia. rewrite rdn_ok, run_bind_l by lia.
  rewrite !drop_0, (take_ge plain) by lia.
  destruct (init_ok (take 16 kek)) as [-> _]; [rewrite length_take; lia|]. fold ek.
  pose proof (iv_regs_ok n plain Hp Hb) as Hr.
  assert (splice (splice cipher 0 (repeat 0xa6 8)) 8 plain = regs_buf (repeat 0xa6 8, plain)) as ->.
  { change (splice cipher 0 (repeat 0xa6 8)) with (repeat 0xa6 8 ++ drop 8 cipher).
    rewrite (splice_app (repeat 0xa6 8) _ 8 plain) by done. unfold regs_buf. cbn [fst snd]. f_equal.
    rewrite (drop_ge (drop 8 cipher)) by (rewrite length_drop; lia). apply app_nil_r. }
  destruct (wrap_buf ek n _ Hr) as [-> Hok]. done.
Qed.

Lemma forallb_repeat (x : Z) n : forallb (λ y, y =? x) (repeat x n) = true.
Proof. induction n; simpl; [done|]. by rewrite Z.eqb_refl. Qed.

(** C34: the AES key wrap is inverted by the unwrap: for any key encryption key
    of at least 16 bytes and any plaintext of [n] 64-bit units, [aes_wrap] returns 0
    with a ciphertext of [n + 1] units from which [aes_unwrap] returns 0 and the
    plaintext, whatever the buffers held before. *)
Theorem aes_unwrap_wrap kek n plain cipher out :
  (16 ≤ length kek)%nat → bytes_ok kek → length plain = (8 * n)%nat → bytes_ok plain →
  length cipher = (8 + 8 * n)%nat → length out = (8 * n)%nat →
  ∃ c, aes_wrap true kek n plain cipher = Ret (0, c) ∧ length c = (8 + 8 * n)%nat ∧
    bytes_ok c ∧ aes_unwrap true kek n c out = Ret (0, plain).
Proof.
  intros Hk Hkb Hp Hb Hc Ho. destruct (aes_wrap_regs kek n plain cipher) as [Hw Hok]; [done..|].
  set (ek := rijndaelKeySetupEnc (take 16 kek)) in *.
  assert (Hundo := unwrap_wrap_regs ek n (repeat 0xa6 8, plain) (length_key_setup _)
                     (key_setup_u32 _ (Forall_take _ _ _ Hkb))).
  assert (Hlen : length (wrap_regs ek n (repeat 0xa6 8, plain)).2 = (8 * n)%nat).
  { rewrite <- Hp. by apply length_wrap_regs, iv_regs_ok. }
  revert Hw Hok Hundo Hlen. generalize (wrap_regs ek n (repeat 0xa6 8, plain)).
  intros [a r] Hw (Ha & Hab & _ & Hrb) Hundo Hr. cbn [fst snd] in *.
  exists (a ++ r). split; [exact Hw|]. split; [rewrite length_app; lia|].
  split; [by apply bytes_ok_app|]. unfold aes_unwrap. cbv zeta. cbv zeta.
  rewrite (rdn_ok _ 0 8), run_bind_l by (rewrite length_app; lia).
  rewrite (rdn_ok _ 8), run_bind_l by (rewrite length_app; lia).
  rewrite drop_0, take_app_length', drop_app_length', (take_ge r) by lia.
  rewrite (proj2 (Nat.ltb_ge _ _)) by lia. rewrite rdn_ok, run_bind_l, drop_0 by lia.
  destruct (init_ok (take 16 kek)) as [_ ->]; [rewrite length_take; lia|]. fold ek.
  assert (splice out 0 r = r) as ->.
  { unfold splice. rewrite take_0, drop_ge by lia. apply app_nil_r. }
  rewrite Hundo by (by apply iv_regs_ok).
  by rewrite forallb_repeat.
Qed.

(** *** The key wrap of RFC 3394 *)

Definition be64 (t : nat) : list Z := rev (le_bytes 8 (Z.of_nat t)).

(** A step on [A] and the registers: [A = MSB(64, B) ^ t], with [t] a number of
    64 bits. *)
Definition rfc3394_step (ctx : list Z) (n j : nat) (s : list Z * list Z) (i : nat) : list Z * list Z :=
  let '(a, r) := s in
  let b := aes_encrypt ctx (a ++ take 8 (drop (8 * (i - 1)) r)) in
  (zip_with Z.lxor (take 8 b) (be64 (n * j + i)), splice r (8 * (i - 1)) (drop 8 b)).
Definition rfc3394_wrap (key : list Z) (n : nat) (plain : list Z) : list Z :=
  regs_buf (foldl (λ s j, foldl (rfc3394_step (rijndaelKeySetupEnc key) n j) s (seq 1 n))
    (repeat 0xa6 8, plain) (seq 0 6)).

Lemma be64_small t : (t ≤ 255)%nat → be64 t = repeat 0 7 ++ [Z.of_nat t].
Proof.
  intros Ht. unfold be64. simpl. rewrite !Z.shiftr_shiftr by lia. simpl Z.add.
  assert (∀ k, 8 ≤ k → Z.shiftr (Z.of_nat t) k = 0) as H0.
  { intros k Hk. rewrite Z.shiftr_div_pow2 by lia. apply Z.div_small. split; [lia|].
    apply Z.lt_le_trans with (2 ^ 8); [lia|]. apply Z.pow_le_mono_r; lia. }
  rewrite !H0 by lia. rewrite (u8_small (Z.of_nat t)) by (unfold is_byte; lia). done.
Qed.

Lemma xor_at7_be64 a t : (t ≤ 255)%nat → length a = 8%nat → bytes_ok a →
  zip_with Z.lxor a (be64 t) = xor_at7 a t.
Proof.
  intros Ht Hl Hb. rewrite be64_small by done. do 8 (destruct a as [|? a]; [done|]). destruct a; [|done].
  unfold xor_at7. simpl. rewrite !Z.lxor_0_r.
  rewrite (u8_small (Z.lxor _ _)); [done|].
  apply lxor_is_byte; [by eapply (bytes_ok_lookup _ 7%nat)|unfold is_byte; lia].
Qed.

(** For at most 42 units (336 bytes of key data) the key wrap computes the
    ciphertext of RFC 3394, whose step counter is a number of 64 bits. *)
Theorem aes_wrap_rfc kek n plain cipher :
  (n ≤ 42)%nat → (16 ≤ length kek)%nat → length plain = (8 * n)%nat → bytes_ok plain →
  length cipher = (8 + 8 * n)%nat →
  aes_wrap true kek n plain cipher = Ret (0, rfc3394_wrap (take 16 kek) n plain).
Proof.
  intros Hn Hk Hp Hb Hc. destruct (aes_wrap_regs kek n plain cipher) as [-> _]; [done..|].
  unfold rfc3394_wrap, wrap_regs. do 3 f_equal. apply foldl_ext. intros s j Hj. apply foldl_ext.
  intros [a r] i Hi. apply elem_of_seq in Hi, Hj. unfold wrap_reg, rfc3394_step, aes_encrypt.
  set (x := a ++ take 8 _).
  pose proof (length_encrypt (rijndaelKeySetupEnc (take 16 kek)) x) as Hl.
  pose proof (encrypt_bytes (rijndaelKeySetupEnc (take 16 kek)) x) as Hbx. revert Hl Hbx.
  generalize (rijndaelEncrypt (rijndaelKeySetupEnc (take 16 kek)) x). intros b Hl Hbx. f_equal.
  symmetry. apply xor_at7_be64; [nia|rewrite length_take; lia|by apply Forall_take].
Qed.

(** A counter of more than one byte, reached with 43 units, is cut to its low
    byte: from the step with counter 256 the register [A] is not that of RFC 3394. *)
Lemma aes_wrap_counter_cut ctx n j s i :
  (n * j + i = 256)%nat → (wrap_reg ctx n j s i).1 ≠ (rfc3394_step ctx n j s i).1.
Proof.
  intros Ht. destruct s as [a r]. unfold wrap_reg, rfc3394_step, aes_encrypt. cbn [fst].
  set (x := a ++ take 8 _). pose proof (length_encrypt ctx x) as Hl. revert Hl.
  generalize (rijndaelEncrypt ctx x). intros b Hl. rewrite Ht.
  do 8 (destruct b as [|? b]; [done|]). change (be64 256) with [0; 0; 0; 0; 0; 0; 1; 0].
  unfold xor_at7. simpl. intros [= _ _ _ _ _ _ H _].
  apply (f_equal (Z.lxor z5)) in H. rewrite <- Z.lxor_assoc, Z.lxor_nilpotent in H. done.
Qed.

Lemma repeat_bytes x n : is_byte x → bytes_ok (repeat x n).
Proof. intros Hx. induction n; simpl; by constructor. Qed.

Lemma aes_unwrap_wrap_witness :
  ∃ c, aes_wrap true (repeat 7 16) 2 (repeat 9 16) (repeat 0 24) = Ret (0, c) ∧
    length c = 24%nat ∧ bytes_ok c ∧ aes_unwrap true (repeat 7 16) 2 c (repeat 0 16) = Ret (0, repeat 9 16).
Proof.
  apply (aes_unwrap_wrap (repeat 7 16) 2 (repeat 9 16) (repeat 0 24) (repeat 0 16));
    try reflexivity; try (simpl; lia);
    apply repeat_bytes; unfold is_byte; lia.
Defined.

Lemma aes_wrap_rfc_witness :
  aes_wrap true (repeat 7 16) 2 (repeat 9 16) (repeat 0 24) =
  Ret (0, rfc3394_wrap (take 16 (repeat 7 16)) 2 (repeat 9 16)).
Proof.
  apply (aes_wrap_rfc (repeat 7 16) 2 (repeat 9 16) (repeat 0 24));
    try reflexivity; try (simpl; lia); apply repeat_bytes; unfold is_byte; lia.
Defined.

(** AES decryption inverts encryption: with the schedules [aes_encrypt_init]
    and [aes_decrypt_init] make of the same 16-byte key, decrypting the encryption
    of a block gives the block, although decryption runs the rounds of the
    equivalent inverse cipher with transformed round keys. *)
Theorem aes_decrypt_inverts key pt :
  length key = 16%nat → bytes_ok key → length pt = 16%nat → bytes_ok pt →
  ∃ ek dk, aes_encrypt_init true key = Some ek ∧ aes_decrypt_init true key = Some dk ∧
    aes_decrypt dk (aes_encrypt ek pt) = pt.
Proof.
  intros Hk Hkb Hp Hpb. destruct (init_ok key Hk) as [He Hd]. do 2 eexists. split_and!; [exact He|exact Hd|].
  exact (decrypt_encrypt (rijndaelKeySetupEnc key) pt (length_key_setup key) (key_setup_u32 key Hkb) Hp Hpb).
Qed.

Lemma aes_decrypt_inverts_witness :
  ∃ ek dk, aes_encrypt_init true (repeat 1 16) = Some ek ∧ aes_decrypt_init true (repeat 1 16) = Some dk ∧
    aes_decrypt dk (aes_encrypt ek (repeat 2 16)) = repeat 2 16.
Proof.
  apply (aes_decrypt_inverts (repeat 1 16) (repeat 2 16)); try reflexivity;
    apply repeat_bytes; unfold is_byte; lia.
Defined.
