(* ===== verification/AesSpec.v ===== *)
(** * AES-128 of FIPS 197, and the table implementation against it

    The cipher of the standard on lists of 16 bytes: SubBytes from the inverse in
    GF(2^8) and the affine map, ShiftRows, MixColumns by multiplication with
    x, AddRoundKey, and the key expansion word by word.  The table implementation
    of [Aes] (src/src/crypto/aes-internal-enc.c and aes-internal.c) computes it. *)

From S2P Require Import Prelude Aes.

(** ** The standard *)

(** Multiplication by x, and of two polynomials, modulo x^8 + x^4 + x^3 + x + 1. *)
Definition xtime (b : Z) : Z := Z.lxor (u8 (Z.shiftl b 1)) (if Z.testbit b 7 then 0x1b else 0).
Definition gmul (a b : Z) : Z :=
  (foldl (λ '(acc, p) k, (if Z.testbit a k then Z.lxor acc p else acc, xtime p)) (0, b)
     [0; 1; 2; 3; 4; 5; 6; 7]).1.
(** The multiplicative inverse, with 0 for 0. *)
Definition ginv (x : Z) : Z :=
  default 0 (List.find (λ y, gmul x y =? 1) (map Z.of_nat (seq 0 256))).
Definition rotl8 (b k : Z) : Z := Z.lor (u8 (Z.shiftl b k)) (Z.shiftr b (8 - k)).
Definition fips_sbox (x : Z) : Z :=
  let b := ginv x in
  Z.lxor (Z.lxor (xor4 b (rotl8 b 1) (rotl8 b 2) (rotl8 b 3)) (rotl8 b 4)) 0x63.

Definition SubBytes (s : list Z) : list Z := map fips_sbox s.
(** Row [r] of the state, of the bytes [r + 4 c], is rotated left by [r]. *)
Definition ShiftRows (s : list Z) : list Z :=
  map (λ p, s !!! (p mod 4 + 4 * ((p / 4 + p mod 4) mod 4))%nat) (seq 0 16).
Definition mul3 (b : Z) : Z := Z.lxor (xtime b) b.
Definition mix_column (c : list Z) : list Z :=
  match c with
  | [a0; a1; a2; a3] =>
      [xor4 (xtime a0) (mul3 a1) a2 a3; xor4 a0 (xtime a1) (mul3 a2) a3;
       xor4 a0 a1 (xtime a2) (mul3 a3); xor4 (mul3 a0) a1 a2 (xtime a3)]
  | _ => c
  end.
Definition MixColumns (s : list Z) : list Z :=
  mix_column (take 4 s) ++ mix_column (take 4 (drop 4 s)) ++ mix_column (take 4 (drop 8 s)) ++
  mix_column (take 4 (drop 12 s)).
Definition xor_bytes (a b : list Z) : list Z := zip_with Z.lxor a b.
(** The round key [r] of an expanded key of words. *)
Definition AddRoundKey (w : list (list Z)) (r : nat) (s : list Z) : list Z :=
  xor_bytes s (mjoin (take 4 (drop (4 * r) w))).

(** The key expansion: the words after the four of the key. *)
Definition fips_rcon (k : nat) : list Z := [Nat.iter (k - 1) xtime 1; 0; 0; 0].
Definition rot_word (w : list Z) : list Z := match w with a :: l => l ++ [a] | [] => [] end.
Definition expand_word (w : list (list Z)) (i : nat) : list (list Z) :=
  let temp := w !!! (i - 1)%nat in
  let temp := if (i mod 4 =? 0)%nat
              then xor_bytes (map fips_sbox (rot_word temp)) (fips_rcon (i / 4)) else temp in
  w ++ [xor_bytes (w !!! (i - 4)%nat) temp].
Definition KeyExpansion (key : list Z) : list (list Z) :=
  foldl expand_word [take 4 key; take 4 (drop 4 key); take 4 (drop 8 key); take 4 (drop 12 key)]
    (seq 4 40).

Definition fips_round (w : list (list Z)) (s : list Z) (r : nat) : list Z :=
  AddRoundKey w r (MixColumns (ShiftRows (SubBytes s))).
Definition Cipher (key input : list Z) : list Z :=
  let w := KeyExpansion key in
  let s := foldl (fips_round w) (AddRoundKey w 0 input) (seq 1 9) in
  AddRoundKey w 10 (ShiftRows (SubBytes s)).

(** ** The tables hold the standard's values *)

Lemma TE4_fips x : is_byte x → TE4 x = fips_sbox x.
Proof. intros H. table_fact x H TE4 fips_sbox. Qed.

Lemma all_bytes_list (f g : Z → list Z) :
  forallb (λ n, bool_decide (f (Z.of_nat n) = g (Z.of_nat n))) (seq 0 256) = true →
  ∀ x, is_byte x → f x = g x.
Proof.
  intros H x Hx. apply (bool_decide_eq_true_1 (f x = g x)).
  exact (all_bytes (λ x, bool_decide (f x = g x)) H x Hx).
Qed.

(** The bytes of a lookup in the first table, and of its rotations: a column of
    the MixColumns matrix. *)
Lemma PUTU32_Te0 x : is_byte x →
  PUTU32 (tbl Te0 x) = [xtime (TE4 x); TE4 x; TE4 x; mul3 (TE4 x)].
Proof. apply (all_bytes_list (λ x, PUTU32 (tbl Te0 x)) (λ x, [xtime (TE4 x); TE4 x; TE4 x; mul3 (TE4 x)])).
  vm_compute. reflexivity. Qed.
Lemma PUTU32_Te0_8 x : is_byte x →
  PUTU32 (rotr (tbl Te0 x) 8) = [mul3 (TE4 x); xtime (TE4 x); TE4 x; TE4 x].
Proof. apply (all_bytes_list (λ x, PUTU32 (rotr (tbl Te0 x) 8)) (λ x, [mul3 (TE4 x); xtime (TE4 x); TE4 x; TE4 x])).
  vm_compute. reflexivity. Qed.
Lemma PUTU32_Te0_16 x : is_byte x →
  PUTU32 (rotr (tbl Te0 x) 16) = [TE4 x; mul3 (TE4 x); xtime (TE4 x); TE4 x].
Proof. apply (all_bytes_list (λ x, PUTU32 (rotr (tbl Te0 x) 16)) (λ x, [TE4 x; mul3 (TE4 x); xtime (TE4 x); TE4 x])).
  vm_compute. reflexivity. Qed.
Lemma PUTU32_Te0_24 x : is_byte x →
  PUTU32 (rotr (tbl Te0 x) 24) = [TE4 x; TE4 x; mul3 (TE4 x); xtime (TE4 x)].
Proof. apply (all_bytes_list (λ x, PUTU32 (rotr (tbl Te0 x) 24)) (λ x, [TE4 x; TE4 x; mul3 (TE4 x); xtime (TE4 x)])).
  vm_compute. reflexivity. Qed.

#[local] Opaque fips_sbox xtime.

Lemma PUTU32_lxor a b : PUTU32 (Z.lxor a b) = xor_bytes (PUTU32 a) (PUTU32 b).
Proof. rewrite !PUTU32_bytes. simpl. by rewrite byte3_lxor, byte2_lxor, byte1_lxor, byte0_lxor. Qed.

Lemma PUTU32_mk b3 b2 b1 b0 : is_byte b3 → is_byte b2 → is_byte b1 → is_byte b0 →
  PUTU32 (mk b3 b2 b1 b0) = [b3; b2; b1; b0].
Proof. intros. rewrite PUTU32_bytes. by rewrite mk_byte3, mk_byte2, mk_byte1, mk_byte0. Qed.

(** A mixed column: MixColumns of the substituted bytes. *)
Lemma PUTU32_mixed a b c d :
  PUTU32 (mixed a b c d) =
  mix_column [fips_sbox (byte3 a); fips_sbox (byte2 b); fips_sbox (byte1 c); fips_sbox (byte0 d)].
Proof.
  unfold mixed, xor4, TE0, TE1, TE2, TE3. rewrite !PUTU32_lxor.
  rewrite PUTU32_Te0, PUTU32_Te0_8, PUTU32_Te0_16, PUTU32_Te0_24 by auto with wpa.
  rewrite !TE4_fips by auto with wpa. reflexivity.
Qed.

Lemma PUTU32_subst a b c d :
  PUTU32 (subst a b c d) =
  [fips_sbox (byte3 a); fips_sbox (byte2 b); fips_sbox (byte1 c); fips_sbox (byte0 d)].
Proof. unfold subst. rewrite PUTU32_mk by auto with wpa. by rewrite !TE4_fips by auto with wpa. Qed.

(** ** Rounds *)

(** The words of a schedule as lists of bytes. *)
Definition key_words (rk : list Z) : list (list Z) := map PUTU32 rk.

Lemma round_key rk off :
  (4 * off + 3 < length rk)%nat →
  mjoin (take 4 (drop (4 * off) (key_words rk))) =
  PUTU32 (rk !!! (4 * off)%nat) ++ PUTU32 (rk !!! (4 * off + 1)%nat) ++
  PUTU32 (rk !!! (4 * off + 2)%nat) ++ PUTU32 (rk !!! (4 * off + 3)%nat).
Proof.
  intros H. assert (∀ k, (k < 4)%nat → rk !!! (4 * off + k)%nat = drop (4 * off) rk !!! k) as Hk.
  { intros k _. by rewrite !list_lookup_total_alt, lookup_drop. }
  rewrite <- (Nat.add_0_r (4 * off)) at 2. rewrite !Hk by lia.
  unfold key_words. rewrite skipn_map.
  assert (4 ≤ length (drop (4 * off) rk))%nat as Hl by (rewrite length_drop; lia).
  revert Hl. generalize (drop (4 * off) rk). intros l Hl.
  do 4 (destruct l as [|? l]; [simpl in Hl; lia|]). reflexivity.
Qed.

Lemma store_add_key rk off s :
  (4 * off + 3 < length rk)%nat →
  store_block (add_key rk (4 * off) s) = AddRoundKey (key_words rk) off (store_block s).
Proof.
  intros H. destruct s as [[[s0 s1] s2] s3]. unfold AddRoundKey. rewrite round_key by done.
  unfold add_key, store_block. rewrite !PUTU32_lxor. reflexivity.
Qed.

Definition mix_state (s : state) : state :=
  let '(s0, s1, s2, s3) := s in
  (mixed s0 s1 s2 s3, mixed s1 s2 s3 s0, mixed s2 s3 s0 s1, mixed s3 s0 s1 s2).

Lemma store_mix s : store_block (mix_state s) = MixColumns (ShiftRows (SubBytes (store_block s))).
Proof.
  destruct s as [[[s0 s1] s2] s3]. unfold mix_state, store_block. rewrite !PUTU32_mixed, !PUTU32_bytes.
  reflexivity.
Qed.

Lemma store_sub s : store_block (sub_state s) = ShiftRows (SubBytes (store_block s)).
Proof.
  destruct s as [[[s0 s1] s2] s3]. unfold sub_state, store_block. rewrite !PUTU32_subst, !PUTU32_bytes.
  reflexivity.
Qed.

Lemma enc_round_mix rk off s : enc_round rk off s = add_key rk off (mix_state s).
Proof. by destruct s as [[[s0 s1] s2] s3]. Qed.

Lemma store_round rk r s :
  (4 * r + 3 < length rk)%nat →
  store_block (enc_round rk (4 * r) s) = fips_round (key_words rk) (store_block s) r.
Proof. intros H. rewrite enc_round_mix, store_add_key, store_mix by done. done. Qed.

Lemma encrypt_rounds rk pt :
  length rk = 44%nat → length pt = 16%nat → bytes_ok pt →
  rijndaelEncrypt rk pt =
  AddRoundKey (key_words rk) 10 (ShiftRows (SubBytes
    (foldl (fips_round (key_words rk)) (AddRoundKey (key_words rk) 0 pt) (seq 1 9)))).
Proof.
  intros Hl Hp Hb. rewrite encrypt_state. rewrite (store_add_key rk 10), store_sub by lia.
  do 3 f_equal. cbn [seq foldl].
  rewrite (store_round rk 9), (store_round rk 8), (store_round rk 7), (store_round rk 6),
    (store_round rk 5), (store_round rk 4), (store_round rk 3), (store_round rk 2), (store_round rk 1),
    (store_add_key rk 0), store_load by (done || lia). done.
Qed.

(** ** The key expansion *)

Definition sub_rot (t : Z) : Z := xor4 (TE421 t) (TE432 t) (TE443 t) (TE414 t).

(** The next word of a schedule of [length rk] words. *)
Definition next_word (rk : list Z) (i : nat) : Z :=
  let temp := rk !!! (i - 1)%nat in
  Z.lxor (rk !!! (i - 4)%nat)
    (if (i mod 4 =? 0)%nat then Z.lxor (sub_rot temp) (RCON (i / 4 - 1)) else temp).

Lemma sub_rot_mk t : sub_rot t = mk (TE4 (byte2 t)) (TE4 (byte1 t)) (TE4 (byte0 t)) (TE4 (byte3 t)).
Proof.
  unfold sub_rot, mk. pose proof (TE41_sbox (mk (byte2 t) 0 0 0)) as H1.
  pose proof (TE42_sbox (mk 0 (byte1 t) 0 0)) as H2. pose proof (TE43_sbox (mk 0 0 (byte0 t) 0)) as H3.
  unfold TE41 in H1. unfold TE42 in H2. unfold TE43 in H3.
  rewrite mk_byte3 in H1 by (auto with wpa; by split). rewrite mk_byte2 in H2 by (auto with wpa; by split).
  rewrite mk_byte1 in H3 by (auto with wpa; by split).
  unfold TE421, TE432, TE443. rewrite H1, H2, H3. done.
Qed.

Lemma PUTU32_sub_rot t : PUTU32 (sub_rot t) = map fips_sbox (rot_word (PUTU32 t)).
Proof.
  rewrite sub_rot_mk, PUTU32_mk, PUTU32_bytes by auto with wpa. rewrite !TE4_fips by auto with wpa. done.
Qed.

Lemma PUTU32_RCON k : (1 ≤ k ≤ 10)%nat → PUTU32 (RCON (k - 1)) = fips_rcon k.
Proof. intros H. do 11 (destruct k as [|k]; [lia || reflexivity|]). lia. Qed.

Lemma key_words_lookup rk i : (i < length rk)%nat → key_words rk !!! i = PUTU32 (rk !!! i).
Proof.
  intros H. unfold key_words. destruct (lookup_lt_is_Some_2 rk i H) as [w Hw].
  rewrite (list_lookup_total_correct rk i w Hw). apply list_lookup_total_correct.
  by rewrite list_lookup_fmap, Hw.
Qed.

Lemma key_words_app a b : key_words (a ++ b) = key_words a ++ key_words b.
Proof. apply map_app. Qed.

Lemma expand_word_next rk i :
  length rk = i → (4 ≤ i < 44)%nat →
  expand_word (key_words rk) i = key_words (rk ++ [next_word rk i]).
Proof.
  intros Hl Hi. unfold expand_word. rewrite key_words_app. f_equal. cbn [key_words map]. f_equal.
  rewrite !key_words_lookup by lia. unfold next_word. rewrite PUTU32_lxor. f_equal.
  destruct (i mod 4 =? 0)%nat; [|done]. rewrite PUTU32_lxor, PUTU32_sub_rot. f_equal.
  symmetry. apply PUTU32_RCON.
  assert (4 / 4 ≤ i / 4 ≤ 43 / 4)%nat as Hd by (split; apply Nat.Div0.div_le_mono; lia). change (4 / 4)%nat with 1%nat in Hd. change (43 / 4)%nat with 10%nat in Hd. lia.
Qed.

(** The next word after [pre] and at least four words [l]. *)
Lemma next_word_app pre l k :
  (length pre mod 4 = 0)%nat → (length l = k)%nat → (4 ≤ k)%nat →
  next_word (pre ++ l) (length pre + k) =
  Z.lxor (l !!! (k - 4)%nat)
    (if (k mod 4 =? 0)%nat then Z.lxor (sub_rot (l !!! (k - 1)%nat)) (RCON ((length pre + k) / 4 - 1))
     else l !!! (k - 1)%nat).
Proof.
  intros Hm Hl Hk. unfold next_word.
  rewrite !(lookup_total_app_r pre) by lia.
  replace (length pre + k - 4 - length pre)%nat with (k - 4)%nat by lia.
  replace (length pre + k - 1 - length pre)%nat with (k - 1)%nat by lia.
  rewrite <- Nat.Div0.add_mod_idemp_l, Hm. done.
Qed.

Lemma expand_round_next rk i :
  length rk = (4 * i + 4)%nat → (i < 10)%nat →
  foldl expand_word (key_words rk) (seq (4 * i + 4) 4) = key_words (expand_round rk i).
Proof.
  intros Hl Hi. rewrite <- (take_drop (4 * i) rk).
  assert (length (take (4 * i) rk) = (4 * i)%nat) as Hp by (rewrite length_take; lia).
  assert (length (drop (4 * i) rk) = 4%nat) as Hq by (rewrite length_drop; lia). revert Hp Hq.
  generalize (take (4 * i) rk) (drop (4 * i) rk). clear rk Hl. intros pre q Hp Hq.
  do 4 (destruct q as [|? q]; [done|]). destruct q; [|done].
  assert (length pre mod 4 = 0)%nat as Hm by (rewrite Hp, Nat.mul_comm; apply Nat.Div0.mod_mul).
  unfold expand_round. rewrite <- Hp. cbn [seq foldl].
  rewrite <- !Nat.add_succ_r.
  rewrite expand_word_next by (rewrite ?length_app; simpl; lia). rewrite <- app_assoc.
  rewrite expand_word_next by (rewrite ?length_app; simpl; lia). rewrite <- app_assoc.
  rewrite expand_word_next by (rewrite ?length_app; simpl; lia). rewrite <- app_assoc.
  rewrite expand_word_next by (rewrite ?length_app; simpl; lia).
  cbn [app]. rewrite !next_word_app by (exact Hm || (simpl; lia)). f_equal.
  rewrite !(lookup_total_app_r pre) by lia.
  replace (length pre + 0 - length pre)%nat with 0%nat by lia.
  replace (length pre + 1 - length pre)%nat with 1%nat by lia.
  replace (length pre + 2 - length pre)%nat with 2%nat by lia.
  replace (length pre + 3 - length pre)%nat with 3%nat by lia.
  replace ((length pre + 4) / 4 - 1)%nat with i
    by (rewrite Hp; replace (4 * i + 4)%nat with (S i * 4)%nat by lia; rewrite Nat.div_mul; lia).
  rewrite <- !app_assoc. f_equal. simpl. unfold xor5. 
  replace (Z.lxor (Z.lxor (xor4 z (TE421 z2) (TE432 z2) (TE443 z2)) (TE414 z2)) (RCON i))
    with (Z.lxor z (Z.lxor (sub_rot z2) (RCON i)))
    by (unfold sub_rot, xor4; by rewrite !Z.lxor_assoc).
  done.
Qed.

Lemma expansion_rounds n a rk :
  length rk = (4 * a + 4)%nat → (a + n ≤ 10)%nat →
  foldl expand_word (key_words rk) (seq (4 * a + 4) (4 * n)) = key_words (foldl expand_round rk (seq a n)).
Proof.
  revert a rk. induction n as [|n IH]; intros a rk Hl Ha; [done|].
  replace (4 * S n)%nat with (4 + 4 * n)%nat by lia. rewrite seq_app, foldl_app.
  rewrite expand_round_next by lia. cbn [seq foldl].
  replace (4 * a + 4 + 4)%nat with (4 * S a + 4)%nat by lia.
  apply IH; [rewrite length_expand; lia|lia].
Qed.

Lemma KeyExpansion_words key : length key = 16%nat → bytes_ok key →
  KeyExpansion key = key_words (rijndaelKeySetupEnc key).
Proof.
  intros Hl Hb. unfold KeyExpansion, rijndaelKeySetupEnc.
  rewrite <- (expansion_rounds 10 0) by (simpl; lia). f_equal.
  do 16 (destruct key as [|? key]; [done|]). destruct key; [|done].
  unfold bytes_ok in Hb. repeat (apply Forall_cons in Hb as [? Hb]).
  repeat (erewrite GETU32_mk by reflexivity). simpl. rewrite !PUTU32_mk by done. done.
Qed.

(** C25: the table implementation of AES encrypts as FIPS 197 defines it: for any
    16-byte key and block, [aes_encrypt] with the schedule of [aes_encrypt_init]
    is the standard's cipher, built from the field GF(2^8). *)
Theorem aes_encrypt_fips197 key pt :
  length key = 16%nat → bytes_ok key → length pt = 16%nat → bytes_ok pt →
  ∃ ctx, aes_encrypt_init true key = Some ctx ∧ aes_encrypt ctx pt = Cipher key pt.
Proof.
  intros Hk Hkb Hp Hpb. exists (rijndaelKeySetupEnc key). split; [by apply init_ok|].
  unfold Cipher. rewrite KeyExpansion_words by done.
  exact (encrypt_rounds (rijndaelKeySetupEnc key) pt (length_key_setup key) Hp Hpb).
Qed.

Lemma aes_encrypt_fips197_witness :
  ∃ ctx, aes_encrypt_init true (repeat 1 16) = Some ctx ∧
    aes_encrypt ctx (repeat 2 16) = Cipher (repeat 1 16) (repeat 2 16).
Proof.
  apply (aes_encrypt_fips197 (repeat 1 16) (repeat 2 16)); try reflexivity;
    apply repeat_bytes; unfold is_byte; lia.
Defined.
