(* ===== verification/AesModes.v ===== *)
(** * Modes of AES-128 (src/src/crypto/aes-cbc.c, aes-ctr.c, aes-omac1.c, aes-eax.c,
      aes-encblock.c)

    CBC, counter mode, the OMAC1 (CMAC) message authentication code and the EAX
    authenticated encryption, over the block cipher of Aes.  Data is encrypted in
    place: the functions return the new contents of the buffer. *)

From S2P Require Import Prelude Aes AesSpec.

Definition AES_BLOCK_SIZE : nat := 16.

(** [aes_encrypt_init(key, 16)] reads the first 16 bytes of [key]. *)
Definition encrypt_init (malloc_ok : bool) (key : list Z) : option (list Z) := aes_encrypt_init malloc_ok (take 16 key).
Definition decrypt_init (malloc_ok : bool) (key : list Z) : option (list Z) := aes_decrypt_init malloc_ok (take 16 key).

Definition aes_128_encrypt_block (malloc_ok : bool) (key input : list Z) : option (list Z) :=
  match encrypt_init malloc_ok key with Some ctx => Some (aes_encrypt ctx input) | None => None end.

(** ** CBC *)

Fixpoint cbc_encrypt_loop (ctx : list Z) (blocks : nat) (cbc data : list Z) : list Z :=
  match blocks with
  | O => data
  | S blocks =>
      let cbc := xor_bytes cbc (take 16 data) in
      let cbc := aes_encrypt ctx cbc in
      cbc ++ cbc_encrypt_loop ctx blocks cbc (drop 16 data)
  end.
Definition aes_128_cbc_encrypt (malloc_ok : bool) (key iv data : list Z) : Z * list Z :=
  match encrypt_init malloc_ok key with
  | None => (-1, data)
  | Some ctx => (0, cbc_encrypt_loop ctx (length data / AES_BLOCK_SIZE) (take 16 iv) data)
  end.

Fixpoint cbc_decrypt_loop (ctx : list Z) (blocks : nat) (cbc data : list Z) : list Z :=
  match blocks with
  | O => data
  | S blocks =>
      let tmp := take 16 data in
      let pos := aes_decrypt ctx tmp in
      xor_bytes pos cbc ++ cbc_decrypt_loop ctx blocks tmp (drop 16 data)
  end.
Definition aes_128_cbc_decrypt (malloc_ok : bool) (key iv data : list Z) : Z * list Z :=
  match decrypt_init malloc_ok key with
  | None => (-1, data)
  | Some ctx => (0, cbc_decrypt_loop ctx (length data / AES_BLOCK_SIZE) (take 16 iv) data)
  end.

(** ** Counter mode *)

(** The carry loop, from the last byte on. *)
Fixpoint increment_rev (l : list Z) : list Z :=
  match l with
  | [] => []
  | b :: l => let b := u8 (b + 1) in if b =? 0 then b :: increment_rev l else b :: l
  end.
Definition increment (counter : list Z) : list Z := rev (increment_rev (rev counter)).

Fixpoint ctr_loop (fuel : nat) (ctx counter data : list Z) : run (list Z) :=
  match data with
  | [] => Ret []
  | _ =>
      match fuel with
      | O => OutOfFuel
      | S fuel =>
          let buf := aes_encrypt ctx counter in
          let len := if (length data <? AES_BLOCK_SIZE)%nat then length data else AES_BLOCK_SIZE in
          rest ← ctr_loop fuel ctx (increment counter) (drop len data);
          Ret (xor_bytes (take len data) buf ++ rest)
      end
  end.
Definition aes_128_ctr_encrypt (malloc_ok : bool) (key nonce data : list Z) : run (Z * list Z) :=
  match encrypt_init malloc_ok key with
  | None => Ret (-1, data)
  | Some ctx => d ← ctr_loop (length data) ctx (take 16 nonce) data; Ret (0, d)
  end.

(** ** OMAC1 *)

(** The shift of the block by one bit, with the reduction. *)
Fixpoint shift_left (l : list Z) : list Z :=
  match l with
  | [] => []
  | [b] => [u8 (Z.shiftl b 1)]
  | b :: (c :: _) as l => Z.lor (u8 (Z.shiftl b 1)) (Z.shiftr c 7) :: shift_left l
  end.
Definition gf_mulx (pad : list Z) : list Z :=
  let carry := Z.land (pad !!! 0%nat) 0x80 in
  let pad := shift_left pad in
  if carry =? 0 then pad else take 15 pad ++ [Z.lxor (pad !!! 15%nat) 0x87].

(** Reading position: index of the element, what is left of it, and whether the arrays
    [addr] and [len] were read past their end; [stray] is the element such a read
    gives. *)
Record om_pos := OmPos { om_e : nat; om_rest : list Z; om_over : bool }.

Section omac1.
Context (elems : list (list Z)) (stray : list Z).

(** [pos = addr[e]; end = pos + len[e]] *)
Definition om_element (e : nat) (over : bool) : om_pos :=
  match elems !! e with
  | Some d => OmPos e d over
  | None => OmPos e stray true
  end.

(** [*pos++] and the test that follows it. *)
Definition om_next (p : om_pos) : run (Z * om_pos) :=
  match om_rest p with
  | [] => UB OutOfBounds
  | b :: rest =>
      Ret (b, match rest with
              | [] => om_element (S (om_e p)) (om_over p)
              | _ => OmPos (om_e p) rest (om_over p)
              end)
  end.

(** [for (i = 0; i < n; i++) cbc[i] ^= ...] *)
Fixpoint om_absorb (n : nat) (cbc : list Z) (p : om_pos) : run (list Z * om_pos) :=
  match n, cbc with
  | S n, c :: cbc =>
      x ← om_next p;
      let '(b, p) := x in
      y ← om_absorb n cbc p;
      let '(cbc, p) := y in
      Ret (Z.lxor c b :: cbc, p)
  | _, _ => Ret (cbc, p)
  end.

Fixpoint om_blocks (fuel : nat) (ctx : list Z) (remaining : nat) (cbc : list Z) (p : om_pos) : run (nat * list Z * om_pos) :=
  if (remaining <? AES_BLOCK_SIZE)%nat then Ret (remaining, cbc, p)
  else
    match fuel with
    | O => OutOfFuel
    | S fuel =>
        x ← om_absorb AES_BLOCK_SIZE cbc p;
        let '(cbc, p) := x in
        let cbc := if (AES_BLOCK_SIZE <? remaining)%nat then aes_encrypt ctx cbc else cbc in
        om_blocks fuel ctx (remaining - AES_BLOCK_SIZE) cbc p
    end.

(** The code, [None] on failure, with whether the arrays were over-read. *)
Definition omac1_aes_128_vector (malloc_ok : bool) (key : list Z) : run (option (list Z) * bool) :=
  match encrypt_init malloc_ok key with
  | None => Ret (None, false)
  | Some ctx =>
      let total_len := length (concat elems) in
      x ← om_blocks (S total_len) ctx total_len (repeat 0 16) (om_element 0 false);
      let '(remaining, cbc, p) := x in
      let pad := gf_mulx (aes_encrypt ctx (repeat 0 16)) in
      y ← (if negb (remaining =? 0)%nat || (total_len =? 0)%nat then
             y ← om_absorb remaining cbc p;
             let '(cbc, p) := y in
             Ret (<[remaining := Z.lxor (cbc !!! remaining) 0x80]> cbc, gf_mulx pad, p)
           else Ret (cbc, pad, p));
      let '(cbc, pad, p) := y in
      Ret (Some (aes_encrypt ctx (xor_bytes pad cbc)), om_over p)
  end.
End omac1.

Definition omac1_aes_128 (stray : list Z) (malloc_ok : bool) (key data : list Z) : run (option (list Z)) :=
  x ← omac1_aes_128_vector [data] stray malloc_ok key; Ret x.1.

(** ** EAX *)

Section eax.
(** Memory read past the arrays of [omac1_aes_128_vector], and the outcomes of the
    allocations in order. *)
Context (stray : list Z) (alloc : nat → bool).

(** The MAC of the buffer with [t] in byte 15 and the data behind it. *)
Definition eax_mac (i : nat) (t : Z) (key data : list Z) : run (option (list Z)) :=
  omac1_aes_128 stray (alloc i) key (repeat 0 15 ++ [t] ++ data).

(** Result, data and tag. *)
Definition aes_128_eax_encrypt (key nonce hdr data tag : list Z) : run (Z * list Z * list Z) :=
  if negb (alloc 0) then Ret (-1, data, tag)
  else
    nonce_mac ← eax_mac 1 0 key nonce;
    match nonce_mac with
    | None => Ret (-1, data, tag)
    | Some nonce_mac =>
        hdr_mac ← eax_mac 2 1 key hdr;
        match hdr_mac with
        | None => Ret (-1, data, tag)
        | Some hdr_mac =>
            x ← aes_128_ctr_encrypt (alloc 3) key nonce_mac data;
            let '(ret, data) := x in
            if negb (ret =? 0) then Ret (-1, data, tag)
            else
              data_mac ← eax_mac 4 2 key data;
              match data_mac with
              | None => Ret (-1, data, tag)
              | Some data_mac => Ret (0, data, xor_bytes (xor_bytes nonce_mac data_mac) hdr_mac)
              end
        end
    end.

Definition aes_128_eax_decrypt (key nonce hdr data tag : list Z) : run (Z * list Z) :=
  if negb (alloc 0) then Ret (-1, data)
  else
    nonce_mac ← eax_mac 1 0 key nonce;
    match nonce_mac with
    | None => Ret (-1, data)
    | Some nonce_mac =>
        hdr_mac ← eax_mac 2 1 key hdr;
        match hdr_mac with
        | None => Ret (-1, data)
        | Some hdr_mac =>
            data_mac ← eax_mac 3 2 key data;
            match data_mac with
            | None => Ret (-1, data)
            | Some data_mac =>
                if bool_decide (take 16 tag = xor_bytes (xor_bytes nonce_mac data_mac) hdr_mac)
                then aes_128_ctr_encrypt (alloc 4) key nonce_mac data
                else Ret (-2, data)
            end
        end
    end.
End eax.

(** ** CBC: decryption inverts encryption *)

Lemma length_xor a b : length a = length b → length (xor_bytes a b) = length a.
Proof. intros H. unfold xor_bytes. rewrite length_zip_with. lia. Qed.
Lemma xor_ok a b : bytes_ok a → bytes_ok b → bytes_ok (xor_bytes a b).
Proof.
  intros Ha. revert b. induction Ha as [|x a Hx Ha IH]; intros b Hb; destruct Hb as [|y b Hy Hb]; [constructor..|].
  constructor; [by apply lxor_is_byte|by apply IH].
Qed.
Lemma xor_cancel a b : (length a ≤ length b)%nat → xor_bytes (xor_bytes a b) b = a.
Proof.
  revert b. induction a as [|x a IH]; intros [|y b] H; cbn in *; [done|done|lia|].
  rewrite Z.lxor_assoc, Z.lxor_nilpotent, Z.lxor_0_r. f_equal. apply IH. lia.
Qed.
Lemma xor_comm a b : xor_bytes a b = xor_bytes b a.
Proof. revert b. induction a as [|x a IH]; intros [|y b]; [done..|]. cbn. by rewrite Z.lxor_comm, IH. Qed.

(** What the schedules of one key do to a block. *)
Record ciphers (ek dk : list Z) : Prop := {
  ciphers_undo pt : length pt = 16%nat → bytes_ok pt → aes_decrypt dk (aes_encrypt ek pt) = pt
}.

Lemma init_ciphers key : (16 ≤ length key)%nat → bytes_ok key →
  ∃ ek dk, encrypt_init true key = Some ek ∧ decrypt_init true key = Some dk ∧ ciphers ek dk.
Proof.
  intros Hl Hk. assert (H16 : length (take 16 key) = 16%nat) by (rewrite length_take; lia).
  destruct (init_ok (take 16 key) H16) as [He Hd]. do 2 eexists. split; [exact He|]. split; [exact Hd|]. split.
  intros pt Hp Hpb. exact (decrypt_encrypt _ pt (length_key_setup _) (key_setup_u32 _ (Forall_take _ _ _ Hk)) Hp Hpb).
Qed.

Lemma cbc_undo ek dk n iv data : ciphers ek dk → (16 * n ≤ length data)%nat → bytes_ok data →
  length iv = 16%nat → bytes_ok iv →
  cbc_decrypt_loop dk n iv (cbc_encrypt_loop ek n iv data) = data.
Proof.
  intros [Hu]. revert iv data. induction n as [|n IH]; intros iv data Hl Hd Hi Hib; [done|]. cbn [cbc_encrypt_loop cbc_decrypt_loop].
  set (blk := xor_bytes iv (take 16 data)). assert (Ht : length (take 16 data) = 16%nat) by (rewrite length_take; lia).
  assert (Hb : length blk = 16%nat) by (unfold blk; rewrite length_xor; lia).
  assert (Hbb : bytes_ok blk) by (apply xor_ok; [done|by apply Forall_take]).
  assert (He : length (aes_encrypt ek blk) = 16%nat) by apply length_encrypt.
  rewrite take_app_length', drop_app_length' by done. rewrite Hu by done.
  rewrite IH; [|rewrite length_drop; lia|by apply Forall_drop|done|apply encrypt_bytes].
  unfold blk. rewrite (xor_comm iv), xor_cancel by lia. apply take_drop.
Qed.

Lemma length_cbc ek n iv data : (16 * n ≤ length data)%nat → length (cbc_encrypt_loop ek n iv data) = length data.
Proof.
  revert iv data. induction n as [|n IH]; intros iv data Hl; [done|]. cbn [cbc_encrypt_loop].
  rewrite length_app, IH by (rewrite length_drop; lia). rewrite length_drop.
  assert (He : ∀ x, length (aes_encrypt ek x) = 16%nat) by (intros; apply length_encrypt). rewrite He. lia.
Qed.

(** CBC decryption inverts CBC encryption, for data of any length: the bytes after the
    last whole block are left alone by both. *)
Theorem aes_cbc_roundtrip key iv data :
  (16 ≤ length key)%nat → bytes_ok key → (16 ≤ length iv)%nat → bytes_ok iv → bytes_ok data →
  ∃ c, aes_128_cbc_encrypt true key iv data = (0, c) ∧ length c = length data ∧
    aes_128_cbc_decrypt true key iv c = (0, data).
Proof.
  intros Hl Hk Hil Hi Hd. destruct (init_ciphers key Hl Hk) as (ek & dk & He & Hd' & Hc).
  unfold aes_128_cbc_encrypt, aes_128_cbc_decrypt. rewrite He, Hd'. eexists. split; [reflexivity|].
  assert (Hn : (16 * (length data / AES_BLOCK_SIZE) ≤ length data)%nat) by apply Nat.Div0.mul_div_le.
  rewrite length_cbc by done. split; [done|]. f_equal.
  apply cbc_undo; [done|done|done|rewrite length_take; lia|by apply Forall_take].
Qed.

(** ** Counter mode *)

(** The key stream: the encryption of successive counters. *)
Fixpoint key_stream (ek counter : list Z) (blocks : nat) : list Z :=
  match blocks with
  | O => []
  | S blocks => aes_encrypt ek counter ++ key_stream ek (increment counter) blocks
  end.

Lemma xor_app a b c d : length a = length c → xor_bytes (a ++ b) (c ++ d) = xor_bytes a c ++ xor_bytes b d.
Proof. revert c. induction a as [|x a IH]; intros [|y c] H; cbn in *; [done|lia|lia|]. by rewrite IH by lia. Qed.

Lemma xor_short a b c : (length a ≤ length b)%nat → xor_bytes a (b ++ c) = xor_bytes a b.
Proof. revert b. induction a as [|x a IH]; intros [|y b] H; cbn in *; [done|done|lia|]. by rewrite IH by lia. Qed.

Lemma length_block ek b : length (aes_encrypt ek b) = 16%nat.
Proof. apply length_encrypt. Qed.

Lemma ctr_stream ek counter data fuel : (length data ≤ fuel)%nat →
  ctr_loop fuel ek counter data = Ret (xor_bytes data (key_stream ek counter fuel)).
Proof.
  revert counter data. induction fuel as [|fuel IH]; intros counter data Hf.
  { destruct data; [done|cbn in Hf; lia]. }
  destruct data as [|x data]; [done|]. set (d := x :: data) in *. cbn [ctr_loop key_stream]. unfold d at 1.
  pose proof (length_block ek counter) as He. unfold AES_BLOCK_SIZE.
  destruct (Nat.ltb_spec (length d) 16) as [Hs|Hs].
  - rewrite IH by (rewrite length_drop; lia). rewrite drop_all, firstn_all, run_bind_l.
    rewrite xor_short by lia. change (xor_bytes [] _) with (@nil Z). by rewrite app_nil_r.
  - rewrite IH by (rewrite length_drop; cbn in *; lia). rewrite run_bind_l.
    rewrite <-(take_drop 16 d) at 3. rewrite xor_app; [done|]. rewrite length_take. lia.
Qed.

Lemma length_key_stream ek counter n : length (key_stream ek counter n) = (16 * n)%nat.
Proof.
  revert counter. induction n as [|n IH]; intros counter; [done|]. cbn [key_stream].
  rewrite length_app, length_block, IH. lia.
Qed.

(** The [n] bytes of a number, the most significant first. *)
Fixpoint be_enc (n : nat) (v : Z) : list Z :=
  match n with
  | O => []
  | S n => Z.land (Z.shiftr v (8 * Z.of_nat n)) 255 :: be_enc n v
  end.
Lemma length_be_enc n v : length (be_enc n v) = n.
Proof. induction n; cbn; congruence. Qed.

(** The bytes from the least significant on. *)
Lemma be_enc_snoc n v : be_enc (S n) v = be_enc n (Z.shiftr v 8) ++ [Z.land v 255].
Proof.
  induction n as [|n IH]; [cbn; by rewrite Z.shiftr_0_r|].
  change (be_enc (S (S n)) v) with (Z.land (Z.shiftr v (8 * Z.of_nat (S n))) 255 :: be_enc (S n) v). rewrite IH.
  change (be_enc (S n) (Z.shiftr v 8)) with (Z.land (Z.shiftr (Z.shiftr v 8) (8 * Z.of_nat n)) 255 :: be_enc n (Z.shiftr v 8)).
  rewrite Z.shiftr_shiftr by lia. cbn [app]. do 3 f_equal. lia.
Qed.

Lemma land_byte_mod v : Z.land v 255 = v mod 256.
Proof. exact (Z.land_ones v 8 ltac:(lia)). Qed.
Lemma shiftr_8 v : Z.shiftr v 8 = v / 256.
Proof. exact (Z.shiftr_div_pow2 v 8 ltac:(lia)). Qed.

(** The carry loop adds one. *)
Lemma increment_enc n v : increment (be_enc n v) = be_enc n (v + 1).
Proof.
  unfold increment. revert v. induction n as [|n IH]; intros v; [done|]. rewrite !be_enc_snoc, rev_app_distr. cbn [rev app increment_rev].
  rewrite !land_byte_mod, !shiftr_8. unfold u8. change (2 ^ 8) with 256. rewrite Z.add_mod_idemp_l by lia.
  destruct (Z.eqb_spec ((v + 1) mod 256) 0) as [Hz|Hz]; cbn [rev].
  - rewrite IH. do 2 f_equal. apply Z.div_unique with 0; [lia|]. pose proof (Z.div_mod v 256). pose proof (Z.mod_pos_bound v 256).
    pose proof (Z.div_mod (v + 1) 256). lia.
  - rewrite rev_involutive. do 2 f_equal. pose proof (Z.div_mod v 256). pose proof (Z.mod_pos_bound v 256).
    pose proof (Z.div_mod (v + 1) 256). pose proof (Z.mod_pos_bound (v + 1) 256). lia.
Qed.

Lemma pow_8 n : 2 ^ (8 * Z.of_nat (S n)) = 256 * 2 ^ (8 * Z.of_nat n).
Proof. replace (8 * Z.of_nat (S n)) with (8 + 8 * Z.of_nat n) by lia. by rewrite Z.pow_add_r by lia. Qed.
Lemma pow_8_pos n : 0 < 2 ^ (8 * Z.of_nat n).
Proof. apply Z.pow_pos_nonneg; lia. Qed.

(** Only the value modulo the size of the string matters. *)
Lemma be_enc_mod n v k : be_enc n (v + k * 2 ^ (8 * Z.of_nat n)) = be_enc n v.
Proof.
  revert v k. induction n as [|n IH]; intros v k; [done|]. rewrite !be_enc_snoc, !land_byte_mod, !shiftr_8, pow_8.
  replace (v + k * (256 * 2 ^ (8 * Z.of_nat n))) with (v + k * 2 ^ (8 * Z.of_nat n) * 256) by ring.
  by rewrite Z.div_add, Z.mod_add, IH by lia.
Qed.

Lemma pow_256 n : 256 ^ Z.of_nat n = 2 ^ (8 * Z.of_nat n).
Proof. by rewrite Z.pow_mul_r by lia. Qed.
Lemma be_val_cons2 b l : be_val (b :: l) = b * 2 ^ (8 * Z.of_nat (length l)) + be_val l.
Proof. by rewrite be_val_cons, pow_256. Qed.
Lemma be_val_range2 l : bytes_ok l → 0 ≤ be_val l < 2 ^ (8 * Z.of_nat (length l)).
Proof. rewrite <-pow_256. apply be_val_range. Qed.

Lemma be_enc_val l : bytes_ok l → be_enc (length l) (be_val l) = l.
Proof.
  induction 1 as [|b l Hb Hl IH]; [done|]. cbn [length be_enc]. rewrite be_val_cons2. pose proof (be_val_range2 l Hl) as Hr.
  rewrite Z.shiftr_div_pow2, land_byte_mod by lia. rewrite Z.div_add_l, (Z.div_small _ _ Hr) by (pose proof (pow_8_pos (length l)); lia).
  rewrite Z.add_0_r, Z.mod_small by exact Hb. rewrite Z.add_comm, be_enc_mod. by rewrite IH.
Qed.

(** Counter mode of NIST SP 800-38A: block [i] of the key stream encrypts the 128-bit
    number [v + i]. *)
Definition sp800_38a_stream (ek : list Z) (v : Z) (blocks : nat) : list Z :=
  concat (map (λ i, aes_encrypt ek (be_enc 16 (v + Z.of_nat i))) (seq 0 blocks)).

Lemma key_stream_sp800_38a ek v n : key_stream ek (be_enc 16 v) n = sp800_38a_stream ek v n.
Proof.
  unfold sp800_38a_stream. enough (H : ∀ k, key_stream ek (be_enc 16 (v + Z.of_nat k)) n =
    concat (map (λ i, aes_encrypt ek (be_enc 16 (v + Z.of_nat i))) (seq k n))) by (specialize (H 0%nat); by rewrite Z.add_0_r in H).
  induction n as [|n IH]; intros k; [done|]. cbn [key_stream seq map concat]. rewrite increment_enc. f_equal.
  rewrite <-IH. do 2 f_equal. lia.
Qed.

(** AES-CTR is the exclusive or with the standard's key stream for data of any length,
    the counter wrapping at 128 bits; it returns, and applied twice it gives the data
    back. *)
Theorem aes_ctr_sp800_38a key nonce data :
  (16 ≤ length key)%nat → (16 ≤ length nonce)%nat → bytes_ok nonce →
  ∃ ek c, aes_encrypt_init true (take 16 key) = Some ek ∧
    c = xor_bytes data (sp800_38a_stream ek (be_val (take 16 nonce)) (length data)) ∧
    aes_128_ctr_encrypt true key nonce data = Ret (0, c) ∧ length c = length data ∧
    aes_128_ctr_encrypt true key nonce c = Ret (0, data).
Proof.
  intros Hk Hn Hb. assert (H16 : length (take 16 key) = 16%nat) by (rewrite length_take; lia).
  destruct (init_ok (take 16 key) H16) as [He _]. unfold aes_128_ctr_encrypt, encrypt_init. rewrite He.
  eexists _, _. split; [done|]. split; [done|].
  assert (Hv : take 16 nonce = be_enc 16 (be_val (take 16 nonce))).
  { rewrite <-(be_enc_val (take 16 nonce)) at 1 by (by apply Forall_take). rewrite length_take. do 2 f_equal. lia. }
  set (v := be_val (take 16 nonce)) in *. rewrite Hv, !ctr_stream by done. rewrite !run_bind_l.
  rewrite key_stream_sp800_38a. set (ks := sp800_38a_stream _ v (length data)).
  assert (Hks : length ks = (16 * length data)%nat) by (unfold ks; rewrite <-key_stream_sp800_38a; apply length_key_stream).
  assert (Hl : length (xor_bytes data ks) = length data) by (unfold xor_bytes; rewrite length_zip_with; lia).
  rewrite key_stream_sp800_38a, Hl. fold ks. split; [done|]. split; [done|]. by rewrite xor_cancel by lia.
Qed.

(** Counter mode undoes itself. *)
Lemma ctr_twice key ek nonce data : encrypt_init true key = Some ek →
  ∃ c, aes_128_ctr_encrypt true key nonce data = Ret (0, c) ∧ length c = length data ∧
    aes_128_ctr_encrypt true key nonce c = Ret (0, data).
Proof.
  intros He. unfold aes_128_ctr_encrypt. rewrite He, !ctr_stream by done. rewrite run_bind_l. eexists. split; [reflexivity|].
  assert (Hl : length (xor_bytes data (key_stream ek (take 16 nonce) (length data))) = length data)
    by (unfold xor_bytes; rewrite length_zip_with, length_key_stream; lia).
  split; [exact Hl|]. rewrite ctr_stream, run_bind_l, Hl by done. rewrite xor_cancel; [done|]. rewrite length_key_stream. lia.
Qed.

(** ** OMAC1 *)

(** Doubling in the field of 128-bit strings (RFC 4493, 2.3). *)
Definition rfc4493_double (l : list Z) : list Z :=
  let v := be_val l in
  be_enc 16 (if v <? 2 ^ 127 then 2 * v else Z.lxor ((2 * v) mod 2 ^ 128) 0x87).

Lemma shift_bits_table :
  forallb (λ b, (u8 (Z.shiftl b 1) =? (2 * b) mod 256) && (Z.lor (u8 (Z.shiftl b 1)) 0 =? (2 * b) mod 256) &&
                (Z.lor (u8 (Z.shiftl b 1)) 1 =? (2 * b + 1) mod 256) && (Bool.eqb (Z.land b 0x80 =? 0) (b <? 128)))
          (seqZ 0 256) = true.
Proof. vm_compute. reflexivity. Qed.

Lemma shift_bits b : is_byte b →
  u8 (Z.shiftl b 1) = (2 * b) mod 256 ∧ Z.lor (u8 (Z.shiftl b 1)) 0 = (2 * b) mod 256 ∧
  Z.lor (u8 (Z.shiftl b 1)) 1 = (2 * b + 1) mod 256 ∧ (Z.land b 0x80 =? 0) = (b <? 128).
Proof.
  intros Hb. unfold is_byte in Hb. change (2 ^ 8) with 256 in Hb.
  pose proof (proj1 (forallb_forall _ _) shift_bits_table b) as H. specialize (H ltac:(apply list_elem_of_In, elem_of_seqZ; lia)).
  apply andb_true_iff in H as [H H4]. apply andb_true_iff in H as [H H3]. apply andb_true_iff in H as [H1 H2].
  apply Z.eqb_eq in H1, H2, H3. apply eqb_prop in H4. done.
Qed.

Lemma shift_left_enc l : bytes_ok l → shift_left l = be_enc (length l) (2 * be_val l).
Proof.
  induction 1 as [|b l Hb Hl IH]; [done|]. destruct (shift_bits b Hb) as (H1 & H2 & H3 & _).
  destruct l as [|c l]; [cbn; rewrite Z.shiftr_0_r, land_byte_mod; by rewrite H1|].
  set (k := c :: l) in *. change (shift_left (b :: k)) with (Z.lor (u8 (Z.shiftl b 1)) (Z.shiftr c 7) :: shift_left k).
  rewrite IH. set (P := 2 ^ (8 * Z.of_nat (length k))). rewrite (be_val_cons2 b k). fold P.
  change (length (b :: k)) with (S (length k)). cbn [be_enc].
  replace (2 * (b * P + be_val k)) with (2 * be_val k + 2 * b * P) by ring. rewrite be_enc_mod. f_equal.
  rewrite !Z.shiftr_div_pow2, land_byte_mod by lia. change (2 ^ (8 * Z.of_nat (length k))) with P.
  rewrite Z.div_add by (pose proof (pow_8_pos (length k)); lia).
  assert (Hc : is_byte c) by (by inversion Hl). assert (Hl' : bytes_ok l) by (by inversion Hl).
  pose proof (be_val_range2 l Hl') as Hr. unfold is_byte in Hc. change (2 ^ 8) with 256 in Hc.
  assert (HP : P = 256 * 2 ^ (8 * Z.of_nat (length l))) by apply pow_8.
  assert (Hk : be_val k = c * 2 ^ (8 * Z.of_nat (length l)) + be_val l) by apply be_val_cons2.
  change (2 ^ 7) with 128. set (Q := 2 ^ (8 * Z.of_nat (length l))) in *.
  destruct (Z.lt_ge_cases c 128) as [H|H].
  - rewrite (Z.div_small c) by lia. rewrite H2, (Z.div_small (2 * be_val k)) by nia. by rewrite Z.add_0_l.
  - rewrite <-(Z.div_unique c 128 1 (c - 128)) by lia. rewrite H3, <-(Z.div_unique (2 * be_val k) P 1 (2 * be_val k - P)) by nia.
    by rewrite Z.add_comm.
Qed.

Lemma be_enc_lxor n v c : is_byte c →
  be_enc (S n) (Z.lxor v c) = take n (be_enc (S n) v) ++ [Z.lxor (be_enc (S n) v !!! n) c].
Proof.
  intros Hc. rewrite !be_enc_snoc. rewrite take_app_length' by (by rewrite length_be_enc).
  rewrite list_lookup_total_middle by (by rewrite length_be_enc). rewrite Z.shiftr_lxor.
  rewrite (shiftr_8 c), (Z.div_small c 256), Z.lxor_0_r by exact Hc. do 2 f_equal.
  rewrite <-(Z.mod_small c 256 Hc) at 2. rewrite <-land_byte_mod.
  apply Z.bits_inj'. intros i Hi. rewrite ?Z.land_spec, ?Z.lxor_spec, ?Z.land_spec. by destruct (Z.testbit v i), (Z.testbit c i), (Z.testbit 255 i).
Qed.

(** [gf_mulx] doubles. *)
Lemma gf_mulx_double pad : length pad = 16%nat → bytes_ok pad → gf_mulx pad = rfc4493_double pad.
Proof.
  intros Hl Hb. unfold gf_mulx, rfc4493_double. rewrite shift_left_enc, Hl by done.
  destruct pad as [|b l]; [done|]. change ((b :: l) !!! 0%nat) with b. rewrite be_val_cons2.
  assert (Hb0 : is_byte b) by (by inversion Hb). assert (Hl' : bytes_ok l) by (by inversion Hb).
  destruct (shift_bits b Hb0) as (_ & _ & _ & ->). assert (Hn : length l = 15%nat) by (cbn in Hl; lia).
  pose proof (be_val_range2 l Hl') as Hr. rewrite Hn in *. change (2 ^ (8 * Z.of_nat 15)) with (2 ^ 120) in *.
  unfold is_byte in Hb0. change (2 ^ 8) with 256 in Hb0.
  destruct (Z.ltb_spec b 128), (Z.ltb_spec (b * 2 ^ 120 + be_val l) (2 ^ 127)); try lia; [done|].
  rewrite (be_enc_lxor 15) by done. rewrite Z.mod_eq by lia. set (w := 2 * _).
  replace (w - 2 ^ 128 * (w / 2 ^ 128)) with (w + - (w / 2 ^ 128) * 2 ^ (8 * Z.of_nat 16)) by (change (8 * Z.of_nat 16) with 128; ring).
  by rewrite be_enc_mod.
Qed.

(** AES-CMAC of RFC 4493: the chain over all blocks but the last, then the last one
    under the subkey of its length. *)
Fixpoint cmac_chain (ek : list Z) (blocks : nat) (x m : list Z) : list Z * list Z :=
  match blocks with
  | O => (x, m)
  | S blocks => cmac_chain ek blocks (aes_encrypt ek (xor_bytes x (take 16 m))) (drop 16 m)
  end.
Definition rfc4493_cmac (ek m : list Z) : list Z :=
  let k1 := rfc4493_double (aes_encrypt ek (repeat 0 16)) in
  let k2 := rfc4493_double k1 in
  let '(x, last) := cmac_chain ek ((length m - 1) / 16) (repeat 0 16) m in
  let m_last := if (length last =? 16)%nat then xor_bytes last k1
                else xor_bytes (last ++ [0x80] ++ repeat 0 (15 - length last)) k2 in
  aes_encrypt ek (xor_bytes x m_last).

Section absorb.
Context (elems : list (list Z)) (stray : list Z).
Context (Hne : Forall (λ d, d ≠ []) elems).

(** Position [p] has the bytes [s] ahead of it: past the last of them, the arrays have
    been over-read. *)
Definition om_at (p : om_pos) (s : list Z) : Prop :=
  (s = om_rest p ++ concat (drop (S (om_e p)) elems) ∧ om_rest p ≠ [] ∧ om_over p = false) ∨
  (s = [] ∧ om_over p = true).

Lemma om_at_element e : om_at (om_element elems stray e false) (concat (drop e elems)).
Proof.
  unfold om_element. destruct (elems !! e) as [d|] eqn:Hd.
  - left. cbn [om_rest om_e om_over]. rewrite (drop_S _ _ _ Hd). split; [done|]. split; [|done].
    exact (Forall_lookup_1 _ _ _ _ Hne Hd).
  - right. apply lookup_ge_None_1 in Hd. by rewrite drop_ge by lia.
Qed.

Lemma om_at_nil p : om_at p [] → om_over p = true.
Proof. intros [(Hs & Hr & _)|[_ H]]; [|done]. by destruct (om_rest p). Qed.

Lemma om_next_at p b s : om_at p (b :: s) → ∃ p', om_next elems stray p = Ret (b, p') ∧ om_at p' s.
Proof.
  intros [(Hs & Hr & Ho)|[? _]]; [|done]. unfold om_next. destruct (om_rest p) as [|c rest]; [done|].
  cbn [app] in Hs. injection Hs as <- ->. eexists. split; [done|]. destruct rest as [|c' rest].
  - rewrite Ho. apply om_at_element.
  - left. done.
Qed.

Lemma om_absorb_at n cbc p s : om_at p s → (n ≤ length s)%nat → (n ≤ length cbc)%nat →
  ∃ p', om_absorb elems stray n cbc p = Ret (xor_bytes (take n cbc) (take n s) ++ drop n cbc, p') ∧ om_at p' (drop n s).
Proof.
  revert cbc p s. induction n as [|n IH]; intros cbc p s Hp Hs Hc; [by exists p|].
  destruct s as [|b s]; [cbn in Hs; lia|]. destruct cbc as [|c cbc]; [cbn in Hc; lia|].
  destruct (om_next_at p b s Hp) as (p1 & E1 & Hp1). cbn in Hs, Hc.
  destruct (IH cbc p1 s Hp1 ltac:(lia) ltac:(lia)) as (p2 & E2 & Hp2).
  exists p2. split; [|done]. cbn [om_absorb]. rewrite E1, run_bind_l, E2, run_bind_l. done.
Qed.

(** The loop over whole blocks is the chain; a last block that is whole has been added
    to it. *)
Lemma om_blocks_chain ek fuel x s p : (length s < fuel)%nat → om_at p s → length x = 16%nat →
  let '(x', last) := cmac_chain ek ((length s - 1) / 16) x s in
  ∃ p', om_blocks elems stray fuel ek (length s) x p =
          Ret (if (length last =? 16)%nat then (0%nat, xor_bytes x' last, p') else (length last, x', p')) ∧
        om_at p' (if (length last =? 16)%nat then [] else last) ∧ (length last ≤ 16)%nat ∧ length x' = 16%nat ∧
        (s ≠ [] → last ≠ []).
Proof.
  revert x s p. induction fuel as [|fuel IH]; intros x s p Hf Hp Hx; [lia|]. cbn [om_blocks]. unfold AES_BLOCK_SIZE.
  destruct (Nat.ltb_spec (length s) 16) as [Hs|Hs].
  { rewrite Nat.div_small by lia. cbn [cmac_chain]. exists p. destruct (Nat.eqb_spec (length s) 16); [lia|]. repeat split; auto. lia. }
  destruct (om_absorb_at 16 x p s Hp Hs ltac:(lia)) as (p1 & E1 & Hp1). rewrite E1, run_bind_l.
  rewrite (firstn_all2 x), (drop_ge x), app_nil_r by lia.
  destruct (Nat.ltb_spec 16 (length s)) as [Hl|Hl].
  - replace ((length s - 1) / 16)%nat with (S ((length (drop 16 s) - 1) / 16)).
    2:{ rewrite length_drop. replace (length s - 1)%nat with ((length s - 16 - 1) + 1 * 16)%nat by lia. rewrite Nat.div_add by lia. lia. }
    cbn [cmac_chain]. set (x1 := aes_encrypt ek _).
    specialize (IH x1 (drop 16 s) p1 ltac:(rewrite length_drop; lia) Hp1 (length_block _ _)).
    rewrite <-(length_drop s 16). destruct (cmac_chain ek _ x1 _) as [x' last].
    destruct IH as (p' & E & H1 & H2 & H3 & H4). exists p'. split; [exact E|]. repeat split; try done.
    intros _. apply H4. intros H. apply (f_equal length) in H. rewrite length_drop in H. cbn in H. lia.
  - assert (H16 : length s = 16%nat) by lia. rewrite H16. cbn [Nat.sub]. change (15 / 16)%nat with 0%nat. cbn [cmac_chain].
    rewrite H16. exists p1. rewrite firstn_all2 by lia. destruct fuel; cbn [om_blocks]; change ((0 <? AES_BLOCK_SIZE)%nat) with true; cbn iota;
    rewrite drop_ge in Hp1 by lia; repeat split; auto.
Qed.
End absorb.

Lemma xor_assoc a b c : xor_bytes (xor_bytes a b) c = xor_bytes a (xor_bytes b c).
Proof. revert b c. induction a as [|x a IH]; intros [|y b] [|z c]; try done. cbn. by rewrite Z.lxor_assoc, IH. Qed.
Lemma xor_zero a : xor_bytes a (repeat 0 (length a)) = a.
Proof. induction a as [|x a IH]; [done|]. cbn. rewrite Z.lxor_0_r. by f_equal. Qed.

(** Adding the rest and the bit 0x80 behind it is adding the padded block. *)
Lemma absorb_padded x last : (length last < length x)%nat →
  <[length last := Z.lxor ((xor_bytes (take (length last) x) last ++ drop (length last) x) !!! length last) 0x80]>
     (xor_bytes (take (length last) x) last ++ drop (length last) x) =
  xor_bytes x (last ++ [0x80] ++ repeat 0 (length x - 1 - length last)).
Proof.
  intros Hl. destruct (lookup_lt_is_Some_2 x _ Hl) as [c Hc]. set (n := length last) in *.
  rewrite (drop_S _ _ _ Hc). assert (Ht : length (take n x) = n) by (rewrite length_take; lia).
  assert (Hx : length (xor_bytes (take n x) last) = n) by (rewrite length_xor; lia).
  rewrite list_lookup_total_middle by done. rewrite <-Hx at 1. rewrite insert_app_r_alt by lia. rewrite Nat.sub_diag. cbn [insert list_insert].
  rewrite <-(take_drop n x) at 3. rewrite xor_app by done. f_equal. rewrite (drop_S _ _ _ Hc). cbn [app xor_bytes zip_with]. f_equal.
  symmetry. replace (length x - 1 - n)%nat with (length (drop (S n) x)) by (rewrite length_drop; lia). apply xor_zero.
Qed.

Lemma double_bytes l : length (rfc4493_double l) = 16%nat ∧ bytes_ok (rfc4493_double l).
Proof.
  split; [apply length_be_enc|]. unfold rfc4493_double. generalize (if be_val l <? 2 ^ 127 then 2 * be_val l else Z.lxor ((2 * be_val l) mod 2 ^ 128) 135).
  intros v. generalize 16%nat. induction n as [|n IH]; [constructor|]. constructor; [|exact IH]. rewrite land_byte_mod. apply (Z.mod_pos_bound _ 256). lia.
Qed.

(** The MAC of any sequence of non-empty elements is the CMAC of their concatenation.
    Whatever lies behind the arrays does not matter for the result, but they are read
    there: after its last byte the code fetches the next element's address and
    length. *)
Lemma omac1_cmac elems stray key ek : elems ≠ [] → Forall (λ d, d ≠ []) elems →
  encrypt_init true key = Some ek →
  omac1_aes_128_vector elems stray true key = Ret (Some (rfc4493_cmac ek (concat elems)), true).
Proof.
  intros Hn Hne He. unfold omac1_aes_128_vector, rfc4493_cmac. rewrite He. set (s := concat elems).
  assert (Hs : s ≠ []) by (unfold s; destruct Hne as [|d l Hd]; [done|]; destruct d; done).
  assert (H0 : (length s =? 0)%nat = false) by (destruct s; done).
  pose proof (om_blocks_chain elems stray Hne ek (S (length s)) (repeat 0 16) s (om_element elems stray 0 false)
    ltac:(lia) (om_at_element elems stray Hne 0) eq_refl) as H.
  assert (Hk : gf_mulx (aes_encrypt ek (repeat 0 16)) = rfc4493_double (aes_encrypt ek (repeat 0 16)))
    by (apply gf_mulx_double; [apply length_block|apply encrypt_bytes]).
  destruct (cmac_chain ek _ _ s) as [x last]. destruct H as (p & E & Hp & Hl & Hx & Hlast). rewrite E, run_bind_l, Hk. clear E. cbv zeta.
  rewrite H0. destruct (Nat.eqb_spec (length last) 16) as [H16|H16]; cbn [negb orb Nat.eqb].
  - rewrite run_bind_l. rewrite (om_at_nil _ _ Hp), (xor_comm _ (xor_bytes x last)), xor_assoc. reflexivity.
  - replace (negb (length last =? 0)%nat) with true by (destruct last; [by destruct (Hlast Hs)|done]). cbn [orb].
    destruct (om_absorb_at elems stray Hne (length last) x p last Hp ltac:(lia) ltac:(lia)) as (p' & E & Hp'). rewrite E, !run_bind_l. clear E.
    rewrite firstn_all, absorb_padded by lia. rewrite gf_mulx_double by apply double_bytes.
    rewrite drop_all in Hp'. rewrite (om_at_nil _ _ Hp').
    rewrite Hx. change (16 - 1)%nat with 15%nat. rewrite (xor_comm _ (xor_bytes x _)), xor_assoc. reflexivity.
Qed.

(** The empty message: one empty element, nothing read. *)
Lemma omac1_cmac_nil stray key ek : encrypt_init true key = Some ek →
  omac1_aes_128_vector [[]] stray true key = Ret (Some (rfc4493_cmac ek []), false).
Proof.
  intros He. unfold omac1_aes_128_vector, rfc4493_cmac. rewrite He. pose proof (length_block ek (repeat 0 16)) as HL.
  pose proof (encrypt_bytes ek (repeat 0 16)) as HB. rewrite (gf_mulx_double _ HL HB). set (K := rfc4493_double (aes_encrypt ek _)).
  change (om_blocks _ _ _ _ _ _ _) with (Ret (0%nat, repeat 0 16, om_element [[]] stray 0 false)). rewrite run_bind_l.
  change (om_absorb _ _ _ _ _) with (Ret (repeat 0 16, om_element [[]] stray 0 false)). cbv zeta.
  change (negb (0 =? 0)%nat || _) with true. rewrite !run_bind_l. rewrite gf_mulx_double by apply double_bytes.
  change (om_over _) with false. do 4 f_equal. 
  change (<[_ := _]> (repeat 0 16)) with (xor_bytes (repeat 0 16) ([] ++ [0x80] ++ repeat 0 15)).
  rewrite (xor_comm _ (xor_bytes _ _)). apply xor_assoc.
Qed.

(** ** EAX *)

(** The three MACs of EAX: OMAC with a tweak block. *)
Definition eax_omac (ek : list Z) (t : Z) (m : list Z) : list Z := rfc4493_cmac ek (repeat 0 15 ++ [t] ++ m).
Definition eax_tag (ek nonce hdr c : list Z) : list Z :=
  xor_bytes (xor_bytes (eax_omac ek 0 nonce) (eax_omac ek 2 c)) (eax_omac ek 1 hdr).

Lemma eax_mac_omac stray alloc i t key ek m : alloc i = true → encrypt_init true key = Some ek →
  eax_mac stray alloc i t key m = Ret (Some (eax_omac ek t m)).
Proof.
  intros Ha He. unfold eax_mac, omac1_aes_128. rewrite Ha, (omac1_cmac _ _ _ ek), run_bind_l; [|done| |done].
  - cbn [concat]. rewrite app_nil_r. reflexivity.
  - constructor; [done|constructor].
Qed.

Lemma length_cmac ek m : length (rfc4493_cmac ek m) = 16%nat.
Proof. unfold rfc4493_cmac. destruct (cmac_chain _ _ _ _). apply length_block. Qed.
Lemma cmac_bytes ek m : bytes_ok (rfc4493_cmac ek m).
Proof. unfold rfc4493_cmac. destruct (cmac_chain _ _ _ _). apply encrypt_bytes. Qed.
Lemma length_eax_tag ek nonce hdr c : length (eax_tag ek nonce hdr c) = 16%nat.
Proof. unfold eax_tag, xor_bytes, eax_omac. rewrite !length_zip_with, !length_cmac. reflexivity. Qed.

(** EAX encryption returns the counter-mode ciphertext under the MAC of the nonce, and
    the tag; decryption checks the tag over what it received. *)
Lemma eax_encrypt_eq stray key ek nonce hdr data tag0 : encrypt_init true key = Some ek →
  ∃ c, aes_128_ctr_encrypt true key (eax_omac ek 0 nonce) data = Ret (0, c) ∧
    aes_128_eax_encrypt stray (λ _, true) key nonce hdr data tag0 = Ret (0, c, eax_tag ek nonce hdr c).
Proof.
  intros He. unfold aes_128_eax_encrypt. cbn [negb]. rewrite !(eax_mac_omac _ _ _ _ _ ek) by done. rewrite !run_bind_l.
  unfold aes_128_ctr_encrypt at 1 2. rewrite He, ctr_stream by done. rewrite !run_bind_l. eexists. split; [done|].
  cbn [negb Z.eqb]. by rewrite (eax_mac_omac _ _ _ _ _ ek), run_bind_l by done.
Qed.

Lemma eax_decrypt_eq stray key ek nonce hdr c tag : encrypt_init true key = Some ek →
  aes_128_eax_decrypt stray (λ _, true) key nonce hdr c tag =
  if bool_decide (take 16 tag = eax_tag ek nonce hdr c)
  then aes_128_ctr_encrypt true key (eax_omac ek 0 nonce) c else Ret (-2, c).
Proof. intros He. unfold aes_128_eax_decrypt. cbn [negb]. rewrite !(eax_mac_omac _ _ _ _ _ ek) by done. by rewrite !run_bind_l. Qed.

Lemma encrypt_init_fails key : encrypt_init false key = None.
Proof. unfold encrypt_init, aes_encrypt_init. by destruct (bool_decide _). Qed.

Lemma eax_mac_total stray alloc i t key ek m : encrypt_init true key = Some ek →
  eax_mac stray alloc i t key m = Ret (if alloc i then Some (eax_omac ek t m) else None).
Proof.
  intros He. destruct (alloc i) eqn:Ha; [by apply eax_mac_omac|].
  unfold eax_mac, omac1_aes_128, omac1_aes_128_vector. by rewrite Ha, encrypt_init_fails.
Qed.

Lemma eax_decrypt_untouched stray alloc key ek nonce hdr c tag : encrypt_init true key = Some ek →
  ∃ r d, aes_128_eax_decrypt stray alloc key nonce hdr c tag = Ret (r, d) ∧ (r ≠ 0 → d = c).
Proof.
  intros He. unfold aes_128_eax_decrypt. destruct (alloc 0%nat); cbn [negb]; [|do 2 eexists; split; [reflexivity|done]].
  rewrite !(eax_mac_total _ _ _ _ _ ek) by done. rewrite run_bind_l.
  destruct (alloc 1%nat); [rewrite run_bind_l|do 2 eexists; split; [reflexivity|done]].
  destruct (alloc 2%nat); [rewrite run_bind_l|do 2 eexists; split; [reflexivity|done]].
  destruct (alloc 3%nat); [|do 2 eexists; split; [reflexivity|done]].
  case_bool_decide; [|do 2 eexists; split; [reflexivity|done]]. destruct (alloc 4%nat).
  - destruct (ctr_twice key ek (eax_omac ek 0 nonce) c He) as (c' & Hc & _). rewrite Hc. do 2 eexists; split; [reflexivity|done].
  - unfold aes_128_ctr_encrypt. rewrite encrypt_init_fails. do 2 eexists; split; [reflexivity|done].
Qed.

(** ** Claims *)

(** C33: the OMAC1 message authentication code is the AES-CMAC of RFC 4493 of the
    concatenated elements, whatever their number and lengths, as long as none is
    empty; the doubling by shifts, the loop that walks over element boundaries inside a
    block, the deferred encryption of a last whole block and the 0x80 padding all agree
    with the standard.  Computing it reads the address and length arrays one entry past
    their end, since the next element is fetched before it is known to be needed. *)
Theorem omac1_is_cmac elems stray key :
  (16 ≤ length key)%nat → elems ≠ [] → Forall (λ d, d ≠ []) elems →
  ∃ ek, aes_encrypt_init true (take 16 key) = Some ek ∧
    omac1_aes_128_vector elems stray true key = Ret (Some (rfc4493_cmac ek (concat elems)), true) ∧
    omac1_aes_128_vector [[]] stray true key = Ret (Some (rfc4493_cmac ek []), false).
Proof.
  intros Hk Hn Hne. assert (H16 : length (take 16 key) = 16%nat) by (rewrite length_take; lia).
  destruct (init_ok (take 16 key) H16) as [He _]. exists (rijndaelKeySetupEnc (take 16 key)). split; [exact He|].
  split; [by apply omac1_cmac|by apply omac1_cmac_nil].
Qed.

Lemma omac1_is_cmac_witness :
  ∃ ek, aes_encrypt_init true (take 16 (repeat 7 16)) = Some ek ∧
    omac1_aes_128_vector [[1; 2]; [3]] [] true (repeat 7 16) = Ret (Some (rfc4493_cmac ek [1; 2; 3]), true) ∧
    omac1_aes_128_vector [[]] [] true (repeat 7 16) = Ret (Some (rfc4493_cmac ek []), false).
Proof. apply (omac1_is_cmac [[1; 2]; [3]] [] (repeat 7 16)); [cbn; lia|discriminate|repeat constructor; discriminate]. Defined.

(** An empty element in the middle makes the code read the byte behind it. *)
Lemma omac1_empty_element :
  omac1_aes_128_vector [[1]; []; [2]] [] true (repeat 7 16) = UB OutOfBounds.
Proof. vm_compute. reflexivity. Qed.

(** RFC 4493, test vectors 1 and 3. *)
Definition rfc4493_key : list Z :=
  [0x2b; 0x7e; 0x15; 0x16; 0x28; 0xae; 0xd2; 0xa6; 0xab; 0xf7; 0x15; 0x88; 0x09; 0xcf; 0x4f; 0x3c].
Definition rfc4493_m40 : list Z :=
  [0x6b; 0xc1; 0xbe; 0xe2; 0x2e; 0x40; 0x9f; 0x96; 0xe9; 0x3d; 0x7e; 0x11; 0x73; 0x93; 0x17; 0x2a;
   0xae; 0x2d; 0x8a; 0x57; 0x1e; 0x03; 0xac; 0x9c; 0x9e; 0xb7; 0x6f; 0xac; 0x45; 0xaf; 0x8e; 0x51;
   0x30; 0xc8; 0x1c; 0x46; 0xa3; 0x5c; 0xe4; 0x11].
Example rfc4493_vectors :
  omac1_aes_128 [] true rfc4493_key [] =
    Ret (Some [0xbb; 0x1d; 0x69; 0x29; 0xe9; 0x59; 0x37; 0x28; 0x7f; 0xa3; 0x7d; 0x12; 0x9b; 0x75; 0x67; 0x46]) ∧
  omac1_aes_128 [] true rfc4493_key rfc4493_m40 =
    Ret (Some [0xdf; 0xa6; 0x67; 0x47; 0xde; 0x9a; 0xe6; 0x30; 0x30; 0xca; 0x32; 0x61; 0x14; 0x97; 0xc8; 0x27]).
Proof. vm_compute. split; reflexivity. Qed.

(** C38: EAX: what encryption returns, decryption under the same key, nonce and header
    turns back into the data; a received tag whose 16 bytes are not the tag of the
    received ciphertext is answered with -2; and whenever decryption fails, for a wrong
    tag or any failed allocation, the caller's buffer still holds the ciphertext. *)
Theorem eax_authenticated stray key nonce hdr data tag0 :
  (16 ≤ length key)%nat →
  ∃ ek, aes_encrypt_init true (take 16 key) = Some ek ∧
    (∃ c tag, aes_128_eax_encrypt stray (λ _, true) key nonce hdr data tag0 = Ret (0, c, tag) ∧
       length c = length data ∧ length tag = 16%nat ∧
       ∀ rest, aes_128_eax_decrypt stray (λ _, true) key nonce hdr c (tag ++ rest) = Ret (0, data)) ∧
    (∀ c tag, take 16 tag ≠ eax_tag ek nonce hdr c →
       aes_128_eax_decrypt stray (λ _, true) key nonce hdr c tag = Ret (-2, c)) ∧
    (∀ alloc c tag, ∃ r d, aes_128_eax_decrypt stray alloc key nonce hdr c tag = Ret (r, d) ∧ (r ≠ 0 → d = c)).
Proof.
  intros Hk. assert (H16 : length (take 16 key) = 16%nat) by (rewrite length_take; lia).
  destruct (init_ok (take 16 key) H16) as [He _]. exists (rijndaelKeySetupEnc (take 16 key)). split; [exact He|].
  set (ek := rijndaelKeySetupEnc _) in *. change (encrypt_init true key = Some ek) in He. split; [|split].
  - destruct (eax_encrypt_eq stray key ek nonce hdr data tag0 He) as (c & Hc & E). exists c, (eax_tag ek nonce hdr c).
    destruct (ctr_twice key ek (eax_omac ek 0 nonce) data He) as (c' & Hc' & Hl & Hd). rewrite Hc in Hc'. injection Hc' as <-.
    split; [exact E|]. split; [exact Hl|]. split; [apply length_eax_tag|]. intros rest. rewrite (eax_decrypt_eq _ _ ek) by done.
    rewrite take_app_length', bool_decide_true by (done || by rewrite length_eax_tag). exact Hd.
  - intros c tag Ht. rewrite (eax_decrypt_eq _ _ ek) by done. by rewrite bool_decide_false.
  - intros alloc c tag. exact (eax_decrypt_untouched stray alloc key ek nonce hdr c tag He).
Qed.

Lemma eax_authenticated_witness :
  ∃ c tag, aes_128_eax_encrypt [] (λ _, true) (repeat 7 16) [1] [2; 3] [4; 5; 6] [] = Ret (0, c, tag) ∧
    aes_128_eax_decrypt [] (λ _, true) (repeat 7 16) [1] [2; 3] c tag = Ret (0, [4; 5; 6]).
Proof.
  destruct (eax_authenticated [] (repeat 7 16) [1] [2; 3] [4; 5; 6] [] ltac:(cbn; lia)) as (ek & _ & (c & tag & E & _ & _ & Hd) & _).
  exists c, tag. split; [exact E|]. specialize (Hd []). rewrite app_nil_r in Hd. exact Hd.
Defined.
