(* ===== verification/EapolSupp.v ===== *)
(** * EAPOL supplicant state machines (src/src/eapol_supp/eapol_supp_sm.c)

    The three IEEE 802.1X-2004 supplicant machines (PAE, key receive, backend)
    share [struct eapol_sm]; here a record with the same fields, a C [Boolean]
    being a [bool] and an [unsigned int] an integer kept below [2^32].  A [sys]
    pairs it with the state of the EAP layer below and with the list of effects
    performed so far: calls through [struct eapol_ctx] and event-loop timer
    operations, newest last.  The EAP layer is reached through the class
    [EapPeer]; it acts on the EAPOL variables only by the callbacks of
    [eapol_cb], here the writes it returns.  [eloop] itself and the functions
    behind the callbacks are not part of this component. *)

From S2P Require Import Prelude Merkle Md5 Rc4.

(** ** Data *)

Inductive PortStatus := Unauthorized | Authorized.
Inductive PortControl := Auto | ForceUnauthorized | ForceAuthorized.

Inductive supp_pae_state :=
| SUPP_PAE_UNKNOWN | SUPP_PAE_DISCONNECTED | SUPP_PAE_LOGOFF | SUPP_PAE_CONNECTING
| SUPP_PAE_AUTHENTICATING | SUPP_PAE_AUTHENTICATED | SUPP_PAE_HELD | SUPP_PAE_RESTART
| SUPP_PAE_S_FORCE_AUTH | SUPP_PAE_S_FORCE_UNAUTH.

Inductive key_rx_state := KEY_RX_UNKNOWN | KEY_RX_NO_KEY_RECEIVE | KEY_RX_KEY_RECEIVE.

Inductive supp_be_state :=
| SUPP_BE_UNKNOWN | SUPP_BE_INITIALIZE | SUPP_BE_IDLE | SUPP_BE_REQUEST | SUPP_BE_RECEIVE
| SUPP_BE_RESPONSE | SUPP_BE_FAIL | SUPP_BE_TIMEOUT | SUPP_BE_SUCCESS.

Inductive eapol_cb_status := EAPOL_CB_IN_PROGRESS | EAPOL_CB_SUCCESS | EAPOL_CB_FAILURE.

#[global] Instance PortStatus_eq_dec : EqDecision PortStatus.
Proof. solve_decision. Defined.
#[global] Instance PortControl_eq_dec : EqDecision PortControl.
Proof. solve_decision. Defined.
#[global] Instance supp_pae_state_eq_dec : EqDecision supp_pae_state.
Proof. solve_decision. Defined.
#[global] Instance key_rx_state_eq_dec : EqDecision key_rx_state.
Proof. solve_decision. Defined.
#[global] Instance supp_be_state_eq_dec : EqDecision supp_be_state.
Proof. solve_decision. Defined.
#[global] Instance eapol_cb_status_eq_dec : EqDecision eapol_cb_status.
Proof. solve_decision. Defined.

Record eapol_config := EapolConfig {
  accept_802_1x_keys : bool;
  required_keys : Z;
  fast_reauth : bool;
  workaround : Z;
  eap_disabled : bool
}.

Record eapol_sm := EapolSm {
  authWhile : Z; heldWhile : Z; startWhen : Z; idleWhile : Z; timer_tick_enabled : bool;
  eapFail : bool; eapolEap : bool; eapSuccess : bool; initialize : bool;
  keyDone : bool; keyRun : bool; portControl : PortControl; portEnabled : bool;
  suppPortStatus : PortStatus; portValid : bool; suppAbort : bool; suppFail : bool;
  suppStart : bool; suppSuccess : bool; suppTimeout : bool;
  SUPP_PAE_state : supp_pae_state;
  userLogoff : bool; logoffSent : bool; startCount : Z; eapRestart : bool;
  sPortMode : PortControl;
  heldPeriod : Z; startPeriod : Z; maxStart : Z;
  KEY_RX_state : key_rx_state; rxKey : bool;
  SUPP_BE_state : supp_be_state;
  eapNoResp : bool; eapReq : bool; eapResp : bool; authPeriod : Z;
  dot1xSuppEapolFramesRx : Z; dot1xSuppEapolFramesTx : Z;
  dot1xSuppEapolStartFramesTx : Z; dot1xSuppEapolLogoffFramesTx : Z;
  dot1xSuppEapolRespFramesTx : Z; dot1xSuppEapolReqIdFramesRx : Z;
  dot1xSuppEapolReqFramesRx : Z; dot1xSuppInvalidEapolFramesRx : Z;
  dot1xSuppEapLengthErrorFramesRx : Z; dot1xSuppLastEapolFrameVersion : Z;
  dot1xSuppLastEapolFrameSource : list Z;
  changed : bool; initial_req : bool; last_rx_key : option (list Z);
  eapReqData : option (list Z); altAccept : bool; altReject : bool;
  replay_counter_valid : bool; last_replay_counter : list Z;
  conf : eapol_config; cb_status : eapol_cb_status; cached_pmk : bool;
  unicast_key_received : bool; broadcast_key_received : bool
}.

#[global] Instance eta_eapol_sm : Eta eapol_sm := λ r,
  EapolSm (authWhile r) (heldWhile r) (startWhen r) (idleWhile r) (timer_tick_enabled r)
    (eapFail r) (eapolEap r) (eapSuccess r) (initialize r) (keyDone r) (keyRun r)
    (portControl r) (portEnabled r) (suppPortStatus r) (portValid r) (suppAbort r)
    (suppFail r) (suppStart r) (suppSuccess r) (suppTimeout r) (SUPP_PAE_state r)
    (userLogoff r) (logoffSent r) (startCount r) (eapRestart r) (sPortMode r)
    (heldPeriod r) (startPeriod r) (maxStart r) (KEY_RX_state r) (rxKey r)
    (SUPP_BE_state r) (eapNoResp r) (eapReq r) (eapResp r) (authPeriod r)
    (dot1xSuppEapolFramesRx r) (dot1xSuppEapolFramesTx r) (dot1xSuppEapolStartFramesTx r)
    (dot1xSuppEapolLogoffFramesTx r) (dot1xSuppEapolRespFramesTx r)
    (dot1xSuppEapolReqIdFramesRx r) (dot1xSuppEapolReqFramesRx r)
    (dot1xSuppInvalidEapolFramesRx r) (dot1xSuppEapLengthErrorFramesRx r)
    (dot1xSuppLastEapolFrameVersion r) (dot1xSuppLastEapolFrameSource r)
    (changed r) (initial_req r) (last_rx_key r) (eapReqData r) (altAccept r) (altReject r)
    (replay_counter_valid r) (last_replay_counter r) (conf r) (cb_status r) (cached_pmk r)
    (unicast_key_received r) (broadcast_key_received r).

(** Event-loop timeouts of the component. *)
Inductive timeout_handler := PortTimersTick | SmStepTimeout.

Inductive event :=
| EapolSend (type : Z) (body : list Z)
| PortCb (authorized : bool)
| EapolDone
| Completed (success : bool)
| SetWepKey (unicast : bool) (keyidx : Z) (key : list Z)
| AbortedCached
| RegisterTimeout (sec : Z) (h : timeout_handler)
| CancelTimeout (h : timeout_handler).

(** Which optional callbacks of [struct eapol_ctx] are set, and the result of
    the driver's [set_wep_key]. *)
Record eapol_ctx := EapolCtx {
  has_cb : bool;
  has_port_cb : bool;
  has_eapol_done_cb : bool;
  has_aborted_cached : bool;
  set_wep_key : option (bool → Z → list Z → Z)
}.

(** ** The interface to the EAP layer *)

Inductive eapol_bool_var :=
| EAPOL_eapSuccess | EAPOL_eapRestart | EAPOL_eapFail | EAPOL_eapResp | EAPOL_eapNoResp
| EAPOL_eapReq | EAPOL_portEnabled | EAPOL_altAccept | EAPOL_altReject.

#[global] Instance eapol_bool_var_eq_dec : EqDecision eapol_bool_var.
Proof. solve_decision. Defined.

(** What the EAP layer reads ([get_bool], [get_int], [get_eapReqData]) and
    writes ([set_bool], [set_int]) of its caller. *)
Record eap_view := EapView {
  view_bool : eapol_bool_var → bool;
  view_idleWhile : Z;
  view_eapReqData : option (list Z)
}.

Inductive eap_write :=
| SetBool (v : eapol_bool_var) (b : bool)
| SetIdleWhile (n : Z).

Class EapPeer (E : Type) := {
  eap_peer_sm_step : E → eap_view → E * list eap_write * bool;
  eap_sm_abort : E → E * list eap_write;
  eap_key_available : E → bool;
  eap_get_eapKeyData : E → option (list Z);
  eap_get_eapRespData : E → E * option (list Z);
  eap_notify_success : E → E;
  eap_notify_lower_layer_success : E → eap_view → E * list eap_write;
  eap_set_fast_reauth : E → bool → E;
  eap_set_workaround : E → Z → E;
  eap_set_force_disabled : E → bool → E;
  eap_sm_notify_ctrl_attached : E → E;
  eap_invalidate_cached_session : E → E
}.

(** The EAP layer never writes [portEnabled]; its boolean writes are to the
    other variables of [eapol_sm_set_bool]. *)
Definition write_ok (w : eap_write) : Prop :=
  match w with SetBool EAPOL_portEnabled _ => False | _ => True end.

Class EapPeerOk (E : Type) `{!EapPeer E} : Prop := {
  eap_step_writes e v e' ws c : eap_peer_sm_step e v = (e', ws, c) → Forall write_ok ws;
  eap_abort_writes e e' ws : eap_sm_abort e = (e', ws) → Forall write_ok ws;
  eap_lower_writes e v e' ws :
    eap_notify_lower_layer_success e v = (e', ws) → Forall write_ok ws
}.

(** ** Operations *)

Section eapol.
Context {E : Type} `{!EapPeer E}.
(** The callbacks of the owner, whether the build has CONFIG_WPS, and the
    uninitialised stack memory of [keydata] and of the hash contexts. *)
Context (ctx : eapol_ctx) (config_wps : bool) (junk mem : list Z).

Record sys := Sys { sm : eapol_sm; eap : E; out : list event }.

#[global] Instance eta_sys : Eta sys := λ s, Sys (sm s) (eap s) (out s).

Local Notation "s .[ f := v ]" := (s <| sm := (sm s) <| f := v |> |>)
  (at level 12, f at next level, left associativity).

Definition emit (e : event) (s : sys) : sys := s <| out := out s ++ [e] |>.

Definition eapol_enable_timer_tick (s : sys) : sys :=
  if timer_tick_enabled (sm s) then s
  else
    let s := s.[timer_tick_enabled := true] in
    let s := emit (CancelTimeout PortTimersTick) s in
    emit (RegisterTimeout 1 PortTimersTick) s.

Definition eapol_sm_get_bool (s : sys) (v : eapol_bool_var) : bool :=
  match v with
  | EAPOL_eapSuccess => eapSuccess (sm s)
  | EAPOL_eapRestart => eapRestart (sm s)
  | EAPOL_eapFail => eapFail (sm s)
  | EAPOL_eapResp => eapResp (sm s)
  | EAPOL_eapNoResp => eapNoResp (sm s)
  | EAPOL_eapReq => eapReq (sm s)
  | EAPOL_portEnabled => portEnabled (sm s)
  | EAPOL_altAccept => altAccept (sm s)
  | EAPOL_altReject => altReject (sm s)
  end.

Definition eapol_sm_set_bool (s : sys) (v : eapol_bool_var) (b : bool) : sys :=
  match v with
  | EAPOL_eapSuccess => s.[eapSuccess := b]
  | EAPOL_eapRestart => s.[eapRestart := b]
  | EAPOL_eapFail => s.[eapFail := b]
  | EAPOL_eapResp => s.[eapResp := b]
  | EAPOL_eapNoResp => s.[eapNoResp := b]
  | EAPOL_eapReq => s.[eapReq := b]
  | EAPOL_portEnabled => s.[portEnabled := b]
  | EAPOL_altAccept => s.[altAccept := b]
  | EAPOL_altReject => s.[altReject := b]
  end.

Definition eapol_sm_get_int (s : sys) : Z := idleWhile (sm s).

Definition eapol_sm_set_int (s : sys) (value : Z) : sys :=
  eapol_enable_timer_tick (s.[idleWhile := value]).

Definition eapol_sm_get_eapReqData (s : sys) : option (list Z) := eapReqData (sm s).

(** The view the EAP layer gets and the effect of its writes. *)
Definition view (s : sys) : eap_view :=
  EapView (eapol_sm_get_bool s) (eapol_sm_get_int s) (eapol_sm_get_eapReqData s).

Definition apply_write (s : sys) (w : eap_write) : sys :=
  match w with
  | SetBool v b => eapol_sm_set_bool s v b
  | SetIdleWhile n => eapol_sm_set_int s n
  end.

Definition apply_writes (s : sys) (ws : list eap_write) : sys := foldl apply_write s ws.

Definition eapol_sm_set_port_authorized (s : sys) : sys :=
  if has_port_cb ctx then emit (PortCb true) s else s.

Definition eapol_sm_set_port_unauthorized (s : sys) : sys :=
  if has_port_cb ctx then emit (PortCb false) s else s.

Definition eapol_done (s : sys) : sys :=
  if has_eapol_done_cb ctx then emit EapolDone s else s.

Definition IEEE802_1X_TYPE_EAP_PACKET : Z := 0.
Definition IEEE802_1X_TYPE_EAPOL_START : Z := 1.
Definition IEEE802_1X_TYPE_EAPOL_LOGOFF : Z := 2.
Definition IEEE802_1X_TYPE_EAPOL_KEY : Z := 3.

Definition eapol_sm_txLogoff (s : sys) : sys :=
  let s := emit (EapolSend IEEE802_1X_TYPE_EAPOL_LOGOFF []) s in
  let s := s.[dot1xSuppEapolLogoffFramesTx := u32 (dot1xSuppEapolLogoffFramesTx (sm s) + 1)] in
  s.[dot1xSuppEapolFramesTx := u32 (dot1xSuppEapolFramesTx (sm s) + 1)].

Definition eapol_sm_txStart (s : sys) : sys :=
  let s := emit (EapolSend IEEE802_1X_TYPE_EAPOL_START []) s in
  let s := s.[dot1xSuppEapolStartFramesTx := u32 (dot1xSuppEapolStartFramesTx (sm s) + 1)] in
  s.[dot1xSuppEapolFramesTx := u32 (dot1xSuppEapolFramesTx (sm s) + 1)].

(** *** SUPP_PAE *)

(** [SM_ENTRY]: [changed] is set unless a global rule re-enters the state. *)
Definition pae_entry (global : bool) (st : supp_pae_state) (s : sys) : sys :=
  let s := if negb global || bool_decide (SUPP_PAE_state (sm s) ≠ st)
           then s.[changed := true] else s in
  s.[SUPP_PAE_state := st].

Definition sm_SUPP_PAE_LOGOFF_Enter (global : bool) (s : sys) : sys :=
  let s := pae_entry global SUPP_PAE_LOGOFF s in
  let s := eapol_sm_txLogoff s in
  let s := s.[logoffSent := true] in
  let s := s.[suppPortStatus := Unauthorized] in
  eapol_sm_set_port_unauthorized s.

Definition sm_SUPP_PAE_DISCONNECTED_Enter (global : bool) (s : sys) : sys :=
  let s := pae_entry global SUPP_PAE_DISCONNECTED s in
  let s := s.[sPortMode := Auto] in
  let s := s.[startCount := 0] in
  let s := s.[logoffSent := false] in
  let s := s.[suppPortStatus := Unauthorized] in
  let s := eapol_sm_set_port_unauthorized s in
  let s := s.[suppAbort := true] in
  let s := s.[unicast_key_received := false] in
  s.[broadcast_key_received := false].

Definition sm_SUPP_PAE_CONNECTING_Enter (global : bool) (s : sys) : sys :=
  let send_start := bool_decide (SUPP_PAE_state (sm s) = SUPP_PAE_CONNECTING) in
  let s := pae_entry global SUPP_PAE_CONNECTING s in
  let s := if send_start then
             let s := s.[startWhen := startPeriod (sm s)] in
             s.[startCount := u32 (startCount (sm s) + 1)]
           else s.[startWhen := if config_wps then 1 else 3] in
  let s := eapol_enable_timer_tick s in
  let s := s.[eapolEap := false] in
  if send_start then eapol_sm_txStart s else s.

Definition sm_SUPP_PAE_AUTHENTICATING_Enter (global : bool) (s : sys) : sys :=
  let s := pae_entry global SUPP_PAE_AUTHENTICATING s in
  let s := s.[startCount := 0] in
  let s := s.[suppSuccess := false] in
  let s := s.[suppFail := false] in
  let s := s.[suppTimeout := false] in
  let s := s.[keyRun := false] in
  let s := s.[keyDone := false] in
  s.[suppStart := true].

Definition sm_SUPP_PAE_HELD_Enter (global : bool) (s : sys) : sys :=
  let s := pae_entry global SUPP_PAE_HELD s in
  let s := s.[heldWhile := heldPeriod (sm s)] in
  let s := eapol_enable_timer_tick s in
  let s := s.[suppPortStatus := Unauthorized] in
  let s := eapol_sm_set_port_unauthorized s in
  s.[cb_status := EAPOL_CB_FAILURE].

Definition sm_SUPP_PAE_AUTHENTICATED_Enter (global : bool) (s : sys) : sys :=
  let s := pae_entry global SUPP_PAE_AUTHENTICATED s in
  let s := s.[suppPortStatus := Authorized] in
  let s := eapol_sm_set_port_authorized s in
  s.[cb_status := EAPOL_CB_SUCCESS].

Definition sm_SUPP_PAE_RESTART_Enter (global : bool) (s : sys) : sys :=
  let s := pae_entry global SUPP_PAE_RESTART s in
  s.[eapRestart := true].

Definition sm_SUPP_PAE_S_FORCE_AUTH_Enter (global : bool) (s : sys) : sys :=
  let s := pae_entry global SUPP_PAE_S_FORCE_AUTH s in
  let s := s.[suppPortStatus := Authorized] in
  let s := eapol_sm_set_port_authorized s in
  s.[sPortMode := ForceAuthorized].

Definition sm_SUPP_PAE_S_FORCE_UNAUTH_Enter (global : bool) (s : sys) : sys :=
  let s := pae_entry global SUPP_PAE_S_FORCE_UNAUTH s in
  let s := s.[suppPortStatus := Unauthorized] in
  let s := eapol_sm_set_port_unauthorized s in
  let s := s.[sPortMode := ForceUnauthorized] in
  eapol_sm_txLogoff s.

Definition SM_STEP_SUPP_PAE (s : sys) : sys :=
  let m := sm s in
  let off := initialize m || negb (portEnabled m) in
  let mode_differs := bool_decide (sPortMode m ≠ portControl m) in
  if (userLogoff m && negb (logoffSent m)) && negb off then
    sm_SUPP_PAE_LOGOFF_Enter true s
  else if (bool_decide (portControl m = Auto) && mode_differs) || off then
    sm_SUPP_PAE_DISCONNECTED_Enter true s
  else if bool_decide (portControl m = ForceAuthorized) && mode_differs && negb off then
    sm_SUPP_PAE_S_FORCE_AUTH_Enter true s
  else if bool_decide (portControl m = ForceUnauthorized) && mode_differs && negb off then
    sm_SUPP_PAE_S_FORCE_UNAUTH_Enter true s
  else match SUPP_PAE_state m with
  | SUPP_PAE_UNKNOWN => s
  | SUPP_PAE_LOGOFF =>
      if negb (userLogoff m) then sm_SUPP_PAE_DISCONNECTED_Enter false s else s
  | SUPP_PAE_DISCONNECTED => sm_SUPP_PAE_CONNECTING_Enter false s
  | SUPP_PAE_CONNECTING =>
      if (startWhen m =? 0) && (startCount m <? maxStart m) then
        sm_SUPP_PAE_CONNECTING_Enter false s
      else if (startWhen m =? 0) && (maxStart m <=? startCount m) && portValid m then
        sm_SUPP_PAE_AUTHENTICATED_Enter false s
      else if eapSuccess m || eapFail m then sm_SUPP_PAE_AUTHENTICATING_Enter false s
      else if eapolEap m then sm_SUPP_PAE_RESTART_Enter false s
      else if (startWhen m =? 0) && (maxStart m <=? startCount m) && negb (portValid m) then
        sm_SUPP_PAE_HELD_Enter false s
      else s
  | SUPP_PAE_AUTHENTICATING =>
      let s := if eapSuccess m && negb (portValid m) && accept_802_1x_keys (conf m) &&
                  (required_keys (conf m) =? 0)
               then eapol_done (s.[portValid := true]) else s in
      if eapSuccess (sm s) && portValid (sm s) then sm_SUPP_PAE_AUTHENTICATED_Enter false s
      else if eapFail (sm s) || (keyDone (sm s) && negb (portValid (sm s))) then
        sm_SUPP_PAE_HELD_Enter false s
      else if suppTimeout (sm s) then sm_SUPP_PAE_CONNECTING_Enter false s
      else s
  | SUPP_PAE_HELD =>
      if heldWhile m =? 0 then sm_SUPP_PAE_CONNECTING_Enter false s
      else if eapolEap m then sm_SUPP_PAE_RESTART_Enter false s
      else s
  | SUPP_PAE_AUTHENTICATED =>
      if eapolEap m && portValid m then sm_SUPP_PAE_RESTART_Enter false s
      else if negb (portValid m) then sm_SUPP_PAE_DISCONNECTED_Enter false s
      else s
  | SUPP_PAE_RESTART =>
      if negb (eapRestart m) then sm_SUPP_PAE_AUTHENTICATING_Enter false s else s
  | SUPP_PAE_S_FORCE_AUTH => s
  | SUPP_PAE_S_FORCE_UNAUTH => s
  end.

(** *** EAPOL-Key processing *)

(** Result and destination buffer of the copy of the EAP keying material. *)
Definition eapol_sm_get_key (s : sys) (key : list Z) (len : nat) : Z * list Z :=
  if negb (eap_key_available (eap s)) then (-1, key)
  else match eap_get_eapKeyData (eap s) with
  | None => (-1, key)
  | Some eap_key =>
      if (length eap_key <? len)%nat then (Z.of_nat (length eap_key), key)
      else (0, splice key 0 (take len eap_key))
  end.

(** The effect on the EAP layer; the trailing [eapol_sm_step] of the external
    notification is in [eapol_sm_notify_lower_layer_success]. *)
Definition eapol_sm_lower_layer_success (s : sys) : sys :=
  let '(e, ws) := eap_notify_lower_layer_success (eap s) (view s) in
  apply_writes (s <| eap := e |>) ws.

Definition IEEE8021X_KEY_INDEX_FLAG : Z := 0x80.
Definition IEEE8021X_KEY_INDEX_MASK : Z := 0x03.
Definition EAPOL_REQUIRE_KEY_UNICAST : Z := 1.
Definition EAPOL_REQUIRE_KEY_BROADCAST : Z := 2.
(** sizeof(struct ieee802_1x_hdr) and sizeof(struct ieee802_1x_eapol_key) *)
Definition sizeof_hdr : nat := 4.
Definition sizeof_key : nat := 44.

(** The keying material of [processKey] with the lengths of its two halves,
    [None] on the early returns. *)
Definition processKey_keydata (s : sys) : option (list Z * nat) :=
  let '(res, keydata) := eapol_sm_get_key s junk 64 in
  if res <? 0 then None
  else if res =? 16 then
    let '(res, keydata) := eapol_sm_get_key s keydata 16 in
    if negb (res =? 0) then None
    else Some (splice keydata 32 (take 16 keydata), 16%nat)
  else if negb (res =? 0) then None
  else Some (keydata, 32%nat).

(** Installation of an accepted key and the completion test. *)
Definition processKey_install (s : sys) (key_index : Z) (datakey : list Z) : sys :=
  let unicast := negb (Z.land key_index IEEE8021X_KEY_INDEX_FLAG =? 0) in
  let idx := Z.land key_index IEEE8021X_KEY_INDEX_MASK in
  let s := match set_wep_key ctx with
           | Some _ => emit (SetWepKey unicast idx datakey) s
           | None => s
           end in
  if match set_wep_key ctx with Some f => f unicast idx datakey <? 0 | None => false end
  then s
  else
    let s := if unicast then s.[unicast_key_received := true]
             else s.[broadcast_key_received := true] in
    let req := required_keys (conf (sm s)) in
    if (unicast_key_received (sm s) || (Z.land req EAPOL_REQUIRE_KEY_UNICAST =? 0)) &&
       (broadcast_key_received (sm s) || (Z.land req EAPOL_REQUIRE_KEY_BROADCAST =? 0))
    then eapol_done (s.[portValid := true])
    else s.

(** The data of a key frame whose signature has been verified, [None] when its
    length does not fit. *)
Definition processKey_datakey (frame keydata : list Z) (klen : nat) (key_len rx_key_length : Z)
  : run (option (list Z)) :=
  if key_len =? rx_key_length then
    iv ← rdn frame 15 16;
    d ← rdn frame (sizeof_hdr + sizeof_key) (Z.to_nat key_len);
    d ← rc4_skip (iv ++ take klen keydata) 0 d;
    Ret (Some d)
  else if key_len =? 0 then
    Ret (Some (take (Z.to_nat rx_key_length) (take 32 keydata)))
  else Ret None.

(** From the replay check on, with the keying material at hand. *)
Definition processKey_verify (s : sys) (frame : list Z) (hlen rx_key_length : Z)
    (keydata : list Z) (klen : nat) : run sys :=
  replay_counter ← rdn frame 7 8;
  if replay_counter_valid (sm s) &&
     (0 <=? memcmp (last_replay_counter (sm s)) replay_counter) then Ret s else
  orig_key_sign ← rdn frame 32 16;
  let frame := splice frame 32 (repeat 0 16) in
  signed ← rdn frame 0 (sizeof_hdr + Z.to_nat hlen);
  let frame := match hmac_md5 mem (take klen (drop 32 keydata)) signed with
               | Some mac => splice frame 32 mac
               | None => frame
               end in
  sign ← rdn frame 32 16;
  if negb (memcmp orig_key_sign sign =? 0) then
    Ret (s.[last_rx_key := Some (splice frame 32 orig_key_sign)])
  else
  let s := s.[last_rx_key := Some frame] in
  let key_len := hlen - Z.of_nat sizeof_key in
  if (32 <? key_len) || (32 <? rx_key_length) then Ret s else
  datakey ← processKey_datakey frame keydata klen key_len rx_key_length;
  match datakey with
  | None => Ret s
  | Some datakey =>
      key_index ← rd frame 31;
      let s := s.[replay_counter_valid := true] in
      let s := s.[last_replay_counter := replay_counter] in
      Ret (processKey_install s key_index datakey)
  end.

Definition eapol_sm_processKey (s : sys) : run sys :=
  match last_rx_key (sm s) with
  | None => Ret s
  | Some frame =>
    if negb (accept_802_1x_keys (conf (sm s))) then Ret s else
    l0 ← rd frame 2; l1 ← rd frame 3;
    let hlen := be16 l0 l1 in
    if Z.of_nat (length frame) <? Z.of_nat sizeof_hdr + hlen then Ret s else
    k0 ← rd frame 5; k1 ← rd frame 6;
    let rx_key_length := be16 k0 k1 in
    let s := eapol_sm_lower_layer_success s in
    match processKey_keydata s with
    | None => Ret s
    | Some (keydata, klen) => processKey_verify s frame hlen rx_key_length keydata klen
    end
  end.

(** *** KEY_RX *)

Definition key_rx_entry (global : bool) (st : key_rx_state) (s : sys) : sys :=
  let s := if negb global || bool_decide (KEY_RX_state (sm s) ≠ st)
           then s.[changed := true] else s in
  s.[KEY_RX_state := st].

Definition sm_KEY_RX_NO_KEY_RECEIVE_Enter (global : bool) (s : sys) : sys :=
  key_rx_entry global KEY_RX_NO_KEY_RECEIVE s.

Definition sm_KEY_RX_KEY_RECEIVE_Enter (global : bool) (s : sys) : run sys :=
  let s := key_rx_entry global KEY_RX_KEY_RECEIVE s in
  s ← eapol_sm_processKey s;
  Ret (s.[rxKey := false]).

Definition SM_STEP_KEY_RX (s : sys) : run sys :=
  let s := if initialize (sm s) || negb (portEnabled (sm s))
           then sm_KEY_RX_NO_KEY_RECEIVE_Enter true s else s in
  match KEY_RX_state (sm s) with
  | KEY_RX_UNKNOWN => Ret s
  | KEY_RX_NO_KEY_RECEIVE =>
      if rxKey (sm s) then sm_KEY_RX_KEY_RECEIVE_Enter false s else Ret s
  | KEY_RX_KEY_RECEIVE =>
      if rxKey (sm s) then sm_KEY_RX_KEY_RECEIVE_Enter false s else Ret s
  end.

(** *** SUPP_BE *)

Definition be_entry (global : bool) (st : supp_be_state) (s : sys) : sys :=
  let s := if negb global || bool_decide (SUPP_BE_state (sm s) ≠ st)
           then s.[changed := true] else s in
  s.[SUPP_BE_state := st].

Definition eapol_sm_txSuppRsp (s : sys) : sys :=
  let '(e, resp) := eap_get_eapRespData (eap s) in
  let s := s <| eap := e |> in
  match resp with
  | None => s
  | Some resp =>
      let s := emit (EapolSend IEEE802_1X_TYPE_EAP_PACKET resp) s in
      let s := if initial_req (sm s)
               then s.[dot1xSuppEapolReqIdFramesRx :=
                         u32 (dot1xSuppEapolReqIdFramesRx (sm s) + 1)]
               else s.[dot1xSuppEapolReqFramesRx :=
                         u32 (dot1xSuppEapolReqFramesRx (sm s) + 1)] in
      let s := s.[dot1xSuppEapolRespFramesTx := u32 (dot1xSuppEapolRespFramesTx (sm s) + 1)] in
      s.[dot1xSuppEapolFramesTx := u32 (dot1xSuppEapolFramesTx (sm s) + 1)]
  end.

Definition eapol_sm_abortSupp (s : sys) : sys :=
  let s := s.[last_rx_key := None] in
  let s := s.[eapReqData := None] in
  let '(e, ws) := eap_sm_abort (eap s) in
  apply_writes (s <| eap := e |>) ws.

Definition sm_SUPP_BE_REQUEST_Enter (global : bool) (s : sys) : sys :=
  let s := be_entry global SUPP_BE_REQUEST s in
  let s := s.[authWhile := 0] in
  s.[eapReq := true].

Definition sm_SUPP_BE_RESPONSE_Enter (global : bool) (s : sys) : sys :=
  let s := be_entry global SUPP_BE_RESPONSE s in
  let s := eapol_sm_txSuppRsp s in
  s.[eapResp := false].

Definition sm_SUPP_BE_SUCCESS_Enter (global : bool) (s : sys) : sys :=
  let s := be_entry global SUPP_BE_SUCCESS s in
  let s := s.[keyRun := true] in
  let s := s.[suppSuccess := true] in
  if eap_key_available (eap s) then s.[replay_counter_valid := false] else s.

Definition sm_SUPP_BE_FAIL_Enter (global : bool) (s : sys) : sys :=
  let s := be_entry global SUPP_BE_FAIL s in
  s.[suppFail := true].

Definition sm_SUPP_BE_TIMEOUT_Enter (global : bool) (s : sys) : sys :=
  let s := be_entry global SUPP_BE_TIMEOUT s in
  s.[suppTimeout := true].

Definition sm_SUPP_BE_IDLE_Enter (global : bool) (s : sys) : sys :=
  let s := be_entry global SUPP_BE_IDLE s in
  let s := s.[suppStart := false] in
  s.[initial_req := true].

Definition sm_SUPP_BE_INITIALIZE_Enter (global : bool) (s : sys) : sys :=
  let s := be_entry global SUPP_BE_INITIALIZE s in
  let s := eapol_sm_abortSupp s in
  s.[suppAbort := false].

Definition sm_SUPP_BE_RECEIVE_Enter (global : bool) (s : sys) : sys :=
  let s := be_entry global SUPP_BE_RECEIVE s in
  let s := s.[authWhile := authPeriod (sm s)] in
  let s := eapol_enable_timer_tick s in
  let s := s.[eapolEap := false] in
  let s := s.[eapNoResp := false] in
  s.[initial_req := false].

Definition SM_STEP_SUPP_BE (s : sys) : sys :=
  let m := sm s in
  if initialize m || suppAbort m then sm_SUPP_BE_INITIALIZE_Enter true s
  else match SUPP_BE_state m with
  | SUPP_BE_UNKNOWN => s
  | SUPP_BE_REQUEST =>
      if eapResp m then sm_SUPP_BE_RESPONSE_Enter false s
      else if eapNoResp m then sm_SUPP_BE_RECEIVE_Enter false s
      else if eapFail m then sm_SUPP_BE_FAIL_Enter false s
      else if eapSuccess m then sm_SUPP_BE_SUCCESS_Enter false s
      else s
  | SUPP_BE_RESPONSE => sm_SUPP_BE_RECEIVE_Enter false s
  | SUPP_BE_SUCCESS => sm_SUPP_BE_IDLE_Enter false s
  | SUPP_BE_FAIL => sm_SUPP_BE_IDLE_Enter false s
  | SUPP_BE_TIMEOUT => sm_SUPP_BE_IDLE_Enter false s
  | SUPP_BE_IDLE =>
      if eapFail m && suppStart m then sm_SUPP_BE_FAIL_Enter false s
      else if eapolEap m && suppStart m then sm_SUPP_BE_REQUEST_Enter false s
      else if eapSuccess m && suppStart m then sm_SUPP_BE_SUCCESS_Enter false s
      else s
  | SUPP_BE_INITIALIZE => sm_SUPP_BE_IDLE_Enter false s
  | SUPP_BE_RECEIVE =>
      if eapolEap m then sm_SUPP_BE_REQUEST_Enter false s
      else if eapFail m then sm_SUPP_BE_FAIL_Enter false s
      else if authWhile m =? 0 then sm_SUPP_BE_TIMEOUT_Enter false s
      else if eapSuccess m then sm_SUPP_BE_SUCCESS_Enter false s
      else s
  end.

(** *** The step function *)

Definition eapol_eap_step (s : sys) : sys :=
  let '(e, ws, progress) := eap_peer_sm_step (eap s) (view s) in
  let s := apply_writes (s <| eap := e |>) ws in
  if progress then s.[changed := true] else s.

(** One iteration of the loop of [eapol_sm_step]. *)
Definition eapol_sm_round (s : sys) : run sys :=
  let s := s.[changed := false] in
  let s := SM_STEP_SUPP_PAE s in
  s ← SM_STEP_KEY_RX s;
  Ret (eapol_eap_step (SM_STEP_SUPP_BE s)).

Fixpoint eapol_sm_loop (n : nat) (s : sys) : run sys :=
  match n with
  | O => Ret s
  | S n => s ← eapol_sm_round s; if changed (sm s) then eapol_sm_loop n s else Ret s
  end.

Definition eapol_sm_step (s : sys) : run sys :=
  s ← eapol_sm_loop 100 s;
  let s := if changed (sm s)
           then emit (RegisterTimeout 0 SmStepTimeout) (emit (CancelTimeout SmStepTimeout) s)
           else s in
  if has_cb ctx && bool_decide (cb_status (sm s) ≠ EAPOL_CB_IN_PROGRESS) then
    let success := bool_decide (cb_status (sm s) = EAPOL_CB_SUCCESS) in
    let s := s.[cb_status := EAPOL_CB_IN_PROGRESS] in
    Ret (emit (Completed success) s)
  else Ret s.

Definition eapol_sm_step_timeout (s : sys) : run sys := eapol_sm_step s.

Definition tick (w : Z) : Z := if 0 <? w then w - 1 else w.

Definition eapol_port_timers_tick (s : sys) : run sys :=
  let s := s.[authWhile := tick (authWhile (sm s))] in
  let s := s.[heldWhile := tick (heldWhile (sm s))] in
  let s := s.[startWhen := tick (startWhen (sm s))] in
  let s := s.[idleWhile := tick (idleWhile (sm s))] in
  let running := Z.lor (Z.lor (Z.lor (authWhile (sm s)) (heldWhile (sm s)))
                          (startWhen (sm s))) (idleWhile (sm s)) in
  let s := if negb (running =? 0) then emit (RegisterTimeout 1 PortTimersTick) s
           else s.[timer_tick_enabled := false] in
  eapol_sm_step s.

(** *** The external interface *)

Definition eapol_sm_configure (held auth start max : Z) (s : sys) : sys :=
  let s := if 0 <=? held then s.[heldPeriod := held] else s in
  let s := if 0 <=? auth then s.[authPeriod := auth] else s in
  let s := if 0 <=? start then s.[startPeriod := start] else s in
  if 0 <=? max then s.[maxStart := max] else s.

Definition eapol_sm_abort_cached (s : sys) : sys :=
  let s := s.[cached_pmk := false] in
  let s := s.[SUPP_PAE_state := SUPP_PAE_CONNECTING] in
  let s := s.[suppPortStatus := Unauthorized] in
  let s := eapol_sm_set_port_unauthorized s in
  let s := s.[startWhen := 3] in
  let s := eapol_enable_timer_tick s in
  if has_aborted_cached ctx then emit AbortedCached s else s.

Definition EAPOL_KEY_TYPE_RC4 : Z := 1.
Definition EAPOL_KEY_TYPE_RSN : Z := 2.
Definition EAPOL_KEY_TYPE_WPA : Z := 254.

(** The payload length after the CONFIG_WPS workaround. *)
Definition rx_payload_len (s : sys) (buf : list Z) (type plen : Z) : run Z :=
  let room := Z.of_nat (length buf) - Z.of_nat sizeof_hdr in
  if config_wps && negb (workaround (conf (sm s)) =? 0) && (plen <? room) &&
     (type =? IEEE802_1X_TYPE_EAP_PACKET) && (4 <? room)
  then
    e0 ← rd buf 6; e1 ← rd buf 7;
    let elen := be16 e0 e1 in
    Ret (if (plen <? elen) && (elen <=? room) then elen else plen)
  else Ret plen.

(** The two frame types handled; [alloc_ok] is the outcome of the allocation. *)
Definition rx_eap_packet (alloc_ok : bool) (body : list Z) (s : sys) : run sys :=
  let s := if cached_pmk (sm s) then eapol_sm_abort_cached s else s in
  let s := s.[eapReqData := if alloc_ok then Some body else None] in
  if alloc_ok then eapol_sm_step (s.[eapolEap := true]) else Ret s.

Definition rx_eapol_key (alloc_ok : bool) (frame : list Z) (s : sys) : run sys :=
  let s := s.[last_rx_key := if alloc_ok then Some frame else None] in
  if alloc_ok then eapol_sm_step (s.[rxKey := true]) else Ret s.

Definition eapol_sm_rx_eapol (alloc_ok : bool) (src buf : list Z) (s : sys) : run (Z * sys) :=
  let s := s.[dot1xSuppEapolFramesRx := u32 (dot1xSuppEapolFramesRx (sm s) + 1)] in
  if (length buf <? sizeof_hdr)%nat then
    Ret (0, s.[dot1xSuppInvalidEapolFramesRx := u32 (dot1xSuppInvalidEapolFramesRx (sm s) + 1)])
  else
  version ← rd buf 0; type ← rd buf 1; l0 ← rd buf 2; l1 ← rd buf 3;
  let s := s.[dot1xSuppLastEapolFrameVersion := version] in
  let s := s.[dot1xSuppLastEapolFrameSource := src] in
  let plen := be16 l0 l1 in
  if Z.of_nat (length buf) - Z.of_nat sizeof_hdr <? plen then
    Ret (0, s.[dot1xSuppEapLengthErrorFramesRx :=
                 u32 (dot1xSuppEapLengthErrorFramesRx (sm s) + 1)])
  else
  plen ← rx_payload_len s buf type plen;
  if type =? IEEE802_1X_TYPE_EAP_PACKET then
    body ← rdn buf sizeof_hdr (Z.to_nat plen);
    s ← rx_eap_packet alloc_ok body s;
    Ret (1, s)
  else if type =? IEEE802_1X_TYPE_EAPOL_KEY then
    if plen <? Z.of_nat sizeof_key then Ret (1, s) else
    key_type ← rd buf 4;
    if (key_type =? EAPOL_KEY_TYPE_WPA) || (key_type =? EAPOL_KEY_TYPE_RSN) then Ret (0, s)
    else if negb (key_type =? EAPOL_KEY_TYPE_RC4) then Ret (1, s)
    else
      frame ← rdn buf 0 (Z.to_nat plen + sizeof_hdr);
      s ← rx_eapol_key alloc_ok frame s;
      Ret (1, s)
  else
    Ret (1, s.[dot1xSuppInvalidEapolFramesRx :=
                 u32 (dot1xSuppInvalidEapolFramesRx (sm s) + 1)]).

Definition eapol_sm_notify_tx_eapol_key (s : sys) : sys :=
  s.[dot1xSuppEapolFramesTx := u32 (dot1xSuppEapolFramesTx (sm s) + 1)].

Definition eapol_sm_notify_portEnabled (enabled : bool) (s : sys) : run sys :=
  eapol_sm_step (s.[portEnabled := enabled]).

Definition eapol_sm_notify_portValid (valid : bool) (s : sys) : run sys :=
  eapol_sm_step (s.[portValid := valid]).

Definition eapol_sm_notify_eap_success (success : bool) (s : sys) : run sys :=
  let s := s.[eapSuccess := success] in
  let s := s.[altAccept := success] in
  let s := if success then s <| eap := eap_notify_success (eap s) |> else s in
  eapol_sm_step s.

Definition eapol_sm_notify_eap_fail (fail : bool) (s : sys) : run sys :=
  let s := s.[eapFail := fail] in
  let s := s.[altReject := fail] in
  eapol_sm_step s.

(** Everything of [config] copied but [eap_disabled], which only goes to EAP. *)
Definition eapol_sm_notify_config (c : option eapol_config) (s : sys) : sys :=
  match c with
  | None => s
  | Some c =>
      let s := s.[conf := EapolConfig (accept_802_1x_keys c) (required_keys c) (fast_reauth c)
                            (workaround c) (eap_disabled (conf (sm s)))] in
      let s := s <| eap := eap_set_fast_reauth (eap s) (fast_reauth c) |> in
      let s := s <| eap := eap_set_workaround (eap s) (workaround c) |> in
      s <| eap := eap_set_force_disabled (eap s) (eap_disabled c) |>
  end.

Definition eapol_sm_notify_logoff (logoff : bool) (s : sys) : run sys :=
  eapol_sm_step (s.[userLogoff := logoff]).

Definition eapol_sm_notify_cached (s : sys) : run sys :=
  let s := s.[SUPP_PAE_state := SUPP_PAE_AUTHENTICATED] in
  let s := s.[suppPortStatus := Authorized] in
  let s := eapol_sm_set_port_authorized s in
  let s := s.[portValid := true] in
  let s := s <| eap := eap_notify_success (eap s) |> in
  eapol_sm_step s.

Definition eapol_sm_notify_pmkid_attempt (attempt : bool) (s : sys) : sys :=
  if attempt then s.[cached_pmk := true] else s.[cached_pmk := false].

Definition eapol_sm_notify_portControl (pc : PortControl) (s : sys) : run sys :=
  eapol_sm_step (s.[portControl := pc]).

Definition eapol_sm_notify_ctrl_attached (s : sys) : sys :=
  s <| eap := eap_sm_notify_ctrl_attached (eap s) |>.

Definition eapol_sm_notify_ctrl_response (s : sys) : run sys :=
  if bool_decide (is_Some (eapReqData (sm s))) && negb (eapReq (sm s)) then
    let s := s.[eapolEap := true] in
    let s := s.[eapReq := true] in
    eapol_sm_step s
  else Ret s.

Definition eapol_sm_notify_pending (s : sys) : run sys :=
  if bool_decide (is_Some (eapReqData (sm s))) && negb (eapReq (sm s)) then
    let s := s.[eapolEap := true] in
    let s := s.[eapReq := true] in
    eapol_sm_step s
  else Ret s.

Definition eapol_sm_request_reauth (s : sys) : sys :=
  if bool_decide (SUPP_PAE_state (sm s) ≠ SUPP_PAE_AUTHENTICATED) then s
  else eapol_sm_txStart s.

Definition eapol_sm_notify_lower_layer_success (s : sys) : run sys :=
  eapol_sm_step (eapol_sm_lower_layer_success s).

Definition eapol_sm_invalidate_cached_session (s : sys) : sys :=
  s <| eap := eap_invalidate_cached_session (eap s) |>.

(** [os_zalloc] followed by the assignments of [eapol_sm_init]. *)
Definition eapol_sm_zero : eapol_sm :=
  EapolSm 0 0 0 0 false false false false false false false Auto false Unauthorized
    false false false false false false SUPP_PAE_UNKNOWN false false 0 false Auto
    0 0 0 KEY_RX_UNKNOWN false SUPP_BE_UNKNOWN false false false 0
    0 0 0 0 0 0 0 0 0 0 (repeat 0 6) false false None None false false false (repeat 0 8)
    (EapolConfig false 0 false 0 false) EAPOL_CB_IN_PROGRESS false false false.

(** [e] is the result of [eap_peer_sm_init]. *)
Definition eapol_sm_init (e : option E) : run (option sys) :=
  match e with
  | None => Ret None
  | Some e =>
      let s := Sys (eapol_sm_zero <| heldPeriod := 60 |> <| startPeriod := 30 |>
                      <| maxStart := 3 |> <| authPeriod := 30 |>) e [] in
      s ← eapol_sm_step (s.[initialize := true]);
      s ← eapol_sm_step (s.[initialize := false]);
      let s := s.[timer_tick_enabled := true] in
      Ret (Some (emit (RegisterTimeout 1 PortTimersTick) s))
  end.

(** The effects of [eapol_sm_deinit]; its memory is gone afterwards. *)
Definition eapol_sm_deinit (s : sys) : list event :=
  out (emit (CancelTimeout PortTimersTick) (emit (CancelTimeout SmStepTimeout) s)).

(** Every entry point of the component. *)
Inductive op :=
| OpTick | OpStepTimeout
| OpConfigure (held auth start max : Z)
| OpRx (alloc_ok : bool) (src buf : list Z)
| OpTxKey | OpPortEnabled (b : bool) | OpPortValid (b : bool)
| OpEapSuccess (b : bool) | OpEapFail (b : bool) | OpConfig (c : option eapol_config)
| OpLogoff (b : bool) | OpCached | OpPmkidAttempt (b : bool)
| OpPortControl (pc : PortControl) | OpCtrlAttached | OpCtrlResponse | OpPending
| OpReauth | OpLowerLayerSuccess | OpInvalidateSession.

Definition run_op (o : op) (s : sys) : run sys :=
  match o with
  | OpTick => eapol_port_timers_tick s
  | OpStepTimeout => eapol_sm_step_timeout s
  | OpConfigure h a st m => Ret (eapol_sm_configure h a st m s)
  | OpRx ok src buf => '(_, s) ← eapol_sm_rx_eapol ok src buf s; Ret s
  | OpTxKey => Ret (eapol_sm_notify_tx_eapol_key s)
  | OpPortEnabled b => eapol_sm_notify_portEnabled b s
  | OpPortValid b => eapol_sm_notify_portValid b s
  | OpEapSuccess b => eapol_sm_notify_eap_success b s
  | OpEapFail b => eapol_sm_notify_eap_fail b s
  | OpConfig c => Ret (eapol_sm_notify_config c s)
  | OpLogoff b => eapol_sm_notify_logoff b s
  | OpCached => eapol_sm_notify_cached s
  | OpPmkidAttempt b => Ret (eapol_sm_notify_pmkid_attempt b s)
  | OpPortControl pc => eapol_sm_notify_portControl pc s
  | OpCtrlAttached => Ret (eapol_sm_notify_ctrl_attached s)
  | OpCtrlResponse => eapol_sm_notify_ctrl_response s
  | OpPending => eapol_sm_notify_pending s
  | OpReauth => Ret (eapol_sm_request_reauth s)
  | OpLowerLayerSuccess => eapol_sm_notify_lower_layer_success s
  | OpInvalidateSession => Ret (eapol_sm_invalidate_cached_session s)
  end.

(** The states a supplicant gets into after [eapol_sm_init]. *)
Inductive reachable : sys → Prop :=
| reachable_init e s : eapol_sm_init e = Ret (Some s) → reachable s
| reachable_op s o s' : reachable s → run_op o s = Ret s' → reachable s'.

#[local] Opaque hmac_md5 rc4_skip.
Context `{!EapPeerOk E}.

(** ** Invariants *)

(** The port state last set in the driver; a port starts closed. *)
Definition driver_port (l : list event) : bool :=
  foldl (λ p e, match e with PortCb b => b | _ => p end) false l.

Lemma driver_port_snoc l e :
  driver_port (l ++ [e]) = match e with PortCb b => b | _ => driver_port l end.
Proof. unfold driver_port. by rewrite foldl_app. Qed.

(** What the PAE state says about the controlled port. *)
Definition state_port (st : supp_pae_state) (p : PortStatus) : Prop :=
  match st with
  | SUPP_PAE_UNKNOWN | SUPP_PAE_LOGOFF | SUPP_PAE_DISCONNECTED | SUPP_PAE_HELD
  | SUPP_PAE_S_FORCE_UNAUTH => p = Unauthorized
  | SUPP_PAE_AUTHENTICATED | SUPP_PAE_S_FORCE_AUTH => p = Authorized
  | SUPP_PAE_CONNECTING | SUPP_PAE_AUTHENTICATING | SUPP_PAE_RESTART => True
  end.

Definition port_inv (s : sys) : Prop :=
  state_port (SUPP_PAE_state (sm s)) (suppPortStatus (sm s)) ∧
  (has_port_cb ctx = true →
   driver_port (out s) = bool_decide (suppPortStatus (sm s) = Authorized)).

(** A stored EAPOL-Key frame has room for both headers. *)
Definition frame_inv (s : sys) : Prop :=
  ∀ f, last_rx_key (sm s) = Some f → (sizeof_hdr + sizeof_key ≤ length f)%nat.

Definition inv (s : sys) : Prop := port_inv s ∧ frame_inv s.

(** What no step but the PAE's touches. *)
Definition quiet (s s' : sys) : Prop :=
  SUPP_PAE_state (sm s') = SUPP_PAE_state (sm s) ∧
  suppPortStatus (sm s') = suppPortStatus (sm s) ∧
  driver_port (out s') = driver_port (out s) ∧
  initialize (sm s') = initialize (sm s) ∧
  portEnabled (sm s') = portEnabled (sm s) ∧
  (portValid (sm s) = true → portValid (sm s') = true) ∧
  (changed (sm s) = true → changed (sm s') = true).

#[global] Instance quiet_preorder : PreOrder quiet.
Proof.
  split.
  - intros s. by repeat split.
  - intros s1 s2 s3 (?&?&?&?&?&?&?) (?&?&?&?&?&?&?). repeat split; try congruence; auto.
Qed.

Lemma quiet_refl s : quiet s s.
Proof. done. Qed.
#[local] Hint Resolve quiet_refl : core.

Lemma quiet_port_inv s s' : quiet s s' → port_inv s → port_inv s'.
Proof. intros (H1&H2&H3&_) [Hs Hd]. split; rewrite ?H1, ?H2, ?H3; auto. Qed.

(** Case analysis of the conditionals of an operation, evaluating the fields
    of updated records. *)
Ltac sys_cases :=
  repeat (cbn -[Z.add Z.sub u32 driver_port] in *; case_match);
  cbn -[Z.add Z.sub u32 driver_port] in *;
  rewrite ?driver_port_snoc.
Ltac quiet_tac := unfold quiet, emit; sys_cases; repeat split; auto; try congruence.

Lemma tick_quiet s : quiet s (eapol_enable_timer_tick s).
Proof. unfold eapol_enable_timer_tick. quiet_tac. Qed.

Lemma apply_write_quiet s w : write_ok w → quiet s (apply_write s w).
Proof.
  intros Hw. destruct w as [v b|n]; simpl.
  - destruct v; by repeat split.
  - unfold eapol_sm_set_int. etrans; [|apply tick_quiet]. by repeat split.
Qed.

Lemma apply_writes_quiet s ws : Forall write_ok ws → quiet s (apply_writes s ws).
Proof.
  intros Hws. unfold apply_writes. revert s. induction Hws as [|w ws Hw _ IH]; intros s; [done|].
  simpl. etrans; [by apply apply_write_quiet|apply IH].
Qed.

Lemma apply_write_frame s w : last_rx_key (sm (apply_write s w)) = last_rx_key (sm s).
Proof.
  destruct w as [[]|]; try done. simpl. unfold eapol_sm_set_int, eapol_enable_timer_tick, emit.
  by sys_cases.
Qed.

Lemma apply_writes_frame s ws : last_rx_key (sm (apply_writes s ws)) = last_rx_key (sm s).
Proof.
  unfold apply_writes. revert s. induction ws as [|w ws IH]; intros s; simpl; [done|].
  by rewrite IH, apply_write_frame.
Qed.

Lemma lower_layer_quiet s : quiet s (eapol_sm_lower_layer_success s).
Proof.
  unfold eapol_sm_lower_layer_success.
  destruct (eap_notify_lower_layer_success _ _) as [e ws] eqn:He.
  etrans; [|by eapply apply_writes_quiet, eap_lower_writes]. by repeat split.
Qed.

Lemma lower_layer_frame s :
  last_rx_key (sm (eapol_sm_lower_layer_success s)) = last_rx_key (sm s).
Proof.
  unfold eapol_sm_lower_layer_success. destruct (eap_notify_lower_layer_success _ _) as [e ws].
  by rewrite apply_writes_frame.
Qed.

Lemma eapol_done_quiet s : quiet s (eapol_done s).
Proof. unfold eapol_done. quiet_tac. Qed.

Lemma install_quiet s i k : quiet s (processKey_install s i k).
Proof.
  unfold processKey_install, eapol_done. cbv zeta.
  generalize (negb (Z.land i IEEE8021X_KEY_INDEX_FLAG =? 0)) as u; intros u.
  destruct (set_wep_key ctx) as [f|]; [destruct (f u _ k <? 0)|]; destruct u; quiet_tac.
Qed.

Lemma install_frame s i k :
  last_rx_key (sm (processKey_install s i k)) = last_rx_key (sm s).
Proof.
  unfold processKey_install, eapol_done, emit. cbv zeta.
  generalize (negb (Z.land i IEEE8021X_KEY_INDEX_FLAG =? 0)) as u; intros u.
  destruct (set_wep_key ctx) as [f|]; [destruct (f u _ k <? 0)|]; destruct u; by sys_cases.
Qed.


Lemma datakey_total f kd klen key_len rx :
  (48 ≤ length f)%nat → 48 + key_len ≤ Z.of_nat (length f) →
  ∃ d, processKey_datakey f kd klen key_len rx = Ret d.
Proof.
  intros H48 Hlen. unfold processKey_datakey, sizeof_hdr, sizeof_key.
  destruct (key_len =? rx); [|destruct (key_len =? 0); eauto].
  rewrite !rdn_ok by lia. rewrite ?run_bind_l.
  destruct (rc4_skip_total (take 16 (drop 15 f) ++ take klen kd) 0
              (take (Z.to_nat key_len) (drop (4 + 44) f))) as [d Hd].
  { intros Hnil. apply (f_equal length) in Hnil.
    rewrite length_app, (length_take (drop 15 f)), length_drop in Hnil.
    change (length []) with 0%nat in Hnil. lia. }
  rewrite Hd, run_bind_l. eauto.
Qed.

Lemma verify_spec s f hlen rx kd klen :
  (48 ≤ length f)%nat → 4 + hlen ≤ Z.of_nat (length f) → frame_inv s → ∃ s',
  processKey_verify s f hlen rx kd klen = Ret s' ∧ quiet s s' ∧ frame_inv s'.
Proof.
  intros H48 Hlen Hs. unfold processKey_verify, sizeof_hdr, sizeof_key.
  rewrite (rdn_ok f 7 8), run_bind_l by lia.
  if_branch; [by exists s|].
  rewrite (rdn_ok f 32 16), run_bind_l by lia. cbv zeta.
  set (f0 := splice f 32 (repeat 0 16)).
  assert (length f0 = length f) as H0.
  { apply length_splice. rewrite repeat_length. lia. }
  rewrite (rdn_ok f0), run_bind_l by lia.
  set (f1 := match hmac_md5 _ _ _ with Some mac => splice f0 32 mac | None => f0 end).
  assert (length f1 = length f) as H1.
  { unfold f1. destruct (hmac_md5 _ _ _) as [mac|] eqn:Hm; [|done].
    apply length_hmac_md5 in Hm. rewrite length_splice; lia. }
  rewrite (rdn_ok f1), run_bind_l by lia.
  if_branch.
  { eexists. split; [done|]. split; [by repeat split|]. intros g [= <-].
    rewrite length_splice; rewrite ?length_take, ?length_drop; unfold sizeof_hdr, sizeof_key; lia. }
  set (s1 := update _ _).
  assert (quiet s s1 ∧ frame_inv s1) as [Hq1 Hf1].
  { split; [by repeat split|]. intros g [= <-]. unfold sizeof_hdr, sizeof_key. lia. }
  if_branch; [by exists s1|].
  destruct (datakey_total f1 kd klen (hlen - Z.of_nat 44) rx) as [[d|] ->]; [lia..| |];
    rewrite ?run_bind_l; [|by exists s1].
  destruct (rd_lt f1 31) as (i & -> & _); [lia|]. rewrite ?run_bind_l.
  eexists. split; [done|]. split.
  - etrans; [exact Hq1|]. etrans; [|apply install_quiet]. by repeat split.
  - intros g. rewrite install_frame. apply Hf1.
Qed.

(** [eapol_sm_processKey] on a stored frame returns, and leaves a frame. *)
Lemma processKey_spec s : frame_inv s → ∃ s',
  eapol_sm_processKey s = Ret s' ∧ quiet s s' ∧ frame_inv s'.
Proof.
  intros Hf. unfold eapol_sm_processKey.
  destruct (last_rx_key (sm s)) as [f|] eqn:Hk; [|by exists s].
  pose proof (Hf f Hk) as Hlen. unfold sizeof_hdr, sizeof_key in *.
  if_branch; [by exists s|].
  destruct (rd_lt f 2) as (l0 & -> & _); [lia|]. destruct (rd_lt f 3) as (l1 & -> & _); [lia|].
  rewrite ?run_bind_l. cbv zeta.
  destruct (Z.ltb_spec (Z.of_nat (length f)) (Z.of_nat 4 + be16 l0 l1)); [by exists s|].
  destruct (rd_lt f 5) as (k0 & -> & _); [lia|]. destruct (rd_lt f 6) as (k1 & -> & _); [lia|].
  rewrite ?run_bind_l. set (s1 := eapol_sm_lower_layer_success s).
  assert (quiet s s1) as Hq by apply lower_layer_quiet.
  assert (frame_inv s1) as Hf1.
  { intros g. unfold s1. rewrite lower_layer_frame. intros Hg. by apply Hf. }
  destruct (processKey_keydata s1) as [[kd klen]|]; [|by exists s1].
  destruct (verify_spec s1 f (be16 l0 l1) (be16 k0 k1) kd klen) as (s' & -> & Hq' & Hf');
    [lia..|done|].
  exists s'. split_and!; [done| |done]. by etrans.
Qed.

Lemma key_rx_spec s : frame_inv s → ∃ s',
  SM_STEP_KEY_RX s = Ret s' ∧ quiet s s' ∧ frame_inv s'.
Proof.
  intros Hf. unfold SM_STEP_KEY_RX. cbv zeta.
  set (s1 := if initialize (sm s) || negb (portEnabled (sm s)) then _ else s).
  assert (quiet s s1 ∧ frame_inv s1) as [Hq1 Hf1].
  { unfold s1, sm_KEY_RX_NO_KEY_RECEIVE_Enter, key_rx_entry. clear s1.
    if_branch; [|done]. cbv zeta. split; [|intros g; if_branch; by apply Hf]. quiet_tac. }
  assert (∃ s', sm_KEY_RX_KEY_RECEIVE_Enter false s1 = Ret s' ∧ quiet s1 s' ∧ frame_inv s')
    as (s2 & H2 & Hq2 & Hf2).
  { unfold sm_KEY_RX_KEY_RECEIVE_Enter, key_rx_entry. simpl negb. simpl orb. cbv iota zeta.
    set (s1' := update _ _). destruct (processKey_spec s1') as (s2 & -> & Hq2 & Hf2).
    { intros g. apply Hf1. }
    rewrite run_bind_l. eexists. split; [done|]. split; [|intros g; apply Hf2].
    etrans; [|etrans; [exact Hq2|]]; by repeat split. }
  destruct (KEY_RX_state (sm s1)); [by exists s1| |];
    (if_branch; [|by exists s1]); exists s2; (split_and!; [done| |done]); by etrans.
Qed.

Lemma be_entry_quiet g st s : quiet s (be_entry g st s).
Proof. unfold be_entry. quiet_tac. Qed.

Lemma abortSupp_quiet s : quiet s (eapol_sm_abortSupp s).
Proof.
  unfold eapol_sm_abortSupp. destruct (eap_sm_abort _) as [e ws] eqn:He.
  etrans; [|by eapply apply_writes_quiet, eap_abort_writes]. by repeat split.
Qed.

Lemma txSuppRsp_quiet s : quiet s (eapol_sm_txSuppRsp s).
Proof.
  unfold eapol_sm_txSuppRsp. destruct (eap_get_eapRespData _) as [e [resp|]]; quiet_tac.
Qed.

Lemma be_initialize_quiet g s : quiet s (sm_SUPP_BE_INITIALIZE_Enter g s).
Proof.
  unfold sm_SUPP_BE_INITIALIZE_Enter. cbv zeta.
  etrans; [apply (be_entry_quiet g SUPP_BE_INITIALIZE)|].
  etrans; [apply abortSupp_quiet|]. by repeat split.
Qed.

Lemma be_success_quiet g s : quiet s (sm_SUPP_BE_SUCCESS_Enter g s).
Proof.
  unfold sm_SUPP_BE_SUCCESS_Enter. cbv zeta.
  etrans; [apply (be_entry_quiet g SUPP_BE_SUCCESS)|]. if_branch; by repeat split.
Qed.

Lemma be_response_quiet g s : quiet s (sm_SUPP_BE_RESPONSE_Enter g s).
Proof.
  unfold sm_SUPP_BE_RESPONSE_Enter. cbv zeta.
  etrans; [apply (be_entry_quiet g SUPP_BE_RESPONSE)|].
  etrans; [apply txSuppRsp_quiet|]. by repeat split.
Qed.

Lemma be_receive_quiet g s : quiet s (sm_SUPP_BE_RECEIVE_Enter g s).
Proof.
  unfold sm_SUPP_BE_RECEIVE_Enter. cbv zeta.
  etrans; [apply (be_entry_quiet g SUPP_BE_RECEIVE)|].
  set (s1 := be_entry _ _ _).
  transitivity (s1.[authWhile := authPeriod (sm s1)]); [by repeat split|].
  etrans; [apply tick_quiet|]. by repeat split.
Qed.

Lemma be_quiet s : quiet s (SM_STEP_SUPP_BE s).
Proof.
  unfold SM_STEP_SUPP_BE. cbv zeta.
  repeat case_match; try done; subst;
    first [ apply be_initialize_quiet | apply be_success_quiet | apply be_response_quiet
          | apply be_receive_quiet
          | etrans; [apply be_entry_quiet|]; by repeat split ].
Qed.

Lemma be_frame s :
  last_rx_key (sm (SM_STEP_SUPP_BE s)) = last_rx_key (sm s) ∨
  last_rx_key (sm (SM_STEP_SUPP_BE s)) = None.
Proof.
  unfold SM_STEP_SUPP_BE. cbv zeta.
  if_branch.
  { right. unfold sm_SUPP_BE_INITIALIZE_Enter, eapol_sm_abortSupp. cbv zeta.
    destruct (eap_sm_abort _) as [e ws]. cbn. by rewrite apply_writes_frame. }
  left. repeat case_match; try done; try (unfold sm_SUPP_BE_SUCCESS_Enter; by if_branch).
  all: unfold sm_SUPP_BE_RESPONSE_Enter, sm_SUPP_BE_RECEIVE_Enter, eapol_enable_timer_tick,
    eapol_sm_txSuppRsp; cbv zeta.
  all: try (if_branch; done).
  destruct (eap_get_eapRespData _) as [e [resp|]]; [|done]. by if_branch.
Qed.

Lemma eap_step_quiet s : quiet s (eapol_eap_step s).
Proof.
  unfold eapol_eap_step. destruct (eap_peer_sm_step _ _) as [[e ws] pr] eqn:He. cbv zeta.
  transitivity (apply_writes (s <| eap := e |>) ws).
  - etrans; [|by eapply apply_writes_quiet, eap_step_writes]. by repeat split.
  - destruct pr; by repeat split.
Qed.

Lemma eap_step_frame s : last_rx_key (sm (eapol_eap_step s)) = last_rx_key (sm s).
Proof.
  unfold eapol_eap_step. destruct (eap_peer_sm_step _ _) as [[e ws] pr]. cbv zeta.
  destruct pr; cbn; by rewrite apply_writes_frame.
Qed.

(** *** The PAE machine *)

(** What every entry action keeps. *)
Definition keeps (s s' : sys) : Prop :=
  last_rx_key (sm s') = last_rx_key (sm s) ∧
  initialize (sm s') = initialize (sm s) ∧
  portEnabled (sm s') = portEnabled (sm s) ∧
  (portValid (sm s) = true → portValid (sm s') = true) ∧
  (changed (sm s) = true → changed (sm s') = true).

(** Entering [st], by a global rule or not; [p] is the port status it sets. *)
Definition enters (st : supp_pae_state) (p : option PortStatus) (g : bool) (s s' : sys) : Prop :=
  SUPP_PAE_state (sm s') = st ∧
  suppPortStatus (sm s') = default (suppPortStatus (sm s)) p ∧
  (has_port_cb ctx = true →
   driver_port (out s') = from_option (λ v, bool_decide (v = Authorized)) (driver_port (out s)) p) ∧
  (g = false ∨ SUPP_PAE_state (sm s) ≠ st → changed (sm s') = true) ∧
  keeps s s'.

Lemma pae_entry_spec st g s : enters st None g s (pae_entry g st s).
Proof.
  unfold pae_entry. cbv zeta. destruct g; simpl negb; simpl orb; [|by repeat split].
  case_bool_decide; repeat split; cbn; auto. naive_solver.
Qed.

Lemma enters_port_inv st p g s s' :
  enters st p g s s' → state_port st (default (suppPortStatus (sm s)) p) →
  port_inv s → port_inv s'.
Proof.
  intros (Hst & Hp & Hd & _) Hsp [_ Hi]. split; [by rewrite Hst, Hp|].
  intros Hcb. rewrite Hp, (Hd Hcb). destruct p; simpl; auto.
Qed.

(** The action after [SM_ENTRY] of a state. *)
Ltac entry_action :=
  cbv zeta; let s1 := fresh "s1" in let H := fresh "H" in let Ht := fresh "Ht" in
  match goal with |- enters ?st _ ?g ?s _ =>
    pose proof (pae_entry_spec st g s) as H; revert H;
    generalize (pae_entry g st s); intros s1 (?&?&?&?&?&?&?&?&?)
  end;
  unfold eapol_sm_set_port_authorized, eapol_sm_set_port_unauthorized, eapol_enable_timer_tick,
    eapol_sm_txLogoff, eapol_sm_txStart;
  destruct (has_port_cb ctx) eqn:?; destruct (timer_tick_enabled (sm s1)) eqn:Ht;
  repeat split; cbn -[driver_port u32 Z.add]; rewrite ?Ht; cbn -[driver_port u32 Z.add];
  rewrite ?driver_port_snoc; try done; auto; congruence.

Lemma enter_logoff g s :
  enters SUPP_PAE_LOGOFF (Some Unauthorized) g s (sm_SUPP_PAE_LOGOFF_Enter g s).
Proof. unfold sm_SUPP_PAE_LOGOFF_Enter. entry_action. Qed.
Lemma enter_disconnected g s :
  enters SUPP_PAE_DISCONNECTED (Some Unauthorized) g s (sm_SUPP_PAE_DISCONNECTED_Enter g s).
Proof. unfold sm_SUPP_PAE_DISCONNECTED_Enter. entry_action. Qed.
Lemma enter_connecting g s :
  enters SUPP_PAE_CONNECTING None g s (sm_SUPP_PAE_CONNECTING_Enter g s).
Proof.
  assert (∀ b, enters SUPP_PAE_CONNECTING None g s
    (let s := pae_entry g SUPP_PAE_CONNECTING s in
     let s := if b : bool then
                let s := s.[startWhen := startPeriod (sm s)] in
                s.[startCount := u32 (startCount (sm s) + 1)]
              else s.[startWhen := if config_wps then 1 else 3] in
     let s := eapol_enable_timer_tick s in
     let s := s.[eapolEap := false] in
     if b then eapol_sm_txStart s else s)) as H; [|apply H].
  intros []; entry_action.
Qed.
Lemma enter_authenticating g s :
  enters SUPP_PAE_AUTHENTICATING None g s (sm_SUPP_PAE_AUTHENTICATING_Enter g s).
Proof. unfold sm_SUPP_PAE_AUTHENTICATING_Enter. entry_action. Qed.
Lemma enter_held g s :
  enters SUPP_PAE_HELD (Some Unauthorized) g s (sm_SUPP_PAE_HELD_Enter g s).
Proof. unfold sm_SUPP_PAE_HELD_Enter. entry_action. Qed.
Lemma enter_authenticated g s :
  enters SUPP_PAE_AUTHENTICATED (Some Authorized) g s (sm_SUPP_PAE_AUTHENTICATED_Enter g s).
Proof. unfold sm_SUPP_PAE_AUTHENTICATED_Enter. entry_action. Qed.
Lemma enter_restart g s :
  enters SUPP_PAE_RESTART None g s (sm_SUPP_PAE_RESTART_Enter g s).
Proof. unfold sm_SUPP_PAE_RESTART_Enter. entry_action. Qed.
Lemma enter_force_auth g s :
  enters SUPP_PAE_S_FORCE_AUTH (Some Authorized) g s (sm_SUPP_PAE_S_FORCE_AUTH_Enter g s).
Proof. unfold sm_SUPP_PAE_S_FORCE_AUTH_Enter. entry_action. Qed.
Lemma enter_force_unauth g s :
  enters SUPP_PAE_S_FORCE_UNAUTH (Some Unauthorized) g s (sm_SUPP_PAE_S_FORCE_UNAUTH_Enter g s).
Proof. unfold sm_SUPP_PAE_S_FORCE_UNAUTH_Enter. entry_action. Qed.

Definition enter_state (st : supp_pae_state) (g : bool) (s : sys) : sys :=
  match st with
  | SUPP_PAE_UNKNOWN => s
  | SUPP_PAE_DISCONNECTED => sm_SUPP_PAE_DISCONNECTED_Enter g s
  | SUPP_PAE_LOGOFF => sm_SUPP_PAE_LOGOFF_Enter g s
  | SUPP_PAE_CONNECTING => sm_SUPP_PAE_CONNECTING_Enter g s
  | SUPP_PAE_AUTHENTICATING => sm_SUPP_PAE_AUTHENTICATING_Enter g s
  | SUPP_PAE_AUTHENTICATED => sm_SUPP_PAE_AUTHENTICATED_Enter g s
  | SUPP_PAE_HELD => sm_SUPP_PAE_HELD_Enter g s
  | SUPP_PAE_RESTART => sm_SUPP_PAE_RESTART_Enter g s
  | SUPP_PAE_S_FORCE_AUTH => sm_SUPP_PAE_S_FORCE_AUTH_Enter g s
  | SUPP_PAE_S_FORCE_UNAUTH => sm_SUPP_PAE_S_FORCE_UNAUTH_Enter g s
  end.

Definition state_sets (st : supp_pae_state) : option PortStatus :=
  match st with
  | SUPP_PAE_LOGOFF | SUPP_PAE_DISCONNECTED | SUPP_PAE_HELD | SUPP_PAE_S_FORCE_UNAUTH =>
      Some Unauthorized
  | SUPP_PAE_AUTHENTICATED | SUPP_PAE_S_FORCE_AUTH => Some Authorized
  | _ => None
  end.

Lemma enter_state_spec st g s :
  st ≠ SUPP_PAE_UNKNOWN → enters st (state_sets st) g s (enter_state st g s).
Proof.
  intros Hst. destruct st; [done|..];
    auto using enter_logoff, enter_disconnected, enter_connecting, enter_authenticating,
      enter_held, enter_authenticated, enter_restart, enter_force_auth, enter_force_unauth.
Qed.

Lemma enter_state_port_inv st g s :
  st ≠ SUPP_PAE_UNKNOWN → port_inv s → port_inv (enter_state st g s).
Proof.
  intros Hst. eapply enters_port_inv; [by apply enter_state_spec|]. by destruct st.
Qed.

(** The port is not operational, or the machine is being initialised. *)
Definition off (s : sys) : bool := initialize (sm s) || negb (portEnabled (sm s)).

(** What one evaluation of the PAE machine does: nothing, one entry, or the
    entry of AUTHENTICATED of a connection that needs no EAPOL-Key frames. *)
Inductive pae_move (s : sys) : sys → Prop :=
| pae_stay :
    off s = false →
    (SUPP_PAE_state (sm s) = SUPP_PAE_AUTHENTICATED → portValid (sm s) = true) →
    pae_move s s
| pae_global st :
    (off s = true → st = SUPP_PAE_DISCONNECTED) →
    st ∈ [SUPP_PAE_LOGOFF; SUPP_PAE_DISCONNECTED; SUPP_PAE_S_FORCE_AUTH; SUPP_PAE_S_FORCE_UNAUTH] →
    (st = SUPP_PAE_S_FORCE_AUTH → portControl (sm s) = ForceAuthorized) →
    pae_move s (enter_state st true s)
| pae_local st :
    off s = false → st ∉ [SUPP_PAE_UNKNOWN; SUPP_PAE_S_FORCE_AUTH] →
    (st = SUPP_PAE_AUTHENTICATED → portValid (sm s) = true) →
    pae_move s (enter_state st false s)
| pae_plaintext :
    off s = false → eapSuccess (sm s) = true → accept_802_1x_keys (conf (sm s)) = true →
    required_keys (conf (sm s)) = 0 →
    pae_move s (sm_SUPP_PAE_AUTHENTICATED_Enter false (eapol_done (s.[portValid := true]))).

Ltac bools := repeat match goal with
  | H : _ && _ = true |- _ => apply andb_true_iff in H as [? H]
  | H : negb _ = true |- _ => apply negb_true_iff in H
  | H : negb _ = false |- _ => apply negb_false_iff in H
  | H : (_ =? _) = true |- _ => apply Z.eqb_eq in H
  | H : (_ <? _) = true |- _ => apply Z.ltb_lt in H
  | H : (_ <=? _) = true |- _ => apply Z.leb_le in H
  | H : _ || _ = false |- _ => apply orb_false_iff in H as [? H]
  | H : bool_decide _ = true |- _ => apply bool_decide_eq_true in H
  | H : bool_decide _ = false |- _ => apply bool_decide_eq_false in H
  end.

Lemma pae_step_move s : pae_move s (SM_STEP_SUPP_PAE s).
Proof.
  unfold SM_STEP_SUPP_PAE. cbv zeta.
  change (initialize (sm s) || negb (portEnabled (sm s))) with (off s).
  if_branch.
  { bools. apply (pae_global _ SUPP_PAE_LOGOFF); [congruence|set_solver|done]. }
  if_branch.
  { apply (pae_global _ SUPP_PAE_DISCONNECTED); [done|set_solver|done]. }
  assert (off s = false) as Hoff by (by bools). rewrite Hoff, !andb_true_r.
  if_branch.
  { bools. apply (pae_global _ SUPP_PAE_S_FORCE_AUTH); [congruence|set_solver|done]. }
  if_branch.
  { apply (pae_global _ SUPP_PAE_S_FORCE_UNAUTH); [congruence|set_solver|done]. }
  assert (∀ st, st ∉ [SUPP_PAE_UNKNOWN; SUPP_PAE_S_FORCE_AUTH] →
    st ≠ SUPP_PAE_AUTHENTICATED → pae_move s (enter_state st false s)) as Hloc.
  { intros st H1 H2. by apply pae_local. }
  pose proof (Hloc SUPP_PAE_DISCONNECTED ltac:(set_solver) ltac:(done)).
  pose proof (Hloc SUPP_PAE_CONNECTING ltac:(set_solver) ltac:(done)).
  pose proof (Hloc SUPP_PAE_AUTHENTICATING ltac:(set_solver) ltac:(done)).
  pose proof (Hloc SUPP_PAE_HELD ltac:(set_solver) ltac:(done)).
  pose proof (Hloc SUPP_PAE_RESTART ltac:(set_solver) ltac:(done)).
  pose proof (pae_local s SUPP_PAE_AUTHENTICATED Hoff ltac:(set_solver)) as Hauth.
  clear Hloc. cbn [enter_state] in *.
  destruct (SUPP_PAE_state (sm s)) eqn:Hst.
  all: try (apply pae_stay; congruence).
  all: try (repeat if_branch; bools; auto; apply pae_stay; congruence).
  destruct (_ && (required_keys (conf (sm s)) =? 0)) eqn:Hplain.
  - bools. assert (eapSuccess (sm (eapol_done (s.[portValid := true]))) = true) as ->
      by (unfold eapol_done; by if_branch).
    assert (portValid (sm (eapol_done (s.[portValid := true]))) = true) as ->
      by (unfold eapol_done; by if_branch).
    by apply pae_plaintext.
  - repeat if_branch; bools; auto. apply pae_stay; congruence.
Qed.

Lemma plaintext_spec s :
  enters SUPP_PAE_AUTHENTICATED (Some Authorized) false s
    (sm_SUPP_PAE_AUTHENTICATED_Enter false (eapol_done (s.[portValid := true]))) ∧
  portValid (sm (sm_SUPP_PAE_AUTHENTICATED_Enter false (eapol_done (s.[portValid := true])))) = true.
Proof.
  set (s1 := eapol_done _).
  assert (keeps s s1 ∧ portValid (sm s1) = true) as [(?&?&?&?&?) Hv].
  { unfold s1, eapol_done. if_branch; by repeat split. }
  destruct (enter_authenticated false s1) as (?&?&?&?&?&?&?&?&?).
  repeat split; try congruence; auto.
Qed.

Lemma pae_keeps s : keeps s (SM_STEP_SUPP_PAE s).
Proof.
  destruct (pae_step_move s) as [|st _ Hst _|st _ Hst _|].
  - by repeat split.
  - apply enter_state_spec. by intros ->; set_solver.
  - apply enter_state_spec. by intros ->; set_solver.
  - apply plaintext_spec.
Qed.

Lemma pae_port_inv s : port_inv s → port_inv (SM_STEP_SUPP_PAE s).
Proof.
  intros Hi. destruct (pae_step_move s) as [|st _ Hst _|st _ Hst _|]; [done|..].
  - apply enter_state_port_inv; [by intros ->; set_solver|done].
  - apply enter_state_port_inv; [by intros ->; set_solver|done].
  - eapply enters_port_inv; [apply plaintext_spec|done|done].
Qed.

Lemma pae_off s : off s = true → SUPP_PAE_state (sm (SM_STEP_SUPP_PAE s)) = SUPP_PAE_DISCONNECTED.
Proof.
  intros Hoff. destruct (pae_step_move s) as [|st Hst Hin _| |]; try congruence.
  specialize (Hst Hoff) as ->. by apply enter_state_spec.
Qed.

Lemma pae_settled s :
  changed (sm (SM_STEP_SUPP_PAE s)) = false →
  SUPP_PAE_state (sm (SM_STEP_SUPP_PAE s)) = SUPP_PAE_AUTHENTICATED →
  portValid (sm (SM_STEP_SUPP_PAE s)) = true ∧ off s = false.
Proof.
  destruct (pae_step_move s) as [Hoff Hv|st Hst Hin _|st Hoff Hst Hv|]; intros Hc Ha.
  - auto.
  - assert (st ≠ SUPP_PAE_UNKNOWN) as Hu by (intros ->; set_solver).
    destruct (enter_state_spec st true s Hu) as (Hs & _). rewrite Hs in Ha.
    subst st. apply list_elem_of_In in Hin. by repeat destruct Hin as [Hin|Hin].
  - assert (st ≠ SUPP_PAE_UNKNOWN) as Hu by (intros ->; set_solver).
    destruct (enter_state_spec st false s Hu) as (_ & _ & _ & Hch & _).
    rewrite Hch in Hc by auto. done.
  - destruct (plaintext_spec s) as [(_ & _ & _ & Hch & _) _].
    rewrite Hch in Hc by auto. done.
Qed.

(** The port opens on [portValid], on a plaintext connection, or by force. *)
Lemma pae_opens s :
  suppPortStatus (sm s) = Unauthorized →
  suppPortStatus (sm (SM_STEP_SUPP_PAE s)) = Authorized →
  off s = false ∧
  (portControl (sm s) = ForceAuthorized ∨ portValid (sm s) = true ∨
   eapSuccess (sm s) = true ∧ accept_802_1x_keys (conf (sm s)) = true ∧
   required_keys (conf (sm s)) = 0).
Proof.
  intros Hu. destruct (pae_step_move s) as [Hoff Hv|st Hst Hin Hfa|st Hoff Hst Hv|]; intros Ha.
  - congruence.
  - assert (st ≠ SUPP_PAE_UNKNOWN) as Hk by (intros ->; set_solver).
    destruct (enter_state_spec st true s Hk) as (_ & Hp & _). rewrite Hp, Hu in Ha.
    destruct st; try done.
    + apply list_elem_of_In in Hin. by repeat destruct Hin as [Hin|Hin].
    + split; [|auto]. destruct (off s); [|done]. by specialize (Hst eq_refl).
  - assert (st ≠ SUPP_PAE_UNKNOWN) as Hk by (intros ->; set_solver).
    destruct (enter_state_spec st false s Hk) as (_ & Hp & _). rewrite Hp, Hu in Ha.
    destruct st; try done; [by auto|set_solver].
  - split; [done|]. by right; right.
Qed.

(** *** Rounds and steps *)

Lemma keeps_frame s s' : keeps s s' → frame_inv s → frame_inv s'.
Proof. intros (H & _) Hf f. rewrite H. apply Hf. Qed.

(** The state between the PAE machine and the other three of a round. *)
Lemma round_spec s : frame_inv s → ∃ s',
  eapol_sm_round s = Ret s' ∧ quiet (SM_STEP_SUPP_PAE (s.[changed := false])) s' ∧ frame_inv s'.
Proof.
  intros Hf. unfold eapol_sm_round. cbv zeta. set (s0 := s.[changed := false]).
  assert (frame_inv (SM_STEP_SUPP_PAE s0)) as Hf1.
  { eapply keeps_frame; [apply pae_keeps|]. exact Hf. }
  destruct (key_rx_spec _ Hf1) as (s2 & -> & Hq2 & Hf2). rewrite run_bind_l.
  eexists. split; [done|]. split.
  - etrans; [exact Hq2|]. etrans; [apply be_quiet|]. apply eap_step_quiet.
  - intros f. rewrite eap_step_frame. destruct (be_frame s2) as [->| ->]; [apply Hf2|done].
Qed.

Lemma round_inv s : inv s → ∃ s', eapol_sm_round s = Ret s' ∧ inv s'.
Proof.
  intros [Hp Hf]. destruct (round_spec s Hf) as (s' & Hr & Hq & Hf').
  exists s'. split; [done|]. split; [|done]. eapply quiet_port_inv; [exact Hq|].
  by apply pae_port_inv.
Qed.

Lemma loop_inv n s : inv s → ∃ s', eapol_sm_loop n s = Ret s' ∧ inv s'.
Proof.
  revert s. induction n as [|n IH]; intros s Hi; simpl; [by exists s|].
  destruct (round_inv s Hi) as (s1 & -> & Hi1). rewrite run_bind_l.
  if_branch; [by apply IH|by exists s1].
Qed.

(** Whether the event loop has a call of [eapol_sm_step] registered. *)
Definition step_pending (l : list event) : bool :=
  foldl (λ p e, match e with
                | RegisterTimeout _ SmStepTimeout => true
                | CancelTimeout SmStepTimeout => false
                | _ => p
                end) false l.

Lemma step_pending_snoc l e :
  step_pending (l ++ [e]) =
  match e with
  | RegisterTimeout _ SmStepTimeout => true
  | CancelTimeout SmStepTimeout => false
  | _ => step_pending l
  end.
Proof. unfold step_pending. by rewrite foldl_app. Qed.

(** The tail of [eapol_sm_step] after the loop: a machine that still changes is
    run again from the event loop. *)
Lemma step_tail s s1 : eapol_sm_loop 100 s = Ret s1 → ∃ s',
  eapol_sm_step s = Ret s' ∧ quiet s1 s' ∧ changed (sm s') = changed (sm s1) ∧
  last_rx_key (sm s') = last_rx_key (sm s1) ∧
  (changed (sm s1) = true → step_pending (out s') = true).
Proof.
  intros Hl. unfold eapol_sm_step. rewrite Hl, run_bind_l. cbv zeta.
  destruct (changed (sm s1)) eqn:Hc; if_branch; eexists; (split; [done|]).
  all: unfold emit; (split; [by quiet_tac|]); (split; [done|]); (split; [done|]);
    cbn -[step_pending]; rewrite ?step_pending_snoc; done.
Qed.

Lemma step_inv s : inv s → ∃ s', eapol_sm_step s = Ret s' ∧ inv s'.
Proof.
  intros Hi. destruct (loop_inv 100 s Hi) as (s1 & Hl & [Hp Hf]).
  destruct (step_tail s s1 Hl) as (s' & Hs & Hq & _ & Hk & _).
  exists s'. split; [done|]. split; [by eapply quiet_port_inv|]. intros f. rewrite Hk. apply Hf.
Qed.

(** Assignments that touch neither the port nor the stored frame. *)
Definition same_port (s s' : sys) : Prop :=
  SUPP_PAE_state (sm s') = SUPP_PAE_state (sm s) ∧
  suppPortStatus (sm s') = suppPortStatus (sm s) ∧
  driver_port (out s') = driver_port (out s) ∧
  last_rx_key (sm s') = last_rx_key (sm s).

Lemma same_port_inv s s' : inv s → same_port s s' → inv s'.
Proof.
  intros [[Hs Hd] Hf] (H1 & H2 & H3 & H4). split.
  - split; [by rewrite H1, H2|]. rewrite H2, H3. done.
  - intros f. rewrite H4. apply Hf.
Qed.

Lemma step_inv_from s s0 :
  inv s → same_port s s0 → ∃ s', eapol_sm_step s0 = Ret s' ∧ inv s'.
Proof. intros Hi Hs. apply step_inv. by eapply same_port_inv. Qed.

Ltac keep_inv := eapply same_port_inv; [eassumption|by repeat split].

(** The port set directly, with the driver told. *)
Lemma set_port_inv s st p :
  state_port st p → frame_inv s →
  inv ((match p with Authorized => eapol_sm_set_port_authorized
        | Unauthorized => eapol_sm_set_port_unauthorized end)
         (s.[SUPP_PAE_state := st].[suppPortStatus := p])).
Proof.
  intros Hsp Hf. unfold eapol_sm_set_port_authorized, eapol_sm_set_port_unauthorized.
  destruct p, (has_port_cb ctx) eqn:Hcb; (split; [split; [done|]|intros f; apply Hf]).
  all: intros; unfold emit; cbn -[driver_port]; rewrite ?driver_port_snoc; congruence || done.
Qed.

Lemma tick_same_port s : same_port s (eapol_enable_timer_tick s).
Proof.
  destruct (tick_quiet s) as (?&?&?&_). split_and!; try done.
  unfold eapol_enable_timer_tick. by if_branch.
Qed.

Lemma abort_cached_inv s : inv s → inv (eapol_sm_abort_cached s).
Proof.
  intros [_ Hf]. unfold eapol_sm_abort_cached. cbv zeta.
  set (s1 := eapol_sm_set_port_unauthorized _).
  assert (inv s1) as H1.
  { pose (s0 := s.[cached_pmk := false]).
    exact (set_port_inv s0 SUPP_PAE_CONNECTING Unauthorized I Hf). }
  clearbody s1.
  assert (inv (eapol_enable_timer_tick (s1.[startWhen := 3]))) as H2.
  { eapply same_port_inv; [|apply tick_same_port]. keep_inv. }
  if_branch; [|done]. eapply same_port_inv; [exact H2|].
  split_and!; try done. unfold emit. cbn -[driver_port]. by rewrite driver_port_snoc.
Qed.

Lemma rx_payload_len_spec s buf ty plen :
  (4 ≤ length buf)%nat → plen ≤ Z.of_nat (length buf) - 4 → ∃ plen',
  rx_payload_len s buf ty plen = Ret plen' ∧ plen' ≤ Z.of_nat (length buf) - 4.
Proof.
  intros H4 Hp. unfold rx_payload_len. cbv zeta. if_branch; [|by exists plen].
  bools. unfold sizeof_hdr in *.
  destruct (rd_lt buf 6) as (e0 & -> & _); [lia|]. rewrite run_bind_l.
  destruct (rd_lt buf 7) as (e1 & -> & _); [lia|]. rewrite run_bind_l.
  eexists. split; [done|]. if_branch; [|lia]. bools. lia.
Qed.

Lemma rx_eap_packet_inv ok body s : inv s → ∃ s', rx_eap_packet ok body s = Ret s' ∧ inv s'.
Proof.
  intros Hi. unfold rx_eap_packet. cbv zeta.
  set (s1 := if cached_pmk (sm s) then _ else s).
  assert (inv s1) as H1 by (unfold s1; if_branch; [by apply abort_cached_inv|done]).
  clearbody s1. destruct ok; [|eexists; split; [done|keep_inv]].
  apply (step_inv_from s1); [done|by repeat split].
Qed.

Lemma rx_eapol_key_inv ok f s :
  (48 ≤ length f)%nat → inv s → ∃ s', rx_eapol_key ok f s = Ret s' ∧ inv s'.
Proof.
  intros H48 [Hp Hf]. unfold rx_eapol_key. cbv zeta. destruct ok.
  - apply step_inv. split; [exact Hp|]. by intros g [= <-].
  - eexists. split; [done|]. split; [exact Hp|done].
Qed.

Lemma rx_eapol_inv ok src buf s : inv s → ∃ r s',
  eapol_sm_rx_eapol ok src buf s = Ret (r, s') ∧ inv s'.
Proof.
  intros Hi. unfold eapol_sm_rx_eapol. cbv zeta.
  if_branch; [eexists _, _; split; [done|keep_inv]|].
  apply Nat.ltb_ge in Heqb. unfold sizeof_hdr in Heqb.
  destruct (rd_lt buf 0) as (ver & -> & _); [lia|]. rewrite run_bind_l.
  destruct (rd_lt buf 1) as (ty & -> & _); [lia|]. rewrite run_bind_l.
  destruct (rd_lt buf 2) as (l0 & -> & _); [lia|]. rewrite run_bind_l.
  destruct (rd_lt buf 3) as (l1 & -> & _); [lia|]. rewrite run_bind_l.
  if_branch; [eexists _, _; split; [done|keep_inv]|].
  apply Z.ltb_ge in Heqb0. set (s1 := update _ _).
  assert (inv s1) as H1 by (unfold s1; keep_inv). clearbody s1. unfold sizeof_hdr, sizeof_key in *.
  destruct (rx_payload_len_spec s1 buf ty (be16 l0 l1)) as (plen & -> & Hplen); [lia..|].
  rewrite run_bind_l. if_branch.
  { rewrite rdn_ok, run_bind_l by lia.
    destruct (rx_eap_packet_inv ok (take (Z.to_nat plen) (drop 4 buf)) s1 H1) as (s2 & -> & H2).
    rewrite run_bind_l. by exists 1, s2. }
  if_branch; [|eexists _, _; split; [done|keep_inv]].
  if_branch; [by exists 1, s1|]. apply Z.ltb_ge in Heqb3.
  destruct (rd_lt buf 4) as (kt & -> & _); [lia|]. rewrite run_bind_l.
  if_branch; [by exists 0, s1|]. if_branch; [by exists 1, s1|].
  rewrite rdn_ok, run_bind_l by lia.
  destruct (rx_eapol_key_inv ok (take (Z.to_nat plen + 4) (drop 0 buf)) s1) as (s2 & -> & H2).
  { rewrite length_take, length_drop. lia. }
  { done. }
  rewrite run_bind_l. by exists 1, s2.
Qed.

(** Every entry point, started in a state with the invariant, returns to one. *)
Lemma run_op_inv o s : inv s → ∃ s', run_op o s = Ret s' ∧ inv s'.
Proof.
  intros Hi.
  assert (∀ s0, same_port s s0 → ∃ s', eapol_sm_step s0 = Ret s' ∧ inv s') as Hstep.
  { intros. by eapply step_inv_from. }
  assert (∀ s0, same_port s s0 → ∃ s', Ret s0 = Ret s' ∧ inv s') as Hret.
  { intros s0 ?. exists s0. split; [done|]. by eapply same_port_inv. }
  destruct o; simpl run_op.
  all: try (apply Hret; by repeat split).
  all: try (apply Hstep; by repeat split).
  - unfold eapol_port_timers_tick. cbv zeta. if_branch; apply Hstep; repeat split.
    unfold emit. cbn -[driver_port]. by rewrite driver_port_snoc.
  - apply Hret. unfold eapol_sm_configure. cbv zeta. by repeat if_branch.
  - destruct (rx_eapol_inv alloc_ok src buf s Hi) as (r & s' & -> & H').
    rewrite run_bind_l. by exists s'.
  - unfold eapol_sm_notify_eap_success. cbv zeta. apply Hstep. destruct b; by repeat split.
  - apply Hret. destruct c; by repeat split.
  - unfold eapol_sm_notify_cached. cbv zeta. apply step_inv.
    set (s1 := eapol_sm_set_port_authorized _).
    assert (inv s1) as H1 by exact (set_port_inv s SUPP_PAE_AUTHENTICATED Authorized eq_refl (proj2 Hi)).
    clearbody s1. keep_inv.
  - apply Hret. destruct b; by repeat split.
  - unfold eapol_sm_notify_ctrl_response. if_branch; [|by exists s]. cbv zeta.
    apply Hstep. by repeat split.
  - unfold eapol_sm_notify_pending. if_branch; [|by exists s]. cbv zeta.
    apply Hstep. by repeat split.
  - apply Hret. unfold eapol_sm_request_reauth, eapol_sm_txStart. if_branch; repeat split.
    unfold emit. cbn -[driver_port]. by rewrite driver_port_snoc.
  - apply Hstep. destruct (lower_layer_quiet s) as (?&?&?&_). split_and!; try done.
    apply lower_layer_frame.
Qed.

Lemma init_inv e : ∃ s, eapol_sm_init (Some e) = Ret (Some s) ∧ inv s.
Proof.
  unfold eapol_sm_init. cbv zeta. set (s0 := update _ _).
  assert (inv s0) as H0 by (split; [by split|done]). clearbody s0.
  destruct (step_inv s0 H0) as (s1 & -> & H1). rewrite run_bind_l.
  destruct (step_inv (s1.[initialize := false])) as (s2 & -> & H2); [keep_inv|].
  rewrite run_bind_l. eexists. split; [done|]. eapply same_port_inv; [exact H2|].
  split_and!; try done. unfold emit. cbn -[driver_port]. by rewrite driver_port_snoc.
Qed.

Lemma reachable_inv s : reachable s → inv s.
Proof.
  induction 1 as [e s He|s o s' _ IH Ho].
  - destruct e as [e|]; [|done]. destruct (init_inv e) as (s0 & H0 & Hi).
    rewrite H0 in He. by injection He as ->.
  - destruct (run_op_inv o s IH) as (s1 & H1 & Hi). rewrite H1 in Ho. by injection Ho as ->.
Qed.

(** The last round a step runs. *)
Lemma loop_last n s : inv s → ∃ s0 s', eapol_sm_loop (S n) s = Ret s' ∧
  inv s0 ∧ eapol_sm_round s0 = Ret s' ∧ off s0 = off s.
Proof.
  revert s. induction n as [|n IH]; intros s Hi.
  - destruct (round_inv s Hi) as (s1 & Hr & Hi1). exists s, s1. split_and!; try done.
    simpl. rewrite Hr, run_bind_l. by if_branch.
  - change (eapol_sm_loop (S (S n)) s) with
      (s ← eapol_sm_round s; if changed (sm s) then eapol_sm_loop (S n) s else Ret s).
    destruct (round_inv s Hi) as (s1 & Hr & Hi1). rewrite Hr, run_bind_l.
    if_branch; [|by exists s, s1].
    destruct (IH s1 Hi1) as (s0 & s' & Hl & Hi0 & Hr' & Ho). exists s0, s'. split_and!; try done.
    rewrite Ho. unfold off. destruct (round_spec s (proj2 Hi)) as (s2 & Hr2 & Hq & _).
    rewrite Hr in Hr2. injection Hr2 as <-.
    destruct Hq as (_&_&_&->& ->&_).
    by destruct (pae_keeps (s.[changed := false])) as (_&->& ->&_).
Qed.

(** A step ends either settled, with the PAE consistent with [portValid], or
    with a further step pending; and a dead port is closed either way. *)
Lemma step_result s : inv s → ∃ s', eapol_sm_step s = Ret s' ∧ inv s' ∧
  (changed (sm s') = true → step_pending (out s') = true) ∧
  (changed (sm s') = false → SUPP_PAE_state (sm s') = SUPP_PAE_AUTHENTICATED →
   portValid (sm s') = true ∧ off s' = false) ∧
  (off s = true → SUPP_PAE_state (sm s') = SUPP_PAE_DISCONNECTED).
Proof.
  intros Hi. destruct (loop_last 99 s Hi) as (s0 & s1 & Hl & Hi0 & Hr & Ho).
  destruct (step_tail s s1 Hl) as (s' & Hs & Hq & Hc & Hk & Hpend).
  destruct (step_inv s Hi) as (s'' & Hs'' & Hi'). rewrite Hs in Hs''. injection Hs'' as <-.
  exists s'. split; [done|]. split; [done|]. split; [by rewrite Hc|].
  destruct (round_spec s0 (proj2 Hi0)) as (s2 & Hr2 & Hq2 & _). rewrite Hr in Hr2.
  injection Hr2 as <-. set (s00 := s0.[changed := false]) in *.
  assert (quiet (SM_STEP_SUPP_PAE s00) s') as (Hq_st & _ & _ & Hq_i & Hq_e & Hq_v & Hq_c) by (by etrans).
  assert (off s' = off s0) as Hoff.
  { unfold off. rewrite Hq_i, Hq_e. by destruct (pae_keeps s00) as (_&->& ->&_). }
  rewrite Hq_st. split.
  - intros Hunch Hst. rewrite Hoff.
    assert (changed (sm (SM_STEP_SUPP_PAE s00)) = false) as Hpc.
    { destruct (changed (sm (SM_STEP_SUPP_PAE s00))) eqn:?; [|done]. rewrite Hq_c in Hunch; done. }
    destruct (pae_settled s00 Hpc Hst) as [Hv Hns]. by split; [apply Hq_v|].
  - intros Hd. apply pae_off. by rewrite <-Hd, <-Ho.
Qed.

(** *** EAPOL-Key acceptance *)

Definition wep_keys (l : list event) : list (bool * Z * list Z) :=
  omap (λ e, match e with SetWepKey u i k => Some (u, i, k) | _ => None end) l.

Lemma wep_keys_snoc l e :
  wep_keys (l ++ [e]) =
  wep_keys l ++ match e with SetWepKey u i k => [(u, i, k)] | _ => [] end.
Proof. unfold wep_keys. rewrite omap_app. by destruct e. Qed.

(** What the EAP layer cannot touch through its callbacks. *)
Lemma apply_writes_keys s ws :
  wep_keys (out (apply_writes s ws)) = wep_keys (out s) ∧
  replay_counter_valid (sm (apply_writes s ws)) = replay_counter_valid (sm s) ∧
  last_replay_counter (sm (apply_writes s ws)) = last_replay_counter (sm s).
Proof.
  unfold apply_writes. revert s. induction ws as [|w ws IH]; intros s; [done|]. simpl.
  destruct (IH (apply_write s w)) as (-> & -> & ->).
  destruct w as [[]|n]; try done. simpl. unfold eapol_sm_set_int, eapol_enable_timer_tick.
  if_branch; [done|]. unfold emit. cbn -[wep_keys]. by rewrite !wep_keys_snoc, !app_nil_r.
Qed.

Lemma lower_layer_keys s :
  let s1 := eapol_sm_lower_layer_success s in
  wep_keys (out s1) = wep_keys (out s) ∧
  replay_counter_valid (sm s1) = replay_counter_valid (sm s) ∧
  last_replay_counter (sm s1) = last_replay_counter (sm s).
Proof.
  unfold eapol_sm_lower_layer_success.
  destruct (eap_notify_lower_layer_success _ _) as [e ws].
  exact (apply_writes_keys (s <| eap := e |>) ws).
Qed.

Lemma install_counter s i k :
  replay_counter_valid (sm (processKey_install s i k)) = replay_counter_valid (sm s) ∧
  last_replay_counter (sm (processKey_install s i k)) = last_replay_counter (sm s).
Proof.
  unfold processKey_install, eapol_done, emit. cbv zeta.
  generalize (negb (Z.land i IEEE8021X_KEY_INDEX_FLAG =? 0)) as u; intros u.
  destruct (set_wep_key ctx) as [f|]; [destruct (f u _ k <? 0)|]; destruct u; by sys_cases.
Qed.

(** The signature of a key frame over its first [n] bytes. *)
Definition frame_signature (key frame : list Z) (n : nat) : list Z :=
  hmac_md5_ref key (take n (splice frame 32 (repeat 0 16))).

Lemma verify_accept s f hlen rx kd klen s' :
  length mem = 64%nat → small f → small kd → 4 + hlen ≤ Z.of_nat (length f) →
  processKey_verify s f hlen rx kd klen = Ret s' →
  wep_keys (out s') ≠ wep_keys (out s) →
  (replay_counter_valid (sm s) = true →
     memcmp (last_replay_counter (sm s)) (take 8 (drop 7 f)) < 0) ∧
  take 16 (drop 32 f) = frame_signature (take klen (drop 32 kd)) f (4 + Z.to_nat hlen) ∧
  replay_counter_valid (sm s') = true ∧ last_replay_counter (sm s') = take 8 (drop 7 f).
Proof.
  intros Hmem Hf Hkd Hlen. unfold processKey_verify, sizeof_hdr.
  destruct (rdn f 7 8) as [ctr| |] eqn:Hctr; [|done..]. rewrite run_bind_l.
  apply rdn_Ret in Hctr as [_ ->].
  if_branch; [by intros [= <-]|].
  destruct (rdn f 32 16) as [orig| |] eqn:Ho; [|done..]. rewrite run_bind_l. cbv zeta.
  apply rdn_Ret in Ho as [Ho ->].
  destruct (rdn _ 0 _) as [signed| |] eqn:Hs; [|done..]. rewrite run_bind_l.
  apply rdn_Ret in Hs as [Hsl ->]. rewrite drop_0.
  rewrite hmac_md5_is_ref; [|done|unfold small, is_u32 in *; rewrite length_take, length_drop; lia|].
  2: { rewrite drop_0 in Hsl. unfold small, is_u32 in *. rewrite Hsl. lia. }
  assert (32 + 16 ≤ length f)%nat as H48.
  { rewrite length_take, length_drop in Ho. lia. }
  set (mac := hmac_md5_ref _ _). set (f1 := splice _ 32 mac).
  assert (length mac = 16%nat) as Hmac by apply length_hmac_md5_ref.
  assert (length (splice f 32 (repeat 0 16)) = length f) as Hf0.
  { rewrite length_splice; rewrite ?repeat_length; lia. }
  rewrite (rdn_ok f1) by (unfold f1; rewrite length_splice; lia). rewrite run_bind_l.
  assert (take 16 (drop 32 f1) = mac) as ->.
  { rewrite <-Hmac at 1. apply slice_splice. lia. }
  if_branch; [by intros [= <-]|]. apply negb_false_iff, Z.eqb_eq, memcmp_eq in Heqb0; [|lia].
  if_branch; [by intros [= <-]|].
  destruct (processKey_datakey _ _ _ _ _) as [[d|]| |]; rewrite ?run_bind_l; [|by intros [= <-]|done..].
  destruct (rd f1 31) as [ki| |]; rewrite ?run_bind_l; [|done..].
  intros [= <-] _. match goal with |- context [processKey_install ?x ki d] =>
    destruct (install_counter x ki d) as [-> ->] end.
  split_and!; try done. intros Hv. rewrite Hv in Heqb. simpl in Heqb. lia.
Qed.

Lemma get_key_length s key len res kd :
  eapol_sm_get_key s key len = (res, kd) → (len ≤ length key)%nat → length kd = length key.
Proof.
  unfold eapol_sm_get_key. intros Hk Hlen. revert Hk. if_branch; [by intros [= <- <-]|].
  destruct (eap_get_eapKeyData (eap s)) as [ek|]; [|by intros [= <- <-]].
  if_branch; intros [= <- <-]; [done|]. rewrite length_splice; [done|]. rewrite length_take. lia.
Qed.

Lemma keydata_length s kd klen :
  length junk = 64%nat → processKey_keydata s = Some (kd, klen) → length kd = 64%nat.
Proof.
  intros Hj. unfold processKey_keydata.
  destruct (eapol_sm_get_key s junk 64) as [res k1] eqn:H1. apply get_key_length in H1; [|lia].
  if_branch; [done|]. if_branch.
  - destruct (eapol_sm_get_key s k1 16) as [res2 k2] eqn:H2. apply get_key_length in H2; [|lia].
    if_branch; [done|]. intros [= <- <-]. rewrite length_splice; rewrite ?length_take; lia.
  - if_branch; [done|]. intros [= <- <-]. lia.
Qed.

Lemma processKey_accept s s' :
  length mem = 64%nat → length junk = 64%nat → (∀ f, last_rx_key (sm s) = Some f → small f) →
  eapol_sm_processKey s = Ret s' → wep_keys (out s') ≠ wep_keys (out s) →
  ∃ f l0 l1 kd klen,
    last_rx_key (sm s) = Some f ∧ f !! 2%nat = Some l0 ∧ f !! 3%nat = Some l1 ∧
    processKey_keydata (eapol_sm_lower_layer_success s) = Some (kd, klen) ∧
    accept_802_1x_keys (conf (sm s)) = true ∧
    (replay_counter_valid (sm s) = true →
       memcmp (last_replay_counter (sm s)) (take 8 (drop 7 f)) < 0) ∧
    take 16 (drop 32 f) =
      frame_signature (take klen (drop 32 kd)) f (4 + Z.to_nat (be16 l0 l1)) ∧
    replay_counter_valid (sm s') = true ∧ last_replay_counter (sm s') = take 8 (drop 7 f).
Proof.
  intros Hmem Hjunk Hsmall. unfold eapol_sm_processKey, sizeof_hdr.
  destruct (last_rx_key (sm s)) as [f|] eqn:Hk; [|by intros [= <-]].
  if_branch; [by intros [= <-]|]. apply negb_false_iff in Heqb.
  destruct (rd f 2) as [l0| |] eqn:H2; [|done..]. rewrite run_bind_l. apply rd_Ret in H2.
  destruct (rd f 3) as [l1| |] eqn:H3; [|done..]. rewrite run_bind_l. apply rd_Ret in H3.
  cbv zeta.
  destruct (Z.ltb_spec (Z.of_nat (length f)) (Z.of_nat 4 + be16 l0 l1)); [by intros [= <-]|].
  destruct (rd f 5) as [k0| |]; [|done..]. rewrite run_bind_l.
  destruct (rd f 6) as [k1| |]; [|done..]. rewrite run_bind_l.
  destruct (lower_layer_keys s) as (Hw & Hv & Hc). revert Hw Hv Hc.
  set (s1 := eapol_sm_lower_layer_success s). intros Hw Hv Hc.
  destruct (processKey_keydata s1) as [[kd klen]|] eqn:Hkd.
  2: { intros [= <-]. by rewrite Hw. }
  rewrite <-Hw. intros Hver Hne.
  destruct (verify_accept s1 f (be16 l0 l1) (be16 k0 k1) kd klen s') as (H4 & H5 & H6 & H7); auto.
  { unfold small, is_u32. rewrite (keydata_length s1 kd klen) by done. lia. }
  exists f, l0, l1, kd, klen. rewrite <-Hv, <-Hc. split_and!; done.
Qed.

(** ** Correctness *)

(** C8: in every state reachable from [eapol_sm_init] the PAE state and
    [suppPortStatus] agree (logged off, disconnected, held and forced
    unauthorised mean a closed port; authenticated and forced authorised an open
    one), and the port of the driver, as last set through [port_cb], is
    [suppPortStatus]. *)
Theorem eapol_port_consistent s :
  reachable s →
  state_port (SUPP_PAE_state (sm s)) (suppPortStatus (sm s)) ∧
  (has_port_cb ctx = true →
   driver_port (out s) = bool_decide (suppPortStatus (sm s) = Authorized)).
Proof. intros H. apply (reachable_inv s H). Qed.

(** From a reachable state every entry point of the component returns
    normally, for any received frame and any outcome of an allocation: no read
    or write outside the stored EAPOL-Key frame, no empty RC4 key, and the step
    loop ends. *)
Theorem eapol_ops_safe s o : reachable s → ∃ s', run_op o s = Ret s' ∧ reachable s'.
Proof.
  intros H. destruct (run_op_inv o s (reachable_inv s H)) as (s' & Ho & _).
  exists s'. split; [done|]. by eapply reachable_op.
Qed.

(** When the link goes down the port is closed before the notification
    returns, in the state machine and in the driver, whatever the EAP layer
    does. *)
Theorem eapol_link_loss_closes s :
  reachable s → ∃ s',
    eapol_sm_notify_portEnabled false s = Ret s' ∧
    SUPP_PAE_state (sm s') = SUPP_PAE_DISCONNECTED ∧
    suppPortStatus (sm s') = Unauthorized ∧
    (has_port_cb ctx = true → driver_port (out s') = false).
Proof.
  intros H. destruct (step_result (s.[portEnabled := false])) as (s' & Hs & Hi & _ & _ & Hd).
  { pose proof (reachable_inv s H). keep_inv. }
  exists s'. assert (SUPP_PAE_state (sm s') = SUPP_PAE_DISCONNECTED) as Hst.
  { apply Hd. unfold off. cbn. by rewrite orb_true_r. }
  destruct Hi as [[Hp Hdr] _]. rewrite Hst in Hp. simpl in Hp.
  split_and!; try done. intros Hcb. by rewrite (Hdr Hcb), Hp.
Qed.

(** C36: [eapol_sm_step] returns within its 100 iterations either with nothing
    left to do or with a further call registered in the event loop; and when it
    returns with nothing left to do, a machine in AUTHENTICATED has a valid key
    and an operational link. *)
Theorem eapol_step_settles s :
  reachable s → ∃ s',
    eapol_sm_step s = Ret s' ∧
    (changed (sm s') = true → step_pending (out s') = true) ∧
    (changed (sm s') = false → SUPP_PAE_state (sm s') = SUPP_PAE_AUTHENTICATED →
     portValid (sm s') = true ∧ portEnabled (sm s') = true ∧ initialize (sm s') = false).
Proof.
  intros H. destruct (step_result s (reachable_inv s H)) as (s' & Hs & _ & Hp & Ha & _).
  exists s'. split_and!; try done. intros Hc Hst. destruct (Ha Hc Hst) as [Hv Hoff].
  unfold off in Hoff. apply orb_false_iff in Hoff as [Hi He]. by apply negb_false_iff in He.
Qed.

(** The PAE machine opens a closed port only on an operational link, and
    only if the keys are valid, or the network needs no EAPOL-Key frames and EAP
    succeeded, or the administrator forces the port open. *)
Theorem eapol_port_opens s :
  suppPortStatus (sm s) = Unauthorized →
  suppPortStatus (sm (SM_STEP_SUPP_PAE s)) = Authorized →
  initialize (sm s) = false ∧ portEnabled (sm s) = true ∧
  (portControl (sm s) = ForceAuthorized ∨ portValid (sm s) = true ∨
   eapSuccess (sm s) = true ∧ accept_802_1x_keys (conf (sm s)) = true ∧
   required_keys (conf (sm s)) = 0).
Proof.
  intros Hu Ha. destruct (pae_opens s Hu Ha) as [Hoff Hc].
  unfold off in Hoff. apply orb_false_iff in Hoff as [Hi He]. by apply negb_false_iff in He.
Qed.

(** C21: an EAPOL-Key frame that makes [eapol_sm_processKey] install a WEP key
    is accepted by the configuration, carries the HMAC-MD5 signature of the
    EAP master key over the frame with its signature field zeroed, and has a
    replay counter greater than the last accepted one (as a big-endian
    number), which it replaces. *)
Theorem eapol_key_replay s s' f :
  length mem = 64%nat → length junk = 64%nat →
  last_rx_key (sm s) = Some f → small f → bytes_ok f →
  bytes_ok (last_replay_counter (sm s)) → length (last_replay_counter (sm s)) = 8%nat →
  eapol_sm_processKey s = Ret s' → wep_keys (out s') ≠ wep_keys (out s) →
  accept_802_1x_keys (conf (sm s)) = true ∧
  (∃ l0 l1 kd klen, f !! 2%nat = Some l0 ∧ f !! 3%nat = Some l1 ∧
     processKey_keydata (eapol_sm_lower_layer_success s) = Some (kd, klen) ∧
     take 16 (drop 32 f) =
       frame_signature (take klen (drop 32 kd)) f (4 + Z.to_nat (be16 l0 l1))) ∧
  (replay_counter_valid (sm s) = true →
     be_val (last_replay_counter (sm s)) < be_val (take 8 (drop 7 f))) ∧
  replay_counter_valid (sm s') = true ∧ last_replay_counter (sm s') = take 8 (drop 7 f).
Proof.
  intros Hmem Hjunk Hf Hs Hb Hlb Hll Hp Hne.
  destruct (processKey_accept s s' Hmem Hjunk) as (g & l0 & l1 & kd & klen & Hg & H2 & H3 & Hkd
    & Hacc & Hctr & Hsig & Hv & Hl); [congruence|done|done|].
  simplify_eq. split_and!; try done; [by exists l0, l1, kd, klen|].
  intros Hvalid. apply memcmp_be; [done| | |auto].
  - by apply Forall_take, Forall_drop.
  - rewrite length_take, length_drop.
    assert (length (take 16 (drop 32 f)) = 16%nat) as Hl16 by (rewrite Hsig; apply length_hmac_md5_ref).
    rewrite length_take, length_drop in Hl16. lia.
Qed.
End eapol.

(** ** Instances

    An EAP layer that holds at most a master key and never reacts, and an owner
    with every callback whose driver accepts WEP keys. *)

Module Idle.
#[global] Instance idle_peer : EapPeer (option (list Z)) := {|
  eap_peer_sm_step e _ := (e, [], false);
  eap_sm_abort e := (e, []);
  eap_key_available e := bool_decide (is_Some e);
  eap_get_eapKeyData e := e;
  eap_get_eapRespData e := (e, None);
  eap_notify_success e := e;
  eap_notify_lower_layer_success e _ := (e, []);
  eap_set_fast_reauth e _ := e;
  eap_set_workaround e _ := e;
  eap_set_force_disabled e _ := e;
  eap_sm_notify_ctrl_attached e := e;
  eap_invalidate_cached_session e := e
|}.

#[global] Instance idle_peer_ok : EapPeerOk (option (list Z)).
Proof. split; intros; simplify_eq/=; constructor. Qed.

Definition owner : eapol_ctx := EapolCtx true true true true (Some (λ _ _ _, 0)).
Definition zeros : list Z := repeat 0 64.

(** The state after [eapol_sm_init] and some operations. *)
Fixpoint play (ops : list op) (s : sys) : run sys :=
  match ops with
  | [] => Ret s
  | o :: ops => s ← run_op owner true zeros zeros o s; play ops s
  end.

Definition start (key : option (list Z)) (ops : list op) : run (option (@sys (option (list Z)))) :=
  s ← eapol_sm_init owner true zeros zeros (Some key);
  match s with
  | None => Ret None
  | Some s => s ← play ops s; Ret (Some s)
  end.

Lemma play_reachable ops s s' :
  reachable owner true zeros zeros s → play ops s = Ret s' → reachable owner true zeros zeros s'.
Proof.
  revert s. induction ops as [|o ops IH]; intros s Hs Hp; simpl in Hp; [by injection Hp as <-|].
  destruct (run_op owner true zeros zeros o s) as [s1| |] eqn:Ho; [|done..].
  apply (IH s1); [|done]. by eapply reachable_op.
Qed.

Lemma start_reachable key ops s :
  start key ops = Ret (Some s) → reachable owner true zeros zeros s.
Proof.
  unfold start. destruct (eapol_sm_init _ _ _ _ _) as [[s0|]| |] eqn:H0; simpl; [|done..].
  destruct (play ops s0) as [s1| |] eqn:Hp; simpl; [|done..]. intros [= <-].
  eapply play_reachable; [by eapply reachable_init|done].
Qed.

(** A state where PMKSA caching authenticated the supplicant. *)
Definition cached_ops : list op :=
  [OpPortEnabled true; OpPmkidAttempt true; OpCached].
Definition cached : @sys (option (list Z)) :=
  match start None cached_ops with Ret (Some s) => s | _ => Sys eapol_sm_zero None [] end.

Lemma cached_reachable : reachable owner true zeros zeros cached.
Proof. apply (start_reachable None cached_ops). vm_compute. reflexivity. Qed.

Lemma eapol_port_consistent_witness :
  SUPP_PAE_state (sm cached) = SUPP_PAE_AUTHENTICATED ∧ driver_port (out cached) = true.
Proof.
  destruct (eapol_port_consistent owner true zeros zeros cached cached_reachable) as [_ H].
  split; [vm_compute; reflexivity|]. rewrite H; vm_compute; reflexivity.
Defined.

Lemma eapol_ops_safe_witness :
  ∃ s', run_op owner true zeros zeros (OpRx true (repeat 2 6) [2; 3; 0; 1; 1]) cached = Ret s' ∧
    reachable owner true zeros zeros s'.
Proof. exact (eapol_ops_safe owner true zeros zeros cached _ cached_reachable). Defined.

Lemma eapol_link_loss_closes_witness :
  suppPortStatus (sm cached) = Authorized ∧
  ∃ s', eapol_sm_notify_portEnabled owner true zeros zeros false cached = Ret s' ∧
    driver_port (out s') = false.
Proof.
  split; [vm_compute; reflexivity|].
  destruct (eapol_link_loss_closes owner true zeros zeros cached cached_reachable)
    as (s' & H1 & _ & _ & H2).
  exists s'. split; [exact H1|]. apply H2. reflexivity.
Defined.

Lemma eapol_step_settles_witness :
  ∃ s', eapol_sm_step owner true zeros zeros cached = Ret s' ∧
    (changed (sm s') = true → step_pending (out s') = true).
Proof.
  destruct (eapol_step_settles owner true zeros zeros cached cached_reachable) as (s' & H1 & H2 & _).
  exists s'. split; assumption.
Defined.

(** A closed port about to open: EAP succeeded and the keys are valid. *)
Definition opening : @sys (option (list Z)) :=
  Sys (eapol_sm_zero <| portEnabled := true |> <| portValid := true |> <| eapSuccess := true |>
         <| SUPP_PAE_state := SUPP_PAE_AUTHENTICATING |>) None [].

Lemma eapol_port_opens_witness :
  portEnabled (sm opening) = true ∧
  suppPortStatus (sm (SM_STEP_SUPP_PAE owner true opening)) = Authorized.
Proof.
  split; [|vm_compute; reflexivity].
  apply (eapol_port_opens owner true opening); vm_compute; reflexivity.
Defined.

(** A key frame signed with the master key [repeat 7 64], with replay counter 5
    and a 13-byte broadcast key, received after one with counter 4. *)
Definition unsigned_frame (klen dlen : Z) (data : list Z) : list Z :=
  [2; 3; 0; 44 + dlen; 1; 0; klen] ++ [0; 0; 0; 0; 0; 0; 0; 5] ++ repeat 9 16 ++ [1] ++
  repeat 0 16 ++ data.
Definition signed_frame (key : list Z) (klen dlen : Z) (data : list Z) : list Z :=
  let f := unsigned_frame klen dlen data in
  splice f 32 (frame_signature key f (length f)).
Definition with_key (f : list Z) (key : list Z) : @sys (option (list Z)) :=
  Sys (eapol_sm_zero <| conf := EapolConfig true 3 false 0 false |>
         <| replay_counter_valid := true |> <| last_replay_counter := [0; 0; 0; 0; 0; 0; 0; 4] |>
         <| last_rx_key := Some f |>) (Some key) [].

Definition rx_frame : list Z := signed_frame (repeat 7 32) 13 13 (repeat 1 13).
Definition after_key : @sys (option (list Z)) :=
  match eapol_sm_processKey owner zeros zeros (with_key rx_frame (repeat 7 64)) with
  | Ret s => s | _ => with_key [] [] end.

Lemma eapol_key_replay_witness :
  be_val [0; 0; 0; 0; 0; 0; 0; 4] < be_val (take 8 (drop 7 rx_frame)) ∧
  length (wep_keys (out after_key)) = 1%nat.
Proof.
  split; [|vm_compute; reflexivity].
  apply (eapol_key_replay owner zeros zeros (with_key rx_frame (repeat 7 64)) after_key rx_frame);
    try (vm_compute; reflexivity).
  - vm_compute; split; congruence.
  - apply (bool_decide_unpack _). vm_compute. exact I.
  - apply (bool_decide_unpack _). vm_compute. exact I.
  - vm_compute. congruence.
Defined.

(** LEAP supplies 16 bytes of keying material, of which a key frame
    without key data and with a key length of 32 makes the driver use 32: the
    last 16 bytes of the installed WEP key are the uninitialised stack memory
    [b]. *)
Theorem leap_key_uninitialised b :
  ∃ s', eapol_sm_processKey owner (repeat b 64) zeros
          (with_key (signed_frame (repeat 7 16) 32 0 []) (repeat 7 16)) = Ret s' ∧
    wep_keys (out s') = [(false, 1, repeat 7 16 ++ repeat b 16)].
Proof. eexists. split; vm_compute; reflexivity. Qed.
End Idle.
