(* ===== verification/EapolGuard.v ===== *)
(** * The EAPOL supplicant as a guard of the port

    On a network with WPA the owner of the EAPOL supplicant configures it with an
    automatic port and without keys of IEEE 802.1X.  Then the machines alone never open
    the port: that takes valid keys, which only the owner reports.  The statements hold
    for any EAP layer, whatever it believes about the outcome of EAP. *)

From S2P Require Import Prelude EapolSupp.

Section guard.
Context {E : Type} `{!EapPeer E, !EapPeerOk E}.
Context (ctx : eapol_ctx) (config_wps : bool) (junk mem : list Z).
Implicit Types s : sys (E := E).

Local Notation "s .[ f := v ]" := (s <| sm := (sm s) <| f := v |> |>)
  (at level 12, f at next level, left associativity).

(** The configuration and the report of valid keys. *)
Definition cfg s : PortControl * eapol_config * bool := (portControl (sm s), conf (sm s), portValid (sm s)).

Definition guarded s : Prop := portControl (sm s) = Auto ∧ accept_802_1x_keys (conf (sm s)) = false.

(** No valid keys and a closed port. *)
Definition shut s : Prop := portValid (sm s) = false ∧ suppPortStatus (sm s) = Unauthorized.

Lemma cfg_guarded s s' : cfg s' = cfg s → guarded s → guarded s'.
Proof. unfold cfg, guarded. by intros [= -> -> _]. Qed.

(** ** Functions that keep the configuration *)

Lemma cfg_trans s s' k : cfg s = k → cfg s' = cfg s → cfg s' = k.
Proof. congruence. Qed.
Lemma cfg_let (A : sys (E := E)) (B : sys (E := E) → sys (E := E)) k :
  cfg A = k → (∀ s, cfg s = k → cfg (B s) = k) → cfg (let s := A in B s) = k.
Proof. auto. Qed.
Lemma cfg_let' {T} (A : T) (B : T → sys (E := E)) k : (∀ x, cfg (B x) = k) → cfg (let x := A in B x) = k.
Proof. auto. Qed.

Create HintDb eapol_cfg.

(** Assignments are followed one at a time. *)
Ltac strip :=
  repeat first
    [ match goal with
      | |- cfg ?y = _ => is_var y; first [eassumption | reflexivity]
      | |- cfg (let x := ?A in @?B x) = ?k =>
          first [ refine (cfg_let A B k _ _); [|let s := fresh "s" in let H := fresh "H" in intros s H; cbv beta]
                | refine (cfg_let' A B k _); let x := fresh "x" in intros x; cbv beta ]
      | |- cfg (update ?g ?Y) = _ => change (cfg (update g Y)) with (cfg Y)
      | |- cfg (emit ?e ?Y) = _ => change (cfg (emit e Y)) with (cfg Y)
      | |- cfg (if ?b then _ else _) = _ => destruct b
      | |- cfg (match ?b with _ => _ end) = _ => destruct b
      | |- cfg (?f ?Y) = ?k => apply (cfg_trans Y); [|solve [auto with eapol_cfg nocore]]
      end ].

Lemma cfg_tick s : cfg (eapol_enable_timer_tick s) = cfg s.
Proof. cbv beta delta [eapol_enable_timer_tick]. strip. Qed.
Lemma cfg_authorized s : cfg (eapol_sm_set_port_authorized ctx s) = cfg s.
Proof. cbv beta delta [eapol_sm_set_port_authorized]. strip. Qed.
Lemma cfg_unauthorized s : cfg (eapol_sm_set_port_unauthorized ctx s) = cfg s.
Proof. cbv beta delta [eapol_sm_set_port_unauthorized]. strip. Qed.
Lemma cfg_start s : cfg (eapol_sm_txStart s) = cfg s.
Proof. cbv beta delta [eapol_sm_txStart]. strip. Qed.
Lemma cfg_logoff s : cfg (eapol_sm_txLogoff s) = cfg s.
Proof. cbv beta delta [eapol_sm_txLogoff]. strip. Qed.
Lemma cfg_pae_entry g st s : cfg (pae_entry g st s) = cfg s.
Proof. cbv beta delta [pae_entry]. strip. Qed.
Lemma cfg_be_entry g st s : cfg (be_entry g st s) = cfg s.
Proof. cbv beta delta [be_entry]. strip. Qed.
Lemma cfg_key_rx_entry g st s : cfg (key_rx_entry g st s) = cfg s.
Proof. cbv beta delta [key_rx_entry]. strip. Qed.
#[local] Hint Resolve cfg_tick cfg_authorized cfg_unauthorized cfg_start cfg_logoff cfg_pae_entry cfg_be_entry
  cfg_key_rx_entry : eapol_cfg.

Lemma cfg_enter_state st g s : cfg (enter_state ctx config_wps st g s) = cfg s.
Proof.
  destruct st; cbn [enter_state]; [reflexivity|..].
  all: cbv beta delta [sm_SUPP_PAE_DISCONNECTED_Enter sm_SUPP_PAE_LOGOFF_Enter sm_SUPP_PAE_CONNECTING_Enter
    sm_SUPP_PAE_AUTHENTICATING_Enter sm_SUPP_PAE_AUTHENTICATED_Enter sm_SUPP_PAE_HELD_Enter sm_SUPP_PAE_RESTART_Enter
    sm_SUPP_PAE_S_FORCE_AUTH_Enter sm_SUPP_PAE_S_FORCE_UNAUTH_Enter]; strip.
Qed.

Lemma cfg_pae s : guarded s → cfg (SM_STEP_SUPP_PAE ctx config_wps s) = cfg s.
Proof.
  intros [_ Ha]. destruct (pae_step_move ctx config_wps s) as [| | |_ _ Hacc _];
    [reflexivity|apply cfg_enter_state..|congruence].
Qed.

Lemma cfg_writes s ws : cfg (apply_writes s ws) = cfg s.
Proof.
  revert s. induction ws as [|w ws IH]; intros s; [done|].
  change (apply_writes s (w :: ws)) with (apply_writes (apply_write s w) ws). rewrite IH.
  destruct w as [[] b|n]; [reflexivity..|]. cbn [apply_write]. cbv beta delta [eapol_sm_set_int]. strip.
Qed.

Lemma cfg_abort s : cfg (eapol_sm_abortSupp s) = cfg s.
Proof.
  cbv beta delta [eapol_sm_abortSupp]. cbv zeta. destruct (eap_sm_abort _) as [e ws]. by rewrite cfg_writes.
Qed.
Lemma cfg_rsp s : cfg (eapol_sm_txSuppRsp s) = cfg s.
Proof.
  cbv beta delta [eapol_sm_txSuppRsp]. destruct (eap_get_eapRespData _) as [e [r|]]; [|reflexivity]. strip.
Qed.
#[local] Hint Resolve cfg_abort cfg_rsp : eapol_cfg.

Lemma cfg_be s : cfg (SM_STEP_SUPP_BE s) = cfg s.
Proof.
  assert (∀ g,
    cfg (sm_SUPP_BE_REQUEST_Enter g s) = cfg s ∧ cfg (sm_SUPP_BE_RESPONSE_Enter g s) = cfg s ∧
    cfg (sm_SUPP_BE_SUCCESS_Enter g s) = cfg s ∧ cfg (sm_SUPP_BE_FAIL_Enter g s) = cfg s ∧
    cfg (sm_SUPP_BE_TIMEOUT_Enter g s) = cfg s ∧ cfg (sm_SUPP_BE_IDLE_Enter g s) = cfg s ∧
    cfg (sm_SUPP_BE_INITIALIZE_Enter g s) = cfg s ∧ cfg (sm_SUPP_BE_RECEIVE_Enter g s) = cfg s) as H.
  { intros g. split_and!.
    all: cbv beta delta [sm_SUPP_BE_REQUEST_Enter sm_SUPP_BE_RESPONSE_Enter sm_SUPP_BE_SUCCESS_Enter sm_SUPP_BE_FAIL_Enter
      sm_SUPP_BE_TIMEOUT_Enter sm_SUPP_BE_IDLE_Enter sm_SUPP_BE_INITIALIZE_Enter sm_SUPP_BE_RECEIVE_Enter]; strip. }
  pose proof (H true) as (_&_&_&_&_&_&?&_). destruct (H false) as (?&?&?&?&?&?&_&?).
  unfold SM_STEP_SUPP_BE. cbv zeta. if_branch; [assumption|].
  destruct (SUPP_BE_state (sm s)); repeat if_branch; (assumption || reflexivity).
Qed.

Lemma cfg_eap_step s : cfg (eapol_eap_step s) = cfg s.
Proof.
  unfold eapol_eap_step. destruct (eap_peer_sm_step _ _) as [[e ws] p]. destruct p.
  - change (cfg (apply_writes (s <| eap := e |>) ws) = cfg s). by rewrite cfg_writes.
  - by rewrite cfg_writes.
Qed.

(** Without keys of IEEE 802.1X a key frame is ignored. *)
Lemma cfg_key_rx s s' : guarded s → SM_STEP_KEY_RX ctx junk mem s = Ret s' → cfg s' = cfg s.
Proof.
  intros Hg. unfold SM_STEP_KEY_RX. cbv zeta.
  set (s1 := if _ || _ then _ else _).
  assert (cfg s1 = cfg s) as H1 by (unfold s1; if_branch; [apply cfg_key_rx_entry|done]).
  assert (∀ t, cfg t = cfg s → sm_KEY_RX_KEY_RECEIVE_Enter ctx junk mem false t = Ret s' → cfg s' = cfg s) as Hrx.
  { intros t Ht. unfold sm_KEY_RX_KEY_RECEIVE_Enter. cbv zeta. set (t1 := key_rx_entry _ _ _).
    assert (cfg t1 = cfg s) as Ht1 by (unfold t1; by rewrite cfg_key_rx_entry).
    unfold eapol_sm_processKey. destruct (last_rx_key (sm t1)) as [f|].
    - destruct (cfg_guarded _ _ Ht1 Hg) as [_ ->]. cbn [negb]. rewrite run_bind_l. intros [= <-]. exact Ht1.
    - rewrite run_bind_l. intros [= <-]. exact Ht1. }
  destruct (KEY_RX_state (sm s1)); [by intros [= <-]|..]; (if_branch; [by apply Hrx|by intros [= <-]]).
Qed.

(** ** Steps *)

(** What a step of a guarded supplicant does. *)
Definition guards s s' : Prop := cfg s' = cfg s ∧ (shut s → shut s').

Lemma guards_trans s1 s2 s3 : guards s1 s2 → guards s2 s3 → guards s1 s3.
Proof. intros [H1 H2] [H3 H4]. split; [congruence|auto]. Qed.

Lemma guards_quiet s s' : cfg s' = cfg s → suppPortStatus (sm s') = suppPortStatus (sm s) → guards s s'.
Proof. intros Hc Hp. split; [done|]. unfold shut. rewrite Hp. injection Hc as _ _ ->. done. Qed.

Lemma round_guards s s' :
  frame_inv s → guarded s → eapol_sm_round ctx config_wps junk mem s = Ret s' → guards s s'.
Proof.
  intros Hf Hg H. destruct (round_spec ctx config_wps junk mem s Hf) as (s2 & H2 & Hq & _).
  rewrite H in H2. injection H2 as <-. set (s0 := s.[changed := false]) in *.
  assert (guarded s0) as Hg0 by exact Hg.
  assert (cfg s' = cfg s) as Hc.
  { unfold eapol_sm_round in H. cbv zeta in H. run_inv. rewrite cfg_eap_step, cfg_be.
    assert (cfg (SM_STEP_SUPP_PAE ctx config_wps s0) = cfg s) as Hp by (by apply (cfg_pae s0)).
    apply cfg_key_rx in Hrun as ->; [exact Hp|]. by eapply cfg_guarded. }
  split; [done|]. intros [Hv Hp]. injection Hc as _ _ Hc. split; [congruence|].
  destruct Hq as (_ & -> & _). destruct (suppPortStatus (sm (SM_STEP_SUPP_PAE ctx config_wps s0))) eqn:Ha; [done|].
  exfalso. destruct (pae_opens ctx config_wps s0 Hp Ha) as [_ [Hf'|[Hv'|(_ & Hacc & _)]]]; destruct Hg0 as [Hg1 Hg2];
    [congruence| |congruence]. change (portValid (sm s) = true) in Hv'. congruence.
Qed.

Lemma loop_guards n s s' :
  inv ctx s → guarded s → eapol_sm_loop ctx config_wps junk mem n s = Ret s' → guards s s'.
Proof.
  revert s. induction n as [|n IH]; intros s Hi Hg; cbn [eapol_sm_loop]; [by intros [= <-]|].
  destruct (round_inv ctx config_wps junk mem s Hi) as (s1 & Hr & Hi1). rewrite Hr, run_bind_l. intros H.
  assert (guards s s1) as H1 by (eapply round_guards; [apply Hi|done|done]).
  destruct (changed (sm s1)); [|by injection H as <-].
  eapply guards_trans; [exact H1|]. apply IH; [done| |done]. by eapply cfg_guarded; [apply H1|].
Qed.

Lemma step_guards s s' :
  inv ctx s → guarded s → eapol_sm_step ctx config_wps junk mem s = Ret s' → guards s s'.
Proof.
  intros Hi Hg H. destruct (loop_inv ctx config_wps junk mem 100 s Hi) as (s1 & Hl & _).
  eapply guards_trans; [by eapply loop_guards|].
  destruct (step_tail ctx config_wps junk mem s s1 Hl) as (s2 & H2 & Hq & _). rewrite H in H2. injection H2 as <-.
  apply guards_quiet; [|apply Hq]. unfold eapol_sm_step in H. rewrite Hl, run_bind_l in H. cbv zeta in H.
  destruct (changed (sm s1)); destruct (has_cb ctx && _); injection H as <-; reflexivity.
Qed.

(** A step after an assignment that keeps the port. *)
Lemma step_guards_from s s0 s' :
  inv ctx s → guarded s → same_port s s0 → cfg s0 = cfg s →
  eapol_sm_step ctx config_wps junk mem s0 = Ret s' → guards s s'.
Proof.
  intros Hi Hg Hp Hc H. eapply guards_trans; [by apply guards_quiet; [|apply Hp]|].
  eapply step_guards; [by eapply same_port_inv|by eapply cfg_guarded|exact H].
Qed.

(** ** Operations *)

(** The operations that report keys, and those that change the configuration. *)
Definition reports (o : op) : bool := match o with OpPortValid true | OpCached => true | _ => false end.
Definition configures (o : op) : bool := match o with OpPortControl _ | OpConfig (Some _) => true | _ => false end.

Lemma rx_key_guards ok f s s' :
  (sizeof_hdr + sizeof_key ≤ length f)%nat → inv ctx s → guarded s →
  rx_eapol_key ctx config_wps junk mem ok f s = Ret s' → guards s s'.
Proof.
  intros Hf Hi Hg. unfold rx_eapol_key. cbv zeta. destruct ok; [|intros [= <-]; by apply guards_quiet].
  set (s1 := s.[last_rx_key := Some f]). intros H.
  assert (guards s s1) as H1 by (by apply guards_quiet).
  assert (inv ctx s1) as Hi1 by (split; [apply Hi|]; by intros g [= <-]).
  eapply guards_trans; [exact H1|]. assert (guarded s1) as Hg1 by exact Hg.
  refine (step_guards_from _ _ _ Hi1 Hg1 _ _ H); [by repeat split|reflexivity].
Qed.

Lemma rx_guards ok src buf s r s' :
  inv ctx s → guarded s → eapol_sm_rx_eapol ctx config_wps junk mem ok src buf s = Ret (r, s') → guards s s'.
Proof.
  intros Hi Hg. unfold eapol_sm_rx_eapol. cbv zeta.
  if_branch; [by intros [= _ <-]|]. intros H. run_inv. revert H.
  if_branch; [by intros [= _ <-]|]. intros H. run_inv. revert H.
  set (t := s.[dot1xSuppEapolFramesRx := _].[dot1xSuppLastEapolFrameVersion := _].[dot1xSuppLastEapolFrameSource := _]).
  assert (inv ctx t ∧ guarded t ∧ guards s t) as (Hit & Hgt & Ht).
  { split_and!; [|exact Hg|by apply guards_quiet]. eapply same_port_inv; [exact Hi|by repeat split]. }
  if_branch.
  - intros H. run_inv. eapply guards_trans; [exact Ht|]. clear Ht.
    unfold rx_eap_packet in Hrun5. cbv zeta in Hrun5.
    set (t1 := if cached_pmk (sm t) then _ else t) in Hrun5.
    assert (inv ctx t1 ∧ guarded t1 ∧ guards t t1) as (Hi1 & Hg1 & H1).
    { unfold t1. if_branch; [|by split_and!].
      assert (cfg (eapol_sm_abort_cached ctx t) = cfg t) as Hc.
      { cbv beta delta [eapol_sm_abort_cached]. strip. }
      split_and!; [by apply abort_cached_inv|by eapply cfg_guarded|]. split; [done|].
      intros [Hv _]. injection Hc as _ _ Hc. split; [by rewrite Hc|].
      unfold eapol_sm_abort_cached. cbv zeta. unfold eapol_enable_timer_tick, eapol_sm_set_port_unauthorized.
      repeat case_match; reflexivity. }
    eapply guards_trans; [exact H1|]. destruct ok; [|by injection Hrun5 as <-].
    refine (step_guards_from _ _ _ Hi1 Hg1 _ _ Hrun5); [by repeat split|reflexivity].
  - if_branch; [|by intros [= _ <-]]. if_branch; [by intros [= _ <-]|]. intros H. run_inv. revert H.
    if_branch; [by intros [= _ <-]|]. if_branch; [by intros [= _ <-]|]. intros H. run_inv.
    eapply guards_trans; [exact Ht|]. match goal with H : rx_eapol_key _ _ _ _ _ _ _ = _ |- _ => rename H into Hkey end.
    match goal with H : rdn _ _ _ = Ret x5 |- _ => apply rdn_Ret in H as [Hl5 _] end.
    match goal with H : (_ <? Z.of_nat sizeof_key) = false |- _ => apply Z.ltb_ge in H end.
    refine (rx_key_guards ok x5 t s' _ Hit Hgt Hkey). lia.
Qed.

(** The assignments before the step of each notification. *)
Definition ready s s0 : Prop := same_port s s0 ∧ cfg s0 = cfg s.

Lemma ready_trans s1 s2 s3 : ready s1 s2 → ready s2 s3 → ready s1 s3.
Proof. intros [(?&?&?&?) ?] [(?&?&?&?) ?]. repeat split; congruence. Qed.

Lemma ready_emit s e : match e with PortCb _ => False | _ => True end → ready s (emit e s).
Proof. intros He. repeat split. cbn -[driver_port]. rewrite driver_port_snoc. by destruct e. Qed.

Lemma ready_step s s0 s' :
  inv ctx s → guarded s → ready s s0 → eapol_sm_step ctx config_wps junk mem s0 = Ret s' → guards s s'.
Proof. intros Hi Hg [Hp Hc]. by apply step_guards_from. Qed.

Lemma ready_guards s s' : ready s s' → guards s s'.
Proof. intros [(_ & Hp & _) Hc]. by apply guards_quiet. Qed.

Lemma timers_guards s s' :
  inv ctx s → guarded s → eapol_port_timers_tick ctx config_wps junk mem s = Ret s' → guards s s'.
Proof.
  intros Hi Hg. unfold eapol_port_timers_tick. cbv zeta.
  set (s1 := s.[authWhile := _]). assert (ready s s1) as H1 by (by repeat split). clearbody s1.
  set (s2 := s1.[heldWhile := _]). assert (ready s s2) as H2 by (eapply ready_trans; [exact H1|by repeat split]). clearbody s2.
  set (s3 := s2.[startWhen := _]). assert (ready s s3) as H3 by (eapply ready_trans; [exact H2|by repeat split]). clearbody s3.
  set (s4 := s3.[idleWhile := _]). assert (ready s s4) as H4 by (eapply ready_trans; [exact H3|by repeat split]). clearbody s4.
  destruct (negb _); apply ready_step; try done. eapply ready_trans; [exact H4|by apply ready_emit].
Qed.

Lemma configure_guards h a st mx s : guards s (eapol_sm_configure h a st mx s).
Proof.
  unfold eapol_sm_configure. cbv zeta. apply ready_guards.
  set (s1 := if 0 <=? h then _ else _). assert (ready s s1) as H1 by (unfold s1; if_branch; by repeat split). clearbody s1.
  set (s2 := if 0 <=? a then _ else _).
  assert (ready s s2) as H2 by (unfold s2; if_branch; [eapply ready_trans; [exact H1|by repeat split]|done]). clearbody s2.
  set (s3 := if 0 <=? st then _ else _).
  assert (ready s s3) as H3 by (unfold s3; if_branch; [eapply ready_trans; [exact H2|by repeat split]|done]). clearbody s3.
  if_branch; [eapply ready_trans; [exact H3|by repeat split]|done].
Qed.

Lemma eap_success_guards b s s' :
  inv ctx s → guarded s → eapol_sm_notify_eap_success ctx config_wps junk mem b s = Ret s' → guards s s'.
Proof.
  intros Hi Hg. unfold eapol_sm_notify_eap_success. cbv zeta.
  set (s1 := s.[eapSuccess := _]). assert (ready s s1) as H1 by (by repeat split). clearbody s1.
  set (s2 := s1.[altAccept := _]). assert (ready s s2) as H2 by (eapply ready_trans; [exact H1|by repeat split]). clearbody s2.
  apply ready_step; try done. by destruct b.
Qed.

Lemma eap_fail_guards b s s' :
  inv ctx s → guarded s → eapol_sm_notify_eap_fail ctx config_wps junk mem b s = Ret s' → guards s s'.
Proof.
  intros Hi Hg. unfold eapol_sm_notify_eap_fail. cbv zeta.
  set (s1 := s.[eapFail := _]). assert (ready s s1) as H1 by (by repeat split). clearbody s1.
  by apply ready_step.
Qed.

Lemma pending_guards s s' :
  inv ctx s → guarded s →
  eapol_sm_step ctx config_wps junk mem (s.[eapolEap := true].[eapReq := true]) = Ret s' → guards s s'.
Proof.
  intros Hi Hg. set (s1 := s.[eapolEap := true]). assert (ready s s1) as H1 by (by repeat split). clearbody s1.
  by apply ready_step.
Qed.

Lemma reauth_guards s : guards s (eapol_sm_request_reauth s).
Proof.
  unfold eapol_sm_request_reauth. if_branch; [done|]. apply ready_guards. unfold eapol_sm_txStart. cbv zeta.
  set (s1 := emit _ s). assert (ready s s1) as H1 by (by apply ready_emit). clearbody s1.
  set (s2 := s1.[dot1xSuppEapolStartFramesTx := _]).
  assert (ready s s2) as H2 by (eapply ready_trans; [exact H1|by repeat split]). clearbody s2.
  eapply ready_trans; [exact H2|by repeat split].
Qed.

Lemma lower_guards s s' :
  inv ctx s → guarded s → eapol_sm_notify_lower_layer_success ctx config_wps junk mem s = Ret s' → guards s s'.
Proof.
  intros Hi Hg. unfold eapol_sm_notify_lower_layer_success. apply ready_step; try done. split.
  - destruct (lower_layer_quiet s) as (?&?&?&_). repeat split; try done. apply lower_layer_frame.
  - unfold eapol_sm_lower_layer_success. destruct (eap_notify_lower_layer_success _ _) as [e ws]. by rewrite cfg_writes.
Qed.

(** Keys that are no longer valid. *)
Lemma invalid_guards s s' :
  inv ctx s → guarded s → eapol_sm_notify_portValid ctx config_wps junk mem false s = Ret s' →
  (suppPortStatus (sm s) = Unauthorized → shut s') ∧ guarded s'.
Proof.
  intros Hi Hg. unfold eapol_sm_notify_portValid. set (s0 := s.[portValid := false]).
  assert (guarded s0) as Hg0 by exact Hg.
  assert (inv ctx s0) as Hi0 by (eapply same_port_inv; [exact Hi|by repeat split]).
  assert (suppPortStatus (sm s) = Unauthorized → shut s0) as Hs0 by done. clearbody s0.
  intros H. destruct (step_guards s0 s' Hi0 Hg0 H) as [Hk Hsh]. split; [auto|]. by eapply cfg_guarded.
Qed.

Lemma op_rx_guards ok src buf s s' :
  inv ctx s → guarded s →
  ('(_, s) ← eapol_sm_rx_eapol ctx config_wps junk mem ok src buf s; Ret s) = Ret s' → guards s s'.
Proof.
  intros Hi Hg H. apply run_bind_Ret in H as ([r t] & H1 & H2). injection H2 as <-. by eapply rx_guards.
Qed.

Lemma tx_key_guards s s' : Ret (eapol_sm_notify_tx_eapol_key s) = Ret s' → guards s s'.
Proof. intros [= <-]. apply guards_quiet; reflexivity. Qed.
Lemma attached_guards s : guards s (eapol_sm_notify_ctrl_attached s).
Proof. apply guards_quiet; reflexivity. Qed.
Lemma invalidate_guards s : guards s (eapol_sm_invalidate_cached_session s).
Proof. apply guards_quiet; reflexivity. Qed.
Lemma pmkid_guards b s : guards s (eapol_sm_notify_pmkid_attempt b s).
Proof. destruct b; apply guards_quiet; reflexivity. Qed.

Lemma enabled_guards b s s' :
  inv ctx s → guarded s → eapol_sm_notify_portEnabled ctx config_wps junk mem b s = Ret s' → guards s s'.
Proof.
  intros Hi Hg. unfold eapol_sm_notify_portEnabled. set (s1 := s.[portEnabled := b]).
  assert (ready s s1) as H1 by (by repeat split). clearbody s1. by apply ready_step.
Qed.
Lemma logoff_guards b s s' :
  inv ctx s → guarded s → eapol_sm_notify_logoff ctx config_wps junk mem b s = Ret s' → guards s s'.
Proof.
  intros Hi Hg. unfold eapol_sm_notify_logoff. set (s1 := s.[userLogoff := b]).
  assert (ready s s1) as H1 by (by repeat split). clearbody s1. by apply ready_step.
Qed.
Lemma ctrl_guards s s' :
  inv ctx s → guarded s → eapol_sm_notify_ctrl_response ctx config_wps junk mem s = Ret s' → guards s s'.
Proof.
  intros Hi Hg. unfold eapol_sm_notify_ctrl_response. destruct (_ && _); [by apply pending_guards|by intros [= <-]].
Qed.

(** Unless the owner reports keys or changes the configuration, an operation keeps the
    configuration of a guarded supplicant, and a port that is shut. *)
Lemma op_guards o s s' :
  inv ctx s → guarded s → reports o = false → configures o = false →
  run_op ctx config_wps junk mem o s = Ret s' → (shut s → shut s') ∧ guarded s'.
Proof.
  intros Hi Hg Hr Hc H.
  assert (guards s s' → (shut s → shut s') ∧ guarded s') as Hd.
  { intros [H1 H2]. split; [done|]. by eapply cfg_guarded. }
  destruct o as [| |h a st mx|ok src buf| |b|b|b|b|c|b| |b|pc| | | | | |]; try discriminate Hr; try discriminate Hc.
  7: { destruct b; [discriminate Hr|]. revert H. cbn [run_op]. intros H. destruct (invalid_guards s s' Hi Hg H) as [H1 H2]. split; [|exact H2].
       intros [_ Hp]. by apply H1. }
  all: apply Hd; clear Hd; revert H; cbn [run_op].
  - by apply timers_guards.
  - by apply step_guards.
  - intros [= <-]. apply configure_guards.
  - by apply op_rx_guards.
  - apply tx_key_guards.
  - by apply enabled_guards.
  - by apply eap_success_guards.
  - by apply eap_fail_guards.
  - destruct c; [discriminate Hc|]. by intros [= <-].
  - by apply logoff_guards.
  - intros [= <-]. apply pmkid_guards.
  - intros [= <-]. apply attached_guards.
  - by apply ctrl_guards.
  - by apply ctrl_guards.
  - intros [= <-]. apply reauth_guards.
  - by apply lower_guards.
  - intros [= <-]. apply invalidate_guards.
Qed.

(** Steps keep whether the link is up. *)
Lemma loop_enabled n s s' :
  inv ctx s → eapol_sm_loop ctx config_wps junk mem n s = Ret s' → portEnabled (sm s') = portEnabled (sm s).
Proof.
  revert s. induction n as [|n IH]; intros s Hi; cbn [eapol_sm_loop]; [by intros [= <-]|].
  destruct (round_inv ctx config_wps junk mem s Hi) as (s1 & Hr & Hi1). rewrite Hr, run_bind_l. intros H.
  assert (portEnabled (sm s1) = portEnabled (sm s)) as H1.
  { destruct (round_spec ctx config_wps junk mem s (proj2 Hi)) as (s2 & H2 & Hq & _).
    rewrite Hr in H2. injection H2 as <-. destruct Hq as (_&_&_&_&->&_).
    by destruct (pae_keeps ctx config_wps (s.[changed := false])) as (_&_&->&_). }
  destruct (changed (sm s1)); [rewrite <-H1; by apply IH|by injection H as <-].
Qed.

(** A step over a link that is down closes the port and keeps the link down. *)
Lemma step_down s : inv ctx s → portEnabled (sm s) = false →
  ∃ s', eapol_sm_step ctx config_wps junk mem s = Ret s' ∧ inv ctx s' ∧ suppPortStatus (sm s') = Unauthorized ∧
    portEnabled (sm s') = false.
Proof.
  intros Hi He. destruct (step_result ctx config_wps junk mem s Hi) as (s' & Hs & Hi' & _ & _ & Hd).
  assert (SUPP_PAE_state (sm s') = SUPP_PAE_DISCONNECTED) as Hst.
  { apply Hd. unfold off. rewrite He. apply orb_true_r. }
  exists s'. split; [exact Hs|]. split; [done|]. split.
  - destruct Hi' as [[Hp _] _]. by rewrite Hst in Hp.
  - destruct (loop_inv ctx config_wps junk mem 100 s Hi) as (s1 & Hl & _).
    destruct (step_tail ctx config_wps junk mem s s1 Hl) as (s3 & H3 & Hq & _). rewrite Hs in H3. injection H3 as <-.
    destruct Hq as (_&_&_&_&->&_). rewrite <-He. by eapply loop_enabled.
Qed.

(** ** Reports of keys keep the configuration *)

Lemma step_guarded s s' :
  inv ctx s → guarded s → eapol_sm_step ctx config_wps junk mem s = Ret s' → guarded s'.
Proof. intros Hi Hg H. eapply cfg_guarded; [by apply (step_guards s s')|done]. Qed.

Lemma valid_guarded b s s' :
  inv ctx s → guarded s → eapol_sm_notify_portValid ctx config_wps junk mem b s = Ret s' → guarded s'.
Proof.
  intros Hi Hg. unfold eapol_sm_notify_portValid. set (s0 := s.[portValid := b]).
  assert (guarded s0) as Hg0 by exact Hg.
  assert (inv ctx s0) as Hi0 by (eapply same_port_inv; [exact Hi|by repeat split]). clearbody s0. by apply step_guarded.
Qed.

Lemma cached_guarded s s' :
  inv ctx s → guarded s → eapol_sm_notify_cached ctx config_wps junk mem s = Ret s' → guarded s'.
Proof.
  intros Hi Hg. unfold eapol_sm_notify_cached. cbv zeta.
  set (s1 := eapol_sm_set_port_authorized ctx _).
  assert (inv ctx s1) as H1 by exact (set_port_inv ctx s SUPP_PAE_AUTHENTICATED Authorized eq_refl (proj2 Hi)).
  assert (guarded s1) as Hg1.
  { eapply cfg_guarded; [apply cfg_authorized|]. exact Hg. }
  clearbody s1. set (s2 := s1.[portValid := true]).
  assert (inv ctx s2) as H2 by (eapply same_port_inv; [exact H1|by repeat split]).
  assert (guarded s2) as Hg2 by exact Hg1. clearbody s2. set (s3 := s2 <| eap := _ |>).
  assert (inv ctx s3) as H3 by (eapply same_port_inv; [exact H2|by repeat split]).
  assert (guarded s3) as Hg3 by exact Hg2. clearbody s3. by apply step_guarded.
Qed.

(** ** What a guarded supplicant asks of its owner *)

(** It neither reports the end of a plaintext authentication nor sets a WEP key. *)
Definition tame_event (e : event) : Prop := match e with EapolDone | SetWepKey _ _ _ => False | _ => True end.
Definition tame s s' : Prop := ∃ l, out s' = out s ++ l ∧ Forall tame_event l.

#[global] Instance tame_preorder : PreOrder tame.
Proof.
  split.
  - intros s. exists []. by rewrite app_nil_r.
  - intros s1 s2 s3 (l1 & H1 & F1) (l2 & H2 & F2). exists (l1 ++ l2). rewrite H2, H1, app_assoc.
    split; [done|by apply Forall_app].
Qed.

Lemma tame_silent s s' : out s' = out s → tame s s'.
Proof. intros H. exists []. by rewrite app_nil_r. Qed.
Lemma tame_emit s0 s e : tame_event e → tame s0 s → tame s0 (emit e s).
Proof. intros He Hs. etrans; [exact Hs|]. exists [e]. by split; [|constructor]. Qed.
Lemma tame_let s0 (A : sys (E := E)) (B : sys (E := E) → sys (E := E)) :
  tame s0 A → (∀ s, tame s0 s → tame s0 (B s)) → tame s0 (let s := A in B s).
Proof. auto. Qed.
Lemma tame_let' s0 {T} (A : T) (B : T → sys (E := E)) : (∀ x, tame s0 (B x)) → tame s0 (let x := A in B x).
Proof. auto. Qed.
Lemma tame_after s0 s s' : tame s0 s → tame s s' → tame s0 s'.
Proof. intros. by etrans. Qed.

Create HintDb eapol_tame.

Ltac walk :=
  repeat first
    [ match goal with
      | |- tame _ ?y => is_var y; first [eassumption | reflexivity]
      | |- tame ?s0 (let x := ?A in @?B x) =>
          first [ refine (tame_let s0 A B _ _); [|let s := fresh "s" in let H := fresh "H" in intros s H; cbv beta]
                | refine (tame_let' s0 A B _); let x := fresh "x" in intros x; cbv beta ]
      | |- tame ?s0 (update ?g ?Y) => change (tame s0 Y)
      | |- tame ?s0 (emit ?e ?Y) => apply (tame_emit s0 Y e I)
      | |- tame ?s0 (if ?b then _ else _) => destruct b
      | |- tame ?s0 (match ?b with _ => _ end) => destruct b
      | |- tame ?s0 (?f ?Y) => apply (tame_after s0 Y); [|solve [auto with eapol_tame nocore]]
      end ].

Lemma tame_tick s : tame s (eapol_enable_timer_tick s).
Proof. cbv beta delta [eapol_enable_timer_tick]. walk. Qed.
Lemma tame_authorized s : tame s (eapol_sm_set_port_authorized ctx s).
Proof. cbv beta delta [eapol_sm_set_port_authorized]. walk. Qed.
Lemma tame_unauthorized s : tame s (eapol_sm_set_port_unauthorized ctx s).
Proof. cbv beta delta [eapol_sm_set_port_unauthorized]. walk. Qed.
Lemma tame_start s : tame s (eapol_sm_txStart s).
Proof. cbv beta delta [eapol_sm_txStart]. walk. Qed.
Lemma tame_logoff s : tame s (eapol_sm_txLogoff s).
Proof. cbv beta delta [eapol_sm_txLogoff]. walk. Qed.
Lemma tame_pae_entry g st s : tame s (pae_entry g st s).
Proof. cbv beta delta [pae_entry]. walk. Qed.
Lemma tame_be_entry g st s : tame s (be_entry g st s).
Proof. cbv beta delta [be_entry]. walk. Qed.
Lemma tame_key_rx_entry g st s : tame s (key_rx_entry g st s).
Proof. cbv beta delta [key_rx_entry]. walk. Qed.
#[local] Hint Resolve tame_tick tame_authorized tame_unauthorized tame_start tame_logoff tame_pae_entry tame_be_entry
  tame_key_rx_entry : eapol_tame.

Lemma tame_enter_state st g s : tame s (enter_state ctx config_wps st g s).
Proof.
  destruct st; cbn [enter_state]; [reflexivity|..].
  all: cbv beta delta [sm_SUPP_PAE_DISCONNECTED_Enter sm_SUPP_PAE_LOGOFF_Enter sm_SUPP_PAE_CONNECTING_Enter
    sm_SUPP_PAE_AUTHENTICATING_Enter sm_SUPP_PAE_AUTHENTICATED_Enter sm_SUPP_PAE_HELD_Enter sm_SUPP_PAE_RESTART_Enter
    sm_SUPP_PAE_S_FORCE_AUTH_Enter sm_SUPP_PAE_S_FORCE_UNAUTH_Enter]; walk.
Qed.

Lemma tame_pae s : guarded s → tame s (SM_STEP_SUPP_PAE ctx config_wps s).
Proof.
  intros [_ Ha]. destruct (pae_step_move ctx config_wps s) as [| | |_ _ Hacc _];
    [reflexivity|apply tame_enter_state..|congruence].
Qed.

Lemma tame_writes s ws : tame s (apply_writes s ws).
Proof.
  revert s. induction ws as [|w ws IH]; intros s; [reflexivity|].
  change (apply_writes s (w :: ws)) with (apply_writes (apply_write s w) ws). etrans; [|apply IH].
  destruct w as [[] b|n]; [by apply tame_silent..|]. cbn [apply_write]. cbv beta delta [eapol_sm_set_int]. walk.
Qed.

Lemma tame_abort s : tame s (eapol_sm_abortSupp s).
Proof.
  cbv beta delta [eapol_sm_abortSupp]. cbv zeta. destruct (eap_sm_abort _) as [e ws].
  apply (tame_after _ (s.[last_rx_key := None].[eapReqData := None] <| eap := e |>)); [by apply tame_silent|apply tame_writes].
Qed.
Lemma tame_rsp s : tame s (eapol_sm_txSuppRsp s).
Proof.
  cbv beta delta [eapol_sm_txSuppRsp]. destruct (eap_get_eapRespData _) as [e [r|]]; [walk|by apply tame_silent].
Qed.
#[local] Hint Resolve tame_abort tame_rsp : eapol_tame.

Lemma tame_be s : tame s (SM_STEP_SUPP_BE s).
Proof.
  assert (∀ g,
    tame s (sm_SUPP_BE_REQUEST_Enter g s) ∧ tame s (sm_SUPP_BE_RESPONSE_Enter g s) ∧
    tame s (sm_SUPP_BE_SUCCESS_Enter g s) ∧ tame s (sm_SUPP_BE_FAIL_Enter g s) ∧
    tame s (sm_SUPP_BE_TIMEOUT_Enter g s) ∧ tame s (sm_SUPP_BE_IDLE_Enter g s) ∧
    tame s (sm_SUPP_BE_INITIALIZE_Enter g s) ∧ tame s (sm_SUPP_BE_RECEIVE_Enter g s)) as H.
  { intros g. split_and!.
    all: cbv beta delta [sm_SUPP_BE_REQUEST_Enter sm_SUPP_BE_RESPONSE_Enter sm_SUPP_BE_SUCCESS_Enter sm_SUPP_BE_FAIL_Enter
      sm_SUPP_BE_TIMEOUT_Enter sm_SUPP_BE_IDLE_Enter sm_SUPP_BE_INITIALIZE_Enter sm_SUPP_BE_RECEIVE_Enter]; walk. }
  pose proof (H true) as (_&_&_&_&_&_&?&_). destruct (H false) as (?&?&?&?&?&?&_&?).
  unfold SM_STEP_SUPP_BE. cbv zeta. if_branch; [assumption|].
  destruct (SUPP_BE_state (sm s)); repeat if_branch; (assumption || reflexivity).
Qed.

Lemma tame_eap_step s : tame s (eapol_eap_step s).
Proof.
  unfold eapol_eap_step. destruct (eap_peer_sm_step _ _) as [[e ws] p].
  assert (tame s (apply_writes (s <| eap := e |>) ws)) as H.
  { apply (tame_after _ (s <| eap := e |>)); [by apply tame_silent|apply tame_writes]. }
  by destruct p.
Qed.

Lemma tame_key_rx s s' : guarded s → SM_STEP_KEY_RX ctx junk mem s = Ret s' → tame s s'.
Proof.
  intros Hg. unfold SM_STEP_KEY_RX. cbv zeta. set (s1 := if _ || _ then _ else _).
  assert (cfg s1 = cfg s) as Hc by (unfold s1; if_branch; [apply cfg_key_rx_entry|done]).
  assert (tame s s1) as H1 by (unfold s1; if_branch; [apply tame_key_rx_entry|reflexivity]). clearbody s1.
  assert (sm_KEY_RX_KEY_RECEIVE_Enter ctx junk mem false s1 = Ret s' → tame s s') as Hrx.
  { unfold sm_KEY_RX_KEY_RECEIVE_Enter. cbv zeta. set (t1 := key_rx_entry _ _ _).
    assert (cfg t1 = cfg s) as Ht1 by (unfold t1; by rewrite cfg_key_rx_entry).
    assert (tame s t1) as Ht2 by (etrans; [exact H1|apply tame_key_rx_entry]). clearbody t1.
    unfold eapol_sm_processKey. destruct (last_rx_key (sm t1)) as [f|].
    - destruct (cfg_guarded _ _ Ht1 Hg) as [_ ->]. cbn [negb]. rewrite run_bind_l. intros [= <-]. exact Ht2.
    - rewrite run_bind_l. intros [= <-]. exact Ht2. }
  destruct (KEY_RX_state (sm s1)); [by intros [= <-]|..]; (if_branch; [by apply Hrx|by intros [= <-]]).
Qed.

Lemma loop_tame n s s' :
  inv ctx s → guarded s → eapol_sm_loop ctx config_wps junk mem n s = Ret s' → tame s s'.
Proof.
  revert s. induction n as [|n IH]; intros s Hi Hg; cbn [eapol_sm_loop]; [by intros [= <-]|].
  destruct (round_inv ctx config_wps junk mem s Hi) as (s1 & Hr & Hi1). rewrite Hr, run_bind_l. intros H.
  assert (guards s s1) as [Hc1 _] by (eapply round_guards; [apply Hi|done|done]).
  assert (tame s s1) as H1.
  { unfold eapol_sm_round in Hr. cbv zeta in Hr. set (s0 := s.[changed := false]) in Hr.
    assert (guarded s0) as Hg0 by exact Hg. assert (tame s s0) as H0 by (by apply tame_silent). clearbody s0.
    apply run_bind_Ret in Hr as (x & Hk & Hx). injection Hx as <-.
    etrans; [exact H0|]. etrans; [apply (tame_pae s0 Hg0)|]. etrans; [|apply tame_eap_step]. etrans; [|apply tame_be].
    eapply tame_key_rx; [|exact Hk]. eapply cfg_guarded; [by apply cfg_pae|done]. }
  destruct (changed (sm s1)); [|by injection H as <-]. etrans; [exact H1|]. apply IH; [done| |done].
  by eapply cfg_guarded.
Qed.

Lemma step_tame s s' :
  inv ctx s → guarded s → eapol_sm_step ctx config_wps junk mem s = Ret s' → tame s s'.
Proof.
  intros Hi Hg. destruct (loop_inv ctx config_wps junk mem 100 s Hi) as (s1 & Hl & _). unfold eapol_sm_step.
  rewrite Hl, run_bind_l. cbv zeta. assert (tame s s1) as H1 by (by eapply loop_tame). clear Hl.
  set (s2 := if changed (sm s1) then _ else _).
  assert (tame s s2) as H2 by (unfold s2; if_branch; [do 2 (apply tame_emit; [exact I|]); exact H1|done]). clearbody s2.
  if_branch; intros [= <-]; [|done]. apply tame_emit; [exact I|exact H2].
Qed.

(** The three notifications of a disconnection over a link that goes down. *)
Lemma enabled_tame b s s' :
  inv ctx s → guarded s → eapol_sm_notify_portEnabled ctx config_wps junk mem b s = Ret s' → tame s s'.
Proof.
  intros Hi Hg. unfold eapol_sm_notify_portEnabled. set (s0 := s.[portEnabled := b]).
  assert (guarded s0) as Hg0 by exact Hg. assert (tame s s0) as H0 by (by apply tame_silent).
  assert (inv ctx s0) as Hi0 by (eapply same_port_inv; [exact Hi|by repeat split]). clearbody s0.
  intros H. etrans; [exact H0|]. by apply step_tame.
Qed.
Lemma valid_tame b s s' :
  inv ctx s → guarded s → eapol_sm_notify_portValid ctx config_wps junk mem b s = Ret s' → tame s s'.
Proof.
  intros Hi Hg. unfold eapol_sm_notify_portValid. set (s0 := s.[portValid := b]).
  assert (guarded s0) as Hg0 by exact Hg. assert (tame s s0) as H0 by (by apply tame_silent).
  assert (inv ctx s0) as Hi0 by (eapply same_port_inv; [exact Hi|by repeat split]). clearbody s0.
  intros H. etrans; [exact H0|]. by apply step_tame.
Qed.
Lemma fail_success_tame s s' :
  inv ctx s → guarded s → eapol_sm_notify_eap_success ctx config_wps junk mem false s = Ret s' → tame s s'.
Proof.
  intros Hi Hg. unfold eapol_sm_notify_eap_success. cbv zeta. set (s0 := s.[eapSuccess := false].[altAccept := false]).
  assert (guarded s0) as Hg0 by exact Hg. assert (tame s s0) as H0 by (by apply tame_silent).
  assert (inv ctx s0) as Hi0 by (eapply same_port_inv; [exact Hi|by repeat split]). clearbody s0.
  intros H. etrans; [exact H0|]. by apply step_tame.
Qed.

(** ** The port control is kept under any configuration *)

Definition pctl s : PortControl := portControl (sm s).

Lemma cfg_pctl s s' : cfg s' = cfg s → pctl s' = pctl s.
Proof. unfold pctl. by intros [= ->]. Qed.

Lemma pctl_done s : pctl (eapol_done ctx s) = pctl s.
Proof. unfold eapol_done. by if_branch. Qed.

Lemma pctl_pae s : pctl (SM_STEP_SUPP_PAE ctx config_wps s) = pctl s.
Proof.
  destruct (pae_step_move ctx config_wps s); [done|apply cfg_pctl, cfg_enter_state..|].
  etrans; [apply cfg_pctl, (cfg_enter_state SUPP_PAE_AUTHENTICATED)|]. by rewrite pctl_done.
Qed.

Lemma pctl_install s i k : pctl (processKey_install ctx s i k) = pctl s.
Proof.
  unfold processKey_install. cbv zeta. set (u := negb _).
  set (s1 := match set_wep_key ctx with Some _ => _ | None => s end).
  assert (pctl s1 = pctl s) as H1 by (unfold s1; by case_match). clearbody s1.
  destruct (match set_wep_key ctx with Some f => _ | None => false end); [done|].
  set (s2 := if u then _ else _). assert (pctl s2 = pctl s) as H2 by (unfold s2; by destruct u). clearbody s2.
  destruct (_ && _); [|done]. by rewrite pctl_done.
Qed.

Lemma pctl_process s s' : eapol_sm_processKey ctx junk mem s = Ret s' → pctl s' = pctl s.
Proof.
  unfold eapol_sm_processKey. destruct (last_rx_key (sm s)) as [f|]; [|by intros [= <-]].
  if_branch; [by intros [= <-]|]. intros H. run_inv. revert H. cbv zeta. if_branch; [by intros [= <-]|].
  intros H. run_inv. revert H. set (s1 := eapol_sm_lower_layer_success s).
  assert (pctl s1 = pctl s) as H1.
  { unfold s1, eapol_sm_lower_layer_success. destruct (eap_notify_lower_layer_success _ _) as [e ws].
    apply cfg_pctl. by rewrite cfg_writes. }
  clearbody s1. destruct (processKey_keydata junk s1) as [[kd klen]|]; [|by intros [= <-]].
  unfold processKey_verify. intros H. run_inv. revert H. if_branch; [by intros [= <-]|]. intros H. run_inv. revert H.
  if_branch; [by intros [= <-]|]. if_branch; [by intros [= <-]|]. intros H. run_inv. revert H.
  lazymatch goal with |- match ?o with _ => _ end = _ → _ => destruct o end; [|by intros [= <-]].
  intros H'. run_inv. rewrite pctl_install. exact H1.
Qed.

Lemma pctl_key_rx s s' : SM_STEP_KEY_RX ctx junk mem s = Ret s' → pctl s' = pctl s.
Proof.
  unfold SM_STEP_KEY_RX. cbv zeta. set (s1 := if _ || _ then _ else _).
  assert (pctl s1 = pctl s) as H1 by (unfold s1; if_branch; [apply cfg_pctl, cfg_key_rx_entry|done]). clearbody s1.
  assert (sm_KEY_RX_KEY_RECEIVE_Enter ctx junk mem false s1 = Ret s' → pctl s' = pctl s) as Hrx.
  { unfold sm_KEY_RX_KEY_RECEIVE_Enter. cbv zeta. intros H. apply run_bind_Ret in H as (x & Hx & H). injection H as <-.
    apply pctl_process in Hx. change (pctl x = pctl s). rewrite Hx. etrans; [apply cfg_pctl, cfg_key_rx_entry|done]. }
  destruct (KEY_RX_state (sm s1)); [by intros [= <-]|..]; (if_branch; [by apply Hrx|by intros [= <-]]).
Qed.

Lemma loop_pctl n s s' : eapol_sm_loop ctx config_wps junk mem n s = Ret s' → pctl s' = pctl s.
Proof.
  revert s. induction n as [|n IH]; intros s; cbn [eapol_sm_loop]; [by intros [= <-]|].
  intros H. apply run_bind_Ret in H as (s1 & Hr & H).
  assert (pctl s1 = pctl s) as H1.
  { unfold eapol_sm_round in Hr. cbv zeta in Hr. apply run_bind_Ret in Hr as (x & Hx & Hr). injection Hr as <-.
    rewrite (cfg_pctl _ _ (cfg_eap_step _)), (cfg_pctl _ _ (cfg_be _)), (pctl_key_rx _ _ Hx), pctl_pae. reflexivity. }
  destruct (changed (sm s1)); [rewrite <-H1; by apply IH|by injection H as <-].
Qed.

(** A new port control is in force when the notification returns. *)
Lemma control_set pc s s' : eapol_sm_notify_portControl ctx config_wps junk mem pc s = Ret s' → pctl s' = pc.
Proof.
  unfold eapol_sm_notify_portControl. set (s0 := s.[portControl := pc]). assert (pctl s0 = pc) as Hp by done. clearbody s0.
  unfold eapol_sm_step. intros H. apply run_bind_Ret in H as (s1 & Hl & H). apply loop_pctl in Hl. revert H. cbv zeta.
  set (s2 := if changed (sm s1) then _ else _). assert (pctl s2 = pc) as H2 by (rewrite <-Hp, <-Hl; unfold s2; by if_branch).
  clearbody s2. if_branch; by intros [= <-].
Qed.

(** The notifications as operations. *)
Lemma run_enabled b s :
  run_op ctx config_wps junk mem (OpPortEnabled b) s = eapol_sm_notify_portEnabled ctx config_wps junk mem b s.
Proof. reflexivity. Qed.
Lemma run_valid b s :
  run_op ctx config_wps junk mem (OpPortValid b) s = eapol_sm_notify_portValid ctx config_wps junk mem b s.
Proof. reflexivity. Qed.
Lemma run_success b s :
  run_op ctx config_wps junk mem (OpEapSuccess b) s = eapol_sm_notify_eap_success ctx config_wps junk mem b s.
Proof. reflexivity. Qed.
Lemma run_cached s :
  run_op ctx config_wps junk mem OpCached s = eapol_sm_notify_cached ctx config_wps junk mem s.
Proof. reflexivity. Qed.
Lemma run_control pc s :
  run_op ctx config_wps junk mem (OpPortControl pc) s = eapol_sm_notify_portControl ctx config_wps junk mem pc s.
Proof. reflexivity. Qed.

(** The link goes down: the port is closed and stays closed. *)
Lemma link_down s s' :
  inv ctx s → eapol_sm_notify_portEnabled ctx config_wps junk mem false s = Ret s' →
  inv ctx s' ∧ suppPortStatus (sm s') = Unauthorized ∧ portEnabled (sm s') = false.
Proof.
  intros Hi. unfold eapol_sm_notify_portEnabled. set (s0 := s.[portEnabled := false]).
  assert (inv ctx s0) as Hi0 by (eapply same_port_inv; [exact Hi|by repeat split]).
  assert (portEnabled (sm s0) = false) as Hd by done. clearbody s0. intros H.
  destruct (step_down s0 Hi0 Hd) as (s1 & Hs' & H1 & H2 & H3). rewrite H in Hs'. by injection Hs' as <-.
Qed.
Lemma down_valid b s s' :
  inv ctx s → portEnabled (sm s) = false → eapol_sm_notify_portValid ctx config_wps junk mem b s = Ret s' →
  inv ctx s' ∧ suppPortStatus (sm s') = Unauthorized ∧ portEnabled (sm s') = false.
Proof.
  intros Hi He. unfold eapol_sm_notify_portValid. set (s0 := s.[portValid := b]).
  assert (inv ctx s0) as Hi0 by (eapply same_port_inv; [exact Hi|by repeat split]).
  assert (portEnabled (sm s0) = false) as Hd by done. clearbody s0. intros H.
  destruct (step_down s0 Hi0 Hd) as (s1 & Hs' & H1 & H2 & H3). rewrite H in Hs'. by injection Hs' as <-.
Qed.
Lemma down_success b s s' :
  inv ctx s → portEnabled (sm s) = false → eapol_sm_notify_eap_success ctx config_wps junk mem b s = Ret s' →
  inv ctx s' ∧ suppPortStatus (sm s') = Unauthorized ∧ portEnabled (sm s') = false.
Proof.
  intros Hi He. unfold eapol_sm_notify_eap_success. cbv zeta. set (s0 := s.[eapSuccess := b].[altAccept := b]).
  assert (inv ctx s0) as Hi0 by (eapply same_port_inv; [exact Hi|by repeat split]).
  assert (portEnabled (sm s0) = false) as Hd by done. clearbody s0. set (s1 := if b then _ else s0).
  assert (inv ctx s1) as Hi1 by (unfold s1; destruct b; [eapply same_port_inv; [exact Hi0|by repeat split]|done]).
  assert (portEnabled (sm s1) = false) as Hd1 by (unfold s1; by destruct b). clearbody s1. intros H.
  destruct (step_down s1 Hi1 Hd1) as (s2 & Hs' & H1 & H2 & H3). rewrite H in Hs'. by injection Hs' as <-.
Qed.
End guard.
