(* ===== verification/WpaIe.v ===== *)
(** * Key Data of EAPOL-Key frames (src/src/rsn_supp/wpa_ie.c)

    [wpa_supplicant_parse_ies] walks the information elements and KDEs of the
    Key Data field of an EAPOL-Key frame.  [struct wpa_eapol_ie_parse] keeps
    pointers into the frame with their lengths; the frame is not modified while
    they are in use, so here a pointer with its length is the slice it denotes.
    The build without CONFIG_PEERKEY and CONFIG_IEEE80211W is modelled. *)

From S2P Require Import Prelude.

(** ** Data *)

Record wpa_eapol_ie_parse := IeParse {
  wpa_ie : option (list Z); rsn_ie : option (list Z); pmkid : option (list Z);
  gtk : option (list Z); mac_addr : option (list Z); mdie : option (list Z);
  ftie : option (list Z); reassoc_deadline : option (list Z); key_lifetime : option (list Z);
  lnkid : option (list Z); ext_capab : option (list Z); supp_rates : option (list Z);
  ext_supp_rates : option (list Z)
}.

#[global] Instance eta_ie_parse : Eta wpa_eapol_ie_parse := λ r,
  IeParse (wpa_ie r) (rsn_ie r) (pmkid r) (gtk r) (mac_addr r) (mdie r) (ftie r)
    (reassoc_deadline r) (key_lifetime r) (lnkid r) (ext_capab r) (supp_rates r)
    (ext_supp_rates r).

Definition no_ies : wpa_eapol_ie_parse :=
  IeParse None None None None None None None None None None None None None.

(** RSN_SELECTOR_GET and the selectors and element ids used. *)
Definition RSN_SELECTOR_GET (buf : list Z) (pos : nat) : run Z :=
  a ← rd buf pos; b ← rd buf (pos + 1); c ← rd buf (pos + 2); d ← rd buf (pos + 3);
  Ret (be32 a b c d).

Definition WPA_OUI_TYPE : Z := 0x0050f201.
Definition RSN_KEY_DATA_GROUPKEY : Z := 0x000fac01.
Definition RSN_KEY_DATA_MAC_ADDR : Z := 0x000fac03.
Definition RSN_KEY_DATA_PMKID : Z := 0x000fac04.
Definition RSN_SELECTOR_LEN : Z := 4.
Definition PMKID_LEN : Z := 16.

Definition EID_SUPP_RATES : Z := 1.
Definition EID_RSN : Z := 48.
Definition EID_EXT_SUPP_RATES : Z := 50.
Definition EID_MOBILITY_DOMAIN : Z := 54.
Definition EID_FAST_BSS_TRANSITION : Z := 55.
Definition EID_TIMEOUT_INTERVAL : Z := 56.
Definition EID_LINK_ID : Z := 101.
Definition EID_EXT_CAPAB : Z := 127.
Definition EID_VENDOR_SPECIFIC : Z := 221.
Definition WLAN_TIMEOUT_REASSOC_DEADLINE : Z := 1.
Definition WLAN_TIMEOUT_KEY_LIFETIME : Z := 2.

(** ** Operations *)

(** A selector comparison after a length test: C's [&&] reads only if the test
    succeeds. *)
Definition selector_is (len_ok : bool) (buf : list Z) (pos : nat) (sel : Z) : run bool :=
  if len_ok then v ← RSN_SELECTOR_GET buf (pos + 2); Ret (v =? sel) else Ret false.

(** The result and whether the end mark was found; [end_] is the key data length. *)
Definition wpa_parse_generic (buf : list Z) (pos end_ : nat) (ie : wpa_eapol_ie_parse)
  : run (bool * wpa_eapol_ie_parse) :=
  len ← rd buf (pos + 1);
  if len =? 0 then Ret (true, ie) else
  wpa ← (b ← selector_is (6 <=? len) buf pos WPA_OUI_TYPE;
         if negb b then Ret false else
         v0 ← rd buf (pos + 6);
         if negb (v0 =? 1) then Ret false else
         v1 ← rd buf (pos + 7); Ret (v1 =? 0));
  if (wpa : bool) then
    d ← rdn buf pos (Z.to_nat len + 2); Ret (false, ie <| wpa_ie := Some d |>) else
  id ← selector_is ((Z.of_nat pos + 1 + RSN_SELECTOR_LEN <? Z.of_nat end_) &&
                    (RSN_SELECTOR_LEN + PMKID_LEN <=? len)) buf pos RSN_KEY_DATA_PMKID;
  if (id : bool) then
    d ← rdn buf (pos + 6) (Z.to_nat PMKID_LEN); Ret (false, ie <| pmkid := Some d |>) else
  grp ← selector_is (RSN_SELECTOR_LEN + 2 <? len) buf pos RSN_KEY_DATA_GROUPKEY;
  if (grp : bool) then
    d ← rdn buf (pos + 6) (Z.to_nat (len - RSN_SELECTOR_LEN));
    Ret (false, ie <| gtk := Some d |>) else
  mac ← selector_is (RSN_SELECTOR_LEN + 2 <? len) buf pos RSN_KEY_DATA_MAC_ADDR;
  if (mac : bool) then
    d ← rdn buf (pos + 6) (Z.to_nat (len - RSN_SELECTOR_LEN));
    Ret (false, ie <| mac_addr := Some d |>) else
  Ret (false, ie).

(** One element at [pos], of [len] bytes after its header; also whether the
    loop ends. *)
Definition parse_element (buf : list Z) (pos end_ : nat) (eid len : Z) (ie : wpa_eapol_ie_parse)
  : run (bool * wpa_eapol_ie_parse) :=
  d ← rdn buf pos (Z.to_nat len + 2);
  if eid =? EID_RSN then Ret (false, ie <| rsn_ie := Some d |>)
  else if eid =? EID_MOBILITY_DOMAIN then Ret (false, ie <| mdie := Some d |>)
  else if eid =? EID_FAST_BSS_TRANSITION then Ret (false, ie <| ftie := Some d |>)
  else if (eid =? EID_TIMEOUT_INTERVAL) && (5 <=? len) then
    t ← rd buf (pos + 2);
    if t =? WLAN_TIMEOUT_REASSOC_DEADLINE then Ret (false, ie <| reassoc_deadline := Some d |>)
    else if t =? WLAN_TIMEOUT_KEY_LIFETIME then Ret (false, ie <| key_lifetime := Some d |>)
    else Ret (false, ie)
  else if eid =? EID_LINK_ID then
    Ret (false, if 18 <=? len then ie <| lnkid := Some d |> else ie)
  else if eid =? EID_EXT_CAPAB then Ret (false, ie <| ext_capab := Some d |>)
  else if eid =? EID_SUPP_RATES then Ret (false, ie <| supp_rates := Some d |>)
  else if eid =? EID_EXT_SUPP_RATES then Ret (false, ie <| ext_supp_rates := Some d |>)
  else if eid =? EID_VENDOR_SPECIFIC then wpa_parse_generic buf pos end_ ie
  else Ret (false, ie).

(** The loop; [buf] is the memory from the key data on, [end_] the length given.
    An element takes at least two bytes, so [end_] iterations are enough.  The
    result is the C return value: 0, or -1 for a truncated element. *)
Fixpoint parse_ies_loop (fuel : nat) (buf : list Z) (pos end_ : nat) (ie : wpa_eapol_ie_parse)
  : run (Z * wpa_eapol_ie_parse) :=
  if (pos + 1 <? end_)%nat then
    match fuel with
    | O => OutOfFuel
    | S fuel =>
        eid ← rd buf pos; len ← rd buf (pos + 1);
        if (eid =? 0xdd) && ((pos =? end_ - 1)%nat || (len =? 0)) then Ret (0, ie)
        else if Z.of_nat end_ <? Z.of_nat pos + 2 + len then Ret (-1, ie)
        else
          '(stop, ie) ← parse_element buf pos end_ eid len ie;
          if (stop : bool) then Ret (0, ie)
          else parse_ies_loop fuel buf (pos + 2 + Z.to_nat len) end_ ie
    end
  else Ret (0, ie).

Definition wpa_supplicant_parse_ies (buf : list Z) (len : nat)
  : run (Z * wpa_eapol_ie_parse) :=
  parse_ies_loop len buf 0 len no_ies.

(** ** Memory safety and the shape of the result *)

(** What the handlers rely on: a PMKID has 16 bytes and a GTK KDE at least
    three. *)
Definition ie_ok (ie : wpa_eapol_ie_parse) : Prop :=
  (∀ d, pmkid ie = Some d → length d = 16%nat) ∧
  (∀ d, gtk ie = Some d → (3 ≤ length d ≤ 251)%nat).

Lemma no_ies_ok : ie_ok no_ies.
Proof. done. Qed.

Section safety.
Context (buf : list Z) (Hbuf : bytes_ok buf).

Lemma rd_byte i : (i < length buf)%nat → ∃ b, rd buf i = Ret b ∧ 0 ≤ b < 256.
Proof.
  intros Hi. destruct (rd_lt buf i Hi) as (b & Hb & Hl). exists b. split; [done|].
  apply (bytes_ok_lookup _ _ _ Hbuf Hl).
Qed.

Lemma selector_is_total ok pos sel :
  (ok = true → pos + 6 ≤ length buf)%nat → ∃ b, selector_is ok buf pos sel = Ret b ∧ (b = true → ok = true).
Proof.
  intros Hok. unfold selector_is. destruct ok; [|by exists false]. specialize (Hok eq_refl).
  unfold RSN_SELECTOR_GET.
  destruct (rd_byte (pos + 2)) as (a & -> & _); [lia|].
  destruct (rd_byte (pos + 2 + 1)) as (b & -> & _); [lia|].
  destruct (rd_byte (pos + 2 + 2)) as (c & -> & _); [lia|].
  destruct (rd_byte (pos + 2 + 3)) as (d & -> & _); [lia|].
  rewrite !run_bind_l. by eexists.
Qed.

Lemma parse_generic_spec pos end_ len ie :
  rd buf (pos + 1) = Ret len → 0 ≤ len < 256 → (pos + 2 + Z.to_nat len ≤ length buf)%nat →
  ie_ok ie → ∃ stop ie', wpa_parse_generic buf pos end_ ie = Ret (stop, ie') ∧ ie_ok ie'.
Proof.
  intros Hlen Hr Hin Hok. unfold wpa_parse_generic. rewrite Hlen, run_bind_l.
  if_branch; [by eexists _, _|].
  destruct (selector_is_total (6 <=? len) pos WPA_OUI_TYPE) as (b & -> & Hb).
  { intros ?%Z.leb_le. lia. }
  rewrite run_bind_l.
  assert (∃ w, (if negb b then Ret false else
     v0 ← rd buf (pos + 6); if negb (v0 =? 1) then Ret false else v1 ← rd buf (pos + 7);
     Ret (v1 =? 0)) = Ret w) as (w & ->).
  { destruct b; simpl; [|eauto]. specialize (Hb eq_refl). apply Z.leb_le in Hb.
    destruct (rd_byte (pos + 6)) as (v0 & -> & _); [lia|]. rewrite run_bind_l.
    destruct (negb _); [eauto|].
    destruct (rd_byte (pos + 7)) as (v1 & -> & _); [lia|]. rewrite run_bind_l. eauto. }
  rewrite run_bind_l. destruct w.
  { rewrite rdn_ok, run_bind_l by lia. eexists _, _. split; [done|]. exact Hok. }
  destruct (selector_is_total ((Z.of_nat pos + 1 + RSN_SELECTOR_LEN <? Z.of_nat end_) &&
    (RSN_SELECTOR_LEN + PMKID_LEN <=? len)) pos RSN_KEY_DATA_PMKID) as (b2 & -> & Hb2).
  { unfold RSN_SELECTOR_LEN, PMKID_LEN. intros [_ ?%Z.leb_le]%andb_true_iff. lia. }
  rewrite run_bind_l. destruct b2.
  { specialize (Hb2 eq_refl). apply andb_true_iff in Hb2 as [_ Hb2%Z.leb_le].
    unfold RSN_SELECTOR_LEN, PMKID_LEN in *. rewrite rdn_ok, run_bind_l by lia.
    eexists _, _. split; [done|]. destruct Hok as [_ Hg]. split; [|exact Hg].
    intros d [= <-]. rewrite length_take, length_drop. lia. }
  assert (∀ sel, ∃ b, selector_is (RSN_SELECTOR_LEN + 2 <? len) buf pos sel = Ret b ∧
    (b = true → 6 < len)) as Hsel.
  { intros sel. destruct (selector_is_total (RSN_SELECTOR_LEN + 2 <? len) pos sel) as (b3 & Hb3 & Ht).
    { unfold RSN_SELECTOR_LEN. intros ?%Z.ltb_lt. lia. }
    exists b3. split; [done|]. intros H3. apply Ht, Z.ltb_lt in H3. unfold RSN_SELECTOR_LEN in H3. lia. }
  destruct (Hsel RSN_KEY_DATA_GROUPKEY) as (b3 & -> & Hb3). rewrite run_bind_l.
  destruct Hok as [Hp Hg]. unfold RSN_SELECTOR_LEN. destruct b3.
  { specialize (Hb3 eq_refl). rewrite rdn_ok, run_bind_l by lia.
    eexists _, _. split; [done|]. split; [exact Hp|].
    intros d [= <-]. rewrite length_take, length_drop. lia. }
  destruct (Hsel RSN_KEY_DATA_MAC_ADDR) as (b4 & Hb4 & Hb4'). unfold RSN_SELECTOR_LEN in Hb4.
  rewrite Hb4, run_bind_l. destruct b4; [|by eexists _, _].
  specialize (Hb4' eq_refl). rewrite rdn_ok, run_bind_l by lia. eexists _, _. split; [done|by split].
Qed.

Lemma parse_element_spec pos end_ eid len ie :
  rd buf (pos + 1) = Ret len → 0 ≤ len < 256 → (pos + 2 + Z.to_nat len ≤ length buf)%nat →
  ie_ok ie → ∃ stop ie', parse_element buf pos end_ eid len ie = Ret (stop, ie') ∧ ie_ok ie'.
Proof.
  intros Hlen Hr Hin Hok. unfold parse_element. rewrite rdn_ok, run_bind_l by lia.
  destruct Hok as [Hp Hg].
  do 3 (if_branch; [eexists _, _; split; [done|by split]|]).
  if_branch.
  { apply andb_true_iff in Heqb2 as [_ ?%Z.leb_le].
    destruct (rd_byte (pos + 2)) as (t & -> & _); [lia|]. rewrite run_bind_l.
    do 2 (if_branch; [eexists _, _; split; [done|by split]|]).
    eexists _, _; split; [done|by split]. }
  if_branch; [eexists _, _; split; [done|if_branch; by split]|].
  do 3 (if_branch; [eexists _, _; split; [done|by split]|]).
  if_branch; [by apply (parse_generic_spec _ _ len)|]. eexists _, _; split; [done|by split].
Qed.

Lemma parse_ies_loop_spec fuel pos end_ ie :
  (end_ ≤ length buf)%nat → (end_ < 2 * fuel + pos + 2)%nat → ie_ok ie →
  ∃ r ie', parse_ies_loop fuel buf pos end_ ie = Ret (r, ie') ∧ ie_ok ie'.
Proof.
  intros Hend. revert pos ie. induction fuel as [|fuel IH]; intros pos ie Hfuel Hok;
    cbn [parse_ies_loop]; destruct (Nat.ltb_spec (pos + 1) end_); try (eexists _, _; by split); [lia|].
  destruct (rd_byte pos) as (eid & -> & _); [lia|].
  destruct (rd_byte (pos + 1)) as (len & Hlen & Hr); [lia|]. rewrite Hlen, !run_bind_l.
  if_branch; [eexists _, _; by split|].
  destruct (Z.ltb_spec (Z.of_nat end_) (Z.of_nat pos + 2 + len)); [eexists _, _; by split|].
  destruct (parse_element_spec pos end_ eid len ie) as (stop & ie' & -> & Hok'); [done|lia|lia|done|].
  rewrite run_bind_l. destruct stop; [eexists _, _; by split|]. apply IH; [lia|done].
Qed.

Lemma parse_ies_spec len :
  (len ≤ length buf)%nat →
  ∃ r ie, wpa_supplicant_parse_ies buf len = Ret (r, ie) ∧ ie_ok ie.
Proof. intros Hlen. apply parse_ies_loop_spec; [done|lia|apply no_ies_ok]. Qed.

End safety.

(** ** Key data built from elements *)

(** An element: its id and its payload. *)
Definition element : Type := Z * list Z.

Definition enc (e : element) : list Z := e.1 :: Z.of_nat (length e.2) :: e.2.

(** An element that can be encoded and is not the end mark. *)
Definition element_ok (e : element) : Prop :=
  bytes_ok e.2 ∧ (length e.2 < 256)%nat ∧ (e.1 = EID_VENDOR_SPECIFIC → e.2 ≠ []).

Definition selector (p : list Z) : Z :=
  match p with a :: b :: c :: d :: _ => be32 a b c d | _ => 0 end.

(** What each element contributes: a whole element, or the contents of a KDE. *)
Definition see_vendor (ie : wpa_eapol_ie_parse) (e : element) : wpa_eapol_ie_parse :=
  let p := e.2 in let n := Z.of_nat (length p) in
  if (6 <=? n) && (selector p =? WPA_OUI_TYPE) && bool_decide (take 2 (drop 4 p) = [1; 0])
  then ie <| wpa_ie := Some (enc e) |>
  else if (20 <=? n) && (selector p =? RSN_KEY_DATA_PMKID)
  then ie <| pmkid := Some (take 16 (drop 4 p)) |>
  else if (6 <? n) && (selector p =? RSN_KEY_DATA_GROUPKEY) then ie <| gtk := Some (drop 4 p) |>
  else if (6 <? n) && (selector p =? RSN_KEY_DATA_MAC_ADDR)
  then ie <| mac_addr := Some (drop 4 p) |>
  else ie.

Definition see (ie : wpa_eapol_ie_parse) (e : element) : wpa_eapol_ie_parse :=
  let n := Z.of_nat (length e.2) in let w := Some (enc e) in
  if e.1 =? EID_RSN then ie <| rsn_ie := w |>
  else if e.1 =? EID_MOBILITY_DOMAIN then ie <| mdie := w |>
  else if e.1 =? EID_FAST_BSS_TRANSITION then ie <| ftie := w |>
  else if (e.1 =? EID_TIMEOUT_INTERVAL) && (5 <=? n) then
    if bool_decide (head e.2 = Some WLAN_TIMEOUT_REASSOC_DEADLINE) then ie <| reassoc_deadline := w |>
    else if bool_decide (head e.2 = Some WLAN_TIMEOUT_KEY_LIFETIME) then ie <| key_lifetime := w |>
    else ie
  else if e.1 =? EID_LINK_ID then if 18 <=? n then ie <| lnkid := w |> else ie
  else if e.1 =? EID_EXT_CAPAB then ie <| ext_capab := w |>
  else if e.1 =? EID_SUPP_RATES then ie <| supp_rates := w |>
  else if e.1 =? EID_EXT_SUPP_RATES then ie <| ext_supp_rates := w |>
  else if e.1 =? EID_VENDOR_SPECIFIC then see_vendor ie e
  else ie.

Lemma rdn_mid pre l post off n :
  (off + n ≤ length l)%nat → rdn (pre ++ l ++ post) (length pre + off) n = Ret (take n (drop off l)).
Proof.
  intros H. rewrite rdn_ok by (rewrite !length_app; lia).
  rewrite <-drop_drop, drop_app_length, drop_app_le, take_app_le by (rewrite ?length_drop; lia). done.
Qed.

Lemma rd_mid pre l post i x :
  l !! i = Some x → rd (pre ++ l ++ post) (length pre + i) = Ret x.
Proof.
  intros H. rewrite rd_app_r. apply rd_lookup. rewrite lookup_app_l by (by eapply lookup_lt_Some). done.
Qed.

Section element.
Context (pre : list Z) (e : element) (post : list Z).
Context (end_ : nat) (Hend : (length pre + length (enc e) ≤ end_)%nat).
Let buf := pre ++ enc e ++ post.
Let pos := length pre.

Lemma rd_payload k i x : k = (pos + 2 + i)%nat → e.2 !! i = Some x → rd buf k = Ret x.
Proof. intros -> H. rewrite <-Nat.add_assoc. by apply rd_mid. Qed.

Lemma rdn_payload k off n :
  k = (pos + 2 + off)%nat → (off + n ≤ length e.2)%nat → rdn buf k n = Ret (take n (drop off e.2)).
Proof. intros -> H. unfold buf, pos. rewrite <-Nat.add_assoc, rdn_mid; [done|simpl; lia]. Qed.

Lemma rdn_whole : rdn buf pos (length e.2 + 2) = Ret (enc e).
Proof.
  unfold buf, pos. rewrite <-(Nat.add_0_r (length pre)), rdn_mid by (simpl; lia).
  rewrite drop_0, take_ge; [done|simpl; lia].
Qed.

Lemma selector_is_spec (ok : bool) sel :
  (ok = true → 4 ≤ length e.2)%nat → selector_is ok buf pos sel = Ret (ok && (selector e.2 =? sel)).
Proof.
  intros Hok. unfold selector_is. destruct ok; [|done]. specialize (Hok eq_refl).
  pose proof (λ k i x, rd_payload k i x) as Hrd.
  destruct (e.2) as [|a [|b [|c [|d p]]]]; simpl in Hok; try lia. unfold RSN_SELECTOR_GET.
  rewrite (Hrd (pos + 2)%nat 0%nat a), (Hrd (pos + 2 + 1)%nat 1%nat b),
    (Hrd (pos + 2 + 2)%nat 2%nat c), (Hrd (pos + 2 + 3)%nat 3%nat d) by first [lia|done]. done.
Qed.

Lemma wpa_test_spec b :
  b = (6 <=? Z.of_nat (length e.2)) && (selector e.2 =? WPA_OUI_TYPE) →
  (if negb b then Ret false else
   v0 ← rd buf (pos + 6);
   if negb (v0 =? 1) then Ret false else v1 ← rd buf (pos + 7); Ret (v1 =? 0)) =
  Ret (b && bool_decide (take 2 (drop 4 e.2) = [1; 0])).
Proof.
  intros ->. destruct (Z.leb_spec 6 (Z.of_nat (length e.2))) as [H6|]; [|done].
  destruct (selector e.2 =? WPA_OUI_TYPE); [|done]. simpl negb. cbv iota. rewrite andb_true_l.
  pose proof (λ k i x, rd_payload k i x) as Hrd.
  destruct (e.2) as [|a [|b [|c [|d [|v0 [|v1 p]]]]]]; simpl in H6; try lia.
  rewrite (Hrd (pos + 6)%nat 4%nat v0), (Hrd (pos + 7)%nat 5%nat v1), !run_bind_l by first [lia|done].
  change (take 2 (drop 4 (a :: b :: c :: d :: v0 :: v1 :: p))) with [v0; v1].
  destruct (Z.eqb_spec v0 1) as [->|]; simpl negb; cbv iota.
  - destruct (Z.eqb_spec v1 0) as [->|]; [done|].
    f_equal. symmetry. apply bool_decide_false. congruence.
  - f_equal. symmetry. apply bool_decide_false. congruence.
Qed.

(** The KDEs whose contents run to the end of the element. *)
Lemma kde_spec sel :
  (if (6 <? Z.of_nat (length e.2)) && (selector e.2 =? sel) then
     rdn buf (pos + 6) (Z.to_nat (Z.of_nat (length e.2) - 4)) else Ret []) =
  Ret (if (6 <? Z.of_nat (length e.2)) && (selector e.2 =? sel) then drop 4 e.2 else []).
Proof.
  destruct (Z.ltb_spec 6 (Z.of_nat (length e.2))); [|done]. simpl andb. if_branch; [|done].
  rewrite (rdn_payload _ 4) by lia. rewrite take_ge; [done|]. rewrite length_drop. lia.
Qed.

Lemma parse_generic_see ie :
  e.2 ≠ [] → wpa_parse_generic buf pos end_ ie = Ret (false, see_vendor ie e).
Proof.
  intros Hne. unfold wpa_parse_generic, see_vendor.
  assert (rd buf (pos + 1) = Ret (Z.of_nat (length e.2))) as -> by (by apply rd_mid).
  rewrite run_bind_l. destruct (Z.eqb_spec (Z.of_nat (length e.2)) 0) as [H0|_].
  { destruct e.2; [done|simpl in H0; lia]. }
  rewrite (selector_is_spec _ WPA_OUI_TYPE) by (intros ?%Z.leb_le; lia). rewrite run_bind_l.
  rewrite (wpa_test_spec _ eq_refl), run_bind_l. if_branch.
  { by rewrite Nat2Z.id, rdn_whole, run_bind_l. }
  unfold RSN_SELECTOR_LEN, PMKID_LEN.
  rewrite (selector_is_spec _ RSN_KEY_DATA_PMKID) by (intros [_ ?%Z.leb_le]%andb_true_iff; lia).
  rewrite run_bind_l.
  assert ((Z.of_nat pos + 1 + 4 <? Z.of_nat end_) && (4 + 16 <=? Z.of_nat (length e.2)) =
    (20 <=? Z.of_nat (length e.2))) as ->.
  { change (4 + 16) with 20. destruct (Z.leb_spec 20 (Z.of_nat (length e.2))); [|by rewrite andb_false_r].
    rewrite andb_true_r. apply Z.ltb_lt. unfold pos. simpl in Hend. lia. }
  if_branch.
  { apply andb_true_iff in Heqb0 as [?%Z.leb_le _]. by rewrite (rdn_payload _ 4), run_bind_l by lia. }
  change (4 + 2) with 6. rewrite !selector_is_spec by (intros ?%Z.ltb_lt; lia). rewrite run_bind_l.
  pose proof (kde_spec RSN_KEY_DATA_GROUPKEY) as Hg. pose proof (kde_spec RSN_KEY_DATA_MAC_ADDR) as Hm.
  destruct ((6 <? _) && (_ =? RSN_KEY_DATA_GROUPKEY)); [by rewrite Hg|]. rewrite run_bind_l.
  destruct ((6 <? _) && (_ =? RSN_KEY_DATA_MAC_ADDR)); [by rewrite Hm|done].
Qed.

Lemma parse_element_see ie :
  element_ok e →
  parse_element buf pos end_ e.1 (Z.of_nat (length e.2)) ie = Ret (false, see ie e).
Proof.
  intros (_ & _ & Hne). unfold parse_element, see. rewrite Nat2Z.id, rdn_whole, run_bind_l.
  do 3 (if_branch; [done|]). if_branch.
  { apply andb_true_iff in Heqb2 as [_ ?%Z.leb_le]. pose proof (λ k i x, rd_payload k i x) as Hrd.
    destruct (e.2) as [|t p]; [simpl in *; lia|].
    rewrite (Hrd (pos + 2)%nat 0%nat t), run_bind_l by first [lia|done]. simpl head.
    destruct (Z.eqb_spec t WLAN_TIMEOUT_REASSOC_DEADLINE) as [->|].
    { by rewrite bool_decide_true. }
    rewrite (bool_decide_false (Some t = Some WLAN_TIMEOUT_REASSOC_DEADLINE)) by congruence.
    destruct (Z.eqb_spec t WLAN_TIMEOUT_KEY_LIFETIME) as [->|].
    { by rewrite bool_decide_true. }
    by rewrite (bool_decide_false (Some t = Some WLAN_TIMEOUT_KEY_LIFETIME)) by congruence. }
  if_branch; [by if_branch|]. do 3 (if_branch; [done|]).
  destruct (Z.eqb_spec e.1 EID_VENDOR_SPECIFIC); [|done]. apply parse_generic_see. auto.
Qed.
End element.

(** Padding: nothing, or the end mark followed by zeros. *)
Definition padding (p : list Z) : Prop := p = [] ∨ ∃ n, p = EID_VENDOR_SPECIFIC :: repeat 0 n.

Lemma parse_loop_padding fuel pre p rest ie :
  padding p → (length p ≤ fuel)%nat →
  parse_ies_loop fuel (pre ++ p ++ rest) (length pre) (length (pre ++ p)) ie = Ret (0, ie).
Proof.
  intros [->|[n ->]] Hf; rewrite length_app.
  - destruct fuel; cbn [parse_ies_loop]; by rewrite (proj2 (Nat.ltb_ge _ _)) by (simpl; lia).
  - destruct n as [|n]; destruct fuel as [|fuel]; try (simpl in Hf; lia); cbn [parse_ies_loop].
    { by rewrite (proj2 (Nat.ltb_ge _ _)) by (simpl; lia). }
    rewrite (proj2 (Nat.ltb_lt _ _)) by (simpl; lia).
    rewrite rd_app_0, rd_app_r. cbn [rd lookup list_lookup repeat app]. rewrite !run_bind_l.
    by rewrite (orb_comm _ (0 =? 0)).
Qed.

Lemma parse_loop_see es fuel pre p rest ie :
  Forall element_ok es → padding p → (length (concat (enc <$> es) ++ p) ≤ fuel)%nat →
  parse_ies_loop fuel (pre ++ (concat (enc <$> es) ++ p) ++ rest) (length pre)
    (length (pre ++ concat (enc <$> es) ++ p)) ie = Ret (0, foldl see ie es).
Proof.
  intros Hes Hp. revert fuel pre ie. induction Hes as [|e es He Hes IH]; intros fuel pre ie Hf.
  { by apply parse_loop_padding. }
  cbn [fmap list_fmap concat foldl] in *. rewrite !length_app in Hf.
  destruct fuel as [|fuel]; [simpl in Hf; lia|]. cbn [parse_ies_loop].
  set (kd := concat (enc <$> es) ++ p) in *. rewrite <-!(app_assoc (enc e)). fold kd.
  rewrite (proj2 (Nat.ltb_lt _ _)) by (rewrite !length_app; simpl; lia).
  rewrite rd_app_0, rd_app_r. cbn [rd lookup list_lookup enc app]. rewrite !run_bind_l.
  pose proof He as (Hb & Hl & Hne).
  assert ((e.1 =? 0xdd) && ((length pre =? length (pre ++ enc e ++ kd) - 1)%nat ||
    (Z.of_nat (length e.2) =? 0)) = false) as Hpad.
  { destruct (Z.eqb_spec e.1 0xdd) as [Hv|]; [|done]. specialize (Hne Hv). simpl andb.
    apply orb_false_iff. split; [apply Nat.eqb_neq; rewrite !length_app; simpl; lia|].
    apply Z.eqb_neq. destruct e.2; simpl; [done|lia]. }
  change (e.1 :: Z.of_nat (length e.2) :: e.2 ++ ?x) with (enc e ++ x). rewrite Hpad.
  rewrite (proj2 (Z.ltb_ge _ _)) by (rewrite !length_app; simpl; lia).
  rewrite (parse_element_see pre e (kd ++ rest)) by (rewrite ?length_app; (lia || done)).
  rewrite run_bind_l, Nat2Z.id.
  specialize (IH fuel (pre ++ enc e) (see ie e)). rewrite <-!app_assoc in IH.
  replace (length pre + 2 + length e.2)%nat with (length (pre ++ enc e)) by (rewrite length_app; simpl; lia).
  apply IH. change (length (enc e)) with (S (S (length e.2))) in Hf.
  unfold kd. rewrite length_app. lia.
Qed.

(** Key data made of any sequence of encoded elements and KDEs, with or
    without padding, is parsed without error whatever follows it in memory, and
    every field of the result is that of the last element of its kind: the whole
    RSN, WPA, mobility domain, ... element, the 16 bytes of a PMKID KDE, the
    contents of a GTK or MAC address KDE. *)
Theorem parse_ies_elements es p rest :
  Forall element_ok es → padding p →
  let kd := concat (enc <$> es) ++ p in
  wpa_supplicant_parse_ies (kd ++ rest) (length kd) = Ret (0, foldl see no_ies es).
Proof. intros Hes Hp kd. by apply (parse_loop_see es _ []). Qed.

(** Whatever the key data, the parser reads no byte outside it, ends, and
    returns a PMKID of 16 bytes and a GTK KDE of 3 to 251 bytes. *)
Theorem parse_ies_safe buf :
  bytes_ok buf →
  ∃ r ie, wpa_supplicant_parse_ies buf (length buf) = Ret (r, ie) ∧ ie_ok ie.
Proof. intros Hb. by apply parse_ies_spec. Qed.

(** An RSN element, a GTK KDE and a PMKID KDE, padded. *)
Definition demo_elements : list element :=
  [(EID_RSN, [1; 0]); (EID_VENDOR_SPECIFIC, [0; 15; 172; 1; 1; 0] ++ repeat 9 16);
   (EID_VENDOR_SPECIFIC, [0; 15; 172; 4] ++ repeat 7 16)].
Definition demo_padding : list Z := EID_VENDOR_SPECIFIC :: repeat 0 5.

Lemma demo_elements_ok : Forall element_ok demo_elements.
Proof.
  repeat constructor; simpl; try lia; try done; repeat (apply Forall_cons; split; [by split|]); done.
Qed.

Lemma parse_ies_elements_witness :
  wpa_supplicant_parse_ies ((concat (enc <$> demo_elements) ++ demo_padding) ++ [0]) 56 =
  Ret (0, no_ies <| rsn_ie := Some [48; 2; 1; 0] |> <| gtk := Some ([1; 0] ++ repeat 9 16) |>
            <| pmkid := Some (repeat 7 16) |>).
Proof. apply (parse_ies_elements demo_elements demo_padding [0] demo_elements_ok). right. by exists 5%nat. Defined.

Lemma parse_ies_safe_witness :
  ∃ r ie, wpa_supplicant_parse_ies [221; 8; 0; 15; 172] 5 = Ret (r, ie) ∧ ie_ok ie.
Proof. apply (parse_ies_safe [221; 8; 0; 15; 172]). repeat (apply Forall_cons; split; [by split|]). done. Defined.
