(* ===== verification/WpaSm.v ===== *)
(** * WPA/RSN key handshakes of the supplicant (src/src/rsn_supp/wpa.c)

    [struct wpa_sm] is a record with the fields the handshakes use; a [wpa_sys]
    adds the state of the PMKSA cache, the connection state kept by the owner
    ([wpa_sm_set_state]) and the list of effects performed so far (keys given to
    the driver, frames sent, notifications of the EAPOL component, timers).  The
    frame being processed is the copy [tmp] of [wpa_sm_rx_eapol], a byte list
    that the MIC check and the decryption of the key data rewrite in place;
    [goto failed] is the [Deauthenticate] effect.

    What a call obtains from outside is an [wpa_env]: the outcome of
    allocations, random bytes, the master key of the EAPOL component, the result
    of [set_key] and so on.  The message authentication code, the PTK derivation
    and the AES key unwrapping are the class [WpaCrypto]; the PMKSA cache is the
    class [PmksaCache].  The build without CONFIG_IEEE80211R, CONFIG_IEEE80211W
    and CONFIG_PEERKEY is modelled. *)

From S2P Require Import Prelude Md5 Rc4 WpaIe.

(** ** Data *)

Inductive wpa_states :=
| WPA_DISCONNECTED | WPA_INTERFACE_DISABLED | WPA_INACTIVE | WPA_SCANNING
| WPA_AUTHENTICATING | WPA_ASSOCIATING | WPA_ASSOCIATED | WPA_4WAY_HANDSHAKE
| WPA_GROUP_HANDSHAKE | WPA_COMPLETED.

Inductive wpa_proto := WPA_PROTO_WPA | WPA_PROTO_RSN.

Inductive wpa_alg := WPA_ALG_WEP | WPA_ALG_TKIP | WPA_ALG_CCMP.

#[global] Instance wpa_states_eq_dec : EqDecision wpa_states.
Proof. solve_decision. Defined.
#[global] Instance wpa_proto_eq_dec : EqDecision wpa_proto.
Proof. solve_decision. Defined.
#[global] Instance wpa_alg_eq_dec : EqDecision wpa_alg.
Proof. solve_decision. Defined.

Definition WPA_CIPHER_NONE : Z := 1.
Definition WPA_CIPHER_WEP40 : Z := 2.
Definition WPA_CIPHER_WEP104 : Z := 4.
Definition WPA_CIPHER_TKIP : Z := 8.
Definition WPA_CIPHER_CCMP : Z := 16.

Definition WPA_KEY_INFO_TYPE_MASK : Z := 0x7.
Definition WPA_KEY_INFO_TYPE_HMAC_MD5_RC4 : Z := 1.
Definition WPA_KEY_INFO_TYPE_HMAC_SHA1_AES : Z := 2.
Definition WPA_KEY_INFO_TYPE_AES_128_CMAC : Z := 3.
Definition WPA_KEY_INFO_KEY_TYPE : Z := 0x8.
Definition WPA_KEY_INFO_KEY_INDEX_MASK : Z := 0x30.
Definition WPA_KEY_INFO_INSTALL : Z := 0x40.
Definition WPA_KEY_INFO_TXRX : Z := 0x40.
Definition WPA_KEY_INFO_ACK : Z := 0x80.
Definition WPA_KEY_INFO_MIC : Z := 0x100.
Definition WPA_KEY_INFO_SECURE : Z := 0x200.
Definition WPA_KEY_INFO_ERROR : Z := 0x400.
Definition WPA_KEY_INFO_REQUEST : Z := 0x800.
Definition WPA_KEY_INFO_ENCR_KEY_DATA : Z := 0x1000.
Definition WPA_KEY_INFO_SMK_MESSAGE : Z := 0x2000.

Definition KEY_TYPE_RSN : Z := 2.
Definition KEY_TYPE_WPA : Z := 254.
Definition TYPE_EAPOL_START : Z := 1.
Definition TYPE_EAPOL_KEY : Z := 3.

(** [info & flag] as a condition. *)
Definition has (info flag : Z) : bool := negb (Z.land info flag =? 0).

(** Key management suites, bits of [key_mgmt]. *)
Definition WPA_KEY_MGMT_IEEE8021X : Z := 0x1.
Definition WPA_KEY_MGMT_PSK : Z := 0x2.
Definition WPA_KEY_MGMT_FT_IEEE8021X : Z := 0x20.
Definition WPA_KEY_MGMT_FT_PSK : Z := 0x40.
Definition WPA_KEY_MGMT_IEEE8021X_SHA256 : Z := 0x80.
Definition WPA_KEY_MGMT_PSK_SHA256 : Z := 0x100.

Definition wpa_key_mgmt_wpa_ieee8021x (akm : Z) : bool :=
  has akm (Z.lor (Z.lor WPA_KEY_MGMT_IEEE8021X WPA_KEY_MGMT_FT_IEEE8021X)
             WPA_KEY_MGMT_IEEE8021X_SHA256).
Definition wpa_key_mgmt_wpa_psk (akm : Z) : bool :=
  has akm (Z.lor (Z.lor WPA_KEY_MGMT_PSK WPA_KEY_MGMT_FT_PSK) WPA_KEY_MGMT_PSK_SHA256).
Definition wpa_key_mgmt_ft (akm : Z) : bool :=
  has akm (Z.lor WPA_KEY_MGMT_FT_PSK WPA_KEY_MGMT_FT_IEEE8021X).
Definition wpa_key_mgmt_sha256 (akm : Z) : bool :=
  has akm (Z.lor WPA_KEY_MGMT_PSK_SHA256 WPA_KEY_MGMT_IEEE8021X_SHA256).

(** A PMKSA cache entry as the handshake sees it. *)
Record pmksa_entry := PmksaEntry {
  pe_pmkid : list Z; pe_pmk : list Z; pe_opportunistic : bool
}.

(** [struct wpa_ptk] is its 64 bytes: KCK, KEK, TK1, TX MIC key, RX MIC key. *)
Definition ptk_kck (p : list Z) : list Z := take 16 p.
Definition ptk_kek (p : list Z) : list Z := take 16 (drop 16 p).
Definition ptk_tk (p : list Z) (keylen : nat) : list Z := take keylen (drop 32 p).

(** [cur_pmksa] is a reference to an entry of the cache, cleared by
    [wpa_sm_pmksa_free_cb] before the entry is freed. *)
Record wpa_sm := WpaSm {
  pmk : list Z; pmk_len : nat;
  ptk : list Z; tptk : list Z; ptk_set : bool; tptk_set : bool;
  snonce : list Z; anonce : list Z; renew_snonce : bool;
  rx_replay_counter : list Z; rx_replay_counter_set : bool; request_counter : list Z;
  cur_pmksa : option positive;
  network_ctx : Z; wpa_ptk_rekey : Z; own_addr : list Z; bssid : list Z;
  proto : wpa_proto; pairwise_cipher : Z; group_cipher : Z; key_mgmt : Z;
  rsn_enabled : bool;
  assoc_wpa_ie : option (list Z); ap_wpa_ie : option (list Z); ap_rsn_ie : option (list Z)
}.

#[global] Instance eta_wpa_sm : Eta wpa_sm := λ r,
  WpaSm (pmk r) (pmk_len r) (ptk r) (tptk r) (ptk_set r) (tptk_set r) (snonce r) (anonce r)
    (renew_snonce r) (rx_replay_counter r) (rx_replay_counter_set r) (request_counter r)
    (cur_pmksa r) (network_ctx r) (wpa_ptk_rekey r) (own_addr r) (bssid r) (proto r) (pairwise_cipher r)
    (group_cipher r) (key_mgmt r) (rsn_enabled r) (assoc_wpa_ie r) (ap_wpa_ie r) (ap_rsn_ie r).

Inductive wpa_event :=
| SetState (st : wpa_states)
| Deauthenticate
| SetKey (alg : wpa_alg) (addr : option (list Z)) (idx : Z) (tx : bool) (seq key : list Z)
| EtherSend (dest frame : list Z)
| NotifyTxEapolKey
| NotifyPortValid (valid : bool)
| NotifyEapSuccess
| NotifyCached
| NotifyLowerLayerSuccess
| CancelAuthTimeout
| SetProtection (rx_only : bool)
| RegisterPreauth
| CancelRekeyPtk
| RegisterRekeyPtk (sec : Z)
| SetRekeyOffload
| PreauthDeinit.

(** ** Interfaces *)

(** [None] is a failing return; [wpa_pmk_to_ptk] is given the 48 or 64 bytes
    asked for. *)
Class WpaCrypto := {
  wpa_eapol_key_mic : list Z → Z → list Z → option (list Z);
  wpa_pmk_to_ptk : list Z → list Z → list Z → list Z → list Z → nat → bool → list Z;
  aes_unwrap : list Z → nat → list Z → option (list Z)
}.

(** What the handshake relies on: the sizes of the results, that unwrapping
    gives bytes, and that a MIC can be computed for both versions in use. *)
Class WpaCryptoOk {crypto : WpaCrypto} : Prop := {
  mic_length k v b m : wpa_eapol_key_mic k v b = Some m → length m = 16%nat;
  ptk_length p a1 a2 n1 n2 l s : length (wpa_pmk_to_ptk p a1 a2 n1 n2 l s) = l;
  unwrap_length k n c p : aes_unwrap k n c = Some p → length p = (8 * n)%nat;
  unwrap_bytes k n c p : bytes_ok c → aes_unwrap k n c = Some p → bytes_ok p;
  mic_total k v b :
    v = WPA_KEY_INFO_TYPE_HMAC_MD5_RC4 ∨ v = WPA_KEY_INFO_TYPE_HMAC_SHA1_AES →
    is_Some (wpa_eapol_key_mic k v b)
}.

(** A cache with its entries by reference.  Adding (at a time, with PMK,
    authenticator and supplicant address, network and key management) can free
    other entries; the handshake gets each with its [replace] argument of
    [wpa_sm_pmksa_free_cb]. *)
Class PmksaCache (C : Type) := {
  pmksa_cache_get : C → list Z → list Z → option positive;
  pmksa_cache_entry : C → positive → option pmksa_entry;
  pmksa_cache_add : C → Z → list Z → list Z → list Z → Z → Z →
    C * list (positive * pmksa_entry * bool);
  pmksa_mark_valid : C → positive → C
}.

(** What one call obtains from its environment: whether the copy of the frame,
    the unwrapping buffer and a reply can be allocated, the EAPOL version in use,
    the nonce after [random_get_bytes] with whether that succeeded, the time,
    whether a network is selected, whether there is an EAPOL component and its
    master key, the BSSID read from the driver, the elements found in the scan
    results, the result of the driver for a key, and the BSSID a
    pre-authentication is under way with. *)
Record wpa_env := WpaEnv {
  env_malloc : bool;
  env_malloc_unwrap : bool;
  env_alloc_eapol : bool;
  env_eapol_version : Z;
  env_random : bool * list Z;
  env_now : Z;
  env_network_ctx : bool;
  env_eapol : bool;
  env_msk : option (list Z);
  env_get_bssid : option (list Z);
  env_beacon_ie : option (option (list Z) * option (list Z));
  env_set_key : wpa_alg → list Z → Z;
  env_preauth_bssid : list Z
}.

(** ** Operations *)

Section wpa.
Context {crypto : WpaCrypto} {C : Type} {cache : PmksaCache C}.
Context (env : wpa_env).

Record wpa_sys := WpaSys { wsm : wpa_sm; pmksa : C; wstate : wpa_states; wout : list wpa_event }.

#[global] Instance eta_wpa_sys : Eta wpa_sys := λ s,
  WpaSys (wsm s) (pmksa s) (wstate s) (wout s).

Local Notation "s .[ f := v ]" := (s <| wsm := (wsm s) <| f := v |> |>)
  (at level 1, f at next level, left associativity).

Definition effect (e : wpa_event) (s : wpa_sys) : wpa_sys := s <| wout := wout s ++ [e] |>.

Definition wpa_sm_set_state (st : wpa_states) (s : wpa_sys) : wpa_sys :=
  effect (SetState st) (s <| wstate := st |>).

(** A 16-bit field in network order. *)
Definition put_be16 (z : Z) : list Z := [u8 (Z.shiftr (u16 z) 8); u8 z].

(** Stores at offsets of a buffer. *)
Definition stores (buf : list Z) (ws : list (nat * list Z)) : list Z :=
  foldl (λ b w, splice b w.1 w.2) buf ws.

(** Offsets in an EAPOL-Key frame, from the start of the 802.1X header. *)
Definition off_type : nat := 4.
Definition off_key_info : nat := 5.
Definition off_key_length : nat := 7.
Definition off_replay_counter : nat := 9.
Definition off_key_nonce : nat := 17.
Definition off_key_iv : nat := 49.
Definition off_key_rsc : nat := 65.
Definition off_key_mic : nat := 81.
Definition off_key_data_length : nat := 97.
Definition off_key_data : nat := 99.
Definition sizeof_1x_hdr : nat := 4.
Definition sizeof_wpa_key : nat := 95.

Definition rd_be16 (buf : list Z) (off : nat) : run Z :=
  a ← rd buf off; b ← rd buf (off + 1); Ret (be16 a b).

(** [wpa_sm_alloc_eapol] with no data: a header and zeros. *)
Definition wpa_sm_alloc_eapol (type : Z) (data_len : nat) : option (list Z) :=
  if env_alloc_eapol env then
    let n := Z.to_nat (u16 (Z.of_nat data_len)) in
    Some ([env_eapol_version env; type] ++ put_be16 (Z.of_nat data_len) ++ repeat 0 n)
  else None.

Definition is_zero_ether_addr (a : list Z) : bool := bool_decide (a = repeat 0 6).

(** [mic] says whether a MIC is written. *)
Definition wpa_eapol_key_send (kck : list Z) (ver : Z) (dest msg : list Z) (mic : bool)
    (s : wpa_sys) : wpa_sys :=
  let '(dest, s) :=
    if is_zero_ether_addr dest && is_zero_ether_addr (bssid (wsm s)) then
      match env_get_bssid env with
      | None => (dest, s)
      | Some b => (b, s.[bssid := b])
      end
    else (dest, s) in
  match (if mic then splice msg off_key_mic <$> wpa_eapol_key_mic kck ver msg else Some msg) with
  | None => s
  | Some msg => effect NotifyTxEapolKey (effect (EtherSend dest msg) s)
  end.

Definition key_type_of (p : wpa_proto) : Z :=
  match p with WPA_PROTO_RSN => KEY_TYPE_RSN | WPA_PROTO_WPA => KEY_TYPE_WPA end.

(** [inc_byte_array] of utils/common.c, on the reversed array. *)
Fixpoint inc_le (l : list Z) : list Z :=
  match l with
  | [] => []
  | b :: l => let b' := u8 (b + 1) in b' :: if b' =? 0 then inc_le l else l
  end.
Definition inc_byte_array (l : list Z) : list Z := rev (inc_le (rev l)).

Definition wpa_sm_key_request (error pairwise : bool) (s : wpa_sys) : wpa_sys :=
  let m := wsm s in
  let ver := if wpa_key_mgmt_ft (key_mgmt m) || wpa_key_mgmt_sha256 (key_mgmt m)
             then WPA_KEY_INFO_TYPE_AES_128_CMAC
             else if pairwise_cipher m =? WPA_CIPHER_CCMP then WPA_KEY_INFO_TYPE_HMAC_SHA1_AES
             else WPA_KEY_INFO_TYPE_HMAC_MD5_RC4 in
  match env_get_bssid env with
  | None => s
  | Some bssid =>
      match wpa_sm_alloc_eapol TYPE_EAPOL_KEY sizeof_wpa_key with
      | None => s
      | Some rbuf =>
          let key_info := Z.lor WPA_KEY_INFO_REQUEST ver in
          let key_info := if ptk_set m then Z.lor key_info WPA_KEY_INFO_MIC else key_info in
          let key_info := if error then Z.lor key_info WPA_KEY_INFO_ERROR else key_info in
          let key_info := if pairwise then Z.lor key_info WPA_KEY_INFO_KEY_TYPE else key_info in
          let rbuf := stores rbuf [(off_type, [key_type_of (proto m)]);
                                   (off_key_info, put_be16 key_info);
                                   (off_key_length, put_be16 0);
                                   (off_replay_counter, request_counter m);
                                   (off_key_data_length, put_be16 0)] in
          let s := s.[request_counter := inc_byte_array (request_counter m)] in
          wpa_eapol_key_send (ptk_kck (ptk m)) ver bssid rbuf (has key_info WPA_KEY_INFO_MIC) s
      end
  end.

(** [wpa_sm_pmksa_free_cb] for an entry the cache frees. *)
Definition wpa_sm_pmksa_free_cb (s : wpa_sys) (f : positive * pmksa_entry * bool) : wpa_sys :=
  let '(id, entry, replace) := f in
  let m := wsm s in
  if bool_decide (cur_pmksa m = Some id) ||
     (bool_decide (pmk_len m = length (pe_pmk entry)) &&
      (memcmp (take (pmk_len m) (pmk m)) (pe_pmk entry) =? 0))
  then
    let s := s.[cur_pmksa := None] in
    if replace : bool then s
    else effect Deauthenticate (s.[pmk := repeat 0 32])
  else s.

Definition wpa_sm_set_pmk_from_pmksa (s : wpa_sys) : wpa_sys :=
  match cur_pmksa (wsm s) ≫= pmksa_cache_entry (pmksa s) with
  | Some e =>
      let s := s.[pmk_len := length (pe_pmk e)] in
      s.[pmk := splice (pmk (wsm s)) 0 (pe_pmk e)]
  | None => (s.[pmk_len := 32%nat]).[pmk := repeat 0 32]
  end.

(** [eapol_sm_get_key] into [buf]: whether it returned 0, and the buffer.  An
    empty key makes it return 0 without a copy. *)
Definition get_msk (buf : list Z) (len : nat) : bool * list Z :=
  match env_msk env with
  | None => (false, buf)
  | Some k =>
      if (length k <? len)%nat then (bool_decide (length k = 0%nat), buf)
      else (true, splice buf 0 (take len k))
  end.

(** The PMK from the EAPOL component, with whether caching is to be aborted;
    [inl] is the early return. *)
Definition get_pmk_eapol (src_addr : list Z) (pmkid : option (list Z)) (abort_cached : bool)
    (s : wpa_sys) : (Z * wpa_sys) + (bool * wpa_sys) :=
  let '(ok, buf, pmk_len') :=
    let '(ok, buf) := get_msk (pmk (wsm s)) 32 in
    if ok then (true, buf, 32%nat)
    else let '(ok, buf) := get_msk buf 16 in (ok, buf, 16%nat) in
  let s := s.[pmk := buf] in
  if ok then
    let s := s.[pmk_len := pmk_len'] in
    let s := if bool_decide (proto (wsm s) = WPA_PROTO_RSN) && negb (wpa_key_mgmt_ft (key_mgmt (wsm s)))
             then
               let '(c, freed) := pmksa_cache_add (pmksa s) (env_now env)
                                    (take pmk_len' (pmk (wsm s))) src_addr (own_addr (wsm s))
                                    (network_ctx (wsm s)) (key_mgmt (wsm s)) in
               foldl wpa_sm_pmksa_free_cb (s <| pmksa := c |>) freed
             else s in
    let found := match pmkid with
                 | Some id => bool_decide (is_Some (pmksa_cache_get (pmksa s) src_addr id))
                 | None => false
                 end in
    inr (if bool_decide (cur_pmksa (wsm s) = None) && found then false else abort_cached, s)
  else if bool_decide (is_Some (cur_pmksa (wsm s))) then
    inr (true, s.[cur_pmksa := None])
  else if negb abort_cached then inl (-1, s)
  else inr (abort_cached, s).

Definition wpa_supplicant_get_pmk (src_addr : list Z) (pmkid : option (list Z)) (s : wpa_sys)
  : Z * wpa_sys :=
  let '(abort_cached, s) :=
    match pmkid with
    | Some id =>
        if bool_decide (cur_pmksa (wsm s) = None) then
          let cur := pmksa_cache_get (pmksa s) src_addr id in
          (bool_decide (cur = None), s.[cur_pmksa := cur])
        else (false, s)
    | None => (false, s)
    end in
  let matched := match pmkid, cur_pmksa (wsm s) ≫= pmksa_cache_entry (pmksa s) with
                 | Some id, Some e => memcmp id (pe_pmkid e) =? 0
                 | _, _ => false
                 end in
  let r := if matched then
             inr (abort_cached, effect NotifyCached (wpa_sm_set_pmk_from_pmksa s))
           else if wpa_key_mgmt_wpa_ieee8021x (key_mgmt (wsm s)) && env_eapol env then
             get_pmk_eapol src_addr pmkid abort_cached s
           else inr (abort_cached, s) in
  match r with
  | inl res => res
  | inr (abort_cached, s) =>
      if abort_cached && wpa_key_mgmt_wpa_ieee8021x (key_mgmt (wsm s)) &&
         negb (wpa_key_mgmt_ft (key_mgmt (wsm s)))
      then match wpa_sm_alloc_eapol TYPE_EAPOL_START 0 with
           | Some buf => (-2, effect (EtherSend (bssid (wsm s)) buf) s)
           | None => (-1, s)
           end
      else (0, s)
  end.

(** *** Message 1/4 and its answer *)

(** The reply key length: zero for RSN, the received one for WPA. *)
Definition reply_key_length (frame : list Z) (s : wpa_sys) : run (list Z) :=
  match proto (wsm s) with
  | WPA_PROTO_RSN => Ret (put_be16 0)
  | WPA_PROTO_WPA => rdn frame off_key_length 2
  end.

Definition wpa_supplicant_send_2_of_4 (dst frame : list Z) (ver : Z) (nonce : list Z)
    (ie : option (list Z)) (p : list Z) (s : wpa_sys) : run (bool * wpa_sys) :=
  match ie with
  | None => Ret (false, s)
  | Some ie =>
      match wpa_sm_alloc_eapol TYPE_EAPOL_KEY (sizeof_wpa_key + length ie) with
      | None => Ret (false, s)
      | Some rbuf =>
          key_length ← reply_key_length frame s;
          replay_counter ← rdn frame off_replay_counter 8;
          let rbuf := stores rbuf
            [(off_type, [key_type_of (proto (wsm s))]);
             (off_key_info, put_be16 (Z.lor (Z.lor ver WPA_KEY_INFO_KEY_TYPE) WPA_KEY_INFO_MIC));
             (off_key_length, key_length);
             (off_replay_counter, replay_counter);
             (off_key_data_length, put_be16 (Z.of_nat (length ie)));
             (off_key_data, ie);
             (off_key_nonce, nonce)] in
          Ret (true, wpa_eapol_key_send (ptk_kck p) ver dst rbuf true s)
      end
  end.

(** The bytes [wpa_pmk_to_ptk] writes into the structure [p]. *)
Definition wpa_derive_ptk (key_nonce : list Z) (p : list Z) (s : wpa_sys) : list Z :=
  let m := wsm s in
  let ptk_len := if pairwise_cipher m =? WPA_CIPHER_CCMP then 48%nat else 64%nat in
  splice p 0 (wpa_pmk_to_ptk (take (pmk_len m) (pmk m)) (own_addr m) (bssid m) (snonce m)
                key_nonce ptk_len (wpa_key_mgmt_sha256 (key_mgmt m))).

(** Swap of the Michael TX and RX keys. *)
Definition swap_mic_keys (p : list Z) : list Z :=
  take 48 p ++ take 8 (drop 56 p) ++ take 8 (drop 48 p) ++ drop 64 p.

Definition wpa_sm_deauthenticate (s : wpa_sys) : wpa_sys := effect Deauthenticate s.

(** The second half of message 1/4, once the PMK is known. *)
Definition process_1_of_4_answer (frame : list Z) (ver : Z) (s : wpa_sys) : run wpa_sys :=
  let '(ok, s) :=
    if renew_snonce (wsm s) then
      let '(ok, nonce) := env_random env in
      let s := s.[snonce := nonce] in
      if ok then (true, s.[renew_snonce := false]) else (false, s)
    else (true, s) in
  if negb ok then Ret (wpa_sm_deauthenticate s) else
  key_nonce ← rdn frame off_key_nonce 32;
  let s := s.[tptk := swap_mic_keys (wpa_derive_ptk key_nonce (tptk (wsm s)) s)] in
  let s := s.[tptk_set := true] in
  '(ok, s) ← wpa_supplicant_send_2_of_4 (bssid (wsm s)) frame ver (snonce (wsm s))
               (assoc_wpa_ie (wsm s)) (tptk (wsm s)) s;
  if (ok : bool) then Ret (s.[anonce := key_nonce]) else Ret (wpa_sm_deauthenticate s).

Definition wpa_supplicant_process_1_of_4 (src_addr frame : list Z) (ver : Z) (s : wpa_sys)
  : run wpa_sys :=
  if negb (env_network_ctx env) then Ret s else
  let s := wpa_sm_set_state WPA_4WAY_HANDSHAKE s in
  ie ← (if bool_decide (proto (wsm s) = WPA_PROTO_RSN) then
          len ← rd_be16 frame off_key_data_length;
          '(_, ie) ← wpa_supplicant_parse_ies (drop off_key_data frame) (Z.to_nat len);
          Ret ie
        else Ret no_ies);
  let '(res, s) := wpa_supplicant_get_pmk src_addr (pmkid ie) s in
  if res =? -2 then Ret s
  else if negb (res =? 0) then Ret (wpa_sm_deauthenticate s)
  else process_1_of_4_answer frame ver s.

(** *** Installing keys *)

Definition wpa_supplicant_key_neg_complete (secure : bool) (s : wpa_sys) : wpa_sys :=
  let s := effect CancelAuthTimeout s in
  let s := wpa_sm_set_state WPA_COMPLETED s in
  let s := if secure then
             let s := effect (SetProtection false) s in
             let s := effect (NotifyPortValid true) s in
             let s := if wpa_key_mgmt_wpa_psk (key_mgmt (wsm s)) then effect NotifyEapSuccess s
                      else s in
             effect RegisterPreauth s
           else s in
  match cur_pmksa (wsm s) with
  | Some id =>
      match pmksa_cache_entry (pmksa s) id with
      | Some e => if pe_opportunistic e then s <| pmksa := pmksa_mark_valid (pmksa s) id |> else s
      | None => s
      end
  | None => s
  end.

Definition wpa_sm_set_key (alg : wpa_alg) (addr : option (list Z)) (idx : Z) (tx : bool)
    (seq key : list Z) (s : wpa_sys) : Z * wpa_sys :=
  (env_set_key env alg key, effect (SetKey alg addr idx tx seq key) s).

Definition wpa_supplicant_install_ptk (frame : list Z) (s : wpa_sys) : run (bool * wpa_sys) :=
  let m := wsm s in
  match (if pairwise_cipher m =? WPA_CIPHER_CCMP then Some (WPA_ALG_CCMP, 16%nat, 6%nat)
         else if pairwise_cipher m =? WPA_CIPHER_TKIP then Some (WPA_ALG_TKIP, 32%nat, 6%nat)
         else None) with
  | None => Ret (pairwise_cipher m =? WPA_CIPHER_NONE, s)
  | Some (alg, keylen, rsclen) =>
      key_rsc ← match proto m with
                | WPA_PROTO_RSN => Ret (repeat 0 8)
                | WPA_PROTO_WPA => rdn frame off_key_rsc 8
                end;
      let '(res, s) := wpa_sm_set_key alg (Some (bssid m)) 0 true (take rsclen key_rsc)
                         (ptk_tk (ptk m) keylen) s in
      if res <? 0 then Ret (false, s)
      else if negb (wpa_ptk_rekey m =? 0) then
        Ret (true, effect (RegisterRekeyPtk (wpa_ptk_rekey m)) (effect CancelRekeyPtk s))
      else Ret (true, s)
  end.

(** [None] is the failure; otherwise the RSC length and the algorithm. *)
Definition wpa_supplicant_check_group_cipher (group_cipher keylen maxkeylen : Z)
  : option (nat * wpa_alg) :=
  let check n r a := if negb (keylen =? n) || (maxkeylen <? n) then None else Some (r, a) in
  if group_cipher =? WPA_CIPHER_CCMP then check 16 6%nat WPA_ALG_CCMP
  else if group_cipher =? WPA_CIPHER_TKIP then check 32 6%nat WPA_ALG_TKIP
  else if group_cipher =? WPA_CIPHER_WEP104 then check 13 0%nat WPA_ALG_WEP
  else if group_cipher =? WPA_CIPHER_WEP40 then check 5 0%nat WPA_ALG_WEP
  else None.

(** [gd_gtk] is the 32-byte array. *)
Record wpa_gtk_data := GtkData {
  gd_alg : wpa_alg; gd_tx : bool; gd_rsc_len : nat; gd_keyidx : Z; gd_gtk : list Z; gd_gtk_len : nat
}.

Definition broadcast_ether_addr : list Z := repeat 255 6.

Definition wpa_supplicant_install_gtk (gd : wpa_gtk_data) (key_rsc : list Z) (s : wpa_sys)
  : bool * wpa_sys :=
  let gtk := if group_cipher (wsm s) =? WPA_CIPHER_TKIP
             then take 16 (gd_gtk gd) ++ take 8 (drop 24 (gd_gtk gd)) ++ take 8 (drop 16 (gd_gtk gd))
             else gd_gtk gd in
  let key := take (gd_gtk_len gd) gtk in
  let seq := take (gd_rsc_len gd) key_rsc in
  let '(res, s) :=
    if pairwise_cipher (wsm s) =? WPA_CIPHER_NONE
    then wpa_sm_set_key (gd_alg gd) None (gd_keyidx gd) true seq key s
    else wpa_sm_set_key (gd_alg gd) (Some broadcast_ether_addr) (gd_keyidx gd) (gd_tx gd) seq key s in
  (0 <=? res, s).

Definition wpa_supplicant_gtk_tx_bit_workaround (s : wpa_sys) (tx : bool) : bool :=
  if tx && negb (pairwise_cipher (wsm s) =? WPA_CIPHER_NONE) then false else tx.

Definition wpa_supplicant_pairwise_gtk (frame gtk : list Z) (key_info : Z) (s : wpa_sys)
  : run (bool * wpa_sys) :=
  if ((length gtk <? 2) || (32 <? length gtk - 2))%nat then Ret (false, s) else
  g0 ← rd gtk 0;
  let keyidx := Z.land g0 0x3 in
  let tx := wpa_supplicant_gtk_tx_bit_workaround s (has g0 4) in
  let key := drop 2 gtk in
  match wpa_supplicant_check_group_cipher (group_cipher (wsm s)) (Z.of_nat (length key))
          (Z.of_nat (length key)) with
  | None => Ret (false, s)
  | Some (rsc_len, alg) =>
      key_rsc ← rdn frame off_key_rsc 8;
      let gd := GtkData alg tx rsc_len keyidx (splice (repeat 0 32) 0 key) (length key) in
      let '(ok, s) := wpa_supplicant_install_gtk gd key_rsc s in
      if ok then Ret (true, wpa_supplicant_key_neg_complete (has key_info WPA_KEY_INFO_SECURE) s)
      else Ret (false, s)
  end.

(** *** Message 3/4 *)

Definition wpa_compare_rsn_ie (ie1 ie2 : list Z) : bool :=
  bool_decide (length ie1 = length ie2) && (memcmp ie1 ie2 =? 0).

Definition wpa_supplicant_validate_ie (ie : wpa_eapol_ie_parse) (s : wpa_sys) : bool * wpa_sys :=
  let s :=
    if bool_decide (ap_wpa_ie (wsm s) = None) && bool_decide (ap_rsn_ie (wsm s) = None) then
      match env_beacon_ie env with
      | None => s
      | Some (w, r) => (s.[ap_wpa_ie := w]).[ap_rsn_ie := r]
      end
    else s in
  let m := wsm s in
  let no_ie := bool_decide (wpa_ie ie = None) && bool_decide (rsn_ie ie = None) in
  let wpa_differs := match wpa_ie ie, ap_wpa_ie m with
                     | Some a, Some b => negb (wpa_compare_rsn_ie a b)
                     | _, _ => false
                     end in
  let rsn_differs := match rsn_ie ie, ap_rsn_ie m with
                     | Some a, Some b => negb (wpa_compare_rsn_ie b a)
                     | _, _ => false
                     end in
  if no_ie && (bool_decide (is_Some (ap_wpa_ie m)) || bool_decide (is_Some (ap_rsn_ie m)))
  then (false, s)
  else if wpa_differs || rsn_differs then (false, s)
  else if bool_decide (proto m = WPA_PROTO_WPA) && bool_decide (is_Some (rsn_ie ie)) &&
          bool_decide (ap_rsn_ie m = None) && rsn_enabled m
  then (false, s)
  else (true, s).

Definition wpa_supplicant_send_4_of_4 (dst frame : list Z) (ver key_info : Z) (p : list Z)
    (s : wpa_sys) : run (bool * wpa_sys) :=
  match wpa_sm_alloc_eapol TYPE_EAPOL_KEY sizeof_wpa_key with
  | None => Ret (false, s)
  | Some rbuf =>
      let key_info := Z.land key_info WPA_KEY_INFO_SECURE in
      let key_info := Z.lor key_info (Z.lor (Z.lor ver WPA_KEY_INFO_KEY_TYPE) WPA_KEY_INFO_MIC) in
      key_length ← reply_key_length frame s;
      replay_counter ← rdn frame off_replay_counter 8;
      let rbuf := stores rbuf
        [(off_type, [key_type_of (proto (wsm s))]);
         (off_key_info, put_be16 key_info);
         (off_key_length, key_length);
         (off_replay_counter, replay_counter);
         (off_key_data_length, put_be16 0)] in
      Ret (true, wpa_eapol_key_send (ptk_kck p) ver dst rbuf true s)
  end.

(** The key length the pairwise cipher expects; other ciphers are not checked. *)
Definition pairwise_keylen_ok (cipher keylen : Z) : bool :=
  if cipher =? WPA_CIPHER_CCMP then keylen =? 16
  else if cipher =? WPA_CIPHER_TKIP then keylen =? 32
  else true.

(** The checks of message 3/4 before it is answered. *)
Definition process_3_of_4_checks (frame : list Z) (key_info : Z) (ie : wpa_eapol_ie_parse)
    (s : wpa_sys) : run (bool * wpa_sys) :=
  if bool_decide (is_Some (gtk ie)) && negb (has key_info WPA_KEY_INFO_ENCR_KEY_DATA)
  then Ret (false, s) else
  let '(ok, s) := wpa_supplicant_validate_ie ie s in
  if negb ok then Ret (false, s) else
  key_nonce ← rdn frame off_key_nonce 32;
  if negb (memcmp (anonce (wsm s)) key_nonce =? 0) then Ret (false, s) else
  keylen ← rd_be16 frame off_key_length;
  Ret (pairwise_keylen_ok (pairwise_cipher (wsm s)) keylen, s).

(** Keys and notifications of message 3/4, after message 4/4 has been sent. *)
Definition process_3_of_4_install (frame : list Z) (key_info : Z) (ie : wpa_eapol_ie_parse)
    (s : wpa_sys) : run wpa_sys :=
  let s := s.[renew_snonce := true] in
  '(ok, s) ← (if has key_info WPA_KEY_INFO_INSTALL then wpa_supplicant_install_ptk frame s
              else Ret (true, s));
  if negb ok then Ret (wpa_sm_deauthenticate s) else
  let s := if has key_info WPA_KEY_INFO_SECURE then
             effect (NotifyPortValid true) (effect (SetProtection true) s)
           else s in
  let s := wpa_sm_set_state WPA_GROUP_HANDSHAKE s in
  '(ok, s) ← match gtk ie with
             | Some g => wpa_supplicant_pairwise_gtk frame g key_info s
             | None => Ret (true, s)
             end;
  if negb ok then Ret (wpa_sm_deauthenticate s)
  else Ret (effect SetRekeyOffload s).

Definition wpa_supplicant_process_3_of_4 (frame : list Z) (ver : Z) (s : wpa_sys) : run wpa_sys :=
  let s := wpa_sm_set_state WPA_4WAY_HANDSHAKE s in
  key_info ← rd_be16 frame off_key_info;
  len ← rd_be16 frame off_key_data_length;
  '(_, ie) ← wpa_supplicant_parse_ies (drop off_key_data frame) (Z.to_nat len);
  '(ok, s) ← process_3_of_4_checks frame key_info ie s;
  if negb ok then Ret (wpa_sm_deauthenticate s) else
  '(ok, s) ← wpa_supplicant_send_4_of_4 (bssid (wsm s)) frame ver key_info (ptk (wsm s)) s;
  if negb ok then Ret (wpa_sm_deauthenticate s)
  else process_3_of_4_install frame key_info ie s.

(** *** Group key handshake *)

Definition wpa_supplicant_process_1_of_2_rsn (frame : list Z) (keydatalen : nat) (key_info : Z)
    (s : wpa_sys) : run (option wpa_gtk_data) :=
  '(_, ie) ← wpa_supplicant_parse_ies (drop off_key_data frame) keydatalen;
  match gtk ie with
  | None => Ret None
  | Some g =>
      if negb (has key_info WPA_KEY_INFO_ENCR_KEY_DATA) then Ret None else
      let gtk_len := Z.of_nat (length g) - 2 in
      match wpa_supplicant_check_group_cipher (group_cipher (wsm s)) gtk_len gtk_len with
      | None => Ret None
      | Some (rsc_len, alg) =>
          g0 ← rd g 0;
          let tx := wpa_supplicant_gtk_tx_bit_workaround s (has g0 4) in
          if 32 <? gtk_len then Ret None
          else Ret (Some (GtkData alg tx rsc_len (Z.land g0 0x3)
                            (splice (repeat 0 32) 0 (drop 2 g)) (length g - 2)))
      end
  end.

Definition wpa_supplicant_process_1_of_2_wpa (frame : list Z) (keydatalen extra_len : nat)
    (key_info ver : Z) (s : wpa_sys) : run (option wpa_gtk_data) :=
  gtk_len ← rd_be16 frame off_key_length;
  if (extra_len <? keydatalen)%nat then Ret None else
  let aes := ver =? WPA_KEY_INFO_TYPE_HMAC_SHA1_AES in
  if aes && (keydatalen <? 8)%nat then Ret None else
  let maxkeylen := if aes then (keydatalen - 8)%nat else keydatalen in
  match wpa_supplicant_check_group_cipher (group_cipher (wsm s)) gtk_len (Z.of_nat maxkeylen) with
  | None => Ret None
  | Some (rsc_len, alg) =>
      let keyidx := Z.shiftr (Z.land key_info WPA_KEY_INFO_KEY_INDEX_MASK) 4 in
      let tx := wpa_supplicant_gtk_tx_bit_workaround s (has key_info WPA_KEY_INFO_TXRX) in
      let done buf := Ret (Some (GtkData alg tx rsc_len keyidx (splice (repeat 0 32) 0 buf)
                                   (Z.to_nat gtk_len))) in
      if ver =? WPA_KEY_INFO_TYPE_HMAC_MD5_RC4 then
        iv ← rdn frame off_key_iv 16;
        if (32 <? keydatalen)%nat then Ret None else
        d ← rdn frame off_key_data keydatalen;
        d ← rc4_skip (iv ++ ptk_kek (ptk (wsm s))) 256 d;
        done d
      else if aes then
        if negb (keydatalen mod 8 =? 0)%nat then Ret None else
        if (32 <? maxkeylen)%nat then Ret None else
        c ← rdn frame off_key_data (8 * (maxkeylen / 8 + 1));
        match aes_unwrap (ptk_kek (ptk (wsm s))) (maxkeylen / 8) c with
        | None => Ret None
        | Some d => done d
        end
      else Ret None
  end.

Definition wpa_supplicant_send_2_of_2 (frame : list Z) (ver key_info : Z) (s : wpa_sys)
  : run (bool * wpa_sys) :=
  match wpa_sm_alloc_eapol TYPE_EAPOL_KEY sizeof_wpa_key with
  | None => Ret (false, s)
  | Some rbuf =>
      let key_info := Z.land key_info WPA_KEY_INFO_KEY_INDEX_MASK in
      let key_info := Z.lor key_info (Z.lor (Z.lor ver WPA_KEY_INFO_MIC) WPA_KEY_INFO_SECURE) in
      key_length ← reply_key_length frame s;
      replay_counter ← rdn frame off_replay_counter 8;
      let rbuf := stores rbuf
        [(off_type, [key_type_of (proto (wsm s))]);
         (off_key_info, put_be16 key_info);
         (off_key_length, key_length);
         (off_replay_counter, replay_counter);
         (off_key_data_length, put_be16 0)] in
      Ret (true, wpa_eapol_key_send (ptk_kck (ptk (wsm s))) ver (bssid (wsm s)) rbuf true s)
  end.

Definition wpa_supplicant_process_1_of_2 (frame : list Z) (extra_len : nat) (ver : Z)
    (s : wpa_sys) : run wpa_sys :=
  let rekey := bool_decide (wstate s = WPA_COMPLETED) in
  key_info ← rd_be16 frame off_key_info;
  keydatalen ← rd_be16 frame off_key_data_length;
  gd ← match proto (wsm s) with
       | WPA_PROTO_RSN =>
           wpa_supplicant_process_1_of_2_rsn frame (Z.to_nat keydatalen) key_info s
       | WPA_PROTO_WPA =>
           wpa_supplicant_process_1_of_2_wpa frame (Z.to_nat keydatalen) extra_len key_info ver s
       end;
  let s := wpa_sm_set_state WPA_GROUP_HANDSHAKE s in
  match gd with
  | None => Ret (wpa_sm_deauthenticate s)
  | Some gd =>
      key_rsc ← rdn frame off_key_rsc 8;
      let '(ok, s) := wpa_supplicant_install_gtk gd key_rsc s in
      if negb ok then Ret (wpa_sm_deauthenticate s) else
      '(ok, s) ← wpa_supplicant_send_2_of_2 frame ver key_info s;
      if negb ok then Ret (wpa_sm_deauthenticate s) else
      if rekey then
        let s := effect CancelAuthTimeout s in
        let s := wpa_sm_set_state WPA_COMPLETED s in
        Ret (effect SetRekeyOffload s)
      else Ret (wpa_supplicant_key_neg_complete (has key_info WPA_KEY_INFO_SECURE) s)
  end.

(** *** Reception *)

(** The MIC of the frame under the KCK of [p]; the frame's MIC field is
    rewritten with zeros and then with the result. *)
Definition check_mic (p frame : list Z) (data_len : nat) (ver : Z) (mic : list Z)
  : run (bool * list Z) :=
  let frame := splice frame off_key_mic (repeat 0 16) in
  signed ← rdn frame 0 data_len;
  let frame := match wpa_eapol_key_mic (ptk_kck p) ver signed with
               | Some m => splice frame off_key_mic m
               | None => frame
               end in
  mic' ← rdn frame off_key_mic 16;
  Ret (memcmp mic mic' =? 0, frame).

Definition wpa_supplicant_verify_eapol_key_mic (frame : list Z) (data_len : nat) (ver : Z)
    (s : wpa_sys) : run (bool * list Z * wpa_sys) :=
  mic ← rdn frame off_key_mic 16;
  '(ok, frame, s) ←
    (if tptk_set (wsm s) then
       '(eq, frame) ← check_mic (tptk (wsm s)) frame data_len ver mic;
       if (eq : bool) then
         Ret (true, frame,
              ((s.[tptk_set := false]).[ptk_set := true]).[ptk := tptk (wsm s)])
       else Ret (false, frame, s)
     else Ret (false, frame, s));
  '(ok, frame) ←
    (if negb ok && ptk_set (wsm s) then check_mic (ptk (wsm s)) frame data_len ver mic
     else Ret (ok, frame));
  if (ok : bool) then
    replay_counter ← rdn frame off_replay_counter 8;
    Ret (true, frame,
         (s.[rx_replay_counter := replay_counter]).[rx_replay_counter_set := true])
  else Ret (false, frame, s).

(** The frame with its key data decrypted in place, [None] on failure. *)
Definition wpa_supplicant_decrypt_key_data (frame : list Z) (ver : Z) (s : wpa_sys)
  : run (option (list Z)) :=
  keydatalen ← rd_be16 frame off_key_data_length;
  if negb (ptk_set (wsm s)) then Ret None
  else if ver =? WPA_KEY_INFO_TYPE_HMAC_MD5_RC4 then
    iv ← rdn frame off_key_iv 16;
    d ← rdn frame off_key_data (Z.to_nat keydatalen);
    d ← rc4_skip (iv ++ ptk_kek (ptk (wsm s))) 256 d;
    Ret (Some (splice frame off_key_data d))
  else if (ver =? WPA_KEY_INFO_TYPE_HMAC_SHA1_AES) || (ver =? WPA_KEY_INFO_TYPE_AES_128_CMAC) then
    if negb (keydatalen mod 8 =? 0) then Ret None else
    let keydatalen := u16 (keydatalen - 8) in
    if negb (env_malloc_unwrap env) then Ret None else
    c ← rdn frame off_key_data (Z.to_nat (8 * (keydatalen / 8 + 1)));
    match aes_unwrap (ptk_kek (ptk (wsm s))) (Z.to_nat (keydatalen / 8)) c with
    | None => Ret None
    | Some d => Ret (Some (splice (splice frame off_key_data d) off_key_data_length
                             (put_be16 keydatalen)))
    end
  else Ret None.

(** The version checks of [wpa_sm_rx_eapol]. *)
Definition version_ok (key_info ver : Z) (s : wpa_sys) : bool :=
  if negb (ver =? WPA_KEY_INFO_TYPE_HMAC_MD5_RC4) && negb (ver =? WPA_KEY_INFO_TYPE_HMAC_SHA1_AES)
  then false
  else if (pairwise_cipher (wsm s) =? WPA_CIPHER_CCMP) &&
          negb (ver =? WPA_KEY_INFO_TYPE_HMAC_SHA1_AES)
  then negb (group_cipher (wsm s) =? WPA_CIPHER_CCMP) && negb (has key_info WPA_KEY_INFO_KEY_TYPE)
  else true.

(** Dispatch to the message handlers, after the checks; -1 or 1. *)
Definition rx_dispatch (src_addr frame : list Z) (key_info ver : Z) (s : wpa_sys)
  : run (Z * wpa_sys) :=
  extra_len ← rd_be16 frame off_key_data_length;
  if has key_info WPA_KEY_INFO_KEY_TYPE then
    if has key_info WPA_KEY_INFO_KEY_INDEX_MASK then Ret (-1, s)
    else if has key_info WPA_KEY_INFO_MIC then
      s ← wpa_supplicant_process_3_of_4 frame ver s; Ret (1, s)
    else
      s ← wpa_supplicant_process_1_of_4 src_addr frame ver s; Ret (1, s)
  else if has key_info WPA_KEY_INFO_SMK_MESSAGE then Ret (1, s)
  else if has key_info WPA_KEY_INFO_MIC then
    s ← wpa_supplicant_process_1_of_2 frame (Z.to_nat extra_len) ver s; Ret (1, s)
  else Ret (1, s).

(** From the replay check on; [frame] is the copy of the received frame. *)
Definition rx_checked (src_addr frame : list Z) (data_len : nat) (key_info ver : Z) (s : wpa_sys)
  : run (Z * wpa_sys) :=
  replay_counter ← rdn frame off_replay_counter 8;
  if rx_replay_counter_set (wsm s) &&
     (memcmp replay_counter (rx_replay_counter (wsm s)) <=? 0) then Ret (-1, s)
  else if negb (has key_info (Z.lor WPA_KEY_INFO_ACK WPA_KEY_INFO_SMK_MESSAGE)) then Ret (-1, s)
  else if has key_info WPA_KEY_INFO_REQUEST then Ret (-1, s)
  else
  '(ok, frame, s) ←
    (if has key_info WPA_KEY_INFO_MIC
     then wpa_supplicant_verify_eapol_key_mic frame data_len ver s
     else Ret (true, frame, s));
  if negb ok then Ret (-1, s) else
  let extra_len := (data_len - sizeof_1x_hdr - sizeof_wpa_key)%nat in
  keydatalen ← rd_be16 frame off_key_data_length;
  if Z.of_nat extra_len <? keydatalen then Ret (-1, s) else
  decrypted ← (if bool_decide (proto (wsm s) = WPA_PROTO_RSN) &&
                  has key_info WPA_KEY_INFO_ENCR_KEY_DATA
               then wpa_supplicant_decrypt_key_data frame ver s
               else Ret (Some frame));
  match decrypted with
  | None => Ret (-1, s)
  | Some frame => rx_dispatch src_addr frame key_info ver s
  end.

Definition wpa_sm_rx_eapol (src_addr buf : list Z) (s : wpa_sys) : run (Z * wpa_sys) :=
  let len := length buf in
  if (len <? sizeof_1x_hdr + sizeof_wpa_key)%nat then Ret (0, s)
  else if negb (env_malloc env) then Ret (-1, s)
  else
  type ← rd buf 1;
  plen ← rd_be16 buf 2;
  let data_len := (Z.to_nat plen + sizeof_1x_hdr)%nat in
  if negb (type =? TYPE_EAPOL_KEY) then Ret (0, s)
  else if (Z.of_nat len - Z.of_nat sizeof_1x_hdr <? plen) || (plen <? Z.of_nat sizeof_wpa_key)
  then Ret (0, s)
  else
  key_type ← rd buf off_type;
  if negb (key_type =? KEY_TYPE_WPA) && negb (key_type =? KEY_TYPE_RSN) then Ret (0, s)
  else
  let s := effect NotifyLowerLayerSuccess s in
  key_info ← rd_be16 buf off_key_info;
  let ver := Z.land key_info WPA_KEY_INFO_TYPE_MASK in
  if negb (version_ok key_info ver s) then Ret (-1, s)
  else rx_checked src_addr buf data_len key_info ver s.

(** *** Other notifications *)

Definition wpa_sm_notify_assoc (b : list Z) (s : wpa_sys) : wpa_sys :=
  let s := s.[bssid := b] in
  let s := s.[rx_replay_counter := repeat 0 8] in
  let s := s.[rx_replay_counter_set := false] in
  let s := s.[renew_snonce := true] in
  let s := if memcmp (env_preauth_bssid env) b =? 0 then effect PreauthDeinit s else s in
  let s := s.[ptk_set := false] in
  s.[tptk_set := false].

(** Callers pass at most the 32 bytes of the array. *)
Definition wpa_sm_set_pmk (k : list Z) (s : wpa_sys) : wpa_sys :=
  (s.[pmk_len := length k]).[pmk := splice (pmk (wsm s)) 0 k].

Definition wpa_sm_aborted_cached (s : wpa_sys) : wpa_sys := s.[cur_pmksa := None].

Definition wpa_sm_drop_sa (s : wpa_sys) : wpa_sys :=
  let s := s.[ptk_set := false] in
  let s := s.[tptk_set := false] in
  let s := s.[pmk := repeat 0 32] in
  let s := s.[ptk := repeat 0 64] in
  s.[tptk := repeat 0 64].

Definition wpa_sm_has_ptk (s : wpa_sys) : bool := ptk_set (wsm s).

Definition wpa_sm_rekey_ptk (s : wpa_sys) : wpa_sys := wpa_sm_key_request false true s.

(** ** What the handlers keep *)

(** The verified session state. *)
Definition core (s : wpa_sys) : list Z * bool * list Z * bool :=
  (ptk (wsm s), ptk_set (wsm s), rx_replay_counter (wsm s), rx_replay_counter_set (wsm s)).

(** [s'] follows [s] by effects that satisfy [P], with the session state kept. *)
Definition keep (P : wpa_event → Prop) (s s' : wpa_sys) : Prop :=
  core s' = core s ∧ ∃ l, wout s' = wout s ++ l ∧ Forall P l.

#[global] Instance keep_preorder P : PreOrder (keep P).
Proof.
  split.
  - intros s. split; [done|]. exists []. by rewrite app_nil_r.
  - intros s1 s2 s3 [H1 (l1 & Ho1 & Hl1)] [H2 (l2 & Ho2 & Hl2)]. split; [congruence|].
    exists (l1 ++ l2). split; [by rewrite Ho2, Ho1, app_assoc|]. by apply Forall_app.
Qed.

Lemma keep_mono (P Q : wpa_event → Prop) s s' : (∀ e, P e → Q e) → keep P s s' → keep Q s s'.
Proof.
  intros HPQ [Hc (l & Ho & Hl)]. split; [done|]. exists l. split; [done|].
  eapply Forall_impl; [exact Hl|apply HPQ].
Qed.

Lemma keep_silent P s s' : core s' = core s → wout s' = wout s → keep P s s'.
Proof. intros Hc Ho. split; [done|]. exists []. by rewrite app_nil_r. Qed.

Lemma keep_effect (P : wpa_event → Prop) e s : P e → keep P s (effect e s).
Proof. intros He. split; [done|]. exists [e]. split; [done|by constructor]. Qed.

(** Effects that give the driver a key or tell the EAPOL component that the
    keys are valid. *)
Definition privileged (e : wpa_event) : bool :=
  match e with
  | SetKey _ _ _ _ _ _ | NotifyPortValid true | NotifyEapSuccess => true
  | _ => false
  end.

Definition plain (e : wpa_event) : Prop := privileged e = false.

(** A key set for a station is a temporal key of the PTK [K]; group keys go to
    the broadcast address. *)
Definition key_of (K : list Z) (e : wpa_event) : Prop :=
  match e with
  | SetKey _ (Some a) _ _ _ k => a = broadcast_ether_addr ∨ ∃ n, k = ptk_tk K n
  | _ => True
  end.

Lemma plain_key_of K e : plain e → key_of K e.
Proof. by destruct e. Qed.

Lemma key_send_plain kck ver dest msg mic s : keep plain s (wpa_eapol_key_send kck ver dest msg mic s).
Proof.
  unfold wpa_eapol_key_send.
  assert (∀ dest' s', keep plain s s' → keep plain s
    match (if mic then splice msg off_key_mic <$> wpa_eapol_key_mic kck ver msg else Some msg) with
    | None => s'
    | Some msg => effect NotifyTxEapolKey (effect (EtherSend dest' msg) s')
    end) as H.
  { intros dest' s' Hs. case_match; [|done]. etrans; [exact Hs|].
    etrans; [by apply (keep_effect plain (EtherSend dest' l))|]. by apply keep_effect. }
  if_branch; [|by apply H]. destruct (env_get_bssid env); apply H; [|done]. by apply keep_silent.
Qed.

Lemma send_2_of_4_plain dst f ver nonce ie p s ok s' :
  wpa_supplicant_send_2_of_4 dst f ver nonce ie p s = Ret (ok, s') → keep plain s s'.
Proof.
  unfold wpa_supplicant_send_2_of_4. intros H.
  destruct ie as [ie|]; [|by simplify_eq]. destruct (wpa_sm_alloc_eapol _ _); [|by simplify_eq].
  run_inv. apply key_send_plain.
Qed.

Lemma send_4_of_4_plain dst f ver ki p s ok s' :
  wpa_supplicant_send_4_of_4 dst f ver ki p s = Ret (ok, s') → keep plain s s'.
Proof.
  unfold wpa_supplicant_send_4_of_4. intros H.
  destruct (wpa_sm_alloc_eapol _ _); [|by simplify_eq]. run_inv. apply key_send_plain.
Qed.

Lemma send_2_of_2_plain f ver ki s ok s' :
  wpa_supplicant_send_2_of_2 f ver ki s = Ret (ok, s') → keep plain s s'.
Proof.
  unfold wpa_supplicant_send_2_of_2. intros H.
  destruct (wpa_sm_alloc_eapol _ _); [|by simplify_eq]. run_inv. apply key_send_plain.
Qed.

Lemma deauth_plain s : keep plain s (wpa_sm_deauthenticate s).
Proof. by apply keep_effect. Qed.

Lemma set_state_plain st s : keep plain s (wpa_sm_set_state st s).
Proof. unfold wpa_sm_set_state. etrans; [|by apply keep_effect]. by apply keep_silent. Qed.

Lemma free_cb_plain s f : keep plain s (wpa_sm_pmksa_free_cb s f).
Proof.
  destruct f as [[id e] r]. unfold wpa_sm_pmksa_free_cb. cbv zeta.
  if_branch; [|done]. destruct r; [by apply keep_silent|].
  etrans; [|by apply keep_effect]. by apply keep_silent.
Qed.

Lemma free_cbs_plain fs s : keep plain s (foldl wpa_sm_pmksa_free_cb s fs).
Proof.
  revert s. induction fs as [|f fs IH]; intros s; simpl; [done|].
  etrans; [apply free_cb_plain|apply IH].
Qed.

Lemma set_pmk_from_pmksa_plain s : keep plain s (wpa_sm_set_pmk_from_pmksa s).
Proof. unfold wpa_sm_set_pmk_from_pmksa. case_match; by apply keep_silent. Qed.

Lemma get_pmk_eapol_plain src id ab s :
  match get_pmk_eapol src id ab s with
  | inl (_, s') | inr (_, s') => keep plain s s'
  end.
Proof.
  unfold get_pmk_eapol.
  match goal with |- context [let '(_, _) := ?x in _] => destruct x as [[ok buf] n] end. cbv zeta.
  set (s1 := s.[pmk := buf]). assert (keep plain s s1) as H1 by (by apply keep_silent). clearbody s1.
  destruct ok.
  - set (s2 := s1.[pmk_len := n]). assert (keep plain s s2) as H2.
    { etrans; [exact H1|by apply keep_silent]. }
    clearbody s2. if_branch; [|exact H2].
    destruct (pmksa_cache_add _ _ _ _ _ _) as [c fs].
    etrans; [exact H2|]. etrans; [|apply free_cbs_plain]. by apply keep_silent.
  - if_branch; [etrans; [exact H1|by apply keep_silent]|]. if_branch; done.
Qed.

Lemma get_pmk_plain src id s r s' :
  wpa_supplicant_get_pmk src id s = (r, s') → keep plain s s'.
Proof.
  unfold wpa_supplicant_get_pmk.
  match goal with |- context [let '(_, _) := ?x in _] => destruct x as [ab s1] eqn:Hx end.
  assert (keep plain s s1) as H1.
  { destruct id; [|by simplify_eq]. revert Hx. if_branch; intros Hx; simplify_eq; [|done].
    by apply keep_silent. }
  clear Hx. cbv zeta.
  match goal with |- context [match ?x with inl _ => _ | inr _ => _ end] => set (r0 := x) end.
  assert (match r0 with inl (_, s') | inr (_, s') => keep plain s1 s' end) as H2.
  { unfold r0. if_branch.
    - etrans; [apply set_pmk_from_pmksa_plain|]. by apply keep_effect.
    - if_branch; [apply get_pmk_eapol_plain|done]. }
  clearbody r0. destruct r0 as [[r1 s2]|[ab2 s2]].
  { intros [= <- <-]. by etrans. }
  if_branch; [|intros [= <- <-]; by etrans].
  destruct (wpa_sm_alloc_eapol _ _); intros [= <- <-]; [|by etrans].
  etrans; [exact H1|]. etrans; [exact H2|]. by apply keep_effect.
Qed.

Lemma answer_plain f ver s s' : process_1_of_4_answer f ver s = Ret s' → keep plain s s'.
Proof.
  unfold process_1_of_4_answer.
  match goal with |- context [let '(_, _) := ?x in _] => destruct x as [ok0 s1] eqn:Hx end.
  assert (keep plain s s1) as H1.
  { revert Hx. if_branch; [|by intros [= _ <-]]. destruct (env_random env) as [[] r];
      intros [= _ <-]; by apply keep_silent. }
  clear Hx. destruct ok0; simpl negb; cbv iota.
  2: { intros [= <-]. etrans; [exact H1|apply deauth_plain]. }
  intros H. run_inv. destruct x0 as [ok s2]. apply send_2_of_4_plain in Hrun0.
  assert (keep plain s s2) as H2.
  { etrans; [exact H1|]. etrans; [|exact Hrun0]. by apply keep_silent. }
  destruct ok; run_inv; (etrans; [exact H2|]); [by apply keep_silent|apply deauth_plain].
Qed.

Lemma process_1_of_4_plain src f ver s s' :
  wpa_supplicant_process_1_of_4 src f ver s = Ret s' → keep plain s s'.
Proof.
  unfold wpa_supplicant_process_1_of_4. if_branch; [by intros [= <-]|]. intros H. run_inv.
  destruct (wpa_supplicant_get_pmk _ _ _) as [r s1] eqn:Hg. apply get_pmk_plain in Hg.
  assert (keep plain s s1) as H1 by (etrans; [apply set_state_plain|exact Hg]).
  revert H. if_branch; [by intros [= <-]|]. if_branch.
  - intros [= <-]. etrans; [exact H1|apply deauth_plain].
  - intros H%answer_plain. by etrans.
Qed.

(** *** Keys *)

Lemma keep_key_of K s s' : keep plain s s' → keep (key_of K) s s'.
Proof. apply keep_mono, plain_key_of. Qed.

Lemma key_neg_complete_keep K sec s : keep (key_of K) s (wpa_supplicant_key_neg_complete sec s).
Proof.
  unfold wpa_supplicant_key_neg_complete. cbv zeta.
  set (s1 := wpa_sm_set_state WPA_COMPLETED (effect CancelAuthTimeout s)).
  assert (keep (key_of K) s s1) as H1.
  { apply keep_key_of. etrans; [by apply (keep_effect plain CancelAuthTimeout)|apply set_state_plain]. }
  clearbody s1.
  set (s2 := if sec then _ else s1). assert (keep (key_of K) s s2) as H2.
  { unfold s2. destruct sec; [|done]. etrans; [exact H1|]. etrans; [|by apply keep_effect].
    set (s3 := effect (NotifyPortValid true) _). assert (keep (key_of K) s1 s3) as H3.
    { etrans; [by apply (keep_effect _ (SetProtection false))|]. by apply keep_effect. }
    clearbody s3. if_branch; [|done]. etrans; [exact H3|]. by apply keep_effect. }
  clearbody s2. destruct (cur_pmksa (wsm s2)) as [id|]; [|done].
  destruct (pmksa_cache_entry _ _); [|done]. if_branch; [|done].
  etrans; [exact H2|]. by apply keep_silent.
Qed.

Lemma install_ptk_keep f s ok s' :
  wpa_supplicant_install_ptk f s = Ret (ok, s') → keep (key_of (ptk (wsm s))) s s'.
Proof.
  unfold wpa_supplicant_install_ptk. cbv zeta.
  match goal with |- context [match ?x with Some _ => _ | None => _ end] =>
    destruct x as [[[alg n] rn]|] end.
  2: by intros [= _ <-].
  intros H. run_inv. revert H. unfold wpa_sm_set_key.
  set (s1 := effect _ s). assert (keep (key_of (ptk (wsm s))) s s1) as H1.
  { apply keep_effect. right. by exists n. }
  if_branch; [by intros [= _ <-]|]. if_branch; intros [= _ <-]; [|done].
  etrans; [exact H1|]. etrans; [by apply (keep_effect _ CancelRekeyPtk)|]. by apply keep_effect.
Qed.

Lemma install_gtk_keep K gd rsc s ok s' :
  wpa_supplicant_install_gtk gd rsc s = (ok, s') → keep (key_of K) s s'.
Proof.
  unfold wpa_supplicant_install_gtk, wpa_sm_set_key. cbv zeta. if_branch; intros [= _ <-].
  - by apply keep_effect.
  - apply keep_effect. by left.
Qed.

Lemma pairwise_gtk_keep K f g ki s ok s' :
  wpa_supplicant_pairwise_gtk f g ki s = Ret (ok, s') → keep (key_of K) s s'.
Proof.
  unfold wpa_supplicant_pairwise_gtk. if_branch; [by intros [= _ <-]|]. intros H. run_inv.
  destruct (wpa_supplicant_check_group_cipher _ _ _) as [[rl alg]|]; run_inv; [|done].
  destruct (wpa_supplicant_install_gtk _ _ _) as [ok1 s1] eqn:Hg. apply (install_gtk_keep K) in Hg.
  destruct ok1; run_inv; [|done]. etrans; [exact Hg|apply key_neg_complete_keep].
Qed.

Lemma validate_ie_plain ie s ok s' : wpa_supplicant_validate_ie ie s = (ok, s') → keep plain s s'.
Proof.
  unfold wpa_supplicant_validate_ie. cbv zeta.
  set (s1 := if _ && _ then _ else s). assert (keep plain s s1) as H1.
  { unfold s1. if_branch; [|done]. destruct (env_beacon_ie env) as [[w r]|]; [|done].
    by apply keep_silent. }
  clearbody s1. do 3 (if_branch; [by intros [= _ <-]|]). by intros [= _ <-].
Qed.

Lemma checks_plain f ki ie s ok s' :
  process_3_of_4_checks f ki ie s = Ret (ok, s') → keep plain s s'.
Proof.
  unfold process_3_of_4_checks. if_branch; [by intros [= _ <-]|].
  destruct (wpa_supplicant_validate_ie ie s) as [ok1 s1] eqn:Hv. apply validate_ie_plain in Hv.
  if_branch; [by intros [= _ <-]|]. intros H. run_inv. revert H.
  if_branch; [by intros [= _ <-]|]. intros H. by run_inv.
Qed.

Lemma core_ptk s s' : core s' = core s → ptk (wsm s') = ptk (wsm s).
Proof. unfold core. by intros [= -> _ _ _]. Qed.

Lemma install_3_of_4_keep f ki ie s s' :
  process_3_of_4_install f ki ie s = Ret s' → keep (key_of (ptk (wsm s))) s s'.
Proof.
  unfold process_3_of_4_install. cbv zeta. set (s0 := s.[renew_snonce := true]).
  set (K := ptk (wsm s)). assert (keep (key_of K) s s0) as H0 by (by apply keep_silent).
  intros H. run_inv. destruct x as [ok1 s1].
  assert (keep (key_of K) s0 s1) as H1.
  { revert Hrun. if_branch; [|by intros [= _ <-]]. exact (install_ptk_keep f s0 ok1 s1). }
  clearbody s0. destruct ok1; simpl in H.
  2: { run_inv. etrans; [exact H0|]. etrans; [exact H1|]. apply keep_key_of, deauth_plain. }
  run_inv. destruct x as [ok2 s2]. revert Hrun0.
  set (s3 := wpa_sm_set_state _ _). intros Hg.
  assert (keep (key_of K) s1 s3) as H3.
  { unfold s3. etrans; [|apply keep_key_of, set_state_plain]. if_branch; [|done].
    etrans; [by apply (keep_effect _ (SetProtection true))|by apply keep_effect]. }
  clearbody s3. assert (keep (key_of K) s3 s2) as H2.
  { destruct (gtk ie); [by eapply pairwise_gtk_keep|by simplify_eq]. }
  etrans; [exact H0|]. etrans; [exact H1|]. etrans; [exact H3|]. etrans; [exact H2|].
  destruct ok2; simpl in H; run_inv; apply keep_key_of; [by apply keep_effect|apply deauth_plain].
Qed.

Lemma process_3_of_4_keep f ver s s' :
  wpa_supplicant_process_3_of_4 f ver s = Ret s' → keep (key_of (ptk (wsm s))) s s'.
Proof.
  unfold wpa_supplicant_process_3_of_4. cbv zeta. intros H. run_inv.
  destruct x1 as [z ie]. run_inv. destruct x1 as [ok1 s1]. apply checks_plain in Hrun2.
  assert (keep plain s s1) as H1 by (etrans; [apply set_state_plain|exact Hrun2]).
  destruct ok1; simpl in H; [|run_inv; apply keep_key_of; etrans; [exact H1|apply deauth_plain]].
  run_inv. destruct x1 as [ok2 s2]. apply send_4_of_4_plain in Hrun3.
  assert (keep plain s s2) as H2 by (by etrans).
  destruct ok2; simpl in H; [|run_inv; apply keep_key_of; etrans; [exact H2|apply deauth_plain]].
  apply install_3_of_4_keep in H. rewrite (core_ptk s s2) in H by apply H2.
  etrans; [apply keep_key_of, H2|exact H].
Qed.

Lemma process_1_of_2_keep f el ver s s' :
  wpa_supplicant_process_1_of_2 f el ver s = Ret s' → keep (key_of (ptk (wsm s))) s s'.
Proof.
  unfold wpa_supplicant_process_1_of_2. cbv zeta. set (K := ptk (wsm s)). intros H. run_inv.
  set (s1 := wpa_sm_set_state _ s) in *.
  assert (keep (key_of K) s s1) as H1 by apply keep_key_of, set_state_plain. clearbody s1.
  destruct x1 as [gd|]; [|run_inv; etrans; [exact H1|apply keep_key_of, deauth_plain]].
  run_inv. destruct (wpa_supplicant_install_gtk gd _ s1) as [ok2 s2] eqn:Hg.
  apply (install_gtk_keep K) in Hg.
  destruct ok2; simpl in H.
  2: { run_inv. etrans; [exact H1|]. etrans; [exact Hg|]. apply keep_key_of, deauth_plain. }
  run_inv. destruct x2 as [ok3 s3]. apply send_2_of_2_plain, (keep_key_of K) in Hrun3.
  etrans; [exact H1|]. etrans; [exact Hg|]. etrans; [exact Hrun3|].
  destruct ok3; simpl in H; [|run_inv; apply keep_key_of, deauth_plain].
  revert H. if_branch; intros [= <-]; [|apply key_neg_complete_keep].
  apply keep_key_of. etrans; [by apply (keep_effect plain CancelAuthTimeout)|].
  etrans; [apply set_state_plain|]. by apply keep_effect.
Qed.

(** *** The MIC check *)

(** The EAPOL-Key MIC of a frame of [n] bytes under the KCK of [K]. *)
Definition frame_mic (K : list Z) (ver : Z) (frame : list Z) (n : nat) : option (list Z) :=
  wpa_eapol_key_mic (ptk_kck K) ver (take n (splice frame off_key_mic (repeat 0 16))).

Context {crypto_ok : WpaCryptoOk}.

Definition version_known (ver : Z) : Prop :=
  ver = WPA_KEY_INFO_TYPE_HMAC_MD5_RC4 ∨ ver = WPA_KEY_INFO_TYPE_HMAC_SHA1_AES.

Lemma splice_splice f off a b : length a = length b → (off + length a ≤ length f)%nat →
  splice (splice f off a) off b = splice f off b.
Proof.
  intros Hl Hf. unfold splice. rewrite take_app_length' by (rewrite length_take; lia).
  f_equal. f_equal. rewrite app_assoc, drop_app_length'; [by rewrite Hl|].
  rewrite length_app, length_take. lia.
Qed.

Lemma splice_self f off n : (off + n ≤ length f)%nat → splice f off (take n (drop off f)) = f.
Proof.
  intros Hf. unfold splice. rewrite length_take, length_drop, Nat.min_l by lia.
  rewrite <-drop_drop, take_drop. apply take_drop.
Qed.

(** [check_mic] on a frame whose MIC field may already have been rewritten. *)
Lemma check_mic_spec K f x n ver :
  version_known ver → (97 ≤ length f)%nat → (n ≤ length f)%nat → length x = 16%nat →
  let mic := take 16 (drop off_key_mic f) in
  ∃ eq m, frame_mic K ver f n = Some m ∧ length m = 16%nat ∧
    check_mic K (splice f off_key_mic x) n ver mic = Ret (eq, splice f off_key_mic m) ∧
    (eq = true ↔ m = mic).
Proof.
  intros Hv Hf Hn Hx mic. unfold off_key_mic in *.
  destruct (mic_total (ptk_kck K) ver (take n (splice f 81 (repeat 0 16))) Hv) as [m Hm].
  pose proof (mic_length _ _ _ _ Hm) as Hlm.
  exists (memcmp mic m =? 0), m. split; [exact Hm|]. split; [done|]. split.
  - unfold check_mic, off_key_mic.
    rewrite (splice_splice f 81 x) by (rewrite ?repeat_length; lia).
    assert (length (splice f 81 (repeat 0 16)) = length f) as Hl0.
    { apply length_splice. rewrite repeat_length. lia. }
    rewrite rdn_ok, run_bind_l, drop_0 by lia. cbv zeta. rewrite Hm.
    rewrite splice_splice by (rewrite ?repeat_length; lia).
    assert (length (splice f 81 m) = length f) as Hl1 by (apply length_splice; lia).
    rewrite rdn_ok, run_bind_l by lia. rewrite <-Hlm at 1. rewrite slice_splice by lia. done.
  - rewrite Z.eqb_eq. split.
    + intros H. symmetry. apply memcmp_eq; [|done]. unfold mic.
      rewrite length_take, length_drop. lia.
    + intros ->. apply memcmp_refl.
Qed.

(** [K] is a key the supplicant holds, provisionally or confirmed. *)
Definition holds_ptk (s : wpa_sys) (K : list Z) : Prop :=
  tptk_set (wsm s) = true ∧ K = tptk (wsm s) ∨ ptk_set (wsm s) = true ∧ K = ptk (wsm s).

(** The session state after a frame [f] has been authenticated with [K]. *)
Definition authenticated (f : list Z) (n : nat) (ver : Z) (s s' : wpa_sys) (K : list Z) : Prop :=
  holds_ptk s K ∧
  frame_mic K ver f n = Some (take 16 (drop off_key_mic f)) ∧
  core s' = (K, true, take 8 (drop off_replay_counter f), true).

Lemma verify_mic_spec f n ver s :
  version_known ver → (99 ≤ length f)%nat → (n ≤ length f)%nat →
  ∃ ok f' s', wpa_supplicant_verify_eapol_key_mic f n ver s = Ret (ok, f', s') ∧
    wout s' = wout s ∧ proto (wsm s') = proto (wsm s) ∧ (ok = false → s' = s) ∧
    (ok = true → f' = f ∧ ∃ K, authenticated f n ver s s' K).
Proof.
  intros Hv Hf Hn. unfold wpa_supplicant_verify_eapol_key_mic.
  rewrite rdn_ok, run_bind_l by (unfold off_key_mic; lia).
  set (mic := take 16 (drop off_key_mic f)).
  assert (length mic = 16%nat) as Hmic.
  { unfold mic. rewrite length_take, length_drop. unfold off_key_mic. lia. }
  assert (splice f off_key_mic mic = f) as Hself by (apply splice_self; unfold off_key_mic; lia).
  assert (∃ ok x s1, length x = 16%nat ∧ (
    (if tptk_set (wsm s) then
       '(eq, frame) ← check_mic (tptk (wsm s)) f n ver mic;
       if (eq : bool) then
         Ret (true, frame, ((s.[tptk_set := false]).[ptk_set := true]).[ptk := tptk (wsm s)])
       else Ret (false, frame, s)
     else Ret (false, f, s)) = Ret (ok, splice f off_key_mic x, s1)) ∧
    (ok = false → s1 = s) ∧
    (ok = true → x = mic ∧ tptk_set (wsm s) = true ∧
       frame_mic (tptk (wsm s)) ver f n = Some mic ∧
       s1 = ((s.[tptk_set := false]).[ptk_set := true]).[ptk := tptk (wsm s)]))
    as (ok & x & s1 & Hx & -> & Hno & Hyes).
  { destruct (tptk_set (wsm s)).
    - destruct (check_mic_spec (tptk (wsm s)) f mic n ver) as (eq & m & Hm & Hlm & Hc & Heq);
        [done|lia|done|done|].
      fold mic in Hc, Heq. rewrite Hself in Hc. rewrite Hc, run_bind_l.
      exists eq, m. destruct eq.
      + eexists. split_and!; [done|done|done|]. intros _. assert (m = mic) as -> by (by apply Heq).
        done.
      + eexists. by split_and!.
    - exists false, mic, s. rewrite Hself. by split_and!. }
  rewrite run_bind_l. destruct ok; simpl negb; cbv beta iota delta [andb].
  - destruct (Hyes eq_refl) as (-> & Hset & Hm & ->). rewrite run_bind_l.
    rewrite Hself.
    rewrite rdn_ok, run_bind_l by (unfold off_replay_counter; lia).
    eexists _, _, _. split; [done|]. split_and!; try done. intros _. split; [done|].
    exists (tptk (wsm s)). split_and!; [by left|done|done].
  - rewrite (Hno eq_refl). clear s1 Hno Hyes. destruct (ptk_set (wsm s)) eqn:Hset.
    2: { rewrite run_bind_l. by eexists _, _, _. }
    destruct (check_mic_spec (ptk (wsm s)) f x n ver) as (eq & m & Hm & Hlm & Hc & Heq);
      [done|lia|done|done|]. fold mic in Hc, Heq. rewrite Hc, run_bind_l. destruct eq; [|by eexists _, _, _].
    assert (m = mic) as -> by (by apply Heq). rewrite Hself.
    rewrite rdn_ok, run_bind_l by (unfold off_replay_counter; lia).
    eexists _, _, _. split; [done|]. split_and!; try done. intros _. split; [done|].
    exists (ptk (wsm s)). split_and!; [by right|done|]. unfold core. cbn. by rewrite Hset.
Qed.

(** *** Reception *)

Lemma dispatch_keep src f ki ver s r s' :
  rx_dispatch src f ki ver s = Ret (r, s') →
  keep (key_of (ptk (wsm s))) s s' ∧ (has ki WPA_KEY_INFO_MIC = false → keep plain s s').
Proof.
  unfold rx_dispatch. intros H. run_inv. revert H.
  assert (keep plain s s) as Hs by done. pose proof (keep_key_of (ptk (wsm s)) s s Hs) as Hk.
  if_branch.
  - if_branch; [by intros [= _ <-]|]. if_branch; intros H; run_inv.
    + split; [by apply process_3_of_4_keep in Hrun0|done].
    + apply process_1_of_4_plain in Hrun0. split; [by apply keep_key_of|done].
  - if_branch; [by intros [= _ <-]|]. if_branch; intros H; run_inv; [|by split].
    split; [by apply process_1_of_2_keep in Hrun0|done].
Qed.

(** The replay counter of [f] is greater than the last accepted one. *)
Definition fresh_counter (f : list Z) (s : wpa_sys) : Prop :=
  rx_replay_counter_set (wsm s) = true →
  0 < memcmp (take 8 (drop off_replay_counter f)) (rx_replay_counter (wsm s)).

Lemma rx_checked_auth src f n ki ver s r s' :
  version_known ver → (99 ≤ length f)%nat → (n ≤ length f)%nat →
  rx_checked src f n ki ver s = Ret (r, s') →
  keep plain s s' ∨
  has ki WPA_KEY_INFO_MIC = true ∧ fresh_counter f s ∧
  ∃ K s1, authenticated f n ver s s1 K ∧ wout s1 = wout s ∧ keep (key_of K) s1 s'.
Proof.
  intros Hv Hf Hn. unfold rx_checked.
  rewrite rdn_ok, run_bind_l by (unfold off_replay_counter; lia).
  destruct (rx_replay_counter_set (wsm s) && _) eqn:Hrep; [intros [= _ <-]; by left|].
  do 2 (if_branch; [intros [= _ <-]; by left|]).
  assert (fresh_counter f s) as Hfresh.
  { intros Hset. rewrite Hset in Hrep. simpl in Hrep. lia. }
  destruct (has ki WPA_KEY_INFO_MIC) eqn:Hmic.
  - destruct (verify_mic_spec f n ver s Hv Hf Hn) as (ok & f' & s1 & -> & Ho & _ & Hno & Hyes).
    rewrite run_bind_l. destruct ok; simpl negb; cbv iota.
    2: { rewrite (Hno eq_refl). intros [= _ <-]. by left. }
    destruct (Hyes eq_refl) as (-> & K & HK). intros H. right. split; [done|]. split; [done|].
    exists K, s1. split; [done|]. split; [done|].
    assert (ptk (wsm s1) = K) as HptkK by (destruct HK as (_ & _ & HK); by injection HK).
    run_inv. revert H. if_branch; [by intros [= _ <-]|]. intros H. run_inv.
    destruct x0 as [f2|]; run_inv; [|done]. by apply dispatch_keep in H as [H _].
  - rewrite run_bind_l. simpl negb. cbv iota. intros H. left.
    run_inv. revert H. if_branch; [by intros [= _ <-]|]. intros H. run_inv.
    destruct x0 as [f2|]; run_inv; [|done]. apply dispatch_keep in H as [_ H]. auto.
Qed.

(** The part of [wpa_sm_rx_eapol] before the replay check. *)
Lemma rx_eapol_cases src buf s r s' :
  wpa_sm_rx_eapol src buf s = Ret (r, s') →
  s' = s ∧ r ≠ 1 ∨
  s' = effect NotifyLowerLayerSuccess s ∧ r = -1 ∨
  ∃ plen ki, (99 ≤ length buf)%nat ∧ (Z.to_nat plen + 4 ≤ length buf)%nat ∧ 95 ≤ plen ∧
    rd_be16 buf 2 = Ret plen ∧ rd_be16 buf off_key_info = Ret ki ∧
    version_known (Z.land ki WPA_KEY_INFO_TYPE_MASK) ∧
    rx_checked src buf (Z.to_nat plen + 4) ki (Z.land ki WPA_KEY_INFO_TYPE_MASK)
      (effect NotifyLowerLayerSuccess s) = Ret (r, s').
Proof.
  unfold wpa_sm_rx_eapol, sizeof_1x_hdr, sizeof_wpa_key. cbv zeta.
  destruct (Nat.ltb_spec (length buf) (4 + 95)); [intros [= <- <-]; by left|].
  if_branch; [intros [= <- <-]; by left|]. intros H'. run_inv. revert H'.
  if_branch; [intros [= <- <-]; by left|].
  destruct (_ || _) eqn:Hlen; [intros [= <- <-]; by left|]. intros H'. run_inv. revert H'.
  if_branch; [intros [= <- <-]; by left|]. intros H'. run_inv. revert H'.
  destruct (version_ok _ _ _) eqn:Hver; simpl negb; cbv iota.
  2: { intros [= <- <-]. right. by left. }
  apply orb_false_iff in Hlen as [Hl1%Z.ltb_ge Hl2%Z.ltb_ge].
  intros H'. right. right. eexists _, _. split_and!; try done; try lia.
  unfold version_ok in Hver. revert Hver. if_branch; [done|]. intros _. unfold version_known.
  apply andb_false_iff in Heqb2 as [H0|H0]; apply negb_false_iff, Z.eqb_eq in H0; auto.
Qed.

(** A received frame either has only plain effects and keeps the session state,
    or was authenticated. *)
Lemma rx_eapol_auth src buf s r s' :
  wpa_sm_rx_eapol src buf s = Ret (r, s') →
  keep plain s s' ∨
  ∃ ki plen K s1, (99 ≤ length buf)%nat ∧ rd_be16 buf off_key_info = Ret ki ∧
    rd_be16 buf 2 = Ret plen ∧ has ki WPA_KEY_INFO_MIC = true ∧ fresh_counter buf s ∧
    authenticated buf (Z.to_nat plen + 4) (Z.land ki WPA_KEY_INFO_TYPE_MASK) s s1 K ∧
    wout s1 = wout s ++ [NotifyLowerLayerSuccess] ∧ keep (key_of K) s1 s'.
Proof.
  intros [[-> _]|[[-> _]|(plen & ki & Hl & Hn & _ & Hp & Hk & Hv & H)]]%rx_eapol_cases.
  - by left.
  - left. by apply keep_effect.
  - set (s0 := effect NotifyLowerLayerSuccess s) in *.
    assert (keep plain s s0) as H0 by (by apply keep_effect).
    destruct (rx_checked_auth src buf _ ki _ s0 r s' Hv Hl Hn H)
      as [Hkeep|(Hmic & Hfr & K & s1 & Hauth & Ho & Hkeep)]; [left; by etrans|].
    right. by exists ki, plen, K, s1.
Qed.

(** The bytes of a frame that only matter for authentication. *)
Lemma replay_rejects src buf s r s' :
  rx_replay_counter_set (wsm s) = true →
  memcmp (take 8 (drop off_replay_counter buf)) (rx_replay_counter (wsm s)) ≤ 0 →
  wpa_sm_rx_eapol src buf s = Ret (r, s') →
  r ≠ 1 ∧ (s' = s ∨ s' = effect NotifyLowerLayerSuccess s).
Proof.
  intros Hset Hold [[-> Hr]|[[-> ->]|(plen & ki & Hl & Hn & _ & _ & _ & _ & H)]]%rx_eapol_cases;
    [by auto|by auto|].
  revert H. unfold rx_checked. rewrite rdn_ok, run_bind_l by (unfold off_replay_counter; lia).
  cbn -[memcmp take drop]. rewrite Hset. rewrite (proj2 (Z.leb_le _ _) Hold).
  intros [= <- <-]. by split; [|right].
Qed.

(** ** Correctness *)

(** C2: whenever a received frame makes the supplicant give the driver a key or
    tell the EAPOL component that the keys are valid, the frame has the MIC bit,
    carries the MIC of a PTK the supplicant holds (over the frame with the MIC
    field zeroed), and has a replay counter greater than the last accepted one;
    afterwards that PTK is the confirmed one and the replay counter is the
    frame's.  Every key set for the access point is a temporal key of that PTK. *)
Theorem wpa_key_install_authentic src buf s r s' :
  wpa_sm_rx_eapol src buf s = Ret (r, s') →
  ∃ l, wout s' = wout s ++ l ∧
    (Exists (λ e, privileged e = true) l →
     ∃ ki plen K, rd_be16 buf off_key_info = Ret ki ∧ rd_be16 buf 2 = Ret plen ∧
       has ki WPA_KEY_INFO_MIC = true ∧ fresh_counter buf s ∧ holds_ptk s K ∧
       frame_mic K (Z.land ki WPA_KEY_INFO_TYPE_MASK) buf (Z.to_nat plen + 4) =
         Some (take 16 (drop off_key_mic buf)) ∧
       core s' = (K, true, take 8 (drop off_replay_counter buf), true) ∧
       Forall (key_of K) l).
Proof.
  intros [[_ (l & Ho & Hl)]|(ki & plen & K & s1 & _ & Hki & Hp & Hmic & Hfr & (HK & Hm & Hc) & Ho1
    & Hc2 & l & Ho & Hl)]%rx_eapol_auth.
  - exists l. split; [done|]. intros (e & He & Hpr)%Exists_exists.
    rewrite Forall_forall in Hl. apply Hl in He. unfold plain in He. congruence.
  - exists (NotifyLowerLayerSuccess :: l). split; [by rewrite Ho, Ho1, <-app_assoc|].
    intros _. exists ki, plen, K. split_and!; try done; [congruence|by constructor].
Qed.

(** A frame without the MIC bit, which anyone can send, changes neither the
    confirmed PTK nor the replay counter, sets no key in the driver and does not
    report valid keys; in particular message 1/4 only replaces the provisional
    PTK. *)
Theorem wpa_unauthenticated_harmless src buf s r s' ki :
  rd_be16 buf off_key_info = Ret ki → has ki WPA_KEY_INFO_MIC = false →
  wpa_sm_rx_eapol src buf s = Ret (r, s') →
  core s' = core s ∧ ∃ l, wout s' = wout s ++ l ∧ Forall (λ e, privileged e = false) l.
Proof.
  intros Hki Hmic [H|(ki' & plen & K & s1 & _ & Hki' & _ & Hmic' & _)]%rx_eapol_auth; [exact H|].
  congruence.
Qed.

(** Once a replay counter has been accepted, a frame whose counter (as a
    big-endian number) is not greater is not processed: the whole state is kept,
    no frame is sent and no key is set. *)
Theorem wpa_replay_rejected src buf s r s' :
  rx_replay_counter_set (wsm s) = true →
  bytes_ok (rx_replay_counter (wsm s)) → length (rx_replay_counter (wsm s)) = 8%nat →
  bytes_ok buf → (17 ≤ length buf)%nat →
  be_val (take 8 (drop off_replay_counter buf)) ≤ be_val (rx_replay_counter (wsm s)) →
  wpa_sm_rx_eapol src buf s = Ret (r, s') →
  r ≠ 1 ∧ wsm s' = wsm s ∧ wstate s' = wstate s ∧
  (wout s' = wout s ∨ wout s' = wout s ++ [NotifyLowerLayerSuccess]).
Proof.
  intros Hset Hb Hl Hbuf H17 Hle H.
  assert (memcmp (take 8 (drop off_replay_counter buf)) (rx_replay_counter (wsm s)) ≤ 0) as Hm.
  { assert (length (take 8 (drop off_replay_counter buf)) = 8%nat) as Hlen.
    { rewrite length_take, length_drop. unfold off_replay_counter. lia. }
    apply memcmp_le_be; [by apply Forall_take, Forall_drop|done|lia|done]. }
  destruct (replay_rejects src buf s r s' Hset Hm H) as [Hr [-> | ->]]; (split; [done|]);
    split_and!; auto.
Qed.

(** ** Memory safety *)

Lemma rd_be16_ok buf off :
  bytes_ok buf → (off + 2 ≤ length buf)%nat → ∃ v, rd_be16 buf off = Ret v ∧ 0 ≤ v < 65536.
Proof.
  intros Hb Hl. unfold rd_be16.
  destruct (rd_byte buf Hb off) as (a & -> & Ha); [lia|].
  destruct (rd_byte buf Hb (off + 1)) as (b & -> & Hb'); [lia|]. rewrite !run_bind_l.
  exists (be16 a b). split; [done|]. rewrite be16_val by lia. lia.
Qed.

(** A frame whose key data lies inside it. *)
Definition good (f : list Z) : Prop :=
  bytes_ok f ∧ (99 ≤ length f)%nat ∧
  ∃ n, rd_be16 f off_key_data_length = Ret n ∧ 0 ≤ n < 65536 ∧ 99 + n ≤ Z.of_nat (length f).

Lemma good_parse f n :
  good f → rd_be16 f off_key_data_length = Ret n →
  ∃ z ie, wpa_supplicant_parse_ies (drop off_key_data f) (Z.to_nat n) = Ret (z, ie) ∧ ie_ok ie.
Proof.
  intros (Hb & Hl & n' & Hn' & Hr & Hle) Hn. rewrite Hn in Hn'. injection Hn' as <-.
  apply parse_ies_spec; [by apply Forall_drop|]. rewrite length_drop. unfold off_key_data. lia.
Qed.

Lemma reply_key_length_total f s : (99 ≤ length f)%nat → ∃ d, reply_key_length f s = Ret d.
Proof.
  intros Hl. unfold reply_key_length. destruct (proto (wsm s)); [|eauto].
  rewrite rdn_ok by (unfold off_key_length; lia). eauto.
Qed.

Lemma answer_total f ver s : (99 ≤ length f)%nat → ∃ s', process_1_of_4_answer f ver s = Ret s'.
Proof.
  intros Hl. unfold process_1_of_4_answer.
  match goal with |- context [let '(_, _) := ?x in _] => destruct x as [ok0 s1] end.
  destruct ok0; simpl negb; cbv iota; [|eauto].
  rewrite rdn_ok, run_bind_l by (unfold off_key_nonce; lia). cbv zeta.
  match goal with |- context [wpa_supplicant_send_2_of_4 ?a ?b ?c ?d ?e ?g ?h] =>
    assert (∃ r, wpa_supplicant_send_2_of_4 a b c d e g h = Ret r) as ([ok s2] & ->) end.
  { unfold wpa_supplicant_send_2_of_4. destruct (assoc_wpa_ie _); [|eauto].
    destruct (wpa_sm_alloc_eapol _ _); [|eauto].
    match goal with |- context [reply_key_length f ?x] =>
      destruct (reply_key_length_total f x Hl) as (d & ->) end.
    rewrite run_bind_l, rdn_ok, run_bind_l by (unfold off_replay_counter; lia). eauto. }
  rewrite run_bind_l. destruct ok; eauto.
Qed.

Lemma process_1_of_4_total src f ver s :
  good f → ∃ s', wpa_supplicant_process_1_of_4 src f ver s = Ret s'.
Proof.
  intros Hg. unfold wpa_supplicant_process_1_of_4. if_branch; [eauto|]. cbv zeta.
  pose proof Hg as (_ & Hl & n & Hn & _). rewrite Hn, run_bind_l.
  destruct (good_parse f n Hg Hn) as (z & ie & -> & _). rewrite run_bind_l.
  match goal with |- context [if ?b then Ret ie else Ret no_ies] =>
    assert (∃ i, (if b then Ret ie else Ret no_ies) = Ret i) as (i & ->) by (destruct b; eauto) end.
  rewrite run_bind_l. destruct (wpa_supplicant_get_pmk _ _ _) as [r s1].
  if_branch; [eauto|]. if_branch; [eauto|]. by apply answer_total.
Qed.

Lemma send_4_of_4_total dst f ver ki p s :
  (99 ≤ length f)%nat → ∃ r, wpa_supplicant_send_4_of_4 dst f ver ki p s = Ret r.
Proof.
  intros Hl. unfold wpa_supplicant_send_4_of_4. destruct (wpa_sm_alloc_eapol _ _); [|eauto].
  cbv zeta. destruct (reply_key_length_total f s Hl) as (d & ->).
  rewrite run_bind_l, rdn_ok, run_bind_l by (unfold off_replay_counter; lia). eauto.
Qed.

Lemma send_2_of_2_total f ver ki s :
  (99 ≤ length f)%nat → ∃ r, wpa_supplicant_send_2_of_2 f ver ki s = Ret r.
Proof.
  intros Hl. unfold wpa_supplicant_send_2_of_2. destruct (wpa_sm_alloc_eapol _ _); [|eauto].
  cbv zeta. destruct (reply_key_length_total f s Hl) as (d & ->).
  rewrite run_bind_l, rdn_ok, run_bind_l by (unfold off_replay_counter; lia). eauto.
Qed.

Lemma pairwise_gtk_total f g ki s :
  (99 ≤ length f)%nat → ∃ r, wpa_supplicant_pairwise_gtk f g ki s = Ret r.
Proof.
  intros Hl. unfold wpa_supplicant_pairwise_gtk.
  destruct ((length g <? 2)%nat || _) eqn:Hg; [eauto|].
  apply orb_false_iff in Hg as [Hg%Nat.ltb_ge _].
  destruct (rd_lt g 0) as (g0 & -> & _); [lia|]. rewrite run_bind_l. cbv zeta.
  destruct (wpa_supplicant_check_group_cipher _ _ _) as [[rl alg]|]; [|eauto].
  rewrite rdn_ok, run_bind_l by (unfold off_key_rsc; lia).
  destruct (wpa_supplicant_install_gtk _ _ _) as [ok s1]. if_branch; eauto.
Qed.

Lemma install_ptk_total f s :
  (99 ≤ length f)%nat → ∃ r, wpa_supplicant_install_ptk f s = Ret r.
Proof.
  intros Hl. unfold wpa_supplicant_install_ptk. cbv zeta.
  match goal with |- context [match ?x with Some _ => _ | None => _ end] =>
    destruct x as [[[alg n] rn]|] end; [|eauto].
  assert (∃ d, match proto (wsm s) with
               | WPA_PROTO_RSN => Ret (repeat 0 8)
               | WPA_PROTO_WPA => rdn f off_key_rsc 8
               end = Ret d) as (d & Hd).
  { destruct (proto (wsm s)); [|eauto]. rewrite rdn_ok by (unfold off_key_rsc; lia). eauto. }
  destruct (proto (wsm s)); rewrite Hd, run_bind_l; unfold wpa_sm_set_key;
    (if_branch; [eauto|]); (if_branch; eauto).
Qed.

Lemma install_3_of_4_total f ki ie s :
  (99 ≤ length f)%nat → ∃ s', process_3_of_4_install f ki ie s = Ret s'.
Proof.
  intros Hl. unfold process_3_of_4_install. cbv zeta.
  match goal with |- context [if has ki WPA_KEY_INFO_INSTALL then ?a else ?b] =>
    assert (∃ r, (if has ki WPA_KEY_INFO_INSTALL then a else b) = Ret r) as ([ok s1] & ->) end.
  { if_branch; [by apply install_ptk_total|eauto]. }
  rewrite run_bind_l. if_branch; [eauto|].
  match goal with |- context [match gtk ie with Some _ => _ | None => ?b end] =>
    assert (∃ r, match gtk ie with
                 | Some g => wpa_supplicant_pairwise_gtk f g ki
                     (wpa_sm_set_state WPA_GROUP_HANDSHAKE
                        (if has ki WPA_KEY_INFO_SECURE
                         then effect (NotifyPortValid true) (effect (SetProtection true) s1) else s1))
                 | None => b
                 end = Ret r) as ([ok2 s2] & ->) end.
  { destruct (gtk ie); [by apply pairwise_gtk_total|eauto]. }
  rewrite run_bind_l. if_branch; eauto.
Qed.

Lemma process_3_of_4_total f ver s : good f → ∃ s', wpa_supplicant_process_3_of_4 f ver s = Ret s'.
Proof.
  intros Hg. unfold wpa_supplicant_process_3_of_4. cbv zeta.
  pose proof Hg as (Hb & Hl & n & Hn & _).
  destruct (rd_be16_ok f off_key_info) as (ki & -> & _); [done|unfold off_key_info; lia|].
  rewrite run_bind_l, Hn, run_bind_l.
  destruct (good_parse f n Hg Hn) as (z & ie & -> & _). rewrite run_bind_l.
  match goal with |- context [process_3_of_4_checks f ki ie ?x] =>
    assert (∃ r, process_3_of_4_checks f ki ie x = Ret r) as ([ok1 s1] & ->) end.
  { unfold process_3_of_4_checks. if_branch; [eauto|].
    destruct (wpa_supplicant_validate_ie _ _) as [okv sv]. if_branch; [eauto|].
    rewrite rdn_ok, run_bind_l by (unfold off_key_nonce; lia). if_branch; [eauto|].
    destruct (rd_be16_ok f off_key_length) as (kl & -> & _); [done|unfold off_key_length; lia|].
    rewrite run_bind_l. eauto. }
  rewrite run_bind_l. if_branch; [eauto|].
  destruct (send_4_of_4_total (bssid (wsm s1)) f ver ki (ptk (wsm s1)) s1 Hl) as ([ok2 s2] & ->).
  rewrite run_bind_l. if_branch; [eauto|]. by apply install_3_of_4_total.
Qed.

Lemma process_1_of_2_rsn_total f n ki s :
  good f → rd_be16 f off_key_data_length = Ret n →
  ∃ r, wpa_supplicant_process_1_of_2_rsn f (Z.to_nat n) ki s = Ret r.
Proof.
  intros Hg Hn. unfold wpa_supplicant_process_1_of_2_rsn.
  destruct (good_parse f n Hg Hn) as (z & ie & -> & _ & Hok). rewrite run_bind_l.
  destruct (gtk ie) as [g|] eqn:Hgtk; [|eauto]. specialize (Hok g eq_refl).
  if_branch; [eauto|]. cbv zeta.
  destruct (wpa_supplicant_check_group_cipher _ _ _) as [[rl alg]|]; [|eauto].
  destruct (rd_lt g 0) as (g0 & -> & _); [lia|]. rewrite run_bind_l. if_branch; eauto.
Qed.

Lemma rc4_total iv kek skip d : length iv = 16%nat → ∃ d', rc4_skip (iv ++ kek) skip d = Ret d'.
Proof. intros Hiv. apply rc4_skip_total. by destruct iv. Qed.

Lemma process_1_of_2_wpa_total f n el ki ver s :
  good f → rd_be16 f off_key_data_length = Ret n →
  ∃ r, wpa_supplicant_process_1_of_2_wpa f (Z.to_nat n) el ki ver s = Ret r.
Proof.
  intros (Hb & Hl & n' & Hn' & Hr & Hle) Hn. rewrite Hn in Hn'. injection Hn' as <-.
  unfold wpa_supplicant_process_1_of_2_wpa.
  destruct (rd_be16_ok f off_key_length) as (gl & -> & _); [done|unfold off_key_length; lia|].
  rewrite run_bind_l. if_branch; [eauto|]. cbv zeta.
  destruct (_ && (Z.to_nat n <? 8)%nat) eqn:H8; [eauto|].
  destruct (wpa_supplicant_check_group_cipher _ _ _) as [[rl alg]|]; [|eauto].
  if_branch.
  - rewrite (rdn_ok f off_key_iv), run_bind_l by (unfold off_key_iv; lia). if_branch; [eauto|].
    rewrite (rdn_ok f off_key_data), run_bind_l by (unfold off_key_data; lia).
    match goal with |- context [rc4_skip (?a ++ ?b) 256 ?d] =>
      destruct (rc4_total a b 256 d) as (d' & ->) end.
    { rewrite length_take, length_drop. unfold off_key_iv. lia. }
    rewrite run_bind_l. eauto.
  - destruct (ver =? WPA_KEY_INFO_TYPE_HMAC_SHA1_AES); [|eauto].
    simpl in H8. apply Nat.ltb_ge in H8. destruct (negb _) eqn:Hmod; [eauto|].
    apply negb_false_iff, Nat.eqb_eq in Hmod. if_branch; [eauto|].
    rewrite rdn_ok, run_bind_l.
    2: { unfold off_key_data. pose proof (Nat.div_mod (Z.to_nat n - 8) 8 ltac:(lia)).
         pose proof (Nat.div_mod (Z.to_nat n) 8 ltac:(lia)).
         replace (Z.to_nat n) with ((Z.to_nat n - 8) + 1 * 8)%nat in Hmod by lia.
         rewrite Nat.Div0.mod_add in Hmod. lia. }
    destruct (aes_unwrap _ _ _); eauto.
Qed.

Lemma process_1_of_2_total f el ver s :
  good f → ∃ s', wpa_supplicant_process_1_of_2 f el ver s = Ret s'.
Proof.
  intros Hg. unfold wpa_supplicant_process_1_of_2. cbv zeta.
  pose proof Hg as (Hb & Hl & n & Hn & _).
  destruct (rd_be16_ok f off_key_info) as (ki & -> & _); [done|unfold off_key_info; lia|].
  rewrite run_bind_l, Hn, run_bind_l.
  assert (∃ gd, match proto (wsm s) with
       | WPA_PROTO_RSN => wpa_supplicant_process_1_of_2_rsn f (Z.to_nat n) ki s
       | WPA_PROTO_WPA => wpa_supplicant_process_1_of_2_wpa f (Z.to_nat n) el ki ver s
       end = Ret gd) as (gd & Hgd).
  { destruct (proto (wsm s)); [by apply process_1_of_2_wpa_total|by apply process_1_of_2_rsn_total]. }
  destruct (proto (wsm s)); rewrite Hgd, run_bind_l; clear Hgd; (destruct gd as [gd|]; [|eauto]);
    (rewrite rdn_ok, run_bind_l by (unfold off_key_rsc; lia));
    (destruct (wpa_supplicant_install_gtk _ _ _) as [ok s1]; if_branch; [eauto|]);
    (destruct (send_2_of_2_total f ver ki s1 Hl) as ([ok2 s2] & ->); rewrite run_bind_l);
    (if_branch; [eauto|]); if_branch; eauto.
Qed.

Lemma put_be16_rd f off z :
  (off + 2 ≤ length f)%nat → rd_be16 (splice f off (put_be16 z)) off = Ret (u16 z).
Proof.
  intros Hl. unfold rd_be16, rd, splice.
  assert (length (take off f) = off) as Ht by (rewrite length_take; lia).
  rewrite !(lookup_app_r (take off f)) by lia. rewrite Ht, Nat.sub_diag.
  replace (off + 1 - off)%nat with 1%nat by lia. cbn -[u8 u16 be16 drop].
  rewrite be16_val by apply u8_byte. f_equal. unfold u8, u16. rewrite Z.shiftr_div_pow2 by lia.
  pose proof (Z.div_mod (z mod 2 ^ 16) (2 ^ 8) ltac:(lia)).
  pose proof (Z.mod_pos_bound z (2 ^ 16) ltac:(lia)).
  assert ((z mod 2 ^ 16) mod 2 ^ 8 = z mod 2 ^ 8) as <-.
  { apply Z.mod_mod_divide. by exists (2 ^ 8). }
  rewrite (Z.mod_small ((z mod 2 ^ 16) / 2 ^ 8)); [lia|].
  split; [apply Z.div_pos; lia|apply Z.div_lt_upper_bound; lia].
Qed.

Lemma put_be16_bytes z : bytes_ok (put_be16 z).
Proof. repeat constructor; apply u8_byte. Qed.

Lemma decrypt_rc4_spec f n d s :
  good f → rd_be16 f off_key_data_length = Ret n →
  rc4_skip (take 16 (drop off_key_iv f) ++ ptk_kek (ptk (wsm s))) 256
    (take (Z.to_nat n) (drop off_key_data f)) = Ret d →
  good (splice f off_key_data d).
Proof.
  intros (Hb & Hl & n' & Hn' & Hr & Hle) Hn Hd. rewrite Hn in Hn'. injection Hn' as <-.
  apply rc4_skip_bytes in Hd as [Hdb Hdl].
  2: { intros Hnil%(f_equal length). rewrite length_app, (length_take (drop _ f)), length_drop in Hnil.
       change (length []) with 0%nat in Hnil. unfold off_key_iv in Hnil. lia. }
  2: by apply Forall_take, Forall_drop.
  rewrite length_take, length_drop in Hdl. unfold off_key_data in *.
  assert (length (splice f 99 d) = length f) as Hlen by (apply length_splice; lia).
  split; [by apply bytes_ok_splice|]. split; [lia|]. exists n. split_and!; [|lia..].
  revert Hn. unfold rd_be16, off_key_data_length. rewrite !rd_splice_before by lia. done.
Qed.

(** Decrypting non-empty key data is in bounds and gives a good frame. *)
Lemma decrypt_spec f n ver s :
  good f → rd_be16 f off_key_data_length = Ret n → n ≠ 0 →
  ∃ r, wpa_supplicant_decrypt_key_data f ver s = Ret r ∧ ∀ f', r = Some f' → good f'.
Proof.
  intros Hg Hn Hn0. pose proof Hg as (Hb & Hl & n' & Hn' & Hr & Hle).
  rewrite Hn in Hn'. injection Hn' as <-.
  unfold wpa_supplicant_decrypt_key_data. rewrite Hn, run_bind_l.
  if_branch; [by exists None|]. if_branch.
  - rewrite (rdn_ok f off_key_iv), run_bind_l by (unfold off_key_iv; lia).
    rewrite (rdn_ok f off_key_data), run_bind_l by (unfold off_key_data; lia).
    destruct (rc4_total (take 16 (drop off_key_iv f)) (ptk_kek (ptk (wsm s))) 256
                (take (Z.to_nat n) (drop off_key_data f))) as (d & Hd).
    { rewrite length_take, length_drop. unfold off_key_iv. lia. }
    rewrite Hd, run_bind_l. eexists. split; [done|]. intros f' [= <-].
    by eapply decrypt_rc4_spec.
  - if_branch; [|by exists None]. if_branch; [by exists None|]. cbv zeta.
    apply negb_false_iff, Z.eqb_eq in Heqb2.
    assert (u16 (n - 8) = n - 8) as ->.
    { apply u16_small. unfold is_u16. pose proof (Z.div_mod n 8 ltac:(lia)). lia. }
    assert (8 * ((n - 8) / 8 + 1) = n) as Hdiv.
    { pose proof (Z.div_mod n 8 ltac:(lia)). replace (n - 8) with (n + (-1) * 8) by lia.
      rewrite Z.div_add by lia. lia. }
    if_branch; [by exists None|]. rewrite Hdiv.
    rewrite rdn_ok, run_bind_l by (unfold off_key_data; lia).
    destruct (aes_unwrap _ _ _) as [d|] eqn:Hd; [|by exists None].
    eexists. split; [done|]. intros f' [= <-].
    pose proof (unwrap_length _ _ _ _ Hd) as Hdl. apply unwrap_bytes in Hd as Hdb.
    2: by apply Forall_take, Forall_drop.
    assert (0 ≤ (n - 8) / 8) as Hpos by lia. unfold off_key_data, off_key_data_length in *.
    assert (length (splice f 99 d) = length f) as Hl1 by (apply length_splice; lia).
    assert (length (splice (splice f 99 d) 97 (put_be16 (n - 8))) = length f) as Hl2.
    { rewrite length_splice; [done|]. simpl. lia. }
    split; [apply bytes_ok_splice; [by apply bytes_ok_splice|apply put_be16_bytes]|].
    split; [lia|]. exists (n - 8). unfold off_key_data_length.
    rewrite put_be16_rd by lia. rewrite u16_small by (unfold is_u16; lia). split_and!; [done|lia..].
Qed.

Lemma dispatch_total src f ki ver s : good f → ∃ r, rx_dispatch src f ki ver s = Ret r.
Proof.
  intros Hg. unfold rx_dispatch. pose proof Hg as (_ & _ & n & -> & _). rewrite run_bind_l.
  if_branch.
  - if_branch; [eauto|]. if_branch.
    + destruct (process_3_of_4_total f ver s Hg) as (s' & ->). rewrite run_bind_l. eauto.
    + destruct (process_1_of_4_total src f ver s Hg) as (s' & ->). rewrite run_bind_l. eauto.
  - if_branch; [eauto|]. if_branch; [|eauto].
    destruct (process_1_of_2_total f (Z.to_nat n) ver s Hg) as (s' & ->). rewrite run_bind_l. eauto.
Qed.

(** The frame asks for the decryption of empty key data. *)
Definition empty_encrypted (buf : list Z) : Prop :=
  ∃ ki, rd_be16 buf off_key_info = Ret ki ∧ has ki WPA_KEY_INFO_ENCR_KEY_DATA = true ∧
    rd_be16 buf off_key_data_length = Ret 0.

Lemma rx_checked_total src f n ki ver s :
  version_known ver → bytes_ok f → (99 ≤ length f)%nat → (99 ≤ n ≤ length f)%nat →
  rd_be16 f off_key_info = Ret ki → ¬ empty_encrypted f →
  ∃ r, rx_checked src f n ki ver s = Ret r.
Proof.
  intros Hv Hb Hl Hn Hki Hne. unfold rx_checked.
  rewrite rdn_ok, run_bind_l by (unfold off_replay_counter; lia).
  do 3 (if_branch; [eauto|]).
  assert (∃ ok f' s1, (if has ki WPA_KEY_INFO_MIC
      then wpa_supplicant_verify_eapol_key_mic f n ver s else Ret (true, f, s)) = Ret (ok, f', s1) ∧
      (ok = true → f' = f)) as (ok & f' & s1 & Hver & Hf').
  { if_branch; [|by exists true, f, s].
    destruct (verify_mic_spec f n ver s Hv Hl ltac:(lia)) as (ok & f' & s1 & H1 & _ & _ & _ & H2).
    exists ok, f', s1. split; [done|]. by intros [-> _]%H2. }
  rewrite Hver, run_bind_l. destruct ok; [|simpl; eauto]. rewrite (Hf' eq_refl). clear f' Hf' Hver.
  simpl negb. cbv zeta iota.
  destruct (rd_be16_ok f off_key_data_length) as (k & Hk & Hkr); [done|unfold off_key_data_length; lia|].
  rewrite Hk, run_bind_l. destruct (Z.ltb_spec (Z.of_nat (n - sizeof_1x_hdr - sizeof_wpa_key)) k); [eauto|].
  assert (good f) as Hg.
  { split; [done|]. split; [done|]. exists k. unfold sizeof_1x_hdr, sizeof_wpa_key in *.
    split_and!; [done|lia..]. }
  match goal with |- context [if ?b then wpa_supplicant_decrypt_key_data f ver s1 else ?c] =>
    assert (∃ r, (if b then wpa_supplicant_decrypt_key_data f ver s1 else c) = Ret r ∧
      ∀ f', r = Some f' → good f') as (r & Hr & Hgr) end.
  { destruct (bool_decide _ && has ki WPA_KEY_INFO_ENCR_KEY_DATA) eqn:He.
    - apply andb_true_iff in He as [_ He]. apply (decrypt_spec f k); [done|done|].
      intros ->. apply Hne. by exists ki.
    - eexists. split; [done|]. by intros f' [= <-]. }
  rewrite Hr, run_bind_l. destruct r as [f'|]; [|eauto]. apply dispatch_total. by apply Hgr.
Qed.

(** C22: for every received frame, whatever the environment does,
    [wpa_sm_rx_eapol] stays inside the frame and returns, except on frames that
    ask for the decryption of empty key data. *)
Theorem wpa_rx_eapol_safe src buf s :
  bytes_ok buf → ¬ empty_encrypted buf → ∃ r s', wpa_sm_rx_eapol src buf s = Ret (r, s').
Proof.
  intros Hb Hne. unfold wpa_sm_rx_eapol, sizeof_1x_hdr, sizeof_wpa_key. cbv zeta.
  destruct (Nat.ltb_spec (length buf) (4 + 95)); [eauto|]. if_branch; [eauto|].
  destruct (rd_lt buf 1) as (ty & -> & _); [lia|]. rewrite run_bind_l.
  destruct (rd_be16_ok buf 2) as (plen & -> & Hp); [done|lia|]. rewrite run_bind_l.
  if_branch; [eauto|]. destruct (_ || _) eqn:Hlen; [eauto|].
  apply orb_false_iff in Hlen as [Hl1%Z.ltb_ge Hl2%Z.ltb_ge].
  destruct (rd_lt buf off_type) as (kt & -> & _); [unfold off_type; lia|]. rewrite run_bind_l.
  if_branch; [eauto|].
  destruct (rd_be16_ok buf off_key_info) as (ki & Hki & _); [done|unfold off_key_info; lia|].
  rewrite Hki, run_bind_l. set (s0 := effect NotifyLowerLayerSuccess s).
  destruct (version_ok _ _ _) eqn:Hver; simpl negb; cbv iota; [|eauto].
  destruct (rx_checked_total src buf (Z.to_nat plen + 4) ki (Z.land ki WPA_KEY_INFO_TYPE_MASK) s0)
    as ([r s'] & ->); [|done|lia|lia|done|done|eauto].
  revert Hver. unfold version_ok. if_branch; [done|]. intros _. unfold version_known.
  apply andb_false_iff in Heqb2 as [H0|H0]; apply negb_false_iff, Z.eqb_eq in H0; auto.
Qed.

(** C40: once a PTK is set, an RSN frame without a MIC, from anyone, that claims
    encrypted key data of length zero makes [wpa_supplicant_decrypt_key_data]
    subtract 8 from a 16-bit zero and read 65536 bytes of the frame, past its
    end. *)
Theorem wpa_empty_key_data_overread src buf s plen ki :
  env_malloc env = true → env_malloc_unwrap env = true → proto (wsm s) = WPA_PROTO_RSN → ptk_set (wsm s) = true →
  pairwise_cipher (wsm s) = WPA_CIPHER_CCMP →
  99 ≤ Z.of_nat (length buf) < 99 + 65536 → rd buf 1 = Ret TYPE_EAPOL_KEY → rd buf off_type = Ret KEY_TYPE_RSN →
  rd_be16 buf 2 = Ret plen → 95 ≤ plen ≤ Z.of_nat (length buf) - 4 →
  rd_be16 buf off_key_info = Ret ki →
  Z.land ki WPA_KEY_INFO_TYPE_MASK = WPA_KEY_INFO_TYPE_HMAC_SHA1_AES →
  has ki WPA_KEY_INFO_ACK = true → has ki WPA_KEY_INFO_REQUEST = false →
  has ki WPA_KEY_INFO_MIC = false → has ki WPA_KEY_INFO_ENCR_KEY_DATA = true →
  fresh_counter buf s → rd_be16 buf off_key_data_length = Ret 0 →
  wpa_sm_rx_eapol src buf s = UB OutOfBounds.
Proof.
  intros Hm Hmu Hp Hset Hcc Hl Hty Hkt Hpl Hplr Hki Hver Hack Hreq Hmic Henc Hfr Hk.
  unfold wpa_sm_rx_eapol, sizeof_1x_hdr, sizeof_wpa_key. cbv zeta.
  rewrite (proj2 (Nat.ltb_ge (length buf) (4 + 95))), Hm, Hty, run_bind_l, Hpl, run_bind_l by lia.
  simpl negb. cbv iota.
  rewrite (proj2 (Z.ltb_ge (Z.of_nat (length buf) - Z.of_nat 4) plen)) by lia.
  rewrite (proj2 (Z.ltb_ge plen (Z.of_nat 95))) by lia.
  rewrite Hkt, run_bind_l, Hki, run_bind_l, Hver. simpl orb. simpl negb. cbv iota.
  set (s0 := effect _ s).
  assert (version_ok ki WPA_KEY_INFO_TYPE_HMAC_SHA1_AES s0 = true) as ->.
  { unfold version_ok. change (pairwise_cipher (wsm s0)) with (pairwise_cipher (wsm s)).
    by rewrite Hcc. }
  simpl negb. cbv iota. unfold rx_checked.
  rewrite rdn_ok, run_bind_l by (unfold off_replay_counter; lia).
  assert (rx_replay_counter_set (wsm s0) &&
    (memcmp (take 8 (drop off_replay_counter buf)) (rx_replay_counter (wsm s0)) <=? 0) = false) as ->.
  { cbn -[memcmp take drop]. destruct (rx_replay_counter_set (wsm s)) eqn:Hs; [|done].
    simpl andb. apply Z.leb_gt. by apply Hfr. }
  assert (has ki (Z.lor WPA_KEY_INFO_ACK WPA_KEY_INFO_SMK_MESSAGE) = true) as ->.
  { revert Hack. unfold has. rewrite !negb_true_iff, !Z.eqb_neq. intros Ha Hz. apply Ha.
    rewrite Z.land_lor_distr_r in Hz. by apply Z.lor_eq_0_iff in Hz as [? _]. }
  rewrite Hreq, Hmic, run_bind_l, Hk, run_bind_l, Henc. simpl negb. cbv zeta iota.
  rewrite (proj2 (Z.ltb_ge _ 0)) by lia. change (proto (wsm s0)) with (proto (wsm s)). rewrite Hp.
  rewrite bool_decide_true by done. simpl andb. cbv iota.
  unfold wpa_supplicant_decrypt_key_data. rewrite Hk, run_bind_l.
  change (ptk_set (wsm s0)) with (ptk_set (wsm s)). rewrite Hset, Hmu. simpl negb. cbv zeta iota.
  change (Z.to_nat (8 * (u16 (0 - 8) / 8 + 1))) with (Z.to_nat 65536). unfold rdn, off_key_data.
  replace (99 + Z.to_nat 65536 <=? length buf)%nat with false; [done|]. symmetry.
  apply Nat.leb_gt. lia.
Qed.
End wpa.

(** ** Instances

    A crypto suite with the sizes the handshake relies on and an empty PMKSA
    cache. *)

Module Demo.

#[global] Instance demo_crypto : WpaCrypto := {|
  wpa_eapol_key_mic k _ b := hmac_md5 (repeat 0 64) k b;
  wpa_pmk_to_ptk p _ _ _ _ l _ := resize l 7 [];
  aes_unwrap _ n c := Some (resize (8 * n) 0 (drop 8 c))
|}.

Lemma resize_bytes n l : bytes_ok l → bytes_ok (resize n 0 l).
Proof. intros Hl. apply Forall_resize; [by split|done]. Qed.

#[global] Instance demo_crypto_ok : WpaCryptoOk.
Proof.
  split; simpl.
  - intros k v b m. apply length_hmac_md5.
  - intros. apply length_resize.
  - intros k n c p [= <-]. apply length_resize.
  - intros k n c p Hc [= <-]. by apply resize_bytes, Forall_drop.
  - intros k v b _. unfold hmac_md5, hmac_md5_vector. simpl. eauto.
Qed.

#[global] Instance demo_cache : PmksaCache unit := {|
  pmksa_cache_get _ _ _ := None;
  pmksa_cache_entry _ _ := None;
  pmksa_cache_add c _ _ _ _ _ _ := (c, []);
  pmksa_mark_valid c _ := c
|}.

Definition demo_env : wpa_env :=
  WpaEnv true true true 2 (true, repeat 5 32) 0 true true None None None (λ _ _, 0) (repeat 0 6).

(** Message 1/4 has been answered: a provisional PTK of bytes 7. *)
Definition mid_handshake : @wpa_sys unit :=
  WpaSys (WpaSm (repeat 1 32) 32 (repeat 0 64) (repeat 7 64) false true (repeat 5 32) (repeat 3 32)
            false (repeat 0 8) false (repeat 0 8) None 0 0 (repeat 2 6) (repeat 4 6) WPA_PROTO_RSN
            WPA_CIPHER_CCMP WPA_CIPHER_CCMP WPA_KEY_MGMT_PSK true (Some [48; 0]) None None)
    tt WPA_4WAY_HANDSHAKE [].

(** An EAPOL-Key frame of version 2 without key data, and its signed form. *)
Definition key_frame (info : Z) (counter : Z) : list Z :=
  [2; 3; 0; 95; 2] ++ put_be16 info ++ [0; 16; 0; 0; 0; 0; 0; 0; 0; counter] ++ repeat 3 32 ++
  repeat 0 16 ++ repeat 0 8 ++ repeat 0 8 ++ repeat 0 16 ++ [0; 0].
Definition signed (K f : list Z) : list Z :=
  match frame_mic K 2 f (length f) with Some m => splice f off_key_mic m | None => f end.

(** Message 3/4: pairwise, install, ack, MIC, secure. *)
Definition msg3 : list Z := signed (repeat 7 64) (key_frame 0x3ca 1).

Definition after_msg3 : @wpa_sys unit :=
  match wpa_sm_rx_eapol demo_env (repeat 4 6) msg3 mid_handshake with
  | Ret (_, s) => s | _ => mid_handshake end.

Lemma wpa_key_install_authentic_witness :
  ∃ l, wout after_msg3 = wout mid_handshake ++ l ∧ Exists (λ e, privileged e = true) l ∧
    holds_ptk mid_handshake (ptk (wsm after_msg3)).
Proof.
  destruct (wpa_key_install_authentic demo_env (repeat 4 6) msg3 mid_handshake 1 after_msg3)
    as (l & Hl & Hex); [vm_compute; reflexivity|].
  exists l. split; [exact Hl|].
  assert (wout after_msg3 = l) as Hl' by (change l with (wout mid_handshake ++ l); exact Hl).
  assert (Exists (λ e, privileged e = true) l) as Hp.
  { rewrite <-Hl'. apply (bool_decide_unpack _). vm_compute. exact I. }
  split; [exact Hp|]. destruct (Hex Hp) as (ki & plen & K & _ & _ & _ & _ & HK & _ & Hc & _).
  assert (ptk (wsm after_msg3) = K) as -> by exact (f_equal (λ c, c.1.1.1) Hc). exact HK.
Defined.

Lemma wpa_unauthenticated_harmless_witness :
  ∃ s', wpa_sm_rx_eapol demo_env (repeat 4 6) (key_frame 0x8a 2) after_msg3 = Ret (1, s') ∧
    core s' = core after_msg3.
Proof.
  eexists. split; [vm_compute; reflexivity|].
  apply (wpa_unauthenticated_harmless demo_env (repeat 4 6) (key_frame 0x8a 2) after_msg3 1 _ 0x8a);
    vm_compute; reflexivity.
Defined.

Definition after_replay : @wpa_sys unit :=
  effect NotifyLowerLayerSuccess after_msg3.

Lemma wpa_replay_rejected_witness :
  wpa_sm_rx_eapol demo_env (repeat 4 6) msg3 after_msg3 = Ret (-1, after_replay) ∧
    wsm after_replay = wsm after_msg3.
Proof.
  assert (wpa_sm_rx_eapol demo_env (repeat 4 6) msg3 after_msg3 = Ret (-1, after_replay)) as H
    by (vm_compute; reflexivity).
  split; [exact H|].
  apply (wpa_replay_rejected demo_env (repeat 4 6) msg3 after_msg3 (-1) after_replay);
    [vm_compute; reflexivity| | | |apply Nat.leb_le; vm_compute; reflexivity|
     apply Z.leb_le; vm_compute; reflexivity|exact H].
  all: apply (bool_decide_unpack _); vm_compute; exact I.
Defined.

Lemma wpa_rx_eapol_safe_witness :
  ∃ r s', wpa_sm_rx_eapol demo_env (repeat 4 6) (key_frame 0x8a 2) after_msg3 = Ret (r, s').
Proof.
  apply (wpa_rx_eapol_safe demo_env (repeat 4 6) (key_frame 0x8a 2) after_msg3);
    [apply (bool_decide_unpack _); vm_compute; exact I|].
  intros (ki & Hki & Henc & _). vm_compute in Hki. injection Hki as <-.
  vm_compute in Henc. discriminate.
Defined.

Lemma wpa_empty_key_data_overread_witness :
  wpa_sm_rx_eapol demo_env (repeat 9 6) (key_frame 0x108a 2) after_msg3 = UB OutOfBounds.
Proof.
  apply (wpa_empty_key_data_overread demo_env (repeat 9 6) (key_frame 0x108a 2) after_msg3 95 0x108a);
    try (vm_compute; reflexivity); try (vm_compute; lia).
  all: try (vm_compute; intros _; reflexivity). all: vm_compute; split; congruence.
Defined.
End Demo.
