(* ===== verification/WpaHandshake.v ===== *)
(** * Runs of the WPA/RSN handshakes (src/src/rsn_supp/wpa.c)

    Theorems about sequences of received frames, on the definitions of the
    handshake component: the replay counters of the accepted frames of a run,
    the completion of the 4-way handshake with an honest access point, and what
    a repeated third message does. *)

From Stdlib Require Import Sorted.
From S2P Require Import Prelude Md5 WpaIe WpaSm.

(** ** Replay counters along a run *)

Section trace.
Context {crypto : WpaCrypto} {crypto_ok : WpaCryptoOk} {C : Type} {cache : PmksaCache C}.
Implicit Types s : @wpa_sys C.

Definition frame_counter (f : list Z) : list Z := take 8 (drop off_replay_counter f).

(** Frames received one after the other, each with the effects it has; the
    environment may differ for every frame. *)
Inductive rx_trace : wpa_sys → list (list Z * list wpa_event) → wpa_sys → Prop :=
| rx_nil s : rx_trace s [] s
| rx_cons env src f s r s1 l t s2 :
    wpa_sm_rx_eapol env src f s = Ret (r, s1) → wout s1 = wout s ++ l →
    rx_trace s1 t s2 → rx_trace s ((f, l) :: t) s2.

Definition counter_ok s : Prop :=
  rx_replay_counter_set (wsm s) = true →
  bytes_ok (rx_replay_counter (wsm s)) ∧ length (rx_replay_counter (wsm s)) = 8%nat.

(** [n] is greater than the last accepted counter, if there is one. *)
Definition above s (n : Z) : Prop :=
  rx_replay_counter_set (wsm s) = true → be_val (rx_replay_counter (wsm s)) < n.

(** The counters of the frames that set a key or made the keys valid. *)
Definition accepted_counters (t : list (list Z * list wpa_event)) : list Z :=
  omap (λ '(f, l), if existsb privileged l then Some (be_val (frame_counter f)) else None) t.

Lemma fresh_above f s :
  bytes_ok f → (99 ≤ length f)%nat → counter_ok s → fresh_counter f s → above s (be_val (frame_counter f)).
Proof.
  intros Hb Hl Hok Hfr Hset. specialize (Hfr Hset). destruct (Hok Hset) as [Hb' Hl'].
  destruct (Z.lt_ge_cases (be_val (rx_replay_counter (wsm s))) (be_val (frame_counter f))) as [|Hge]; [done|].
  apply memcmp_le_be in Hge; [unfold frame_counter in Hge; lia|by apply Forall_take, Forall_drop|done|].
  unfold frame_counter, off_replay_counter. rewrite length_take, length_drop. lia.
Qed.

(** One frame: nothing privileged and the same session state, or a counter
    above the old one, which becomes the new one. *)
Lemma rx_counter env src f s r s1 l :
  wpa_sm_rx_eapol env src f s = Ret (r, s1) → wout s1 = wout s ++ l → bytes_ok f → counter_ok s →
  existsb privileged l = false ∧ core s1 = core s ∨
  above s (be_val (frame_counter f)) ∧ (99 ≤ length f)%nat ∧
  rx_replay_counter_set (wsm s1) = true ∧ rx_replay_counter (wsm s1) = frame_counter f.
Proof.
  intros H Ho Hb Hok. destruct (rx_eapol_auth env src f s r s1 H)
    as [[Hc (l' & Ho' & Hl')]|(ki & plen & K & s' & Hl & _ & _ & _ & Hfr & (_ & _ & Hc) & _ & Hc' & _)].
  { left. split; [|done]. rewrite Ho in Ho'. apply app_inv_head in Ho' as ->.
    clear -Hl'. induction Hl' as [|e l He _ IH]; [done|]. simpl. by rewrite He, IH. }
  right. rewrite Hc in Hc'. unfold core in Hc'. injection Hc' as _ _ Hcnt Hset.
  split; [by apply fresh_above|done].
Qed.

Lemma counter_step env src f s r s1 l :
  wpa_sm_rx_eapol env src f s = Ret (r, s1) → wout s1 = wout s ++ l → bytes_ok f → counter_ok s →
  counter_ok s1 ∧ (∀ n, above s1 n → above s n) ∧
  (existsb privileged l = true →
   above s (be_val (frame_counter f)) ∧ ∀ n, above s1 n → be_val (frame_counter f) < n).
Proof.
  intros H Ho Hb Hok.
  destruct (rx_counter env src f s r s1 l H Ho Hb Hok) as [[Hl Hc]|(Ha & Hl & Hset & Hcnt)].
  - unfold core in Hc. injection Hc as _ _ Hc1 Hc2. unfold counter_ok, above. rewrite Hc1, Hc2, Hl.
    split_and!; auto; done.
  - unfold counter_ok. rewrite Hcnt. split_and!.
    + intros _. split; [by apply Forall_take, Forall_drop|].
      unfold frame_counter, off_replay_counter. rewrite length_take, length_drop. lia.
    + intros n Hn Hs. specialize (Hn Hset). specialize (Ha Hs). rewrite Hcnt in Hn. lia.
    + intros _. split; [done|]. intros n Hn. specialize (Hn Hset). by rewrite Hcnt in Hn.
Qed.

Lemma trace_above s t s' :
  rx_trace s t s' → counter_ok s → Forall (λ x, bytes_ok x.1) t →
  Forall (above s) (accepted_counters t) ∧ StronglySorted Z.lt (accepted_counters t).
Proof.
  induction 1 as [s|env src f s r s1 l t s2 Hrx Ho Ht IH]; intros Hok Hb; [by repeat constructor|].
  apply Forall_cons in Hb as [Hbf Hbt]. simpl in Hbf.
  destruct (counter_step env src f s r s1 l Hrx Ho Hbf Hok) as (Hok1 & Hmono & Hpriv).
  destruct (IH Hok1 Hbt) as [Hab Hso]. unfold accepted_counters in *. cbn [omap list_omap].
  destruct (existsb privileged l).
  - destruct (Hpriv eq_refl) as [Hnew Hgt]. split; constructor; [done| |done|].
    + eapply Forall_impl; [exact Hab|exact Hmono].
    + eapply Forall_impl; [exact Hab|exact Hgt].
  - split; [|done]. eapply Forall_impl; [exact Hab|exact Hmono].
Qed.

(** C20: along any sequence of received frames, whatever the environment and the
    senders do in between, the replay counters of the frames that set a key or
    made the keys valid are strictly increasing and above the counter accepted
    before: no frame, and no counter, is ever accepted twice. *)
Theorem wpa_accepted_counters_increase s t s' :
  rx_trace s t s' → counter_ok s → Forall (λ x, bytes_ok x.1) t →
  StronglySorted Z.lt (accepted_counters t) ∧ Forall (above s) (accepted_counters t).
Proof. intros Ht Hok Hb. destruct (trace_above s t s' Ht Hok Hb). by split. Qed.
End trace.

(** ** The third message of an honest access point *)

Section message3.
Context {crypto : WpaCrypto} {crypto_ok : WpaCryptoOk} {C : Type} {cache : PmksaCache C}.
Context (env : wpa_env).
Implicit Types s : @wpa_sys C.

(** A network with CCMP as pairwise and group cipher, associated with an access
    point whose RSN element [rsn] is known. *)
Record rsn_ccmp (rsn : list Z) s : Prop := {
  rc_proto : proto (wsm s) = WPA_PROTO_RSN;
  rc_pairwise : pairwise_cipher (wsm s) = WPA_CIPHER_CCMP;
  rc_group : group_cipher (wsm s) = WPA_CIPHER_CCMP;
  rc_rekey : wpa_ptk_rekey (wsm s) = 0;
  rc_bssid : is_zero_ether_addr (bssid (wsm s)) = false;
  rc_wpa_ie : ap_wpa_ie (wsm s) = None;
  rc_rsn_ie : ap_rsn_ie (wsm s) = Some rsn
}.

Lemma rsn_ccmp_ext rsn s s' :
  proto (wsm s') = proto (wsm s) → pairwise_cipher (wsm s') = pairwise_cipher (wsm s) →
  group_cipher (wsm s') = group_cipher (wsm s) → wpa_ptk_rekey (wsm s') = wpa_ptk_rekey (wsm s) →
  bssid (wsm s') = bssid (wsm s) → ap_wpa_ie (wsm s') = ap_wpa_ie (wsm s) →
  ap_rsn_ie (wsm s') = ap_rsn_ie (wsm s) → rsn_ccmp rsn s → rsn_ccmp rsn s'.
Proof. intros ?????? ? []. split; congruence. Qed.

(** Pairwise, version 2, install, ack, MIC, secure, encrypted key data. *)
Definition MSG3_INFO : Z := 0x13ca.

Context (alloc_ok : env_alloc_eapol env = true)
  (driver_ok : ∀ alg key, 0 ≤ env_set_key env alg key).

Lemma key_send_ok kck ver dest msg s :
  version_known ver → is_zero_ether_addr dest = false →
  ∃ m, wpa_eapol_key_send env kck ver dest msg true s =
    effect NotifyTxEapolKey (effect (EtherSend dest m) s).
Proof.
  intros Hv Hd. unfold wpa_eapol_key_send. rewrite Hd. simpl andb. cbv iota.
  destruct (mic_total kck ver msg Hv) as [m ->]. simpl. eauto.
Qed.

Lemma send_4_of_4_ok f ver ki K s :
  version_known ver → (99 ≤ length f)%nat → is_zero_ether_addr (bssid (wsm s)) = false →
  ∃ m, wpa_supplicant_send_4_of_4 env (bssid (wsm s)) f ver ki K s =
    Ret (true, effect NotifyTxEapolKey (effect (EtherSend (bssid (wsm s)) m) s)).
Proof.
  intros Hv Hl Hb. unfold wpa_supplicant_send_4_of_4, wpa_sm_alloc_eapol. rewrite alloc_ok.
  cbv zeta. destruct (reply_key_length_total f s Hl) as (d & ->). rewrite run_bind_l.
  rewrite rdn_ok, run_bind_l by (unfold off_replay_counter; lia).
  match goal with |- context [wpa_eapol_key_send env ?a ?b ?c ?d _ s] =>
    destruct (key_send_ok a b c d s Hv Hb) as (m & ->) end. eauto.
Qed.

Lemma validate_ie_ok rsn ie s :
  rsn_ccmp rsn s → rsn_ie ie = Some rsn → wpa_supplicant_validate_ie env ie s = (true, s).
Proof.
  intros [Hp _ _ _ _ Hw Hr] Hie. unfold wpa_supplicant_validate_ie. rewrite Hw, Hr, Hie.
  change (bool_decide (Some rsn = None)) with false. rewrite !andb_false_r. cbv zeta iota.
  rewrite Hw, Hr, Hp. change (bool_decide (WPA_PROTO_RSN = WPA_PROTO_WPA)) with false.
  cbn [andb].
  assert (wpa_compare_rsn_ie rsn rsn = true) as ->.
  { unfold wpa_compare_rsn_ie. apply andb_true_intro.
    split; [by apply bool_decide_eq_true|]. apply Z.eqb_eq, memcmp_refl. }
  by destruct (wpa_ie ie).
Qed.

Definition set_ptk_event (K : list Z) s : wpa_event :=
  SetKey WPA_ALG_CCMP (Some (bssid (wsm s))) 0 true (repeat 0 6) (ptk_tk K 16).

Lemma install_ptk_ok rsn f s :
  rsn_ccmp rsn s →
  wpa_supplicant_install_ptk env f s = Ret (true, effect (set_ptk_event (ptk (wsm s)) s) s).
Proof.
  intros [Hp Hc _ Hr _ _ _]. unfold wpa_supplicant_install_ptk, wpa_sm_set_key. rewrite Hp, Hc, Hr.
  simpl. by rewrite (proj2 (Z.ltb_ge _ _) (driver_ok _ _)).
Qed.

Definition set_gtk_event (g0 : Z) (rsc gk : list Z) : wpa_event :=
  SetKey WPA_ALG_CCMP (Some broadcast_ether_addr) (Z.land g0 3) false (take 6 rsc) gk.

(** The effects of [wpa_supplicant_key_neg_complete]. *)
Definition complete_events s : list wpa_event :=
  [CancelAuthTimeout; SetState WPA_COMPLETED; SetProtection false; NotifyPortValid true] ++
  (if wpa_key_mgmt_wpa_psk (key_mgmt (wsm s)) then [NotifyEapSuccess] else []) ++ [RegisterPreauth].

Lemma key_neg_complete_ok s :
  let s' := wpa_supplicant_key_neg_complete true s in
  wsm s' = wsm s ∧ wstate s' = WPA_COMPLETED ∧ wout s' = wout s ++ complete_events s.
Proof.
  unfold wpa_supplicant_key_neg_complete, complete_events. cbv zeta. cbn [wsm].
  set (s1 := effect RegisterPreauth _).
  assert (wsm s1 = wsm s ∧ wstate s1 = WPA_COMPLETED ∧ wout s1 = wout s ++ complete_events s) as H.
  { unfold s1, complete_events. cbn -[wpa_key_mgmt_wpa_psk].
    destruct (wpa_key_mgmt_wpa_psk _); cbn; by rewrite <-!app_assoc. }
  destruct (cur_pmksa (wsm s1)); [|exact H]. destruct (pmksa_cache_entry _ _); [|exact H].
  by destruct (pe_opportunistic _).
Qed.

Lemma pairwise_gtk_ok rsn f g0 g1 gk ki s :
  rsn_ccmp rsn s → (99 ≤ length f)%nat → length gk = 16%nat → has ki WPA_KEY_INFO_SECURE = true →
  ∃ s', wpa_supplicant_pairwise_gtk env f (g0 :: g1 :: gk) ki s = Ret (true, s') ∧
    wsm s' = wsm s ∧ wstate s' = WPA_COMPLETED ∧
    wout s' = wout s ++ set_gtk_event g0 (take 8 (drop off_key_rsc f)) gk :: complete_events s.
Proof.
  intros [Hp Hc Hg _ _ _ _] Hf Hgk Hki. unfold wpa_supplicant_pairwise_gtk.
  assert (((length (g0 :: g1 :: gk) <? 2) || (32 <? length (g0 :: g1 :: gk) - 2))%nat = false) as ->.
  { simpl length. rewrite Hgk. done. }
  change (rd (g0 :: g1 :: gk) 0) with (Ret g0). rewrite run_bind_l.
  change (drop 2 (g0 :: g1 :: gk)) with gk. cbv zeta. rewrite Hg, Hgk.
  change (wpa_supplicant_check_group_cipher _ _ _) with (Some (6%nat, WPA_ALG_CCMP)). cbv iota.
  rewrite rdn_ok, run_bind_l by (unfold off_key_rsc; lia).
  unfold wpa_supplicant_install_gtk, wpa_supplicant_gtk_tx_bit_workaround, wpa_sm_set_key.
  rewrite Hg, Hc. change (WPA_CIPHER_CCMP =? WPA_CIPHER_TKIP) with false.
  change (WPA_CIPHER_CCMP =? WPA_CIPHER_NONE) with false. cbn [gd_alg gd_tx gd_rsc_len gd_keyidx gd_gtk gd_gtk_len].
  cbv iota zeta. rewrite (proj2 (Z.leb_le _ _) (driver_ok _ _)), Hki. cbv iota.
  assert (take 16 (splice (repeat 0 32) 0 gk) = gk) as ->.
  { rewrite <-Hgk. rewrite <-(drop_0 (splice _ _ _)). apply slice_splice. rewrite Hgk. simpl. lia. }
  assert ((if has g0 4 && negb false then false else has g0 4) = false) as -> by (by destruct (has g0 4)).
  eexists. split; [done|].
  match goal with |- context [wpa_supplicant_key_neg_complete true ?x] =>
    destruct (key_neg_complete_ok x) as (H1 & H2 & H3) end.
  split; [exact H1|]. split; [exact H2|]. rewrite H3. cbn. by rewrite <-app_assoc.
Qed.

(** What the supplicant does on a valid third message; [m4] is its answer. *)
Definition msg3_events (K m4 : list Z) (g0 : Z) (rsc gk : list Z) s : list wpa_event :=
  [SetState WPA_4WAY_HANDSHAKE; EtherSend (bssid (wsm s)) m4; NotifyTxEapolKey;
   set_ptk_event K s; SetProtection true; NotifyPortValid true; SetState WPA_GROUP_HANDSHAKE;
   set_gtk_event g0 rsc gk] ++ complete_events s ++ [SetRekeyOffload].

(** Key data that holds the RSN element [rsn] and the group key [gk]. *)
Definition msg3_key_data (rsn : list Z) (g0 : Z) (gk kd : list Z) : Prop :=
  ∃ es p g1, kd = concat (enc <$> es) ++ p ∧ Forall element_ok es ∧ padding p ∧
    rsn_ie (foldl see no_ies es) = Some rsn ∧
    WpaIe.gtk (foldl see no_ies es) = Some (g0 :: g1 :: gk) ∧ length gk = 16%nat.

Lemma process_3_of_4_ok rsn f kd rest g0 gk ver s :
  rsn_ccmp rsn s → version_known ver → (99 ≤ length f)%nat →
  rd_be16 f off_key_info = Ret MSG3_INFO → rd_be16 f off_key_length = Ret 16 →
  rd_be16 f off_key_data_length = Ret (Z.of_nat (length kd)) → drop off_key_data f = kd ++ rest →
  msg3_key_data rsn g0 gk kd → take 32 (drop off_key_nonce f) = anonce (wsm s) →
  ∃ s' m4, wpa_supplicant_process_3_of_4 env f ver s = Ret s' ∧
    wsm s' = wsm s <| renew_snonce := true |> ∧ wstate s' = WPA_COMPLETED ∧
    wout s' = wout s ++ msg3_events (ptk (wsm s)) m4 g0 (take 8 (drop off_key_rsc f)) gk s.
Proof.
  intros Hs Hv Hf Hki Hkl Hdl Hd (es & p & g1 & -> & Hes & Hp & Hrsn & Hgtk & Hgk) Hn.
  unfold wpa_supplicant_process_3_of_4. cbv zeta. rewrite Hki, run_bind_l, Hdl, run_bind_l, Hd, Nat2Z.id.
  assert (wpa_supplicant_parse_ies ((concat (enc <$> es) ++ p) ++ rest) (length (concat (enc <$> es) ++ p)) =
    Ret (0, foldl see no_ies es)) as -> by (by apply (parse_loop_see es _ [])).
  rewrite run_bind_l.
  set (ie := foldl see no_ies es) in *. set (s1 := wpa_sm_set_state WPA_4WAY_HANDSHAKE s).
  assert (rsn_ccmp rsn s1) as Hs1 by exact (rsn_ccmp_ext rsn s s1 eq_refl eq_refl eq_refl eq_refl eq_refl eq_refl eq_refl Hs).
  assert (process_3_of_4_checks env f MSG3_INFO ie s1 = Ret (true, s1)) as ->.
  { unfold process_3_of_4_checks. rewrite Hgtk, (validate_ie_ok rsn) by done.
    change (bool_decide _ && negb (has MSG3_INFO WPA_KEY_INFO_ENCR_KEY_DATA)) with false. cbv iota.
    simpl negb. cbv iota. rewrite rdn_ok, run_bind_l by (unfold off_key_nonce; lia).
    rewrite Hn. change (anonce (wsm s1)) with (anonce (wsm s)). rewrite memcmp_refl.
    simpl negb. cbv iota. rewrite Hkl, run_bind_l. by rewrite (rc_pairwise _ _ Hs1). }
  rewrite run_bind_l. simpl negb. cbv iota.
  destruct (send_4_of_4_ok f ver MSG3_INFO (ptk (wsm s1)) s1) as (m4 & ->); [done|done|apply Hs1|].
  rewrite run_bind_l. simpl negb. cbv iota. unfold process_3_of_4_install.
  change (has MSG3_INFO WPA_KEY_INFO_INSTALL) with true.
  change (has MSG3_INFO WPA_KEY_INFO_SECURE) with true. cbv zeta iota.
  match goal with |- context [wpa_supplicant_install_ptk env f ?x] => set (s2 := x) end.
  rewrite (install_ptk_ok rsn) by
    (apply (rsn_ccmp_ext rsn s s2 eq_refl eq_refl eq_refl eq_refl eq_refl eq_refl eq_refl Hs)).
  rewrite run_bind_l, Hgtk. simpl negb. cbv iota.
  match goal with |- context [wpa_supplicant_pairwise_gtk env f _ _ ?x] => set (s3 := x) end.
  destruct (pairwise_gtk_ok rsn f g0 g1 gk MSG3_INFO s3) as (s4 & -> & Hw & Hst & Ho);
    [exact (rsn_ccmp_ext rsn s s3 eq_refl eq_refl eq_refl eq_refl eq_refl eq_refl eq_refl Hs)|done..|].
  rewrite run_bind_l. simpl negb. cbv iota.
  eexists _, m4. split; [done|]. split; [|split; [exact Hst|]].
  - change (wsm (effect SetRekeyOffload s4)) with (wsm s4). by rewrite Hw.
  - change (wout (effect SetRekeyOffload s4)) with (wout s4 ++ [SetRekeyOffload]). rewrite Ho.
    change (complete_events s3) with (complete_events s). unfold msg3_events.
    assert (wout s3 = wout s ++ [SetState WPA_4WAY_HANDSHAKE; EtherSend (bssid (wsm s)) m4;
      NotifyTxEapolKey; set_ptk_event (ptk (wsm s)) s; SetProtection true; NotifyPortValid true;
      SetState WPA_GROUP_HANDSHAKE]) as ->.
    { unfold s3, s2, s1. cbn. by rewrite <-!app_assoc. }
    by rewrite <-!app_assoc, <-!app_comm_cons.
Qed.

(** *** Reception of the frame *)

Lemma check_mic_ok K f n ver :
  version_known ver → (99 ≤ length f)%nat → (n ≤ length f)%nat →
  let mic := take 16 (drop off_key_mic f) in
  frame_mic K ver f n = Some mic → check_mic K f n ver mic = Ret (true, f).
Proof.
  intros Hv Hf Hn mic Hmic.
  assert (splice f off_key_mic mic = f) as Hself by (apply splice_self; unfold off_key_mic; lia).
  destruct (check_mic_spec K f mic n ver) as (eq & m & Hm & _ & Hc & Heq); [done|lia|done| |].
  { unfold mic, off_key_mic. rewrite length_take, length_drop. lia. }
  rewrite Hmic in Hm. injection Hm as <-. fold mic in Hc. rewrite Hself in Hc. rewrite Hc.
  by rewrite (proj2 Heq).
Qed.

(** [K] is the key the frame is checked against first. *)
Definition current_ptk K s : Prop :=
  tptk_set (wsm s) = true ∧ tptk (wsm s) = K ∨
  tptk_set (wsm s) = false ∧ ptk_set (wsm s) = true ∧ ptk (wsm s) = K.

(** The state once the frame [f] is authenticated: only the key and the counter
    differ. *)
Definition confirmed K f s s1 : Prop :=
  core s1 = (K, true, frame_counter f, true) ∧ tptk_set (wsm s1) = false ∧ wout s1 = wout s ∧
  anonce (wsm s1) = anonce (wsm s) ∧ key_mgmt (wsm s1) = key_mgmt (wsm s) ∧
  bssid (wsm s1) = bssid (wsm s) ∧ ∀ rsn, rsn_ccmp rsn s → rsn_ccmp rsn s1.

Lemma verify_ok K f n ver s :
  version_known ver → (99 ≤ length f)%nat → (n ≤ length f)%nat → current_ptk K s →
  frame_mic K ver f n = Some (take 16 (drop off_key_mic f)) →
  ∃ s1, wpa_supplicant_verify_eapol_key_mic f n ver s = Ret (true, f, s1) ∧ confirmed K f s s1.
Proof.
  intros Hv Hf Hn HK Hmic. unfold wpa_supplicant_verify_eapol_key_mic.
  rewrite rdn_ok, run_bind_l by (unfold off_key_mic; lia).
  pose proof (check_mic_ok K f n ver Hv Hf Hn Hmic) as Hc. cbv zeta in Hc.
  assert (rdn f off_replay_counter 8 = Ret (frame_counter f)) as Hrc
    by (apply rdn_ok; unfold off_replay_counter; lia).
  destruct HK as [[Hset HK]|(Hset & Hset2 & HK)]; rewrite Hset.
  - rewrite HK, Hc, !run_bind_l. simpl negb. cbn [andb]. rewrite run_bind_l, Hrc, run_bind_l.
    eexists. split; [done|]. split_and!; [done..|]. intros rsn.
    by apply rsn_ccmp_ext.
  - rewrite !run_bind_l, Hset2. cbn [negb andb]. rewrite HK, Hc, !run_bind_l, Hrc, run_bind_l.
    eexists. split; [done|]. split_and!; [|done..|].
    + unfold core. cbn. by rewrite Hset2, HK.
    + intros rsn. by apply rsn_ccmp_ext.
Qed.

(** An EAPOL-Key frame that carries message 3/4: [k] blocks of key data wrapped
    with the KEK of [K], and the MIC of [K]. *)
Record msg3_frame (K rsn : list Z) (g0 : Z) (gk f : list Z) s : Prop := {
  m3_bytes : bytes_ok f;
  m3_type : rd f 1 = Ret TYPE_EAPOL_KEY;
  m3_body : rd_be16 f 2 = Ret (Z.of_nat (length f) - 4);
  m3_key_type : rd f off_type = Ret KEY_TYPE_RSN;
  m3_info : rd_be16 f off_key_info = Ret MSG3_INFO;
  m3_key_length : rd_be16 f off_key_length = Ret 16;
  m3_nonce : take 32 (drop off_key_nonce f) = anonce (wsm s);
  m3_counter : fresh_counter f s;
  m3_mic : frame_mic K WPA_KEY_INFO_TYPE_HMAC_SHA1_AES f (length f) =
             Some (take 16 (drop off_key_mic f));
  m3_data : ∃ k kd, length f = (99 + 8 * (k + 1))%nat ∧
    rd_be16 f off_key_data_length = Ret (8 * (Z.of_nat k + 1)) ∧
    aes_unwrap (ptk_kek K) k (drop off_key_data f) = Some kd ∧ msg3_key_data rsn g0 gk kd
}.

Context (malloc_ok : env_malloc env = true) (malloc_unwrap_ok : env_malloc_unwrap env = true).

(** The frame with its key data replaced by the unwrapped one. *)
Definition opened (f kd : list Z) (k : nat) : list Z :=
  splice (splice f off_key_data kd) off_key_data_length (put_be16 (8 * Z.of_nat k)).

Lemma decrypt_ok f k kd s :
  ptk_set (wsm s) = true → length f = (99 + 8 * (k + 1))%nat → 8 * (Z.of_nat k + 1) < 65536 →
  rd_be16 f off_key_data_length = Ret (8 * (Z.of_nat k + 1)) →
  aes_unwrap (ptk_kek (ptk (wsm s))) k (drop off_key_data f) = Some kd →
  wpa_supplicant_decrypt_key_data env f WPA_KEY_INFO_TYPE_HMAC_SHA1_AES s =
    Ret (Some (opened f kd k)).
Proof.
  intros Hset Hl Hk Hd Hu. unfold wpa_supplicant_decrypt_key_data.
  rewrite Hd, run_bind_l, Hset, malloc_unwrap_ok. cbn [negb]. cbv iota.
  change (WPA_KEY_INFO_TYPE_HMAC_SHA1_AES =? WPA_KEY_INFO_TYPE_HMAC_MD5_RC4) with false.
  change (WPA_KEY_INFO_TYPE_HMAC_SHA1_AES =? WPA_KEY_INFO_TYPE_HMAC_SHA1_AES) with true. cbn [orb].
  replace (8 * (Z.of_nat k + 1)) with ((Z.of_nat k + 1) * 8) by lia. rewrite Z.mod_mul by lia.
  cbn [negb Z.eqb]. cbv zeta.
  assert (u16 ((Z.of_nat k + 1) * 8 - 8) = 8 * Z.of_nat k) as ->.
  { rewrite u16_small; [lia|]. unfold is_u16. lia. }
  replace (8 * Z.of_nat k / 8) with (Z.of_nat k) by (rewrite Z.mul_comm, Z.div_mul; lia).
  rewrite rdn_ok, run_bind_l by (unfold off_key_data; lia).
  rewrite take_ge by (rewrite length_drop; unfold off_key_data; lia). by rewrite Nat2Z.id, Hu.
Qed.

Section opened.
Context (f kd : list Z) (k : nat) (Hf : length f = (99 + 8 * (k + 1))%nat) (Hkd : length kd = (8 * k)%nat).

Lemma length_opened : length (opened f kd k) = length f.
Proof.
  unfold opened, off_key_data, off_key_data_length.
  assert (length (splice f 99 kd) = length f) as Hl by (apply length_splice; lia).
  rewrite length_splice; [done|]. simpl. lia.
Qed.

Lemma opened_before i n :
  (i + n ≤ 97)%nat → take n (drop i (opened f kd k)) = take n (drop i f).
Proof.
  intros Hi. unfold opened, off_key_data, off_key_data_length.
  assert (length (splice f 99 kd) = length f) as Hl by (apply length_splice; lia).
  rewrite !slice_splice_before; [done|lia..].
Qed.

Lemma opened_be16 i : (i + 2 ≤ 97)%nat → rd_be16 (opened f kd k) i = rd_be16 f i.
Proof.
  intros Hi. unfold rd_be16, opened, off_key_data, off_key_data_length.
  assert (length (splice f 99 kd) = length f) as Hl by (apply length_splice; lia).
  rewrite !rd_splice_before; [done|lia..].
Qed.

Lemma opened_length_field :
  8 * Z.of_nat k < 65536 → rd_be16 (opened f kd k) off_key_data_length = Ret (Z.of_nat (length kd)).
Proof.
  intros Hk. unfold opened. rewrite put_be16_rd.
  - rewrite u16_small by (unfold is_u16; lia). f_equal. lia.
  - rewrite length_splice; unfold off_key_data_length, off_key_data; lia.
Qed.

Lemma opened_data : drop off_key_data (opened f kd k) = kd ++ drop (off_key_data + length kd) f.
Proof.
  unfold opened, off_key_data, off_key_data_length.
  assert (length (splice f 99 kd) = length f) as Hl by (apply length_splice; lia).
  rewrite drop_splice_after by (simpl; lia). apply drop_splice. lia.
Qed.
End opened.

Lemma fresh_passes f s :
  fresh_counter f s →
  rx_replay_counter_set (wsm s) && (memcmp (frame_counter f) (rx_replay_counter (wsm s)) <=? 0) = false.
Proof.
  intros Hfr. destruct (rx_replay_counter_set (wsm s)) eqn:Hs; [|done].
  apply Z.leb_gt. by apply Hfr.
Qed.

Lemma rx_checked_msg3 src K rsn g0 gk f s :
  rsn_ccmp rsn s → current_ptk K s → msg3_frame K rsn g0 gk f s →
  ∃ s' m4, rx_checked env src f (length f) MSG3_INFO WPA_KEY_INFO_TYPE_HMAC_SHA1_AES s = Ret (1, s') ∧
    core s' = (K, true, frame_counter f, true) ∧ wstate s' = WPA_COMPLETED ∧
    rsn_ccmp rsn s' ∧ tptk_set (wsm s') = false ∧ bssid (wsm s') = bssid (wsm s) ∧
    wout s' = wout s ++ msg3_events K m4 g0 (take 8 (drop off_key_rsc f)) gk s.
Proof.
  intros Hs HK [Hb Hty Hbody Hkt Hinfo Hkl Hn Hfr Hmic (k & kd & Hl & Hdl & Hu & Hkd)].
  assert (8 * (Z.of_nat k + 1) < 65536) as Hmax.
  { destruct (rd_be16_ok f 2 Hb) as (pl & Hpl & Hr); [lia|]. rewrite Hbody in Hpl. injection Hpl. lia. }
  assert (version_known WPA_KEY_INFO_TYPE_HMAC_SHA1_AES) as Hv by (by right).
  unfold rx_checked. rewrite rdn_ok, run_bind_l by (unfold off_replay_counter; lia).
  fold (frame_counter f). rewrite (fresh_passes f s Hfr).
  change (has MSG3_INFO (Z.lor WPA_KEY_INFO_ACK WPA_KEY_INFO_SMK_MESSAGE)) with true.
  change (has MSG3_INFO WPA_KEY_INFO_REQUEST) with false.
  change (has MSG3_INFO WPA_KEY_INFO_MIC) with true. cbn [negb]. cbv iota.
  destruct (verify_ok K f (length f) _ s Hv ltac:(lia) (Nat.le_refl _) HK Hmic)
    as (s1 & -> & Hc & Ht & Ho & Ha & Hkm & Hbs & Hext).
  rewrite run_bind_l. cbn [negb]. cbv iota zeta. rewrite Hdl, run_bind_l.
  rewrite (proj2 (Z.ltb_ge _ _)) by (unfold sizeof_1x_hdr, sizeof_wpa_key; lia).
  specialize (Hext _ Hs). rewrite (rc_proto _ _ Hext).
  change (bool_decide _ && has MSG3_INFO WPA_KEY_INFO_ENCR_KEY_DATA) with true. cbv iota.
  unfold core in Hc. injection Hc as Hptk Hset Hcnt Hcs.
  rewrite (decrypt_ok f k kd) by (rewrite ?Hptk; (done || lia)). rewrite run_bind_l.
  pose proof (unwrap_length _ _ _ _ Hu) as Hlk.
  unfold rx_dispatch. rewrite opened_length_field, run_bind_l by (done || lia).
  change (has MSG3_INFO WPA_KEY_INFO_KEY_TYPE) with true.
  change (has MSG3_INFO WPA_KEY_INFO_KEY_INDEX_MASK) with false.
  change (has MSG3_INFO WPA_KEY_INFO_MIC) with true. cbv iota.
  destruct (process_3_of_4_ok rsn (opened f kd k) kd (drop (off_key_data + length kd) f) g0 gk
    WPA_KEY_INFO_TYPE_HMAC_SHA1_AES s1) as (s' & m4 & -> & Hw & Hst & Ho'); try done.
  - rewrite length_opened by done. lia.
  - by rewrite opened_be16 by (done || (unfold off_key_info; lia)).
  - by rewrite opened_be16 by (done || (unfold off_key_length; lia)).
  - apply opened_length_field; [done|done|lia].
  - by apply opened_data.
  - rewrite opened_before, Ha by (done || (unfold off_key_nonce; lia)). done.
  - rewrite run_bind_l. exists s', m4. split; [done|]. split_and!; try done.
    + trans (core s1); [unfold core; by rewrite Hw|unfold core; congruence].
    + apply (rsn_ccmp_ext rsn s1); [by rewrite Hw..|done].
    + by rewrite Hw.
    + by rewrite Hw.
    + rewrite Ho', Ho, Hptk. rewrite opened_before by (done || (unfold off_key_rsc; lia)).
      unfold msg3_events, set_ptk_event, complete_events. by rewrite Hkm, Hbs.
Qed.

Lemma rx_msg3 src K rsn g0 gk f s :
  rsn_ccmp rsn s → current_ptk K s → msg3_frame K rsn g0 gk f s →
  ∃ s' m4, wpa_sm_rx_eapol env src f s = Ret (1, s') ∧
    core s' = (K, true, frame_counter f, true) ∧ wstate s' = WPA_COMPLETED ∧
    rsn_ccmp rsn s' ∧ tptk_set (wsm s') = false ∧ bssid (wsm s') = bssid (wsm s) ∧
    wout s' = wout s ++ NotifyLowerLayerSuccess ::
                msg3_events K m4 g0 (take 8 (drop off_key_rsc f)) gk s.
Proof.
  intros Hs HK Hm. pose proof Hm as [_ Hty Hbody Hkt Hinfo _ _ _ _ (k & kd & Hl & _)].
  unfold wpa_sm_rx_eapol, sizeof_1x_hdr, sizeof_wpa_key. cbv zeta.
  rewrite (proj2 (Nat.ltb_ge (length f) (4 + 95))), malloc_ok, Hty, run_bind_l, Hbody, run_bind_l by lia.
  cbn [negb]. cbv iota. change (TYPE_EAPOL_KEY =? TYPE_EAPOL_KEY) with true. cbn [negb]. cbv iota.
  rewrite (proj2 (Z.ltb_ge (Z.of_nat (length f) - Z.of_nat 4) _)) by lia.
  rewrite (proj2 (Z.ltb_ge _ (Z.of_nat (95)))) by lia. cbn [orb]. cbv iota.
  rewrite Hkt, run_bind_l, Hinfo, run_bind_l.
  change (KEY_TYPE_RSN =? KEY_TYPE_RSN) with true. rewrite andb_false_r. cbv iota.
  change (Z.land MSG3_INFO WPA_KEY_INFO_TYPE_MASK) with WPA_KEY_INFO_TYPE_HMAC_SHA1_AES.
  set (s0 := effect NotifyLowerLayerSuccess s).
  assert (rsn_ccmp rsn s0) as Hs0 by (by apply (rsn_ccmp_ext rsn s)).
  assert (version_ok MSG3_INFO WPA_KEY_INFO_TYPE_HMAC_SHA1_AES s0 = true) as ->.
  { unfold version_ok. by rewrite (rc_pairwise _ _ Hs0). }
  cbn [negb]. cbv iota. replace (Z.to_nat (Z.of_nat (length f) - 4) + 4)%nat with (length f) by lia.
  destruct (rx_checked_msg3 src K rsn g0 gk f s0 Hs0 HK) as (s' & m4 & -> & Hc & Hst & Hr & Ht & Hb & Ho).
  { destruct Hm. by split. }
  exists s', m4. split_and!; try done. rewrite Ho. cbn. by rewrite <-app_assoc.
Qed.

(** On a CCMP network, a third message of the access point (fresh counter,
    the nonce of message 1, the MIC of the key [K] derived from it, the known
    RSN element and a group key in the wrapped key data) is answered and
    completes the handshake: [K] becomes the PTK, its temporal key and the group
    key are given to the driver, the EAPOL component is told that the keys are
    valid, and the connection is COMPLETED. *)
Theorem wpa_msg3_completes src K rsn g0 gk f s :
  rsn_ccmp rsn s → current_ptk K s → msg3_frame K rsn g0 gk f s →
  ∃ s' m4, wpa_sm_rx_eapol env src f s = Ret (1, s') ∧
    core s' = (K, true, frame_counter f, true) ∧ wstate s' = WPA_COMPLETED ∧
    wout s' = wout s ++ NotifyLowerLayerSuccess ::
                msg3_events K m4 g0 (take 8 (drop off_key_rsc f)) gk s.
Proof.
  intros Hs HK Hm. destruct (rx_msg3 src K rsn g0 gk f s Hs HK Hm)
    as (s' & m4 & H1 & H2 & H3 & _ & _ & _ & H4). by exists s', m4.
Qed.

(** A third message that is repeated with a higher counter is accepted again
    and gives the driver the pairwise key it already uses, with the packet number
    set back to zero. *)
Theorem wpa_msg3_reinstalls src K rsn g0 gk g0' gk' f f' s r s1 :
  rsn_ccmp rsn s → current_ptk K s → msg3_frame K rsn g0 gk f s →
  wpa_sm_rx_eapol env src f s = Ret (r, s1) → msg3_frame K rsn g0' gk' f' s1 →
  ∃ s2 l1 l2, wpa_sm_rx_eapol env src f' s1 = Ret (1, s2) ∧
    wout s1 = wout s ++ l1 ∧ wout s2 = wout s1 ++ l2 ∧
    let e := SetKey WPA_ALG_CCMP (Some (bssid (wsm s))) 0 true (repeat 0 6) (ptk_tk K 16) in
    e ∈ l1 ∧ e ∈ l2.
Proof.
  intros Hs HK Hm H Hm'. destruct (rx_msg3 src K rsn g0 gk f s Hs HK Hm)
    as (s1' & m4 & H1 & Hc & _ & Hs1 & Ht & Hb & Ho).
  rewrite H in H1. injection H1 as -> <-.
  assert (current_ptk K s1) as HK1.
  { right. unfold core in Hc. by injection Hc. }
  destruct (rx_msg3 src K rsn g0' gk' f' s1 Hs1 HK1 Hm') as (s2 & m4' & H2 & _ & _ & _ & _ & _ & Ho2).
  eexists s2, _, _. split_and!; [done|done|done|]. cbv zeta. split.
  - unfold msg3_events, set_ptk_event. set_solver.
  - unfold msg3_events, set_ptk_event. rewrite Hb. set_solver.
Qed.
End message3.

(** ** The first message and its answer *)

Lemma slice_splice_other dst off src i n :
  (i + n ≤ off ∨ off + length src ≤ i)%nat → (off + length src ≤ length dst)%nat →
  take n (drop i (splice dst off src)) = take n (drop i dst).
Proof.
  intros [H|H] Hl; [apply slice_splice_before; lia|]. by rewrite drop_splice_after by lia.
Qed.

Lemma length_stores buf ws :
  Forall (λ w, w.1 + length w.2 ≤ length buf)%nat ws → length (stores buf ws) = length buf.
Proof.
  unfold stores. revert buf. induction ws as [|w ws IH]; intros buf H; [done|].
  apply Forall_cons in H as [Hw H]. cbn [foldl]. rewrite IH; [by apply length_splice|].
  by rewrite length_splice.
Qed.

Lemma slice_stores buf ws i n :
  Forall (λ w, w.1 + length w.2 ≤ length buf ∧ (i + n ≤ w.1 ∨ w.1 + length w.2 ≤ i))%nat ws →
  take n (drop i (stores buf ws)) = take n (drop i buf).
Proof.
  unfold stores. revert buf. induction ws as [|w ws IH]; intros buf H; [done|].
  apply Forall_cons in H as [[Hw Ho] H]. cbn [foldl].
  rewrite IH; [by apply slice_splice_other|]. by rewrite length_splice.
Qed.

Section message1.
Context {crypto : WpaCrypto} {crypto_ok : WpaCryptoOk} {C : Type} {cache : PmksaCache C}.
Context (env : wpa_env).
Implicit Types s : @wpa_sys C.
Context (alloc_ok : env_alloc_eapol env = true).

(** A frame with a zero MIC field, once its MIC is written, carries the MIC of
    its key. *)
Lemma key_send_signed K ver dest msg s :
  version_known ver → is_zero_ether_addr dest = false → (97 ≤ length msg)%nat →
  take 16 (drop off_key_mic msg) = repeat 0 16 →
  ∃ m, wpa_eapol_key_send env (ptk_kck K) ver dest msg true s =
         effect NotifyTxEapolKey (effect (EtherSend dest (splice msg off_key_mic m)) s) ∧
    length m = 16%nat ∧
    let out := splice msg off_key_mic m in
    frame_mic K ver out (length out) = Some (take 16 (drop off_key_mic out)).
Proof.
  intros Hv Hd Hl Hz. unfold wpa_eapol_key_send. rewrite Hd. cbn [andb]. cbv iota.
  destruct (mic_total (ptk_kck K) ver msg Hv) as [m Hm]. rewrite Hm. cbn [fmap option_fmap option_map].
  pose proof (mic_length _ _ _ _ Hm) as Hlm. unfold off_key_mic in *. exists m. split; [done|].
  split; [done|]. cbv zeta. unfold frame_mic, off_key_mic.
  assert (splice (splice msg 81 m) 81 (repeat 0 16) = msg) as ->.
  { rewrite splice_splice by (rewrite ?repeat_length; lia). rewrite <-Hz. apply splice_self. lia. }
  rewrite length_splice, firstn_all, Hm by lia. f_equal. rewrite <-Hlm. symmetry.
  apply slice_splice. lia.
Qed.

(** The second message: it carries the supplicant nonce and the MIC of [K]. *)
Definition msg2_frame (K nonce m2 : list Z) : Prop :=
  take 32 (drop off_key_nonce m2) = nonce ∧
  frame_mic K WPA_KEY_INFO_TYPE_HMAC_SHA1_AES m2 (length m2) = Some (take 16 (drop off_key_mic m2)).

Lemma send_2_of_4_ok f nonce ie K s :
  (99 ≤ length f)%nat → is_zero_ether_addr (bssid (wsm s)) = false → length nonce = 32%nat →
  95 + Z.of_nat (length ie) < 65536 →
  ∃ m2, wpa_supplicant_send_2_of_4 env (bssid (wsm s)) f WPA_KEY_INFO_TYPE_HMAC_SHA1_AES nonce
          (Some ie) K s =
          Ret (true, effect NotifyTxEapolKey (effect (EtherSend (bssid (wsm s)) m2) s)) ∧
    msg2_frame K nonce m2.
Proof.
  intros Hf Hb Hn Hie. unfold wpa_supplicant_send_2_of_4, wpa_sm_alloc_eapol, sizeof_wpa_key.
  rewrite alloc_ok. cbv zeta. destruct (reply_key_length_total f s Hf) as (d & Hd).
  assert (length d = 2%nat) as Hld.
  { revert Hd. unfold reply_key_length. destruct (proto (wsm s)).
    - intros [? _]%rdn_Ret. done.
    - by intros [= <-]. }
  rewrite Hd, run_bind_l.
  rewrite rdn_ok, run_bind_l by (unfold off_replay_counter; lia).
  set (rc := take 8 (drop off_replay_counter f)).
  assert (length rc = 8%nat) as Hrc.
  { unfold rc, off_replay_counter. rewrite length_take, length_drop. lia. }
  clearbody rc. rewrite u16_small by (unfold is_u16; lia). rewrite Nat2Z.id.
  match goal with |- context [stores ?b ?l] => set (rbuf := b); set (ws := l) end.
  assert (length rbuf = 99 + length ie)%nat as Hlr.
  { unfold rbuf. rewrite !length_app, repeat_length. simpl. lia. }
  assert (Forall (λ w, w.1 + length w.2 ≤ length rbuf ∧ (81 + 16 ≤ w.1 ∨ w.1 + length w.2 ≤ 81))%nat ws)
    as Hws.
  { rewrite Hlr. subst ws. clear -Hld Hrc Hn. unfold off_type, off_key_info, off_key_length, off_replay_counter,
      off_key_data_length, off_key_data, off_key_nonce.
    repeat (apply Forall_cons; split; [cbn [fst snd length put_be16]; lia|]). by apply Forall_nil. }
  assert (take 16 (drop off_key_mic (stores rbuf ws)) = repeat 0 16) as Hz.
  { unfold off_key_mic. rewrite (slice_stores rbuf ws 81 16 Hws). unfold rbuf.
    change (drop 81 _) with (drop 77 (repeat 0 (95 + length ie))).
    replace (95 + length ie)%nat with (77 + (16 + (2 + length ie)))%nat by lia.
    rewrite !repeat_app, drop_app_length' by done. by rewrite take_app_length'. }
  assert (length (stores rbuf ws) = length rbuf) as Hls.
  { apply length_stores. eapply Forall_impl; [exact Hws|]. by intros w [? _]. }
  destruct (key_send_signed K WPA_KEY_INFO_TYPE_HMAC_SHA1_AES (bssid (wsm s)) (stores rbuf ws) s)
    as (m & -> & Hm & Hmic); [by right|done|lia|done|].
  eexists. split; [done|]. split; [|exact Hmic].
  rewrite slice_splice_other by (unfold off_key_mic, off_key_nonce; lia).
  change (stores rbuf ws) with (splice (stores rbuf (take 6 ws)) off_key_nonce nonce).
  rewrite <-Hn. apply slice_splice.
  rewrite length_stores; [unfold off_key_nonce; lia|].
  apply Forall_take. eapply Forall_impl; [exact Hws|]. by intros w [? _].
Qed.

(** Pairwise, version 2, ack. *)
Definition MSG1_INFO : Z := 0x8a.

(** A first message without key data. *)
Record msg1_frame (an f : list Z) s : Prop := {
  m1_bytes : bytes_ok f;
  m1_length : length f = 99%nat;
  m1_type : rd f 1 = Ret TYPE_EAPOL_KEY;
  m1_body : rd_be16 f 2 = Ret 95;
  m1_key_type : rd f off_type = Ret KEY_TYPE_RSN;
  m1_info : rd_be16 f off_key_info = Ret MSG1_INFO;
  m1_nonce : take 32 (drop off_key_nonce f) = an;
  m1_counter : fresh_counter f s;
  m1_data : rd_be16 f off_key_data_length = Ret 0
}.

Context (malloc_ok : env_malloc env = true) (network_ok : env_network_ctx env = true).
Context (random_ok : (env_random env).1 = true) (random_len : length (env_random env).2 = 32%nat).

(** A network with a pre-shared key, and its nonce and association element. *)
Record psk_network (ie : list Z) s : Prop := {
  pn_psk : wpa_key_mgmt_wpa_ieee8021x (key_mgmt (wsm s)) = false;
  pn_nonce : length (snonce (wsm s)) = 32%nat;
  pn_ie : assoc_wpa_ie (wsm s) = Some ie;
  pn_ie_len : 95 + Z.of_nat (length ie) < 65536
}.

Definition next_snonce s : list Z :=
  if renew_snonce (wsm s) then (env_random env).2 else snonce (wsm s).

(** The key derived from the PMK, the addresses and both nonces. *)
Definition derived_ptk (an : list Z) s : list Z :=
  let m := wsm s in
  swap_mic_keys (splice (tptk m) 0
    (wpa_pmk_to_ptk (take (pmk_len m) (pmk m)) (own_addr m) (bssid m) (next_snonce s) an 48
       (wpa_key_mgmt_sha256 (key_mgmt m)))).

Lemma get_pmk_psk src s :
  wpa_key_mgmt_wpa_ieee8021x (key_mgmt (wsm s)) = false → wpa_supplicant_get_pmk env src None s = (0, s).
Proof. intros H. unfold wpa_supplicant_get_pmk. cbv zeta. by rewrite H. Qed.

Lemma answer_ok rsn ie an f s :
  rsn_ccmp rsn s → psk_network ie s → (99 ≤ length f)%nat → take 32 (drop off_key_nonce f) = an →
  ∃ s' m2, process_1_of_4_answer env f WPA_KEY_INFO_TYPE_HMAC_SHA1_AES s = Ret s' ∧
    core s' = core s ∧ rsn_ccmp rsn s' ∧ tptk_set (wsm s') = true ∧
    tptk (wsm s') = derived_ptk an s ∧ anonce (wsm s') = an ∧
    bssid (wsm s') = bssid (wsm s) ∧ key_mgmt (wsm s') = key_mgmt (wsm s) ∧
    msg2_frame (derived_ptk an s) (next_snonce s) m2 ∧
    wout s' = wout s ++ [EtherSend (bssid (wsm s)) m2; NotifyTxEapolKey].
Proof.
  intros Hs [_ Hsn Hie Hil] Hf Han. unfold process_1_of_4_answer.
  destruct (env_random env) as [rok rnd] eqn:Hr. simpl in random_ok, random_len. subst rok.
  match goal with |- context [let '(_, _) := ?x in _] => set (p := x) end.
  assert (∃ s1, p = (true, s1) ∧ snonce (wsm s1) = next_snonce s ∧ core s1 = core s ∧ wout s1 = wout s ∧
    assoc_wpa_ie (wsm s1) = Some ie ∧ bssid (wsm s1) = bssid (wsm s) ∧
    key_mgmt (wsm s1) = key_mgmt (wsm s) ∧ rsn_ccmp rsn s1 ∧
    ∀ n t, wpa_derive_ptk n t s1 = splice t 0 (wpa_pmk_to_ptk (take (pmk_len (wsm s)) (pmk (wsm s)))
      (own_addr (wsm s)) (bssid (wsm s)) (next_snonce s) n 48 (wpa_key_mgmt_sha256 (key_mgmt (wsm s)))) ∧
      tptk (wsm s1) = tptk (wsm s)) as (s1 & -> & Hn1 & Hc1 & Ho1 & Hi1 & Hb1 & Hk1 & Hs1 & Hd1).
  { unfold p, next_snonce, wpa_derive_ptk. rewrite Hr. destruct (renew_snonce (wsm s)).
    - eexists. split; [done|]. split_and!; try done; [by apply (rsn_ccmp_ext rsn s)|].
      intros n t. split; [|done]. cbn -[splice]. by rewrite (rc_pairwise _ _ Hs).
    - exists s. split_and!; try done. intros n t. split; [|done]. by rewrite (rc_pairwise _ _ Hs). }
  cbn [negb]. cbv iota. rewrite rdn_ok, run_bind_l, Han by (unfold off_key_nonce; lia).
  cbv zeta.
  match goal with |- context [wpa_supplicant_send_2_of_4 env _ f _ _ _ _ ?x] => set (s2 := x) end.
  destruct (Hd1 an (tptk (wsm s))) as [Hd Ht].
  assert (tptk (wsm s2) = derived_ptk an s) as Hk.
  { unfold s2, derived_ptk. cbn -[swap_mic_keys splice wpa_derive_ptk]. by rewrite Ht, Hd. }
  change (assoc_wpa_ie (wsm s2)) with (assoc_wpa_ie (wsm s1)). rewrite Hi1, Hk.
  change (snonce (wsm s2)) with (snonce (wsm s1)). rewrite Hn1.
  destruct (send_2_of_4_ok f (next_snonce s) ie (derived_ptk an s) s2) as (m2 & -> & Hm2);
    [done| | |done|].
  { change (bssid (wsm s2)) with (bssid (wsm s1)). apply Hs1. }
  { unfold next_snonce. rewrite Hr. by destruct (renew_snonce (wsm s)). }
  rewrite run_bind_l. eexists _, m2. split; [done|].
  change (bssid (wsm s2)) with (bssid (wsm s1)). rewrite <-Hb1.
  split_and!; try done.
  - by apply (rsn_ccmp_ext rsn s1).
  - cbn. by rewrite Ho1, <-app_assoc.
Qed.

Lemma rx_checked_msg1 src rsn ie an f s :
  rsn_ccmp rsn s → psk_network ie s → msg1_frame an f s →
  ∃ s' m2, rx_checked env src f 99 MSG1_INFO WPA_KEY_INFO_TYPE_HMAC_SHA1_AES s = Ret (1, s') ∧
    core s' = core s ∧ rsn_ccmp rsn s' ∧ tptk_set (wsm s') = true ∧
    tptk (wsm s') = derived_ptk an s ∧ anonce (wsm s') = an ∧
    bssid (wsm s') = bssid (wsm s) ∧ key_mgmt (wsm s') = key_mgmt (wsm s) ∧
    msg2_frame (derived_ptk an s) (next_snonce s) m2 ∧
    wout s' = wout s ++ [SetState WPA_4WAY_HANDSHAKE; EtherSend (bssid (wsm s)) m2; NotifyTxEapolKey].
Proof.
  intros Hs Hpsk [Hb Hl Hty Hbody Hkt Hinfo Hn Hfr Hd].
  unfold rx_checked. rewrite rdn_ok, run_bind_l by (unfold off_replay_counter; lia).
  fold (frame_counter f). rewrite (fresh_passes f s Hfr).
  change (has MSG1_INFO (Z.lor WPA_KEY_INFO_ACK WPA_KEY_INFO_SMK_MESSAGE)) with true.
  change (has MSG1_INFO WPA_KEY_INFO_REQUEST) with false.
  change (has MSG1_INFO WPA_KEY_INFO_MIC) with false. cbn [negb]. cbv iota.
  rewrite run_bind_l. cbn [negb]. cbv iota zeta. rewrite Hd, run_bind_l.
  change (Z.of_nat (99 - sizeof_1x_hdr - sizeof_wpa_key) <? 0) with false.
  change (has MSG1_INFO WPA_KEY_INFO_ENCR_KEY_DATA) with false. rewrite andb_false_r, run_bind_l.
  unfold rx_dispatch. rewrite Hd, run_bind_l.
  change (has MSG1_INFO WPA_KEY_INFO_KEY_TYPE) with true.
  change (has MSG1_INFO WPA_KEY_INFO_KEY_INDEX_MASK) with false.
  change (has MSG1_INFO WPA_KEY_INFO_MIC) with false. cbv iota.
  unfold wpa_supplicant_process_1_of_4. rewrite network_ok. cbn [negb]. cbv zeta iota.
  set (s1 := wpa_sm_set_state WPA_4WAY_HANDSHAKE s).
  assert (rsn_ccmp rsn s1) as Hs1 by (by apply (rsn_ccmp_ext rsn s)).
  rewrite (rc_proto _ _ Hs1). change (bool_decide (WPA_PROTO_RSN = WPA_PROTO_RSN)) with true. cbv iota.
  rewrite Hd, run_bind_l.
  change (wpa_supplicant_parse_ies _ (Z.to_nat 0)) with (Ret (0, no_ies)). rewrite !run_bind_l.
  change (WpaIe.pmkid no_ies) with (@None (list Z)). rewrite (get_pmk_psk src s1) by apply Hpsk. cbn [Z.eqb negb]. cbv iota.
  destruct (answer_ok rsn ie an f s1) as (s' & m2 & -> & Hrest); [done|by destruct Hpsk|lia|done|].
  rewrite run_bind_l. exists s', m2. split; [done|].
  destruct Hrest as (? & ? & ? & ? & ? & ? & ? & ? & Ho). split_and!; try done.
  rewrite Ho. cbn. by rewrite <-app_assoc.
Qed.

Lemma rx_msg1 src rsn ie an f s :
  rsn_ccmp rsn s → psk_network ie s → msg1_frame an f s →
  ∃ s' m2, wpa_sm_rx_eapol env src f s = Ret (1, s') ∧
    core s' = core s ∧ rsn_ccmp rsn s' ∧ tptk_set (wsm s') = true ∧
    tptk (wsm s') = derived_ptk an s ∧ anonce (wsm s') = an ∧
    bssid (wsm s') = bssid (wsm s) ∧ key_mgmt (wsm s') = key_mgmt (wsm s) ∧
    msg2_frame (derived_ptk an s) (next_snonce s) m2 ∧
    wout s' = wout s ++ [NotifyLowerLayerSuccess; SetState WPA_4WAY_HANDSHAKE;
                         EtherSend (bssid (wsm s)) m2; NotifyTxEapolKey].
Proof.
  intros Hs Hpsk Hm. pose proof Hm as [_ Hl Hty Hbody Hkt Hinfo _ _ _].
  unfold wpa_sm_rx_eapol, sizeof_1x_hdr, sizeof_wpa_key. cbv zeta.
  rewrite (proj2 (Nat.ltb_ge (length f) (4 + 95))), malloc_ok, Hty, run_bind_l, Hbody, run_bind_l by lia.
  cbn [negb]. cbv iota. change (TYPE_EAPOL_KEY =? TYPE_EAPOL_KEY) with true. cbn [negb]. cbv iota.
  rewrite (proj2 (Z.ltb_ge (Z.of_nat (length f) - Z.of_nat 4) _)) by lia.
  change (95 <? Z.of_nat 95) with false. cbn [orb]. cbv iota.
  rewrite Hkt, run_bind_l, Hinfo, run_bind_l.
  change (KEY_TYPE_RSN =? KEY_TYPE_RSN) with true. rewrite andb_false_r. cbv iota.
  change (Z.land MSG1_INFO WPA_KEY_INFO_TYPE_MASK) with WPA_KEY_INFO_TYPE_HMAC_SHA1_AES.
  set (s0 := effect NotifyLowerLayerSuccess s).
  assert (rsn_ccmp rsn s0) as Hs0 by (by apply (rsn_ccmp_ext rsn s)).
  assert (version_ok MSG1_INFO WPA_KEY_INFO_TYPE_HMAC_SHA1_AES s0 = true) as ->.
  { unfold version_ok. by rewrite (rc_pairwise _ _ Hs0). }
  cbn [negb]. cbv iota. change (Z.to_nat 95 + 4)%nat with 99%nat.
  destruct (rx_checked_msg1 src rsn ie an f s0) as (s' & m2 & -> & Hrest);
    [done|by destruct Hpsk|by destruct Hm|].
  exists s', m2. split; [done|].
  destruct Hrest as (? & ? & ? & ? & ? & ? & ? & ? & Ho). split_and!; try done.
  rewrite Ho. cbn. by rewrite <-app_assoc.
Qed.

Context (malloc_unwrap_ok : env_malloc_unwrap env = true)
  (driver_ok : ∀ alg key, 0 ≤ env_set_key env alg key).

(** C3: the 4-way handshake on a CCMP network with a pre-shared key.  The first
    message makes the supplicant derive the PTK from the PMK, both addresses and
    both nonces and answer with its nonce under a MIC of that PTK, without
    touching the confirmed key; an access point that uses the same PTK in the
    third message brings the connection to COMPLETED with that PTK installed. *)
Theorem wpa_4way_completes src rsn ie an f1 s :
  rsn_ccmp rsn s → psk_network ie s → msg1_frame an f1 s →
  let K := derived_ptk an s in
  ∃ s1 m2, wpa_sm_rx_eapol env src f1 s = Ret (1, s1) ∧ core s1 = core s ∧
    msg2_frame K (next_snonce s) m2 ∧
    wout s1 = wout s ++ [NotifyLowerLayerSuccess; SetState WPA_4WAY_HANDSHAKE;
                         EtherSend (bssid (wsm s)) m2; NotifyTxEapolKey] ∧
    ∀ g0 gk f3, msg3_frame K rsn g0 gk f3 s1 →
      ∃ s2 m4, wpa_sm_rx_eapol env src f3 s1 = Ret (1, s2) ∧ wstate s2 = WPA_COMPLETED ∧
        core s2 = (K, true, frame_counter f3, true) ∧
        wout s2 = wout s1 ++ NotifyLowerLayerSuccess ::
                    msg3_events K m4 g0 (take 8 (drop off_key_rsc f3)) gk s1.
Proof.
  intros Hs Hpsk Hm1 K.
  destruct (rx_msg1 src rsn ie an f1 s Hs Hpsk Hm1)
    as (s1 & m2 & Hrx & Hc & Hs1 & Hts & Ht & Ha & Hb & Hk & Hm2 & Ho).
  exists s1, m2. split_and!; try done. intros g0 gk f3 Hm3.
  destruct (rx_msg3 env alloc_ok driver_ok malloc_ok malloc_unwrap_ok src K rsn g0 gk f3 s1)
    as (s2 & m4 & H1 & H2 & H3 & _ & _ & _ & H4); [done|by left|done|]. by exists s2, m4.
Qed.
End message1.

(** ** A concrete handshake *)

Module Run.

Definition ap_rsn : list Z := [48; 2; 1; 0].
Definition group_key : list Z := repeat 9 16.
Definition gtk_elements : list element :=
  [(EID_RSN, [1; 0]); (EID_VENDOR_SPECIFIC, [0; 15; 172; 1; 1; 0] ++ group_key)].
Definition key_data : list Z := concat (enc <$> gtk_elements) ++ [EID_VENDOR_SPECIFIC; 0; 0; 0].

(** Associated with a network whose PMK is 32 bytes of 1; no key yet. *)
Definition associated : @wpa_sys unit :=
  WpaSys (WpaSm (repeat 1 32) 32 (repeat 0 64) (repeat 0 64) false false (repeat 5 32) (repeat 0 32)
            true (repeat 0 8) false (repeat 0 8) None 0 0 (repeat 2 6) (repeat 4 6) WPA_PROTO_RSN
            WPA_CIPHER_CCMP WPA_CIPHER_CCMP WPA_KEY_MGMT_PSK true (Some [48; 2; 1; 0]) None (Some ap_rsn))
    tt WPA_ASSOCIATED [].

Definition rx (f : list Z) (s : @wpa_sys unit) : @wpa_sys unit :=
  match wpa_sm_rx_eapol Demo.demo_env (repeat 4 6) f s with Ret (_, s') => s' | _ => s end.

Definition session_key : list Z := repeat 7 48 ++ repeat 0 16.
Definition frame1 : list Z := Demo.key_frame MSG1_INFO 1.
Definition frame3 (counter : Z) : list Z :=
  Demo.signed session_key
    ([2; 3; 0; 135; 2] ++ put_be16 MSG3_INFO ++ [0; 16; 0; 0; 0; 0; 0; 0; 0; counter] ++ repeat 3 32 ++
     repeat 0 16 ++ repeat 0 8 ++ repeat 0 8 ++ repeat 0 16 ++ [0; 40] ++ repeat 0 8 ++ key_data).

Definition after1 : @wpa_sys unit := rx frame1 associated.
Definition after3 : @wpa_sys unit := rx (frame3 2) after1.

Lemma key_data_ok : msg3_key_data ap_rsn 1 group_key key_data.
Proof.
  exists gtk_elements, [EID_VENDOR_SPECIFIC; 0; 0; 0], 0. split_and!; try done.
  - repeat constructor; simpl; try lia; try done; repeat (apply Forall_cons; split; [by split|]); done.
  - right. by exists 3%nat.
Qed.

Ltac computed := first [vm_compute; reflexivity|apply (bool_decide_unpack _); vm_compute; exact I].

Lemma associated_rsn : rsn_ccmp ap_rsn associated.
Proof. split; computed. Qed.
Lemma associated_psk : psk_network [48; 2; 1; 0] associated.
Proof. split; computed. Qed.
Lemma after1_rsn : rsn_ccmp ap_rsn after1.
Proof. split; computed. Qed.
Lemma frame1_ok : msg1_frame (repeat 3 32) frame1 associated.
Proof. split; computed. Qed.

Lemma frame3_ok counter (s : @wpa_sys unit) :
  (counter = 2 ∨ counter = 3) → anonce (wsm s) = repeat 3 32 → fresh_counter (frame3 counter) s →
  msg3_frame session_key ap_rsn 1 group_key (frame3 counter) s.
Proof.
  intros Hc Ha Hfr.
  split; [destruct Hc as [-> | ->]; computed..| |exact Hfr|destruct Hc as [-> | ->]; computed|].
  - rewrite Ha. destruct Hc as [-> | ->]; computed.
  - exists 4%nat, key_data. split_and!; [destruct Hc as [-> | ->]; computed..|apply key_data_ok].
Qed.

Lemma after1_fresh : fresh_counter (frame3 2) after1.
Proof. intros H. vm_compute in H. discriminate. Qed.
Lemma after3_fresh : fresh_counter (frame3 3) after3.
Proof. intros _. apply Z.ltb_lt. vm_compute. reflexivity. Qed.
Lemma driver_ok alg key : 0 ≤ env_set_key Demo.demo_env alg key.
Proof. done. Qed.

Lemma wpa_4way_completes_witness :
  ∃ s1 m2, wpa_sm_rx_eapol Demo.demo_env (repeat 4 6) frame1 associated = Ret (1, s1) ∧
    msg2_frame session_key (repeat 5 32) m2.
Proof.
  destruct (wpa_4way_completes Demo.demo_env eq_refl eq_refl eq_refl eq_refl eq_refl eq_refl driver_ok
    (repeat 4 6) ap_rsn [48; 2; 1; 0] (repeat 3 32) frame1 associated associated_rsn associated_psk
    frame1_ok) as (s1 & m2 & H1 & _ & H2 & _).
  exists s1, m2. split; [exact H1|]. exact H2.
Defined.

Lemma wpa_msg3_completes_witness :
  ∃ s' m4, wpa_sm_rx_eapol Demo.demo_env (repeat 4 6) (frame3 2) after1 = Ret (1, s') ∧
    core s' = (session_key, true, frame_counter (frame3 2), true) ∧ wstate s' = WPA_COMPLETED ∧
    wout s' = wout after1 ++ NotifyLowerLayerSuccess ::
      msg3_events session_key m4 1 (take 8 (drop off_key_rsc (frame3 2))) group_key after1.
Proof.
  apply (wpa_msg3_completes Demo.demo_env eq_refl driver_ok eq_refl eq_refl (repeat 4 6) session_key
    ap_rsn 1 group_key (frame3 2) after1); [apply after1_rsn|left; split; vm_compute; reflexivity|].
  apply frame3_ok; [by left|vm_compute; reflexivity|apply after1_fresh].
Defined.

Lemma rx_frame3 : wpa_sm_rx_eapol Demo.demo_env (repeat 4 6) (frame3 2) after1 = Ret (1, after3).
Proof. vm_compute. reflexivity. Qed.

Lemma wpa_msg3_reinstalls_witness :
  ∃ s2 l1 l2, wpa_sm_rx_eapol Demo.demo_env (repeat 4 6) (frame3 3) after3 = Ret (1, s2) ∧
    wout after3 = wout after1 ++ l1 ∧ wout s2 = wout after3 ++ l2 ∧
    let e := SetKey WPA_ALG_CCMP (Some (repeat 4 6)) 0 true (repeat 0 6) (repeat 7 16) in
    e ∈ l1 ∧ e ∈ l2.
Proof.
  apply (wpa_msg3_reinstalls Demo.demo_env eq_refl driver_ok eq_refl eq_refl (repeat 4 6) session_key
    ap_rsn 1 group_key 1 group_key (frame3 2) (frame3 3) after1 1 after3);
    [apply after1_rsn|left; split; vm_compute; reflexivity| |exact rx_frame3|].
  - apply frame3_ok; [by left|vm_compute; reflexivity|apply after1_fresh].
  - apply frame3_ok; [by right|vm_compute; reflexivity|apply after3_fresh].
Defined.

(** The third message, then its exact repetition. *)
Definition effects : list wpa_event := drop (length (wout after1)) (wout after3).
Definition trace : list (list Z * list wpa_event) :=
  [(frame3 2, effects); (frame3 2, [NotifyLowerLayerSuccess])].

Lemma trace_ok : rx_trace after1 trace (effect NotifyLowerLayerSuccess after3).
Proof.
  apply (rx_cons Demo.demo_env (repeat 4 6) _ _ 1 after3); [exact rx_frame3|vm_compute; reflexivity|].
  apply (rx_cons Demo.demo_env (repeat 4 6) _ _ (-1) (effect NotifyLowerLayerSuccess after3));
    [vm_compute; reflexivity|done|constructor].
Qed.

Lemma wpa_accepted_counters_increase_witness :
  accepted_counters trace = [2] ∧ StronglySorted Z.lt (accepted_counters trace).
Proof.
  split; [vm_compute; reflexivity|].
  apply (wpa_accepted_counters_increase after1 trace (effect NotifyLowerLayerSuccess after3) trace_ok).
  - intros H. vm_compute in H. discriminate.
  - repeat (apply Forall_cons; split; [computed|]). apply Forall_nil. exact I.
Defined.
End Run.
