(* ===== verification/RsnIe.v ===== *)
(** * WPA and RSN information elements (src/src/common/wpa_common.c, src/src/rsn_supp/wpa_ie.c)

    The parsers of the elements in beacons and handshake messages and the
    generators of the supplicant's own element, for the build without
    CONFIG_IEEE80211R and CONFIG_IEEE80211W.  A buffer is the list of its bytes,
    whose length is the length argument; the pointer [pmkid] of
    [struct wpa_ie_data] is an offset into the parsed buffer. *)

From S2P Require Import Prelude WpaIe.

(** ** Data *)

Record wpa_ie_data := IeData {
  proto : Z; pairwise_cipher : Z; group_cipher : Z; key_mgmt : Z; capabilities : Z;
  num_pmkid : Z; pmkid : option nat; mgmt_group_cipher : Z
}.

#[global] Instance eta_ie_data : Eta wpa_ie_data := λ r,
  IeData (proto r) (pairwise_cipher r) (group_cipher r) (key_mgmt r) (capabilities r) (num_pmkid r)
    (pmkid r) (mgmt_group_cipher r).

Definition WPA_PROTO_WPA : Z := 1.
Definition WPA_PROTO_RSN : Z := 2.
Definition WPA_CIPHER_NONE : Z := 1.
Definition WPA_CIPHER_WEP40 : Z := 2.
Definition WPA_CIPHER_WEP104 : Z := 4.
Definition WPA_CIPHER_TKIP : Z := 8.
Definition WPA_CIPHER_CCMP : Z := 16.
Definition WPA_KEY_MGMT_IEEE8021X : Z := 1.
Definition WPA_KEY_MGMT_PSK : Z := 2.
Definition WPA_KEY_MGMT_WPA_NONE : Z := 16.

(** The selectors of OUI 00-50-F2 (WPA) and 00-0F-AC (RSN). *)
Definition wpa_suite (n : Z) : Z := be32 0x00 0x50 0xf2 n.
Definition rsn_suite (n : Z) : Z := be32 0x00 0x0f 0xac n.

(** ** Parsing *)

Definition WPA_GET_LE16 (buf : list Z) (pos : nat) : run Z :=
  a ← rd buf pos; b ← rd buf (pos + 1); Ret (Z.lor (Z.shiftl b 8) a).

Definition rsn_selector_to_bitfield (s : Z) : Z :=
  if s =? rsn_suite 0 then WPA_CIPHER_NONE
  else if s =? rsn_suite 1 then WPA_CIPHER_WEP40
  else if s =? rsn_suite 2 then WPA_CIPHER_TKIP
  else if s =? rsn_suite 4 then WPA_CIPHER_CCMP
  else if s =? rsn_suite 5 then WPA_CIPHER_WEP104
  else 0.

Definition rsn_key_mgmt_to_bitfield (s : Z) : Z :=
  if s =? rsn_suite 1 then WPA_KEY_MGMT_IEEE8021X
  else if s =? rsn_suite 2 then WPA_KEY_MGMT_PSK
  else 0.

Definition wpa_selector_to_bitfield (s : Z) : Z :=
  if s =? wpa_suite 0 then WPA_CIPHER_NONE
  else if s =? wpa_suite 1 then WPA_CIPHER_WEP40
  else if s =? wpa_suite 2 then WPA_CIPHER_TKIP
  else if s =? wpa_suite 4 then WPA_CIPHER_CCMP
  else if s =? wpa_suite 5 then WPA_CIPHER_WEP104
  else 0.

Definition wpa_key_mgmt_to_bitfield (s : Z) : Z :=
  if s =? wpa_suite 1 then WPA_KEY_MGMT_IEEE8021X
  else if s =? wpa_suite 2 then WPA_KEY_MGMT_PSK
  else if s =? wpa_suite 0 then WPA_KEY_MGMT_WPA_NONE
  else 0.

(** The element parsed so far with [pos] and [left], or the early return. *)
Definition parsing : Type := (Z * wpa_ie_data) + (wpa_ie_data * nat * nat).
Definition andthen (m : run parsing) (k : wpa_ie_data → nat → nat → run parsing) : run parsing :=
  m ≫= λ r, match r with inl e => Ret (inl e) | inr (d, pos, lft) => k d pos lft end.
Definition finish (m : run parsing) : run (Z * wpa_ie_data) :=
  m ≫= λ r, match r with inl e => Ret e | inr (d, _, _) => Ret (0, d) end.

(** [for (i = 0; i < count; i++) *field |= to_bitfield(pos)] *)
Fixpoint or_suites (to_bitfield : Z → Z) (buf : list Z) (pos count : nat) (acc : Z) : run Z :=
  match count with
  | O => Ret acc
  | S count =>
      s ← RSN_SELECTOR_GET buf pos;
      or_suites to_bitfield buf (pos + 4) count (Z.lor acc (to_bitfield s))
  end.

(** A counted list of suites into the field [set]; [botch] and [short] are the
    error returns. *)
Definition suite_list (to_bitfield : Z → Z) (set : Z → wpa_ie_data → wpa_ie_data) (botch short : Z)
    (buf : list Z) (d : wpa_ie_data) (pos lft : nat) : run parsing :=
  if (2 <=? lft)%nat then
    let d := set 0 d in
    count ← WPA_GET_LE16 buf pos;
    let count := Z.to_nat count in
    let '(pos, lft) := (pos + 2, lft - 2)%nat in
    if (count =? 0)%nat || (lft <? count * 4)%nat then Ret (inl (botch, d))
    else v ← or_suites to_bitfield buf pos count 0;
         Ret (inr (set v d, pos + 4 * count, lft - 4 * count)%nat)
  else if (lft =? 1)%nat then Ret (inl (short, d))
  else Ret (inr (d, pos, lft)).

Definition group_suite (to_bitfield : Z → Z) (buf : list Z) (d : wpa_ie_data) (pos lft : nat)
  : run parsing :=
  if (4 <=? lft)%nat then
    s ← RSN_SELECTOR_GET buf pos;
    Ret (inr (d <| group_cipher := to_bitfield s |>, pos + 4, lft - 4)%nat)
  else if (0 <? lft)%nat then Ret (inl (-3, d))
  else Ret (inr (d, pos, lft)).

Definition set_pairwise (v : Z) (d : wpa_ie_data) : wpa_ie_data := d <| pairwise_cipher := v |>.
Definition set_key_mgmt (v : Z) (d : wpa_ie_data) : wpa_ie_data := d <| key_mgmt := v |>.

Definition get_capabilities (buf : list Z) (d : wpa_ie_data) (pos lft : nat) : run parsing :=
  if (2 <=? lft)%nat then
    c ← WPA_GET_LE16 buf pos; Ret (inr (d <| capabilities := c |>, pos + 2, lft - 2)%nat)
  else Ret (inr (d, pos, lft)).

Definition get_pmkids (buf : list Z) (d : wpa_ie_data) (pos lft : nat) : run parsing :=
  if (2 <=? lft)%nat then
    n ← WPA_GET_LE16 buf pos;
    let d := d <| num_pmkid := n |> in
    let '(pos, lft) := (pos + 2, lft - 2)%nat in
    if (lft <? Z.to_nat n * 16)%nat then Ret (inl (-9, d <| num_pmkid := 0 |>))
    else Ret (inr (d <| pmkid := Some pos |>, pos + 16 * Z.to_nat n, lft - 16 * Z.to_nat n)%nat)
  else Ret (inr (d, pos, lft)).

Definition wpa_parse_wpa_ie_rsn (rsn_ie : list Z) : run (Z * wpa_ie_data) :=
  let d := IeData WPA_PROTO_RSN WPA_CIPHER_CCMP WPA_CIPHER_CCMP WPA_KEY_MGMT_IEEE8021X 0 0 None 0 in
  if (length rsn_ie =? 0)%nat then Ret (-1, d)
  else if (length rsn_ie <? 4)%nat then Ret (-1, d)
  else
    elem_id ← rd rsn_ie 0; len ← rd rsn_ie 1; version ← WPA_GET_LE16 rsn_ie 2;
    if negb (elem_id =? EID_RSN) || negb (len =? Z.of_nat (length rsn_ie) - 2) || negb (version =? 1)
    then Ret (-2, d)
    else
      finish
        (andthen (group_suite rsn_selector_to_bitfield rsn_ie d 4 (length rsn_ie - 4)) (λ d pos lft,
         andthen (suite_list rsn_selector_to_bitfield set_pairwise (-4) (-5) rsn_ie d pos lft) (λ d pos lft,
         andthen (suite_list rsn_key_mgmt_to_bitfield set_key_mgmt (-6) (-7) rsn_ie d pos lft) (λ d pos lft,
         andthen (get_capabilities rsn_ie d pos lft) (λ d pos lft,
         get_pmkids rsn_ie d pos lft))))).

Definition wpa_parse_wpa_ie_wpa (wpa_ie : list Z) : run (Z * wpa_ie_data) :=
  let d := IeData WPA_PROTO_WPA WPA_CIPHER_TKIP WPA_CIPHER_TKIP WPA_KEY_MGMT_IEEE8021X 0 0 None 0 in
  if (length wpa_ie =? 0)%nat then Ret (-1, d)
  else if (length wpa_ie <? 8)%nat then Ret (-1, d)
  else
    elem_id ← rd wpa_ie 0; len ← rd wpa_ie 1; oui ← RSN_SELECTOR_GET wpa_ie 2;
    version ← WPA_GET_LE16 wpa_ie 6;
    if negb (elem_id =? EID_VENDOR_SPECIFIC) || negb (len =? Z.of_nat (length wpa_ie) - 2) ||
       negb (oui =? WPA_OUI_TYPE) || negb (version =? 1)
    then Ret (-2, d)
    else
      finish
        (andthen (group_suite wpa_selector_to_bitfield wpa_ie d 8 (length wpa_ie - 8)) (λ d pos lft,
         andthen (suite_list wpa_selector_to_bitfield set_pairwise (-4) (-5) wpa_ie d pos lft) (λ d pos lft,
         andthen (suite_list wpa_key_mgmt_to_bitfield set_key_mgmt (-6) (-7) wpa_ie d pos lft) (λ d pos lft,
         get_capabilities wpa_ie d pos lft)))).

Definition wpa_parse_wpa_ie (wpa_ie : list Z) : run (Z * wpa_ie_data) :=
  if match wpa_ie with b :: _ => b =? EID_RSN | [] => false end
  then wpa_parse_wpa_ie_rsn wpa_ie else wpa_parse_wpa_ie_wpa wpa_ie.

(** ** Generation

    The buffer written so far with the return value. *)

Definition RSN_SELECTOR_PUT (buf : list Z) (pos : nat) (v : Z) : list Z :=
  splice buf pos [u8 (Z.shiftr v 24); u8 (Z.shiftr v 16); u8 (Z.shiftr v 8); u8 v].

Definition group_selector (suite : Z → Z) (c : Z) : option Z :=
  if c =? WPA_CIPHER_CCMP then Some (suite 4)
  else if c =? WPA_CIPHER_TKIP then Some (suite 2)
  else if c =? WPA_CIPHER_WEP104 then Some (suite 5)
  else if c =? WPA_CIPHER_WEP40 then Some (suite 1)
  else None.
Definition pairwise_selector (suite : Z → Z) (c : Z) : option Z :=
  if c =? WPA_CIPHER_CCMP then Some (suite 4)
  else if c =? WPA_CIPHER_TKIP then Some (suite 2)
  else if c =? WPA_CIPHER_NONE then Some (suite 0)
  else None.
Definition rsn_key_mgmt_selector (k : Z) : option Z :=
  if k =? WPA_KEY_MGMT_IEEE8021X then Some (rsn_suite 1)
  else if k =? WPA_KEY_MGMT_PSK then Some (rsn_suite 2)
  else None.
Definition wpa_key_mgmt_selector (k : Z) : option Z :=
  if k =? WPA_KEY_MGMT_IEEE8021X then Some (wpa_suite 1)
  else if k =? WPA_KEY_MGMT_PSK then Some (wpa_suite 2)
  else if k =? WPA_KEY_MGMT_WPA_NONE then Some (wpa_suite 0)
  else None.

(** The three suites after a header of [pos] bytes; [inl] is the return of -1. *)
Definition gen_suites (buf : list Z) (pos : nat) (group pairwise akm : option Z) : list Z + list Z :=
  match group with
  | None => inl buf
  | Some g =>
      let buf := RSN_SELECTOR_PUT buf pos g in
      let buf := splice buf (pos + 4) [1; 0] in
      match pairwise with
      | None => inl buf
      | Some p =>
          let buf := RSN_SELECTOR_PUT buf (pos + 6) p in
          let buf := splice buf (pos + 10) [1; 0] in
          match akm with
          | None => inl buf
          | Some k => inr (RSN_SELECTOR_PUT buf (pos + 12) k)
          end
      end
  end.

Definition wpa_gen_wpa_ie_wpa (wpa_ie : list Z) (pairwise_cipher group_cipher key_mgmt : Z)
  : Z * list Z :=
  if (length wpa_ie <? 8 + 4 + 2 + 4 + 2 + 4)%nat then (-1, wpa_ie)
  else
    let buf := splice wpa_ie 0 [EID_VENDOR_SPECIFIC] in
    let buf := RSN_SELECTOR_PUT buf 2 WPA_OUI_TYPE in
    let buf := splice buf 6 [1; 0] in
    match gen_suites buf 8 (group_selector wpa_suite group_cipher)
            (pairwise_selector wpa_suite pairwise_cipher) (wpa_key_mgmt_selector key_mgmt) with
    | inl buf => (-1, buf)
    | inr buf => (24, splice buf 1 [22])
    end.

(** [cur_pmkid] is the PMKID of [sm->cur_pmksa], if there is one. *)
Definition wpa_gen_wpa_ie_rsn (rsn_ie : list Z) (pairwise_cipher group_cipher key_mgmt : Z)
    (cur_pmkid : option (list Z)) : Z * list Z :=
  if (length rsn_ie <? 4 + 4 + 2 + 4 + 2 + 4 + 2 + match cur_pmkid with Some _ => 18 | None => 0 end)%nat
  then (-1, rsn_ie)
  else
    let buf := splice rsn_ie 0 [EID_RSN] in
    let buf := splice buf 2 [1; 0] in
    match gen_suites buf 4 (group_selector rsn_suite group_cipher)
            (pairwise_selector rsn_suite pairwise_cipher) (rsn_key_mgmt_selector key_mgmt) with
    | inl buf => (-1, buf)
    | inr buf =>
        let buf := splice buf 20 [0; 0] in
        match cur_pmkid with
        | Some id =>
            let buf := splice buf 22 [1; 0] in
            let buf := splice buf 24 (take 16 id) in
            (40, splice buf 1 [38])
        | None => (22, splice buf 1 [20])
        end
    end.

Definition wpa_gen_wpa_ie (proto pairwise_cipher group_cipher key_mgmt : Z)
    (cur_pmkid : option (list Z)) (wpa_ie : list Z) : Z * list Z :=
  if proto =? WPA_PROTO_RSN
  then wpa_gen_wpa_ie_rsn wpa_ie pairwise_cipher group_cipher key_mgmt cur_pmkid
  else wpa_gen_wpa_ie_wpa wpa_ie pairwise_cipher group_cipher key_mgmt.

Example rsn_ie_example :
  wpa_gen_wpa_ie WPA_PROTO_RSN WPA_CIPHER_CCMP WPA_CIPHER_TKIP WPA_KEY_MGMT_PSK None (repeat 7 24) =
  (22, [48; 20; 1; 0; 0; 0x0f; 0xac; 2; 1; 0; 0; 0x0f; 0xac; 4; 1; 0; 0; 0x0f; 0xac; 2; 0; 0; 7; 7]).
Proof. reflexivity. Qed.

(** ** Parsing never reads outside the element *)

(** What the callers rely on in the parsed data. *)
Definition data_ok (buf : list Z) (d : wpa_ie_data) : Prop :=
  0 ≤ pairwise_cipher d < 32 ∧ 0 ≤ group_cipher d < 32 ∧ 0 ≤ key_mgmt d < 32 ∧
  is_u16 (capabilities d) ∧ mgmt_group_cipher d = 0 ∧
  match pmkid d with
  | None => num_pmkid d = 0
  | Some off => 0 ≤ num_pmkid d ∧ (off + 16 * Z.to_nat (num_pmkid d) ≤ length buf)%nat
  end.

(** The result of a stage: an error without PMKIDs, or the data with the rest of
    the element. *)
Definition stage_ok (buf : list Z) (m : run parsing) : Prop :=
  match m with
  | Ret (inl (e, d)) => -9 ≤ e < 0 ∧ data_ok buf d ∧ num_pmkid d = 0
  | Ret (inr (d, pos, lft)) => (pos + lft)%nat = length buf ∧ data_ok buf d
  | _ => False
  end.
Definition before_pmkid (m : run parsing) : Prop :=
  match m with Ret (inr (d, _, _)) => pmkid d = None ∧ num_pmkid d = 0 | _ => True end.

Lemma andthen_ok buf m k :
  stage_ok buf m → before_pmkid m →
  (∀ d pos lft, (pos + lft)%nat = length buf → data_ok buf d → pmkid d = None → num_pmkid d = 0 →
    stage_ok buf (k d pos lft)) →
  stage_ok buf (andthen m k).
Proof.
  unfold andthen. destruct m as [[[e d]|[[d pos] lft]]| |]; simpl; [done| |done..].
  intros [Hl Hd] [Hp Hn] Hk. by apply Hk.
Qed.

Lemma andthen_before m k :
  before_pmkid m →
  (∀ d pos lft, pmkid d = None → num_pmkid d = 0 → before_pmkid (k d pos lft)) →
  before_pmkid (andthen m k).
Proof.
  unfold andthen. destruct m as [[[e d]|[[d pos] lft]]| |]; simpl; [done| |done..].
  intros [Hp Hn] Hk. by apply Hk.
Qed.

Lemma lor_range32 a b : 0 ≤ a < 32 → 0 ≤ b < 32 → 0 ≤ Z.lor a b < 32.
Proof.
  intros Ha Hb. split; [apply Z.lor_nonneg; lia|].
  destruct (decide (Z.lor a b = 0)) as [->|Hz]; [lia|].
  pose proof (proj2 (Z.lor_nonneg a b)). change 32 with (2 ^ 5). apply Z.log2_lt_pow2; [lia|].
  rewrite Z.log2_lor by lia.
  destruct (decide (a = 0)) as [->|], (decide (b = 0)) as [->|]; simpl; try lia;
    apply Z.max_lub_lt; try lia; apply Z.log2_lt_pow2; lia.
Qed.

(** A bit field of a suite. *)
Definition field_ok (f : Z → Z) : Prop := ∀ s, 0 ≤ f s < 32.
Lemma to_bitfield_ok :
  field_ok rsn_selector_to_bitfield ∧ field_ok rsn_key_mgmt_to_bitfield ∧
  field_ok wpa_selector_to_bitfield ∧ field_ok wpa_key_mgmt_to_bitfield.
Proof.
  split_and!; intros s; unfold rsn_selector_to_bitfield, rsn_key_mgmt_to_bitfield,
    wpa_selector_to_bitfield, wpa_key_mgmt_to_bitfield; repeat if_branch; by split.
Qed.

Section safe.
Context (buf : list Z) (Hbuf : bytes_ok buf).

Lemma selector_get_ok pos : (pos + 4 ≤ length buf)%nat → ∃ s, RSN_SELECTOR_GET buf pos = Ret s.
Proof using.
  intros H. unfold RSN_SELECTOR_GET.
  destruct (rd_lt buf pos) as (a & -> & _); [lia|]. destruct (rd_lt buf (pos + 1)) as (b & -> & _); [lia|].
  destruct (rd_lt buf (pos + 2)) as (c & -> & _); [lia|].
  destruct (rd_lt buf (pos + 3)) as (d & -> & _); [lia|]. by eexists.
Qed.

Lemma get_le16_ok pos : (pos + 2 ≤ length buf)%nat → ∃ v, WPA_GET_LE16 buf pos = Ret v ∧ is_u16 v.
Proof using Hbuf.
  intros H. unfold WPA_GET_LE16.
  destruct (rd_lt buf pos) as (a & -> & Ha); [lia|].
  destruct (rd_lt buf (pos + 1)) as (b & -> & Hb); [lia|]. simpl. eexists. split; [done|].
  apply (bytes_ok_lookup _ _ _ Hbuf) in Ha, Hb. unfold is_byte, is_u16 in *.
  rewrite lor_shiftl_add by lia. lia.
Qed.

Lemma or_suites_ok f pos count acc :
  field_ok f → 0 ≤ acc < 32 → (pos + 4 * count ≤ length buf)%nat →
  ∃ v, or_suites f buf pos count acc = Ret v ∧ 0 ≤ v < 32.
Proof using.
  intros Hf. revert pos acc. induction count as [|count IH]; intros pos acc Ha Hl; simpl; [eauto|].
  destruct (selector_get_ok pos) as [s ->]; [lia|]. simpl. apply IH; [|lia].
  by apply lor_range32.
Qed.

Lemma group_suite_ok f d pos lft :
  field_ok f → (pos + lft)%nat = length buf → data_ok buf d → pmkid d = None → num_pmkid d = 0 →
  stage_ok buf (group_suite f buf d pos lft) ∧ before_pmkid (group_suite f buf d pos lft).
Proof using.
  intros Hf Hl Hd Hp Hn. unfold group_suite. destruct (Nat.leb_spec 4 lft).
  - destruct (selector_get_ok pos) as [s ->]; [lia|]. simpl. split; [|done]. split; [lia|].
    destruct Hd as (? & ? & ? & ? & ? & ?). pose proof (Hf s). split_and!; simpl; done || lia.
  - if_branch; simpl; (split; [|done]); [done|]. done.
Qed.

(** A field that takes suites. *)
Definition setter_ok (set : Z → wpa_ie_data → wpa_ie_data) : Prop :=
  ∀ v d, (data_ok buf d → 0 ≤ v < 32 → data_ok buf (set v d)) ∧ pmkid (set v d) = pmkid d ∧
         num_pmkid (set v d) = num_pmkid d.

Lemma setters_ok : setter_ok set_pairwise ∧ setter_ok set_key_mgmt.
Proof using. split; intros v d; (split; [|done]); intros (? & ? & ? & ? & ? & ?) ?; split_and!; simpl; done || lia. Qed.

Lemma suite_list_ok f set e1 e2 d pos lft :
  field_ok f → setter_ok set → -9 ≤ e1 < 0 → -9 ≤ e2 < 0 → (pos + lft)%nat = length buf → data_ok buf d →
  pmkid d = None → num_pmkid d = 0 →
  stage_ok buf (suite_list f set e1 e2 buf d pos lft) ∧ before_pmkid (suite_list f set e1 e2 buf d pos lft).
Proof using Hbuf.
  intros Hf Hs H1 H2 Hl Hd Hp Hn. unfold suite_list. destruct (Nat.leb_spec 2 lft).
  - destruct (get_le16_ok pos) as (c & -> & Hc); [lia|]. rewrite run_bind_l. cbv zeta.
    destruct (Hs 0 d) as (Hd0 & Hp0 & Hn0). if_branch.
    { simpl. split; [|done]. split; [lia|]. split; [apply Hd0; [done|lia]|congruence]. }
    apply orb_false_iff in Heqb as [_ Hc2%Nat.ltb_ge].
    destruct (or_suites_ok f (pos + 2) (Z.to_nat c) 0) as (v & -> & Hv); [done|lia|lia|].
    destruct (Hs v (set 0 d)) as (Hdv & Hpv & Hnv). simpl.
    split; [split; [lia|apply Hdv; [apply Hd0; [done|lia]|done]]|]. split; congruence.
  - if_branch; simpl; (split; [|done]); done.
Qed.

Lemma get_capabilities_ok d pos lft :
  (pos + lft)%nat = length buf → data_ok buf d → pmkid d = None → num_pmkid d = 0 →
  stage_ok buf (get_capabilities buf d pos lft) ∧ before_pmkid (get_capabilities buf d pos lft).
Proof using Hbuf.
  intros Hl Hd Hp Hn. unfold get_capabilities. destruct (Nat.leb_spec 2 lft); [|done].
  destruct (get_le16_ok pos) as (c & -> & Hc); [lia|]. simpl. split; [|done]. split; [lia|].
  destruct Hd as (? & ? & ? & ? & ? & ?). unfold is_u16 in *. split_and!; simpl; done || lia.
Qed.

Lemma get_pmkids_ok d pos lft :
  (pos + lft)%nat = length buf → data_ok buf d → pmkid d = None → num_pmkid d = 0 →
  stage_ok buf (get_pmkids buf d pos lft).
Proof using Hbuf.
  intros Hl Hd Hp Hn. unfold get_pmkids. destruct (Nat.leb_spec 2 lft); [|done].
  destruct (get_le16_ok pos) as (c & -> & Hc); [lia|]. rewrite run_bind_l. cbv zeta.
  destruct Hd as (? & ? & ? & ? & ? & _). unfold is_u16 in Hc. if_branch.
  - simpl. split; [lia|]. split; [|done]. unfold is_u16 in *. split_and!; simpl; try (done || lia). by rewrite Hp.
  - apply Nat.ltb_ge in Heqb. simpl. split; [lia|]. unfold is_u16 in *. split_and!; simpl; done || lia.
Qed.
End safe.

Lemma finish_ok buf m : stage_ok buf m →
  ∃ r d, finish m = Ret (r, d) ∧ -9 ≤ r ≤ 0 ∧ data_ok buf d ∧ (r < 0 → num_pmkid d = 0).
Proof.
  destruct m as [[[e d]|[[d pos] lft]]| |]; simpl; [| |done..].
  - intros (? & ? & ?). exists e, d. split_and!; try done; lia.
  - intros [? ?]. exists 0, d. split_and!; try done; lia.
Qed.

Lemma parse_rsn_ok buf : bytes_ok buf →
  ∃ r d, wpa_parse_wpa_ie_rsn buf = Ret (r, d) ∧ -9 ≤ r ≤ 0 ∧ data_ok buf d ∧ (r < 0 → num_pmkid d = 0).
Proof.
  intros Hb. destruct to_bitfield_ok as (F1 & F2 & _ & _). destruct (setters_ok buf) as [S1 S2].
  unfold wpa_parse_wpa_ie_rsn. set (d0 := IeData _ _ _ _ _ _ _ _).
  assert (Hd0 : data_ok buf d0) by (unfold d0; split_and!; simpl; done || lia).
  destruct (Nat.eqb_spec (length buf) 0); [by exists (-1), d0|].
  destruct (Nat.ltb_spec (length buf) 4); [by exists (-1), d0|].
  destruct (rd_lt buf 0) as (x & -> & _); [lia|]. destruct (rd_lt buf 1) as (y & -> & _); [lia|].
  destruct (get_le16_ok buf Hb 2) as (v & -> & _); [lia|]. rewrite !run_bind_l.
  if_branch; [by exists (-2), d0|]. apply finish_ok.
  apply andthen_ok; [apply group_suite_ok; done || (simpl; lia)..|]. intros d1 p1 l1 ? ? ? ?.
  apply andthen_ok; [apply suite_list_ok; done..|]. intros d2 p2 l2 ? ? ? ?.
  apply andthen_ok; [apply suite_list_ok; done..|]. intros d3 p3 l3 ? ? ? ?.
  apply andthen_ok; [apply get_capabilities_ok; done..|]. intros d4 p4 l4 ? ? ? ?.
  by apply get_pmkids_ok.
Qed.

Lemma parse_wpa_ok buf : bytes_ok buf →
  ∃ r d, wpa_parse_wpa_ie_wpa buf = Ret (r, d) ∧ -9 ≤ r ≤ 0 ∧ data_ok buf d ∧ (r < 0 → num_pmkid d = 0).
Proof.
  intros Hb. destruct to_bitfield_ok as (_ & _ & F1 & F2). destruct (setters_ok buf) as [S1 S2].
  unfold wpa_parse_wpa_ie_wpa. set (d0 := IeData _ _ _ _ _ _ _ _).
  assert (Hd0 : data_ok buf d0) by (unfold d0; split_and!; simpl; done || lia).
  destruct (Nat.eqb_spec (length buf) 0); [by exists (-1), d0|].
  destruct (Nat.ltb_spec (length buf) 8); [by exists (-1), d0|].
  destruct (rd_lt buf 0) as (x & -> & _); [lia|]. destruct (rd_lt buf 1) as (y & -> & _); [lia|].
  destruct (selector_get_ok buf 2) as [o ->]; [lia|].
  destruct (get_le16_ok buf Hb 6) as (v & -> & _); [lia|]. rewrite !run_bind_l.
  if_branch; [by exists (-2), d0|]. apply finish_ok.
  apply andthen_ok; [apply group_suite_ok; done || (simpl; lia)..|]. intros d1 p1 l1 ? ? ? ?.
  apply andthen_ok; [apply suite_list_ok; done..|]. intros d2 p2 l2 ? ? ? ?.
  apply andthen_ok; [apply suite_list_ok; done..|]. intros d3 p3 l3 ? ? ? ?.
  by apply get_capabilities_ok.
Qed.

(** C35: parsing any received WPA or RSN element ends without reading outside it,
    with 0 or one of the error codes, and with well-formed data: cipher and key
    management fields are sets of the suites the program knows, the capabilities 16 bits,
    and the PMKID list, if there is one, lies inside the element; after an error
    there are no PMKIDs. *)
Theorem wpa_parse_wpa_ie_safe buf :
  bytes_ok buf →
  ∃ r d, wpa_parse_wpa_ie buf = Ret (r, d) ∧ -9 ≤ r ≤ 0 ∧ data_ok buf d ∧ (r < 0 → num_pmkid d = 0).
Proof. intros Hb. unfold wpa_parse_wpa_ie. if_branch; [by apply parse_rsn_ok|by apply parse_wpa_ok]. Qed.

(** ** The generated element is parsed back *)

(** The first [n] bytes of a buffer, named. *)
Tactic Notation "buffer_bytes" hyp(buf) integer(n) :=
  do n (destruct buf as [|? buf]; [simpl in *; lia|]).

(** The suites a generator accepts; the others return -1. *)
Ltac suite_cases Hg :=
  repeat match type of Hg with context [?x =? ?y] =>
    is_var x; destruct (Z.eqb_spec x y) as [->|_] end; try by simplify_eq.

Lemma gen_rsn_parse buf pw g km id n buf' :
  wpa_gen_wpa_ie_rsn buf pw g km id = (n, buf') → n ≠ -1 → (∀ i, id = Some i → length i = 16%nat) →
  ∃ d, wpa_parse_wpa_ie (take (Z.to_nat n) buf') = Ret (0, d) ∧ proto d = WPA_PROTO_RSN ∧
    pairwise_cipher d = pw ∧ group_cipher d = g ∧ key_mgmt d = km ∧ capabilities d = 0 ∧
    match id with
    | Some i => num_pmkid d = 1 ∧ pmkid d = Some 24%nat ∧ take 16 (drop 24 buf') = i
    | None => num_pmkid d = 0
    end.
Proof.
  unfold wpa_gen_wpa_ie_rsn, group_selector, pairwise_selector, rsn_key_mgmt_selector, gen_suites.
  if_branch; [by intros [= <- <-]|]. apply Nat.ltb_ge in Heqb. intros Hg Hn Hid.
  suite_cases Hg.
  all: destruct id as [i|];
    [specialize (Hid i eq_refl); buffer_bytes buf 40; buffer_bytes i 16; destruct i; [|done]
    |buffer_bytes buf 22].
  all: injection Hg as <- <-; eexists; split; [reflexivity|]; done.
Qed.

Lemma gen_wpa_parse buf pw g km n buf' :
  wpa_gen_wpa_ie_wpa buf pw g km = (n, buf') → n ≠ -1 →
  ∃ d, wpa_parse_wpa_ie (take (Z.to_nat n) buf') = Ret (0, d) ∧ proto d = WPA_PROTO_WPA ∧
    pairwise_cipher d = pw ∧ group_cipher d = g ∧ key_mgmt d = km ∧ capabilities d = 0 ∧ num_pmkid d = 0.
Proof.
  unfold wpa_gen_wpa_ie_wpa, group_selector, pairwise_selector, wpa_key_mgmt_selector, gen_suites.
  if_branch; [by intros [= <- <-]|]. apply Nat.ltb_ge in Heqb. intros Hg Hn.
  suite_cases Hg. all: buffer_bytes buf 24; injection Hg as <- <-; eexists; split; [reflexivity|]; done.
Qed.

(** C30: the element the supplicant generates for its association request is
    parsed back to the configuration it was generated from: protocol, ciphers, key
    management, no capabilities, and for RSN with a cached PMKSA exactly its
    PMKID. *)
Theorem wpa_gen_parse_roundtrip p pw g km id buf n buf' :
  wpa_gen_wpa_ie p pw g km id buf = (n, buf') → n ≠ -1 → (∀ i, id = Some i → length i = 16%nat) →
  ∃ d, wpa_parse_wpa_ie (take (Z.to_nat n) buf') = Ret (0, d) ∧
    proto d = (if p =? WPA_PROTO_RSN then WPA_PROTO_RSN else WPA_PROTO_WPA) ∧
    pairwise_cipher d = pw ∧ group_cipher d = g ∧ key_mgmt d = km ∧ capabilities d = 0 ∧
    match (if p =? WPA_PROTO_RSN then id else None) with
    | Some i => num_pmkid d = 1 ∧ pmkid d = Some 24%nat ∧ take 16 (drop 24 buf') = i
    | None => num_pmkid d = 0
    end.
Proof.
  unfold wpa_gen_wpa_ie. if_branch; intros Hg Hn Hid; [by eapply gen_rsn_parse|by eapply gen_wpa_parse].
Qed.

Lemma wpa_parse_wpa_ie_safe_witness :
  ∃ r d, wpa_parse_wpa_ie [48; 3; 1; 0; 7] = Ret (r, d) ∧ -9 ≤ r ≤ 0 ∧ data_ok [48; 3; 1; 0; 7] d ∧
    (r < 0 → num_pmkid d = 0).
Proof.
  apply (wpa_parse_wpa_ie_safe [48; 3; 1; 0; 7]).
  unfold bytes_ok. repeat (apply Forall_cons; split; [unfold is_byte; lia|]). constructor.
Defined.

Lemma wpa_gen_parse_roundtrip_witness :
  ∃ d, wpa_parse_wpa_ie (take 40 (wpa_gen_wpa_ie 2 16 8 1 (Some (repeat 3 16)) (repeat 0 64)).2) = Ret (0, d) ∧
    pairwise_cipher d = 16 ∧ group_cipher d = 8 ∧ num_pmkid d = 1.
Proof.
  destruct (wpa_gen_parse_roundtrip 2 16 8 1 (Some (repeat 3 16)) (repeat 0 64) 40
              (wpa_gen_wpa_ie 2 16 8 1 (Some (repeat 3 16)) (repeat 0 64)).2)
    as (d & H & _ & Hp & Hg & _ & _ & Hn & _); [reflexivity|discriminate|by intros i [= <-]|].
  exists d. split; [exact H|]. split; [exact Hp|]. split; [exact Hg|exact Hn].
Defined.
