(* ===== verification/WpaConf.v ===== *)
(** * Configuration and life cycle of the RSN component (src/src/rsn_supp/wpa.c, wpa.h)

    The part of wpa.c besides the handshakes: creation, the network configuration, the
    parameters, the elements of the own association request and of the access point,
    and disassociation.  A [rsn_supp] is the state of the handshakes of WpaSm with the
    other fields of [struct wpa_sm]. *)

From S2P Require Import Prelude WpaIe RsnIe WpaSm.

(** ** State *)

Record rsn_params := RsnParams {
  dot11RSNAConfigPMKLifetime : Z; dot11RSNAConfigPMKReauthThreshold : Z; dot11RSNAConfigSATimeout : Z;
  dot11RSNA4WayHandshakeFailures : Z;
  ssid : list Z; ssid_len : nat;
  peerkey_enabled : Z; allowed_pairwise_cipher : Z; proactive_key_caching : Z; eap_workaround : Z;
  eap_conf_ctx : Z; fast_reauth : Z; mfp : Z
}.

#[global] Instance eta_rsn_params : Eta rsn_params := λ r,
  RsnParams (dot11RSNAConfigPMKLifetime r) (dot11RSNAConfigPMKReauthThreshold r) (dot11RSNAConfigSATimeout r)
    (dot11RSNA4WayHandshakeFailures r) (ssid r) (ssid_len r) (peerkey_enabled r) (allowed_pairwise_cipher r)
    (proactive_key_caching r) (eap_workaround r) (eap_conf_ctx r) (fast_reauth r) (mfp r).

(** [struct rsn_supp_config]; a pointer to the network is the number of its address,
    and [None] is a null SSID. *)
Record rsn_supp_config := RsnSuppConfig {
  c_network_ctx : Z; c_peerkey_enabled : Z; c_allowed_pairwise_cipher : Z; c_proactive_key_caching : Z;
  c_eap_workaround : Z; c_eap_conf_ctx : Z; c_ssid : option (list Z); c_wpa_ptk_rekey : Z
}.

Inductive wpa_sm_conf_params :=
| RSNA_PMK_LIFETIME | RSNA_PMK_REAUTH_THRESHOLD | RSNA_SA_TIMEOUT | WPA_PARAM_PROTO | WPA_PARAM_PAIRWISE
| WPA_PARAM_GROUP | WPA_PARAM_KEY_MGMT | WPA_PARAM_MGMT_GROUP | WPA_PARAM_RSN_ENABLED | WPA_PARAM_MFP.

Section conf.
Context {crypto : WpaCrypto} {C : Type} {cache : PmksaCache C}.

Record rsn_supp := RsnSupp { rsys : @wpa_sys C; rpar : rsn_params }.

#[global] Instance eta_rsn_supp : Eta rsn_supp := λ r, RsnSupp (rsys r) (rpar r).

Local Notation "s .[ f := v ]" := (s <| rsys := (rsys s) <| wsm := (wsm (rsys s)) <| f := v |> |> |>)
  (at level 1, f at next level, left associativity).
Local Notation "s .{ f := v }" := (s <| rpar := (rpar s) <| f := v |> |>)
  (at level 1, f at next level, left associativity).

(** ** Operations *)

(** [os_zalloc]: every field is zero; [c] is the new cache, [None] if that failed. *)
Definition wpa_sm_zero : wpa_sm :=
  WpaSm (repeat 0 32) 0 (repeat 0 64) (repeat 0 64) false false (repeat 0 32) (repeat 0 32) false
    (repeat 0 8) false (repeat 0 8) None 0 0 (repeat 0 6) (repeat 0 6) WPA_PROTO_WPA 0 0 0 false None None None.
Definition wpa_sm_init (zalloc_ok : bool) (c : option C) (st : wpa_states) : option rsn_supp :=
  if negb zalloc_ok then None
  else match c with
       | None => None
       | Some c =>
           Some (RsnSupp (WpaSys (wpa_sm_zero <| renew_snonce := true |>) c st [])
                   (RsnParams 43200 70 60 0 (repeat 0 32) 0 0 0 0 0 0 0 0))
       end.

Definition wpa_sm_notify_disassoc (s : rsn_supp) : rsn_supp :=
  let s := s <| rsys := effect PreauthDeinit (rsys s) |> in
  if bool_decide (wstate (rsys s) = WPA_4WAY_HANDSHAKE)
  then s.{dot11RSNA4WayHandshakeFailures := u32 (dot11RSNA4WayHandshakeFailures (rpar s) + 1)}
  else s.

Definition wpa_sm_set_fast_reauth (v : Z) (s : rsn_supp) : rsn_supp := s.{fast_reauth := v}.

Definition wpa_sm_set_config (config : option rsn_supp_config) (s : rsn_supp) : rsn_supp :=
  match config with
  | Some c =>
      let s := s.[network_ctx := c_network_ctx c] in
      let s := s.{peerkey_enabled := c_peerkey_enabled c} in
      let s := s.{allowed_pairwise_cipher := c_allowed_pairwise_cipher c} in
      let s := s.{proactive_key_caching := c_proactive_key_caching c} in
      let s := s.{eap_workaround := c_eap_workaround c} in
      let s := s.{eap_conf_ctx := c_eap_conf_ctx c} in
      let s := match c_ssid c with
               | Some x => (s.{ssid := splice (ssid (rpar s)) 0 x}).{ssid_len := length x}
               | None => s.{ssid_len := 0%nat}
               end in
      s.[wpa_ptk_rekey := c_wpa_ptk_rekey c]
  | None =>
      let s := s.[network_ctx := 0] in
      let s := s.{peerkey_enabled := 0} in
      let s := s.{allowed_pairwise_cipher := 0} in
      let s := s.{proactive_key_caching := 0} in
      let s := s.{eap_workaround := 0} in
      let s := s.{eap_conf_ctx := 0} in
      let s := s.{ssid_len := 0%nat} in
      s.[wpa_ptk_rekey := 0]
  end.

Definition wpa_sm_set_own_addr (addr : list Z) (s : rsn_supp) : rsn_supp := s.[own_addr := take 6 addr].

(** The protocol and [rsn_enabled] are a two-valued type and a boolean here: the callers
    pass WPA_PROTO_WPA or WPA_PROTO_RSN, and 0 or 1. *)
Definition proto_of (v : Z) : wpa_proto := if v =? RsnIe.WPA_PROTO_RSN then WPA_PROTO_RSN else WPA_PROTO_WPA.
Definition proto_value (p : wpa_proto) : Z :=
  match p with WPA_PROTO_WPA => RsnIe.WPA_PROTO_WPA | WPA_PROTO_RSN => RsnIe.WPA_PROTO_RSN end.

Definition wpa_sm_set_param (param : wpa_sm_conf_params) (value : Z) (s : rsn_supp) : Z * rsn_supp :=
  match param with
  | RSNA_PMK_LIFETIME => if 0 <? value then (0, s.{dot11RSNAConfigPMKLifetime := value}) else (-1, s)
  | RSNA_PMK_REAUTH_THRESHOLD =>
      if (0 <? value) && (value <=? 100) then (0, s.{dot11RSNAConfigPMKReauthThreshold := value}) else (-1, s)
  | RSNA_SA_TIMEOUT => if 0 <? value then (0, s.{dot11RSNAConfigSATimeout := value}) else (-1, s)
  | WPA_PARAM_PROTO => (0, s.[proto := proto_of value])
  | WPA_PARAM_PAIRWISE => (0, s.[pairwise_cipher := value])
  | WPA_PARAM_GROUP => (0, s.[group_cipher := value])
  | WPA_PARAM_KEY_MGMT => (0, s.[key_mgmt := value])
  | WPA_PARAM_RSN_ENABLED => (0, s.[rsn_enabled := negb (value =? 0)])
  | WPA_PARAM_MFP => (0, s.{mfp := value})
  | WPA_PARAM_MGMT_GROUP => (0, s)
  end.

Definition wpa_sm_get_param (param : wpa_sm_conf_params) (s : rsn_supp) : Z :=
  match param with
  | RSNA_PMK_LIFETIME => dot11RSNAConfigPMKLifetime (rpar s)
  | RSNA_PMK_REAUTH_THRESHOLD => dot11RSNAConfigPMKReauthThreshold (rpar s)
  | RSNA_SA_TIMEOUT => dot11RSNAConfigSATimeout (rpar s)
  | WPA_PARAM_PROTO => proto_value (proto (wsm (rsys s)))
  | WPA_PARAM_PAIRWISE => pairwise_cipher (wsm (rsys s))
  | WPA_PARAM_GROUP => group_cipher (wsm (rsys s))
  | WPA_PARAM_KEY_MGMT => key_mgmt (wsm (rsys s))
  | WPA_PARAM_RSN_ENABLED => Z.b2z (rsn_enabled (wsm (rsys s)))
  | _ => 0
  end.

(** The PMKID of [sm->cur_pmksa]. *)
Definition cur_pmkid (s : rsn_supp) : option (list Z) :=
  pe_pmkid <$> (cur_pmksa (wsm (rsys s)) ≫= pmksa_cache_entry (pmksa (rsys s))).

(** The result is the return value, the caller's buffer, whose length is [*wpa_ie_len]
    on input, and [*wpa_ie_len] on output. *)
Definition wpa_sm_set_assoc_wpa_ie_default (malloc_ok : bool) (buf : list Z) (s : rsn_supp)
  : Z * list Z * nat * rsn_supp :=
  let m := wsm (rsys s) in
  let '(res, buf') := wpa_gen_wpa_ie (proto_value (proto m)) (pairwise_cipher m) (group_cipher m) (key_mgmt m)
                        (cur_pmkid s) buf in
  if res <? 0 then (-1, buf', length buf, s)
  else
    let len := Z.to_nat res in
    match assoc_wpa_ie m with
    | Some _ => (0, buf', len, s)
    | None =>
        if negb malloc_ok then (-1, buf', len, s)
        else (0, buf', len, s.[assoc_wpa_ie := Some (take len buf')])
    end.

(** The new value of an element field, and whether the copy succeeded; [None] or an
    empty element clears it.  A failed copy leaves a null pointer (the length field, then
    stale, is only read with the pointer). *)
Definition copy_ie (malloc_ok : bool) (ie : option (list Z)) : Z * option (list Z) :=
  match ie with
  | None | Some [] => (0, None)
  | Some e => if negb malloc_ok then (-1, None) else (0, Some e)
  end.
Definition wpa_sm_set_assoc_wpa_ie (malloc_ok : bool) (ie : option (list Z)) (s : rsn_supp) : Z * rsn_supp :=
  let '(r, v) := copy_ie malloc_ok ie in (r, s.[assoc_wpa_ie := v]).
Definition wpa_sm_set_ap_wpa_ie (malloc_ok : bool) (ie : option (list Z)) (s : rsn_supp) : Z * rsn_supp :=
  let '(r, v) := copy_ie malloc_ok ie in (r, s.[ap_wpa_ie := v]).
Definition wpa_sm_set_ap_rsn_ie (malloc_ok : bool) (ie : option (list Z)) (s : rsn_supp) : Z * rsn_supp :=
  let '(r, v) := copy_ie malloc_ok ie in (r, s.[ap_rsn_ie := v]).

Definition wpa_sm_parse_own_wpa_ie (s : rsn_supp) : run (Z * option wpa_ie_data) :=
  match assoc_wpa_ie (wsm (rsys s)) with
  | None => Ret (-1, None)
  | Some ie =>
      '(r, d) ← wpa_parse_wpa_ie ie;
      if negb (r =? 0) then Ret (-2, Some d) else Ret (0, Some d)
  end.

Definition wpa_sm_update_replay_ctr (ctr : list Z) (s : rsn_supp) : rsn_supp :=
  s.[rx_replay_counter := take 8 ctr].

(** ** Well-formed states *)

Definition ie_field_ok (ie : option (list Z)) : Prop := ie ≠ Some [].

(** The parameters are in the ranges the MIB demands, the SSID fits its array, the PMK
    array has its size, and no stored element is empty. *)
Record rsn_ok (s : rsn_supp) : Prop := RsnOk {
  ok_lifetime : 0 < dot11RSNAConfigPMKLifetime (rpar s);
  ok_threshold : 1 ≤ dot11RSNAConfigPMKReauthThreshold (rpar s) ≤ 100;
  ok_sa_timeout : 0 < dot11RSNAConfigSATimeout (rpar s);
  ok_ssid : length (ssid (rpar s)) = 32%nat ∧ (ssid_len (rpar s) ≤ 32)%nat;
  ok_pmk : length (pmk (wsm (rsys s))) = 32%nat;
  ok_assoc_ie : ie_field_ok (assoc_wpa_ie (wsm (rsys s)));
  ok_ap_wpa : ie_field_ok (ap_wpa_ie (wsm (rsys s)));
  ok_ap_rsn : ie_field_ok (ap_rsn_ie (wsm (rsys s)))
}.

Inductive rsn_op :=
| OpDisassoc | OpFastReauth (v : Z) | OpConfig (c : option rsn_supp_config) | OpOwnAddr (a : list Z)
| OpParam (p : wpa_sm_conf_params) (v : Z) | OpAssocIeDefault (malloc_ok : bool) (buf : list Z)
| OpAssocIe (malloc_ok : bool) (ie : option (list Z)) | OpApWpaIe (malloc_ok : bool) (ie : option (list Z))
| OpApRsnIe (malloc_ok : bool) (ie : option (list Z)) | OpReplayCtr (ctr : list Z).

Definition run_rsn_op (o : rsn_op) (s : rsn_supp) : rsn_supp :=
  match o with
  | OpDisassoc => wpa_sm_notify_disassoc s
  | OpFastReauth v => wpa_sm_set_fast_reauth v s
  | OpConfig c => wpa_sm_set_config c s
  | OpOwnAddr a => wpa_sm_set_own_addr a s
  | OpParam p v => (wpa_sm_set_param p v s).2
  | OpAssocIeDefault ok buf => (wpa_sm_set_assoc_wpa_ie_default ok buf s).2
  | OpAssocIe ok ie => (wpa_sm_set_assoc_wpa_ie ok ie s).2
  | OpApWpaIe ok ie => (wpa_sm_set_ap_wpa_ie ok ie s).2
  | OpApRsnIe ok ie => (wpa_sm_set_ap_rsn_ie ok ie s).2
  | OpReplayCtr c => wpa_sm_update_replay_ctr c s
  end.

(** What the callers guarantee: an SSID of at most 32 bytes. *)
Definition rsn_op_ok (o : rsn_op) : Prop :=
  match o with
  | OpConfig (Some c) => match c_ssid c with Some x => (length x ≤ 32)%nat | None => True end
  | _ => True
  end.

Lemma copy_ie_ok ok ie : ie_field_ok (copy_ie ok ie).2.
Proof. unfold copy_ie. destruct ie as [[|b ie]|]; [done| |done]. by destruct ok. Qed.

Lemma splice_nonempty b off x : splice b off [x] ≠ [].
Proof. unfold splice. by destruct (take off b). Qed.

(** A generated element is not empty. *)
Lemma gen_nonempty p pw g km id buf n buf' :
  wpa_gen_wpa_ie p pw g km id buf = (n, buf') → 0 ≤ n → take (Z.to_nat n) buf' ≠ [].
Proof.
  unfold wpa_gen_wpa_ie, wpa_gen_wpa_ie_rsn, wpa_gen_wpa_ie_wpa. intros H Hn.
  repeat case_match; simplify_eq; try lia.
  all: match goal with |- context [splice ?b 1 [?x]] =>
    pose proof (splice_nonempty b 1 x); by destruct (splice b 1 [x]) end.
Qed.

Lemma rsn_op_keeps_ok o s : rsn_ok s → rsn_op_ok o → rsn_ok (run_rsn_op o s).
Proof.
  intros [H1 H2 H3 H4 H5 H6 H7 H8] Ho. destruct o as [|v|c|a|p v|ok buf|ok ie|ok ie|ok ie|c]; cbn [run_rsn_op].
  - unfold wpa_sm_notify_disassoc. cbv zeta. case_bool_decide; by split.
  - by split.
  - destruct c as [c|]; [|split; try done; cbn; split; [apply H4|lia]].
    cbn in Ho. destruct H4 as [H4 H4']. unfold wpa_sm_set_config. cbv zeta.
    destruct (c_ssid c) as [x|]; split; try done; cbn [rpar ssid ssid_len rsys].
    all: split; [|cbn; lia]. { change (length (splice (ssid (rpar s)) 0 x) = 32%nat). rewrite length_splice; lia. }
    done.
  - by split.
  - destruct p; cbn [wpa_sm_set_param]; try by split.
    all: repeat if_branch; cbn [snd]; split; try done; cbn in *; lia.
  - unfold wpa_sm_set_assoc_wpa_ie_default. cbv zeta.
    destruct (wpa_gen_wpa_ie _ _ _ _ _ _) as [res buf'] eqn:Hg. if_branch; [by split|].
    destruct (assoc_wpa_ie (wsm (rsys s))) eqn:Hie; [cbn [snd]; rewrite <-Hie in H6; by split|].
    rewrite <-Hie in H6. destruct ok; cbn [negb snd]; [|by split]. split; try done. cbn.
    intros [= Hnil]. by eapply gen_nonempty; [exact Hg|lia|].
  - pose proof (copy_ie_ok ok ie) as Hc. unfold wpa_sm_set_assoc_wpa_ie. destruct (copy_ie ok ie). by split.
  - pose proof (copy_ie_ok ok ie) as Hc. unfold wpa_sm_set_ap_wpa_ie. destruct (copy_ie ok ie). by split.
  - pose proof (copy_ie_ok ok ie) as Hc. unfold wpa_sm_set_ap_rsn_ie. destruct (copy_ie ok ie). by split.
  - by split.
Qed.

Lemma wpa_sm_init_ok ok c st s : wpa_sm_init ok c st = Some s → rsn_ok s.
Proof.
  unfold wpa_sm_init. destruct ok, c as [c|]; try done. intros [= <-].
  split; cbn; rewrite ?repeat_length; (done || lia).
Qed.

(** ** Correctness *)

(** From creation on, any sequence of configuration operations keeps the state well
    formed; parameters outside their ranges are refused and change nothing. *)
Theorem rsn_config_invariant ops c st s :
  wpa_sm_init true (Some c) st = Some s → Forall rsn_op_ok ops →
  rsn_ok (foldl (λ s o, run_rsn_op o s) s ops) ∧
  (∀ p v s', (wpa_sm_set_param p v s').1 = -1 → (wpa_sm_set_param p v s').2 = s').
Proof.
  intros Hi%wpa_sm_init_ok Hops. split.
  - revert s Hi. induction Hops as [|o ops Ho _ IH]; intros s Hi; [done|]. cbn [foldl].
    by apply IH, rsn_op_keeps_ok.
  - intros p v s'. destruct p; cbn [wpa_sm_set_param]; repeat if_branch; (done || by intros).
Qed.

(** The element put into the association request is remembered for the 4-way handshake:
    it parses back to the configured protocol, ciphers and key management (with the
    PMKID of the current cache entry), and stays the same when the element is generated
    again, for example without PMKID after caching was aborted. *)
Theorem own_ie_remembered s buf buf' n s1 :
  assoc_wpa_ie (wsm (rsys s)) = None → (∀ i, cur_pmkid s = Some i → length i = 16%nat) →
  wpa_sm_set_assoc_wpa_ie_default true buf s = (0, buf', n, s1) →
  assoc_wpa_ie (wsm (rsys s1)) = Some (take n buf') ∧
  (∃ d, wpa_sm_parse_own_wpa_ie s1 = Ret (0, Some d) ∧
     RsnIe.proto d = proto_value (proto (wsm (rsys s))) ∧
     RsnIe.pairwise_cipher d = pairwise_cipher (wsm (rsys s)) ∧
     RsnIe.group_cipher d = group_cipher (wsm (rsys s)) ∧ RsnIe.key_mgmt d = key_mgmt (wsm (rsys s)) ∧
     (num_pmkid d = 1 ↔ proto (wsm (rsys s)) = WPA_PROTO_RSN ∧ is_Some (cur_pmkid s))) ∧
  ∀ ok buf2, assoc_wpa_ie (wsm (rsys (wpa_sm_set_assoc_wpa_ie_default ok buf2
    (s1 <| rsys := wpa_sm_aborted_cached (rsys s1) |>)).2)) = Some (take n buf').
Proof.
  intros Hnone Hid. unfold wpa_sm_set_assoc_wpa_ie_default at 1. cbv zeta.
  destruct (wpa_gen_wpa_ie _ _ _ _ _ buf) as [res b'] eqn:Hg. rewrite Hnone. if_branch; [done|].
  cbn [negb]. intros [= -> <- <-]. split; [done|]. split.
  - unfold wpa_sm_parse_own_wpa_ie. cbn [assoc_wpa_ie wsm rsys].
    unfold wpa_gen_wpa_ie in Hg. destruct (proto (wsm (rsys s))); cbn in Hg.
    + destruct (gen_wpa_parse _ _ _ _ _ _ Hg) as (d & Hd & H1 & H2 & H3 & H4 & _ & H5); [lia|].
      exists d. cbn. rewrite Hd, run_bind_l. split_and!; try done. rewrite H5. naive_solver.
    + destruct (gen_rsn_parse _ _ _ _ _ _ _ Hg) as (d & Hd & H1 & H2 & H3 & H4 & _ & H5); [lia|done|].
      exists d. cbn. rewrite Hd, run_bind_l. split_and!; try done.
      destruct (cur_pmkid s); [destruct H5 as [-> _]; naive_solver|rewrite H5].
      split; [done|]. by intros [_ [? ?]].
  - intros ok buf2. unfold wpa_sm_set_assoc_wpa_ie_default. cbv zeta.
    destruct (wpa_gen_wpa_ie _ _ _ _ _ buf2) as [res2 b2]. by if_branch.
Qed.

(** A new association forgets the keys of the old one: until a new provisional PTK has
    been derived, no frame, whatever its MIC, makes the supplicant give the driver a key
    or report valid keys, and the replay counter is that of a fresh session. *)
Theorem assoc_forgets_keys {crypto_ok : WpaCryptoOk} env env' b src buf s r s' :
  wpa_sm_rx_eapol env' src buf (wpa_sm_notify_assoc env b s) = Ret (r, s') →
  rx_replay_counter_set (wsm s') = false ∧ ptk_set (wsm s') = false ∧
  ∃ l, wout s' = wout (wpa_sm_notify_assoc env b s) ++ l ∧ Forall (λ e, privileged e = false) l.
Proof.
  assert (ptk_set (wsm (wpa_sm_notify_assoc env b s)) = false ∧ tptk_set (wsm (wpa_sm_notify_assoc env b s)) = false ∧
    rx_replay_counter_set (wsm (wpa_sm_notify_assoc env b s)) = false) as (Hp & Ht & Hr).
  { unfold wpa_sm_notify_assoc. cbv zeta. by if_branch. }
  intros H. apply rx_eapol_auth in H as [[Hc Hl]|H]; [|exfalso|done].
  - unfold core in Hc. injection Hc as _ Hp' _ Hr'. rewrite Hr', Hp'. by split_and!.
  - destruct H as (ki & plen & K & s1 & _ & _ & _ & _ & _ & ([[Hk _]|[Hk _]] & _) & _); congruence.
Qed.

End conf.

(** ** Witnesses *)

Import WpaSm.Demo.

Definition new_supp : @rsn_supp unit :=
  match wpa_sm_init true (Some tt) WPA_DISCONNECTED with Some s => s | None => RsnSupp mid_handshake (RsnParams 1 1 1 0 [] 0 0 0 0 0 0 0 0) end.
Definition psk_supp : @rsn_supp unit :=
  foldl (λ s o, run_rsn_op o s) new_supp
    [OpParam WPA_PARAM_PROTO 2; OpParam WPA_PARAM_PAIRWISE 16; OpParam WPA_PARAM_GROUP 8; OpParam WPA_PARAM_KEY_MGMT 2].

Lemma rsn_config_invariant_witness :
  rsn_ok (foldl (λ s o, run_rsn_op o s) new_supp [OpParam RSNA_PMK_REAUTH_THRESHOLD 101; OpAssocIeDefault true (repeat 0 80)]).
Proof.
  apply (rsn_config_invariant [OpParam RSNA_PMK_REAUTH_THRESHOLD 101; OpAssocIeDefault true (repeat 0 80)] tt WPA_DISCONNECTED
    new_supp); [reflexivity|by repeat constructor].
Defined.

Lemma own_ie_remembered_witness :
  ∃ d, wpa_sm_parse_own_wpa_ie (wpa_sm_set_assoc_wpa_ie_default true (repeat 0 80) psk_supp).2 = Ret (0, Some d) ∧
    RsnIe.pairwise_cipher d = 16 ∧ RsnIe.group_cipher d = 8 ∧ RsnIe.key_mgmt d = 2.
Proof.
  destruct (own_ie_remembered psk_supp (repeat 0 80) (wpa_sm_set_assoc_wpa_ie_default true (repeat 0 80) psk_supp).1.1.2
    22 (wpa_sm_set_assoc_wpa_ie_default true (repeat 0 80) psk_supp).2) as (_ & (d & Hd & _ & H1 & H2 & H3 & _) & _);
    [reflexivity|discriminate|vm_compute; reflexivity|].
  exists d. split; [exact Hd|]. split; [exact H1|]. split; [exact H2|exact H3].
Defined.

Lemma assoc_forgets_keys_witness :
  ∃ s', wpa_sm_rx_eapol demo_env (repeat 4 6) msg3 (wpa_sm_notify_assoc demo_env (repeat 4 6) mid_handshake) = Ret (-1, s') ∧
    ptk_set (wsm s') = false.
Proof.
  eexists. split; [vm_compute; reflexivity|].
  refine (proj1 (proj2 (assoc_forgets_keys demo_env demo_env (repeat 4 6) (repeat 4 6) msg3 mid_handshake (-1) _ _))).
  vm_compute. reflexivity.
Defined.
