(* ===== verification/WpaCommon.v ===== *)
(** * Key derivation and MICs of WPA (src/src/common/wpa_common.c)

    The functions the key handshakes call for cryptography, built on the hashes of
    [Md5] and [Sha1] and the key wrap of [Aes], and the instance of the handshakes'
    interface [WpaCrypto] they make.  The build without CONFIG_IEEE80211R and
    CONFIG_IEEE80211W: no AES-CMAC and no SHA-256. *)

From S2P Require Import Prelude Merkle Md5 Sha1 Aes WpaSm.

(** ** Operations

    [mem] is the uninitialised memory of a hash context. *)

Section ops.
Context (mem : list Z).

(** [None] is the return of -1. *)
Definition key_mic (key : list Z) (ver : Z) (buf : list Z) : option (list Z) :=
  if ver =? WPA_KEY_INFO_TYPE_HMAC_MD5_RC4 then hmac_md5 mem (take 16 key) buf
  else if ver =? WPA_KEY_INFO_TYPE_HMAC_SHA1_AES then
    match hmac_sha1 mem (take 16 key) buf with
    | None => None
    | Some hash => Some (take 16 hash)
    end
  else None.

(** "Pairwise key expansion" with its NUL. *)
Definition pairwise_label : list Z :=
  [0x50; 0x61; 0x69; 0x72; 0x77; 0x69; 0x73; 0x65; 0x20; 0x6b; 0x65; 0x79; 0x20; 0x65; 0x78; 0x70;
   0x61; 0x6e; 0x73; 0x69; 0x6f; 0x6e; 0].

(** [data] of [wpa_pmk_to_ptk]. *)
Definition ptk_data (addr1 addr2 nonce1 nonce2 : list Z) : list Z :=
  (if memcmp (take 6 addr1) (take 6 addr2) <? 0 then take 6 addr1 ++ take 6 addr2
   else take 6 addr2 ++ take 6 addr1) ++
  (if memcmp (take 32 nonce1) (take 32 nonce2) <? 0 then take 32 nonce1 ++ take 32 nonce2
   else take 32 nonce2 ++ take 32 nonce1).

(** The key written to [ptk]; [None] when [sha1_prf] fails, whose result the code
    does not look at. *)
Definition pmk_to_ptk (pmk label addr1 addr2 nonce1 nonce2 : list Z) (ptk_len : nat)
  : option (list Z) :=
  sha1_prf mem pmk label (ptk_data addr1 addr2 nonce1 nonce2) ptk_len.

(** "PMK Name" *)
Definition pmkid_title : list Z := [0x50; 0x4d; 0x4b; 0x20; 0x4e; 0x61; 0x6d; 0x65].

Definition rsn_pmkid (pmk aa spa : list Z) : option (list Z) :=
  take 16 <$> hmac_sha1_vector mem pmk [pmkid_title; take 6 aa; take 6 spa].

(** What the handshakes use: [aes_unwrap] into a buffer of [n] units, with the
    allocation of the key schedule. *)
#[global] Instance wpa_crypto (malloc_ok : bool) : WpaCrypto := {|
  WpaSm.wpa_eapol_key_mic := key_mic;
  WpaSm.wpa_pmk_to_ptk pmk addr1 addr2 nonce1 nonce2 len _ :=
    default [] (pmk_to_ptk pmk pairwise_label addr1 addr2 nonce1 nonce2 len);
  WpaSm.aes_unwrap kek n c :=
    match Aes.aes_unwrap malloc_ok kek n c (repeat 0 (8 * n)) with
    | Ret (0, p) => Some p
    | _ => None
    end
|}.
End ops.

(** ** The interface is met *)

Lemma sha1_prf_loop_length mem key label data fuel : ∀ counter n,
  (n < fuel)%nat →
  ∃ r, sha1_prf_loop fuel mem key label data counter n = Some r ∧ length r = n.
Proof.
  induction fuel as [|fuel IH]; intros counter n Hn; [lia|]. cbn [sha1_prf_loop].
  case_bool_decide as H0; [subst; by eexists|].
  destruct (hmac_sha1_vector mem key [label; data; [counter]]) as [h|] eqn:Hh; [|done].
  apply hmac_sha1_vector_ok in Hh as [_ Hl]. case_bool_decide as H20.
  - destruct (IH (u8 (counter + 1)) (n - 20)%nat) as (r & -> & Hr); [lia|].
    eexists. split; [done|]. rewrite length_app. lia.
  - eexists. split; [done|]. rewrite length_take. lia.
Qed.

Lemma pmk_to_ptk_length mem pmk label a1 a2 n1 n2 len :
  ∃ r, pmk_to_ptk mem pmk label a1 a2 n1 n2 len = Some r ∧ length r = len.
Proof. apply sha1_prf_loop_length. lia. Qed.

Lemma aes_unwrap_ret malloc_ok kek n c out r p :
  Aes.aes_unwrap malloc_ok kek n c out = Ret (r, p) → length out = (8 * n)%nat →
  length p = (8 * n)%nat ∧ (bytes_ok c → bytes_ok p).
Proof.
  unfold Aes.aes_unwrap. cbv zeta. intros H Hout. run_inv.
  apply rdn_Ret in Hrun as [_ ->], Hrun0 as [Hr ->].
  destruct (length out <? 8 * n)%nat; [done|]. run_inv. clear Hrun.
  set (pl := splice out 0 (take (8 * n) (drop 8 c))) in *.
  assert (Hpl : length pl = (8 * n)%nat) by (unfold pl; rewrite length_splice; lia).
  assert (Hpb : bytes_ok c → bytes_ok pl).
  { intros Hc. unfold pl, splice. rewrite Hr, (drop_ge out), app_nil_r by lia.
    by apply Forall_take, Forall_drop. }
  destruct (aes_decrypt_init malloc_ok _) as [ctx|]; [|by run_inv].
  destruct (foldl _ _ _) as [a' p'] eqn:Hf.
  assert (Hp : p' = p) by (destruct (forallb _ a'); by simplify_eq). subst p'.
  enough ((λ s : list Z * list Z, length s.2 = (8 * n)%nat ∧ (bytes_ok c → bytes_ok s.2)) (a', p))
    by done.
  rewrite <- Hf. apply foldl_inv; [|done]. intros s j _ Hs.
  apply foldl_inv; [|done]. intros [a q] i Hi [Hq Hqb].
  apply list_elem_of_In, in_rev, in_seq in Hi. unfold unwrap_step, aes_decrypt. cbn [snd] in *.
  set (blk := xor_at7 a _ ++ _). pose proof (length_decrypt ctx blk) as Hl.
  pose proof (decrypt_bytes ctx blk) as Hb. revert Hl Hb. generalize (rijndaelDecrypt ctx blk).
  intros b Hl Hb. destruct (length_halves b Hl). split; [rewrite length_splice; lia|].
  intros Hc. apply bytes_ok_splice; [by apply Hqb|by apply Forall_drop].
Qed.

Lemma hmac_md5_total mem key data : is_Some (hmac_md5 mem key data).
Proof. unfold hmac_md5, hmac_md5_vector. simpl. eauto. Qed.
Lemma hmac_sha1_total mem key data : is_Some (hmac_sha1 mem key data).
Proof. unfold hmac_sha1, hmac_sha1_vector. simpl. eauto. Qed.


(** ** Both ends derive the same key *)

Definition be_min (a b : list Z) : list Z := if be_val a <? be_val b then a else b.
Definition be_max (a b : list Z) : list Z := if be_val a <? be_val b then b else a.

Lemma be_val_inj a : ∀ b, bytes_ok a → bytes_ok b → length a = length b → be_val a = be_val b → a = b.
Proof.
  induction a as [|x a IH]; intros [|y b] Ha Hb Hl; try done.
  apply Forall_cons in Ha as [Hx Ha], Hb as [Hy Hb]. injection Hl as Hl.
  rewrite !be_val_cons, Hl. pose proof (be_val_range _ Ha) as Hra. rewrite Hl in Hra.
  pose proof (be_val_range _ Hb) as Hrb. unfold is_byte in *. intros He.
  assert (x = y) as -> by nia. f_equal. apply IH; [done..|lia].
Qed.

(** A pair of identifiers in the order of their values. *)
Definition ordered (n : nat) (a b : list Z) : Prop :=
  length a = n ∧ length b = n ∧ bytes_ok a ∧ bytes_ok b.

Lemma memcmp_min n a b : ordered n a b →
  (if memcmp (take n a) (take n b) <? 0 then take n a ++ take n b else take n b ++ take n a) =
  be_min a b ++ be_max a b.
Proof.
  intros (Ha & Hb & Hba & Hbb). rewrite !take_ge by lia. unfold be_min, be_max.
  pose proof (memcmp_be a b Hba Hbb ltac:(congruence)) as Hm.
  destruct (Z.ltb_spec (memcmp a b) 0), (Z.ltb_spec (be_val a) (be_val b)); lia || done.
Qed.

Lemma be_min_comm n a b : ordered n a b → be_min a b ++ be_max a b = be_min b a ++ be_max b a.
Proof.
  intros (Ha & Hb & Hba & Hbb). unfold be_min, be_max.
  destruct (Z.ltb_spec (be_val a) (be_val b)), (Z.ltb_spec (be_val b) (be_val a)); try done; [lia|].
  by rewrite (be_val_inj a b) by (done || congruence || lia).
Qed.

Lemma ordered_data n a b : ordered n a b → length (be_min a b ++ be_max a b) = (n + n)%nat ∧
  bytes_ok (be_min a b ++ be_max a b).
Proof.
  intros (Ha & Hb & Hba & Hbb). rewrite length_app, bytes_ok_app. unfold be_min, be_max.
  destruct (be_val a <? be_val b); split_and!; done || lia.
Qed.

Lemma ordered_sym n a b : ordered n a b → ordered n b a.
Proof. unfold ordered. naive_solver. Qed.

(** C26: the pairwise transient key is the PRF of IEEE 802.11i 8.5.1.2 over the two
    addresses and the two nonces, the smaller of each first as big-endian numbers;
    so the supplicant, which passes its own address and nonce first, and the
    authenticator, which passes its own first, derive the same key. *)
Theorem wpa_pmk_to_ptk_agreement mem pmk label aa spa anonce snonce len :
  length mem = 64%nat → chunk_ok pmk → bytes_ok pmk → chunk_ok label → bytes_ok label →
  ordered 6 aa spa → ordered 32 anonce snonce →
  let K := sha1_prf_ref pmk label (be_min aa spa ++ be_max aa spa ++
             be_min anonce snonce ++ be_max anonce snonce) len in
  pmk_to_ptk mem pmk label spa aa snonce anonce len = Some K ∧
  pmk_to_ptk mem pmk label aa spa anonce snonce len = Some K ∧ length K = len.
Proof.
  intros Hm Hpc Hpb Hlc Hlb Ha Hn K.
  assert (HK : ∀ a1 a2 n1 n2, ordered 6 a1 a2 → ordered 32 n1 n2 →
    be_min a1 a2 ++ be_max a1 a2 = be_min aa spa ++ be_max aa spa →
    be_min n1 n2 ++ be_max n1 n2 = be_min anonce snonce ++ be_max anonce snonce →
    pmk_to_ptk mem pmk label a1 a2 n1 n2 len = Some K).
  { intros a1 a2 n1 n2 H1 H2 E1 E2. unfold pmk_to_ptk, ptk_data. rewrite !memcmp_min by done.
    rewrite E1, E2. unfold K. rewrite <- !app_assoc.
    destruct (ordered_data _ _ _ Ha) as [L1 B1]. destruct (ordered_data _ _ _ Hn) as [L2 B2].
    apply sha1_prf_is_ref; [done|done|done|]. rewrite app_assoc. split.
    - unfold chunk_ok. rewrite length_app, L1, L2. lia.
    - by apply bytes_ok_app. }
  split_and!; [|by apply HK|apply length_sha1_prf_ref].
  apply HK; [by apply ordered_sym..|by apply (be_min_comm 6), ordered_sym|by apply (be_min_comm 32), ordered_sym].
Qed.

Lemma wpa_pmk_to_ptk_agreement_witness :
  ∃ K, pmk_to_ptk (repeat 0 64) (repeat 1 32) pairwise_label (repeat 2 6) (repeat 3 6) (repeat 5 32)
         (repeat 4 32) 48 = Some K ∧
       pmk_to_ptk (repeat 0 64) (repeat 1 32) pairwise_label (repeat 3 6) (repeat 2 6) (repeat 4 32)
         (repeat 5 32) 48 = Some K ∧ length K = 48%nat.
Proof.
  eexists. apply (wpa_pmk_to_ptk_agreement (repeat 0 64) (repeat 1 32) pairwise_label (repeat 3 6)
                    (repeat 2 6) (repeat 4 32) (repeat 5 32) 48); try reflexivity;
    try (split_and!; [reflexivity|reflexivity|apply repeat_bytes; unfold is_byte; lia..]).
  - apply repeat_bytes. unfold is_byte. lia.
  - unfold bytes_ok. repeat (apply Forall_cons; split; [unfold is_byte; lia|]). done.
Defined.
