(* ===== verification/Pmksa.v ===== *)
(** * The PMKSA cache (src/src/rsn_supp/pmksa_cache.c)

    The cache is a linked list of entries ordered by expiration, with a counter.
    An entry is identified by the reference its allocation returned; the list holds
    references with entries, so a reference that is not in the list is freed
    memory.  The operations also use the state machine: the callback
    [wpa_sm_pmksa_free_cb] compares with the current entry and the PMK in use, and
    the timers depend on the current entry and the BSSID.  Times are in seconds. *)

From stdpp Require Import sorting gmap.
From S2P Require Import Prelude Sha1 WpaCommon.

(** ** State *)

Record pmksa_cache_entry := PmksaCacheEntry {
  e_pmkid : list Z; e_pmk : list Z; e_pmk_len : nat; e_expiration : Z; e_akmp : Z; e_aa : list Z;
  e_reauth_time : Z; e_network_ctx : Z; e_opportunistic : bool
}.

#[global] Instance eta_cache_entry : Eta pmksa_cache_entry := λ r,
  PmksaCacheEntry (e_pmkid r) (e_pmk r) (e_pmk_len r) (e_expiration r) (e_akmp r) (e_aa r)
    (e_reauth_time r) (e_network_ctx r) (e_opportunistic r).

Notation ref := positive (only parsing).
Notation node := (positive * pmksa_cache_entry)%type (only parsing).

(** The requests to the driver and to the EAPOL component. *)
Inductive pm_event :=
| AddPmkid (aa pmkid : list Z)
| RemovePmkid (aa pmkid : list Z)
| Deauthenticate
| RequestReauth.

(** [struct rsn_pmksa_cache] with what it uses of [struct wpa_sm], the two
    registered timeouts as times they are due, the next reference of the allocator,
    and the requests made. *)
Record pmksa_sys := PmksaSys {
  pmksa : list node;
  pmksa_count : Z;
  expire_at : option Z;
  reauth_at : option Z;
  cur_pmksa : option positive;
  sm_pmk : list Z; sm_pmk_len : nat; sm_bssid : list Z; sm_own_addr : list Z;
  fresh : positive;
  out : list pm_event
}.

#[global] Instance eta_pmksa_sys : Eta pmksa_sys := λ r,
  PmksaSys (pmksa r) (pmksa_count r) (expire_at r) (reauth_at r) (cur_pmksa r) (sm_pmk r) (sm_pmk_len r)
    (sm_bssid r) (sm_own_addr r) (fresh r) (out r).

Definition emit (e : pm_event) (s : pmksa_sys) : pmksa_sys := s <| out := out s ++ [e] |>.

Definition pmksa_cache_max_entries : Z := 32.

(** ** Operations

    [mem] is uninitialised memory of the hash contexts, [lifetime] and [threshold]
    are dot11RSNAConfigPMKLifetime and dot11RSNAConfigPMKReauthThreshold. *)

Section ops.
Context (mem : list Z) (lifetime threshold : Z).

(** [wpa_sm_pmksa_free_cb] of wpa.c. *)
Definition free_cb (n : node) (replace : bool) (s : pmksa_sys) : pmksa_sys :=
  let '(id, e) := n in
  if bool_decide (cur_pmksa s = Some id) ||
     ((sm_pmk_len s =? e_pmk_len e)%nat &&
      (memcmp (take (sm_pmk_len s) (sm_pmk s)) (take (sm_pmk_len s) (e_pmk e)) =? 0))
  then
    let s := s <| cur_pmksa := None |> in
    if replace then s
    else emit Deauthenticate (s <| sm_pmk := repeat 0 (length (sm_pmk s)) |>)
  else s.

(** [pmksa_cache_free_entry] of an entry that has been unlinked. *)
Definition pmksa_cache_free_entry (n : node) (replace : bool) (s : pmksa_sys) : pmksa_sys :=
  let s := emit (RemovePmkid (e_aa n.2) (e_pmkid n.2)) s in
  free_cb n replace (s <| pmksa_count := pmksa_count s - 1 |>).

(** [aa] and [pmkid] are [None] for NULL, which matches any. *)
Definition matches (aa pmkid : option (list Z)) (e : pmksa_cache_entry) : bool :=
  match aa with None => true | Some a => memcmp (e_aa e) a =? 0 end &&
  match pmkid with None => true | Some p => memcmp (e_pmkid e) p =? 0 end.
Definition pmksa_cache_get (aa pmkid : option (list Z)) (s : pmksa_sys) : option positive :=
  fst <$> List.find (λ n, matches aa pmkid n.2) (pmksa s).

Definition pmksa_cache_set_expiration (now : Z) (s : pmksa_sys) : pmksa_sys :=
  let s := s <| expire_at := None |> <| reauth_at := None |> in
  match pmksa s with
  | [] => s
  | (_, head) :: _ =>
      let sec := Z.max 0 (e_expiration head - now) in
      let s := s <| expire_at := Some (now + (sec + 1)) |> in
      let entry := match cur_pmksa s with
                   | Some id => Some id
                   | None => pmksa_cache_get (Some (sm_bssid s)) None s
                   end in
      match entry with
      | None => s
      | Some _ =>
          let sec := Z.max 0 (e_reauth_time head - now) in
          s <| reauth_at := Some (now + sec) |>
      end
  end.

(** The loop of [pmksa_cache_expire] over the list [l] that is left. *)
Fixpoint expire_loop (now : Z) (l : list node) (s : pmksa_sys) : pmksa_sys :=
  match l with
  | [] => s
  | n :: l' =>
      if e_expiration n.2 <=? now
      then expire_loop now l' (pmksa_cache_free_entry n false (s <| pmksa := l' |>))
      else s
  end.
Definition pmksa_cache_expire (now : Z) (s : pmksa_sys) : pmksa_sys :=
  pmksa_cache_set_expiration now (expire_loop now (pmksa s) s).

Definition pmksa_cache_reauth (s : pmksa_sys) : pmksa_sys :=
  emit RequestReauth (s <| cur_pmksa := None |>).

(** The loop of [pmksa_cache_flush]: [kept] are the entries passed, [l] those
    still to look at. *)
Definition of_network (network_ctx : Z) (e : pmksa_cache_entry) : bool :=
  (e_network_ctx e =? network_ctx) || (network_ctx =? 0).
Fixpoint flush_loop (network_ctx : Z) (kept l : list node) (s : pmksa_sys) : pmksa_sys * bool :=
  match l with
  | [] => (s, false)
  | n :: l' =>
      if of_network network_ctx n.2 then
        let s := pmksa_cache_free_entry n false (s <| pmksa := kept ++ l' |>) in
        ((flush_loop network_ctx kept l' s).1, true)
      else flush_loop network_ctx (kept ++ [n]) l' s
  end.
Definition pmksa_cache_flush (now network_ctx : Z) (s : pmksa_sys) : pmksa_sys :=
  let '(s, removed) := flush_loop network_ctx [] (pmksa s) s in
  if removed then pmksa_cache_set_expiration now s else s.

(** The entry for [aa] with the entries before and after it. *)
Fixpoint split_aa (aa : list Z) (l : list node) : option (list node * node * list node) :=
  match l with
  | [] => None
  | n :: l' =>
      if memcmp aa (e_aa n.2) =? 0 then Some ([], n, l')
      else match split_aa aa l' with
           | Some (pre, m, post) => Some (n :: pre, m, post)
           | None => None
           end
  end.

(** The new entry goes before the first one that expires later; whether it is the
    first. *)
Fixpoint insert_entry (n : node) (l : list node) : list node :=
  match l with
  | [] => [n]
  | m :: l' => if e_expiration n.2 <? e_expiration m.2 then n :: l else m :: insert_entry n l'
  end.
Definition goes_first (e : pmksa_cache_entry) (l : list node) : bool :=
  match l with [] => true | m :: _ => e_expiration e <? e_expiration m.2 end.

Definition new_entry (now : Z) (pmk aa spa : list Z) (network_ctx akmp : Z) : pmksa_cache_entry :=
  PmksaCacheEntry (default [] (rsn_pmkid mem pmk aa spa)) (splice (repeat 0 32) 0 pmk) (length pmk)
    (now + lifetime) akmp (take 6 aa) (now + u32 (lifetime * threshold) / 100) network_ctx false.

(** The part of [pmksa_cache_add] after the search. *)
Definition evict (s : pmksa_sys) : pmksa_sys :=
  match pmksa s with
  | n :: l =>
      if pmksa_cache_max_entries <=? pmksa_count s
      then pmksa_cache_free_entry n false (s <| pmksa := l |>) else s
  | [] => s
  end.
Definition link_entry (now : Z) (id : positive) (e : pmksa_cache_entry) (s : pmksa_sys) : pmksa_sys :=
  let first := goes_first e (pmksa s) in
  let s := s <| pmksa := insert_entry (id, e) (pmksa s) |> in
  let s := if first then pmksa_cache_set_expiration now s else s in
  let s := s <| pmksa_count := pmksa_count s + 1 |> in
  emit (AddPmkid (e_aa e) (e_pmkid e)) s.

(** An entry for the same authenticator is replaced, and with it the others of
    the network are flushed. *)
Definition replace_entry (now network_ctx : Z) (pre : list node) (n : node) (post : list node)
    (s : pmksa_sys) : pmksa_sys :=
  let s := s <| pmksa := pre ++ post |> in
  let s := if bool_decide (cur_pmksa s = Some n.1) then s <| cur_pmksa := None |> else s in
  let s := pmksa_cache_free_entry n true s in
  pmksa_cache_flush now network_ctx s.

Definition same_pmksa (pmk : list Z) (new old : pmksa_cache_entry) : bool :=
  (e_pmk_len old =? length pmk)%nat && (memcmp (take (length pmk) (e_pmk old)) pmk =? 0) &&
  (memcmp (e_pmkid old) (e_pmkid new) =? 0).

Definition pmksa_cache_add (malloc_ok : bool) (now : Z) (pmk aa spa : list Z) (network_ctx akmp : Z)
    (s : pmksa_sys) : option positive * pmksa_sys :=
  if (32 <? length pmk)%nat then (None, s)
  else if negb malloc_ok then (None, s)
  else
    let e := new_entry now pmk aa spa network_ctx akmp in
    let id := fresh s in
    let s := s <| fresh := Pos.succ id |> in
    let add s := (Some id, link_entry now id e (evict s)) in
    match split_aa (take 6 aa) (pmksa s) with
    | None => add s
    | Some (pre, n, post) =>
        if same_pmksa pmk e n.2 then (Some n.1, s)
        else add (replace_entry now network_ctx pre n post s)
    end.

(** A read through a reference: use after free if it is not in the list. *)
Definition deref (id : positive) (s : pmksa_sys) : run pmksa_cache_entry :=
  match List.find (λ n, Pos.eqb n.1 id) (pmksa s) with
  | Some n => Ret n.2
  | None => UB UseAfterFree
  end.
Definition update_entry (id : positive) (f : pmksa_cache_entry → pmksa_cache_entry) (s : pmksa_sys)
  : pmksa_sys :=
  s <| pmksa := map (λ n, if Pos.eqb n.1 id then (n.1, f n.2) else n) (pmksa s) |>.

Definition pmksa_cache_clone_entry (malloc_ok : bool) (now : Z) (old_entry : positive) (aa : list Z)
    (s : pmksa_sys) : run (option positive * pmksa_sys) :=
  old ← deref old_entry s;
  let '(new_entry, s) := pmksa_cache_add malloc_ok now (take (e_pmk_len old) (e_pmk old)) aa (sm_own_addr s)
                           (e_network_ctx old) (e_akmp old) s in
  match new_entry with
  | None => Ret (None, s)
  | Some id =>
      old ← deref old_entry s;
      Ret (Some id, update_entry id (λ e, e <| e_expiration := e_expiration old |>
                                             <| e_opportunistic := true |>) s)
  end.

Definition pmksa_cache_get_opportunistic (malloc_ok : bool) (now network_ctx : Z) (aa : list Z)
    (s : pmksa_sys) : run (option positive * pmksa_sys) :=
  if network_ctx =? 0 then Ret (None, s)
  else match List.find (λ n, e_network_ctx n.2 =? network_ctx) (pmksa s) with
       | Some n => pmksa_cache_clone_entry malloc_ok now n.1 aa s
       | None => Ret (None, s)
       end.

Definition pmksa_cache_get_current (s : pmksa_sys) : option positive := cur_pmksa s.
Definition pmksa_cache_clear_current (s : pmksa_sys) : pmksa_sys := s <| cur_pmksa := None |>.

Definition pmksa_cache_set_current (malloc_ok : bool) (now : Z) (pmkid bssid : option (list Z))
    (network_ctx : Z) (try_opportunistic : bool) (s : pmksa_sys) : run (Z * pmksa_sys) :=
  let s := s <| cur_pmksa := None |> in
  let s := match pmkid with
           | Some _ => s <| cur_pmksa := pmksa_cache_get None pmkid s |>
           | None => s
           end in
  let s := match cur_pmksa s, bssid with
           | None, Some _ => s <| cur_pmksa := pmksa_cache_get bssid None s |>
           | _, _ => s
           end in
  s ← match cur_pmksa s, bssid with
      | None, Some b =>
          if try_opportunistic then
            r ← pmksa_cache_get_opportunistic malloc_ok now network_ctx b s;
            Ret (r.2 <| cur_pmksa := r.1 |>)
          else Ret s
      | _, _ => Ret s
      end;
  Ret (match cur_pmksa s with Some _ => 0 | None => -1 end, s).

(** All entries are freed without the callback, and the timers cancelled. *)
Definition pmksa_cache_deinit (now : Z) (s : pmksa_sys) : pmksa_sys :=
  pmksa_cache_set_expiration now (s <| pmksa := [] |>).
End ops.

Definition pmksa_cache_init (pmk : list Z) (pmk_len : nat) (bssid own_addr : list Z) : pmksa_sys :=
  PmksaSys [] 0 None None None pmk pmk_len bssid own_addr 1 [].

(** ** What the operations do to the list *)

(** Everything but the list and the counter that the abstract view does not see. *)
Lemma free_cb_list n r s :
  pmksa (free_cb n r s) = pmksa s ∧ pmksa_count (free_cb n r s) = pmksa_count s ∧
  fresh (free_cb n r s) = fresh s ∧ expire_at (free_cb n r s) = expire_at s.
Proof. destruct n as [id e]. unfold free_cb. repeat if_branch; done. Qed.

Lemma free_entry_list n r s :
  pmksa (pmksa_cache_free_entry n r s) = pmksa s ∧
  pmksa_count (pmksa_cache_free_entry n r s) = pmksa_count s - 1 ∧
  fresh (pmksa_cache_free_entry n r s) = fresh s ∧
  expire_at (pmksa_cache_free_entry n r s) = expire_at s.
Proof.
  unfold pmksa_cache_free_entry. cbv zeta.
  match goal with |- context [free_cb n r ?x] => destruct (free_cb_list n r x) as (-> & -> & -> & ->) end.
  done.
Qed.

Lemma set_expiration_list now s :
  pmksa (pmksa_cache_set_expiration now s) = pmksa s ∧
  pmksa_count (pmksa_cache_set_expiration now s) = pmksa_count s ∧
  fresh (pmksa_cache_set_expiration now s) = fresh s.
Proof. unfold pmksa_cache_set_expiration. simpl. repeat case_match; done. Qed.

(** The list, the counter and the allocator after an operation. *)
Definition lists (s : pmksa_sys) (l : list node) (c : Z) (f : positive) : Prop :=
  pmksa s = l ∧ pmksa_count s = c ∧ fresh s = f.

Lemma lists_free n r s l c f : lists s l c f → lists (pmksa_cache_free_entry n r s) l (c - 1) f.
Proof. intros (<- & <- & <-). unfold lists. by destruct (free_entry_list n r s) as (-> & -> & -> & _). Qed.
Lemma lists_set_expiration now s l c f : lists s l c f → lists (pmksa_cache_set_expiration now s) l c f.
Proof. intros (<- & <- & <-). apply set_expiration_list. Qed.
Lemma lists_update s l c f l' : lists s l c f → lists (s <| pmksa := l' |>) l' c f.
Proof. intros (<- & <- & <-). done. Qed.

(** The entries left by [expire_loop]. *)
Fixpoint unexpired (now : Z) (l : list node) : list node :=
  match l with
  | [] => []
  | n :: l' => if e_expiration n.2 <=? now then unexpired now l' else l
  end.

Lemma lists_expire_loop now l : ∀ s c f,
  lists s l c f →
  lists (expire_loop now l s) (unexpired now l)
    (c - Z.of_nat (length l) + Z.of_nat (length (unexpired now l))) f.
Proof.
  induction l as [|n l IH]; intros s c f Hs; cbn [expire_loop unexpired].
  - by replace (c - Z.of_nat (length (@nil node)) + Z.of_nat (length (@nil node))) with c by (simpl; lia).
  - if_branch.
    + replace (c - Z.of_nat (length (n :: l)) + Z.of_nat (length (unexpired now l)))
        with (c - 1 - Z.of_nat (length l) + Z.of_nat (length (unexpired now l))) by (simpl; lia).
      apply IH, lists_free. by eapply lists_update.
    + by replace (c - Z.of_nat (length (n :: l)) + Z.of_nat (length (n :: l))) with c by lia.
Qed.

Definition others (network_ctx : Z) (l : list node) : list node :=
  List.filter (λ n, negb (of_network network_ctx n.2)) l.

Lemma lists_flush_loop net l : ∀ kept s c f,
  lists s (kept ++ l) c f →
  lists (flush_loop net kept l s).1 (kept ++ others net l)
    (c - Z.of_nat (length l) + Z.of_nat (length (others net l))) f ∧
  ((flush_loop net kept l s).2 = false → others net l = l ∧ (flush_loop net kept l s).1 = s).
Proof.
  induction l as [|n l IH]; intros kept s c f Hs; cbn [flush_loop others List.filter].
  - replace (c - _ + _) with c by (simpl; lia). split; [exact Hs|]. intros _. by split.
  - fold (others net l). destruct (of_network net n.2); cbn [negb].
    + split; [|done]. cbn [fst].
      replace (c - Z.of_nat (length (n :: l)) + Z.of_nat (length (others net l)))
        with (c - 1 - Z.of_nat (length l) + Z.of_nat (length (others net l))) by (simpl; lia).
      refine (proj1 (IH _ _ _ _ _)). apply lists_free. by eapply lists_update.
    + destruct (IH (kept ++ [n]) s c f) as [H1 H2]; [by rewrite <- app_assoc|].
      rewrite <- app_assoc in H1. split.
      * eapply (eq_rect _ (λ z, lists _ _ z f) H1). simpl. lia.
      * intros H. destruct (H2 H) as [H3 H4]. split; [|done]. by rewrite H3.
Qed.

Lemma lists_flush now net s l c f :
  lists s l c f →
  lists (pmksa_cache_flush now net s) (others net l)
    (c - Z.of_nat (length l) + Z.of_nat (length (others net l))) f.
Proof.
  intros Hs. unfold pmksa_cache_flush. pose proof Hs as (-> & _ & _).
  destruct (lists_flush_loop net l [] s c f Hs) as [H _].
  destruct (flush_loop net [] l s) as [s' removed]. cbn [fst app] in H.
  destruct removed; [by apply lists_set_expiration|done].
Qed.

Definition oldest_out (c : Z) (l : list node) : list node :=
  match l with [] => [] | n :: l' => if pmksa_cache_max_entries <=? c then l' else l end.

Lemma lists_evict s l c f :
  lists s l c f →
  lists (evict s) (oldest_out c l) (c - Z.of_nat (length l) + Z.of_nat (length (oldest_out c l))) f.
Proof.
  intros Hs. unfold evict. pose proof Hs as (-> & -> & _). destruct l as [|n l]; cbn [oldest_out].
  - by replace (c - _ + _) with c by lia.
  - if_branch; [|by replace (c - _ + _) with c by lia].
    replace (c - Z.of_nat (length (n :: l)) + Z.of_nat (length l)) with (c - 1) by (simpl; lia).
    apply lists_free. by eapply lists_update.
Qed.

Lemma lists_link now id e s l c f :
  lists s l c f → lists (link_entry now id e s) (insert_entry (id, e) l) (c + 1) f.
Proof.
  intros Hs. unfold link_entry. cbv zeta. pose proof Hs as (-> & _ & _).
  apply (lists_update _ _ _ _ (insert_entry (id, e) l)) in Hs. unfold lists.
  if_branch; [apply (lists_set_expiration now) in Hs|]; destruct Hs as (H1 & H2 & H3); simpl in *;
    by rewrite ?H1, ?H2, ?H3.
Qed.

(** Removing the entry for the same authenticator and the others of the network. *)
Lemma lists_replace now net pre n post s c f :
  lists s (pre ++ n :: post) c f →
  lists (replace_entry now net pre n post s) (others net (pre ++ post))
    (c - Z.of_nat (length (pre ++ n :: post)) + Z.of_nat (length (others net (pre ++ post)))) f.
Proof.
  intros Hs. unfold replace_entry. cbv zeta.
  replace (c - Z.of_nat (length (pre ++ n :: post)) + Z.of_nat (length (others net (pre ++ post))))
    with (c - 1 - Z.of_nat (length (pre ++ post)) + Z.of_nat (length (others net (pre ++ post))))
    by (rewrite !length_app; simpl; lia).
  apply lists_flush, lists_free. destruct Hs as (? & ? & ?). if_branch; done.
Qed.

(** ** The invariant of the list *)

Definition aas (l : list node) : list (list Z) := map (λ n, e_aa n.2) l.
Definition expires_before (a b : node) : Prop := e_expiration a.2 ≤ e_expiration b.2.

Record list_inv (l : list node) (c : Z) (f : positive) : Prop := ListInv {
  inv_count : c = Z.of_nat (length l);
  inv_max : (length l ≤ 32)%nat;
  inv_aa : NoDup (aas l);
  inv_len : Forall (λ n, length (e_aa n.2) = 6%nat) l;
  inv_ids : NoDup (map fst l);
  inv_fresh : Forall (λ n, (n.1 < f)%positive) l;
  inv_sorted : StronglySorted expires_before l
}.
Definition pm_inv (s : pmksa_sys) : Prop := list_inv (pmksa s) (pmksa_count s) (fresh s).

Lemma sublist_Forall {A} (P : A → Prop) l k : sublist l k → Forall P k → Forall P l.
Proof. rewrite !Forall_forall. intros Hs Hk x Hx. apply Hk. by eapply elem_of_sublist. Qed.

Lemma sublist_sorted {A} (R : A → A → Prop) l k : sublist l k → StronglySorted R k → StronglySorted R l.
Proof.
  induction 1 as [|x l k Hs IH|x l k Hs IH]; intros Hk; [done| |].
  - apply StronglySorted_inv in Hk as [Hk Hx]. constructor; [by apply IH|].
    by eapply sublist_Forall.
  - apply StronglySorted_inv in Hk as [Hk _]. by apply IH.
Qed.

Lemma list_inv_sublist l k c f :
  sublist l k → list_inv k c f → list_inv l (c - Z.of_nat (length k) + Z.of_nat (length l)) f.
Proof.
  intros Hs [-> Hm Ha Hl Hi Hf Ho]. split; [lia| | | | | |].
  - etrans; [by apply sublist_length|done].
  - eapply sublist_NoDup; [done|]. by apply (fmap_sublist (λ n : node, _)).
  - by eapply sublist_Forall.
  - eapply sublist_NoDup; [done|]. by apply (fmap_sublist (λ n : node, _)).
  - by eapply sublist_Forall.
  - by eapply sublist_sorted.
Qed.

Lemma sublist_unexpired now l : sublist (unexpired now l) l.
Proof. induction l as [|n l IH]; cbn [unexpired]; [done|]. if_branch; [by apply sublist_cons|done]. Qed.
Lemma sublist_others net l : sublist (others net l) l.
Proof.
  induction l as [|n l IH]; cbn [others List.filter]; [done|].
  if_branch; [by apply sublist_skip|by apply sublist_cons].
Qed.
Lemma sublist_oldest_out c l : sublist (oldest_out c l) l.
Proof. destruct l as [|n l]; cbn [oldest_out]; [done|]. if_branch; [by apply sublist_cons|done]. Qed.
Lemma sublist_drop_middle {A} (pre : list A) n post : sublist (pre ++ post) (pre ++ n :: post).
Proof. apply sublist_app; [done|by apply sublist_cons]. Qed.
#[export] Hint Resolve sublist_unexpired sublist_others sublist_oldest_out sublist_drop_middle : wpa.

Lemma insert_perm n l : insert_entry n l ≡ₚ n :: l.
Proof.
  induction l as [|m l IH]; cbn [insert_entry]; [done|]. if_branch; [done|].
  rewrite IH. apply Permutation_swap.
Qed.

Lemma insert_sorted n l :
  StronglySorted expires_before l → StronglySorted expires_before (insert_entry n l).
Proof.
  induction l as [|m l IH]; cbn [insert_entry]; intros Hl; [by repeat constructor|].
  apply StronglySorted_inv in Hl as [Hl Hm]. destruct (Z.ltb_spec (e_expiration n.2) (e_expiration m.2)).
  - constructor; [by constructor|]. constructor; [unfold expires_before; lia|].
    eapply Forall_impl; [exact Hm|]. unfold expires_before. intros x Hx. lia.
  - constructor; [by apply IH|]. rewrite insert_perm. by constructor.
Qed.

Lemma list_inv_insert id e l c f :
  list_inv l c f → (length l < 32)%nat → e_aa e ∉ aas l → length (e_aa e) = 6%nat →
  (∀ n, n ∈ l → n.1 ≠ id) → (id < f)%positive →
  list_inv (insert_entry (id, e) l) (c + 1) f.
Proof.
  intros [-> Hm Ha Hl Hi Hf Ho] H32 Haa H6 Hid Hlt.
  pose proof (insert_perm (id, e) l) as Hp. split.
  - rewrite Hp. simpl. lia.
  - rewrite Hp. simpl. lia.
  - unfold aas. rewrite Hp. simpl. by constructor.
  - rewrite Hp. by constructor.
  - rewrite Hp. simpl. constructor; [|done]. intros (n & ? & Hn)%list_elem_of_fmap. by apply (Hid n).
  - rewrite Hp. by constructor.
  - by apply insert_sorted.
Qed.

Lemma memcmp_zero a b : length a = length b → (memcmp a b =? 0) = bool_decide (a = b).
Proof.
  intros Hl. case_bool_decide as H; [subst; by rewrite memcmp_refl|].
  apply Z.eqb_neq. intros Hc. by apply H, memcmp_eq.
Qed.

Lemma split_aa_spec aa l :
  length aa = 6%nat → Forall (λ n, length (e_aa n.2) = 6%nat) l →
  match split_aa aa l with
  | Some (pre, n, post) => l = pre ++ n :: post ∧ e_aa n.2 = aa
  | None => aa ∉ aas l
  end.
Proof.
  intros H6. induction 1 as [|n l Hn Hl IH]; cbn [split_aa]; [apply not_elem_of_nil|].
  rewrite memcmp_zero by congruence. case_bool_decide as He; [done|].
  destruct (split_aa aa l) as [[[pre m] post]|].
  - destruct IH as [-> ?]. done.
  - cbn [aas map]. apply not_elem_of_cons. done.
Qed.

(** ** The specification: a finite map from authenticator addresses *)

Notation pmap := (gmap (list Z) pmksa_cache_entry).

Definition spec_flush (network_ctx : Z) (m : pmap) : pmap :=
  filter (λ p, of_network network_ctx p.2 = false) m.
Definition spec_expire (now : Z) (m : pmap) : pmap := filter (λ p, now < e_expiration p.2) m.

(** A new entry; a full map loses one that expires first. *)
Definition spec_insert (e : pmksa_cache_entry) (m m' : pmap) : Prop :=
  if (size m <? 32)%nat then m' = <[e_aa e := e]> m
  else ∃ k o, m !! k = Some o ∧ (∀ k' o', m !! k' = Some o' → e_expiration o ≤ e_expiration o') ∧
              m' = <[e_aa e := e]> (delete k m).
Definition spec_add (pmk : list Z) (e : pmksa_cache_entry) (m m' : pmap) : Prop :=
  match m !! e_aa e with
  | None => spec_insert e m m'
  | Some old => if same_pmksa pmk e old then m' = m
                else spec_insert e (spec_flush (e_network_ctx e) (delete (e_aa e) m)) m'
  end.

(** The map a list stands for. *)
Definition amap (l : list node) : pmap := list_to_map (map (λ n, (e_aa n.2, n.2)) l).

Lemma amap_lookup l a e : NoDup (aas l) → amap l !! a = Some e ↔ ∃ id, (id, e) ∈ l ∧ e_aa e = a.
Proof.
  intros Hn. unfold amap. rewrite <- elem_of_list_to_map.
  - rewrite list_elem_of_fmap. split.
    + intros ([id e'] & [= -> ->] & H). by exists id.
    + intros (id & H & <-). by exists (id, e).
  - replace (map _ l).*1 with (aas l); [done|]. unfold aas. rewrite <- list_fmap_compose. done.
Qed.

Lemma amap_lookup_None l a : NoDup (aas l) → a ∉ aas l → amap l !! a = None.
Proof.
  intros Hn Ha. apply eq_None_not_Some. intros [e (id & H & <-)%amap_lookup]; [|done].
  apply Ha. by apply (list_elem_of_fmap_2 (λ n : node, e_aa n.2) _ (id, e)).
Qed.

Lemma amap_size l : NoDup (aas l) → size (amap l) = length l.
Proof.
  intros Hn. unfold amap. rewrite map_size_list_to_map.
  - apply length_map.
  - replace (map _ l).*1 with (aas l); [done|]. unfold aas. rewrite <- list_fmap_compose. done.
Qed.

(** Two maps with the same entries. *)
Ltac amap_eq := apply map_eq; intros a; apply option_eq; intros e.

Lemma amap_flush net l : NoDup (aas l) → amap (others net l) = spec_flush net (amap l).
Proof.
  intros Hn. amap_eq. unfold spec_flush. rewrite map_lookup_filter_Some, !amap_lookup; [|done|].
  - cbn [snd]. split.
    + intros (id & H & <-). apply list_elem_of_In, filter_In in H as [H Hf].
      rewrite <- list_elem_of_In in H. split; [eauto|]. by apply negb_true_iff in Hf.
    + intros [(id & H & <-) Hf]. exists id. split; [|done].
      apply list_elem_of_In, filter_In. rewrite <- list_elem_of_In. cbn [snd]. by rewrite Hf.
  - eapply sublist_NoDup; [done|]. apply (fmap_sublist (λ n : node, e_aa n.2)), sublist_others.
Qed.

Lemma unexpired_elem now l n : StronglySorted expires_before l →
  n ∈ unexpired now l ↔ n ∈ l ∧ now < e_expiration n.2.
Proof.
  induction 1 as [|m l Hl IH Hm]; cbn [unexpired]; [set_solver|].
  destruct (Z.leb_spec (e_expiration m.2) now).
  - rewrite IH, elem_of_cons. split; [naive_solver|]. intros [[-> | ?] ?]; [lia|done].
  - split; [|naive_solver]. intros Hn. split; [done|]. apply elem_of_cons in Hn as [-> |Hn]; [lia|].
    rewrite Forall_forall in Hm. specialize (Hm n Hn). unfold expires_before in Hm. lia.
Qed.

Lemma amap_expire now l : NoDup (aas l) → StronglySorted expires_before l →
  amap (unexpired now l) = spec_expire now (amap l).
Proof.
  intros Hn Hs. amap_eq. unfold spec_expire. rewrite map_lookup_filter_Some, !amap_lookup; [|done|].
  - cbn [snd]. setoid_rewrite unexpired_elem; [|done]. cbn [snd]. naive_solver.
  - eapply sublist_NoDup; [done|]. apply (fmap_sublist (λ n : node, e_aa n.2)), sublist_unexpired.
Qed.

Lemma aas_drop_middle pre (n : node) post : NoDup (aas (pre ++ n :: post)) → e_aa n.2 ∉ aas (pre ++ post).
Proof.
  unfold aas. rewrite !map_app. cbn [map]. intros (_ & H2 & H3)%NoDup_app Hm.
  apply NoDup_cons in H3 as [H3 _]. apply elem_of_app in Hm as [Hm|Hm]; [|done].
  apply (H2 _ Hm). set_solver.
Qed.

Lemma amap_delete pre n post : NoDup (aas (pre ++ n :: post)) →
  amap (pre ++ post) = delete (e_aa n.2) (amap (pre ++ n :: post)).
Proof.
  intros Hn. amap_eq. rewrite lookup_delete_Some, !amap_lookup; [|done|].
  - split.
    + intros (id & H & <-). split; [|exists id; set_solver]. intros He.
      apply (aas_drop_middle pre n post); [done|]. rewrite He.
      by apply (list_elem_of_fmap_2 (λ n : node, e_aa n.2) _ (id, e)).
    + intros [Hne (id & H & <-)]. exists id. split; [|done].
      apply elem_of_app in H as [H|H]; [set_solver|].
      apply elem_of_cons in H as [<-|H]; [done|set_solver].
  - eapply sublist_NoDup; [done|]. apply (fmap_sublist (λ n : node, e_aa n.2)), sublist_drop_middle.
Qed.

Lemma amap_insert id e l : NoDup (aas l) → e_aa e ∉ aas l →
  amap (insert_entry (id, e) l) = <[e_aa e := e]> (amap l).
Proof.
  intros Hn Ha. apply map_eq. intros a. apply option_eq. intros e'.
  assert (NoDup (aas (insert_entry (id, e) l))) as Hi.
  { unfold aas. rewrite insert_perm. by apply NoDup_cons. }
  rewrite lookup_insert_Some, !amap_lookup by done.
  setoid_rewrite insert_perm. setoid_rewrite elem_of_cons. split.
  - intros (id' & [[= -> ->]|H] & <-); [by left|]. right. split; [|by exists id'].
    intros He. apply Ha. rewrite He. by apply (list_elem_of_fmap_2 (λ n : node, e_aa n.2) _ (id', e')).
  - intros [[<- <-]|[Hne (id' & H & <-)]]; [exists id; auto|exists id'; auto].
Qed.

Lemma amap_evict l c : NoDup (aas l) → StronglySorted expires_before l → l ≠ [] → 32 ≤ c →
  ∃ k o, amap l !! k = Some o ∧ (∀ k' o', amap l !! k' = Some o' → e_expiration o ≤ e_expiration o') ∧
    amap (oldest_out c l) = delete k (amap l).
Proof.
  intros Hn Hs Hl Hc. destruct l as [|[id o] l]; [done|]. exists (e_aa o), o.
  apply StronglySorted_inv in Hs as [_ Hs]. rewrite Forall_forall in Hs. split_and!.
  - apply amap_lookup; [done|]. exists id. set_solver.
  - intros k' o' (id' & H & _)%amap_lookup; [|done].
    apply elem_of_cons in H as [[= -> ->]|H]; [lia|]. apply (Hs _ H).
  - cbn [oldest_out]. unfold pmksa_cache_max_entries. rewrite (proj2 (Z.leb_le _ _)) by done.
    by apply (amap_delete [] (id, o) l).
Qed.

Lemma get_among aa pmkid s id : pmksa_cache_get aa pmkid s = Some id → id ∈ map fst (pmksa s).
Proof.
  unfold pmksa_cache_get. destruct (List.find _ (pmksa s)) as [n|] eqn:Hf; [|done]. intros [= <-].
  apply find_some in Hf as [Hin _]. rewrite <- list_elem_of_In in Hin.
  by apply (list_elem_of_fmap_2 fst _ n).
Qed.

(** ** Refinement *)

(** The operations on a cache without opportunistic entries. *)
Inductive pm_op :=
| OpAdd (malloc_ok : bool) (pmk aa spa : list Z) (network_ctx akmp : Z)
| OpFlush (network_ctx : Z)
| OpExpire
| OpReauth
| OpSelect (pmkid bssid : option (list Z)) (network_ctx : Z)
| OpClear.

Definition op_ok (op : pm_op) : Prop :=
  match op with OpAdd _ _ aa _ _ _ => length aa = 6%nat | _ => True end.

Section refinement.
Context (mem : list Z) (lifetime threshold : Z).

Definition pm_run (now : Z) (op : pm_op) (s : pmksa_sys) : pmksa_sys :=
  match op with
  | OpAdd malloc_ok pmk aa spa net akmp =>
      (pmksa_cache_add mem lifetime threshold malloc_ok now pmk aa spa net akmp s).2
  | OpFlush net => pmksa_cache_flush now net s
  | OpExpire => pmksa_cache_expire now s
  | OpReauth => pmksa_cache_reauth s
  | OpSelect pmkid bssid net =>
      match pmksa_cache_set_current mem lifetime threshold true now pmkid bssid net false s with
      | Ret (_, s) => s
      | _ => s
      end
  | OpClear => pmksa_cache_clear_current s
  end.

Definition spec_run (now : Z) (op : pm_op) (m m' : pmap) : Prop :=
  match op with
  | OpAdd malloc_ok pmk aa spa net akmp =>
      if (32 <? length pmk)%nat || negb malloc_ok then m' = m
      else spec_add pmk (new_entry mem lifetime threshold now pmk aa spa net akmp) m m'
  | OpFlush net => m' = spec_flush net m
  | OpExpire => m' = spec_expire now m
  | OpReauth | OpSelect _ _ _ | OpClear => m' = m
  end.

(** Inserting after room has been made. *)
Lemma insert_refines s l c f id e :
  lists s l c f → list_inv l c f → e_aa e ∉ aas l → length (e_aa e) = 6%nat →
  (∀ n, n ∈ l → n.1 ≠ id) → (id < f)%positive → ∀ now,
  let s' := link_entry now id e (evict s) in
  pm_inv s' ∧ spec_insert e (amap l) (amap (pmksa s')).
Proof using.
  intros Hs Hi Ha H6 Hid Hlt now s'.
  pose proof (lists_link now id e _ _ _ _ (lists_evict _ _ _ _ Hs)) as (E1 & E2 & E3). fold s' in E1, E2, E3.
  pose proof (list_inv_sublist _ _ _ _ (sublist_oldest_out c l) Hi) as Hi'.
  assert (Hn' : e_aa e ∉ aas (oldest_out c l)).
  { intros H. apply Ha. eapply elem_of_sublist; [done|].
    apply (fmap_sublist (λ n : node, e_aa n.2)), sublist_oldest_out. }
  assert (Hlen : (length (oldest_out c l) < 32)%nat).
  { destruct Hi as [-> Hm _ _ _ _ _]. destruct l as [|n l]; simpl in *; [lia|].
    unfold pmksa_cache_max_entries. destruct (Z.leb_spec 32 (Z.of_nat (S (length l)))); simpl; lia. }
  split.
  - unfold pm_inv. rewrite E1, E2, E3. apply list_inv_insert; try done.
    intros n Hn. apply Hid. eapply elem_of_sublist; [done|apply sublist_oldest_out].
  - rewrite E1, amap_insert by (done || apply Hi'). unfold spec_insert.
    destruct Hi as [-> Hm Haa _ _ _ Ho]. rewrite amap_size by done.
    destruct (Nat.ltb_spec (length l) 32).
    + destruct l as [|n l]; [done|]. cbn [oldest_out]. unfold pmksa_cache_max_entries.
      by rewrite (proj2 (Z.leb_gt _ _)) by lia.
    + destruct (amap_evict l (Z.of_nat (length l))) as (k & o & H1 & H2 & ->); try done; [|lia|by eauto].
      by destruct l; [simpl in *; lia|].
Qed.

Lemma add_refines malloc_ok now pmk aa spa net akmp s :
  pm_inv s → length aa = 6%nat →
  let s' := pm_run now (OpAdd malloc_ok pmk aa spa net akmp) s in
  pm_inv s' ∧ spec_run now (OpAdd malloc_ok pmk aa spa net akmp) (amap (pmksa s)) (amap (pmksa s')).
Proof using.
  intros Hi H6. cbn [pm_run spec_run]. unfold pmksa_cache_add.
  destruct (32 <? length pmk)%nat; [done|]. destruct malloc_ok; [|done]. cbn [negb orb]. cbv zeta.
  set (e := new_entry mem lifetime threshold now pmk aa spa net akmp).
  assert (Ea : e_aa e = aa) by (unfold e; simpl; by rewrite take_ge by lia).
  assert (En : e_network_ctx e = net) by done.
  set (s1 := s <| fresh := Pos.succ (fresh s) |>). change (pmksa s1) with (pmksa s).
  assert (L1 : lists s1 (pmksa s) (pmksa_count s) (Pos.succ (fresh s))) by done.
  assert (Hi1 : list_inv (pmksa s) (pmksa_count s) (Pos.succ (fresh s))).
  { destruct Hi as [? ? ? ? ? Hf ?]. split; try done. eapply Forall_impl; [exact Hf|]. simpl. lia. }
  assert (Hfr : ∀ n, n ∈ pmksa s → n.1 ≠ fresh s).
  { destruct Hi as [_ _ _ _ _ Hf _]. rewrite Forall_forall in Hf. intros n Hn He. specialize (Hf n Hn). cbn beta in Hf. lia. }
  pose proof (split_aa_spec aa (pmksa s) H6 (inv_len _ _ _ Hi)) as Hsp.
  rewrite (take_ge aa) by lia. unfold spec_add. rewrite Ea.
  destruct (split_aa aa (pmksa s)) as [[[pre n] post]|].
  - destruct Hsp as [Hl Hn]. pose proof Hi1 as Hi0. rewrite Hl in L1, Hi1, Hfr.
    assert (amap (pmksa s) !! aa = Some n.2) as ->.
    { apply amap_lookup; [apply Hi|]. exists n.1. rewrite Hl. destruct n. set_solver. }
    destruct (same_pmksa pmk e n.2); [split; [exact Hi0|done]|]. cbn [snd]. rewrite En.
    pose proof (list_inv_sublist _ _ _ _ (sublist_drop_middle pre n post) Hi1) as Hi2.
    assert (sublist (others net (pre ++ post)) (pre ++ n :: post)) as Hsub
      by (etrans; [apply sublist_others|apply sublist_drop_middle]).
    rewrite Hl. rewrite <- Hn, <- amap_delete by apply Hi1. rewrite <- amap_flush by apply Hi2.
    apply (insert_refines _ _ (pmksa_count s - Z.of_nat (length (pre ++ n :: post)) +
             Z.of_nat (length (others net (pre ++ post)))) (Pos.succ (fresh s))).
    + by apply lists_replace.
    + by apply list_inv_sublist.
    + rewrite Ea, <- Hn. intros Hm. apply (aas_drop_middle pre n post); [apply Hi1|].
      eapply elem_of_sublist; [done|]. apply (fmap_sublist (λ n : node, e_aa n.2)), sublist_others.
    + by rewrite Ea.
    + intros m Hm. apply Hfr. by eapply elem_of_sublist.
    + lia.
  - rewrite amap_lookup_None by (done || apply Hi).
    cbn [snd]. apply (insert_refines _ _ (pmksa_count s) (Pos.succ (fresh s))); try done; [by rewrite Ea..|lia].
Qed.

Lemma select_lists malloc_ok now pmkid bssid net s :
  ∃ r s', pmksa_cache_set_current mem lifetime threshold malloc_ok now pmkid bssid net false s = Ret (r, s') ∧
    lists s' (pmksa s) (pmksa_count s) (fresh s) ∧ expire_at s' = expire_at s ∧
    (∀ id, cur_pmksa s' = Some id → id ∈ map fst (pmksa s)).
Proof using.
  unfold pmksa_cache_set_current. cbv zeta.
  destruct pmkid, bssid; repeat case_match; do 2 eexists; (split; [reflexivity|]); (split; [done|]);
    (split; [done|]); intros id Hid;
    first [exact (get_among _ _ _ _ Hid) | discriminate Hid].
Qed.

Lemma run_refines now op s :
  pm_inv s → op_ok op →
  let s' := pm_run now op s in
  pm_inv s' ∧ spec_run now op (amap (pmksa s)) (amap (pmksa s')).
Proof using.
  intros Hi Hok. assert (L : lists s (pmksa s) (pmksa_count s) (fresh s)) by done.
  destruct op as [m pmk aa spa net akmp|net| | |pmkid bssid net|]; cbn [pm_run spec_run]; [by apply add_refines| | |done| |done].
  - destruct (lists_flush now net _ _ _ _ L) as (E1 & E2 & E3). unfold pm_inv. rewrite E1, E2, E3.
    split; [by apply list_inv_sublist, Hi; apply sublist_others|]. apply amap_flush, Hi.
  - destruct (lists_set_expiration now _ _ _ _ (lists_expire_loop now _ _ _ _ L)) as (E1 & E2 & E3).
    unfold pm_inv, pmksa_cache_expire. rewrite E1, E2, E3.
    split; [by apply list_inv_sublist, Hi; apply sublist_unexpired|]. apply amap_expire; apply Hi.
  - destruct (select_lists true now pmkid bssid net s) as (r & s' & -> & (E1 & E2 & E3) & _ & _).
    unfold pm_inv. by rewrite E1, E2, E3.
Qed.

(** Sequences of operations at given times. *)
Definition pm_runs (trace : list (Z * pm_op)) (s : pmksa_sys) : pmksa_sys :=
  foldl (λ s p, pm_run p.1 p.2 s) s trace.
Fixpoint spec_runs (trace : list (Z * pm_op)) (m m' : pmap) : Prop :=
  match trace with
  | [] => m' = m
  | (now, op) :: trace => ∃ m1, spec_run now op m m1 ∧ spec_runs trace m1 m'
  end.

Lemma runs_refine trace : ∀ s,
  pm_inv s → Forall (λ p, op_ok p.2) trace →
  pm_inv (pm_runs trace s) ∧ spec_runs trace (amap (pmksa s)) (amap (pmksa (pm_runs trace s))).
Proof using.
  induction trace as [|[now op] trace IH]; intros s Hi Hok; [done|].
  apply Forall_cons in Hok as [Hok1 Hok]. destruct (run_refines now op s Hi Hok1) as [Hi1 Hr1].
  destruct (IH _ Hi1 Hok) as [Hi2 Hr2]. split; [done|]. cbn [spec_runs]. eauto.
Qed.

Lemma pmksa_init_inv pmk pmk_len bssid own : pm_inv (pmksa_cache_init pmk pmk_len bssid own).
Proof using. split; simpl; (lia || constructor). Qed.
End refinement.

(** The entry a lookup by address gives. *)
Definition cached (aa : list Z) (s : pmksa_sys) : option pmksa_cache_entry :=
  match pmksa_cache_get (Some aa) None s with
  | Some id => match deref id s with Ret e => Some e | _ => None end
  | None => None
  end.

Lemma find_unique (l : list node) id e : NoDup (map fst l) → (id, e) ∈ l →
  List.find (λ n, Pos.eqb n.1 id) l = Some (id, e).
Proof.
  induction l as [|[id' e'] l IH]; [set_solver|]. cbn [map List.find fst].
  intros (Hn & Hl)%NoDup_cons [[= <- <-]|H]%elem_of_cons; [by rewrite Pos.eqb_refl|].
  destruct (Pos.eqb_spec id' id) as [->|]; [|by apply IH].
  destruct Hn. by apply (list_elem_of_fmap_2 fst _ (id, e)).
Qed.

Lemma deref_ok s id e : NoDup (map fst (pmksa s)) → (id, e) ∈ pmksa s → deref id s = Ret e.
Proof. intros Hn Hi. unfold deref. by rewrite (find_unique _ id e). Qed.

Lemma cached_amap aa s : pm_inv s → length aa = 6%nat → cached aa s = amap (pmksa s) !! aa.
Proof.
  intros Hi H6. unfold cached, pmksa_cache_get, matches, deref.
  destruct (List.find _ (pmksa s)) as [[id e]|] eqn:Hf; cbn [fmap option_fmap option_map fst].
  - apply find_some in Hf as [Hin He]. rewrite <- list_elem_of_In in Hin. cbn [snd] in He.
    rewrite andb_true_r, memcmp_zero in He.
    2: { pose proof (inv_len _ _ _ Hi) as Hl. rewrite Forall_forall in Hl. rewrite H6. apply (Hl _ Hin). }
    apply bool_decide_eq_true in He. rewrite (find_unique _ id e) by (done || apply Hi).
    symmetry. apply amap_lookup; [apply Hi|]. eauto.
  - symmetry. apply eq_None_not_Some. intros [e (id & Hin & <-)%amap_lookup]; [|apply Hi].
    apply list_elem_of_In in Hin. pose proof (find_none _ _ Hf _ Hin) as Hm. cbn [snd] in Hm.
    by rewrite memcmp_refl in Hm.
Qed.

(** ** The current entry is never freed memory *)

(** The current entry is among the nodes [l]. *)
Definition cur_among (l : list node) (s : pmksa_sys) : Prop :=
  ∀ id, cur_pmksa s = Some id → id ∈ map fst l.

Lemma free_cb_cur n r s :
  cur_pmksa (free_cb n r s) = None ∨ (cur_pmksa (free_cb n r s) = cur_pmksa s ∧ cur_pmksa s ≠ Some n.1).
Proof.
  destruct n as [id e]. unfold free_cb. destruct (_ || _) eqn:Hb; [left; by destruct r|].
  apply orb_false_iff in Hb as [Hb _]. apply bool_decide_eq_false in Hb. by right.
Qed.

Lemma cur_free n r s l :
  (∀ id, cur_pmksa s = Some id → id ≠ n.1 → id ∈ map fst l) → cur_among l (pmksa_cache_free_entry n r s).
Proof.
  intros H id. unfold pmksa_cache_free_entry. cbv zeta.
  match goal with |- context [free_cb n r ?x] => destruct (free_cb_cur n r x) as [->|[-> Hne]] end; [done|].
  intros Hid. apply H; [exact Hid|]. intros ->. by apply Hne.
Qed.

Lemma cur_set_expiration now s : cur_pmksa (pmksa_cache_set_expiration now s) = cur_pmksa s.
Proof. unfold pmksa_cache_set_expiration. simpl. repeat case_match; done. Qed.

Lemma cur_expire_loop now l : ∀ s, cur_among l s → cur_among (unexpired now l) (expire_loop now l s).
Proof.
  induction l as [|n l IH]; intros s Hs; cbn [expire_loop unexpired]; [done|]. if_branch; [|done].
  apply IH, cur_free. intros id Hid Hne. specialize (Hs id Hid). set_solver.
Qed.

Lemma cur_flush_loop net l : ∀ kept s,
  cur_among (kept ++ l) s → cur_among (kept ++ others net l) (flush_loop net kept l s).1.
Proof.
  induction l as [|n l IH]; intros kept s Hs; cbn [flush_loop others List.filter]; [done|].
  fold (others net l). destruct (of_network net n.2); cbn [negb fst].
  - apply IH, cur_free. intros id Hid Hne. specialize (Hs id Hid). rewrite map_app in *. set_solver.
  - specialize (IH (kept ++ [n]) s). rewrite <- !app_assoc in IH. by apply IH.
Qed.

Lemma cur_flush now net s : cur_among (pmksa s) s → cur_among (others net (pmksa s)) (pmksa_cache_flush now net s).
Proof.
  intros Hs. unfold pmksa_cache_flush. pose proof (cur_flush_loop net (pmksa s) [] s Hs) as H.
  destruct (flush_loop net [] (pmksa s) s) as [s' removed]. destruct removed; [|exact H].
  intros id. rewrite cur_set_expiration. apply H.
Qed.

Definition cur_live (s : pmksa_sys) : Prop := cur_among (pmksa s) s.

Lemma cur_evict s : cur_live s → cur_live (evict s).
Proof.
  intros Hs. unfold cur_live. destruct (lists_evict s _ _ _ (conj eq_refl (conj eq_refl eq_refl))) as (-> & _).
  unfold evict, cur_live in *. destruct (pmksa s) as [|n l]; [done|]. cbn [oldest_out]. if_branch; [|done].
  apply cur_free. intros id Hid Hne. specialize (Hs id Hid). set_solver.
Qed.

Lemma cur_link now id e s : cur_live s → cur_live (link_entry now id e s).
Proof.
  intros Hs. unfold cur_live. destruct (lists_link now id e s _ _ _ (conj eq_refl (conj eq_refl eq_refl))) as (-> & _).
  intros c Hc. rewrite insert_perm. cbn [map]. apply elem_of_cons. right. apply Hs. rewrite <- Hc.
  unfold link_entry. cbv zeta. if_branch; cbn; [|done]. by rewrite cur_set_expiration.
Qed.

Lemma cur_replace now net pre n post s :
  pmksa s = pre ++ n :: post → cur_live s → cur_live (replace_entry now net pre n post s).
Proof.
  intros Hl Hs. unfold cur_live, replace_entry. cbv zeta.
  set (s1 := s <| pmksa := pre ++ post |>).
  set (s2 := if bool_decide _ then _ else _).
  destruct (free_entry_list n true s2) as (E & _).
  assert (pmksa s2 = pre ++ post) as E2 by (unfold s2; by if_branch). rewrite E2 in E.
  destruct (lists_flush now net (pmksa_cache_free_entry n true s2) _ _ _ (conj eq_refl (conj eq_refl eq_refl)))
    as (-> & _).
  apply cur_flush. rewrite E. apply cur_free. intros id Hid Hne.
  assert (cur_pmksa s = Some id) as Hc by (unfold s2 in Hid; by destruct (bool_decide _)).
  specialize (Hs id Hc). rewrite Hl, map_app in Hs. rewrite map_app. set_solver.
Qed.

Lemma run_cur mem lifetime threshold now op s :
  pm_inv s → op_ok op → cur_live s → cur_live (pm_run mem lifetime threshold now op s).
Proof.
  intros Hi Hok Hs. assert (L : lists s (pmksa s) (pmksa_count s) (fresh s)) by done.
  destruct op as [m pmk aa spa net akmp|net| | |pmkid bssid net|]; cbn [pm_run]; [|unfold cur_live..].
  - unfold pmksa_cache_add. destruct (32 <? length pmk)%nat; [done|]. destruct m; [|done]. cbv zeta. cbn [negb].
    pose proof (split_aa_spec (take 6 aa) (pmksa s)) as Hsp.
    set (s1 := s <| fresh := Pos.succ (fresh s) |>). change (pmksa s1) with (pmksa s).
    assert (Hs1 : cur_live s1) by exact Hs.
    destruct (split_aa (take 6 aa) (pmksa s)) as [[[pre n] post]|]; [|cbn [snd]; by apply cur_link, cur_evict].
    destruct Hsp as [Hl _]; [simpl in Hok; rewrite length_take; lia|apply Hi|].
    destruct (same_pmksa _ _ _); [done|]. cbn [snd]. by apply cur_link, cur_evict, cur_replace.
  - destruct (lists_flush now net _ _ _ _ L) as (-> & _). by apply cur_flush.
  - unfold pmksa_cache_expire.
    destruct (lists_set_expiration now _ _ _ _ (lists_expire_loop now _ _ _ _ L)) as (-> & _).
    intros id. rewrite cur_set_expiration. by apply cur_expire_loop.
  - by intros id [=].
  - destruct (select_lists mem lifetime threshold true now pmkid bssid net s) as (r & s' & -> & (-> & _) & _ & H).
    exact H.
  - by intros id [=].
Qed.

Lemma runs_cur mem lifetime threshold trace : ∀ s,
  pm_inv s → Forall (λ p, op_ok p.2) trace → cur_live s → cur_live (pm_runs mem lifetime threshold trace s).
Proof.
  induction trace as [|[now op] trace IH]; intros s Hi Hok Hs; [done|].
  apply Forall_cons in Hok as [Hok1 Hok]. apply IH; [by apply run_refines|done|]. by apply run_cur.
Qed.


(** ** The expiration timer *)

(** The timer is due at the latest a second after the first entry expires. *)
Definition timer_ok (now : Z) (s : pmksa_sys) : Prop :=
  match pmksa s with
  | [] => True
  | n :: _ => ∃ t, expire_at s = Some t ∧ t ≤ Z.max now (e_expiration n.2) + 1
  end.

Lemma set_expiration_timer now s : timer_ok now (pmksa_cache_set_expiration now s).
Proof.
  unfold timer_ok, pmksa_cache_set_expiration. cbn -[Z.max].
  destruct (pmksa s) as [|[id e] l] eqn:Hl; cbn -[Z.max]; rewrite ?Hl; [done|].
  repeat case_match; cbn -[Z.max] in *; rewrite ?Hl in *; simplify_eq; eexists; (split; [done|]); cbn [snd]; lia.
Qed.

(** Dropping entries of a sorted list, or later times, keep the timer early enough. *)
Lemma timer_ok_sublist now now' s s' :
  timer_ok now s → now ≤ now' → sublist (pmksa s') (pmksa s) →
  StronglySorted expires_before (pmksa s) → expire_at s' = expire_at s → timer_ok now' s'.
Proof.
  unfold timer_ok. intros Ht Hle Hsub Ho He. destruct (pmksa s') as [|n' l']; [done|].
  assert (n' ∈ pmksa s) as Hin by (eapply elem_of_sublist; [|done]; set_solver).
  destruct (pmksa s) as [|n l]; [set_solver|]. destruct Ht as (t & Et & Ht). exists t. split; [congruence|].
  apply StronglySorted_inv in Ho as [_ Ho]. rewrite Forall_forall in Ho.
  apply elem_of_cons in Hin as [->|Hin]; [lia|]. specialize (Ho _ Hin). unfold expires_before in Ho. lia.
Qed.

Lemma flush_timer now now' net s :
  timer_ok now s → now ≤ now' → timer_ok now' (pmksa_cache_flush now' net s).
Proof.
  intros Ht Hle. unfold pmksa_cache_flush.
  destruct (lists_flush_loop net (pmksa s) [] s (pmksa_count s) (fresh s)) as [_ H]; [done|].
  destruct (flush_loop net [] (pmksa s) s) as [s' removed]. cbn [fst snd] in H.
  destruct removed; [apply set_expiration_timer|]. destruct (H eq_refl) as [_ ->].
  unfold timer_ok in *. destruct (pmksa s); [done|]. destruct Ht as (t & ? & ?). exists t. split; [done|lia].
Qed.

Lemma evict_timer now s :
  timer_ok now s → StronglySorted expires_before (pmksa s) → timer_ok now (evict s).
Proof.
  intros Ht Ho. eapply timer_ok_sublist; [exact Ht|lia| |done|].
  - destruct (lists_evict s (pmksa s) (pmksa_count s) (fresh s)) as (-> & _); [done|]. apply sublist_oldest_out.
  - unfold evict. destruct (pmksa s) as [|n l]; [done|]. if_branch; [|done].
    by destruct (free_entry_list n false (s <| pmksa := l |>)) as (_ & _ & _ & ->).
Qed.

Lemma link_timer now id e s : timer_ok now s → timer_ok now (link_entry now id e s).
Proof.
  intros Ht. unfold link_entry. cbv zeta. if_branch.
  - pose proof (set_expiration_timer now (s <| pmksa := insert_entry (id, e) (pmksa s) |>)) as H.
    exact H.
  - unfold timer_ok in *. cbn. destruct (pmksa s) as [|n l]; [done|]. cbn [insert_entry snd].
    cbn [goes_first] in Heqb. by rewrite Heqb.
Qed.

Lemma replace_timer now now' net pre n post s :
  timer_ok now s → now ≤ now' → pmksa s = pre ++ n :: post → StronglySorted expires_before (pmksa s) →
  timer_ok now' (replace_entry now' net pre n post s).
Proof.
  intros Ht Hle Hl Ho. unfold replace_entry. cbv zeta. eapply flush_timer; [|done].
  eapply timer_ok_sublist; [exact Ht|lia| |done|].
  - match goal with |- context [pmksa_cache_free_entry n true ?x] =>
      destruct (free_entry_list n true x) as (-> & _) end.
    rewrite Hl. if_branch; apply sublist_drop_middle.
  - match goal with |- context [pmksa_cache_free_entry n true ?x] =>
      destruct (free_entry_list n true x) as (_ & _ & _ & ->) end. by if_branch.
Qed.

Section timer.
Context (mem : list Z) (lifetime threshold : Z).

Lemma run_timer now now' op s :
  pm_inv s → op_ok op → timer_ok now s → now ≤ now' → timer_ok now' (pm_run mem lifetime threshold now' op s).
Proof using.
  intros Hi Hok Ht Hle.
  assert (Hsame : ∀ s', pmksa s' = pmksa s → expire_at s' = expire_at s → timer_ok now' s').
  { intros s' E1 E2. eapply timer_ok_sublist; [exact Ht|done|by rewrite E1|apply Hi|done]. }
  destruct op as [m pmk aa spa net akmp|net| | |pmkid bssid net|]; cbn [pm_run].
  - unfold pmksa_cache_add. destruct (32 <? length pmk)%nat; [by apply Hsame|].
    destruct m; [|by apply Hsame]. cbv zeta. cbn [negb].
    pose proof (split_aa_spec (take 6 aa) (pmksa s)) as Hsp.
    set (s1 := s <| fresh := Pos.succ (fresh s) |>). change (pmksa s1) with (pmksa s).
    assert (Ht1 : timer_ok now' s1) by by apply Hsame.
    assert (Ho : StronglySorted expires_before (pmksa s)) by apply Hi.
    destruct (split_aa (take 6 aa) (pmksa s)) as [[[pre n] post]|].
    + destruct Hsp as [Hl _]; [simpl in Hok; rewrite length_take; lia|apply Hi|].
      destruct (same_pmksa _ _ _); [done|]. cbn [snd]. apply link_timer, evict_timer.
      * by eapply replace_timer.
      * destruct (lists_replace now' net pre n post s1 (pmksa_count s) (fresh s1)) as (-> & _); [done|].
        eapply sublist_sorted; [|exact Ho]. rewrite Hl.
        etrans; [apply sublist_others|apply sublist_drop_middle].
    + cbn [snd]. by apply link_timer, evict_timer.
  - by eapply flush_timer.
  - apply set_expiration_timer.
  - by apply Hsame.
  - destruct (select_lists mem lifetime threshold true now' pmkid bssid net s) as (r & s' & -> & (E1 & _) & E2 & _).
    by apply Hsame.
  - by apply Hsame.
Qed.

(** The times of a sequence of operations do not go back, from [now]; the last one. *)
Fixpoint times_ok (now : Z) (trace : list (Z * pm_op)) : Prop :=
  match trace with [] => True | (t, _) :: trace => now ≤ t ∧ times_ok t trace end.
Definition last_time (now : Z) (trace : list (Z * pm_op)) : Z := foldl (λ _ p, p.1) now trace.

Lemma runs_timer trace : ∀ now s,
  pm_inv s → Forall (λ p, op_ok p.2) trace → times_ok now trace → timer_ok now s →
  timer_ok (last_time now trace) (pm_runs mem lifetime threshold trace s) ∧
  pm_inv (pm_runs mem lifetime threshold trace s).
Proof using.
  induction trace as [|[t op] trace IH]; intros now s Hi Hok Htm Ht; [done|].
  apply Forall_cons in Hok as [Hok1 Hok]. destruct Htm as [Hle Htm].
  apply (IH t); [by apply run_refines|done|done|]. by eapply run_timer.
Qed.
End timer.


(** ** Opportunistic entries *)

Lemma find_ref_None (l : list node) id : id ∉ map fst l → List.find (λ n, Pos.eqb n.1 id) l = None.
Proof.
  induction l as [|n l IH]; [done|]. cbn [map List.find]. intros [Hn Hl]%not_elem_of_cons.
  destruct (Pos.eqb_spec n.1 id); [congruence|]. by apply IH.
Qed.

Lemma deref_update s id f e c : NoDup (map fst (pmksa s)) → (id, e) ∈ pmksa s →
  deref id (update_entry id f s <| cur_pmksa := c |>) = Ret (f e).
Proof.
  intros Hn Hi. apply deref_ok; simpl.
  - rewrite map_map. erewrite map_ext; [exact Hn|]. intros m. by destruct (Pos.eqb _ _).
  - apply list_elem_of_fmap. exists (id, e). cbn [fst snd]. by rewrite Pos.eqb_refl.
Qed.

Lemma get_aa_None s aa : pm_inv s → length aa = 6%nat → aa ∉ aas (pmksa s) →
  pmksa_cache_get (Some aa) None s = None.
Proof.
  intros Hi H6 Ha. unfold pmksa_cache_get, matches.
  destruct (List.find _ (pmksa s)) as [n|] eqn:Hf; [|done]. apply find_some in Hf as [Hin He].
  rewrite <- list_elem_of_In in Hin. rewrite andb_true_r, memcmp_zero in He.
  2: { pose proof (inv_len _ _ _ Hi) as Hl. rewrite Forall_forall in Hl. rewrite H6. apply (Hl _ Hin). }
  apply bool_decide_eq_true in He. destruct Ha. rewrite <- He.
  by apply (list_elem_of_fmap_2 (λ n : node, e_aa n.2) _ n).
Qed.

Section okc.
Context (mem : list Z) (lifetime threshold : Z).
Context (now net : Z) (aa : list Z) (s : pmksa_sys) (n : node).
Hypothesis Hinv : pm_inv s.
Hypothesis Haa : length aa = 6%nat.
Hypothesis Hnone : aa ∉ aas (pmksa s).
Hypothesis Hnet : net ≠ 0.
Hypothesis Hfind : List.find (λ n, e_network_ctx n.2 =? net) (pmksa s) = Some n.
Hypothesis Hpmk : (e_pmk_len n.2 ≤ 32)%nat.

(** The entry made from the one found, and the state once it is linked. *)
Definition okc_entry : pmksa_cache_entry :=
  new_entry mem lifetime threshold now (take (e_pmk_len n.2) (e_pmk n.2)) aa (sm_own_addr s)
    (e_network_ctx n.2) (e_akmp n.2).
Definition okc_linked : pmksa_sys :=
  link_entry now (fresh s) okc_entry (evict (s <| fresh := Pos.succ (fresh s) |>)).

Lemma okc_found : n ∈ pmksa s ∧ e_network_ctx n.2 = net.
Proof using Hfind.
  apply find_some in Hfind as [Hin He]. rewrite <- list_elem_of_In in Hin. split; [done|]. by apply Z.eqb_eq.
Qed.

Lemma okc_unfold :
  pmksa_cache_get_opportunistic mem lifetime threshold true now net aa s =
  (old ← deref n.1 okc_linked;
   Ret (Some (fresh s), update_entry (fresh s) (λ e, e <| e_expiration := e_expiration old |>
                                                       <| e_opportunistic := true |>) okc_linked)).
Proof using Hinv Haa Hnone Hnet Hfind Hpmk.
  destruct okc_found as [Hin _].
  unfold pmksa_cache_get_opportunistic. rewrite (proj2 (Z.eqb_neq _ _) Hnet), Hfind.
  unfold pmksa_cache_clone_entry. rewrite (deref_ok s n.1 n.2); [|apply Hinv|by destruct n].
  rewrite run_bind_l. unfold pmksa_cache_add.
  rewrite (proj2 (Nat.ltb_ge _ _)) by (rewrite length_take; lia). cbn [negb]. cbv zeta.
  change (pmksa (s <| fresh := Pos.succ (fresh s) |>)) with (pmksa s).
  pose proof (split_aa_spec aa (pmksa s) Haa (inv_len _ _ _ Hinv)) as Hsp. rewrite (take_ge aa) by lia.
  destruct (split_aa aa (pmksa s)) as [[[pre m] post]|]; [|done].
  destruct Hsp as [Hl He]. destruct Hnone. rewrite Hl, <- He. unfold aas. rewrite map_app. set_solver.
Qed.

Lemma okc_lists : lists okc_linked (insert_entry (fresh s, okc_entry) (oldest_out (pmksa_count s) (pmksa s)))
  (pmksa_count s - Z.of_nat (length (pmksa s)) + Z.of_nat (length (oldest_out (pmksa_count s) (pmksa s))) + 1)
  (Pos.succ (fresh s)).
Proof using. by apply lists_link, lists_evict. Qed.

Lemma okc_inv : pm_inv okc_linked.
Proof using Hinv Haa Hnone Hpmk.
  apply (insert_refines (s <| fresh := Pos.succ (fresh s) |>) (pmksa s) (pmksa_count s) (Pos.succ (fresh s))).
  - done.
  - destruct Hinv as [? ? ? ? ? Hf ?]. split; try done. eapply Forall_impl; [exact Hf|]. simpl. lia.
  - unfold okc_entry. simpl. by rewrite (take_ge aa) by lia.
  - unfold okc_entry. simpl. by rewrite (take_ge aa) by lia.
  - destruct Hinv as [_ _ _ _ _ Hf _]. rewrite Forall_forall in Hf. intros m Hm He. specialize (Hf m Hm).
    cbn beta in Hf. lia.
  - lia.
Qed.
End okc.

(** With opportunistic key caching, a station that meets a new access point of
    a network it has an entry for gets a new entry for that access point in a cache
    that is not full: the same PMK, network and key management, marked
    opportunistic, and expiring with the entry it was copied from. *)
Theorem pmksa_okc_clones mem lifetime threshold now net aa s n :
  pm_inv s → length aa = 6%nat → aa ∉ aas (pmksa s) → net ≠ 0 →
  List.find (λ n, e_network_ctx n.2 =? net) (pmksa s) = Some n → (e_pmk_len n.2 ≤ 32)%nat →
  pmksa_count s < 32 →
  ∃ id e s', pmksa_cache_set_current mem lifetime threshold true now None (Some aa) net true s = Ret (0, s') ∧
    cur_pmksa s' = Some id ∧ deref id s' = Ret e ∧ e_aa e = aa ∧ e_network_ctx e = net ∧
    e_akmp e = e_akmp n.2 ∧ e_expiration e = e_expiration n.2 ∧ e_opportunistic e = true ∧
    take (e_pmk_len e) (e_pmk e) = take (e_pmk_len n.2) (e_pmk n.2) ∧
    pmksa_count s' = pmksa_count s + 1.
Proof.
  intros Hi H6 Ha Hnet Hf Hp Hc. set (s0 := s <| cur_pmksa := None |>).
  assert (Hi0 : pm_inv s0) by exact Hi.
  unfold pmksa_cache_set_current. cbv zeta. fold s0. change (cur_pmksa s0) with (@None positive).
  cbv iota. rewrite (get_aa_None s0 aa Hi0 H6 Ha). change (s0 <| cur_pmksa := None |>) with s0.
  change (cur_pmksa s0) with (@None positive). cbv iota.
  rewrite (okc_unfold mem lifetime threshold now net aa s0 n Hi0 H6 Ha Hnet Hf Hp).
  set (l := okc_linked mem lifetime threshold now aa s0 n).
  destruct (okc_lists mem lifetime threshold now aa s0 n) as (E1 & E2 & _). fold l in E1, E2.
  pose proof (okc_inv mem lifetime threshold now aa s0 n Hi0 H6 Ha Hp) as Hl. fold l in Hl.
  assert (oldest_out (pmksa_count s0) (pmksa s0) = pmksa s0) as E3.
  { unfold oldest_out. destruct (pmksa s0); [done|]. unfold pmksa_cache_max_entries.
    by rewrite (proj2 (Z.leb_gt _ _)). }
  rewrite E3 in E1, E2. destruct (okc_found net s0 n Hf) as [Hin En].
  rewrite (deref_ok l n.1 n.2).
  2: apply Hl. 2: { rewrite E1, insert_perm. destruct n. set_solver. }
  rewrite !run_bind_l. cbn [fst snd]. clearbody l.
  set (g := λ e : pmksa_cache_entry, _ <| e_opportunistic := true |>).
  exists (fresh s0), (g (okc_entry mem lifetime threshold now aa s0 n)). eexists. split; [reflexivity|].
  split; [done|]. split.
  - apply deref_update; [apply Hl|]. rewrite E1, insert_perm. set_solver.
  - split_and!; try done; simpl.
    + by rewrite take_ge by lia.
    + unfold splice. rewrite take_0. simpl. by rewrite take_app_length.
    + rewrite E2. change (pmksa_count s0) with (pmksa_count s). lia.
Qed.

(** The same request in a full cache whose first entry is the one to copy reads
    freed memory: making room evicts the first entry, and the copy then takes its
    expiration from it. *)
Theorem pmksa_okc_use_after_free mem lifetime threshold now net aa s n l :
  pm_inv s → length aa = 6%nat → aa ∉ aas (pmksa s) → net ≠ 0 →
  pmksa s = n :: l → e_network_ctx n.2 = net → (e_pmk_len n.2 ≤ 32)%nat → pmksa_count s = 32 →
  pmksa_cache_set_current mem lifetime threshold true now None (Some aa) net true s = UB UseAfterFree.
Proof.
  intros Hi H6 Ha Hnet Hs Hn Hp Hc. set (s0 := s <| cur_pmksa := None |>).
  assert (Hi0 : pm_inv s0) by exact Hi.
  unfold pmksa_cache_set_current. cbv zeta. fold s0. change (cur_pmksa s0) with (@None positive).
  cbv iota. rewrite (get_aa_None s0 aa Hi0 H6 Ha). change (s0 <| cur_pmksa := None |>) with s0.
  change (cur_pmksa s0) with (@None positive). cbv iota.
  assert (Hf : List.find (λ n, e_network_ctx n.2 =? net) (pmksa s0) = Some n).
  { change (pmksa s0) with (pmksa s). rewrite Hs. cbn [List.find]. by rewrite Hn, Z.eqb_refl. }
  rewrite (okc_unfold mem lifetime threshold now net aa s0 n Hi0 H6 Ha Hnet Hf Hp).
  destruct (okc_lists mem lifetime threshold now aa s0 n) as (E1 & _).
  unfold deref. rewrite E1, find_ref_None; [done|].
  rewrite insert_perm. change (pmksa s0) with (pmksa s). change (pmksa_count s0) with (pmksa_count s).
  rewrite Hs, Hc. cbn [oldest_out]. simpl. destruct Hi as [_ _ _ _ Hid Hfr _]. rewrite Hs in Hid, Hfr.
  apply not_elem_of_cons. split.
  - apply Forall_cons in Hfr as [Hfr _]. simpl. lia.
  - by apply NoDup_cons in Hid as [Hid _].
Qed.

(** ** Concrete caches *)

Module Demo.

Definition demo_aa (i : nat) : list Z := repeat 2 5 ++ [Z.of_nat i].
Definition demo_entry (i : nat) : node :=
  (Pos.of_nat i, PmksaCacheEntry (repeat (Z.of_nat i) 16) (repeat 1 32) 32 1000 1 (demo_aa i) 700 9 false).
Definition demo_cache (k : nat) : pmksa_sys :=
  PmksaSys (map demo_entry (seq 1 k)) (Z.of_nat k) (Some 1001) None None (repeat 1 32) 32 (demo_aa 1) (repeat 3 6)
    (Pos.of_nat (S k)) [].

Lemma demo_inv k : (k ≤ 32)%nat → pm_inv (demo_cache k).
Proof.
  intros Hk. split; cbn -[Pos.of_nat seq].
  - by rewrite length_map, length_seq.
  - by rewrite length_map, length_seq.
  - unfold aas. rewrite map_map. apply NoDup_fmap_2_strong; [|apply NoDup_seq].
    intros i j _ _ H. unfold demo_aa in H. simpl in H. injection H as H. lia.
  - apply Forall_fmap, Forall_forall. intros i _. done.
  - rewrite map_map. apply NoDup_fmap_2_strong; [|apply NoDup_seq].
    intros i j Hi Hj. apply elem_of_seq in Hi, Hj. simpl. lia.
  - apply Forall_fmap, Forall_forall. intros i Hi. apply elem_of_seq in Hi. simpl. lia.
  - induction (seq 1 k) as [|i l IH]; simpl; constructor; [done|].
    apply Forall_fmap, Forall_forall. intros j _. unfold expires_before. simpl. lia.
Qed.

Lemma demo_new_aa k : (k ≤ 32)%nat → demo_aa 40 ∉ aas (pmksa (demo_cache k)).
Proof.
  intros Hk. unfold aas. simpl. rewrite map_map. intros (i & H & Hi)%list_elem_of_fmap.
  apply elem_of_seq in Hi. unfold demo_aa in H. simpl in H. injection H as H. lia.
Qed.

Definition demo_trace : list (Z * pm_op) :=
  [(10, OpAdd true (repeat 1 32) (demo_aa 1) (repeat 3 6) 9 1); (20, OpSelect None (Some (demo_aa 1)) 9);
   (30, OpAdd true (repeat 2 32) (demo_aa 2) (repeat 3 6) 9 1); (40, OpFlush 8)].

Lemma demo_trace_ok : Forall (λ p, op_ok p.2) demo_trace.
Proof. repeat constructor. Qed.



Lemma pmksa_okc_clones_witness :
  ∃ id e s', pmksa_cache_set_current (repeat 0 64) 43200 70 true 50 None (Some (demo_aa 40)) 9 true
               (demo_cache 3) = Ret (0, s') ∧ cur_pmksa s' = Some id ∧ deref id s' = Ret e ∧
    e_opportunistic e = true ∧ pmksa_count s' = 4.
Proof.
  destruct (pmksa_okc_clones (repeat 0 64) 43200 70 50 9 (demo_aa 40) (demo_cache 3) (demo_entry 1))
    as (id & e & s' & H1 & H2 & H3 & _ & _ & _ & _ & H4 & _ & H5);
    [apply demo_inv; lia|reflexivity|apply demo_new_aa; lia|discriminate|reflexivity|simpl; lia|simpl; lia|].
  exists id, e, s'. split; [exact H1|]. split; [exact H2|]. split; [exact H3|]. split; [exact H4|exact H5].
Defined.

Lemma pmksa_okc_use_after_free_witness :
  pmksa_cache_set_current (repeat 0 64) 43200 70 true 50 None (Some (demo_aa 40)) 9 true (demo_cache 32) =
  UB UseAfterFree.
Proof.
  apply (pmksa_okc_use_after_free (repeat 0 64) 43200 70 50 9 (demo_aa 40) (demo_cache 32) (demo_entry 1)
           (map demo_entry (seq 2 31)));
    [apply demo_inv; lia|reflexivity|apply demo_new_aa; lia|discriminate|reflexivity|reflexivity|simpl; lia|reflexivity].
Defined.
End Demo.
