(* ===== verification/Eloop.v ===== *)
(** * The event loop (src/src/utils/eloop.c)

    Timeouts, sockets and signals of the select-based event loop.  Handlers belong
    to the program around it: a handler is a parameter that changes the client's
    state and calls operations of the loop, here the list of calls it makes.  The
    list of timeouts is the sequence the intrusive list of [DlList] represents;
    pointers to contexts and handlers are numbers.  The clock is a function of
    the number of readings made so far, and the results of [select] are given. *)

From stdpp Require Import sorting.
From S2P Require Import Prelude.

(** ** Data *)

Record os_time := OsTime { sec : Z; usec : Z }.

Definition os_time_before (a b : os_time) : bool :=
  (sec a <? sec b) || ((sec a =? sec b) && (usec a <? usec b)).

Definition os_time_sub (a b : os_time) : os_time :=
  let res := OsTime (sec a - sec b) (usec a - usec b) in
  if usec res <? 0 then OsTime (sec res - 1) (usec res + 1000000) else res.

Record eloop_timeout := EloopTimeout {
  time : os_time; to_eloop_data : Z; to_user_data : Z; to_handler : Z
}.
Record eloop_sock := EloopSock { sock : Z; so_eloop_data : Z; so_user_data : Z; so_handler : Z }.
Record eloop_signal := EloopSignal { sig : Z; si_user_data : Z; si_handler : Z; signaled_count : Z }.
(** The count of a table is the length of [table]. *)
Record eloop_sock_table := SockTable { table : list eloop_sock; changed : bool }.

Inductive eloop_event_type := EVENT_TYPE_READ | EVENT_TYPE_WRITE | EVENT_TYPE_EXCEPTION.

(** What a handler can call.  [malloc_ok] is false when the allocation (or, for a
    timeout, the reading of the clock) fails. *)
Inductive eloop_op :=
| RegisterTimeout (malloc_ok : bool) (secs usecs handler edata udata : Z)
| CancelTimeout (handler edata udata : Z)
| RegisterSock (malloc_ok : bool) (type : eloop_event_type) (s handler edata udata : Z)
| UnregisterSock (type : eloop_event_type) (s : Z)
| RegisterSignal (malloc_ok : bool) (s handler udata : Z)
| Terminate.

(** [struct eloop_data], with the number of clock readings made and the timeouts
    run so far with the time they ran at. *)
Record eloop_data := EloopData {
  max_sock : Z;
  readers : eloop_sock_table; writers : eloop_sock_table; exceptions : eloop_sock_table;
  timeout : list eloop_timeout;
  signals : list eloop_signal;
  signaled : Z; pending_terminate : bool; terminate : bool;
  ticks : nat;
  fired : list (eloop_timeout * os_time)
}.

#[global] Instance eta_eloop : Eta eloop_data := λ r,
  EloopData (max_sock r) (readers r) (writers r) (exceptions r) (timeout r) (signals r) (signaled r)
    (pending_terminate r) (terminate r) (ticks r) (fired r).

Definition eloop_init : eloop_data :=
  EloopData 0 (SockTable [] false) (SockTable [] false) (SockTable [] false) [] [] 0 false false 0 [].

Definition ELOOP_ALL_CTX : Z := -1.

(** ** Timeouts *)

Section ops.
Context (clock : nat → os_time).

(** [os_get_time] *)
Definition os_get_time (el : eloop_data) : os_time * eloop_data :=
  (clock (ticks el), el <| ticks := S (ticks el) |>).

(** Arithmetic of [os_time_t], a signed integer of 64 bits. *)
Definition time_t (z : Z) : Z := (z + 2 ^ 63) mod 2 ^ 64 - 2 ^ 63.

(** [while (usec >= 1000000)] *)
Fixpoint carry_usec (fuel : nat) (t : os_time) : os_time :=
  match fuel with
  | O => t
  | S fuel =>
      if 1000000 <=? usec t then carry_usec fuel (OsTime (time_t (sec t + 1)) (usec t - 1000000)) else t
  end.

(** The loop that keeps the timeouts in order of increasing time. *)
Fixpoint insert_timeout (t : eloop_timeout) (l : list eloop_timeout) : list eloop_timeout :=
  match l with
  | [] => [t]
  | tmp :: l' => if os_time_before (time t) (time tmp) then t :: l else tmp :: insert_timeout t l'
  end.

Definition eloop_register_timeout (malloc_ok : bool) (secs usecs handler edata udata : Z)
    (el : eloop_data) : Z * eloop_data :=
  if negb malloc_ok then (-1, el)
  else
    let '(now, el) := os_get_time el in
    let sec' := time_t (sec now + secs) in
    if sec' <? sec now then (0, el)
    else
      let t := carry_usec (Z.to_nat ((usec now + usecs) / 1000000)) (OsTime sec' (usec now + usecs)) in
      (0, el <| timeout := insert_timeout (EloopTimeout t edata udata handler) (timeout el) |>).

Definition cancelled (handler edata udata : Z) (t : eloop_timeout) : bool :=
  (to_handler t =? handler) && ((to_eloop_data t =? edata) || (edata =? ELOOP_ALL_CTX)) &&
  ((to_user_data t =? udata) || (udata =? ELOOP_ALL_CTX)).
Definition eloop_cancel_timeout (handler edata udata : Z) (el : eloop_data) : Z * eloop_data :=
  let keep := List.filter (λ t, negb (cancelled handler edata udata t)) (timeout el) in
  (Z.of_nat (length (timeout el)) - Z.of_nat (length keep), el <| timeout := keep |>).

Definition eloop_is_timeout_registered (handler edata udata : Z) (el : eloop_data) : bool :=
  existsb (λ t, (to_handler t =? handler) && (to_eloop_data t =? edata) && (to_user_data t =? udata)) (timeout el).

(** ** Sockets *)

Definition eloop_get_sock_table (type : eloop_event_type) (el : eloop_data) : eloop_sock_table :=
  match type with
  | EVENT_TYPE_READ => readers el
  | EVENT_TYPE_WRITE => writers el
  | EVENT_TYPE_EXCEPTION => exceptions el
  end.
Definition set_sock_table (type : eloop_event_type) (t : eloop_sock_table) (el : eloop_data) : eloop_data :=
  match type with
  | EVENT_TYPE_READ => el <| readers := t |>
  | EVENT_TYPE_WRITE => el <| writers := t |>
  | EVENT_TYPE_EXCEPTION => el <| exceptions := t |>
  end.

(** [eloop_sock_table_add_sock] for the table of a type. *)
Definition sock_table_add_sock (malloc_ok : bool) (type : eloop_event_type)
    (s handler edata udata : Z) (el : eloop_data) : Z * eloop_data :=
  if negb malloc_ok then (-1, el)
  else
    let t := eloop_get_sock_table type el in
    let t := SockTable (table t ++ [EloopSock s edata udata handler]) true in
    let el := if max_sock el <? s then el <| max_sock := s |> else el in
    (0, set_sock_table type t el).
Definition eloop_register_sock (malloc_ok : bool) (type : eloop_event_type)
    (s handler edata udata : Z) (el : eloop_data) : Z * eloop_data :=
  sock_table_add_sock malloc_ok type s handler edata udata el.

(** The entry of a socket, the first one, removed. *)
Fixpoint remove_sock (s : Z) (l : list eloop_sock) : option (list eloop_sock) :=
  match l with
  | [] => None
  | x :: l' => if sock x =? s then Some l' else cons x <$> remove_sock s l'
  end.
Definition eloop_unregister_sock (type : eloop_event_type) (s : Z) (el : eloop_data) : eloop_data :=
  match remove_sock s (table (eloop_get_sock_table type el)) with
  | None => el
  | Some l => set_sock_table type (SockTable l true) el
  end.

(** ** Signals *)

Definition SIGHUP : Z := 1.
Definition SIGINT : Z := 2.
Definition SIGTERM : Z := 15.

Definition eloop_register_signal (malloc_ok : bool) (s handler udata : Z) (el : eloop_data)
  : Z * eloop_data :=
  if negb malloc_ok then (-1, el)
  else (0, el <| signals := signals el ++ [EloopSignal s udata handler 0] |>).

Definition eloop_register_signal_terminate (malloc1 malloc2 : bool) (handler udata : Z) (el : eloop_data)
  : Z * eloop_data :=
  let '(ret, el) := eloop_register_signal malloc1 SIGINT handler udata el in
  if ret =? 0 then eloop_register_signal malloc2 SIGTERM handler udata el else (ret, el).

Definition eloop_register_signal_reconfig (malloc_ok : bool) (handler udata : Z) (el : eloop_data)
  : Z * eloop_data :=
  eloop_register_signal malloc_ok SIGHUP handler udata el.

Definition eloop_terminate (el : eloop_data) : eloop_data := el <| terminate := true |>.

Definition run_op (el : eloop_data) (op : eloop_op) : eloop_data :=
  match op with
  | RegisterTimeout m s u h d x => (eloop_register_timeout m s u h d x el).2
  | CancelTimeout h d x => (eloop_cancel_timeout h d x el).2
  | RegisterSock m ty s h d x => (eloop_register_sock m ty s h d x el).2
  | UnregisterSock ty s => eloop_unregister_sock ty s el
  | RegisterSignal m s h x => (eloop_register_signal m s h x el).2
  | Terminate => eloop_terminate el
  end.

(** ** The loop

    [A] is the client's state; the three kinds of handlers change it and call
    operations of the loop. *)

Context {A : Type}.
Context (timeout_handler : Z → Z → Z → A → A * list eloop_op).
Context (sock_handler : Z → Z → Z → Z → A → A * list eloop_op).
Context (signal_handler : Z → Z → Z → A → A * list eloop_op).

Definition call (r : A * list eloop_op) (el : eloop_data) : A * eloop_data := (r.1, foldl run_op el r.2).

(** [eloop_handle_signal] *)
Fixpoint count_signal (s : Z) (l : list eloop_signal) : list eloop_signal :=
  match l with
  | [] => []
  | x :: l' =>
      if sig x =? s then EloopSignal (sig x) (si_user_data x) (si_handler x) (signaled_count x + 1) :: l'
      else x :: count_signal s l'
  end.
Definition eloop_handle_signal (el : eloop_data) (s : Z) : eloop_data :=
  let el := if ((s =? SIGINT) || (s =? SIGTERM)) && negb (pending_terminate el) then el <| pending_terminate := true |> else el in
  el <| signaled := signaled el + 1 |> <| signals := count_signal s (signals el) |>.

(** The loop of [eloop_process_pending_signals] from signal [i], with [n] left. *)
Fixpoint process_signals (n i : nat) (a : A) (el : eloop_data) : A * eloop_data :=
  match n with
  | O => (a, el)
  | S n =>
      match signals el !! i with
      | None => (a, el)
      | Some x =>
          if negb (signaled_count x =? 0) then
            let el := el <| signals := <[i := EloopSignal (sig x) (si_user_data x) (si_handler x) 0]> (signals el) |> in
            let '(a, el) := call (signal_handler (si_handler x) (sig x) (si_user_data x) a) el in
            process_signals n (S i) a el
          else process_signals n (S i) a el
      end
  end.
Definition eloop_process_pending_signals (a : A) (el : eloop_data) : A * eloop_data :=
  if signaled el =? 0 then (a, el)
  else
    let el := el <| signaled := 0 |> <| pending_terminate := false |> in
    process_signals (length (signals el)) 0 a el.

(** The loop of [eloop_sock_table_dispatch]; [ready] is the set of descriptors.
    After a handler that changed the table, the loop ends. *)
Fixpoint dispatch_loop (type : eloop_event_type) (ready : Z → bool) (n i : nat) (a : A) (el : eloop_data)
  : A * eloop_data :=
  match n with
  | O => (a, el)
  | S n =>
      match table (eloop_get_sock_table type el) !! i with
      | None => (a, el)
      | Some x =>
          if ready (sock x) then
            let '(a, el) := call (sock_handler (so_handler x) (sock x) (so_eloop_data x) (so_user_data x) a) el in
            if changed (eloop_get_sock_table type el) then (a, el) else dispatch_loop type ready n (S i) a el
          else dispatch_loop type ready n (S i) a el
      end
  end.
Definition eloop_sock_table_dispatch (type : eloop_event_type) (ready : Z → bool) (a : A) (el : eloop_data)
  : A * eloop_data :=
  let t := eloop_get_sock_table type el in
  let el := set_sock_table type (SockTable (table t) false) el in
  dispatch_loop type ready (length (table t)) 0 a el.

(** The first timeout if it is due: removed before its handler runs. *)
Definition run_due (a : A) (el : eloop_data) : A * eloop_data :=
  match timeout el with
  | [] => (a, el)
  | t :: l =>
      let '(now, el) := os_get_time el in
      if os_time_before now (time t) then (a, el)
      else
        let el := el <| timeout := l |> <| fired := fired el ++ [(t, now)] |> in
        call (timeout_handler (to_handler t) (to_eloop_data t) (to_user_data t) a) el
  end.

(** What one [select] gives: an error other than an interruption, the result, the
    ready descriptors, and the signals that arrived. *)
Record select_result := SelectResult {
  sel_error : bool; sel_res : Z;
  ready_read : Z → bool; ready_write : Z → bool; ready_exception : Z → bool;
  arrived : list Z
}.

(** How long [select] may wait: until the first timeout, for ever without one. *)
Definition eloop_wait (el : eloop_data) : option os_time * eloop_data :=
  match timeout el with
  | [] => (None, el)
  | t :: _ =>
      let '(now, el) := os_get_time el in
      (Some (if os_time_before now (time t) then os_time_sub (time t) now else OsTime 0 0), el)
  end.

(** One turn of the loop; the flag is false after an error of [select].  Signals
    are delivered while the loop waits. *)
Definition eloop_turn (r : select_result) (a : A) (el : eloop_data) : bool * A * eloop_data :=
  let el := (eloop_wait el).2 in
  let el := foldl eloop_handle_signal el (arrived r) in
  if sel_error r then (false, a, el)
  else
    let '(a, el) := eloop_process_pending_signals a el in
    let '(a, el) := run_due a el in
    if sel_res r <=? 0 then (true, a, el)
    else
      let '(a, el) := eloop_sock_table_dispatch EVENT_TYPE_READ (ready_read r) a el in
      let '(a, el) := eloop_sock_table_dispatch EVENT_TYPE_WRITE (ready_write r) a el in
      let '(a, el) := eloop_sock_table_dispatch EVENT_TYPE_EXCEPTION (ready_exception r) a el in
      (true, a, el).

(** [while (!eloop.terminate && ...)] *)
Definition eloop_active (el : eloop_data) : bool :=
  negb (terminate el) &&
  ((0 <? length (timeout el))%nat || (0 <? length (table (readers el)))%nat ||
   (0 <? length (table (writers el)))%nat || (0 <? length (table (exceptions el)))%nat).

(** [eloop_run] with the results of the calls to [select]; the flag is false when
    the loop would wait for another one. *)
Fixpoint eloop_run (rs : list select_result) (a : A) (el : eloop_data) : bool * A * eloop_data :=
  if negb (eloop_active el) then (true, a, el)
  else
    match rs with
    | [] => (false, a, el)
    | r :: rs =>
        let '(ok, a, el) := eloop_turn r a el in
        if ok then eloop_run rs a el else (true, a, el)
    end.
End ops.

(** ** Times *)

(** A time in microseconds; [usec] is normalised. *)
Definition tval (t : os_time) : Z := sec t * 1000000 + usec t.
Definition time_ok (t : os_time) : Prop := 0 ≤ usec t < 1000000.

Lemma before_val a b : time_ok a → time_ok b → os_time_before a b = (tval a <? tval b).
Proof.
  unfold time_ok, os_time_before, tval. intros Ha Hb.
  destruct (Z.ltb_spec (sec a) (sec b)), (Z.eqb_spec (sec a) (sec b)), (Z.ltb_spec (usec a) (usec b));
    simpl; symmetry; try (apply Z.ltb_lt; lia); apply Z.ltb_ge; lia.
Qed.

(** A reading of the clock: years from the end of the range of [os_time_t]. *)
Definition clock_ok (t : os_time) : Prop := time_ok t ∧ 0 ≤ sec t < 2 ^ 62.

Lemma time_t_id z : - 2 ^ 63 ≤ z < 2 ^ 63 → time_t z = z.
Proof. intros H. unfold time_t. rewrite Z.mod_small; lia. Qed.

Lemma carry_usec_spec fuel : ∀ t, 0 ≤ usec t → 0 ≤ sec t → sec t + Z.of_nat fuel < 2 ^ 63 →
  fuel = Z.to_nat (usec t / 1000000) →
  tval (carry_usec fuel t) = tval t ∧ time_ok (carry_usec fuel t).
Proof.
  induction fuel as [|fuel IH]; intros t Ht Hs Hb Hf; cbn [carry_usec].
  - split; [reflexivity|]. unfold time_ok. assert (usec t / 1000000 ≤ 0) as H by lia.
    split; [lia|]. pose proof (Z.div_mod (usec t) 1000000). pose proof (Z.mod_pos_bound (usec t) 1000000). lia.
  - assert (1000000 ≤ usec t) as Hge.
    { destruct (Z.lt_ge_cases (usec t) 1000000) as [H|]; [|done]. rewrite Z.div_small in Hf by lia. done. }
    rewrite (proj2 (Z.leb_le _ _) Hge), time_t_id by lia.
    destruct (IH (OsTime (sec t + 1) (usec t - 1000000))) as [E1 E2]; cbn [sec usec]; [lia|lia|lia| |].
    { replace (usec t - 1000000) with (usec t + (-1) * 1000000) by lia. rewrite Z.div_add by lia. lia. }
    split; [|exact E2]. rewrite E1. unfold tval. cbn [sec usec]. lia.
Qed.

Lemma os_time_sub_spec a b : time_ok a → time_ok b →
  tval (os_time_sub a b) = tval a - tval b ∧ time_ok (os_time_sub a b).
Proof.
  unfold time_ok, os_time_sub, tval. intros Ha Hb. cbn [usec sec].
  destruct (Z.ltb_spec (usec a - usec b) 0); cbn [usec sec]; lia.
Qed.

Definition due_before (a b : eloop_timeout) : Prop := tval (time a) ≤ tval (time b).
Definition timeouts_ok (l : list eloop_timeout) : Prop :=
  Forall (λ t, time_ok (time t)) l ∧ StronglySorted due_before l.

Lemma insert_timeout_perm t l : insert_timeout t l ≡ₚ t :: l.
Proof.
  induction l as [|x l IH]; cbn [insert_timeout]; [done|]. if_branch; [done|].
  rewrite IH. apply Permutation_swap.
Qed.

Lemma insert_timeout_ok t l : timeouts_ok l → time_ok (time t) → timeouts_ok (insert_timeout t l).
Proof.
  intros [Hl Hs] Ht. split; [rewrite insert_timeout_perm; by constructor|].
  induction Hs as [|x l Hs IH Hx]; cbn [insert_timeout]; [by repeat constructor|].
  apply Forall_cons in Hl as [Hok Hl]. rewrite before_val by done.
  destruct (Z.ltb_spec (tval (time t)) (tval (time x))).
  - constructor; [by constructor|]. constructor; [unfold due_before; lia|].
    eapply Forall_impl; [exact Hx|]. unfold due_before. intros y Hy. lia.
  - constructor; [by apply IH|]. rewrite insert_timeout_perm. by constructor.
Qed.

Lemma filter_timeouts_ok f l : timeouts_ok l → timeouts_ok (List.filter f l).
Proof.
  intros [Hl Hs]. induction Hs as [|x l Hs IH Hx]; cbn [List.filter]; [by repeat constructor|].
  apply Forall_cons in Hl as [Hok Hl]. destruct (IH Hl) as [H1 H2]. if_branch; [|done].
  split; constructor; try done. apply Forall_forall. intros y Hy. rewrite Forall_forall in Hx. apply Hx.
  apply list_elem_of_In, filter_In in Hy as [Hy _]. by apply list_elem_of_In.
Qed.

(** ** Timeouts run in the order of their times and never early *)

Section order.
Context (clock : nat → os_time) (Hok : ∀ k, clock_ok (clock k)).
Context (Hmono : ∀ j k, (j ≤ k)%nat → tval (clock j) ≤ tval (clock k)).

(** The timeouts that ran are in order of their times, ran when they were due, at
    a time the clock has shown, and before everything that is still waiting. *)
Record eloop_inv (el : eloop_data) : Prop := EloopInv {
  inv_waiting : timeouts_ok (timeout el);
  inv_fired : StronglySorted (λ f g, due_before f.1 g.1) (fired el);
  inv_due : Forall (λ f, tval (time f.1) ≤ tval f.2) (fired el);
  inv_shown : Forall (λ f, tval f.2 ≤ tval (clock (ticks el))) (fired el);
  inv_next : ∀ f t, f ∈ fired el → t ∈ timeout el → due_before f.1 t
}.

Definition eloop_op_ok (op : eloop_op) : Prop :=
  match op with RegisterTimeout _ s u _ _ _ => 0 ≤ s < 2 ^ 32 ∧ 0 ≤ u < 2 ^ 32 | _ => True end.

(** States that agree on what the invariant is about. *)
Lemma eloop_inv_ext el el' :
  timeout el' = timeout el → fired el' = fired el → (ticks el ≤ ticks el')%nat → eloop_inv el → eloop_inv el'.
Proof using Hmono.
  intros E1 E2 E3 [H1 H2 H3 H4 H5]. split; rewrite ?E1, ?E2; try done.
  eapply Forall_impl; [exact H4|]. intros f Hf. simpl in *. etrans; [exact Hf|]. by apply Hmono.
Qed.

Lemma register_inv m s u h d x el :
  0 ≤ s < 2 ^ 32 → 0 ≤ u < 2 ^ 32 → eloop_inv el → eloop_inv (eloop_register_timeout clock m s u h d x el).2.
Proof using Hok Hmono.
  intros Hs Hu Hi. unfold eloop_register_timeout. destruct m; [|done]. cbn [negb].
  unfold os_get_time. set (now := clock (ticks el)). cbv beta iota zeta.
  assert (Hi' : eloop_inv (el <| ticks := S (ticks el) |>)) by (eapply eloop_inv_ext; [..|exact Hi]; simpl; done || lia).
  if_branch; [exact Hi'|]. apply Z.ltb_ge in Heqb. cbn [snd].
  destruct (Hok (ticks el)) as [Hnow Hsec]. fold now in Hnow, Hsec. unfold time_ok in Hnow.
  rewrite time_t_id in Heqb |- * by lia. set (t0 := OsTime (sec now + s) (usec now + u)).
  assert (Hdiv : 0 ≤ (usec now + u) / 1000000 ≤ 2 ^ 32 + 1000000).
  { split; [apply Z.div_pos; lia|apply Z.div_le_upper_bound; lia]. }
  destruct (carry_usec_spec (Z.to_nat ((usec now + u) / 1000000)) t0) as [Ht Htok];
    [simpl; lia..|done|].
  set (nt := EloopTimeout _ _ _ _).
  assert (Hdue : tval now ≤ tval (time nt)).
  { simpl. rewrite Ht. unfold t0, tval. cbn [sec usec]. lia. }
  pose proof Hi as [H1 H2 H3 H4 H5]. destruct Hi' as [_ _ _ H4' _].
  split; simpl; try done; [by apply insert_timeout_ok|].
  intros f t Hf Hin. rewrite insert_timeout_perm in Hin. apply elem_of_cons in Hin as [->|Hin]; [|by apply H5].
  unfold due_before. rewrite Forall_forall in H3, H4. specialize (H3 f Hf). specialize (H4 f Hf).
  simpl in H3, H4. fold now in H4. lia.
Qed.

Lemma eloop_op_inv el op : eloop_op_ok op → eloop_inv el → eloop_inv (run_op clock el op).
Proof using Hok Hmono.
  intros Ho Hi. destruct op as [m s u h d x|h d x|m ty s h d x|ty s|m s h x|]; cbn [run_op].
  - apply register_inv; [apply Ho..|done].
  - destruct Hi as [H1 H2 H3 H4 H5]. split; simpl; try done; [by apply filter_timeouts_ok|].
    intros f t Hf Ht. apply H5; [done|]. apply list_elem_of_In, filter_In in Ht as [Ht _]. by apply list_elem_of_In.
  - eapply eloop_inv_ext; [..|exact Hi]; unfold eloop_register_sock, sock_table_add_sock; repeat if_branch; destruct ty; simpl; done || lia.
  - eapply eloop_inv_ext; [..|exact Hi]; unfold eloop_unregister_sock; destruct (remove_sock _ _); destruct ty; simpl; done || lia.
  - eapply eloop_inv_ext; [..|exact Hi]; unfold eloop_register_signal; if_branch; simpl; done || lia.
  - eapply eloop_inv_ext; [..|exact Hi]; simpl; done || lia.
Qed.

Lemma run_ops_inv ops : ∀ el, Forall eloop_op_ok ops → eloop_inv el → eloop_inv (foldl (run_op clock) el ops).
Proof using Hok Hmono.
  induction ops as [|op ops IH]; intros el Ho Hi; [done|]. apply Forall_cons in Ho as [Hop Ho].
  cbn [foldl]. by apply IH, eloop_op_inv.
Qed.

Context {A : Type}.
Context (timeout_handler : Z → Z → Z → A → A * list eloop_op).
Context (sock_handler : Z → Z → Z → Z → A → A * list eloop_op).
Context (signal_handler : Z → Z → Z → A → A * list eloop_op).
Context (Hth : ∀ h d x a, Forall eloop_op_ok (timeout_handler h d x a).2).
Context (Hsh : ∀ h s d x a, Forall eloop_op_ok (sock_handler h s d x a).2).
Context (Hgh : ∀ h s x a, Forall eloop_op_ok (signal_handler h s x a).2).

Lemma call_inv (r : A * list eloop_op) el :
  Forall eloop_op_ok r.2 → eloop_inv el → eloop_inv (call clock r el).2.
Proof using Hok Hmono.
  intros Hr. unfold call. cbn [snd]. by apply run_ops_inv.
Qed.

Lemma handle_signals_inv l : ∀ el, eloop_inv el → eloop_inv (foldl eloop_handle_signal el l).
Proof using Hmono.
  induction l as [|s l IH]; intros el Hi; [done|]. cbn [foldl]. apply IH.
  eapply eloop_inv_ext; [..|exact Hi]; unfold eloop_handle_signal; if_branch; done || simpl; lia.
Qed.

Lemma process_signals_inv n : ∀ i a el,
  eloop_inv el → eloop_inv (process_signals clock signal_handler n i a el).2.
Proof using Hok Hmono Hgh.
  induction n as [|n IH]; intros i a el Hi; [done|]. cbn [process_signals].
  destruct (signals el !! i) as [x|]; [|done]. if_branch; [|by apply IH].
  match goal with |- context [call clock ?r ?e] => pose proof (call_inv r e (Hgh _ _ _ _)) as Hc;
    destruct (call clock r e) as [a' el'] end.
  apply IH, Hc. eapply eloop_inv_ext; [..|exact Hi]; simpl; done || lia.
Qed.

Lemma dispatch_inv type ready n : ∀ i a el,
  eloop_inv el → eloop_inv (dispatch_loop clock sock_handler type ready n i a el).2.
Proof using Hok Hmono Hsh.
  induction n as [|n IH]; intros i a el Hi; [done|]. cbn [dispatch_loop].
  destruct (_ !! i) as [x|]; [|done]. if_branch; [|by apply IH].
  match goal with |- context [call clock ?r ?e] => pose proof (call_inv r e (Hsh _ _ _ _ _) Hi) as Hc;
    destruct (call clock r e) as [a' el'] end.
  if_branch; [exact Hc|by apply IH].
Qed.

Lemma table_dispatch_inv type ready a el :
  eloop_inv el → eloop_inv (eloop_sock_table_dispatch clock sock_handler type ready a el).2.
Proof using Hok Hmono Hsh.
  intros Hi. unfold eloop_sock_table_dispatch. cbv zeta. apply dispatch_inv.
  eapply eloop_inv_ext; [..|exact Hi]; destruct type; simpl; done || lia.
Qed.

Lemma sorted_snoc {B} (R : B → B → Prop) l x :
  StronglySorted R l → Forall (λ y, R y x) l → StronglySorted R (l ++ [x]).
Proof using.
  induction 1 as [|y l Hs IH Hy]; intros Hx; [by repeat constructor|]. apply Forall_cons in Hx as [Hyx Hx].
  cbn [app]. constructor; [by apply IH|]. apply Forall_app. by repeat constructor.
Qed.

Lemma run_due_inv a el : eloop_inv el → eloop_inv (run_due clock timeout_handler a el).2.
Proof using Hok Hmono Hth.
  clear Hsh Hgh sock_handler signal_handler.
  intros Hi. unfold run_due. destruct (timeout el) as [|t l] eqn:Hl; [done|].
  unfold os_get_time. set (now := clock (ticks el)). cbv beta iota zeta.
  destruct Hi as [[H1 H1'] H2 H3 H4 H5]. rewrite Hl in H1, H1', H5. apply Forall_cons in H1 as [Ht H1].
  apply StronglySorted_inv in H1' as [H1' Hle].
  assert (Hshown : Forall (λ f, tval f.2 ≤ tval (clock (S (ticks el)))) (fired el)).
  { eapply Forall_impl; [exact H4|]. intros f Hf. simpl in *. etrans; [exact Hf|]. apply Hmono. lia. }
  rewrite before_val by (done || apply Hok). destruct (Z.ltb_spec (tval now) (tval (time t))).
  - cbn [snd]. split; simpl; rewrite ?Hl; try done. split; by constructor.
  - apply call_inv; [apply Hth|]. split; simpl; try done.
    + apply sorted_snoc; [done|]. apply Forall_forall. intros f Hf. apply H5; [done|set_solver].
    + apply Forall_app. split; [done|]. by repeat constructor.
    + apply Forall_app. split; [done|]. repeat constructor. simpl. unfold now. apply Hmono. lia.
    + intros f t' [Hf|Hf]%elem_of_app Ht'; [apply H5; [done|set_solver]|].
      apply list_elem_of_singleton in Hf as ->. rewrite Forall_forall in Hle. by apply Hle.
Qed.

Lemma wait_inv el : eloop_inv el → eloop_inv (eloop_wait clock el).2.
Proof using Hmono.
  intros Hi. unfold eloop_wait. destruct (timeout el) eqn:Hl; [done|].
  eapply eloop_inv_ext; [..|exact Hi]; simpl; done || lia.
Qed.

(** The loop waits exactly until the first timeout is due. *)
Lemma wait_until_due el t l : eloop_inv el → timeout el = t :: l →
  ∃ tv, (eloop_wait clock el).1 = Some tv ∧ time_ok tv ∧
    tval tv = Z.max 0 (tval (time t) - tval (clock (ticks el))).
Proof using Hok.
  intros [[H _] _ _ _ _] Hl. unfold eloop_wait, os_get_time. rewrite Hl in H |- *.
  apply Forall_cons in H as [Ht _]. cbn [fst]. rewrite before_val by (done || apply Hok).
  destruct (os_time_sub_spec (time t) (clock (ticks el)) Ht (proj1 (Hok _))) as [E1 E2].
  destruct (Z.ltb_spec (tval (clock (ticks el))) (tval (time t))); eexists; (split; [reflexivity|]).
  - split; [exact E2|]. rewrite E1. lia.
  - split; [unfold time_ok; simpl; lia|]. transitivity 0; [reflexivity|lia].
Qed.

Lemma turn_inv r a el : eloop_inv el →
  eloop_inv (eloop_turn clock timeout_handler sock_handler signal_handler r a el).2.
Proof using Hok Hmono Hth Hsh Hgh.
  intros Hi. unfold eloop_turn. cbv zeta.
  pose proof (handle_signals_inv (arrived r) _ (wait_inv el Hi)) as Hi1. revert Hi1.
  generalize (foldl eloop_handle_signal (eloop_wait clock el).2 (arrived r)). intros el1 Hi1. if_branch; [done|].
  assert (Hi2 : eloop_inv (eloop_process_pending_signals clock signal_handler a el1).2).
  { unfold eloop_process_pending_signals. if_branch; [done|]. cbv zeta. apply process_signals_inv.
    eapply eloop_inv_ext; [..|exact Hi1]; simpl; done || lia. }
  destruct (eloop_process_pending_signals clock signal_handler a el1) as [a2 el2]. cbn [snd] in Hi2.
  pose proof (run_due_inv a2 el2 Hi2) as Hi3. destruct (run_due clock timeout_handler a2 el2) as [a3 el3].
  cbn [snd] in Hi3. if_branch; [done|].
  pose proof (table_dispatch_inv EVENT_TYPE_READ (ready_read r) a3 el3 Hi3) as Hi4.
  destruct (eloop_sock_table_dispatch clock sock_handler EVENT_TYPE_READ (ready_read r) a3 el3) as [a4 el4].
  pose proof (table_dispatch_inv EVENT_TYPE_WRITE (ready_write r) a4 el4 Hi4) as Hi5.
  destruct (eloop_sock_table_dispatch clock sock_handler EVENT_TYPE_WRITE (ready_write r) a4 el4) as [a5 el5].
  pose proof (table_dispatch_inv EVENT_TYPE_EXCEPTION (ready_exception r) a5 el5 Hi5) as Hi6.
  destruct (eloop_sock_table_dispatch clock sock_handler EVENT_TYPE_EXCEPTION (ready_exception r) a5 el5) as [a6 el6].
  exact Hi6.
Qed.

Lemma run_inv_loop rs : ∀ a el, eloop_inv el →
  eloop_inv (eloop_run clock timeout_handler sock_handler signal_handler rs a el).2.
Proof using Hok Hmono Hth Hsh Hgh.
  induction rs as [|r rs IH]; intros a el Hi; cbn [eloop_run]; (if_branch; [done|]); [done|].
  pose proof (turn_inv r a el Hi) as Ht.
  destruct (eloop_turn _ _ _ _ r a el) as [[[] a'] el']; [by apply IH|exact Ht].
Qed.
End order.

Lemma eloop_init_inv clock : eloop_inv clock eloop_init.
Proof. split; simpl; try constructor; (done || constructor || set_solver). Qed.

(** C37: whatever the program registers before it runs the loop and whatever the
    handlers do (register and cancel timeouts, add and remove sockets and signals,
    ask for termination), with a clock that does not go back the event loop runs
    timeouts in the order of their times and none before its time; what is still
    waiting is ordered and due no earlier than anything that has run; and [select]
    is told to wait exactly until the first timeout is due. *)
Theorem eloop_timeouts_in_order clock {A} timeout_handler sock_handler signal_handler ops rs (a : A) :
  (∀ k, clock_ok (clock k)) → (∀ j k, (j ≤ k)%nat → tval (clock j) ≤ tval (clock k)) →
  Forall eloop_op_ok ops →
  (∀ h d x a, Forall eloop_op_ok (timeout_handler h d x a).2) →
  (∀ h s d x a, Forall eloop_op_ok (sock_handler h s d x a).2) →
  (∀ h s x a, Forall eloop_op_ok (signal_handler h s x a).2) →
  let el := (eloop_run clock timeout_handler sock_handler signal_handler rs a
               (foldl (run_op clock) eloop_init ops)).2 in
  StronglySorted (λ f g, tval (time f.1) ≤ tval (time g.1)) (fired el) ∧
  (∀ t now, (t, now) ∈ fired el → tval (time t) ≤ tval now) ∧
  StronglySorted (λ s t, tval (time s) ≤ tval (time t)) (timeout el) ∧
  (∀ f t, f ∈ fired el → t ∈ timeout el → tval (time f.1) ≤ tval (time t)) ∧
  (∀ t l, timeout el = t :: l → ∃ tv, (eloop_wait clock el).1 = Some tv ∧ time_ok tv ∧
     tval tv = Z.max 0 (tval (time t) - tval (clock (ticks el)))).
Proof.
  intros Hok Hm Ho Ht Hs Hg el.
  assert (Hi : eloop_inv clock el).
  { apply run_inv_loop; try done. apply run_ops_inv; [done..|apply eloop_init_inv]. }
  pose proof Hi as [[_ H1] H2 H3 _ H5]. split_and!; [done| |done|done|].
  - intros t now Hin. rewrite Forall_forall in H3. apply (H3 _ Hin).
  - intros t l Hl. by apply (wait_until_due clock Hok el t l).
Qed.

(** ** The loop ends when it has nothing left to do *)

(** A turn without signals and sockets. *)
Definition quiet (r : select_result) : Prop := sel_error r = false ∧ sel_res r ≤ 0 ∧ arrived r = [].
Definition no_socks (el : eloop_data) : Prop :=
  table (readers el) = [] ∧ table (writers el) = [] ∧ table (exceptions el) = [] ∧ terminate el = false ∧
  signaled el = 0.

Section drain.
Context (clock : nat → os_time) {A : Type} (act : Z → Z → Z → A → A).
Context (sock_handler : Z → Z → Z → Z → A → A * list eloop_op).
Context (signal_handler : Z → Z → Z → A → A * list eloop_op).

(** Handlers that call nothing. *)
Definition plain_handler (h d x : Z) (a : A) : A * list eloop_op := (act h d x a, []).
Definition run_handlers (l : list eloop_timeout) (a : A) : A :=
  foldl (λ a t, act (to_handler t) (to_eloop_data t) (to_user_data t) a) a l.

(** A quiet turn reads the clock twice, runs the first timeout if it is due, and
    changes nothing else. *)
Lemma quiet_turn r a el t l :
  quiet r → no_socks el → timeout el = t :: l →
  let due := negb (os_time_before (clock (S (ticks el))) (time t)) in
  ∃ el', eloop_turn clock plain_handler sock_handler signal_handler r a el =
           (true, if due then act (to_handler t) (to_eloop_data t) (to_user_data t) a else a, el') ∧
    timeout el' = (if due then l else t :: l) ∧ no_socks el' ∧ (ticks el < ticks el')%nat ∧
    map fst (fired el') = map fst (fired el) ++ (if due then [t] else []).
Proof using.
  intros (Hq1 & Hq2 & Hq3) (Hs1 & Hs2 & Hs3 & Hs4 & Hs5) Hl due. unfold eloop_turn, eloop_wait.
  rewrite Hl, Hq1, Hq3. cbn [foldl]. unfold eloop_process_pending_signals, os_get_time. simpl.
  rewrite Hs5, Z.eqb_refl. unfold run_due. simpl. rewrite Hl. simpl. unfold due.
  destruct (os_time_before _ _) eqn:Hb; cbv beta iota zeta; cbn [negb];
    rewrite (proj2 (Z.leb_le _ _) Hq2); eexists; (split; [reflexivity|]); simpl; split_and!; try done; try lia.
  - by rewrite app_nil_r.
  - by rewrite map_app.
Qed.

Lemma drain K rs : ∀ a el,
  Forall quiet rs → no_socks el → (K - ticks el + length (timeout el) ≤ length rs)%nat →
  (∀ k t, (K ≤ k)%nat → t ∈ timeout el → os_time_before (clock k) (time t) = false) →
  ∃ el', eloop_run clock plain_handler sock_handler signal_handler rs a el =
           (true, run_handlers (timeout el) a, el') ∧
    timeout el' = [] ∧ map fst (fired el') = map fst (fired el) ++ timeout el.
Proof using.
  assert (Hdone : ∀ rs a el, no_socks el → timeout el = [] →
    ∃ el', eloop_run clock plain_handler sock_handler signal_handler rs a el =
           (true, run_handlers (timeout el) a, el') ∧
      timeout el' = [] ∧ map fst (fired el') = map fst (fired el) ++ timeout el).
  { intros rs' a el (E1 & E2 & E3 & E4 & _) Hl. exists el. rewrite Hl, app_nil_r. split_and!; try done.
    destruct rs'; cbn [eloop_run]; unfold eloop_active; rewrite Hl, E1, E2, E3; simpl; by rewrite andb_false_r. }
  induction rs as [|r rs IH]; intros a el Hq Hs Hlen Hdue.
  { apply Hdone; [done|]. destruct (timeout el); [done|simpl in Hlen; lia]. }
  apply Forall_cons in Hq as [Hq1 Hq]. destruct (timeout el) as [|t l] eqn:Hl.
  { pose proof (Hdone (r :: rs) a el Hs Hl) as H. by rewrite Hl in H. }
  cbn [eloop_run]. assert (eloop_active el = true) as ->.
  { unfold eloop_active. destruct Hs as (_ & _ & _ & -> & _). by rewrite Hl. }
  cbn [negb]. destruct (quiet_turn r a el t l Hq1 Hs Hl) as (el1 & -> & E1 & E2 & E3 & E4).
  destruct (os_time_before (clock (S (ticks el))) (time t)) eqn:Hb; cbn [negb] in E1, E4 |- *.
  - destruct (decide (K ≤ S (ticks el))%nat) as [HK|HK]; [rewrite (Hdue (S (ticks el)) t HK) in Hb by set_solver; done|].
    rewrite app_nil_r in E4. destruct (IH a el1 Hq E2) as (el2 & R1 & R2 & R3); rewrite E1 in *;
      [simpl in Hlen |- *; lia|done|]. exists el2. by rewrite R3, E4.
  - destruct (IH (act (to_handler t) (to_eloop_data t) (to_user_data t) a) el1 Hq E2) as (el2 & R1 & R2 & R3);
      rewrite E1 in *; [simpl in Hlen; lia|intros k t' Hk Ht'; apply Hdue; [done|set_solver]|].
    exists el2. split; [exact R1|]. split; [done|]. by rewrite R3, E4, <- app_assoc.
Qed.
End drain.

(** A loop that only waits for timeouts ends: with handlers that register nothing
    new, no sockets and a clock that has passed every timeout from its [K]-th reading
    on, after at most as many turns as there are timeouts and readings up to [K]
    [eloop_run] has run every handler once, in the order of the list, and returned. *)
Theorem eloop_run_ends clock {A} (act : Z → Z → Z → A → A) sock_handler signal_handler K rs a el :
  Forall quiet rs → no_socks el → (K - ticks el + length (timeout el) ≤ length rs)%nat →
  (∀ k t, (K ≤ k)%nat → t ∈ timeout el → os_time_before (clock k) (time t) = false) →
  ∃ el', eloop_run clock (plain_handler act) sock_handler signal_handler rs a el =
           (true, run_handlers act (timeout el) a, el') ∧
    timeout el' = [] ∧ map fst (fired el') = map fst (fired el) ++ timeout el.
Proof. apply drain. Qed.

(** ** Concrete loops *)

Module Demo.

(** A clock that shows a second per reading, up to a million. *)
Definition demo_clock (k : nat) : os_time := OsTime (Z.min (Z.of_nat k) 1000000) 0.
(** A timeout that counts and, the first time, registers two others. *)
Definition demo_timeout (h d x : Z) (a : Z) : Z * list eloop_op :=
  (a + 1, if a =? 0 then [RegisterTimeout true 5 0 2 0 0; RegisterTimeout true 2 1500000 3 0 0] else []).
Definition demo_sock (h s d x : Z) (a : Z) : Z * list eloop_op :=
  (a, [RegisterTimeout true 1 0 1 0 0; UnregisterSock EVENT_TYPE_READ s]).
Definition demo_signal (h s x : Z) (a : Z) : Z * list eloop_op := (a, [Terminate]).
Definition demo_turns : list select_result :=
  repeat (SelectResult false 1 (λ _, true) (λ _, false) (λ _, false) []) 12 ++
  [SelectResult true 0 (λ _, false) (λ _, false) (λ _, false) [SIGTERM]].
(** A socket, a signal and a timeout registered before the loop runs. *)
Definition demo_setup : list eloop_op :=
  [RegisterSock true EVENT_TYPE_READ 4 1 0 0; RegisterSignal true SIGTERM 1 0;
   RegisterTimeout true 100 0 9 0 0].
Definition demo_end : eloop_data :=
  (eloop_run demo_clock demo_timeout demo_sock demo_signal demo_turns 0
     (foldl (run_op demo_clock) eloop_init demo_setup)).2.

Lemma eloop_timeouts_in_order_witness :
  map (λ f, to_handler f.1) (fired demo_end) = [1; 3; 2] ∧ map to_handler (timeout demo_end) = [9] ∧
  StronglySorted (λ f g, tval (time f.1) ≤ tval (time g.1)) (fired demo_end).
Proof.
  split; [vm_compute; reflexivity|]. split; [vm_compute; reflexivity|].
  destruct (eloop_timeouts_in_order demo_clock demo_timeout demo_sock demo_signal demo_setup demo_turns 0) as [H _].
  - intros k. unfold clock_ok, time_ok. cbn [demo_clock sec usec]. lia.
  - intros j k Hjk. unfold tval. simpl. lia.
  - repeat constructor; simpl; lia.
  - intros h d x a. unfold demo_timeout. simpl. destruct (a =? 0); repeat constructor; simpl; lia.
  - intros h s d x a. repeat constructor; simpl; lia.
  - intros h s x a. repeat constructor.
  - exact H.
Defined.

Definition demo_waiting : eloop_data :=
  (eloop_register_timeout demo_clock true 3 0 1 0 0
     (eloop_register_timeout demo_clock true 1 2000000 2 0 0 eloop_init).2).2.

Lemma eloop_run_ends_witness :
  ∃ el', eloop_run demo_clock (plain_handler (λ h _ _ a, h :: a)) (λ _ _ _ _ a, (a, [])) (λ _ _ _ a, (a, []))
           (repeat (SelectResult false 0 (λ _, false) (λ _, false) (λ _, false) []) 6) [] demo_waiting =
           (true, [1; 2], el') ∧ timeout el' = [].
Proof.
  destruct (eloop_run_ends demo_clock (λ h _ _ a, h :: a) (λ _ _ _ _ a, (a, [])) (λ _ _ _ a, (a, [])) 5
    (repeat (SelectResult false 0 (λ _, false) (λ _, false) (λ _, false) []) 6) [] demo_waiting)
    as (el' & H1 & H2 & _).
  - repeat constructor; discriminate.
  - repeat split.
  - simpl. lia.
  - assert (timeout demo_waiting = [EloopTimeout (OsTime 3 0) 0 0 2; EloopTimeout (OsTime 4 0) 0 0 1]) as El
      by (vm_compute; reflexivity).
    intros k t Hk Ht. rewrite El in Ht. repeat (apply elem_of_cons in Ht as [->|Ht]); [| |by apply not_elem_of_nil in Ht];
      unfold os_time_before; simpl; (rewrite (proj2 (Z.ltb_ge _ _)), (proj2 (Z.eqb_neq _ _)) by lia); done.
  - exists el'. split; [exact H1|exact H2].
Defined.
End Demo.
