(* ===== verification/Bss.v ===== *)
(** * The BSS table (src/wpa_supplicant/bss.c)

    The table of networks seen in scans.  An entry is a memory object named by its
    address; [bss] and [bss_id] are the sequences that the intrusive lists of
    [DlList] represent, and [store] holds the live objects, so that the use of a
    freed entry shows.  The bytes behind [struct wpa_bss] (two runs of information
    elements) are the list [mem], as long as what was allocated.  Allocation
    results, the clock and the scan results of the driver are arguments.  The
    buffers of ANQP answers hung on an entry are not modelled. *)

From stdpp Require Import sorting.
From S2P Require Import Prelude Ies Eloop.

Notation addr := positive (only parsing).

(** ** Data *)

Record wpa_bss := WpaBss {
  id : Z; scan_miss_count : Z; last_update_idx : Z; flags : Z;
  bssid : list Z; ssid : list Z; ssid_len : nat;
  freq : Z; beacon_int : Z; caps : Z; qual : Z; noise : Z; level : Z; tsf : Z;
  last_update : os_time; fetched : Z;
  ie_len : nat; beacon_ie_len : nat; mem : list Z
}.

#[global] Instance eta_wpa_bss : Eta wpa_bss := λ b,
  WpaBss (id b) (scan_miss_count b) (last_update_idx b) (flags b) (bssid b) (ssid b) (ssid_len b)
    (freq b) (beacon_int b) (caps b) (qual b) (noise b) (level b) (tsf b) (last_update b) (fetched b)
    (ie_len b) (beacon_ie_len b) (mem b).

(** A scan result of the driver, with the bytes that follow the structure. *)
Record wpa_scan_res := ScanRes {
  r_flags : Z; r_bssid : list Z; r_freq : Z; r_beacon_int : Z; r_caps : Z; r_qual : Z; r_noise : Z;
  r_level : Z; r_tsf : Z; r_age : Z; r_ie_len : nat; r_beacon_ie_len : nat; r_mem : list Z
}.

(** What a scan looked for; an absent SSID is the wildcard. *)
Record scan_info := ScanInfo { freqs : list Z; ssids : list (option (list Z)) }.

Inductive bss_event :=
| BssAdded (bssid : list Z) (id : Z)
| BssRemoved (bssid : list Z) (id : Z)
| BssFreqChanged (id : Z) | BssSignalChanged (id : Z) | BssPrivacyChanged (id : Z) | BssModeChanged (id : Z)
| BssWpaieChanged (id : Z) | BssRsnieChanged (id : Z) | BssWpsChanged (id : Z) | BssIesChanged (id : Z)
| BssRatesChanged (id : Z).

(** The part of [struct wpa_supplicant] and its configuration the table uses;
    [networks] are the SSIDs of the configured networks. *)
Record bss_sys := BssSys {
  bss : list addr; bss_id : list addr; num_bss : Z; bss_update_idx : Z; bss_next_id : Z;
  store : gmap positive wpa_bss;
  bss_max_count : Z; bss_expiration_age : Z; bss_expiration_scan_count : Z;
  networks : list (option (list Z));
  current_bss : option positive; own_bssid : list Z; pending_bssid : list Z;
  bssid_filter : option (list (list Z));
  bss_timer : bool; bss_log : list bss_event
}.

#[global] Instance eta_bss_sys : Eta bss_sys := λ s,
  BssSys (bss s) (bss_id s) (num_bss s) (bss_update_idx s) (bss_next_id s) (store s) (bss_max_count s)
    (bss_expiration_age s) (bss_expiration_scan_count s) (networks s) (current_bss s) (own_bssid s)
    (pending_bssid s) (bssid_filter s) (bss_timer s) (bss_log s).

(** What the allocator answers while a scan result is processed, given what is
    live: the address of a new entry, the outcome of growing one ([Some None] is in
    place), and whether the two buffers for WPS elements are obtained. *)
Record alloc_env := AllocEnv {
  al_zalloc : gmap positive wpa_bss → option positive;
  al_realloc : gmap positive wpa_bss → option (option positive);
  al_buf_old : bool; al_buf_new : bool
}.

Definition WLAN_EID_SSID : Z := 0.
Definition WLAN_EID_RSN : Z := 48.
Definition WPA_IE_VENDOR_TYPE : Z := 0x0050f201.
Definition WPS_IE_VENDOR_TYPE : Z := 0x0050f204.
Definition P2P_IE_VENDOR_TYPE : Z := 0x506f9a09.
(** "DIRECT-" *)
Definition P2P_WILDCARD_SSID : list Z := [68; 73; 82; 69; 67; 84; 45].
Definition IEEE80211_CAP_IBSS : Z := 0x0002.
Definition IEEE80211_CAP_PRIVACY : Z := 0x0010.

Definition WPA_BSS_FREQ_CHANGED_FLAG : Z := 0x1.
Definition WPA_BSS_SIGNAL_CHANGED_FLAG : Z := 0x2.
Definition WPA_BSS_PRIVACY_CHANGED_FLAG : Z := 0x4.
Definition WPA_BSS_MODE_CHANGED_FLAG : Z := 0x8.
Definition WPA_BSS_WPAIE_CHANGED_FLAG : Z := 0x10.
Definition WPA_BSS_RSNIE_CHANGED_FLAG : Z := 0x20.
Definition WPA_BSS_WPS_CHANGED_FLAG : Z := 0x40.
Definition WPA_BSS_RATES_CHANGED_FLAG : Z := 0x80.
Definition WPA_BSS_IES_CHANGED_FLAG : Z := 0x100.

(** The elements of an entry and of a scan result. *)
Definition bss_ies (b : wpa_bss) : list Z := take (ie_len b) (mem b).
Definition res_ies (r : wpa_scan_res) : list Z := take (r_ie_len r) (r_mem r).
Definition res_total (r : wpa_scan_res) : nat := (r_ie_len r + r_beacon_ie_len r)%nat.

Definition bss_at (p : addr) (s : bss_sys) : run wpa_bss :=
  match store s !! p with Some b => Ret b | None => UB UseAfterFree end.
Definition set_bss (p : addr) (b : wpa_bss) (s : bss_sys) : bss_sys := s <| store := <[p := b]> (store s) |>.
Definition notify (e : bss_event) (s : bss_sys) : bss_sys := s <| bss_log := bss_log s ++ [e] |>.
Definition unlink (p : addr) (l : list addr) : list addr := List.filter (λ q, negb (bool_decide (q = p))) l.

(** ** Entries *)

Definition wpa_bss_remove (p : addr) (s : bss_sys) : run bss_sys :=
  b ← bss_at p s;
  let s := s <| bss := unlink p (bss s) |> <| bss_id := unlink p (bss_id s) |>
             <| num_bss := u64 (num_bss s - 1) |> in
  let s := notify (BssRemoved (bssid b) (id b)) s in
  Ret (s <| store := delete p (store s) |>).

Definition wpa_supplicant_filter_bssid_match (s : bss_sys) (a : list Z) : bool :=
  match bssid_filter s with
  | None => true
  | Some l => existsb (λ f, memcmp f a =? 0) l
  end.

(** [dl_list_for_each] with a test that ends the loop. *)
Fixpoint find_bss (test : wpa_bss → bool) (l : list addr) (s : bss_sys) : run (option addr) :=
  match l with
  | [] => Ret None
  | p :: l => b ← bss_at p s; if test b then Ret (Some p) else find_bss test l s
  end.

Definition same_bss (a x : list Z) (b : wpa_bss) : bool :=
  (memcmp (bssid b) a =? 0) && (ssid_len b =? length x)%nat && (memcmp (take (length x) (ssid b)) x =? 0).
Definition wpa_bss_get (s : bss_sys) (a x : list Z) : run (option addr) :=
  if negb (wpa_supplicant_filter_bssid_match s a) then Ret None else find_bss (same_bss a x) (bss s) s.

Definition wpa_bss_get_bssid (s : bss_sys) (a : list Z) : run (option addr) :=
  if negb (wpa_supplicant_filter_bssid_match s a) then Ret None
  else find_bss (λ b, memcmp (bssid b) a =? 0) (rev (bss s)) s.

Definition wpa_bss_get_id (s : bss_sys) (i : Z) : run (option addr) :=
  find_bss (λ b, id b =? i) (bss s) s.

Definition wpa_bss_copy_res (dst : wpa_bss) (src : wpa_scan_res) (now : os_time) : wpa_bss :=
  let dst := dst <| flags := r_flags src |> <| bssid := r_bssid src |> <| freq := r_freq src |>
                 <| beacon_int := r_beacon_int src |> <| caps := r_caps src |> <| qual := r_qual src |>
                 <| noise := r_noise src |> <| level := r_level src |> <| tsf := r_tsf src |> in
  let t := OsTime (sec now - r_age src / 1000) (usec now) in
  let us := (r_age src mod 1000) * 1000 in
  let t := if usec t <? us then OsTime (sec t - 1) (usec t + 1000000) else t in
  dst <| last_update := OsTime (sec t) (usec t - us) |>.

Definition wpa_bss_known (s : bss_sys) (b : wpa_bss) : bool :=
  existsb (λ n, match n with
                | None | Some [] => false
                | Some x => (length x =? ssid_len b)%nat && (memcmp x (take (length x) (ssid b)) =? 0)
                end) (networks s).

Definition wpa_bss_remove_oldest_unknown (s : bss_sys) : run (Z * bss_sys) :=
  p ← find_bss (λ b, negb (wpa_bss_known s b)) (bss s) s;
  match p with
  | Some p => s ← wpa_bss_remove p s; Ret (0, s)
  | None => Ret (-1, s)
  end.

Definition wpa_bss_remove_oldest (s : bss_sys) : run bss_sys :=
  r ← wpa_bss_remove_oldest_unknown s;
  let '(ret, s) := r in
  if ret =? 0 then Ret s
  else match bss s with [] => UB NullDeref | p :: _ => wpa_bss_remove p s end.

(** The zeroed entry of [os_zalloc]. *)
Definition zero_bss (n : nat) : wpa_bss :=
  WpaBss 0 0 0 0 (repeat 0 6) (repeat 0 32) 0 0 0 0 0 0 0 0 (OsTime 0 0) 0 0 0 (repeat 0 n).

(** [os_memcpy] to the start of a buffer. *)
Definition copy_in (dst src : list Z) : run (list Z) :=
  if (length src <=? length dst)%nat then Ret (splice dst 0 src) else UB OutOfBounds.

Definition wpa_bss_add (env : alloc_env) (now : os_time) (x : list Z) (res : wpa_scan_res) (s : bss_sys)
  : run bss_sys :=
  match al_zalloc env (store s) with
  | None => Ret s
  | Some p =>
      let b := zero_bss (res_total res) in
      let b := b <| id := bss_next_id s |> in
      let s := s <| bss_next_id := u32 (bss_next_id s + 1) |> in
      let b := b <| last_update_idx := bss_update_idx s |> in
      let b := wpa_bss_copy_res b res now in
      x' ← copy_in (ssid b) x;
      let b := b <| ssid := x' |> <| ssid_len := length x |> <| ie_len := r_ie_len res |>
                 <| beacon_ie_len := r_beacon_ie_len res |> <| fetched := 0 |> in
      data ← rdn (r_mem res) 0 (res_total res);
      m ← copy_in (mem b) data;
      let s := set_bss p (b <| mem := m |>) s in
      let s := s <| bss := bss s ++ [p] |> <| bss_id := bss_id s ++ [p] |>
                 <| num_bss := u64 (num_bss s + 1) |> in
      let s := notify (BssAdded (bssid b) (id b)) s in
      if bss_max_count s <? num_bss s then wpa_bss_remove_oldest s else Ret s
  end.

(** ** Changes of an entry *)

(** The loop of [wpa_bss_get_vendor_ie_multi]: the data of every matching element is
    put in a buffer of [size] bytes, where [wpabuf_put] aborts on overflow. *)
Fixpoint vendor_multi (fuel : nat) (ies : list Z) (vendor_type : Z) (size pos : nat) (buf : list Z)
  : run (list Z) :=
  match fuel with
  | O => OutOfFuel
  | S fuel =>
      if bool_decide (pos + 1 < length ies)%nat then
        len ← rd ies (pos + 1);
        if bool_decide (length ies < pos + 2 + Z.to_nat len)%nat then Ret buf
        else
          t ← rd ies pos;
          buf ← (if (t =? WLAN_EID_VENDOR_SPECIFIC) && (4 <=? len) then
                   v ← WPA_GET_BE32_at ies (pos + 2);
                   if vendor_type =? v then
                     d ← rdn ies (pos + 2 + 4) (Z.to_nat len - 4);
                     if (size <? length buf + length d)%nat then UB BufferOverflowAbort else Ret (buf ++ d)
                   else Ret buf
                 else Ret buf);
          vendor_multi fuel ies vendor_type size (pos + 2 + Z.to_nat len) buf
      else Ret buf
  end.
Definition wpa_bss_get_vendor_ie_multi (malloc_ok : bool) (ies : list Z) (vendor_type : Z)
  : run (option (list Z)) :=
  if negb malloc_ok then Ret None
  else
    buf ← vendor_multi (S (length ies)) ies vendor_type (length ies) 0 [];
    Ret (if (length buf =? 0)%nat then None else Some buf).

(** [wpa_scan_get_*] of scan.c walk the elements of a scan result in the same way. *)
Definition wpa_scan_get_ie (res : wpa_scan_res) (ie : Z) : run (option nat) :=
  wpa_bss_get_ie (res_ies res) ie.
Definition wpa_scan_get_vendor_ie (res : wpa_scan_res) (vendor_type : Z) : run (option nat) :=
  wpa_bss_get_vendor_ie (res_ies res) vendor_type.
Definition wpa_scan_get_vendor_ie_multi (malloc_ok : bool) (res : wpa_scan_res) (vendor_type : Z)
  : run (option (list Z)) :=
  wpa_bss_get_vendor_ie_multi malloc_ok (res_ies res) vendor_type.

(** The element at a position, from its id on. *)
Definition single_ie (ies : list Z) (p : option nat) : run (option (list Z)) :=
  match p with
  | None => Ret None
  | Some p => len ← rd ies (p + 1); d ← rdn ies p (Z.to_nat len + 2); Ret (Some d)
  end.
Definition same_ie (a b : option (list Z)) : bool :=
  match a, b with
  | None, None => true
  | Some a, Some b => (length a =? length b)%nat && (memcmp a b =? 0)
  | _, _ => false
  end.
Definition are_ies_equal (env : alloc_env) (old : wpa_bss) (new : wpa_scan_res) (ie : Z) : run bool :=
  if ie =? WPA_IE_VENDOR_TYPE then
    o ← wpa_bss_get_vendor_ie (bss_ies old) ie; n ← wpa_scan_get_vendor_ie new ie;
    o ← single_ie (bss_ies old) o; n ← single_ie (res_ies new) n;
    Ret (same_ie o n)
  else if ie =? WPS_IE_VENDOR_TYPE then
    o ← wpa_bss_get_vendor_ie_multi (al_buf_old env) (bss_ies old) ie;
    n ← wpa_scan_get_vendor_ie_multi (al_buf_new env) new ie;
    Ret (same_ie o n)
  else if (ie =? WLAN_EID_RSN) || (ie =? WLAN_EID_SUPP_RATES) || (ie =? WLAN_EID_EXT_SUPP_RATES) then
    o ← wpa_bss_get_ie (bss_ies old) ie; n ← wpa_scan_get_ie new ie;
    o ← single_ie (bss_ies old) o; n ← single_ie (res_ies new) n;
    Ret (same_ie o n)
  else Ret false.

Definition flag_if (c : bool) (f changes : Z) : Z := if c then Z.lor changes f else changes.
Definition wpa_bss_compare_res (env : alloc_env) (old : wpa_bss) (new : wpa_scan_res) : run Z :=
  let caps_diff := Z.lxor (caps old) (r_caps new) in
  let changes := flag_if (negb (freq old =? r_freq new)) WPA_BSS_FREQ_CHANGED_FLAG 0 in
  let changes := flag_if (negb (level old =? r_level new)) WPA_BSS_SIGNAL_CHANGED_FLAG changes in
  let changes := flag_if (negb (Z.land caps_diff IEEE80211_CAP_PRIVACY =? 0)) WPA_BSS_PRIVACY_CHANGED_FLAG changes in
  let changes := flag_if (negb (Z.land caps_diff IEEE80211_CAP_IBSS =? 0)) WPA_BSS_MODE_CHANGED_FLAG changes in
  same ← (if (ie_len old =? r_ie_len new)%nat then
            o ← rdn (mem old) 0 (ie_len old); n ← rdn (r_mem new) 0 (ie_len old); Ret (memcmp o n =? 0)
          else Ret false);
  if same : bool then Ret changes
  else
    let changes := Z.lor changes WPA_BSS_IES_CHANGED_FLAG in
    e ← are_ies_equal env old new WPA_IE_VENDOR_TYPE;
    let changes := flag_if (negb e) WPA_BSS_WPAIE_CHANGED_FLAG changes in
    e ← are_ies_equal env old new WLAN_EID_RSN;
    let changes := flag_if (negb e) WPA_BSS_RSNIE_CHANGED_FLAG changes in
    e ← are_ies_equal env old new WPS_IE_VENDOR_TYPE;
    let changes := flag_if (negb e) WPA_BSS_WPS_CHANGED_FLAG changes in
    e1 ← are_ies_equal env old new WLAN_EID_SUPP_RATES;
    e2 ← are_ies_equal env old new WLAN_EID_EXT_SUPP_RATES;
    Ret (flag_if (negb e1 || negb e2) WPA_BSS_RATES_CHANGED_FLAG changes).

Definition notify_if (changes f : Z) (e : bss_event) (s : bss_sys) : bss_sys :=
  if Z.land changes f =? 0 then s else notify e s.
Definition notify_bss_changes (changes : Z) (i : Z) (s : bss_sys) : bss_sys :=
  let s := notify_if changes WPA_BSS_FREQ_CHANGED_FLAG (BssFreqChanged i) s in
  let s := notify_if changes WPA_BSS_SIGNAL_CHANGED_FLAG (BssSignalChanged i) s in
  let s := notify_if changes WPA_BSS_PRIVACY_CHANGED_FLAG (BssPrivacyChanged i) s in
  let s := notify_if changes WPA_BSS_MODE_CHANGED_FLAG (BssModeChanged i) s in
  let s := notify_if changes WPA_BSS_WPAIE_CHANGED_FLAG (BssWpaieChanged i) s in
  let s := notify_if changes WPA_BSS_RSNIE_CHANGED_FLAG (BssRsnieChanged i) s in
  let s := notify_if changes WPA_BSS_WPS_CHANGED_FLAG (BssWpsChanged i) s in
  let s := notify_if changes WPA_BSS_IES_CHANGED_FLAG (BssIesChanged i) s in
  notify_if changes WPA_BSS_RATES_CHANGED_FLAG (BssRatesChanged i) s.

(** The data of a scan result behind an entry with room for it. *)
Definition store_ies (b : wpa_bss) (res : wpa_scan_res) : run wpa_bss :=
  data ← rdn (r_mem res) 0 (res_total res);
  m ← copy_in (mem b) data;
  Ret (b <| mem := m |> <| ie_len := r_ie_len res |> <| beacon_ie_len := r_beacon_ie_len res |>).

Definition subst_addr (p q : addr) (l : list addr) : list addr :=
  map (λ z, if bool_decide (z = p) then q else z) l.

(** [os_realloc] of the entry at [p]; the address of the result. *)
Definition realloc_bss (env : alloc_env) (p : addr) (b : wpa_bss) (n : nat) (s : bss_sys)
  : option (addr * wpa_bss * bss_sys) :=
  match al_realloc env (store s) with
  | None => None
  | Some o =>
      let q := default p o in
      Some (q, b <| mem := take n (mem b) ++ repeat 0 (n - length (mem b)) |>, s <| store := delete p (store s) |>)
  end.

Definition wpa_bss_update (env : alloc_env) (now : os_time) (p : addr) (res : wpa_scan_res) (s : bss_sys)
  : run bss_sys :=
  b ← bss_at p s;
  changes ← wpa_bss_compare_res env b res;
  let b := b <| scan_miss_count := 0 |> <| last_update_idx := bss_update_idx s |> in
  let b := wpa_bss_copy_res b res now in
  let s := s <| bss := unlink p (bss s) |> in
  r ← (if (res_total res <=? ie_len b + beacon_ie_len b)%nat then
         b ← store_ies b res; Ret (p, b, s)
       else
         match realloc_bss env p b (res_total res) s with
         | Some (q, b, s) =>
             b ← store_ies b res;
             Ret (q, b, s <| bss_id := subst_addr p q (bss_id s) |>)
         | None => Ret (p, b, s)
         end);
  let '(q, b, s) := r in
  let s := set_bss q b s in
  let s := s <| bss := bss s ++ [q] |> in
  Ret (notify_bss_changes changes (id b) s).

Definition wpa_bss_in_use (s : bss_sys) (p : addr) (b : wpa_bss) : bool :=
  bool_decide (current_bss s = Some p) || (memcmp (bssid b) (own_bssid s) =? 0) ||
  (memcmp (bssid b) (pending_bssid s) =? 0).

(** ** Scans *)

Definition wpa_bss_update_start (s : bss_sys) : bss_sys := s <| bss_update_idx := u32 (bss_update_idx s + 1) |>.

Definition wpa_bss_update_scan_res (env : alloc_env) (now : os_time) (res : wpa_scan_res) (s : bss_sys)
  : run bss_sys :=
  o ← wpa_scan_get_ie res WLAN_EID_SSID;
  match o with
  | None => Ret s
  | Some pos =>
      len ← rd (res_ies res) (pos + 1);
      if 32 <? len then Ret s
      else
        x ← rdn (res_ies res) (pos + 2) (Z.to_nat len);
        p2p ← wpa_scan_get_vendor_ie res P2P_IE_VENDOR_TYPE;
        if bool_decide (is_Some p2p) && (len =? 7) && (memcmp x P2P_WILDCARD_SSID =? 0) then Ret s
        else
          p ← wpa_bss_get s (r_bssid res) x;
          match p with
          | None => wpa_bss_add env now x res s
          | Some p => wpa_bss_update env now p res s
          end
  end.

Definition wpa_bss_included_in_scan (b : wpa_bss) (info : option scan_info) : bool :=
  match info with
  | None => true
  | Some info =>
      (match freqs info with [] => true | l => existsb (λ f, freq b =? f) l end) &&
      (match ssids info with
       | [] => true
       | l => existsb (λ x, match x with
                            | None | Some [] => true
                            | Some x => (length x =? ssid_len b)%nat && (memcmp x (take (ssid_len b) (ssid b)) =? 0)
                            end) l
       end)
  end.

(** The loops that expire entries, [dl_list_for_each_safe] with one of three
    outcomes for an entry. *)
Inductive bss_verdict := Keep (b : wpa_bss) | Drop (b : wpa_bss) | Stop.
Fixpoint for_each_bss (judge : bss_sys → addr → wpa_bss → bss_verdict) (l : list addr) (s : bss_sys) : run bss_sys :=
  match l with
  | [] => Ret s
  | p :: l =>
      b ← bss_at p s;
      match judge s p b with
      | Keep b => for_each_bss judge l (set_bss p b s)
      | Drop b => s ← wpa_bss_remove p (set_bss p b s); for_each_bss judge l s
      | Stop => Ret s
      end
  end.

Definition judge_scan (info : option scan_info) (s : bss_sys) (p : addr) (b : wpa_bss) : bss_verdict :=
  if wpa_bss_in_use s p b then Keep b
  else if negb (wpa_bss_included_in_scan b info) then Keep b
  else
    let b := if last_update_idx b <? bss_update_idx s
             then b <| scan_miss_count := u32 (scan_miss_count b + 1) |> else b in
    if bss_expiration_scan_count s <=? scan_miss_count b then Drop b else Keep b.
Definition wpa_bss_update_end (info : option scan_info) (new_scan : bool) (s : bss_sys) : run bss_sys :=
  if negb new_scan then Ret s else for_each_bss (judge_scan info) (bss s) s.

Definition judge_age (t : os_time) (s : bss_sys) (p : addr) (b : wpa_bss) : bss_verdict :=
  if wpa_bss_in_use s p b then Keep b
  else if os_time_before (last_update b) t then Drop b else Stop.
Definition wpa_bss_flush_by_age (now : os_time) (age : Z) (s : bss_sys) : run bss_sys :=
  match bss s with
  | [] => Ret s
  | _ => for_each_bss (judge_age (OsTime (sec now - age) (usec now))) (bss s) s
  end.

(** The age in the configuration is unsigned, the argument signed. *)
Definition to_int (z : Z) : Z := (z + 2 ^ 31) mod 2 ^ 32 - 2 ^ 31.
Definition wpa_bss_timeout (now : os_time) (s : bss_sys) : run bss_sys :=
  s ← wpa_bss_flush_by_age now (to_int (bss_expiration_age s)) s;
  Ret (s <| bss_timer := true |>).

Definition wpa_bss_init (s : bss_sys) : bss_sys :=
  s <| bss := [] |> <| bss_id := [] |> <| bss_timer := true |>.

Definition judge_flush (s : bss_sys) (p : addr) (b : wpa_bss) : bss_verdict :=
  if wpa_bss_in_use s p b then Keep b else Drop b.
(** For a table that has been initialised. *)
Definition wpa_bss_flush (s : bss_sys) : run bss_sys := for_each_bss judge_flush (bss s) s.

Definition wpa_bss_deinit (s : bss_sys) : run bss_sys := wpa_bss_flush (s <| bss_timer := false |>).

(** [filter_scan_res] and the body of [wpa_supplicant_get_scan_results] of scan.c, for
    results in the order [qsort] gives them. *)
Definition filter_scan_res (s : bss_sys) (l : list wpa_scan_res) : list wpa_scan_res :=
  match bssid_filter s with
  | None => l
  | Some _ => List.filter (λ r, wpa_supplicant_filter_bssid_match s (r_bssid r)) l
  end.
Fixpoint scan_res_loop (envs : nat → alloc_env * os_time) (i : nat) (l : list wpa_scan_res) (s : bss_sys)
  : run bss_sys :=
  match l with
  | [] => Ret s
  | r :: l =>
      s ← wpa_bss_update_scan_res (envs i).1 (envs i).2 r s;
      scan_res_loop envs (S i) l s
  end.
Definition wpa_supplicant_get_scan_results (qsort : list wpa_scan_res → list wpa_scan_res)
    (envs : nat → alloc_env * os_time) (res : list wpa_scan_res) (info : option scan_info) (new_scan : bool)
    (s : bss_sys) : run bss_sys :=
  let res := qsort (filter_scan_res s res) in
  let s := wpa_bss_update_start s in
  s ← scan_res_loop envs 0 res s;
  wpa_bss_update_end info new_scan s.

(** [wpa_bss_get_bit_rates]; [None] is the return value -1. *)
Definition rates_of (ies : list Z) (ie : option nat) : run (list Z) :=
  match ie with
  | None => Ret []
  | Some p => len ← rd ies (p + 1); d ← rdn ies (p + 2) (Z.to_nat len); Ret (map (Z.land 0x7f) d)
  end.
Definition wpa_bss_get_bit_rates (malloc_ok : bool) (ies : list Z) : run (option (list Z)) :=
  ie ← wpa_bss_get_ie ies WLAN_EID_SUPP_RATES;
  ie2 ← wpa_bss_get_ie ies WLAN_EID_EXT_SUPP_RATES;
  if negb malloc_ok then Ret None
  else r ← rates_of ies ie; r2 ← rates_of ies ie2; Ret (Some (r ++ r2)).

(** ** The invariant *)

Record bss_wf (b : wpa_bss) : Prop := BssWf {
  wf_bssid : length (bssid b) = 6%nat;
  wf_ssid : length (ssid b) = 32%nat;
  wf_ssid_len : (ssid_len b ≤ 32)%nat;
  wf_room : (ie_len b + beacon_ie_len b ≤ length (mem b))%nat;
  wf_bytes : bytes_ok (mem b)
}.
(** A network is identified by its BSSID and SSID. *)
Definition bss_key (b : wpa_bss) : list Z * list Z := (bssid b, take (ssid_len b) (ssid b)).

Record res_wf (r : wpa_scan_res) : Prop := ResWf {
  rwf_bssid : length (r_bssid r) = 6%nat;
  rwf_mem : length (r_mem r) = res_total r;
  rwf_bytes : bytes_ok (r_mem r)
}.

Definition id_at (st : gmap positive wpa_bss) (p : addr) : Z := from_option id 0 (st !! p).

Record bss_core (s : bss_sys) : Prop := BssCore {
  inv_nodup : NoDup (bss s);
  inv_perm : bss_id s ≡ₚ bss s;
  inv_dom : ∀ p, p ∈ bss s ↔ is_Some (store s !! p);
  inv_num : num_bss s = Z.of_nat (length (bss s));
  inv_wf : map_Forall (λ _, bss_wf) (store s);
  inv_keys : ∀ p q b c, store s !! p = Some b → store s !! q = Some c → bss_key b = bss_key c → p = q;
  inv_ids : StronglySorted Z.lt (map (id_at (store s)) (bss_id s));
  inv_next : ∀ p b, store s !! p = Some b → id b < bss_next_id s;
  inv_idx : 0 ≤ bss_next_id s
}.
(** Both lists hold exactly the live entries, each once; no two entries are the same
    network; identifiers increase along [bss_id]; the count is right and bounded. *)
Definition bss_inv (s : bss_sys) : Prop :=
  bss_core s ∧ num_bss s ≤ bss_max_count s ∧ 0 ≤ bss_max_count s < 2 ^ 32.

Lemma bss_at_live p b s : store s !! p = Some b → bss_at p s = Ret b.
Proof. unfold bss_at. by intros ->. Qed.

Lemma unlink_spec p q l : q ∈ unlink p l ↔ q ∈ l ∧ q ≠ p.
Proof.
  unfold unlink. rewrite !list_elem_of_In, filter_In, negb_true_iff, bool_decide_eq_false. done.
Qed.
Lemma unlink_notin p l : p ∉ l → unlink p l = l.
Proof.
  unfold unlink. induction l as [|q l IH]; intros Hp; [done|]. cbn [List.filter].
  rewrite bool_decide_eq_false_2 by set_solver. cbn [negb]. f_equal. apply IH. set_solver.
Qed.
Lemma unlink_sublist p l : sublist (unlink p l) l.
Proof.
  unfold unlink. induction l as [|q l IH]; cbn [List.filter]; [constructor|]. if_branch; by constructor.
Qed.
Lemma unlink_perm p l : NoDup l → p ∈ l → p :: unlink p l ≡ₚ l.
Proof.
  induction 1 as [|q l Hq Hl IH]; intros Hp; [set_solver|]. unfold unlink. cbn [List.filter].
  destruct (decide (q = p)) as [->|Hne].
  - rewrite bool_decide_eq_true_2 by done. cbn [negb]. fold (unlink p l). by rewrite unlink_notin.
  - rewrite bool_decide_eq_false_2 by done. cbn [negb]. fold (unlink p l).
    rewrite Permutation_swap, IH by set_solver. done.
Qed.
Lemma unlink_Permutation p l k : l ≡ₚ k → unlink p l ≡ₚ unlink p k.
Proof.
  unfold unlink. induction 1 as [|x l k H IH|x y l|l k j H1 IH1 H2 IH2]; cbn [List.filter]; try done.
  - if_branch; by rewrite ?IH.
  - repeat if_branch; try done. apply Permutation_swap.
  - by rewrite IH1.
Qed.

Lemma sorted_sublist {A} (R : A → A → Prop) l k : sublist l k → StronglySorted R k → StronglySorted R l.
Proof.
  induction 1 as [|x l k Hs IH|x l k Hs IH]; intros Hk; [done| |].
  - apply StronglySorted_inv in Hk as [Hk Hx]. constructor; [by apply IH|].
    apply Forall_forall. intros y Hy. rewrite Forall_forall in Hx. apply Hx. by eapply elem_of_sublist.
  - apply StronglySorted_inv in Hk as [Hk _]. by apply IH.
Qed.

(** *** Removal *)

Definition removed (p : addr) (b : wpa_bss) (s : bss_sys) : bss_sys :=
  s <| bss := unlink p (bss s) |> <| bss_id := unlink p (bss_id s) |> <| num_bss := u64 (num_bss s - 1) |>
    <| bss_log := bss_log s ++ [BssRemoved (bssid b) (id b)] |> <| store := delete p (store s) |>.

Lemma wpa_bss_remove_eq p b s : store s !! p = Some b → wpa_bss_remove p s = Ret (removed p b s).
Proof. intros Hp. unfold wpa_bss_remove. by rewrite (bss_at_live _ _ _ Hp). Qed.

Lemma map_id_at_ext st st' l :
  (∀ p, p ∈ l → id_at st' p = id_at st p) → map (id_at st') l = map (id_at st) l.
Proof. intros H. apply map_ext_in. intros p Hp. apply H. by apply list_elem_of_In. Qed.

Lemma core_removed p b s :
  bss_core s → num_bss s < 2 ^ 64 → store s !! p = Some b →
  bss_core (removed p b s) ∧ num_bss (removed p b s) = num_bss s - 1.
Proof.
  intros [H1 H2 H3 H4 H5 H6 H7 H8 H9] Hb Hp.
  assert (Hin : p ∈ bss s) by (apply H3; eauto).
  pose proof (unlink_perm p (bss s) H1 Hin) as Hu. pose proof (Permutation_length Hu) as Hl. simpl in Hl.
  assert (Hn : u64 (num_bss s - 1) = num_bss s - 1) by (unfold u64; apply Z.mod_small; lia).
  split; [|exact Hn].
  split; simpl; rewrite ?Hn; try done.
  - eapply sublist_NoDup; [exact H1|apply unlink_sublist].
  - by apply unlink_Permutation.
  - intros q. rewrite unlink_spec, H3. destruct (decide (q = p)) as [->|Hq].
    + rewrite lookup_delete_eq. split; [naive_solver|by intros [? ?]].
    + rewrite lookup_delete_ne by done. naive_solver.
  - lia.
  - by apply map_Forall_delete.
  - intros q r c d [_ Hq]%lookup_delete_Some [_ Hr]%lookup_delete_Some. by apply H6.
  - rewrite (map_id_at_ext (store s)).
    + eapply sorted_sublist; [|exact H7]. apply fmap_sublist, unlink_sublist.
    + intros q [_ Hq]%unlink_spec. unfold id_at. by rewrite lookup_delete_ne.
  - intros q c [_ Hq]%lookup_delete_Some. by eapply H8.
Qed.

(** *** Replacement of an entry, in place or at a new address *)

Lemma subst_addr_id p l : subst_addr p p l = l.
Proof.
  unfold subst_addr. rewrite <-(map_id l) at 2. apply map_ext. intros q. if_branch; [|done].
  by apply bool_decide_eq_true in Heqb.
Qed.

Lemma subst_addr_perm p q l : NoDup l → p ∈ l → subst_addr p q l ≡ₚ unlink p l ++ [q].
Proof.
  intros Hl Hp. rewrite (Permutation_app_comm _ [q]). simpl.
  unfold subst_addr. rewrite <-(unlink_perm p l Hl Hp) at 1. cbn [map]. rewrite bool_decide_eq_true_2 by done.
  f_equiv. rewrite <-(map_id (unlink p l)) at 2. apply Permutation_refl', map_ext_in.
  intros r Hr. rewrite bool_decide_eq_false_2; [done|]. apply list_elem_of_In, unlink_spec in Hr. naive_solver.
Qed.

Definition replaced (p q : addr) (b : wpa_bss) (s : bss_sys) : bss_sys :=
  s <| store := <[q := b]> (delete p (store s)) |> <| bss := unlink p (bss s) ++ [q] |>
    <| bss_id := subst_addr p q (bss_id s) |>.

Lemma core_replaced p q b b' s :
  bss_core s → store s !! p = Some b → q = p ∨ store s !! q = None →
  bss_wf b' → bss_key b' = bss_key b → id b' = id b → bss_core (replaced p q b' s).
Proof.
  intros [H1 H2 H3 H4 H5 H6 H7 H8 H9] Hp Hq Hwf Hkey Hid.
  assert (Hin : p ∈ bss s) by (apply H3; eauto).
  assert (Hqn : delete p (store s) !! q = None).
  { destruct Hq as [->|Hq]; [apply lookup_delete_eq|]. apply lookup_delete_None. by right. }
  assert (Hqu : q ∉ unlink p (bss s)).
  { rewrite unlink_spec, H3. intros [Hs Hne]. destruct Hq as [->|Hq]; [done|]. rewrite Hq in Hs. by destruct Hs. }
  assert (Hnd : NoDup (bss_id s)) by (by rewrite H2).
  pose proof (unlink_perm p (bss s) H1 Hin) as Hu. pose proof (Permutation_length Hu) as Hl. simpl in Hl.
  split; simpl; try done.
  - apply NoDup_app. split; [by eapply sublist_NoDup; [exact H1|apply unlink_sublist]|].
    split; [|apply NoDup_singleton]. intros r Hr ->%list_elem_of_singleton. done.
  - rewrite subst_addr_perm by (done || by rewrite H2). by rewrite (unlink_Permutation p _ _ H2).
  - intros r. rewrite elem_of_app, list_elem_of_singleton, unlink_spec, H3.
    destruct (decide (r = q)) as [->|Hr]; [rewrite lookup_insert_eq; naive_solver|].
    rewrite lookup_insert_ne by done. destruct (decide (r = p)) as [->|Hrp].
    + rewrite lookup_delete_eq. split; [naive_solver|by intros [? ?]].
    + rewrite lookup_delete_ne by done. naive_solver.
  - rewrite H4, length_app. simpl. lia.
  - apply map_Forall_insert_2; [done|]. by apply map_Forall_delete.
  - assert (Hback : ∀ r c, <[q:=b']> (delete p (store s)) !! r = Some c →
      ∃ r0 c0, store s !! r0 = Some c0 ∧ bss_key c = bss_key c0 ∧ r = (if bool_decide (r0 = p) then q else r0)).
    { intros r c [[<- <-]|[Hne [Hne2 Hr]%lookup_delete_Some]]%lookup_insert_Some.
      - exists p, b. by rewrite bool_decide_eq_true_2.
      - exists r, c. by rewrite bool_decide_eq_false_2. }
    intros r1 r2 c1 c2 Hr1 Hr2 Hk.
    apply Hback in Hr1 as (p1 & d1 & E1 & K1 & ->). apply Hback in Hr2 as (p2 & d2 & E2 & K2 & ->).
    by rewrite (H6 p1 p2 d1 d2 E1 E2) by congruence.
  - assert (map (id_at (<[q:=b']> (delete p (store s)))) (subst_addr p q (bss_id s)) =
            map (id_at (store s)) (bss_id s)) as ->; [|done].
    unfold subst_addr. rewrite map_map. apply map_ext_in. intros r Hr%list_elem_of_In.
    unfold id_at. if_branch.
    + apply bool_decide_eq_true in Heqb0 as ->. by rewrite lookup_insert_eq, Hp.
    + apply bool_decide_eq_false in Heqb0. rewrite H2, H3 in Hr. rewrite lookup_insert_ne, lookup_delete_ne; [done..|].
      intros <-. destruct Hq as [->|Hq]; [done|]. rewrite Hq in Hr. by destruct Hr.
  - intros r c [[<- <-]|[_ [_ Hr]%lookup_delete_Some]]%lookup_insert_Some; [|by eapply H8].
    rewrite Hid. by eapply H8.
Qed.

(** *** An entry changed in place *)

Lemma core_set p b b' s :
  bss_core s → store s !! p = Some b → bss_wf b' → bss_key b' = bss_key b → id b' = id b →
  bss_core (set_bss p b' s).
Proof.
  intros [H1 H2 H3 H4 H5 H6 H7 H8 H9] Hp Hwf Hkey Hid.
  assert (Hback : ∀ r c, <[p:=b']> (store s) !! r = Some c →
    ∃ c0, store s !! r = Some c0 ∧ bss_key c = bss_key c0 ∧ id c = id c0).
  { intros r c [[<- <-]|[Hne Hr]]%lookup_insert_Some; eauto. }
  split; simpl; try done.
  - intros r. rewrite H3. rewrite lookup_insert_is_Some. destruct (decide (p = r)) as [->|]; naive_solver.
  - by apply map_Forall_insert_2.
  - intros r1 r2 c1 c2 Hr1 Hr2 Hk. apply Hback in Hr1 as (d1 & E1 & K1 & _), Hr2 as (d2 & E2 & K2 & _).
    apply (H6 r1 r2 d1 d2 E1 E2). congruence.
  - rewrite (map_id_at_ext (store s)); [done|]. intros r _. unfold id_at.
    destruct (decide (r = p)) as [->|]; [by rewrite lookup_insert_eq, Hp|by rewrite lookup_insert_ne].
  - intros r c Hr. apply Hback in Hr as (c0 & Hr & _ & ->). by eapply H8.
Qed.

(** *** A new entry *)

Definition added (p : addr) (b : wpa_bss) (s : bss_sys) : bss_sys :=
  s <| bss_next_id := u32 (bss_next_id s + 1) |> <| store := <[p := b]> (store s) |>
    <| bss := bss s ++ [p] |> <| bss_id := bss_id s ++ [p] |> <| num_bss := u64 (num_bss s + 1) |>
    <| bss_log := bss_log s ++ [BssAdded (bssid b) (id b)] |>.

Lemma core_added p b s :
  bss_core s → num_bss s < 2 ^ 32 → bss_next_id s + 1 < 2 ^ 32 →
  store s !! p = None → bss_wf b → id b = bss_next_id s →
  (∀ q c, store s !! q = Some c → bss_key c ≠ bss_key b) →
  bss_core (added p b s) ∧ num_bss (added p b s) = num_bss s + 1 ∧ bss_next_id (added p b s) = bss_next_id s + 1.
Proof.
  intros [H1 H2 H3 H4 H5 H6 H7 H8 H9] Hn Hx Hp Hwf Hid Hkey.
  assert (Hnew : p ∉ bss s) by (rewrite H3, Hp; by intros [? ?]).
  assert (Hnum : u64 (num_bss s + 1) = num_bss s + 1) by (unfold u64; apply Z.mod_small; lia).
  assert (Hnext : u32 (bss_next_id s + 1) = bss_next_id s + 1) by (unfold u32; apply Z.mod_small; lia).
  split; [|split; done]. split; simpl; rewrite ?Hnum, ?Hnext; try lia.
  - apply NoDup_app. split; [done|]. split; [|apply NoDup_singleton]. intros r Hr ->%list_elem_of_singleton. done.
  - by rewrite H2.
  - intros r. rewrite elem_of_app, list_elem_of_singleton, H3, lookup_insert_is_Some.
    destruct (decide (p = r)) as [->|]; naive_solver.
  - rewrite length_app. simpl. lia.
  - by apply map_Forall_insert_2.
  - intros r1 r2 c1 c2 [[<- <-]|[Hn1 Hr1]]%lookup_insert_Some [[<- <-]|[Hn2 Hr2]]%lookup_insert_Some Hk; [done| | |].
    + by destruct (Hkey r2 c2).
    + by destruct (Hkey r1 c1).
    + by apply (H6 r1 r2 c1 c2).
  - rewrite map_app. apply sorted_snoc.
    + rewrite (map_id_at_ext (store s)); [done|]. intros r Hr. unfold id_at. rewrite lookup_insert_ne; [done|].
      intros <-. apply Hnew. by rewrite <-H2.
    + apply Forall_forall. intros i Hi. apply list_elem_of_In, in_map_iff in Hi as (r & <- & Hr%list_elem_of_In).
      unfold id_at. rewrite lookup_insert_eq. simpl. rewrite H2, H3 in Hr. destruct Hr as [c Hr].
      rewrite lookup_insert_ne by (intros <-; congruence). rewrite Hr. simpl. rewrite Hid. by eapply H8.
  - intros r c [[<- <-]|[_ Hr]]%lookup_insert_Some; [lia|]. specialize (H8 _ _ Hr). lia.
Qed.

(** ** Lookups *)

Lemma find_bss_eq test l s : (∀ p, p ∈ l → is_Some (store s !! p)) →
  find_bss test l s = Ret (List.find (λ p, from_option test false (store s !! p)) l).
Proof.
  induction l as [|p l IH]; intros Hl; [done|]. cbn [find_bss List.find].
  destruct (Hl p) as [b Hb]; [set_solver|]. rewrite (bss_at_live _ _ _ Hb), Hb. simpl.
  destruct (test b); [done|]. apply IH. set_solver.
Qed.

Lemma find_live test s : bss_core s →
  ∃ o, find_bss test (bss s) s = Ret o ∧
    match o with
    | Some p => ∃ b, store s !! p = Some b ∧ test b = true
    | None => ∀ p b, store s !! p = Some b → test b = false
    end.
Proof.
  intros Hc. rewrite find_bss_eq by (intros p; apply (inv_dom _ Hc)). eexists. split; [reflexivity|].
  destruct (List.find _ _) as [p|] eqn:Hf.
  - apply find_some in Hf as [_ Hf]. destruct (store s !! p) as [b|] eqn:Hp; [|done]. eauto.
  - intros p b Hp. eapply find_none in Hf; [|apply list_elem_of_In, (inv_dom _ Hc); eauto]. by rewrite Hp in Hf.
Qed.

Lemma memcmp_eqb a b : length a = length b → (memcmp a b =? 0) = bool_decide (a = b).
Proof.
  intros Hl. destruct (Z.eqb_spec (memcmp a b) 0) as [H|H].
  - symmetry. apply bool_decide_eq_true. by apply memcmp_eq.
  - symmetry. apply bool_decide_eq_false. intros ->. by rewrite memcmp_refl in H.
Qed.

Lemma same_bss_key a x b : bss_wf b → length a = 6%nat → (length x ≤ 32)%nat →
  same_bss a x b = bool_decide (bss_key b = (a, x)).
Proof.
  intros [H1 H2 H3 _ _] Ha Hx. unfold same_bss, bss_key. rewrite memcmp_eqb by lia.
  destruct (Nat.eqb_spec (ssid_len b) (length x)) as [E|E].
  - rewrite E, memcmp_eqb by (rewrite length_take; lia). rewrite andb_true_r. rewrite <-bool_decide_and.
    apply bool_decide_ext. split; [intros [H4 H5]; congruence|intros [= H4 H5]; done].
  - rewrite andb_false_r. simpl. symmetry. apply bool_decide_eq_false. intros [= _ Hx']. apply E.
    rewrite <-Hx', length_take. lia.
Qed.

Lemma wpa_bss_get_spec s a x :
  bss_core s → length a = 6%nat → (length x ≤ 32)%nat → wpa_supplicant_filter_bssid_match s a = true →
  ∃ o, wpa_bss_get s a x = Ret o ∧
    match o with
    | Some p => ∃ b, store s !! p = Some b ∧ bss_key b = (a, x)
    | None => ∀ p b, store s !! p = Some b → bss_key b ≠ (a, x)
    end.
Proof.
  intros Hc Ha Hx Hf. unfold wpa_bss_get. rewrite Hf. cbn [negb].
  destruct (find_live (same_bss a x) s Hc) as (o & -> & Ho). exists o. split; [done|].
  destruct o as [p|].
  - destruct Ho as (b & Hb & Ht). exists b. split; [done|].
    rewrite same_bss_key in Ht by (done || by eapply inv_wf). by apply bool_decide_eq_true in Ht.
  - intros p b Hb. specialize (Ho p b Hb). rewrite same_bss_key in Ho by (done || by eapply inv_wf).
    by apply bool_decide_eq_false in Ho.
Qed.

(** ** New entries *)

#[local] Arguments repeat : simpl never.
#[local] Arguments splice : simpl never.
#[local] Arguments copy_in : simpl never.
#[local] Arguments u32 : simpl never.
#[local] Arguments u64 : simpl never.
#[local] Arguments rdn : simpl never.

Lemma copy_in_ok dst src : (length src ≤ length dst)%nat →
  copy_in dst src = Ret (splice dst 0 src) ∧ length (splice dst 0 src) = length dst ∧
  take (length src) (splice dst 0 src) = src.
Proof.
  intros H. unfold copy_in. rewrite (proj2 (Nat.leb_le _ _) H). split_and!; [done|by apply length_splice|].
  exact (slice_splice dst 0 src H).
Qed.

(** The entry a scan result is stored as. *)
Definition bss_of_res (now : os_time) (x : list Z) (res : wpa_scan_res) (s : bss_sys) : wpa_bss :=
  wpa_bss_copy_res (zero_bss 0 <| id := bss_next_id s |> <| last_update_idx := bss_update_idx s |>) res now
    <| ssid := splice (repeat 0 32) 0 x |> <| ssid_len := length x |> <| ie_len := r_ie_len res |>
    <| beacon_ie_len := r_beacon_ie_len res |> <| fetched := 0 |> <| mem := r_mem res |>.

Lemma bss_of_res_wf now x res s : res_wf res → (length x ≤ 32)%nat → bss_wf (bss_of_res now x res s).
Proof.
  intros [H1 H2 H3] Hx. split; try done.
  - change (length (splice (repeat 0 32) 0 x) = 32%nat). by rewrite length_splice.
  - unfold res_total in H2. simpl. lia.
Qed.

Lemma bss_of_res_key now x res s : (length x ≤ 32)%nat →
  bss_key (bss_of_res now x res s) = (r_bssid res, x).
Proof.
  intros Hx. assert (ssid (bss_of_res now x res s) = splice (repeat 0 32) 0 x) as E1 by reflexivity.
  assert (ssid_len (bss_of_res now x res s) = length x) as E2 by reflexivity.
  assert (bssid (bss_of_res now x res s) = r_bssid res) as E3 by reflexivity.
  unfold bss_key. rewrite E1, E2, E3. destruct (copy_in_ok (repeat 0 32) x) as (_ & _ & E); [done|].
  by rewrite E.
Qed.

Lemma wpa_bss_add_eq env now x res s p :
  res_wf res → (length x ≤ 32)%nat → al_zalloc env (store s) = Some p →
  wpa_bss_add env now x res s =
    let s' := added p (bss_of_res now x res s) s in
    if bss_max_count s <? num_bss s' then wpa_bss_remove_oldest s' else Ret s'.
Proof.
  intros [H1 H2 H3] Hx Hp. unfold wpa_bss_add. rewrite Hp. cbv zeta.
  destruct (copy_in_ok (repeat 0 32) x) as (E & _); [by rewrite repeat_length|]. simpl. rewrite E. simpl.
  rewrite rdn_ok by lia. rewrite drop_0, take_ge by lia. simpl.
  destruct (copy_in_ok (repeat 0 (res_total res)) (r_mem res)) as (E2 & L & T); [rewrite repeat_length; lia|].
  rewrite E2. simpl. assert (splice (repeat 0 (res_total res)) 0 (r_mem res) = r_mem res) as ->; [|done].
  rewrite <-T at 2. rewrite take_ge; [done|]. rewrite L, repeat_length. lia.
Qed.

Lemma remove_oldest_core s : bss_core s → 0 < num_bss s < 2 ^ 64 →
  ∃ p b, store s !! p = Some b ∧ wpa_bss_remove_oldest s = Ret (removed p b s).
Proof.
  intros Hc Hn. unfold wpa_bss_remove_oldest, wpa_bss_remove_oldest_unknown.
  destruct (find_live (λ b, negb (wpa_bss_known s b)) s Hc) as (o & -> & Ho). simpl.
  destruct o as [p|].
  - destruct Ho as (b & Hb & _). exists p, b. by rewrite (wpa_bss_remove_eq _ _ _ Hb).
  - simpl. pose proof (inv_num _ Hc) as Hnum. destruct (bss s) as [|p l] eqn:Hl; [simpl in Hnum; lia|].
    destruct (proj1 (inv_dom _ Hc p)) as [b Hb]; [rewrite Hl; set_solver|].
    exists p, b. by rewrite (wpa_bss_remove_eq _ _ _ Hb).
Qed.

(** ** Comparison of elements *)

(** The data of all elements of a vendor type, one after the other. *)
Definition vendor_data (v : Z) (es : list (Z * list Z)) : list Z :=
  concat (map (λ e, drop 4 e.2) (List.filter (vendor_is v) es)).

(** The part of the loop that looks at one element. *)
Lemma vendor_step v size pre e r buf :
  (length buf + length e.2 ≤ size)%nat →
  (t ← rd (pre ++ ie_bytes e ++ r) (length pre);
   if (t =? WLAN_EID_VENDOR_SPECIFIC) && (4 <=? Z.of_nat (length e.2)) then
     v0 ← WPA_GET_BE32_at (pre ++ ie_bytes e ++ r) (length pre + 2);
     if v =? v0 then
       d ← rdn (pre ++ ie_bytes e ++ r) (length pre + 2 + 4) (length e.2 - 4);
       if (size <? length buf + length d)%nat then UB BufferOverflowAbort else Ret (buf ++ d)
     else Ret buf
   else Ret buf) = Ret (buf ++ (if vendor_is v e then drop 4 e.2 else [])).
Proof.
  intros Hs. rewrite rd_app_0. destruct e as [t d]. unfold vendor_is. cbn [fst snd] in *. simpl.
  destruct (t =? _); simpl; [|by rewrite app_nil_r]. destruct d as [|a [|b [|c [|d' d]]]];
    try (simpl; by rewrite app_nil_r).
  rewrite (proj2 (Z.leb_le _ _)) by (simpl; lia). unfold WPA_GET_BE32_at. rewrite <-!Nat.add_assoc, !rd_app_r.
  simpl. destruct (v =? _); simpl; [|by rewrite app_nil_r]. rewrite rdn_ok by (rewrite length_app; simpl; rewrite length_app; lia).
  simpl. rewrite drop_app_ge by lia. replace (length pre + 6 - length pre)%nat with 6%nat by lia. simpl.
  rewrite Nat.sub_0_r, ?drop_0, take_app_length. rewrite (proj2 (Nat.ltb_ge _ _)) by (simpl in Hs; lia). done.
Qed.

Lemma vendor_multi_spec v size es : ∀ fuel whole pre buf acc,
  whole = pre ++ buf → ie_stream buf es → (length buf < fuel)%nat → (length acc + length buf ≤ size)%nat →
  vendor_multi fuel whole v size (length pre) acc = Ret (acc ++ vendor_data v es).
Proof.
  intros fuel whole pre buf acc Hw Hs. revert fuel pre acc Hw.
  induction Hs as [buf Hlen|t l r Hcut|e r es Hs IH]; intros [|fuel] pre acc Hw Hf Hsz; try lia; cbn [vendor_multi].
  - rewrite bool_decide_false by (subst whole; rewrite length_app; lia). unfold vendor_data. simpl. by rewrite app_nil_r.
  - rewrite bool_decide_true by (subst whole; rewrite length_app; simpl; lia). subst whole. rewrite rd_app_r. simpl.
    rewrite bool_decide_true by (rewrite length_app; simpl; lia). unfold vendor_data. simpl. by rewrite app_nil_r.
  - rewrite bool_decide_true by (subst whole; rewrite !length_app; simpl; lia).
    assert (rd whole (length pre + 1) = Ret (Z.of_nat (length e.2))) as ->.
    { subst whole. by rewrite rd_app_r. }
    cbn [mbind run_bind]. rewrite Nat2Z.id.
    rewrite bool_decide_false by (subst whole; rewrite !length_app; unfold ie_bytes; simpl; lia).
    rewrite length_app in Hf, Hsz. unfold ie_bytes in Hf, Hsz. simpl in Hf, Hsz.
    pose proof (vendor_step v size pre e r acc) as Hst. rewrite <-Hw in Hst.
    destruct (rd whole (length pre)) as [t| |]; [|specialize (Hst ltac:(lia)); discriminate Hst..].
    cbn [mbind run_bind] in Hst |- *. rewrite Hst by lia. cbn [mbind run_bind].
    replace (length pre + 2 + length e.2)%nat with (length (pre ++ ie_bytes e))
      by (rewrite length_app; unfold ie_bytes; simpl; lia).
    rewrite IH; [|by rewrite <-app_assoc|lia|rewrite length_app; destruct (vendor_is v e); [rewrite length_drop|]; simpl; lia].
    unfold vendor_data. cbn [List.filter]. destruct (vendor_is v e); simpl; by rewrite ?app_nil_r, <-?app_assoc.
Qed.

Lemma vendor_ie_multi_total ok ies es v : ie_stream ies es →
  wpa_bss_get_vendor_ie_multi ok ies v =
    Ret (if ok && negb (bool_decide (vendor_data v es = [])) then Some (vendor_data v es) else None).
Proof.
  intros Hs. unfold wpa_bss_get_vendor_ie_multi. destruct ok; [|done]. cbn [negb andb].
  rewrite (vendor_multi_spec v (length ies) es _ ies [] ies []) by (done || simpl; lia). simpl.
  destruct (vendor_data v es); simpl; done.
Qed.

Lemma single_ie_total ies es p : ie_stream ies es → ∃ o, single_ie ies (ie_find p 0 es) = Ret o.
Proof.
  intros Hs. destruct (ie_find p 0 es) as [pos|] eqn:Hf; [|eexists; reflexivity].
  apply (ie_find_Some p es ies [] pos Hs) in Hf as (l & e & r & -> & -> & _). simpl.
  rewrite rd_app_r. simpl. rewrite rdn_ok by (rewrite length_app; simpl; rewrite length_app; lia). eexists. reflexivity.
Qed.

Lemma are_ies_equal_total env old new ie eo en :
  ie_stream (bss_ies old) eo → ie_stream (res_ies new) en → ∃ b, are_ies_equal env old new ie = Ret b.
Proof.
  intros Ho Hn. unfold are_ies_equal, wpa_scan_get_vendor_ie, wpa_scan_get_ie, wpa_scan_get_vendor_ie_multi.
  rewrite !(wpa_bss_get_vendor_ie_find _ _ _ Ho), !(wpa_bss_get_vendor_ie_find _ _ _ Hn),
    !(wpa_bss_get_ie_find _ _ _ Ho), !(wpa_bss_get_ie_find _ _ _ Hn), !(vendor_ie_multi_total _ _ _ _ Ho),
    !(vendor_ie_multi_total _ _ _ _ Hn). cbn [mbind run_bind].
  destruct (single_ie_total _ _ (vendor_is ie) Ho) as [o1 ->], (single_ie_total _ _ (vendor_is ie) Hn) as [o2 ->].
  destruct (single_ie_total _ _ (ie_is ie) Ho) as [o3 ->], (single_ie_total _ _ (ie_is ie) Hn) as [o4 ->].
  repeat if_branch; eexists; reflexivity.
Qed.

Lemma compare_total env old new : bss_wf old → res_wf new → ∃ c, wpa_bss_compare_res env old new = Ret c.
Proof.
  intros [_ _ _ H1 H2] [_ H3 H4].
  destruct (ie_stream_total (bss_ies old)) as [eo Ho]; [by apply Forall_take|].
  destruct (ie_stream_total (res_ies new)) as [en Hn]; [by apply Forall_take|].
  unfold wpa_bss_compare_res. cbv zeta. unfold res_total in H3.
  assert (∃ same, (if (ie_len old =? r_ie_len new)%nat then
            o ← rdn (mem old) 0 (ie_len old); n ← rdn (r_mem new) 0 (ie_len old); Ret (memcmp o n =? 0)
          else Ret false) = Ret same) as [same ->].
  { destruct (Nat.eqb_spec (ie_len old) (r_ie_len new)); [|eauto]. rewrite !rdn_ok by lia. simpl. eauto. }
  cbn [mbind run_bind]. destruct same; [eauto|].
  destruct (are_ies_equal_total env old new WPA_IE_VENDOR_TYPE eo en Ho Hn) as [? ->],
    (are_ies_equal_total env old new WLAN_EID_RSN eo en Ho Hn) as [? ->],
    (are_ies_equal_total env old new WPS_IE_VENDOR_TYPE eo en Ho Hn) as [? ->],
    (are_ies_equal_total env old new WLAN_EID_SUPP_RATES eo en Ho Hn) as [? ->],
    (are_ies_equal_total env old new WLAN_EID_EXT_SUPP_RATES eo en Ho Hn) as [? ->]. simpl. eauto.
Qed.

(** The rates of both rate elements without their top bits, in order. *)
Lemma wpa_bss_get_bit_rates_correct ies es : ie_stream ies es →
  wpa_bss_get_bit_rates true ies =
    Ret (Some (map (Z.land 0x7f) (ie_data (ie_is WLAN_EID_SUPP_RATES) es ++
                                   ie_data (ie_is WLAN_EID_EXT_SUPP_RATES) es))).
Proof.
  intros Hs. assert (Hr : ∀ ie, rates_of ies (ie_find (ie_is ie) 0 es) = Ret (map (Z.land 0x7f) (ie_data (ie_is ie) es))).
  { intros ie. pose proof (ie_find_data (ie_is ie) es ies [] Hs) as Hf. unfold ie_data. simpl in Hf.
    destruct (ie_find (ie_is ie) 0 es) as [pos|]; [|by rewrite Hf].
    destruct Hf as (l & e & r & -> & -> & ->). simpl. rewrite rd_app_r. simpl. rewrite Nat2Z.id.
    rewrite rdn_ok by (rewrite length_app; simpl; rewrite length_app; lia).
    rewrite drop_app_ge by lia. replace (length l + 2 - length l)%nat with 2%nat by lia. simpl.
    by rewrite drop_0, take_app_length. }
  unfold wpa_bss_get_bit_rates. rewrite !(wpa_bss_get_ie_find _ _ _ Hs). cbn [mbind run_bind negb].
  rewrite !Hr. simpl. by rewrite map_app.
Qed.

(** ** Updates of an entry *)

Definition alloc_ok (env : alloc_env) : Prop :=
  (∀ st p, al_zalloc env st = Some p → st !! p = None) ∧
  (∀ st q, al_realloc env st = Some (Some q) → st !! q = None).

(** What an entry says after a scan result was stored in it. *)
Record bss_shows (now : os_time) (idx : Z) (r : wpa_scan_res) (b : wpa_bss) : Prop := BssShows {
  sh_ie_len : ie_len b = r_ie_len r;
  sh_beacon : beacon_ie_len b = r_beacon_ie_len r;
  sh_mem : take (res_total r) (mem b) = r_mem r;
  sh_signal : (freq b, level b, qual b, noise b) = (r_freq r, r_level r, r_qual r, r_noise r);
  sh_misc : (flags b, beacon_int b, caps b, tsf b) = (r_flags r, r_beacon_int r, r_caps r, r_tsf r);
  sh_seen : (scan_miss_count b, last_update_idx b) = (0, idx);
  sh_time : time_ok now → time_ok (last_update b) ∧ tval (last_update b) = tval now - r_age r * 1000
}.

Lemma copy_res_time b r now : time_ok now →
  time_ok (last_update (wpa_bss_copy_res b r now)) ∧
  tval (last_update (wpa_bss_copy_res b r now)) = tval now - r_age r * 1000.
Proof.
  unfold time_ok, tval, wpa_bss_copy_res. simpl. intros Hn.
  pose proof (Z.mod_pos_bound (r_age r) 1000 ltac:(lia)). pose proof (Z.div_mod (r_age r) 1000 ltac:(lia)).
  destruct (Z.ltb_spec (usec now) (r_age r mod 1000 * 1000)); simpl; lia.
Qed.

Lemma bss_of_res_shows now x res s : res_wf res →
  bss_shows now (bss_update_idx s) res (bss_of_res now x res s).
Proof.
  intros [_ H _]. split; try done; [simpl; rewrite take_ge; [done|lia]|].
  assert (last_update (bss_of_res now x res s) = last_update (wpa_bss_copy_res (zero_bss 0) res now)) as ->
    by reflexivity. apply copy_res_time.
Qed.

Definition refreshed (now : os_time) (idx : Z) (res : wpa_scan_res) (b : wpa_bss) : wpa_bss :=
  wpa_bss_copy_res (b <| scan_miss_count := 0 |> <| last_update_idx := idx |>) res now.
Definition filled (res : wpa_scan_res) (b : wpa_bss) : wpa_bss :=
  b <| mem := splice (mem b) 0 (r_mem res) |> <| ie_len := r_ie_len res |>
    <| beacon_ie_len := r_beacon_ie_len res |>.

Lemma store_ies_ok b res : res_wf res → (res_total res ≤ length (mem b))%nat →
  store_ies b res = Ret (filled res b).
Proof.
  intros [_ H _] Hl. unfold store_ies. rewrite rdn_ok by lia. rewrite drop_0, take_ge by lia. simpl.
  destruct (copy_in_ok (mem b) (r_mem res)) as (-> & _); [lia|done].
Qed.

Lemma mem_eta b : b <| mem := mem b |> = b.
Proof. by destruct b. Qed.

Lemma filled_ok now idx res m b :
  bss_wf b → res_wf res → r_bssid res = bssid b → (res_total res ≤ length m)%nat → bytes_ok m →
  let b' := filled res (refreshed now idx res b <| mem := m |>) in
  bss_wf b' ∧ bss_key b' = bss_key b ∧ id b' = id b ∧ bss_shows now idx res b'.
Proof.
  intros [H1 H2 H3 H4 H5] [R1 R2 R3] Hid Hm Hok b'.
  destruct (copy_in_ok m (r_mem res)) as (_ & L & T); [lia|]. split_and!.
  - split; simpl; try done; [rewrite L; unfold res_total in Hm; lia|by apply bytes_ok_splice].
  - unfold bss_key. simpl. by rewrite Hid.
  - done.
  - split; try done; [simpl; by rewrite <-R2|].
    assert (last_update b' = last_update (wpa_bss_copy_res b res now)) as -> by reflexivity. apply copy_res_time.
Qed.

Lemma notify_if_log c f e s : ∃ lg, notify_if c f e s = s <| bss_log := lg |>.
Proof. unfold notify_if. if_branch; [exists (bss_log s); by destruct s|eexists; reflexivity]. Qed.
Lemma notify_changes_log c i s : ∃ lg, notify_bss_changes c i s = s <| bss_log := lg |>.
Proof.
  unfold notify_bss_changes. cbv zeta.
  repeat match goal with |- context [notify_if c ?f ?e s] =>
    destruct (notify_if_log c f e s) as [? ->] end.
  repeat match goal with |- context [notify_if c ?f ?e (s <| bss_log := ?l |>)] =>
    let l' := fresh in let H := fresh in
    destruct (notify_if_log c f e (s <| bss_log := l |>)) as [l' H]; rewrite H; clear H;
    change (s <| bss_log := l |> <| bss_log := l' |>) with (s <| bss_log := l' |>) end.
  eexists. reflexivity.
Qed.
Lemma core_log s lg : bss_core s → bss_core (s <| bss_log := lg |>).
Proof. by intros [? ? ? ? ? ? ? ? ?]. Qed.

(** Where the entry is after an update. *)
Definition update_addr (env : alloc_env) (p : addr) (b : wpa_bss) (res : wpa_scan_res) (s : bss_sys) : addr :=
  if (res_total res <=? ie_len b + beacon_ie_len b)%nat then p
  else match al_realloc env (store s) with Some (Some q) => q | _ => p end.

#[local] Opaque notify_bss_changes.

Lemma wpa_bss_update_eq env now p b res s :
  bss_core s → alloc_ok env → store s !! p = Some b → res_wf res → r_bssid res = bssid b →
  let q := update_addr env p b res s in
  (q = p ∨ store s !! q = None) ∧
  ∃ b' lg, wpa_bss_update env now p res s = Ret (replaced p q b' s <| bss_log := lg |>) ∧
    bss_wf b' ∧ bss_key b' = bss_key b ∧ id b' = id b ∧
    ((∀ st, al_realloc env st ≠ None) → bss_shows now (bss_update_idx s) res b').
Proof.
  intros Hc [_ Hal] Hp Hres Hid q. pose proof (inv_wf _ Hc _ _ Hp) as Hwf.
  assert (Hq : q = p ∨ store s !! q = None).
  { unfold q, update_addr. if_branch; [by left|]. destruct (al_realloc env (store s)) as [[r|]|] eqn:Hr; [|by left..].
    right. by eapply Hal. }
  split; [exact Hq|]. destruct (compare_total env b res Hwf Hres) as [c Hcmp].
  unfold wpa_bss_update. rewrite (bss_at_live _ _ _ Hp). cbn [mbind run_bind]. rewrite Hcmp. cbn [mbind run_bind].
  cbv zeta. fold (refreshed now (bss_update_idx s) res b).
  assert (Hfin : ∀ q b' s', set_bss q b' s' <| bss := bss (set_bss q b' s') ++ [q] |> = replaced p q b' s →
    ∃ lg, Ret (notify_bss_changes c (id b') (set_bss q b' s' <| bss := bss (set_bss q b' s') ++ [q] |>)) =
          Ret (replaced p q b' s <| bss_log := lg |>)).
  { intros q' b' s' ->. destruct (notify_changes_log c (id b') (replaced p q' b' s)) as [lg ->]. by exists lg. }
  pose proof (λ m, filled_ok now (bss_update_idx s) res m b Hwf Hres Hid) as Hfill.
  assert (Hold : bss_wf (refreshed now (bss_update_idx s) res b) ∧
    bss_key (refreshed now (bss_update_idx s) res b) = bss_key b).
  { destruct Hwf. unfold bss_key. split; [split; simpl; try done; by rewrite Hid|]. simpl. by rewrite Hid. }
  assert (Emem : mem (refreshed now (bss_update_idx s) res b) = mem b) by reflexivity.
  assert (Elen : ie_len (refreshed now (bss_update_idx s) res b) = ie_len b) by reflexivity.
  assert (Ebl : beacon_ie_len (refreshed now (bss_update_idx s) res b) = beacon_ie_len b) by reflexivity.
  assert (Eid : id (refreshed now (bss_update_idx s) res b) = id b) by reflexivity.
  revert Hfill Hold Emem Elen Ebl Eid. generalize (refreshed now (bss_update_idx s) res b). intros b0 Hfill Hold Emem Elen Ebl Eid.
  unfold q, update_addr. clear Hq q. rewrite Elen, Ebl. destruct Hwf as [W1 W2 W3 W4 W5].
  destruct (Nat.leb_spec (res_total res) (ie_len b + beacon_ie_len b)) as [Hle|Hgt].
  - rewrite store_ies_ok by (done || rewrite Emem; lia). cbn [mbind run_bind].
    specialize (Hfill (mem b0)). rewrite mem_eta in Hfill.
    destruct (Hfin p (filled res b0) (s <| bss := unlink p (bss s) |>)) as [lg E].
    { unfold replaced, set_bss. simpl. by rewrite insert_delete_eq, subst_addr_id. }
    exists (filled res b0), lg. split; [exact E|].
    destruct Hfill as (F1 & F2 & F3 & F4); [rewrite Emem; lia|by rewrite Emem|]. done.
  - unfold realloc_bss. change (store (s <| bss := unlink p (bss s) |>)) with (store s).
    destruct (al_realloc env (store s)) as [o|] eqn:Hr.
    + rewrite Emem. set (m := take (res_total res) (mem b) ++ repeat 0 (res_total res - length (mem b))).
      assert (Hm : length m = res_total res) by (unfold m; rewrite length_app, length_take, repeat_length; lia).
      assert (Hmok : bytes_ok m).
      { unfold m. apply bytes_ok_app. split; [by apply Forall_take|].
        apply Forall_forall; intros z Hz. apply list_elem_of_In, repeat_spec in Hz as ->. unfold is_byte. lia. }
      rewrite store_ies_ok by (done || simpl; lia). cbn [mbind run_bind].
      destruct (Hfin (default p o) (filled res (b0 <| mem := m |>)) (s <| bss := unlink p (bss s) |>
        <| store := delete p (store s) |> <| bss_id := subst_addr p (default p o) (bss_id s) |>)) as [lg E].
      { by destruct s. }
      exists (filled res (b0 <| mem := m |>)), lg. split; [destruct o; exact E|].
      destruct (Hfill m) as (F1 & F2 & F3 & F4); [lia|done|]. done.
    + destruct (Hfin p b0 (s <| bss := unlink p (bss s) |>)) as [lg E].
      { unfold replaced, set_bss. simpl. by rewrite insert_delete_eq, subst_addr_id. }
      exists b0, lg. split; [exact E|]. split; [apply Hold|]. split; [apply Hold|]. split; [done|].
      intros Hn. by destruct (Hn (store s)).
Qed.

(** ** Scan results *)

(** The SSID under which a scan result is stored, if it is. *)
Definition res_network (es : list (Z * list Z)) : option (list Z) :=
  match List.find (ie_is WLAN_EID_SSID) es with
  | None => None
  | Some e =>
      if (32 <? length e.2)%nat then None
      else if existsb (vendor_is P2P_IE_VENDOR_TYPE) es && bool_decide (e.2 = P2P_WILDCARD_SSID) then None
      else Some e.2
  end.

Lemma ie_find_exists p es pos : bool_decide (is_Some (ie_find p pos es)) = existsb p es.
Proof.
  revert pos. induction es as [|e es IH]; intros pos; [done|]. cbn [ie_find existsb]. destruct (p e); [done|].
  apply IH.
Qed.

Lemma wildcard_eq (x : list Z) :
  (Z.of_nat (length x) =? 7) && (memcmp x P2P_WILDCARD_SSID =? 0) = bool_decide (x = P2P_WILDCARD_SSID).
Proof.
  destruct (Z.eqb_spec (Z.of_nat (length x)) 7) as [E|E]; simpl.
  - rewrite memcmp_eqb; [done|]. simpl. lia.
  - symmetry. apply bool_decide_eq_false. intros ->. by apply E.
Qed.

Lemma update_scan_res_eq env now res s es : ie_stream (res_ies res) es →
  wpa_bss_update_scan_res env now res s =
    match res_network es with
    | None => Ret s
    | Some x =>
        p ← wpa_bss_get s (r_bssid res) x;
        match p with None => wpa_bss_add env now x res s | Some p => wpa_bss_update env now p res s end
    end.
Proof.
  intros Hs. unfold wpa_bss_update_scan_res, wpa_scan_get_ie, wpa_scan_get_vendor_ie, res_network.
  rewrite (wpa_bss_get_ie_find _ _ _ Hs). cbn [mbind run_bind].
  pose proof (ie_find_data (ie_is WLAN_EID_SSID) es (res_ies res) [] Hs) as Hf. simpl in Hf.
  destruct (ie_find (ie_is WLAN_EID_SSID) 0 es) as [pos|]; [|by rewrite Hf].
  destruct Hf as (l & e & r & Hb & -> & Hf). rewrite Hf. rewrite Hb. rewrite rd_app_r. simpl.
  destruct (Z.ltb_spec 32 (Z.of_nat (length e.2))) as [H32|H32].
  - by rewrite (proj2 (Nat.ltb_lt _ _)) by lia.
  - rewrite (proj2 (Nat.ltb_ge _ _)) by lia. rewrite Nat2Z.id.
    rewrite rdn_ok by (rewrite length_app; simpl; rewrite length_app; lia).
    rewrite drop_app_ge by lia. replace (length l + 2 - length l)%nat with 2%nat by lia. simpl.
    rewrite drop_0, take_app_length.
    rewrite <-Hb, (wpa_bss_get_vendor_ie_find _ _ _ Hs). cbn [mbind run_bind].
    rewrite ie_find_exists, <-andb_assoc, wildcard_eq. by if_branch.
Qed.

(** What the operations of the table do not change. *)
Definition bss_env (s : bss_sys) : Z * Z * Z * list (option (list Z)) * option positive * list Z * list Z *
    option (list (list Z)) * Z :=
  (bss_max_count s, bss_expiration_age s, bss_expiration_scan_count s, networks s, current_bss s, own_bssid s,
   pending_bssid s, bssid_filter s, bss_update_idx s).

Lemma env_removed p b s : bss_env (removed p b s) = bss_env s.
Proof. by destruct s. Qed.
Lemma env_added p b s : bss_env (added p b s) = bss_env s.
Proof. by destruct s. Qed.

Lemma next_id_removed p b s : bss_next_id (removed p b s) = bss_next_id s.
Proof. by destruct s. Qed.
Lemma max_removed p b s : bss_max_count (removed p b s) = bss_max_count s.
Proof. by destruct s. Qed.
Lemma max_added p b s : bss_max_count (added p b s) = bss_max_count s.
Proof. by destruct s. Qed.

Inductive scan_outcome (env : alloc_env) (now : os_time) (x : list Z) (res : wpa_scan_res) (s : bss_sys)
  : bss_sys → Prop :=
| out_none : al_zalloc env (store s) = None → (∀ p b, store s !! p = Some b → bss_key b ≠ (r_bssid res, x)) →
    scan_outcome env now x res s s
| out_updated p b b' lg :
    store s !! p = Some b → bss_key b = (r_bssid res, x) →
    update_addr env p b res s = p ∨ store s !! update_addr env p b res s = None →
    bss_wf b' → bss_key b' = bss_key b → id b' = id b →
    ((∀ st, al_realloc env st ≠ None) → bss_shows now (bss_update_idx s) res b') →
    scan_outcome env now x res s (replaced p (update_addr env p b res s) b' s <| bss_log := lg |>)
| out_added p :
    al_zalloc env (store s) = Some p → store s !! p = None → (∀ p b, store s !! p = Some b → bss_key b ≠ (r_bssid res, x)) →
    num_bss s < bss_max_count s →
    scan_outcome env now x res s (added p (bss_of_res now x res s) s)
| out_evicted p v c :
    al_zalloc env (store s) = Some p → store s !! p = None → (∀ p b, store s !! p = Some b → bss_key b ≠ (r_bssid res, x)) →
    num_bss s = bss_max_count s →
    store (added p (bss_of_res now x res s) s) !! v = Some c →
    wpa_bss_remove_oldest (added p (bss_of_res now x res s) s) =
      Ret (removed v c (added p (bss_of_res now x res s) s)) →
    scan_outcome env now x res s (removed v c (added p (bss_of_res now x res s) s)).

Lemma scan_res_outcome env now res s x :
  bss_inv s → alloc_ok env → res_wf res → (length x ≤ 32)%nat →
  wpa_supplicant_filter_bssid_match s (r_bssid res) = true → bss_next_id s + 1 < 2 ^ 32 →
  ∃ s', (p ← wpa_bss_get s (r_bssid res) x;
         match p with None => wpa_bss_add env now x res s | Some p => wpa_bss_update env now p res s end) = Ret s' ∧
    scan_outcome env now x res s s' ∧ bss_inv s' ∧ bss_env s' = bss_env s ∧
    bss_next_id s ≤ bss_next_id s' ≤ bss_next_id s + 1.
Proof.
  intros (Hc & Hmax & Hcf) Hal Hres Hx Hf Hid.
  destruct (wpa_bss_get_spec s (r_bssid res) x Hc (rwf_bssid _ Hres) Hx Hf) as (o & -> & Ho). cbn [mbind run_bind].
  destruct o as [p|].
  - destruct Ho as (b & Hb & Hk). pose proof (f_equal fst Hk) as Hbs. simpl in Hbs.
    destruct (wpa_bss_update_eq env now p b res s Hc Hal Hb Hres (eq_sym Hbs))
      as (Hq & b' & lg & -> & F1 & F2 & F3 & F4).
    eexists. split; [reflexivity|]. split; [by apply (out_updated env now x res s p b b' lg)|]. split; [|split; [done|simpl; lia]].
    split; [|done]. apply core_log. by eapply core_replaced.
  - destruct (al_zalloc env (store s)) as [p|] eqn:Hz.
    + rewrite (wpa_bss_add_eq _ _ _ _ _ p Hres Hx Hz). cbv zeta.
      destruct (core_added p (bss_of_res now x res s) s) as (C1 & C2 & C3); try done; [lia|by eapply (proj1 Hal)|..].
      { by apply bss_of_res_wf. }
      { intros q c Hqc. rewrite bss_of_res_key by done. by eapply Ho. }
      rewrite C2. destruct (Z.ltb_spec (bss_max_count s) (num_bss s + 1)).
      * assert (0 ≤ num_bss s) by (rewrite (inv_num _ Hc); lia).
        destruct (remove_oldest_core (added p (bss_of_res now x res s) s) C1) as (v & c & Hv & Er); [rewrite C2; lia|].
        rewrite Er. eexists. split; [reflexivity|]. split; [apply out_evicted; try done; [by eapply (proj1 Hal)|lia]|].
        destruct (core_removed v c _ C1) as [D1 D2]; [rewrite C2; lia|done|].
        rewrite env_removed, env_added, next_id_removed. unfold bss_inv. rewrite max_removed, max_added.
        split; [split; [done|rewrite D2, C2; lia]|]. split; [done|lia].
      * eexists. split; [reflexivity|]. split; [apply out_added; try done; [by eapply (proj1 Hal)|lia]|].
        rewrite env_added. unfold bss_inv. rewrite max_added.
        split; [split; [done|rewrite C2; lia]|]. split; [done|lia].
    + unfold wpa_bss_add. rewrite Hz. exists s. split; [done|]. split; [by apply out_none|].
      split; [by split|]. split; [done|lia].
Qed.

Lemma update_scan_res_inv env now res s :
  bss_inv s → alloc_ok env → res_wf res →
  wpa_supplicant_filter_bssid_match s (r_bssid res) = true → bss_next_id s + 1 < 2 ^ 32 →
  ∃ s', wpa_bss_update_scan_res env now res s = Ret s' ∧ bss_inv s' ∧ bss_env s' = bss_env s ∧
    bss_next_id s ≤ bss_next_id s' ≤ bss_next_id s + 1.
Proof.
  intros Hi Hal Hres Hf Hid. destruct (ie_stream_total (res_ies res)) as [es Hs]; [apply Forall_take, Hres|].
  rewrite (update_scan_res_eq _ _ _ _ _ Hs). destruct (res_network es) as [x|] eqn:Hx.
  - destruct (scan_res_outcome env now res s x) as (s' & -> & _ & H); try done; [|eauto].
    unfold res_network in Hx. destruct (List.find _ es) as [e|]; [|done].
    destruct (Nat.ltb_spec 32 (length e.2)); [done|]. destruct (_ && _); by simplify_eq.
  - exists s. split; [done|]. split; [done|]. split; [done|lia].
Qed.

(** ** Expiration *)

(** What a loop of verdicts makes of an entry. *)
Definition judged (v : bss_verdict) (b : wpa_bss) : option wpa_bss :=
  match v with Keep b' => Some b' | Drop _ => None | Stop => Some b end.

(** A verdict depends on the environment only and may change an entry's miss count. *)
Record judge_ok (judge : bss_sys → addr → wpa_bss → bss_verdict) : Prop := JudgeOk {
  jo_env : ∀ s s' p b, bss_env s' = bss_env s → judge s' p b = judge s p b;
  jo_entry : ∀ s p b b', judge s p b = Keep b' ∨ judge s p b = Drop b' → ∃ n, b' = b <| scan_miss_count := n |>
}.

Lemma env_set p b s : bss_env (set_bss p b s) = bss_env s.
Proof. by destruct s. Qed.
Lemma miss_count_ok n b : bss_wf b → bss_wf (b <| scan_miss_count := n |>).
Proof. by intros [? ? ? ? ?]. Qed.

Lemma bss_inv_set p b n s : bss_inv s → store s !! p = Some b →
  bss_inv (set_bss p (b <| scan_miss_count := n |>) s).
Proof.
  intros (Hc & Hm) Hp. split; [|by destruct s].
  eapply core_set; [done|done| |done|done]. apply miss_count_ok. by eapply inv_wf.
Qed.
Lemma bss_inv_removed p b s : bss_inv s → store s !! p = Some b → bss_inv (removed p b s).
Proof.
  intros (Hc & Hm & Hcf) Hp. destruct (core_removed p b s Hc) as [C1 C2]; [lia|done|].
  split; [done|]. rewrite max_removed, C2. lia.
Qed.

(** A loop that judges the entries [l]: the invariant is kept; without a [Stop],
    every entry judged is what its verdict makes of it, and every other is as before. *)
Lemma for_each_bss_spec judge l : judge_ok judge → ∀ s,
  bss_inv s → NoDup l → (∀ p, p ∈ l → p ∈ bss s) →
  ∃ s', for_each_bss judge l s = Ret s' ∧ bss_inv s' ∧ bss_env s' = bss_env s ∧ bss_next_id s' = bss_next_id s ∧
    sublist (bss s') (bss s) ∧
    ((∀ p b, judge s p b ≠ Stop) →
     ∀ p, store s' !! p = if bool_decide (p ∈ l) then store s !! p ≫= (λ b, judged (judge s p b) b) else store s !! p).
Proof.
  intros Hj. induction l as [|p l IH]; intros s Hi Hnd Hl.
  { by exists s. }
  apply NoDup_cons in Hnd as [Hp Hnd]. cbn [for_each_bss].
  destruct (proj1 (inv_dom _ (proj1 Hi) p)) as [b Hb]; [apply Hl; set_solver|].
  rewrite (bss_at_live _ _ _ Hb). cbn [mbind run_bind].
  destruct (judge s p b) as [b'|b'|] eqn:Hv.
  - destruct (jo_entry _ Hj s p b b') as [n ->]; [by left|].
    destruct (IH (set_bss p (b <| scan_miss_count := n |>) s)) as (s' & E & I & Ev & Nx & Sl & St);
      [by apply bss_inv_set|done|intros q Hq; apply (Hl q); set_solver|].
    rewrite E. exists s'. rewrite env_set in Ev. split_and!; try done. intros Hns q.
    rewrite St by (intros; rewrite (jo_env _ Hj s) by apply env_set; apply Hns).
    destruct (decide (q = p)) as [->|Hq].
    + rewrite bool_decide_eq_false_2, bool_decide_eq_true_2 by set_solver. simpl.
      rewrite lookup_insert_eq, Hb. simpl. by rewrite Hv.
    + rewrite (bool_decide_ext (q ∈ p :: l) (q ∈ l)) by set_solver. simpl. rewrite lookup_insert_ne by done.
      if_branch; [|done]. destruct (store s !! q); [|done]. simpl. by rewrite (jo_env _ Hj s) by apply env_set.
  - destruct (jo_entry _ Hj s p b b') as [n ->]; [by right|].
    set (b' := b <| scan_miss_count := n |>) in *.
    assert (Hb' : store (set_bss p b' s) !! p = Some b') by (simpl; apply lookup_insert_eq).
    rewrite (wpa_bss_remove_eq _ _ _ Hb'). cbn [mbind run_bind].
    assert (Hi' : bss_inv (removed p b' (set_bss p b' s))) by (apply bss_inv_removed; [by apply bss_inv_set|done]).
    destruct (IH (removed p b' (set_bss p b' s))) as (s' & E & I & Ev & Nx & Sl & St); [done|done| |].
    { intros q Hq. simpl. apply unlink_spec. split; [apply Hl; set_solver|]. by intros ->. }
    assert (Een : bss_env (removed p b' (set_bss p b' s)) = bss_env s) by (by rewrite env_removed, env_set).
    rewrite E. exists s'. rewrite Een in Ev. split_and!; try done.
    { etrans; [exact Sl|]. apply unlink_sublist. }
    intros Hns q. rewrite St by (intros; rewrite (jo_env _ Hj s) by exact Een; apply Hns).
    destruct (decide (q = p)) as [->|Hq].
    + rewrite bool_decide_eq_false_2, bool_decide_eq_true_2 by set_solver. simpl.
      rewrite lookup_delete_eq, Hb. simpl. by rewrite Hv.
    + rewrite (bool_decide_ext (q ∈ p :: l) (q ∈ l)) by set_solver. simpl.
      rewrite lookup_delete_ne, lookup_insert_ne by done.
      if_branch; [|done]. destruct (store s !! q); [|done]. simpl. by rewrite (jo_env _ Hj s) by exact Een.
  - exists s. split_and!; try done. intros Hns. by destruct (Hns p b).
Qed.

Lemma judge_scan_ok info : judge_ok (judge_scan info).
Proof.
  split.
  - intros s s' p b [= E1 E2 E3 E4 E5 E6 E7 E8 E9]. unfold judge_scan, wpa_bss_in_use. by rewrite E3, E5, E6, E7, E9.
  - intros s p b b'. unfold judge_scan. repeat if_branch; intros [[= <-]|[= <-]]; eauto;
      exists (scan_miss_count b); by destruct b.
Qed.
Lemma judge_age_ok t : judge_ok (judge_age t).
Proof.
  split.
  - intros s s' p b [= E1 E2 E3 E4 E5 E6 E7 E8 E9]. unfold judge_age, wpa_bss_in_use. by rewrite E5, E6, E7.
  - intros s p b b'. unfold judge_age. repeat if_branch; intros [H|H]; try done; injection H as <-;
      exists (scan_miss_count b); by destruct b.
Qed.
Lemma judge_flush_ok : judge_ok judge_flush.
Proof.
  split.
  - intros s s' p b [= E1 E2 E3 E4 E5 E6 E7 E8 E9]. unfold judge_flush, wpa_bss_in_use. by rewrite E5, E6, E7.
  - intros s p b b'. unfold judge_flush. repeat if_branch; intros [H|H]; try done; injection H as <-;
      exists (scan_miss_count b); by destruct b.
Qed.

(** ** Sequences of operations *)

Lemma scan_res_loop_inv envs l : ∀ i s,
  (∀ i, alloc_ok (envs i).1) → Forall res_wf l →
  Forall (λ r, wpa_supplicant_filter_bssid_match s (r_bssid r) = true) l →
  bss_inv s → bss_next_id s + Z.of_nat (length l) < 2 ^ 32 →
  ∃ s', scan_res_loop envs i l s = Ret s' ∧ bss_inv s' ∧ bss_env s' = bss_env s ∧
    bss_next_id s' ≤ bss_next_id s + Z.of_nat (length l).
Proof.
  induction l as [|r l IH]; intros i s Hal Hres Hf Hi Hn.
  { exists s. split_and!; [done..|simpl; lia]. }
  apply Forall_cons in Hres as [Hr Hres]. apply Forall_cons in Hf as [Hfr Hf]. cbn [scan_res_loop].
  cbn [length] in *.
  destruct (update_scan_res_inv (envs i).1 (envs i).2 r s) as (s1 & -> & I1 & E1 & N1); try done; [lia|].
  cbn [mbind run_bind].
  destruct (IH (S i) s1 Hal Hres) as (s2 & -> & I2 & E2 & N2); [|done|lia|].
  - eapply Forall_impl; [exact Hf|]. intros r'. unfold wpa_supplicant_filter_bssid_match.
    by injection E1 as _ _ _ _ _ _ _ -> _.
  - exists s2. split_and!; [done|done|by rewrite E2|lia].
Qed.

Lemma filter_scan_res_match s l :
  Forall (λ r, wpa_supplicant_filter_bssid_match s (r_bssid r) = true) (filter_scan_res s l).
Proof.
  unfold filter_scan_res, wpa_supplicant_filter_bssid_match.
  destruct (bssid_filter s) as [f|]; [|by apply Forall_true].
  apply Forall_forall. intros r Hr. apply list_elem_of_In, filter_In in Hr as [_ Hr]. done.
Qed.
Lemma filter_scan_res_sub s l : sublist (filter_scan_res s l) l.
Proof.
  unfold filter_scan_res. destruct (bssid_filter s); [|done].
  induction l as [|r l IH]; cbn [List.filter]; [constructor|]. if_branch; by constructor.
Qed.

Lemma get_scan_results_inv qsort envs res info new_scan s :
  (∀ l, qsort l ≡ₚ l) → (∀ i, alloc_ok (envs i).1) → Forall res_wf res →
  bss_inv s → bss_next_id s + Z.of_nat (length res) < 2 ^ 32 →
  ∃ s', wpa_supplicant_get_scan_results qsort envs res info new_scan s = Ret s' ∧ bss_inv s' ∧
    bss_next_id s' ≤ bss_next_id s + Z.of_nat (length res).
Proof.
  intros Hq Hal Hres Hi Hn. unfold wpa_supplicant_get_scan_results. cbv zeta.
  pose proof (filter_scan_res_sub s res) as Hsub. pose proof (sublist_length _ _ Hsub) as Hlen.
  pose proof (Permutation_length (Hq (filter_scan_res s res))) as Hql.
  destruct (scan_res_loop_inv envs (qsort (filter_scan_res s res)) 0 (wpa_bss_update_start s))
    as (s1 & -> & I1 & E1 & N1).
  - done.
  - rewrite Hq. apply Forall_forall. intros r Hr. rewrite Forall_forall in Hres. apply Hres. by eapply elem_of_sublist.
  - rewrite Hq. exact (filter_scan_res_match s res).
  - destruct Hi as [[? ? ? ? ? ? ? ? ?] ?]. by split.
  - rewrite Hql. simpl. lia.
  - cbn [mbind run_bind]. simpl in N1. unfold wpa_bss_update_end. destruct new_scan; cbn [negb].
    + destruct (for_each_bss_spec (judge_scan info) (bss s1) (judge_scan_ok info) s1 I1)
        as (s2 & -> & I2 & _ & N2 & _); [apply I1|done|]. exists s2. split_and!; [done..|lia].
    + exists s1. split_and!; [done..|lia].
Qed.

(** The operations of the table, and what the rest of the program does to the
    fields the table reads: the current BSS, the associated and the pending BSSID,
    the filter and the configured networks. *)
Inductive bss_op :=
| GetScanResults (qsort : list wpa_scan_res → list wpa_scan_res) (envs : nat → alloc_env * os_time)
    (res : list wpa_scan_res) (info : option scan_info) (new_scan : bool)
| FlushByAge (now : os_time) (age : Z)
| BssTimeout (now : os_time)
| BssFlush
| BssDeinit
| SetCurrent (p : option positive)
| SetBssids (own pending : list Z)
| SetFilter (f : option (list (list Z)))
| SetNetworks (n : list (option (list Z))).

Definition run_bss_op (s : bss_sys) (op : bss_op) : run bss_sys :=
  match op with
  | GetScanResults q envs res info new => wpa_supplicant_get_scan_results q envs res info new s
  | FlushByAge now age => wpa_bss_flush_by_age now age s
  | BssTimeout now => wpa_bss_timeout now s
  | BssFlush => wpa_bss_flush s
  | BssDeinit => wpa_bss_deinit s
  | SetCurrent p => Ret (s <| current_bss := p |>)
  | SetBssids a b => Ret (s <| own_bssid := a |> <| pending_bssid := b |>)
  | SetFilter f => Ret (s <| bssid_filter := f |>)
  | SetNetworks n => Ret (s <| networks := n |>)
  end.
Fixpoint run_bss_ops (s : bss_sys) (ops : list bss_op) : run bss_sys :=
  match ops with [] => Ret s | op :: ops => s ← run_bss_op s op; run_bss_ops s ops end.

Definition bss_op_ok (op : bss_op) : Prop :=
  match op with
  | GetScanResults q envs res _ _ =>
      (∀ l, q l ≡ₚ l) ∧ (∀ i, alloc_ok (envs i).1) ∧ Forall res_wf res
  | _ => True
  end.
Definition results_in (op : bss_op) : Z :=
  match op with GetScanResults _ _ res _ _ => Z.of_nat (length res) | _ => 0 end.

Lemma flush_inv judge s : judge_ok judge → bss_inv s →
  ∃ s', for_each_bss judge (bss s) s = Ret s' ∧ bss_inv s' ∧ bss_next_id s' = bss_next_id s.
Proof.
  intros Hj Hi. destruct (for_each_bss_spec judge (bss s) Hj s Hi) as (s2 & -> & I2 & _ & N2 & _); [apply Hi|done|].
  eauto.
Qed.

Lemma flush_by_age_inv now age s : bss_inv s →
  ∃ s', wpa_bss_flush_by_age now age s = Ret s' ∧ bss_inv s' ∧ bss_next_id s' = bss_next_id s.
Proof.
  intros Hi. unfold wpa_bss_flush_by_age. destruct (bss s) eqn:Hl; [eauto|]. rewrite <-Hl.
  apply flush_inv; [apply judge_age_ok|done].
Qed.

(** Fields the invariant does not speak of. *)
Lemma inv_ext s s' :
  bss s' = bss s → bss_id s' = bss_id s → num_bss s' = num_bss s → store s' = store s →
  bss_next_id s' = bss_next_id s → bss_max_count s' = bss_max_count s → bss_inv s → bss_inv s'.
Proof.
  intros E1 E2 E3 E4 E5 E6 [[? ? ? ? ? ? ? ? ?] ?]. split; [split|]; by rewrite ?E1, ?E2, ?E3, ?E4, ?E5, ?E6.
Qed.

Lemma run_bss_op_inv s op : bss_op_ok op → bss_inv s → bss_next_id s + results_in op < 2 ^ 32 →
  ∃ s', run_bss_op s op = Ret s' ∧ bss_inv s' ∧ bss_next_id s' ≤ bss_next_id s + results_in op.
Proof.
  intros Ho Hi Hn. destruct op as [q envs res info new|now age|now| | |p|a b|f|n]; cbn [run_bss_op results_in] in *.
  - destruct Ho as (H1 & H2 & H3). by apply get_scan_results_inv.
  - destruct (flush_by_age_inv now age s Hi) as (s' & -> & I & N). exists s'. split_and!; [done..|lia].
  - unfold wpa_bss_timeout. destruct (flush_by_age_inv now (to_int (bss_expiration_age s)) s Hi) as (s' & -> & I & N).
    cbn [mbind run_bind]. eexists. split; [reflexivity|]. split; [by eapply inv_ext; [..|exact I]|simpl; lia].
  - destruct (flush_inv judge_flush s judge_flush_ok Hi) as (s' & E & I & N).
    exists s'. split_and!; [exact E|done|lia].
  - destruct (flush_inv judge_flush (s <| bss_timer := false |>) judge_flush_ok) as (s' & E & I & N).
    { by eapply inv_ext; [..|exact Hi]. }
    exists s'. split_and!; [exact E|done|simpl in N; lia].
  - eexists. split; [reflexivity|]. split; [by eapply inv_ext; [..|exact Hi]|simpl; lia].
  - eexists. split; [reflexivity|]. split; [by eapply inv_ext; [..|exact Hi]|simpl; lia].
  - eexists. split; [reflexivity|]. split; [by eapply inv_ext; [..|exact Hi]|simpl; lia].
  - eexists. split; [reflexivity|]. split; [by eapply inv_ext; [..|exact Hi]|simpl; lia].
Qed.

Lemma run_bss_ops_inv ops : ∀ s, Forall bss_op_ok ops → bss_inv s →
  bss_next_id s + foldr (λ op n, results_in op + n) 0 ops < 2 ^ 32 →
  ∃ s', run_bss_ops s ops = Ret s' ∧ bss_inv s'.
Proof.
  assert (Hpos : ∀ ops, 0 ≤ foldr (λ op n, results_in op + n) 0 ops).
  { intros l. induction l as [|op l IH]; simpl; [lia|]. destruct op; simpl; lia. }
  induction ops as [|op ops IH]; intros s Ho Hi Hn; cbn [run_bss_ops foldr] in *; [by eauto|].
  apply Forall_cons in Ho as [Hop Ho]. specialize (Hpos ops).
  destruct (run_bss_op_inv s op Hop Hi) as (s1 & -> & I1 & N1); [lia|]. cbn [mbind run_bind]. apply IH; [done|done|lia].
Qed.

(** The table after start-up: a zeroed structure and a configuration. *)
Definition bss_start (max age count : Z) : bss_sys :=
  wpa_bss_init (BssSys [] [] 0 0 0 ∅ max age count [] None (repeat 0 6) (repeat 0 6) None false []).

Lemma bss_start_inv max age count : 0 ≤ max < 2 ^ 32 → bss_inv (bss_start max age count).
Proof.
  intros Hm. split; [|simpl; lia]. split; simpl; try done.
  - apply NoDup_nil_2.
  - intros p. rewrite lookup_empty. split; [set_solver|by intros [? ?]].
  - constructor.
Qed.

(** ** What the table promises *)

(** C19: along any sequence of scans, expirations, flushes and changes of the rest of
    the program, from start-up on, with any behaviour of the allocator and fewer
    than 2^32 scan results, every operation of the BSS table is memory safe and
    returns, and the table is consistent: both lists hold exactly the live entries,
    the count is their number and within the configured maximum, no two entries
    have the same BSSID and SSID, identifiers are distinct and increase along
    [bss_id], and the elements of an entry lie inside its memory. *)
Theorem bss_table_consistent max age count ops :
  0 ≤ max < 2 ^ 32 → Forall bss_op_ok ops → foldr (λ op n, results_in op + n) 0 ops < 2 ^ 32 →
  ∃ s, run_bss_ops (bss_start max age count) ops = Ret s ∧
    NoDup (bss s) ∧ bss_id s ≡ₚ bss s ∧ (∀ p, p ∈ bss s ↔ is_Some (store s !! p)) ∧
    num_bss s = Z.of_nat (length (bss s)) ∧ num_bss s ≤ bss_max_count s ∧
    (∀ p q b c, store s !! p = Some b → store s !! q = Some c →
       bssid b = bssid c → take (ssid_len b) (ssid b) = take (ssid_len c) (ssid c) → p = q) ∧
    StronglySorted Z.lt (map (id_at (store s)) (bss_id s)) ∧
    (∀ p b, store s !! p = Some b → (ie_len b + beacon_ie_len b ≤ length (mem b))%nat).
Proof.
  intros Hm Ho Hn. destruct (run_bss_ops_inv ops (bss_start max age count) Ho) as (s & E & Hc & Hx & _);
    [by apply bss_start_inv|done|].
  exists s. split; [exact E|]. destruct Hc as [H1 H2 H3 H4 H5 H6 H7 H8 H9]. split_and!; try done.
  - intros p q b c Hp Hq E1 E2. apply (H6 p q b c Hp Hq). unfold bss_key. by rewrite E1, E2.
  - intros p b Hp. apply (H5 p b Hp).
Qed.

(** The entry at the end of the list after a scan result was processed. *)
Lemma outcome_stored env now x res s s' :
  bss_inv s → bss_inv s' → res_wf res → (length x ≤ 32)%nat → scan_outcome env now x res s s' →
  (∀ st, is_Some (al_zalloc env st)) → (∀ st, al_realloc env st ≠ None) →
  num_bss s < bss_max_count s ∨ (∃ p b, store s !! p = Some b ∧ bss_key b = (r_bssid res, x)) →
  ∃ q b', last (bss s') = Some q ∧ store s' !! q = Some b' ∧ bss_key b' = (r_bssid res, x) ∧
    bss_shows now (bss_update_idx s) res b' ∧
    (∀ c, bss_key c ≠ (r_bssid res, x) → (∃ p, store s !! p = Some c) ↔ (∃ p, store s' !! p = Some c)).
Proof.
  intros Hi Hi' Hres Hx Ho Hz Hr Hroom.
  destruct Ho as [Hnone Hk|p b b' lg Hb Hk Hq F1 F2 F3 F4|p Hp Hfr Hk Hlt|p v c Hp Hfr Hk Heq Hv _].
  - destruct (Hz (store s)) as [? E]. congruence.
  - exists (update_addr env p b res s), b'. set (q := update_addr env p b res s) in *. simpl. split_and!.
    + apply last_snoc.
    + apply lookup_insert_eq.
    + by rewrite F2.
    + by apply F4.
    + intros c Hc. split; intros [r Hr'].
      * exists r. assert (r ≠ p) by (intros ->; congruence).
        rewrite lookup_insert_ne, lookup_delete_ne; [done|done|].
        intros <-. destruct Hq as [->|Hq]; [done|congruence].
      * exists r. apply lookup_insert_Some in Hr' as [[<- <-]|[_ [_ Hr']%lookup_delete_Some]]; [congruence|done].
  - exists p, (bss_of_res now x res s). split_and!.
    + apply last_snoc.
    + apply lookup_insert_eq.
    + by apply bss_of_res_key.
    + by apply bss_of_res_shows.
    + intros c Hc. split; intros [r Hr'].
      * exists r. unfold added. simpl. rewrite lookup_insert_ne; [done|].
        intros <-. congruence.
      * exists r. unfold added in Hr'. simpl in Hr'. apply lookup_insert_Some in Hr' as [[<- <-]|[_ Hr']]; [|done].
        by rewrite bss_of_res_key in Hc.
  - destruct Hroom as [?|(p' & b & Hb & Hk')]; [lia|]. by destruct (Hk p' b).
Qed.

Lemma res_network_short es x : res_network es = Some x → (length x ≤ 32)%nat.
Proof.
  unfold res_network. destruct (List.find _ es) as [e|]; [|done].
  destruct (Nat.ltb_spec 32 (length e.2)); [done|]. destruct (_ && _); by intros [= <-].
Qed.

Lemma filter_match_env s s' a : bss_env s' = bss_env s →
  wpa_supplicant_filter_bssid_match s' a = wpa_supplicant_filter_bssid_match s a.
Proof. intros [= _ _ _ _ _ _ _ E _]. unfold wpa_supplicant_filter_bssid_match. by rewrite E. Qed.


(** After a scan [wpa_bss_update_end] removes exactly the entries that are not in
    use, belong to what was scanned, and have been missed as often as configured; it
    counts the miss of the other entries of the scan that were not seen, changes
    nothing else, and keeps the order of the list. *)
Theorem wpa_bss_update_end_exact info s :
  bss_inv s →
  ∃ s', wpa_bss_update_end info true s = Ret s' ∧ bss_inv s' ∧ sublist (bss s') (bss s) ∧
    ∀ p, store s' !! p =
      match store s !! p with
      | None => None
      | Some b =>
          if wpa_bss_in_use s p b || negb (wpa_bss_included_in_scan b info) then Some b
          else
            let n := if last_update_idx b <? bss_update_idx s then u32 (scan_miss_count b + 1) else scan_miss_count b in
            if bss_expiration_scan_count s <=? n then None else Some (b <| scan_miss_count := n |>)
      end.
Proof.
  intros Hi. unfold wpa_bss_update_end. cbn [negb].
  destruct (for_each_bss_spec (judge_scan info) (bss s) (judge_scan_ok info) s Hi)
    as (s' & -> & I & E & _ & Hsub & Hst); [apply Hi|done|].
  exists s'. split_and!; try done. intros p. rewrite Hst.
  2: { intros q b. unfold judge_scan. by repeat if_branch. }
  destruct (store s !! p) as [b|] eqn:Hp; [|by if_branch].
  rewrite bool_decide_eq_true_2 by (apply Hi; eauto). simpl. unfold judge_scan.
  destruct (wpa_bss_in_use s p b), (wpa_bss_included_in_scan b info); simpl; try done.
  destruct (_ <? _); simpl; if_branch; try done. f_equal. by destruct b.
Qed.

(** Updating the entry of the current BSS with a scan result that needs more
    memory leaves [current_bss] dangling when the allocator moves the entry: the
    pointer is not updated, and the object it points to has been freed. *)
Theorem wpa_bss_update_dangles env now res s es x p b q :
  bss_inv s → alloc_ok env → res_wf res → ie_stream (res_ies res) es → res_network es = Some x →
  wpa_supplicant_filter_bssid_match s (r_bssid res) = true → bss_next_id s + 1 < 2 ^ 32 →
  store s !! p = Some b → bss_key b = (r_bssid res, x) → current_bss s = Some p →
  (ie_len b + beacon_ie_len b < res_total res)%nat → al_realloc env (store s) = Some (Some q) →
  ∃ s', wpa_bss_update_scan_res env now res s = Ret s' ∧
    current_bss s' = Some p ∧ bss_at p s' = UB UseAfterFree.
Proof.
  intros Hi Hal Hres Hs Hx Hf Hn Hp Hk Hcur Hlt Hq. pose proof (res_network_short _ _ Hx) as Hlen.
  rewrite (update_scan_res_eq _ _ _ _ _ Hs), Hx.
  destruct (wpa_bss_get_spec s (r_bssid res) x (proj1 Hi) (rwf_bssid _ Hres) Hlen Hf) as (o & -> & Hg).
  destruct o as [p'|]; [|by destruct (Hg p b)]. destruct Hg as (b1 & Hp' & Hk').
  rewrite (inv_keys _ (proj1 Hi) p' p b1 b) by congruence. cbn [mbind run_bind].
  destruct (wpa_bss_update_eq env now p b res s) as (Hqq & b' & lg & -> & _); try done; [apply Hi|by injection Hk|].
  assert (update_addr env p b res s = q) as Eq.
  { unfold update_addr. by rewrite (proj2 (Nat.leb_gt _ _) Hlt), Hq. }
  rewrite Eq. eexists. split; [reflexivity|]. split; [exact Hcur|]. unfold bss_at. simpl.
  assert (q ≠ p) by (intros ->; pose proof (proj2 Hal _ _ Hq); congruence).
  by rewrite lookup_insert_ne, lookup_delete_eq.
Qed.

Lemma remove_oldest_known s p l b :
  bss_core s → bss s = p :: l → store s !! p = Some b →
  (∀ q c, store s !! q = Some c → wpa_bss_known s c = true) →
  wpa_bss_remove_oldest s = Ret (removed p b s).
Proof.
  intros Hc Hl Hp Hk. unfold wpa_bss_remove_oldest, wpa_bss_remove_oldest_unknown.
  destruct (find_live (λ b, negb (wpa_bss_known s b)) s Hc) as (o & -> & Ho).
  destruct o as [q|]; [destruct Ho as (c & Hq & Hn); by rewrite (Hk q c Hq) in Hn|].
  simpl. rewrite Hl. by apply wpa_bss_remove_eq.
Qed.
Lemma known_added p b s c : wpa_bss_known (added p b s) c = wpa_bss_known s c.
Proof. by destruct s. Qed.

(** The eviction from a full table does not look at what is in use: if every entry
    and the new network match the configuration, a scan result of a new network
    frees the oldest entry even if it is [current_bss], which is left dangling. *)
Theorem wpa_bss_add_evicts_current env now res s es x p l :
  bss_inv s → alloc_ok env → res_wf res → ie_stream (res_ies res) es → res_network es = Some x →
  wpa_supplicant_filter_bssid_match s (r_bssid res) = true → bss_next_id s + 1 < 2 ^ 32 →
  is_Some (al_zalloc env (store s)) → (∀ q b, store s !! q = Some b → bss_key b ≠ (r_bssid res, x)) →
  num_bss s = bss_max_count s → bss s = p :: l → current_bss s = Some p →
  (∀ q b, store s !! q = Some b → wpa_bss_known s b = true) → wpa_bss_known s (bss_of_res now x res s) = true →
  ∃ s', wpa_bss_update_scan_res env now res s = Ret s' ∧
    current_bss s' = Some p ∧ bss_at p s' = UB UseAfterFree.
Proof.
  intros Hi Hal Hres Hs Hx Hf Hn Hz Hnew Hfull Hl Hcur Hkn Hkx. pose proof (res_network_short _ _ Hx) as Hlen.
  rewrite (update_scan_res_eq _ _ _ _ _ Hs), Hx.
  destruct (scan_res_outcome env now res s x Hi Hal Hres Hlen Hf Hn) as (s' & -> & Ho & Hi' & He & _).
  exists s'. split; [done|]. split; [by injection He as _ _ _ _ -> _ _ _ _|].
  destruct Ho as [Hnone _|p' b b' lg Hb Hk _ _ _ _ _|p' _ _ _ Hlt|p' v c Hp' Hfr _ _ Hv Hrm].
  - destruct Hz. congruence.
  - by destruct (Hnew p' b).
  - lia.
  - destruct (core_added p' (bss_of_res now x res s) s) as (C1 & _ & _); try done;
      [apply Hi|destruct Hi; lia|by apply bss_of_res_wf|by rewrite bss_of_res_key|].
    destruct (inv_dom _ (proj1 Hi) p) as [[b Hb] _]; [rewrite Hl; set_solver|].
    assert (Hne : p ≠ p') by (intros ->; congruence).
    rewrite (remove_oldest_known _ p (l ++ [p']) b) in Hrm; [|done|simpl; by rewrite Hl|simpl; by rewrite lookup_insert_ne|].
    + revert Hrm. generalize (removed v c (added p' (bss_of_res now x res s) s)). intros z [= <-].
      unfold bss_at, removed. simpl. by rewrite lookup_delete_eq.
    + intros q c' Hq. rewrite known_added. simpl in Hq. apply lookup_insert_Some in Hq as [[_ <-]|[_ Hq]]; [done|by eapply Hkn].
Qed.

(** ** Concrete tables *)

Module Demo.

(** An allocator that always has memory and moves what it grows. *)
Definition demo_env : alloc_env :=
  AllocEnv (λ st, Some (fresh (dom st))) (λ st, Some (Some (fresh (dom st)))) true true.
Definition demo_now : os_time := OsTime 1000 0.
Definition demo_envs (i : nat) : alloc_env * os_time := (demo_env, demo_now).

Lemma demo_env_ok : alloc_ok demo_env.
Proof.
  split; intros st p [= <-]; apply not_elem_of_dom, is_fresh.
Qed.

Definition demo_res (bssid ies : list Z) (lvl : Z) : wpa_scan_res :=
  ScanRes 0 bssid 2412 100 0x11 0 0 lvl 7 1500 (length ies) 0 ies.
(** Network "a" of one access point, the same with more elements, and network "b". *)
Definition res_a : wpa_scan_res := demo_res [2; 0; 0; 0; 0; 1] [0; 1; 97] (-50).
Definition res_a2 : wpa_scan_res := demo_res [2; 0; 0; 0; 0; 1] [0; 1; 97; 1; 1; 130] (-60).
Definition res_b : wpa_scan_res := demo_res [2; 0; 0; 0; 0; 2] [0; 1; 98; 48; 0] (-70).

Definition demo_scan (l : list wpa_scan_res) : bss_op := GetScanResults (λ l, l) demo_envs l None true.
Definition demo_ops : list bss_op :=
  [SetNetworks [Some [97]; None; Some [98]]; demo_scan [res_a]; SetCurrent (Some 1%positive)].
Definition demo_state (max : Z) (ops : list bss_op) : bss_sys :=
  match run_bss_ops (bss_start max 180 2) ops with Ret s => s | _ => bss_start 0 0 0 end.

Lemma demo_res_wf : res_wf res_a ∧ res_wf res_a2 ∧ res_wf res_b.
Proof. split_and!; split; try done; by apply (bool_decide_unpack _); vm_compute. Qed.
Lemma demo_ops_ok : Forall bss_op_ok demo_ops.
Proof.
  repeat constructor; simpl; try done; try apply demo_env_ok.
Qed.
Lemma update_start_inv s : bss_inv s → bss_inv (wpa_bss_update_start s).
Proof. intros Hi. by eapply inv_ext; [..|exact Hi]. Qed.
Lemma demo_table_inv max : 0 ≤ max < 2 ^ 32 → bss_inv (demo_state max demo_ops).
Proof.
  intros Hm. destruct (run_bss_ops_inv demo_ops (bss_start max 180 2)) as (s & E & I);
    [apply demo_ops_ok|by apply bss_start_inv|done|]. unfold demo_state. by rewrite E.
Qed.

Lemma bss_table_consistent_witness :
  num_bss (demo_state 1 (demo_ops ++ [demo_scan [res_b; res_a]; FlushByAge demo_now 10])) = 1 ∧
  ∃ s, run_bss_ops (bss_start 1 180 2) (demo_ops ++ [demo_scan [res_b; res_a]; FlushByAge demo_now 10]) = Ret s ∧
    num_bss s ≤ bss_max_count s.
Proof.
  split; [vm_compute; reflexivity|].
  destruct (bss_table_consistent 1 180 2 (demo_ops ++ [demo_scan [res_b; res_a]; FlushByAge demo_now 10])) as (s & E & H).
  - lia.
  - apply Forall_app. split; [apply demo_ops_ok|].
    repeat constructor; simpl; try done; try apply demo_env_ok; apply demo_res_wf.
  - vm_compute. reflexivity.
  - exists s. split; [exact E|]. apply H.
Defined.


Lemma wpa_bss_update_end_exact_witness :
  ∃ s', wpa_bss_update_end None true (wpa_bss_update_start (wpa_bss_update_start (demo_state 2 demo_ops))) = Ret s' ∧
    (scan_miss_count <$> store s' !! 1%positive) = Some 0.
Proof.
  destruct (wpa_bss_update_end_exact None (wpa_bss_update_start (wpa_bss_update_start (demo_state 2 demo_ops))))
    as (s' & E & _ & _ & H).
  - apply update_start_inv, update_start_inv, demo_table_inv. lia.
  - exists s'. split; [exact E|]. rewrite H. vm_compute. reflexivity.
Defined.

Lemma wpa_bss_update_dangles_witness :
  ∃ s', wpa_bss_update_scan_res demo_env demo_now res_a2 (demo_state 2 demo_ops) = Ret s' ∧
    current_bss s' = Some 1%positive ∧ bss_at 1%positive s' = UB UseAfterFree.
Proof.
  destruct (store (demo_state 2 demo_ops) !! 1%positive) as [b|] eqn:Hb; [|vm_compute in Hb; discriminate Hb].
  vm_compute in Hb. injection Hb as Hb.
  eapply (wpa_bss_update_dangles demo_env demo_now res_a2 (demo_state 2 demo_ops) [(0, [97]); (1, [130])] [97] 1 b).
  - apply demo_table_inv. lia.
  - apply demo_env_ok.
  - apply demo_res_wf.
  - apply (ie_stream_elem (0, [97])), (ie_stream_elem (1, [130])), ie_stream_short. simpl. lia.
  - reflexivity.
  - reflexivity.
  - vm_compute. reflexivity.
  - rewrite <-Hb. vm_compute. reflexivity.
  - rewrite <-Hb. reflexivity.
  - reflexivity.
  - rewrite <-Hb. unfold res_total. cbn [res_a2 demo_res r_ie_len r_beacon_ie_len ie_len beacon_ie_len length]. lia.
  - reflexivity.
Defined.

Lemma wpa_bss_add_evicts_current_witness :
  ∃ s', wpa_bss_update_scan_res demo_env demo_now res_b (demo_state 1 demo_ops) = Ret s' ∧
    current_bss s' = Some 1%positive ∧ bss_at 1%positive s' = UB UseAfterFree.
Proof.
  assert (Hst : ∀ q b, store (demo_state 1 demo_ops) !! q = Some b →
    bss_key b = ([2; 0; 0; 0; 0; 1], [97]) ∧ wpa_bss_known (demo_state 1 demo_ops) b = true).
  { apply (map_Forall_to_list (λ _ b, bss_key b = ([2; 0; 0; 0; 0; 1], [97]) ∧
      wpa_bss_known (demo_state 1 demo_ops) b = true)).
    vm_compute. repeat constructor. }
  eapply (wpa_bss_add_evicts_current demo_env demo_now res_b (demo_state 1 demo_ops) [(0, [98]); (48, [])] [98] 1 []).
  - apply demo_table_inv. lia.
  - apply demo_env_ok.
  - apply demo_res_wf.
  - apply (ie_stream_elem (0, [98])), (ie_stream_elem (48, [])), ie_stream_short. simpl. lia.
  - reflexivity.
  - reflexivity.
  - vm_compute. reflexivity.
  - eexists. reflexivity.
  - intros q b Hq. by rewrite (proj1 (Hst q b Hq)).
  - vm_compute. reflexivity.
  - vm_compute. reflexivity.
  - vm_compute. reflexivity.
  - intros q b Hq. apply (Hst q b Hq).
  - vm_compute. reflexivity.
Defined.
End Demo.
