(* ===== verification/Elems.v ===== *)
(** * Elements of management frames (src/src/common/ieee802_11_common.c)

    [struct ieee802_11_elems] has a pointer and a length for each kind of element; here it
    is a function from the kinds to an offset into the buffer and a length.  The switch of
    the parser is a table from element ids to kinds.  The specification is on the sequence
    of elements of Ies: a field holds the last element of its kind, and the result says
    whether the buffer was used up and whether an element was unknown. *)

From S2P Require Import Prelude Ies Bss.

Inductive elem_field :=
| F_ssid | F_supp_rates | F_fh_params | F_ds_params | F_cf_params | F_tim | F_ibss_params | F_challenge | F_erp_info
| F_ext_supp_rates | F_wpa_ie | F_rsn_ie | F_wmm | F_wmm_tspec | F_wps_ie | F_power_cap | F_supp_channels | F_mdie | F_ftie
| F_timeout_int | F_ht_capabilities | F_ht_operation | F_vendor_ht_cap | F_p2p | F_wfd | F_link_id | F_interworking | F_hs20.
#[global] Instance elem_field_dec : EqDecision elem_field.
Proof. solve_decision. Defined.

Definition ieee802_11_elems : Type := elem_field → option (nat * nat).
Definition no_elems : ieee802_11_elems := λ _, None.
Definition set_elem (f : elem_field) (pos len : nat) (e : ieee802_11_elems) : ieee802_11_elems :=
  λ g, if bool_decide (g = f) then Some (pos, len) else e g.

Inductive ParseRes := ParseOK | ParseUnknown | ParseFailed.

Definition OUI_MICROSOFT : Z := 0x0050f2.
Definition OUI_WFA : Z := 0x506f9a.
Definition OUI_BROADCOM : Z := 0x00904c.

(** ** Operations *)

(** The field an element of a vendor goes to; [None] is the result -1. *)
Definition ieee802_11_parse_vendor_specific (buf : list Z) (pos elen : nat) : run (option elem_field) :=
  if (elen <? 4)%nat then Ret None
  else
    a ← rd buf pos; b ← rd buf (pos + 1); c ← rd buf (pos + 2); t ← rd buf (pos + 3);
    let oui := Z.lor (Z.lor (Z.shiftl a 16) (Z.shiftl b 8)) c in
    if oui =? OUI_MICROSOFT then
      if t =? 1 then Ret (Some F_wpa_ie)
      else if t =? 2 then
        if (elen <? 5)%nat then Ret None
        else
          u ← rd buf (pos + 4);
          Ret (if (u =? 0) || (u =? 1) then Some F_wmm else if u =? 2 then Some F_wmm_tspec else None)
      else if t =? 4 then Ret (Some F_wps_ie)
      else Ret None
    else if oui =? OUI_WFA then
      Ret (if t =? 9 then Some F_p2p else if t =? 10 then Some F_wfd else if t =? 16 then Some F_hs20 else None)
    else if oui =? OUI_BROADCOM then Ret (if t =? 0x33 then Some F_vendor_ht_cap else None)
    else Ret None.

(** The cases of the switch that store the element whatever its length. *)
Definition eid_table : list (Z * elem_field) :=
  [(WLAN_EID_SSID, F_ssid); (WLAN_EID_SUPP_RATES, F_supp_rates); (2, F_fh_params); (3, F_ds_params); (4, F_cf_params);
   (5, F_tim); (6, F_ibss_params); (16, F_challenge); (42, F_erp_info); (WLAN_EID_EXT_SUPP_RATES, F_ext_supp_rates);
   (WLAN_EID_RSN, F_rsn_ie); (33, F_power_cap); (36, F_supp_channels); (54, F_mdie); (55, F_ftie); (56, F_timeout_int);
   (45, F_ht_capabilities); (61, F_ht_operation); (107, F_interworking)].
Definition WLAN_EID_LINK_ID : Z := 101.

Definition eid_field (id : Z) : option elem_field := snd <$> List.find (λ x, x.1 =? id) eid_table.

(** One element: where it goes, and whether it counts as unknown. *)
Definition parse_elem (buf : list Z) (id : Z) (pos elen : nat) : run (option elem_field * bool) :=
  if id =? WLAN_EID_VENDOR_SPECIFIC then
    f ← ieee802_11_parse_vendor_specific buf pos elen; Ret (f, bool_decide (f = None))
  else if id =? WLAN_EID_LINK_ID then Ret (if (elen <? 18)%nat then None else Some F_link_id, false)
  else Ret (eid_field id, bool_decide (eid_field id = None)).

Fixpoint parse_elems_loop (fuel : nat) (buf : list Z) (pos left : nat) (unknown : bool) (e : ieee802_11_elems)
    : run (ParseRes * ieee802_11_elems) :=
  match fuel with
  | O => OutOfFuel
  | S fuel =>
      if (left <? 2)%nat then
        Ret (if negb (left =? 0)%nat then ParseFailed else if unknown then ParseUnknown else ParseOK, e)
      else
        id ← rd buf pos; l ← rd buf (pos + 1);
        let elen := Z.to_nat l in
        if (left - 2 <? elen)%nat then Ret (ParseFailed, e)
        else
          '(f, u) ← parse_elem buf id (pos + 2) elen;
          let e := match f with Some f => set_elem f (pos + 2) elen e | None => e end in
          parse_elems_loop fuel buf (pos + 2 + elen) (left - 2 - elen) (unknown || u) e
  end.

(** An element takes at least two bytes. *)
Definition ieee802_11_parse_elems (buf : list Z) : run (ParseRes * ieee802_11_elems) :=
  parse_elems_loop (S (length buf)) buf 0 (length buf) false no_elems.

(** [ieee802_11_ie_count]: the walk with a test that counts. *)
Fixpoint ie_count_loop (fuel : nat) (buf : list Z) (pos : nat) (count : Z) : run Z :=
  match fuel with
  | O => OutOfFuel
  | S fuel =>
      if (length buf <? pos + 2)%nat then Ret count
      else
        l ← rd buf (pos + 1);
        if (length buf <? pos + 2 + Z.to_nat l)%nat then Ret count
        else ie_count_loop fuel buf (pos + 2 + Z.to_nat l) (count + 1)
  end.
Definition ieee802_11_ie_count (ies : option (list Z)) : run Z :=
  match ies with None => Ret 0 | Some buf => ie_count_loop (S (length buf)) buf 0 0 end.

(** ** Specification *)

Definition vendor_kind (body : list Z) : option elem_field :=
  match body with
  | a :: b :: c :: t :: r =>
      let oui := Z.lor (Z.lor (Z.shiftl a 16) (Z.shiftl b 8)) c in
      if oui =? OUI_MICROSOFT then
        if t =? 1 then Some F_wpa_ie
        else if t =? 2 then
          match r with
          | u :: _ => if (u =? 0) || (u =? 1) then Some F_wmm else if u =? 2 then Some F_wmm_tspec else None
          | [] => None
          end
        else if t =? 4 then Some F_wps_ie else None
      else if oui =? OUI_WFA then
        if t =? 9 then Some F_p2p else if t =? 10 then Some F_wfd else if t =? 16 then Some F_hs20 else None
      else if oui =? OUI_BROADCOM then if t =? 0x33 then Some F_vendor_ht_cap else None
      else None
  | _ => None
  end.

(** The field of an element. *)
Definition elem_kind (x : Z * list Z) : option elem_field :=
  if x.1 =? WLAN_EID_VENDOR_SPECIFIC then vendor_kind x.2
  else if x.1 =? WLAN_EID_LINK_ID then if (length x.2 <? 18)%nat then None else Some F_link_id
  else eid_field x.1.
Definition elem_unknown (x : Z * list Z) : bool :=
  negb (x.1 =? WLAN_EID_LINK_ID) && bool_decide (elem_kind x = None).

(** The last element of a kind. *)
Definition last_from (f : elem_field) (o : option (list Z)) (es : list (Z * list Z)) : option (list Z) :=
  foldl (λ o x, if bool_decide (elem_kind x = Some f) then Some x.2 else o) o es.
Definition last_elem (f : elem_field) (es : list (Z * list Z)) : option (list Z) := last_from f None es.

(** What a field points to. *)
Definition field_bytes (buf : list Z) (o : option (nat * nat)) : option (list Z) :=
  (λ x, take x.2 (drop x.1 buf)) <$> o.
Definition ie_size (es : list (Z * list Z)) : nat := length (concat (map ie_bytes es)).

(** ** Proofs *)

Lemma rd_body pre id body post k :
  (k < length body)%nat → rd (pre ++ ie_bytes (id, body) ++ post) (length pre + 2 + k) = rd body k.
Proof.
  intros Hk. rewrite <-Nat.add_assoc, rd_app_r.
  change (rd ([id; Z.of_nat (length body)] ++ body ++ post) (length [id; Z.of_nat (length body)] + k) = rd body k).
  rewrite rd_app_r. unfold rd. by rewrite lookup_app_l.
Qed.

Lemma vendor_spec pre id body post :
  ieee802_11_parse_vendor_specific (pre ++ ie_bytes (id, body) ++ post) (length pre + 2) (length body) = Ret (vendor_kind body).
Proof.
  unfold ieee802_11_parse_vendor_specific. pose proof (rd_body pre id body post) as Hrd. revert Hrd.
  generalize (pre ++ ie_bytes (id, body) ++ post). intros buf Hrd.
  destruct body as [|a [|b [|c [|t r]]]]; [done..|]. cbn [length Nat.ltb Nat.leb] in *.
  pose proof (Hrd 0%nat ltac:(cbn; lia)) as H0. rewrite Nat.add_0_r in H0.
  rewrite H0, (Hrd 1%nat), (Hrd 2%nat), (Hrd 3%nat) by (cbn; lia). cbn -[Z.lor Z.shiftl].
  repeat (if_branch; [try done|]); try done.
  all: destruct r as [|u r]; try done. by rewrite (Hrd 4%nat) by (cbn; lia).
Qed.

Lemma parse_elem_spec pre x post :
  parse_elem (pre ++ ie_bytes x ++ post) x.1 (length pre + 2) (length x.2) = Ret (elem_kind x, elem_unknown x).
Proof.
  destruct x as [id body]. unfold parse_elem, elem_unknown, elem_kind. cbn [fst snd].
  destruct (Z.eqb_spec id WLAN_EID_VENDOR_SPECIFIC) as [->|Hv]; [by rewrite vendor_spec|].
  destruct (Z.eqb_spec id WLAN_EID_LINK_ID) as [->|Hl]; done.
Qed.

Lemma ie_size_cons x es : ie_size (x :: es) = (2 + length x.2 + ie_size es)%nat.
Proof. unfold ie_size. cbn. rewrite length_app. done. Qed.

Lemma parse_loop_spec fuel whole pre buf es unk e :
  whole = pre ++ buf → ie_stream buf es → (length buf < fuel)%nat →
  ∃ e', parse_elems_loop fuel whole (length pre) (length buf) unk e =
    Ret (if (ie_size es =? length buf)%nat then if unk || existsb elem_unknown es then ParseUnknown else ParseOK
         else ParseFailed, e') ∧
    ∀ f, field_bytes whole (e' f) = last_from f (field_bytes whole (e f)) es.
Proof.
  intros Hw Hs. revert fuel pre unk e Hw.
  induction Hs as [buf Hlen|t l r Hcut|x r es Hs IH]; intros [|fuel] pre unk e Hw Hf; try lia; cbn [parse_elems_loop].
  - rewrite (proj2 (Nat.ltb_lt _ _) Hlen). exists e. split; [|done]. unfold ie_size. cbn [concat map length existsb].
    rewrite orb_false_r. by destruct buf as [|? [|]].
  - assert (rd whole (length pre) = Ret t ∧ rd whole (length pre + 1) = Ret l) as [-> ->].
    { subst whole. by rewrite rd_app_0, rd_app_r. }
    cbv zeta. rewrite (proj2 (Nat.ltb_ge _ _)) by (cbn; lia). rewrite !run_bind_l, (proj2 (Nat.ltb_lt _ _)) by (cbn; lia).
    exists e. split; [done|done].
  - assert (rd whole (length pre) = Ret x.1 ∧ rd whole (length pre + 1) = Ret (Z.of_nat (length x.2))) as [-> ->].
    { subst whole. by rewrite rd_app_0, rd_app_r. }
    assert (length (ie_bytes x ++ r) = (2 + length x.2 + length r)%nat) as Hl by (by rewrite length_app).
    rewrite Hl in *. rewrite (proj2 (Nat.ltb_ge _ _)) by lia. rewrite !run_bind_l, Nat2Z.id. cbv zeta.
    rewrite (proj2 (Nat.ltb_ge _ _)) by lia. rewrite Hw, parse_elem_spec, run_bind_l, <-Hw.
    set (e1 := match elem_kind x with Some f => _ | None => e end).
    destruct (IH fuel (pre ++ ie_bytes x) (unk || elem_unknown x) e1) as (e' & He & Hf'); [by rewrite Hw, <-app_assoc|lia|].
    exists e'. split.
    + replace (length pre + 2 + length x.2)%nat with (length (pre ++ ie_bytes x)) by (rewrite length_app; unfold ie_bytes; cbn; lia).
      replace (2 + length x.2 + length r - 2 - length x.2)%nat with (length r) by lia. rewrite He. rewrite ie_size_cons.
      cbn [existsb]. rewrite orb_assoc. f_equal. f_equal.
      destruct (Nat.eqb_spec (ie_size es) (length r)), (Nat.eqb_spec (2 + length x.2 + ie_size es) (2 + length x.2 + length r)); lia || done.
    + intros f. rewrite Hf'. unfold last_from. cbn [foldl]. f_equal. unfold e1. destruct (elem_kind x) as [g|]; [|done].
      unfold set_elem. destruct (decide (g = f)) as [->|Hne].
      * rewrite !bool_decide_true by done. cbn. f_equal. rewrite Hw.
        replace (pre ++ ie_bytes x ++ r) with ((pre ++ [x.1; Z.of_nat (length x.2)]) ++ x.2 ++ r) by (rewrite <-!app_assoc; done).
        rewrite drop_app_length' by (rewrite length_app; cbn; lia). by rewrite take_app_length.
      * rewrite !bool_decide_false by congruence. done.
Qed.

(** Parsing the elements of a management frame returns for any bytes and stays inside
    them: each field points to the last element of its kind, the result is a failure
    exactly if bytes are left that do not make an element, and otherwise tells whether an
    element was unknown. *)
Theorem parse_elems_last buf es :
  ie_stream buf es →
  ∃ e, ieee802_11_parse_elems buf =
    Ret (if (ie_size es =? length buf)%nat then if existsb elem_unknown es then ParseUnknown else ParseOK else ParseFailed, e) ∧
    ∀ f, field_bytes buf (e f) = last_elem f es.
Proof. intros Hs. by apply (parse_loop_spec (S (length buf)) buf [] buf es false no_elems); [..|lia]. Qed.

Lemma count_loop_spec fuel whole pre buf es n :
  whole = pre ++ buf → ie_stream buf es → (length buf < fuel)%nat →
  ie_count_loop fuel whole (length pre) n = Ret (n + Z.of_nat (length es)).
Proof.
  intros Hw Hs. revert fuel pre n Hw.
  induction Hs as [buf Hlen|t l r Hcut|x r es Hs IH]; intros [|fuel] pre n Hw Hf; try lia; cbn [ie_count_loop].
  - rewrite (proj2 (Nat.ltb_lt _ _)); [|subst whole; rewrite length_app; lia]. f_equal. cbn. lia.
  - assert (length whole = (length pre + 2 + length r)%nat) as Hl by (subst whole; rewrite length_app; cbn; lia).
    rewrite (proj2 (Nat.ltb_ge _ _)) by lia.
    assert (rd whole (length pre + 1) = Ret l) as -> by (subst whole; by rewrite rd_app_r).
    rewrite run_bind_l, (proj2 (Nat.ltb_lt _ _)) by lia. f_equal. cbn [length]. lia.
  - assert (length whole = (length pre + 2 + length x.2 + length r)%nat) as Hl.
    { subst whole. rewrite !length_app. unfold ie_bytes. cbn. lia. }
    rewrite (proj2 (Nat.ltb_ge _ _)) by lia.
    assert (rd whole (length pre + 1) = Ret (Z.of_nat (length x.2))) as -> by (subst whole; by rewrite rd_app_r).
    rewrite run_bind_l, Nat2Z.id, (proj2 (Nat.ltb_ge _ _)) by lia.
    replace (length pre + 2 + length x.2)%nat with (length (pre ++ ie_bytes x)) by (rewrite length_app; unfold ie_bytes; cbn; lia).
    rewrite IH; [f_equal; cbn [length]; lia|by rewrite Hw, <-app_assoc|]. rewrite length_app in Hf. unfold ie_bytes in Hf. cbn in Hf. lia.
Qed.

(** The count of elements. *)
Theorem ie_count_correct buf es : ie_stream buf es → ieee802_11_ie_count (Some buf) = Ret (Z.of_nat (length es)).
Proof. intros Hs. by apply (count_loop_spec (S (length buf)) buf [] buf es 0); [..|lia]. Qed.
