(* ===== verification/Network.v ===== *)
(** * Configured networks and the blacklist (src/wpa_supplicant/config.c, blacklist.c)

    The network blocks of the configuration are memory objects named by their address,
    in [nets]; [c_ssid] is the list linked through [next], [c_pssid] the array of
    priority lists linked through [pnext].  The blacklist holds the access points that
    refused or timed out, the newest first.  Outcomes of allocations are arguments. *)

From stdpp Require Import sorting.
From S2P Require Import Prelude.

(** ** Network blocks *)

(** [struct wpa_ssid], the fields that selection uses; [n_freq_list] without its
    terminating zero. *)
Record wpa_ssid := WpaSsid {
  n_id : Z; n_priority : Z; n_ssid : list Z; n_bssid : list Z; n_bssid_set : bool;
  n_pairwise_cipher : Z; n_group_cipher : Z; n_key_mgmt : Z; n_proto : Z; n_scan_ssid : bool;
  n_eapol_flags : Z; n_wep_key_len : list Z; n_wep_tx_keyidx : Z; n_mixed_cell : bool;
  n_eap_workaround : Z; n_fragment_size : Z; n_mode : Z; n_disabled : bool; n_freq_list : option (list Z)
}.

#[global] Instance eta_wpa_ssid : Eta wpa_ssid := λ n,
  WpaSsid (n_id n) (n_priority n) (n_ssid n) (n_bssid n) (n_bssid_set n) (n_pairwise_cipher n) (n_group_cipher n)
    (n_key_mgmt n) (n_proto n) (n_scan_ssid n) (n_eapol_flags n) (n_wep_key_len n) (n_wep_tx_keyidx n)
    (n_mixed_cell n) (n_eap_workaround n) (n_fragment_size n) (n_mode n) (n_disabled n) (n_freq_list n).

Record wpa_config := WpaConfig {
  c_ssid : list positive; c_pssid : list (list positive); nets : gmap positive wpa_ssid; c_ap_scan : Z
}.

#[global] Instance eta_wpa_config : Eta wpa_config := λ c, WpaConfig (c_ssid c) (c_pssid c) (nets c) (c_ap_scan c).

Definition zero_ssid : wpa_ssid :=
  WpaSsid 0 0 [] (repeat 0 6) false 0 0 0 0 false 0 (repeat 0 4) 0 false 0 0 0 false None.

(** Access through a pointer. *)
Definition net_at (p : positive) (c : wpa_config) : run wpa_ssid :=
  match nets c !! p with Some n => Ret n | None => UB UseAfterFree end.

Definition DEFAULT_PROTO : Z := 3.
Definition DEFAULT_PAIRWISE : Z := 24.
Definition DEFAULT_GROUP : Z := 30.
Definition DEFAULT_KEY_MGMT : Z := 3.
Definition DEFAULT_EAPOL_FLAGS : Z := 3.
Definition DEFAULT_EAP_WORKAROUND : Z := 2 ^ 32 - 1.
Definition DEFAULT_FRAGMENT_SIZE : Z := 1398.

Definition wpa_config_set_network_defaults (n : wpa_ssid) : wpa_ssid :=
  n <| n_proto := DEFAULT_PROTO |> <| n_pairwise_cipher := DEFAULT_PAIRWISE |> <| n_group_cipher := DEFAULT_GROUP |>
    <| n_key_mgmt := DEFAULT_KEY_MGMT |> <| n_eapol_flags := DEFAULT_EAPOL_FLAGS |>
    <| n_eap_workaround := DEFAULT_EAP_WORKAROUND |> <| n_fragment_size := DEFAULT_FRAGMENT_SIZE |>.

(** ** Priority lists *)

(** [config->pssid[prio]->priority] *)
Definition group_priority (c : wpa_config) (g : list positive) : run Z :=
  match g with
  | [] => UB NullDeref
  | p :: _ => n ← net_at p c; Ret (n_priority n)
  end.

(** The first loop: the list of the same priority, to whose end the network is
    linked. *)
Fixpoint append_to_group (c : wpa_config) (prio : Z) (p : positive) (groups : list (list positive))
  : run (option (list (list positive))) :=
  match groups with
  | [] => Ret None
  | g :: groups =>
      pr ← group_priority c g;
      if pr =? prio then Ret (Some ((g ++ [p]) :: groups))
      else r ← append_to_group c prio p groups; Ret (option_map (cons g) r)
  end.

(** The second loop and the move: a new list before the first of lower priority. *)
Fixpoint insert_group (c : wpa_config) (prio : Z) (p : positive) (groups : list (list positive))
  : run (list (list positive)) :=
  match groups with
  | [] => Ret [[p]]
  | g :: groups' =>
      pr ← group_priority c g;
      if pr <? prio then Ret ([p] :: groups)
      else r ← insert_group c prio p groups'; Ret (g :: r)
  end.

Definition wpa_config_add_prio_network (realloc_ok : bool) (p : positive) (c : wpa_config) : run (Z * wpa_config) :=
  n ← net_at p c;
  found ← append_to_group c (n_priority n) p (c_pssid c);
  match found with
  | Some groups => Ret (0, c <| c_pssid := groups |>)
  | None =>
      if negb realloc_ok then Ret (-1, c)
      else groups ← insert_group c (n_priority n) p (c_pssid c); Ret (0, c <| c_pssid := groups |>)
  end.

Fixpoint update_prio_loop (realloc_ok : nat → bool) (i : nat) (l : list positive) (ret : Z) (c : wpa_config)
  : run (Z * wpa_config) :=
  match l with
  | [] => Ret (ret, c)
  | p :: l =>
      x ← wpa_config_add_prio_network (realloc_ok i) p c;
      let '(r, c) := x in
      update_prio_loop realloc_ok (S i) l (if r <? 0 then -1 else ret) c
  end.
Definition wpa_config_update_prio_list (realloc_ok : nat → bool) (c : wpa_config) : run (Z * wpa_config) :=
  update_prio_loop realloc_ok 0 (c_ssid c) 0 (c <| c_pssid := [] |>).

(** ** Adding, finding and removing networks *)

Fixpoint find_network (test : wpa_ssid → bool) (l : list positive) (c : wpa_config) : run (option positive) :=
  match l with
  | [] => Ret None
  | p :: l => n ← net_at p c; if test n then Ret (Some p) else find_network test l c
  end.
Definition wpa_config_get_network (id : Z) (c : wpa_config) : run (option positive) :=
  find_network (λ n, n_id n =? id) (c_ssid c) c.

Fixpoint max_id (l : list positive) (id : Z) (c : wpa_config) : run Z :=
  match l with
  | [] => Ret id
  | p :: l => n ← net_at p c; max_id l (if id <? n_id n then n_id n else id) c
  end.

(** [zalloc]: the address of the new block, if there is one. *)
Definition wpa_config_add_network (zalloc : option positive) (realloc_ok : nat → bool) (c : wpa_config)
  : run (option positive * wpa_config) :=
  id ← max_id (c_ssid c) (-1) c;
  match zalloc with
  | None => Ret (None, c)
  | Some p =>
      let c := c <| nets := <[p := zero_ssid <| n_id := id + 1 |>]> (nets c) |> <| c_ssid := c_ssid c ++ [p] |> in
      x ← wpa_config_update_prio_list realloc_ok c;
      Ret (Some p, x.2)
  end.

Definition wpa_config_remove_network (realloc_ok : nat → bool) (id : Z) (c : wpa_config) : run (Z * wpa_config) :=
  found ← find_network (λ n, n_id n =? id) (c_ssid c) c;
  match found with
  | None => Ret (-1, c)
  | Some p =>
      let c := c <| c_ssid := List.filter (λ q, negb (bool_decide (q = p))) (c_ssid c) |> in
      x ← wpa_config_update_prio_list realloc_ok c;
      Ret (0, x.2 <| nets := delete p (nets x.2) |>)
  end.

(** [wpa_supplicant_enabled_networks] of scan.c. *)
Fixpoint count_enabled (l : list positive) (c : wpa_config) : run Z :=
  match l with
  | [] => Ret 0
  | p :: l => n ← net_at p c; k ← count_enabled l c; Ret (if n_disabled n then k else k + 1)
  end.
Definition wpa_supplicant_enabled_networks (c : wpa_config) : run Z := count_enabled (c_ssid c) c.

(** ** The blacklist *)

Record wpa_blacklist := WpaBlacklist { bl_bssid : list Z; bl_count : Z }.

Definition bl_is (a : list Z) (e : wpa_blacklist) : bool := memcmp (bl_bssid e) a =? 0.
Definition wpa_blacklist_get (l : list wpa_blacklist) (a : list Z) : option wpa_blacklist := List.find (bl_is a) l.

(** [e->count++] for the entry found. *)
Fixpoint bl_increment (l : list wpa_blacklist) (a : list Z) : list wpa_blacklist :=
  match l with
  | [] => []
  | e :: l => if bl_is a e then WpaBlacklist (bl_bssid e) (bl_count e + 1) :: l else e :: bl_increment l a
  end.
Definition wpa_blacklist_add (zalloc_ok : bool) (l : list wpa_blacklist) (a : list Z) : Z * list wpa_blacklist :=
  match wpa_blacklist_get l a with
  | Some e => (bl_count e + 1, bl_increment l a)
  | None => if zalloc_ok then (1, WpaBlacklist a 1 :: l) else (-1, l)
  end.

Fixpoint wpa_blacklist_del (l : list wpa_blacklist) (a : list Z) : Z * list wpa_blacklist :=
  match l with
  | [] => (-1, [])
  | e :: l => if bl_is a e then (0, l) else let '(r, l) := wpa_blacklist_del l a in (r, e :: l)
  end.

Definition wpa_blacklist_clear (l : list wpa_blacklist) : list wpa_blacklist := [].

(** ** Priority lists are exact *)

Definition prio_at (m : gmap positive wpa_ssid) (p : positive) : Z := from_option n_priority 0 (m !! p).
(** The networks of [l] with one priority, in the order of [l]. *)
Definition prio_class (m : gmap positive wpa_ssid) (l : list positive) (pr : Z) : list positive :=
  List.filter (λ p, prio_at m p =? pr) l.
Definition live (m : gmap positive wpa_ssid) (l : list positive) : Prop := Forall (λ p, is_Some (m !! p)) l.

(** The array of lists for the networks [l]: one list per priority that occurs, the
    highest first. *)
Definition prio_lists (m : gmap positive wpa_ssid) (l : list positive) (groups : list (list positive)) : Prop :=
  ∃ prs, groups = map (prio_class m l) prs ∧ StronglySorted Z.gt prs ∧
    (∀ x, x ∈ prs ↔ ∃ p, p ∈ l ∧ prio_at m p = x).

Lemma net_at_live p c : is_Some (nets c !! p) → ∃ n, net_at p c = Ret n ∧ nets c !! p = Some n.
Proof. intros [n Hn]. exists n. unfold net_at. by rewrite Hn. Qed.

Lemma prio_class_app m l k pr : prio_class m (l ++ k) pr = prio_class m l pr ++ prio_class m k pr.
Proof. unfold prio_class. apply List.filter_app. Qed.
Lemma prio_class_elem m l pr p : p ∈ prio_class m l pr ↔ p ∈ l ∧ prio_at m p = pr.
Proof. unfold prio_class. rewrite !list_elem_of_In, filter_In, Z.eqb_eq. done. Qed.
Lemma prio_class_new m l pr p : prio_at m p = pr → prio_class m (l ++ [p]) pr = prio_class m l pr ++ [p].
Proof. intros Hp. rewrite prio_class_app. f_equal. unfold prio_class. cbn [List.filter]. by rewrite Hp, Z.eqb_refl. Qed.
Lemma prio_class_other m l pr p : prio_at m p ≠ pr → prio_class m (l ++ [p]) pr = prio_class m l pr.
Proof.
  intros Hp. rewrite prio_class_app. unfold prio_class at 2. cbn [List.filter]. rewrite (proj2 (Z.eqb_neq _ _) Hp).
  apply app_nil_r.
Qed.
Lemma map_class_other m l prs p : prio_at m p ∉ prs → map (prio_class m (l ++ [p])) prs = map (prio_class m l) prs.
Proof.
  intros Hn. apply map_ext_in. intros x Hx. apply prio_class_other. intros <-. apply Hn. by apply list_elem_of_In.
Qed.

Lemma group_priority_class c l pr : live (nets c) l → (∃ p, p ∈ l ∧ prio_at (nets c) p = pr) →
  group_priority c (prio_class (nets c) l pr) = Ret pr.
Proof.
  intros Hl (p & Hp & Hpr). destruct (prio_class (nets c) l pr) as [|q g] eqn:E.
  { exfalso. apply (not_elem_of_nil p). rewrite <-E. by apply prio_class_elem. }
  assert (q ∈ prio_class (nets c) l pr) as Hq by (rewrite E; left). apply prio_class_elem in Hq as [Hq Hqp].
  cbn [group_priority]. destruct (net_at_live q c) as (n & -> & Hn); [by eapply Forall_forall in Hl|].
  cbn. f_equal. unfold prio_at in Hqp. by rewrite Hn in Hqp.
Qed.

Lemma append_class c l prs p : live (nets c) l → (∀ x, x ∈ prs → ∃ q, q ∈ l ∧ prio_at (nets c) q = x) → NoDup prs →
  append_to_group c (prio_at (nets c) p) p (map (prio_class (nets c) l) prs) =
    Ret (if decide (prio_at (nets c) p ∈ prs) then Some (map (prio_class (nets c) (l ++ [p])) prs) else None).
Proof.
  intros Hl Hc Hn. induction Hn as [|x prs Hx Hn IH]; [done|]. cbn [map append_to_group].
  rewrite group_priority_class by (done || apply Hc; left). cbn [mbind run_bind].
  destruct (Z.eqb_spec x (prio_at (nets c) p)) as [->|Hne].
  - rewrite decide_True by left. by rewrite prio_class_new, map_class_other.
  - rewrite IH by (intros; apply Hc; by right). cbn [mbind run_bind]. f_equal.
    destruct (decide (_ ∈ prs)) as [Hin|Hin].
    + rewrite decide_True by (by right). cbn. by rewrite prio_class_other by done.
    + rewrite decide_False; [done|]. by intros [?|?]%elem_of_cons.
Qed.

Fixpoint desc_insert (pr : Z) (prs : list Z) : list Z :=
  match prs with
  | [] => [pr]
  | x :: prs' => if x <? pr then pr :: prs else x :: desc_insert pr prs'
  end.
Lemma desc_insert_elem pr prs x : x ∈ desc_insert pr prs ↔ x = pr ∨ x ∈ prs.
Proof. induction prs as [|y prs IH]; cbn [desc_insert]; [set_solver|]. destruct (y <? pr); set_solver. Qed.
Lemma desc_insert_sorted pr prs : pr ∉ prs → StronglySorted Z.gt prs → StronglySorted Z.gt (desc_insert pr prs).
Proof.
  intros Hp. induction 1 as [|x prs Hs IH Hx]; cbn [desc_insert]; [repeat constructor|].
  destruct (Z.ltb_spec x pr).
  - constructor; [by constructor|]. constructor; [lia|]. eapply Forall_impl; [exact Hx|]. intros; cbn in *; lia.
  - constructor; [apply IH; set_solver|]. apply Forall_forall. intros y Hy. apply desc_insert_elem in Hy as [->|Hy].
    + assert (x ≠ pr) by set_solver. lia.
    + by eapply Forall_forall in Hx.
Qed.

Lemma insert_class c l prs p : live (nets c) l → (∀ x, x ∈ prs → ∃ q, q ∈ l ∧ prio_at (nets c) q = x) →
  prio_at (nets c) p ∉ prs → prio_class (nets c) l (prio_at (nets c) p) = [] →
  insert_group c (prio_at (nets c) p) p (map (prio_class (nets c) l) prs) =
    Ret (map (prio_class (nets c) (l ++ [p])) (desc_insert (prio_at (nets c) p) prs)).
Proof.
  intros Hl Hc Hn He. assert (Hnew : prio_class (nets c) (l ++ [p]) (prio_at (nets c) p) = [p])
    by (by rewrite prio_class_new, He).
  induction prs as [|x prs IH]; cbn [map insert_group desc_insert]; [by rewrite Hnew|].
  rewrite group_priority_class by (done || apply Hc; left). cbn [mbind run_bind].
  destruct (x <? prio_at (nets c) p).
  - cbn [map]. rewrite Hnew, prio_class_other, map_class_other by set_solver. done.
  - rewrite IH; [|set_solver..]. cbn. by rewrite prio_class_other by set_solver.
Qed.

Lemma sorted_gt_nodup prs : StronglySorted Z.gt prs → NoDup prs.
Proof.
  induction 1 as [|x prs Hs IH Hx]; constructor; [|done]. intros Hin. eapply Forall_forall in Hx; [|exact Hin]. lia.
Qed.

Lemma add_prio_exact c l p : live (nets c) (l ++ [p]) → prio_lists (nets c) l (c_pssid c) →
  ∃ groups, wpa_config_add_prio_network true p c = Ret (0, c <| c_pssid := groups |>) ∧
    prio_lists (nets c) (l ++ [p]) groups.
Proof.
  intros Hlp (prs & Hg & Hs & Hc). apply Forall_app in Hlp as [Hl Hp]. apply Forall_inv in Hp. fold (live (nets c) l) in Hl.
  unfold wpa_config_add_prio_network. destruct (net_at_live p c Hp) as (n & -> & Hn). cbn [mbind run_bind negb].
  assert (n_priority n = prio_at (nets c) p) as -> by (unfold prio_at; by rewrite Hn).
  rewrite Hg, append_class by (naive_solver || by apply sorted_gt_nodup). cbn [mbind run_bind].
  set (pr := prio_at (nets c) p) in *.
  destruct (decide (pr ∈ prs)) as [Hin|Hin].
  - eexists. split; [done|]. exists prs. split; [done|]. split; [done|]. intros x. rewrite Hc.
    split; [intros (q & ? & ?); exists q; set_solver|]. intros (q & [Hq|Hq%list_elem_of_singleton]%elem_of_app & <-); [eauto|]. subst q. by apply Hc.
  - unfold pr. rewrite insert_class; [|done|naive_solver|done|]; fold pr.
    2:{ destruct (prio_class (nets c) l pr) as [|q g] eqn:E; [done|]. destruct Hin. apply Hc. exists q. apply prio_class_elem. rewrite E. left. }
    cbn. eexists. split; [done|]. exists (desc_insert pr prs). split; [done|]. split; [by apply desc_insert_sorted|].
    intros x. rewrite desc_insert_elem, Hc. split.
    + intros [->|(q & ? & ?)]; [exists p; set_solver|exists q; set_solver].
    + intros (q & [Hq|Hq%list_elem_of_singleton]%elem_of_app & <-); [right; eauto|subst q; by left].
Qed.

Lemma update_loop_exact l2 : ∀ i c l1, live (nets c) (l1 ++ l2) → prio_lists (nets c) l1 (c_pssid c) →
  ∃ groups, update_prio_loop (λ _, true) i l2 0 c = Ret (0, c <| c_pssid := groups |>) ∧
    prio_lists (nets c) (l1 ++ l2) groups.
Proof.
  induction l2 as [|p l2 IH]; intros i c l1 Hl Hp.
  { exists (c_pssid c). rewrite app_nil_r. split; [by destruct c|done]. }
  cbn [update_prio_loop]. replace (l1 ++ p :: l2) with ((l1 ++ [p]) ++ l2) in * by (by rewrite <-app_assoc).
  destruct (add_prio_exact c l1 p) as (g & -> & Hg); [by apply Forall_app in Hl as []|done|]. cbn [mbind run_bind Z.ltb Z.compare].
  destruct (IH (S i) (c <| c_pssid := g |>) (l1 ++ [p])) as (g' & -> & Hg'); [done|done|]. by exists g'.
Qed.

(** The lists hold exactly the networks. *)
Lemma classes_perm m l prs : NoDup prs → (∀ p, p ∈ l → prio_at m p ∈ prs) → concat (map (prio_class m l) prs) ≡ₚ l.
Proof.
  intros Hn. induction l as [|p l IH]; intros Hin.
  - clear. induction prs as [|x prs IH]; [done|]. exact IH.
  - assert (Hp : prio_at m p ∈ prs) by (apply Hin; left). rewrite <-IH at 2 by (intros; apply Hin; by right). clear IH Hin.
    induction Hn as [|x prs Hx Hn IH]; [set_solver|]. cbn [map concat]. unfold prio_class at 1. cbn [List.filter].
    destruct (Z.eqb_spec (prio_at m p) x) as [Heq|Hne].
    + cbn [app]. constructor. apply Permutation_app_head. erewrite map_ext_in; [done|]. intros y Hy%list_elem_of_In.
      unfold prio_class. cbn [List.filter]. rewrite (proj2 (Z.eqb_neq (prio_at m p) y)); [done|]. congruence.
    + rewrite IH by set_solver. fold (prio_class m l x). by rewrite Permutation_middle.
Qed.
Lemma prio_lists_perm m l groups : prio_lists m l groups → concat groups ≡ₚ l.
Proof. intros (prs & -> & Hs & Hc). apply classes_perm; [by apply sorted_gt_nodup|]. intros p Hp. apply Hc. eauto. Qed.

(** ** The configuration stays consistent *)

Definition groups_ok (l : list positive) (groups : list (list positive)) : Prop :=
  Forall (λ g, g ≠ [] ∧ Forall (.∈ l) g) groups.

(** Every block is in the list once, identifiers are distinct, and the priority lists
    hold only networks of the configuration. *)
Record config_ok (c : wpa_config) : Prop := ConfigOk {
  cfg_nodup : NoDup (c_ssid c);
  cfg_dom : ∀ p, p ∈ c_ssid c ↔ is_Some (nets c !! p);
  cfg_ids : ∀ p q n n', nets c !! p = Some n → nets c !! q = Some n' → n_id n = n_id n' → p = q;
  cfg_groups : groups_ok (c_ssid c) (c_pssid c)
}.

Lemma config_live c : (∀ p, p ∈ c_ssid c ↔ is_Some (nets c !! p)) → live (nets c) (c_ssid c).
Proof. intros H. apply Forall_forall. intros p Hp. by apply H. Qed.

Lemma group_priority_safe c l g : live (nets c) l → g ≠ [] → Forall (.∈ l) g → ∃ pr, group_priority c g = Ret pr.
Proof.
  intros Hl Hg Hin. destruct Hin as [|p g Hp Hin]; [done|]. cbn [group_priority].
  destruct (net_at_live p c) as (n & -> & _); [by eapply Forall_forall in Hl|]. by eexists.
Qed.

Lemma append_safe c l pr p groups : live (nets c) l → p ∈ l → groups_ok l groups →
  ∃ r, append_to_group c pr p groups = Ret r ∧ ∀ gs, r = Some gs → groups_ok l gs.
Proof.
  intros Hl Hp. induction 1 as [|g groups [Hg Hin] Hgs IH]; [by exists None|]. cbn [append_to_group].
  destruct (group_priority_safe c l g) as [x ->]; [done..|]. cbn [mbind run_bind]. destruct (x =? pr).
  - eexists. split; [done|]. intros gs [= <-]. constructor; [|done]. split; [by destruct g|].
    apply Forall_app. split; [done|]. by constructor.
  - destruct IH as ([r|] & -> & Hr); cbn; eexists; (split; [done|]); intros gs [= <-]. constructor; [done|]. by apply Hr.
Qed.
Lemma insert_safe c l pr p groups : live (nets c) l → p ∈ l → groups_ok l groups →
  ∃ gs, insert_group c pr p groups = Ret gs ∧ groups_ok l gs.
Proof.
  intros Hl Hp. assert (Hnew : [p] ≠ [] ∧ Forall (.∈ l) [p]) by (split; [done|by repeat constructor]).
  induction 1 as [|g groups [Hg Hin] Hgs IH]; [by exists [[p]]; split; [|repeat constructor]|]. cbn [insert_group].
  destruct (group_priority_safe c l g) as [x ->]; [done..|]. cbn [mbind run_bind]. destruct (x <? pr).
  - eexists. split; [done|]. by repeat constructor.
  - destruct IH as (gs & -> & Hr). cbn. eexists. split; [done|]. by constructor.
Qed.

Lemma update_loop_safe ok l : ∀ k, sublist k l → ∀ i ret c, live (nets c) l → groups_ok l (c_pssid c) →
  ∃ r groups, update_prio_loop ok i k ret c = Ret (r, c <| c_pssid := groups |>) ∧ groups_ok l groups.
Proof.
  induction k as [|p k IH]; intros Hk i ret c Hl Hg; [exists ret, (c_pssid c); by destruct c|]. cbn [update_prio_loop].
  assert (Hp : p ∈ l) by (eapply elem_of_sublist; [left|exact Hk]).
  assert (Hk' : sublist k l) by (etrans; [|exact Hk]; by constructor).
  unfold wpa_config_add_prio_network. destruct (net_at_live p c) as (n & -> & _); [by eapply Forall_forall in Hl|]. cbn [mbind run_bind].
  destruct (append_safe c l (n_priority n) p (c_pssid c)) as ([gs|] & -> & Hr); [done..| |]; cbn [mbind run_bind].
  { destruct (IH Hk' (S i) (if 0 <? 0 then -1 else ret) (c <| c_pssid := gs |>)) as (r & g & -> & ?); [done|by apply Hr|]. by exists r, g. }
  destruct (ok i); cbn [negb].
  - destruct (insert_safe c l (n_priority n) p (c_pssid c)) as (gs & -> & Hgs); [done..|]. cbn [mbind run_bind].
    destruct (IH Hk' (S i) (if 0 <? 0 then -1 else ret) (c <| c_pssid := gs |>)) as (r & g & -> & ?); [done..|]. by exists r, g.
  - cbn [mbind run_bind]. destruct (IH Hk' (S i) (if -1 <? 0 then -1 else ret) c) as (r & g & -> & ?); [done..|]. by exists r, g.
Qed.

Lemma update_prio_safe ok c : live (nets c) (c_ssid c) →
  ∃ r groups, wpa_config_update_prio_list ok c = Ret (r, c <| c_pssid := groups |>) ∧ groups_ok (c_ssid c) groups.
Proof.
  intros Hl. unfold wpa_config_update_prio_list.
  destruct (update_loop_safe ok (c_ssid c) (c_ssid c) ltac:(done) 0 0 (c <| c_pssid := [] |>)) as (r & g & E & Hg); [done|constructor|].
  exists r, g. rewrite E. by split.
Qed.

(** Operations on the configuration: [EditNet] stands for the setters of fields. *)
Inductive config_op :=
| AddNet (zalloc : gmap positive wpa_ssid → option positive) (realloc_ok : nat → bool)
| RemoveNet (realloc_ok : nat → bool) (id : Z)
| EditNet (p : positive) (f : wpa_ssid → wpa_ssid)
| UpdatePrio (realloc_ok : nat → bool).

Definition run_config_op (c : wpa_config) (op : config_op) : run wpa_config :=
  match op with
  | AddNet zalloc ok => x ← wpa_config_add_network (zalloc (nets c)) ok c; Ret x.2
  | RemoveNet ok id => x ← wpa_config_remove_network ok id c; Ret x.2
  | EditNet p f => Ret (c <| nets := alter f p (nets c) |>)
  | UpdatePrio ok => x ← wpa_config_update_prio_list ok c; Ret x.2
  end.
Fixpoint run_config_ops (c : wpa_config) (ops : list config_op) : run wpa_config :=
  match ops with [] => Ret c | op :: ops => c ← run_config_op c op; run_config_ops c ops end.

(** An allocator returns unused memory, a setter keeps the identifier. *)
Definition config_op_ok (op : config_op) : Prop :=
  match op with
  | AddNet zalloc _ => ∀ m p, zalloc m = Some p → m !! p = None
  | EditNet _ f => ∀ n, n_id (f n) = n_id n
  | _ => True
  end.

Lemma max_id_spec l : ∀ id c, live (nets c) l →
  ∃ r, max_id l id c = Ret r ∧ id ≤ r ∧ ∀ p n, p ∈ l → nets c !! p = Some n → n_id n ≤ r.
Proof.
  induction l as [|q l IH]; intros id c Hl; [exists id; split_and!; [done|lia|set_solver]|]. apply Forall_cons in Hl as [Hq Hl].
  cbn [max_id]. destruct (net_at_live q c Hq) as (n & -> & Hn). cbn [mbind run_bind].
  destruct (IH (if id <? n_id n then n_id n else id) c Hl) as (r & -> & Hr & Hall). exists r. split; [done|].
  destruct (Z.ltb_spec id (n_id n)); (split; [lia|]); intros p n' [->|Hp]%elem_of_cons Hp'; simplify_eq; eauto; lia.
Qed.

Lemma find_network_spec test l : ∀ c, live (nets c) l →
  ∃ r, find_network test l c = Ret r ∧
    match r with
    | Some p => ∃ n, p ∈ l ∧ nets c !! p = Some n ∧ test n = true
    | None => ∀ p n, p ∈ l → nets c !! p = Some n → test n = false
    end.
Proof.
  induction l as [|q l IH]; intros c Hl; [exists None; split; [done|set_solver]|]. apply Forall_cons in Hl as [Hq Hl].
  cbn [find_network]. destruct (net_at_live q c Hq) as (n & -> & Hn). cbn [mbind run_bind].
  destruct (test n) eqn:Ht; [exists (Some q); split; [done|]; exists n; set_solver|].
  destruct (IH c Hl) as (r & -> & Hr). exists r. split; [done|]. destruct r as [p|].
  - destruct Hr as (m & ? & ? & ?). exists m. set_solver.
  - intros p m [->|Hp]%elem_of_cons Hm; [by simplify_eq|eauto].
Qed.

Lemma add_network_ok zalloc ok c : config_ok c → (∀ p, zalloc = Some p → nets c !! p = None) →
  ∃ c', wpa_config_add_network zalloc ok c = Ret (zalloc, c') ∧ config_ok c'.
Proof.
  intros [Hn Hd Hi Hg] Hz. unfold wpa_config_add_network.
  destruct (max_id_spec (c_ssid c) (-1) c (config_live c Hd)) as (i & -> & _ & Hmax). cbn [mbind run_bind].
  destruct zalloc as [p|]; [|by exists c]. specialize (Hz p eq_refl).
  set (c1 := c <| nets := _ |> <| c_ssid := _ |>).
  assert (Hd1 : ∀ q, q ∈ c_ssid c1 ↔ is_Some (nets c1 !! q)).
  { intros q. cbn. rewrite elem_of_app, list_elem_of_singleton, Hd. destruct (decide (q = p)) as [->|Hne].
    - rewrite lookup_insert_eq. naive_solver.
    - rewrite lookup_insert_ne by done. naive_solver. }
  destruct (update_prio_safe ok c1 (config_live c1 Hd1)) as (r & g & -> & Hg1). cbn [mbind run_bind]. eexists. split; [done|].
  split; cbn; [|exact Hd1| |exact Hg1].
  - apply NoDup_app. split; [done|]. split; [|apply NoDup_singleton]. intros q Hq ->%list_elem_of_singleton.
    apply Hd in Hq as [? Hq]. congruence.
  - intros q q' n n'. destruct (decide (q = p)) as [->|Hq], (decide (q' = p)) as [->|Hq']; [done|..];
      rewrite ?lookup_insert_eq, ?lookup_insert_ne by done; [intros [= <-] H2|intros H1 [= <-]|]; cbn; [..|by apply Hi].
    + specialize (Hmax q' n' ltac:(apply Hd; eauto) H2). lia.
    + specialize (Hmax q n ltac:(apply Hd; eauto) H1). lia.
Qed.

Lemma remove_network_ok ok id c : config_ok c →
  ∃ r c', wpa_config_remove_network ok id c = Ret (r, c') ∧ config_ok c' ∧
    (r = 0 → ∀ p n, nets c' !! p = Some n → n_id n ≠ id) ∧ (r ≠ 0 → c' = c).
Proof.
  intros [Hn Hd Hi Hg]. unfold wpa_config_remove_network.
  destruct (find_network_spec (λ n, n_id n =? id) (c_ssid c) c (config_live c Hd)) as (r & -> & Hr). cbn [mbind run_bind].
  destruct r as [p|]; [|by exists (-1), c]. destruct Hr as (n & Hp & Hpn & Hid). apply Z.eqb_eq in Hid.
  set (c1 := c <| c_ssid := _ |>).
  assert (H1 : ∀ q, q ∈ c_ssid c1 ↔ q ∈ c_ssid c ∧ q ≠ p).
  { intros q. cbn. rewrite !list_elem_of_In, filter_In, negb_true_iff, bool_decide_eq_false. done. }
  assert (Hl : live (nets c1) (c_ssid c1)) by (apply Forall_forall; intros q [Hq _]%H1; by apply Hd).
  destruct (update_prio_safe ok c1 Hl) as (r & g & -> & Hg1). cbn [mbind run_bind]. eexists 0, _. split; [done|]. split; [split|split].
  - cbn. apply NoDup_ListNoDup, List.NoDup_filter, NoDup_ListNoDup. done.
  - intros q. change (q ∈ c_ssid c1 ↔ is_Some (delete p (nets c) !! q)). rewrite H1, Hd. destruct (decide (q = p)) as [->|Hne].
    + rewrite lookup_delete_eq. split; [by intros []|by intros []].
    + rewrite lookup_delete_ne by done. naive_solver.
  - cbn. intros q q' m m' [_ H2]%lookup_delete_Some [_ H3]%lookup_delete_Some. by apply Hi.
  - exact Hg1.
  - cbn. intros _ q m [Hne Hq]%lookup_delete_Some E. apply Hne. eapply (Hi p q); eauto. congruence.
  - done.
Qed.

Lemma edit_network_ok p f c : config_ok c → (∀ n, n_id (f n) = n_id n) → config_ok (c <| nets := alter f p (nets c) |>).
Proof.
  intros [Hn Hd Hi Hg] Hf. split; cbn; [done| | |done].
  - intros q. rewrite Hd. destruct (decide (q = p)) as [->|Hne].
    + rewrite lookup_alter_eq. destruct (nets c !! p); cbn; split; intros [? ?]; try done; eauto.
    + by rewrite lookup_alter_ne.
  - assert (Ha : ∀ q n, alter f p (nets c) !! q = Some n → ∃ n0, nets c !! q = Some n0 ∧ n_id n = n_id n0).
    { intros q n [(-> & x & Hx & ->)|[_ H]]%lookup_alter_Some; eauto. }
    intros q q' n n' (n0 & H0 & E0)%Ha (n1 & H1 & E1)%Ha E. eapply Hi; [exact H0|exact H1|congruence].
Qed.

Lemma config_op_preserves op c : config_ok c → config_op_ok op → ∃ c', run_config_op c op = Ret c' ∧ config_ok c'.
Proof.
  intros Hc Hop. destruct op as [zalloc ok|ok id|p f|ok]; cbn [run_config_op config_op_ok] in *.
  - destruct (add_network_ok (zalloc (nets c)) ok c Hc) as (c' & -> & H); [intros; by apply Hop|]. by exists c'.
  - destruct (remove_network_ok ok id c Hc) as (r & c' & -> & H & _). by exists c'.
  - eexists. split; [done|]. by apply edit_network_ok.
  - destruct Hc as [Hn Hd Hi Hg]. destruct (update_prio_safe ok c (config_live c Hd)) as (r & g & -> & H). eexists. by split.
Qed.

Definition empty_config (ap_scan : Z) : wpa_config := WpaConfig [] [] ∅ ap_scan.

Lemma config_ops_ok ops : ∀ c, config_ok c → Forall config_op_ok ops → ∃ c', run_config_ops c ops = Ret c' ∧ config_ok c'.
Proof.
  induction ops as [|op ops IH]; intros c Hc Ho; [by exists c|]. apply Forall_cons in Ho as [Hop Ho]. cbn [run_config_ops].
  destruct (config_op_preserves op c Hc Hop) as (c1 & -> & H1). cbn [mbind run_bind]. by apply IH.
Qed.
Lemma empty_config_ok ap : config_ok (empty_config ap).
Proof.
  split; cbn; [constructor| |done|constructor]. intros p. rewrite lookup_empty. split; [set_solver|by intros []].
Qed.

(** C28: whatever networks are added, removed, edited and reprioritised, and whichever
    allocations fail, the configuration stays consistent (each block linked once,
    distinct identifiers, priority lists of live blocks only), and rebuilding the
    priority lists gives exactly one list per priority that occurs, the highest
    priority first, each with the networks of that priority in configuration order. *)
Theorem config_priority_lists ops ap :
  Forall config_op_ok ops →
  ∃ c c', run_config_ops (empty_config ap) ops = Ret c ∧ config_ok c ∧
    wpa_config_update_prio_list (λ _, true) c = Ret (0, c') ∧ config_ok c' ∧ nets c' = nets c ∧ c_ssid c' = c_ssid c ∧
    prio_lists (nets c) (c_ssid c) (c_pssid c') ∧ concat (c_pssid c') ≡ₚ c_ssid c.
Proof.
  intros Ho. destruct (config_ops_ok ops _ (empty_config_ok ap) Ho) as (c & -> & Hc). exists c.
  pose proof (config_live c (cfg_dom c Hc)) as Hl.
  destruct (update_loop_exact (c_ssid c) 0 (c <| c_pssid := [] |>) []) as (g & E & Hg).
  { exact Hl. } { exists []. split; [done|]. split; [constructor|]. intros x. split; [set_solver|]. intros (p & Hp & _). set_solver. }
  exists (c <| c_pssid := g |>). split; [done|]. split; [done|]. split; [exact E|].
  destruct (update_prio_safe (λ _, true) c Hl) as (r & g' & E' & Hg'). unfold wpa_config_update_prio_list in E'. rewrite E in E'.
  injection E' as _ <-. split; [destruct Hc; by split|]. split; [done|]. split; [done|]. split; [exact Hg|]. cbn.
  by apply prio_lists_perm with (nets c).
Qed.

Lemma config_priority_lists_witness :
  let ops := [AddNet (λ m, if decide (m !! 1%positive = None) then Some 1%positive else None) (λ _, true);
              AddNet (λ m, if decide (m !! 2%positive = None) then Some 2%positive else None) (λ _, true);
              EditNet 2 (λ n, n <| n_priority := 5 |>)] in
  ∃ c c', run_config_ops (empty_config 1) ops = Ret c ∧ config_ok c ∧
    wpa_config_update_prio_list (λ _, true) c = Ret (0, c') ∧ config_ok c' ∧ nets c' = nets c ∧ c_ssid c' = c_ssid c ∧
    prio_lists (nets c) (c_ssid c) (c_pssid c') ∧ concat (c_pssid c') ≡ₚ c_ssid c.
Proof.
  apply (config_priority_lists _ 1).
  apply Forall_cons; split; [|apply Forall_cons; split; [|apply Forall_cons; split; [|constructor]]]; cbn.
  - intros m p H. destruct (decide (m !! 1%positive = None)) as [Hm|Hm]; [|discriminate H]. injection H as <-. exact Hm.
  - intros m p H. destruct (decide (m !! 2%positive = None)) as [Hm|Hm]; [|discriminate H]. injection H as <-. exact Hm.
  - intros n. reflexivity.
Defined.

(** ** The blacklist counts failures *)

Definition bl_ok (l : list wpa_blacklist) : Prop :=
  NoDup (map bl_bssid l) ∧ Forall (λ e, length (bl_bssid e) = 6%nat ∧ 1 ≤ bl_count e) l.
Definition failures (l : list wpa_blacklist) (a : list Z) : Z := from_option bl_count 0 (wpa_blacklist_get l a).

Lemma bl_is_eq a e : length (bl_bssid e) = 6%nat → length a = 6%nat → bl_is a e = bool_decide (bl_bssid e = a).
Proof.
  intros He Ha. unfold bl_is. destruct (Z.eqb_spec (memcmp (bl_bssid e) a) 0) as [H|H].
  - symmetry. apply bool_decide_eq_true. apply memcmp_eq; congruence.
  - symmetry. apply bool_decide_eq_false. intros <-. by rewrite memcmp_refl in H.
Qed.

Lemma bl_increment_keys l a : map bl_bssid (bl_increment l a) = map bl_bssid l.
Proof. induction l as [|e l IH]; [done|]. cbn [bl_increment]. destruct (bl_is a e); cbn; congruence. Qed.

Lemma failures_increment l a b e : bl_ok l → length a = 6%nat → length b = 6%nat → wpa_blacklist_get l a = Some e →
  failures (bl_increment l a) b = if bool_decide (b = a) then bl_count e + 1 else failures l b.
Proof.
  intros [_ Hf] Ha Hb. unfold failures, wpa_blacklist_get. induction Hf as [|x l [Hx _] Hf IH]; [done|]. cbn [List.find bl_increment].
  rewrite (bl_is_eq a) by done. destruct (bool_decide (bl_bssid x = a)) eqn:Hxa; [apply bool_decide_eq_true in Hxa|apply bool_decide_eq_false in Hxa].
  - intros [= ->]. cbn [List.find]. rewrite !bl_is_eq by done. cbn [bl_bssid].
    destruct (decide (b = a)) as [->|Hne].
    + rewrite (bool_decide_true (bl_bssid e = a)) by done. by rewrite bool_decide_true by done.
    + rewrite (bool_decide_false (bl_bssid e = b)) by congruence. by rewrite bool_decide_false by done.
  - intros Hg. cbn [List.find]. rewrite (bl_is_eq b) by done. destruct (decide (bl_bssid x = b)) as [Hxb|Hxb].
    + rewrite (bool_decide_true (bl_bssid x = b)) by done. by rewrite bool_decide_false by congruence.
    + rewrite (bool_decide_false (bl_bssid x = b)) by done. by apply IH.
Qed.

(** Adding counts a failure of that address only; deleting and clearing forget. *)
Lemma blacklist_add_counts zok l a : bl_ok l → length a = 6%nat →
  let '(r, l') := wpa_blacklist_add zok l a in
  bl_ok l' ∧ (r = -1 ∧ l' = l ∧ zok = false ∧ failures l a = 0 ∨
    r = failures l a + 1 ∧ ∀ b, length b = 6%nat → failures l' b = if bool_decide (b = a) then r else failures l b).
Proof.
  intros Hl Ha. unfold wpa_blacklist_add. destruct (wpa_blacklist_get l a) as [e|] eqn:Hg.
  - split.
    + destruct Hl as [Hn Hf]. split; [by rewrite bl_increment_keys|]. clear Hg Hn. induction Hf as [|x l Hx Hf IH]; [constructor|].
      cbn [bl_increment]. destruct (bl_is a x); constructor; cbn; try done. lia.
    + right. unfold failures at 1. rewrite Hg. split; [done|]. intros b Hb. by apply failures_increment.
  - assert (Hno : ∀ e, e ∈ l → bl_bssid e ≠ a).
    { intros e He <-. pose proof (find_none _ _ Hg e (proj1 (list_elem_of_In _ _) He)) as H. unfold bl_is in H. by rewrite memcmp_refl in H. }
    assert (Hz : failures l a = 0) by (unfold failures; by rewrite Hg).
    destruct zok; split; [|right|done|left].
    + destruct Hl as [Hn Hf]. split; cbn; [|by constructor]. constructor; [|done]. intros (e & -> & He)%list_elem_of_fmap. by apply (Hno e).
    + split; [by rewrite Hz|]. intros b Hb. unfold failures at 1, wpa_blacklist_get. cbn [List.find]. rewrite bl_is_eq by done. cbn [bl_bssid].
      destruct (decide (b = a)) as [->|Hne]; [by rewrite bool_decide_true by done|]. rewrite (bool_decide_false (a = b)) by congruence. by rewrite bool_decide_false by done.
    + done.
Qed.

Lemma blacklist_del_counts l a : bl_ok l → length a = 6%nat →
  let '(r, l') := wpa_blacklist_del l a in
  bl_ok l' ∧ (r = 0 ↔ failures l a ≠ 0) ∧
  ∀ b, length b = 6%nat → failures l' b = if bool_decide (b = a) then 0 else failures l b.
Proof.
  intros [Hn Hf] Ha. induction Hf as [|x l [Hx Hc] Hf IH].
  { cbn. split; [by split|]. split; [done|]. intros b _. by destruct (bool_decide _). }
  cbn [map] in Hn. apply NoDup_cons in Hn as [Hxl Hn]. specialize (IH Hn). cbn [wpa_blacklist_del].
  rewrite (bl_is_eq a) by done. case_bool_decide as Hxa.
  - split; [by split|]. assert (Hno : failures l a = 0).
    { unfold failures. destruct (wpa_blacklist_get l a) as [e|] eqn:He; [|done]. exfalso. apply Hxl. rewrite Hxa.
      pose proof (find_some _ _ He) as [Hin Hia]. apply list_elem_of_fmap. exists e. split; [|by apply list_elem_of_In].
      symmetry. apply memcmp_eq; [|by apply Z.eqb_eq]. apply list_elem_of_In in Hin. eapply Forall_forall in Hf as [? _]; [|exact Hin]. lia. }
    split.
    + unfold failures, wpa_blacklist_get. cbn [List.find]. rewrite bl_is_eq, bool_decide_true by done. cbn. split; [lia|done].
    + intros b Hb. unfold failures at 2, wpa_blacklist_get. cbn [List.find]. rewrite bl_is_eq by done.
      destruct (decide (b = a)) as [->|Hne]; [by rewrite (bool_decide_true (a = a))|].
      rewrite (bool_decide_false (b = a)), bool_decide_false by congruence. done.
  - destruct (wpa_blacklist_del l a) as [r l'] eqn:Hd. destruct IH as (Hok & Hr & Hb). split; [|split].
    + destruct Hok as [Hn' Hf']. split; cbn; [|by constructor]. constructor; [|done]. intros Hin. apply Hxl.
      clear -Hd Hin. revert r l' Hd Hin. induction l as [|y l IH]; intros r l' Hd Hin; cbn in Hd; [injection Hd as <- <-; done|].
      destruct (bl_is a y); [injection Hd as <- <-; by right|]. destruct (wpa_blacklist_del l a) as [r0 l0]. injection Hd as <- <-.
      cbn in Hin. apply elem_of_cons in Hin as [->|Hin]; [by left|right]. by eapply IH.
    + unfold failures, wpa_blacklist_get. cbn [List.find]. rewrite bl_is_eq, bool_decide_false by done. exact Hr.
    + intros b Hb'. unfold failures, wpa_blacklist_get. cbn [List.find]. rewrite !bl_is_eq by done.
      case_bool_decide as Hxb; [|by apply Hb]. rewrite bool_decide_false by congruence. done.
Qed.
