(* ===== verification/Select.v ===== *)
(** * Selection of a network from scan results (src/wpa_supplicant/events.c)

    After a scan, the supplicant looks for the best pair of an access point in the
    results and a network of the configuration: the matching rules of events.c, the
    order of scan.c, the blacklist, the decision to roam, and the reaction to a failed
    connection (wpa_supplicant.c).  The BSS table is that of Bss, the configuration
    that of Network, elements are parsed by RsnIe.  Modelled is the build with
    IEEE8021X_EAPOL and without CONFIG_WPS, CONFIG_P2P, CONFIG_AP, CONFIG_BGSCAN,
    CONFIG_IEEE80211W and PCSC_FUNCS, with CONFIG_NO_RANDOM_POOL.  The association itself and scheduled scans are
    requests recorded in the log. *)

From stdpp Require Import sorting.
From S2P Require Import Prelude WpaSm WpaIe RsnIe Ies Eloop Bss Network.

(** ** Data *)

(** [struct hostapd_hw_modes]: the mode, the frequencies of its channels, its rates in
    units of 100 kbps, [mcs_set[0]] and the flags. *)
Record hostapd_hw_modes := HwMode {
  hm_mode : Z; hm_channels : list Z; hm_rates : list Z; hm_mcs0 : Z; hm_flags : Z
}.

Inductive sup_event :=
| EvAssociate (selected : option positive) (ssid : positive)
| EvSchedScan | EvPreauthScanResults | EvScanResHandler
| EvScanning (on : bool) | EvScanResults | EvScanDone (ok : bool)
| EvOperState (up : bool) | EvStateChanged (new old : Z) | EvAuthChanged.

(** The part of [struct wpa_supplicant] that selection uses; [scan_timer] is the
    pending timeout of [wpa_supplicant_scan]. *)
Record wpa_supplicant := WpaSupplicant {
  conf : wpa_config; blacklist : list wpa_blacklist; blacklist_cleared : Z; table : bss_sys;
  hw_modes : option (list hostapd_hw_modes); drv_flags : Z;
  wpa_state : Z; new_connection : bool; reassociated_connection : bool;
  reassociate : bool; disconnected : bool; current_ssid : option positive;
  scan_interval : Z; scanning : bool; scan_timer : option (Z * Z); next_scan_freqs : option (list Z);
  scan_res_handler : bool; sup_log : list sup_event
}.

#[global] Instance eta_wpa_supplicant : Eta wpa_supplicant := λ w,
  WpaSupplicant (conf w) (blacklist w) (blacklist_cleared w) (table w) (hw_modes w) (drv_flags w) (wpa_state w)
    (new_connection w) (reassociated_connection w) (reassociate w) (disconnected w) (current_ssid w)
    (scan_interval w) (scanning w) (scan_timer w) (next_scan_freqs w) (scan_res_handler w) (sup_log w).

Definition WPA_KEY_MGMT_NONE : Z := 4.
Definition WPA_KEY_MGMT_IEEE8021X_NO_WPA : Z := 8.
Definition WPA_KEY_MGMT_WPS : Z := 0x200.
Definition EAPOL_FLAG_REQUIRE_KEY_UNICAST : Z := 1.
Definition EAPOL_FLAG_REQUIRE_KEY_BROADCAST : Z := 2.
Definition HOSTAPD_MODE_IEEE80211G : Z := 1.
Definition HOSTAPD_MODE_FLAG_HT_INFO_KNOWN : Z := 1.
Definition BSS_MEMBERSHIP_SELECTOR_HT_PHY : Z := 127.
Definition WPA_DRIVER_FLAGS_BSS_SELECTION : Z := 0x00040000.
Definition IEEE80211_MODE_IBSS : Z := 1.
Definition IEEE80211_MODE_AP : Z := 2.

(** [enum wpa_states] *)
Definition WPA_DISCONNECTED : Z := 0.
Definition WPA_INTERFACE_DISABLED : Z := 1.
Definition WPA_INACTIVE : Z := 2.
Definition WPA_SCANNING : Z := 3.
Definition WPA_AUTHENTICATING : Z := 4.
Definition WPA_ASSOCIATING : Z := 5.
Definition WPA_ASSOCIATED : Z := 6.
Definition WPA_COMPLETED : Z := 9.

Definition wpa_key_mgmt_wpa (akm : Z) : bool := wpa_key_mgmt_wpa_ieee8021x akm || wpa_key_mgmt_wpa_psk akm.

(** ** Matching one network block and one scan result *)

Definition wpa_supplicant_match_privacy (r : wpa_scan_res) (n : wpa_ssid) : bool :=
  if n_mixed_cell n then true
  else
    let privacy := existsb (λ l, negb (l =? 0)) (n_wep_key_len n) in
    let privacy := if has (n_key_mgmt n) WPA_KEY_MGMT_IEEE8021X_NO_WPA &&
                      has (n_eapol_flags n) (Z.lor EAPOL_FLAG_REQUIRE_KEY_UNICAST EAPOL_FLAG_REQUIRE_KEY_BROADCAST)
                   then true else privacy in
    let privacy := if wpa_key_mgmt_wpa (n_key_mgmt n) then true else privacy in
    if has (r_caps r) IEEE80211_CAP_PRIVACY then privacy else negb privacy.

(** One of the two loops of [wpa_supplicant_ssid_bss_match], which run at most once:
    whether it was entered ([proto_match++]) and whether it returned 1. *)
Definition proto_loop (n : wpa_ssid) (wep_ok : bool) (p : Z) (ies : list Z) (ie : option nat) : run (bool * bool) :=
  match ie with
  | None => Ret (false, false)
  | Some pos =>
      if negb (has (n_proto n) p) then Ret (false, false)
      else
        len ← rd ies (pos + 1);
        e ← rdn ies pos (2 + Z.to_nat len);
        x ← wpa_parse_wpa_ie e;
        let '(ret, d) := x in
        Ret (true,
          if negb (ret =? 0) then false
          else if wep_ok && has (group_cipher d) (Z.lor WPA_CIPHER_WEP40 WPA_CIPHER_WEP104) then true
          else if negb (has (proto d) (n_proto n)) then false
          else if negb (has (pairwise_cipher d) (n_pairwise_cipher n)) then false
          else if negb (has (group_cipher d) (n_group_cipher n)) then false
          else if negb (has (key_mgmt d) (n_key_mgmt n)) then false
          else true)
  end.

(** [ssid->wep_key_len[ssid->wep_tx_keyidx] > 0], read only when needed. *)
Definition wep_tx_key (n : wpa_ssid) : run bool :=
  if has (n_key_mgmt n) WPA_KEY_MGMT_NONE then
    if n_wep_tx_keyidx n <? 0 then UB OutOfBounds
    else l ← rd (n_wep_key_len n) (Z.to_nat (n_wep_tx_keyidx n)); Ret (0 <? l)
  else Ret false.

Definition wpa_supplicant_ssid_bss_match (n : wpa_ssid) (r : wpa_scan_res) : run bool :=
  wep_ok ← (if wpa_key_mgmt_wpa (n_key_mgmt n) then Ret false
            else w ← wep_tx_key n; Ret (w || has (n_key_mgmt n) WPA_KEY_MGMT_IEEE8021X_NO_WPA));
  rsn_ie ← wpa_scan_get_ie r WLAN_EID_RSN;
  x ← proto_loop n wep_ok WPA_PROTO_RSN (res_ies r) rsn_ie;
  let '(rsn_match, ok) := x in
  if ok : bool then Ret true
  else
    wpa_ie ← wpa_scan_get_vendor_ie r WPA_IE_VENDOR_TYPE;
    x ← proto_loop n wep_ok WPA_PROTO_WPA (res_ies r) wpa_ie;
    let '(wpa_match, ok) := x in
    Ret (if ok : bool then true
         else if has (n_proto n) (Z.lor WPA_PROTO_WPA WPA_PROTO_RSN) && wpa_key_mgmt_wpa (n_key_mgmt n) &&
                 negb (rsn_match || wpa_match) then false
         else negb (wpa_key_mgmt_wpa (n_key_mgmt n))).

Definition freq_allowed (freqs : option (list Z)) (f : Z) : bool :=
  match freqs with None => true | Some l => existsb (Z.eqb f) l end.

Definition ht_supported (mode : hostapd_hw_modes) : bool :=
  if negb (has (hm_flags mode) HOSTAPD_MODE_FLAG_HT_INFO_KNOWN) then true else hm_mcs0 mode =? 0xff.

(** The mode of the frequency: the last one that has it, but 802.11g is kept. *)
Definition mode_of (f : Z) (modes : list hostapd_hw_modes) : option hostapd_hw_modes :=
  foldl (λ mode m,
    if existsb (Z.eqb f) (hm_channels m) then
      match mode with
      | Some g => if hm_mode g =? HOSTAPD_MODE_IEEE80211G then mode else Some m
      | None => Some m
      end
    else mode) None modes.

(** The loop over the bytes of a rate element; [false] is [return 0]. *)
Fixpoint rates_loop (mode : hostapd_hw_modes) (ies : list Z) (j k : nat) : run bool :=
  match k with
  | O => Ret true
  | S k =>
      b ← rd ies j;
      let flagged := has b 0x80 in
      let r := Z.land b 0x7f * 5 in
      if flagged && (Z.land b 0x7f =? BSS_MEMBERSHIP_SELECTOR_HT_PHY) then
        if negb (ht_supported mode) then Ret false else rates_loop mode ies (S j) k
      else if negb flagged then rates_loop mode ies (S j) k
      else if existsb (Z.eqb r) (hm_rates mode) then rates_loop mode ies (S j) k else Ret false
  end.
Definition rates_ie (mode : hostapd_hw_modes) (ies : list Z) (ie : option nat) : run bool :=
  match ie with
  | None => Ret true
  | Some pos => len ← rd ies (pos + 1); rates_loop mode ies (pos + 2) (Z.to_nat len)
  end.

Definition rate_match (modes : option (list hostapd_hw_modes)) (r : wpa_scan_res) : run bool :=
  if r_freq r =? 0 then Ret true
  else
    match modes with
    | None => Ret true
    | Some modes =>
        match mode_of (r_freq r) modes with
        | None => Ret false
        | Some mode =>
            ie ← wpa_scan_get_ie r WLAN_EID_SUPP_RATES;
            ok ← rates_ie mode (res_ies r) ie;
            if negb ok then Ret false
            else ie ← wpa_scan_get_ie r WLAN_EID_EXT_SUPP_RATES; rates_ie mode (res_ies r) ie
        end
    end.

(** The length octet of an element, 0 without one. *)
Definition ie_len_of (ies : list Z) (ie : option nat) : run Z :=
  match ie with None => Ret 0 | Some pos => rd ies (pos + 1) end.
(** The SSID of a scan result, empty without the element. *)
Definition res_ssid (r : wpa_scan_res) : run (list Z) :=
  ie ← wpa_scan_get_ie r WLAN_EID_SSID;
  match ie with
  | None => Ret []
  | Some pos => len ← rd (res_ies r) (pos + 1); rdn (res_ies r) (pos + 2) (Z.to_nat len)
  end.

(** The checks of one network block in the loop of [wpa_scan_res_match]. *)
Definition network_match (modes : option (list hostapd_hw_modes)) (r : wpa_scan_res) (x : list Z) (wpa : bool) (n : wpa_ssid)
  : run bool :=
  let check_ssid := if wpa then true else negb (length (n_ssid n) =? 0)%nat in
  if n_disabled n then Ret false
  else
    let check_ssid := if n_bssid_set n && (length (n_ssid n) =? 0)%nat && (memcmp (r_bssid r) (n_bssid n) =? 0)
                      then false else check_ssid in
    if check_ssid && (negb (length x =? length (n_ssid n))%nat || negb (memcmp x (n_ssid n) =? 0)) then Ret false
    else if n_bssid_set n && negb (memcmp (r_bssid r) (n_bssid n) =? 0) then Ret false
    else
      ok ← wpa_supplicant_ssid_bss_match n r;
      if negb ok then Ret false
      else if negb wpa && negb (has (n_key_mgmt n) WPA_KEY_MGMT_NONE) && negb (has (n_key_mgmt n) WPA_KEY_MGMT_WPS) &&
              negb (has (n_key_mgmt n) WPA_KEY_MGMT_IEEE8021X_NO_WPA) then Ret false
      else if negb (wpa_supplicant_match_privacy r n) then Ret false
      else if has (r_caps r) IEEE80211_CAP_IBSS then Ret false
      else if negb (freq_allowed (n_freq_list n) (r_freq r)) then Ret false
      else rate_match modes r.

Fixpoint match_loop (w : wpa_supplicant) (r : wpa_scan_res) (x : list Z) (wpa : bool) (group : list positive)
  : run (option positive) :=
  match group with
  | [] => Ret None
  | p :: group =>
      n ← net_at p (conf w);
      ok ← network_match (hw_modes w) r x wpa n;
      if ok : bool then Ret (Some p) else match_loop w r x wpa group
  end.

Definition wpa_scan_res_match (w : wpa_supplicant) (r : wpa_scan_res) (group : list positive) : run (option positive) :=
  x ← res_ssid r;
  ie ← wpa_scan_get_vendor_ie r WPA_IE_VENDOR_TYPE;
  wpa_ie_len ← ie_len_of (res_ies r) ie;
  ie ← wpa_scan_get_ie r WLAN_EID_RSN;
  rsn_ie_len ← ie_len_of (res_ies r) ie;
  enabled ← wpa_supplicant_enabled_networks (conf w);
  let limit := if enabled =? 1 then 0 else 1 in
  if match wpa_blacklist_get (blacklist w) (r_bssid r) with Some e => limit <? bl_count e | None => false end then Ret None
  else if (length x =? 0)%nat then Ret None
  else match_loop w r x ((0 <? wpa_ie_len) || (0 <? rsn_ie_len)) group.

(** ** Selection *)

(** The BSS returned and the value left in [*selected_ssid]. *)
Fixpoint select_loop (w : wpa_supplicant) (results : list wpa_scan_res) (group : list positive) (selected : option positive)
  : run (option positive * option positive) :=
  match results with
  | [] => Ret (None, selected)
  | r :: results =>
      selected ← wpa_scan_res_match w r group;
      match selected with
      | None => select_loop w results group None
      | Some _ => x ← res_ssid r; b ← wpa_bss_get (table w) (r_bssid r) x; Ret (b, selected)
      end
  end.
Definition wpa_supplicant_select_bss := select_loop.

Fixpoint prio_loop (w : wpa_supplicant) (results : list wpa_scan_res) (groups : list (list positive)) (selected : option positive)
  : run (option positive * option positive) :=
  match groups with
  | [] => Ret (None, selected)
  | g :: groups =>
      x ← wpa_supplicant_select_bss w results g selected;
      match x with
      | (Some b, ssid) => Ret (Some b, ssid)
      | (None, ssid) => prio_loop w results groups ssid
      end
  end.

Fixpoint pick_loop (fuel : nat) (w : wpa_supplicant) (results : list wpa_scan_res) (selected : option positive)
  : run (option positive * option positive * wpa_supplicant) :=
  match fuel with
  | O => OutOfFuel
  | S fuel =>
      x ← prio_loop w results (c_pssid (conf w)) selected;
      let '(b, ssid) := x in
      match b with
      | Some _ => Ret (b, ssid, w)
      | None =>
          match blacklist w with
          | [] => Ret (None, ssid, w)
          | l =>
              let w := w <| blacklist := wpa_blacklist_clear l |> <| blacklist_cleared := blacklist_cleared w + 1 |> in
              pick_loop fuel w results ssid
          end
      end
  end.
(** Two rounds, since the second one has no blacklist left to clear. *)
Definition wpa_supplicant_pick_network (w : wpa_supplicant) (results : list wpa_scan_res)
  : run (option positive * option positive * wpa_supplicant) := pick_loop 2 w results None.

Fixpoint first_new_network (c : wpa_config) (l : list positive) : run (option positive) :=
  match l with
  | [] => Ret None
  | p :: l =>
      n ← net_at p c;
      if n_disabled n then first_new_network c l
      else if (n_mode n =? IEEE80211_MODE_IBSS) || (n_mode n =? IEEE80211_MODE_AP) then Ret (Some p)
      else first_new_network c l
  end.
Definition wpa_supplicant_pick_new_network (w : wpa_supplicant) : run (option positive) :=
  first_new_network (conf w) (concat (c_pssid (conf w))).

(** ** Order of scan results ([wpa_scan_result_compar] of scan.c) *)

Definition WPA_SCAN_NOISE_INVALID : Z := 2.
Definition WPA_SCAN_LEVEL_DBM : Z := 8.
Definition GREAT_SNR : Z := 30.
Definition IS_5GHZ (f : Z) : bool := 4000 <? f.

Definition wpa_scan_get_max_rate (r : wpa_scan_res) : run Z := wpa_bss_get_max_rate (res_ies r).

(** The signal compared: the signal-to-noise ratio, capped, or the level. *)
Definition scan_snr (a b r : wpa_scan_res) : Z :=
  if has (Z.land (r_flags a) (r_flags b)) WPA_SCAN_LEVEL_DBM &&
     negb (has (Z.lor (r_flags a) (r_flags b)) WPA_SCAN_NOISE_INVALID)
  then if r_level r - r_noise r <? GREAT_SNR then r_level r - r_noise r else GREAT_SNR
  else r_level r.

Definition scan_wpa (r : wpa_scan_res) : run bool :=
  v ← wpa_scan_get_vendor_ie r WPA_IE_VENDOR_TYPE;
  e ← wpa_scan_get_ie r WLAN_EID_RSN;
  Ret (bool_decide (is_Some v) || bool_decide (is_Some e)).

(** A positive result puts [b] first. *)
Definition wpa_scan_result_compar (a b : wpa_scan_res) : run Z :=
  wpa_a ← scan_wpa a;
  wpa_b ← scan_wpa b;
  if wpa_b && negb wpa_a then Ret 1
  else if negb wpa_b && wpa_a then Ret (-1)
  else if negb (has (r_caps a) IEEE80211_CAP_PRIVACY) && has (r_caps b) IEEE80211_CAP_PRIVACY then Ret 1
  else if has (r_caps a) IEEE80211_CAP_PRIVACY && negb (has (r_caps b) IEEE80211_CAP_PRIVACY) then Ret (-1)
  else
    let snr_a := scan_snr a b a in
    let snr_b := scan_snr a b b in
    let by_snr := if snr_b =? snr_a then r_qual b - r_qual a else snr_b - snr_a in
    if (negb (snr_a =? 0) && negb (snr_b =? 0) && (Z.abs (snr_b - snr_a) <? 5)) ||
       (negb (r_qual a =? 0) && negb (r_qual b =? 0) && (Z.abs (r_qual b - r_qual a) <? 10)) then
      maxrate_a ← wpa_scan_get_max_rate a;
      maxrate_b ← wpa_scan_get_max_rate b;
      if negb (maxrate_a =? maxrate_b) then Ret (maxrate_b - maxrate_a)
      else if xorb (IS_5GHZ (r_freq a)) (IS_5GHZ (r_freq b)) then Ret (if IS_5GHZ (r_freq a) then -1 else 1)
      else Ret by_snr
    else Ret by_snr.

(** ** Reactions *)

Definition log (e : sup_event) (w : wpa_supplicant) : wpa_supplicant := w <| sup_log := sup_log w ++ [e] |>.

Definition wpa_supplicant_notify_scanning (on : bool) (w : wpa_supplicant) : wpa_supplicant :=
  if Bool.eqb (scanning w) on then w else log (EvScanning on) (w <| scanning := on |>).

Definition wpa_supplicant_set_state (state : Z) (w : wpa_supplicant) : wpa_supplicant :=
  let old_state := wpa_state w in
  let w := if negb (state =? WPA_SCANNING) then wpa_supplicant_notify_scanning false w else w in
  let w :=
    if (state =? WPA_COMPLETED) && new_connection w then
      log (EvOperState true) (w <| new_connection := false |> <| reassociated_connection := true |>)
    else if (state =? WPA_DISCONNECTED) || (state =? WPA_ASSOCIATING) || (state =? WPA_ASSOCIATED) then
      log (EvOperState false) (w <| new_connection := true |>)
    else w in
  let w := w <| wpa_state := state |> in
  if negb (state =? old_state) then
    let w := log (EvStateChanged state old_state) w in
    if (state =? WPA_COMPLETED) || (old_state =? WPA_COMPLETED) then log EvAuthChanged w else w
  else w.

Definition wpa_supplicant_req_scan (sec usec : Z) (w : wpa_supplicant) : run wpa_supplicant :=
  keep ← (if bool_decide (is_Some (scan_timer w)) && (c_ap_scan (conf w) =? 1)
          then p ← find_network (λ n, negb (n_disabled n) && n_scan_ssid n) (c_ssid (conf w)) (conf w);
               Ret (bool_decide (is_Some p))
          else Ret false);
  Ret (if keep : bool then w else w <| scan_timer := Some (sec, usec) |>).

Definition wpa_supplicant_req_new_scan (sec usec : Z) (w : wpa_supplicant) : run wpa_supplicant :=
  enabled ← wpa_supplicant_enabled_networks (conf w);
  if enabled =? 0 then Ret (wpa_supplicant_set_state WPA_INACTIVE w) else wpa_supplicant_req_scan sec usec w.

Definition wpas_driver_bss_selection (w : wpa_supplicant) : bool :=
  (c_ap_scan (conf w) =? 2) || has (drv_flags w) WPA_DRIVER_FLAGS_BSS_SELECTION.

Definition wpa_supplicant_connect (selected ssid : positive) (w : wpa_supplicant) : run (Z * wpa_supplicant) :=
  b ← bss_at selected (table w);
  Ret (0,
    if reassociate w ||
       (negb (memcmp (bssid b) (own_bssid (table w)) =? 0) &&
        ((negb (wpa_state w =? WPA_ASSOCIATING) && negb (wpa_state w =? WPA_AUTHENTICATING)) ||
         negb (memcmp (bssid b) (pending_bssid (table w)) =? 0)))
    then log (EvAssociate (Some selected) ssid) w
    else w).

(** The scan result of the current BSS. *)
Fixpoint find_current (w : wpa_supplicant) (x : list Z) (results : list wpa_scan_res) : run (option wpa_scan_res) :=
  match results with
  | [] => Ret None
  | r :: results =>
      if negb (memcmp (r_bssid r) (own_bssid (table w)) =? 0) then find_current w x results
      else
        ie ← wpa_scan_get_ie r WLAN_EID_SSID;
        match ie with
        | None => find_current w x results
        | Some pos =>
            len ← rd (res_ies r) (pos + 1);
            if negb (len =? Z.of_nat (length x)) then find_current w x results
            else
              y ← rdn (res_ies r) (pos + 2) (Z.to_nat len);
              if negb (memcmp y x =? 0) then find_current w x results else Ret (Some r)
        end
  end.

Definition roam_min_diff (level : Z) : Z :=
  if level <? 0 then
    if level <? -85 then 1 else if level <? -80 then 2 else if level <? -75 then 3 else if level <? -70 then 4 else 5
  else 2.

Definition wpa_supplicant_need_to_roam (selected ssid : positive) (results : list wpa_scan_res) (w : wpa_supplicant) : run bool :=
  if reassociate w then Ret true
  else if wpa_state w <? WPA_ASSOCIATED then Ret true
  else
    match current_ssid w with
    | None => Ret true
    | Some cur =>
        if negb (bool_decide (cur = ssid)) then Ret true
        else if wpas_driver_bss_selection w then Ret false
        else
          n ← net_at cur (conf w);
          c ← find_current w (n_ssid n) results;
          match c with
          | None => Ret true
          | Some current_bss =>
              b ← bss_at selected (table w);
              if n_bssid_set n && (memcmp (bssid b) (n_bssid n) =? 0) then Ret true
              else Ret (negb (Z.abs (r_level current_bss - level b) <? roam_min_diff (r_level current_bss)))
          end
    end.

(** What the handler obtains from outside: the order [qsort] gives to the results, the
    allocations and times of the table update, and the outcome of the request for a
    scheduled scan. *)
Record scan_env := ScanEnv {
  se_qsort : list wpa_scan_res → list wpa_scan_res;
  se_envs : nat → alloc_env * os_time;
  se_sched_scan : Z
}.

(** What is done after the table has been updated. *)
Definition after_results (env : scan_env) (scan_res : list wpa_scan_res) (w : wpa_supplicant) : run (Z * wpa_supplicant) :=
  x ← wpa_supplicant_pick_network w scan_res;
  match x with
  | (Some selected, Some ssid, w) =>
      roam ← wpa_supplicant_need_to_roam selected ssid scan_res w;
      if negb roam then Ret (0, log EvPreauthScanResults w)
      else
        x ← wpa_supplicant_connect selected ssid w;
        let '(r, w) := x in
        if r <? 0 then Ret (-1, w) else Ret (0, log EvPreauthScanResults w)
  | (Some _, None, _) => UB NullDeref
  | (None, _, w) =>
      ssid ← wpa_supplicant_pick_new_network w;
      match ssid with
      | Some p => Ret (0, log EvPreauthScanResults (log (EvAssociate None p) w))
      | None =>
          let w := log EvSchedScan w in
          if negb (se_sched_scan env =? 0)
          then w ← wpa_supplicant_req_new_scan (scan_interval w) 0 w; Ret (0, w)
          else Ret (0, w)
      end
  end.

(** [results] is [None] when the driver returns none. *)
Definition _wpa_supplicant_event_scan_results (env : scan_env) (results : option (list wpa_scan_res)) (info : option scan_info)
    (w : wpa_supplicant) : run (Z * wpa_supplicant) :=
  let w := wpa_supplicant_notify_scanning false w in
  match results with
  | None =>
      if c_ap_scan (conf w) =? 2 then Ret (-1, w)
      else w ← wpa_supplicant_req_new_scan 1 0 w; Ret (-1, w)
  | Some l =>
      let scan_res := se_qsort env (filter_scan_res (table w) l) in
      t ← wpa_supplicant_get_scan_results (se_qsort env) (se_envs env) l info true (table w);
      let w := w <| table := t |> in
      if scan_res_handler w then Ret (0, log EvScanResHandler (w <| scan_res_handler := false |>))
      else
        let w := log (EvScanDone true) (log EvScanResults w) in
        if c_ap_scan (conf w) =? 2 then Ret (0, w)
        else if disconnected w then Ret (0, wpa_supplicant_set_state WPA_DISCONNECTED w)
        else after_results env scan_res w
  end.

(** ** Failed connections (wpa_supplicant.c) *)

(** [freqs] is the array of 11 zeroed integers, its used part a list. *)
Definition add_freq (freqs : list Z) (f : Z) : run (list Z) :=
  if existsb (Z.eqb f) freqs then Ret freqs
  else if (length freqs <? 11)%nat then Ret (freqs ++ [f]) else UB OutOfBounds.

Fixpoint ess_freqs_loop (w : wpa_supplicant) (cur : positive) (cbss : wpa_bss) (l : list positive) (freqs : list Z) : run (list Z) :=
  match l with
  | [] => Ret freqs
  | p :: l =>
      if bool_decide (p = cur) then ess_freqs_loop w cur cbss l freqs
      else
        b ← bss_at p (table w);
        if (ssid_len b =? ssid_len cbss)%nat && (memcmp (take (ssid_len b) (ssid b)) (take (ssid_len b) (ssid cbss)) =? 0) &&
           match wpa_blacklist_get (blacklist w) (bssid b) with None => true | Some _ => false end
        then
          freqs ← add_freq freqs (freq b);
          if (length freqs =? 10)%nat then Ret freqs else ess_freqs_loop w cur cbss l freqs
        else ess_freqs_loop w cur cbss l freqs
  end.
Definition get_bss_freqs_in_ess (zalloc_ok : bool) (w : wpa_supplicant) (cur : positive) : run (option (list Z)) :=
  if negb zalloc_ok then Ret None
  else
    cbss ← bss_at cur (table w);
    freqs ← ess_freqs_loop w cur cbss (bss (table w)) [];
    Ret (if (length freqs =? 0)%nat then None else Some freqs).

(** [if (count == 1 && wpa_s->current_bss)]: the second call of [wpa_blacklist_add] finds
    the entry of the first. *)
Definition try_other_bss (zalloc_ok : bool) (a : list Z) (count : Z) (w : wpa_supplicant) : run wpa_supplicant :=
  match current_bss (table w) with
  | Some cur =>
      if count =? 1 then
        freqs ← get_bss_freqs_in_ess zalloc_ok w cur;
        match freqs with
        | Some f => Ret (w <| blacklist := (wpa_blacklist_add true (blacklist w) a).2 |> <| next_scan_freqs := Some f |>)
        | None => Ret w
        end
      else Ret w
  | None => Ret w
  end.
(** [allocs] answers the allocations of the blacklist entry and of the array. *)
Definition wpas_connection_failed (allocs : bool * bool) (a : list Z) (w : wpa_supplicant) : run wpa_supplicant :=
  let '(count, l) := wpa_blacklist_add allocs.1 (blacklist w) a in
  w ← try_other_bss allocs.2 a count (w <| blacklist := l |>);
  let timeout := if count =? 1 then 100 else if count =? 2 then 500 else if count =? 3 then 1000 else 5000 in
  wpa_supplicant_req_scan (timeout / 1000) (1000 * (timeout mod 1000)) w.

(** ** Specification of a match *)

Fixpoint elements_loop (fuel : nat) (buf : list Z) : list (Z * list Z) :=
  match fuel, buf with
  | S fuel, t :: l :: r =>
      if (length r <? Z.to_nat l)%nat then [] else (t, take (Z.to_nat l) r) :: elements_loop fuel (drop (Z.to_nat l) r)
  | _, _ => []
  end.
(** The elements of a scan result. *)
Definition elements (r : wpa_scan_res) : list (Z * list Z) := elements_loop (length (res_ies r)) (res_ies r).
Definition r_element (r : wpa_scan_res) (t : Z) : option (Z * list Z) := List.find (ie_is t) (elements r).
Definition r_wpa_element (r : wpa_scan_res) : option (Z * list Z) := List.find (vendor_is WPA_IE_VENDOR_TYPE) (elements r).
Definition r_ssid (r : wpa_scan_res) : list Z := ie_data (ie_is WLAN_EID_SSID) (elements r).

(** Whether the access point announces WPA or RSN. *)
Definition protected (r : wpa_scan_res) : bool :=
  negb (length (ie_data (vendor_is WPA_IE_VENDOR_TYPE) (elements r)) =? 0)%nat ||
  negb (length (ie_data (ie_is WLAN_EID_RSN) (elements r)) =? 0)%nat.

(** What an announced element says, if it can be parsed. *)
Definition parsed (e : option (Z * list Z)) : option wpa_ie_data :=
  match e with
  | Some e => match wpa_parse_wpa_ie (ie_bytes e) with Ret (0, d) => Some d | _ => None end
  | None => None
  end.
(** The element and the network have a protocol, ciphers and a key management in
    common. *)
Definition suites_ok (n : wpa_ssid) (d : wpa_ie_data) : bool :=
  has (proto d) (n_proto n) && has (pairwise_cipher d) (n_pairwise_cipher n) &&
  has (group_cipher d) (n_group_cipher n) && has (key_mgmt d) (n_key_mgmt n).
Definition wep_ok (n : wpa_ssid) : bool :=
  negb (wpa_key_mgmt_wpa (n_key_mgmt n)) &&
  (has (n_key_mgmt n) WPA_KEY_MGMT_NONE && (0 <? n_wep_key_len n !!! Z.to_nat (n_wep_tx_keyidx n)) ||
   has (n_key_mgmt n) WPA_KEY_MGMT_IEEE8021X_NO_WPA).
Definition offers (n : wpa_ssid) (p : Z) (e : option (Z * list Z)) : bool :=
  has (n_proto n) p &&
  match parsed e with
  | Some d => wep_ok n && has (group_cipher d) (Z.lor WPA_CIPHER_WEP40 WPA_CIPHER_WEP104) || suites_ok n d
  | None => false
  end.
Definition security_ok (n : wpa_ssid) (r : wpa_scan_res) : bool :=
  offers n WPA_PROTO_RSN (r_element r WLAN_EID_RSN) || offers n WPA_PROTO_WPA (r_wpa_element r) ||
  negb (wpa_key_mgmt_wpa (n_key_mgmt n)).

(** A basic rate the hardware has, or the HT requirement it meets. *)
Definition basic_rate_ok (mode : hostapd_hw_modes) (b : Z) : bool :=
  negb (has b 0x80) ||
  (if Z.land b 0x7f =? BSS_MEMBERSHIP_SELECTOR_HT_PHY then ht_supported mode
   else existsb (Z.eqb (Z.land b 0x7f * 5)) (hm_rates mode)).
Definition rates_ok (modes : option (list hostapd_hw_modes)) (r : wpa_scan_res) : bool :=
  (r_freq r =? 0) ||
  match modes with
  | None => true
  | Some modes =>
      match mode_of (r_freq r) modes with
      | None => false
      | Some mode => forallb (basic_rate_ok mode) (ie_data (ie_is WLAN_EID_SUPP_RATES) (elements r)) &&
                     forallb (basic_rate_ok mode) (ie_data (ie_is WLAN_EID_EXT_SUPP_RATES) (elements r))
      end
  end.

Definition pinned (n : wpa_ssid) (r : wpa_scan_res) : bool := n_bssid_set n && bool_decide (r_bssid r = n_bssid n).
(** The network name: equal, or a wildcard for an open network or a given BSSID. *)
Definition ssid_ok (n : wpa_ssid) (r : wpa_scan_res) : bool :=
  bool_decide (r_ssid r = n_ssid n) || bool_decide (n_ssid n = []) && (negb (protected r) || pinned n r).

Definition accepts (modes : option (list hostapd_hw_modes)) (r : wpa_scan_res) (n : wpa_ssid) : bool :=
  negb (n_disabled n) && ssid_ok n r && (negb (n_bssid_set n) || pinned n r) && security_ok n r &&
  (protected r || has (n_key_mgmt n) WPA_KEY_MGMT_NONE || has (n_key_mgmt n) WPA_KEY_MGMT_WPS ||
   has (n_key_mgmt n) WPA_KEY_MGMT_IEEE8021X_NO_WPA) &&
  wpa_supplicant_match_privacy r n && negb (has (r_caps r) IEEE80211_CAP_IBSS) &&
  freq_allowed (n_freq_list n) (r_freq r) && rates_ok modes r.

Record net_wf (n : wpa_ssid) : Prop := NetWf {
  nwf_bssid : length (n_bssid n) = 6%nat;
  nwf_wep : length (n_wep_key_len n) = 4%nat;
  nwf_idx : 0 ≤ n_wep_tx_keyidx n < 4
}.

(** ** The code computes the specification *)

Lemma elements_loop_stream fuel : ∀ buf, (length buf ≤ fuel)%nat → bytes_ok buf → ie_stream buf (elements_loop fuel buf).
Proof.
  induction fuel as [|fuel IH]; intros buf Hl Hb; [destruct buf; [constructor; cbn; lia|cbn in Hl; lia]|].
  destruct buf as [|t [|l r]]; [constructor; cbn; lia..|]. cbn [elements_loop].
  assert (Hlb : is_byte l) by (inversion Hb as [|? ? _ Hb']; by inversion Hb').
  assert (Hr : bytes_ok r) by (inversion Hb as [|? ? _ Hb']; by inversion Hb').
  destruct (Nat.ltb_spec (length r) (Z.to_nat l)); [by constructor|].
  assert (H2 : t :: l :: r = ie_bytes (t, take (Z.to_nat l) r) ++ drop (Z.to_nat l) r).
  { unfold ie_bytes; cbn. rewrite length_take_le by lia. unfold is_byte in Hlb. rewrite Z2Nat.id, take_drop by lia. done. }
  rewrite H2 at 1. constructor. apply IH; [rewrite length_drop; cbn in Hl; lia|by apply Forall_drop].
Qed.

Lemma elements_stream r : res_wf r → ie_stream (res_ies r) (elements r).
Proof. intros [_ _ Hb]. apply elements_loop_stream; [done|]. by apply Forall_take. Qed.

Section matching.
Context (r : wpa_scan_res) (Hr : res_wf r).

Lemma scan_get_ie t : wpa_scan_get_ie r t = Ret (ie_find (ie_is t) 0 (elements r)).
Proof. apply wpa_bss_get_ie_find. by apply elements_stream. Qed.
Lemma scan_get_vendor_ie v : wpa_scan_get_vendor_ie r v = Ret (ie_find (vendor_is v) 0 (elements r)).
Proof. apply wpa_bss_get_vendor_ie_find. by apply elements_stream. Qed.

(** The bytes of the element found. *)
Lemma found_element p :
  match ie_find p 0 (elements r) with
  | None => List.find p (elements r) = None
  | Some pos => ∃ e, List.find p (elements r) = Some e ∧ rd (res_ies r) (pos + 1) = Ret (Z.of_nat (length e.2)) ∧
      rdn (res_ies r) pos (2 + length e.2) = Ret (ie_bytes e) ∧ rdn (res_ies r) (pos + 2) (length e.2) = Ret e.2 ∧
      bytes_ok (ie_bytes e) ∧ (∀ i b, e.2 !! i = Some b → rd (res_ies r) (pos + 2 + i) = Ret b)
  end.
Proof.
  pose proof (ie_find_data p (elements r) (res_ies r) [] (elements_stream r Hr)) as H. cbn [length Nat.add] in H.
  destruct (ie_find p 0 (elements r)) as [pos|]; [|done]. destruct H as (l & e & k & Hb & -> & Hf). exists e. split; [done|].
  assert (Hbytes : bytes_ok (res_ies r)) by (destruct Hr as [_ _ Hbb]; by apply Forall_take).
  rewrite Hb in *. assert (Hlen : length (ie_bytes e) = (2 + length e.2)%nat) by (unfold ie_bytes; cbn; lia).
  split_and!.
  - by rewrite rd_app_r.
  - rewrite rdn_ok by (rewrite !length_app; lia). rewrite drop_app_length, take_app_length'; [done|lia].
  - rewrite rdn_ok by (rewrite !length_app; lia). rewrite drop_app_ge by lia. replace (length l + 2 - length l)%nat with 2%nat by lia.
    unfold ie_bytes. cbn [app drop]. by rewrite drop_0, take_app_length.
  - apply bytes_ok_app in Hbytes as [_ Hbytes]. by apply bytes_ok_app in Hbytes as [Hbytes _].
  - intros i b Hi. rewrite <-Nat.add_assoc, rd_app_r. apply rd_lookup.
    change ((e.2 ++ k) !! i = Some b). rewrite lookup_app_l; [done|]. by apply lookup_lt_Some in Hi.
Qed.

Lemma parse_total e : bytes_ok e → ∃ x d, wpa_parse_wpa_ie e = Ret (x, d).
Proof. intros Hb. unfold wpa_parse_wpa_ie. if_branch; [destruct (parse_rsn_ok e Hb) as (x & d & H & _)|destruct (parse_wpa_ok e Hb) as (x & d & H & _)]; eauto. Qed.

Lemma proto_loop_spec n w p q :
  proto_loop n w p (res_ies r) (ie_find q 0 (elements r)) =
    Ret (has (n_proto n) p && bool_decide (is_Some (List.find q (elements r))),
         has (n_proto n) p && match parsed (List.find q (elements r)) with
         | Some d => w && has (group_cipher d) (Z.lor WPA_CIPHER_WEP40 WPA_CIPHER_WEP104) || suites_ok n d
         | None => false
         end).
Proof.
  unfold proto_loop. pose proof (found_element q) as H. destruct (ie_find q 0 (elements r)) as [pos|].
  2:{ rewrite H. cbn [parsed]. rewrite bool_decide_false by (by intros []). by rewrite !andb_false_r. }
  destruct H as (e & -> & Hl & He & _ & Hb & _). destruct (has (n_proto n) p); [|done]. cbn [negb andb]. rewrite Hl, run_bind_l, Nat2Z.id, He, run_bind_l.
  destruct (parse_total _ Hb) as (x & d & Hp). rewrite Hp, run_bind_l. cbn [parsed]. rewrite Hp, bool_decide_true by eauto. do 2 f_equal.
  destruct (Z.eqb_spec x 0) as [->|Hx]; cbn [negb]; [|by destruct x].
  unfold suites_ok. repeat (match goal with |- context [has ?a ?b] => destruct (has a b) end; rewrite ?andb_true_r, ?andb_false_r; try done).
Qed.

Lemma wep_tx_key_spec n : net_wf n →
  wep_tx_key n = Ret (has (n_key_mgmt n) WPA_KEY_MGMT_NONE && (0 <? n_wep_key_len n !!! Z.to_nat (n_wep_tx_keyidx n))).
Proof.
  intros [_ Hw Hi]. unfold wep_tx_key. destruct (has _ _); [|done]. rewrite (proj2 (Z.ltb_ge _ _)) by lia.
  destruct (rd_lt (n_wep_key_len n) (Z.to_nat (n_wep_tx_keyidx n))) as (l & -> & Hl); [lia|]. rewrite run_bind_l.
  by rewrite (list_lookup_total_correct _ _ _ Hl).
Qed.

Lemma ssid_bss_match_spec n : net_wf n → wpa_supplicant_ssid_bss_match n r = Ret (security_ok n r).
Proof.
  intros Hn. unfold wpa_supplicant_ssid_bss_match.
  assert ((if wpa_key_mgmt_wpa (n_key_mgmt n) then Ret false
           else w ← wep_tx_key n; Ret (w || has (n_key_mgmt n) WPA_KEY_MGMT_IEEE8021X_NO_WPA)) = Ret (wep_ok n)) as ->.
  { unfold wep_ok. destruct (wpa_key_mgmt_wpa _); [done|]. by rewrite wep_tx_key_spec, run_bind_l. }
  rewrite run_bind_l, scan_get_ie, run_bind_l, proto_loop_spec, run_bind_l. unfold security_ok, offers, r_element, r_wpa_element.
  destruct (has (n_proto n) WPA_PROTO_RSN && match parsed (List.find (ie_is WLAN_EID_RSN) (elements r)) with Some _ => _ | None => _ end); [done|].
  rewrite scan_get_vendor_ie, run_bind_l, proto_loop_spec, run_bind_l. cbn [orb].
  destruct (has (n_proto n) WPA_PROTO_WPA && match parsed (List.find (vendor_is _) (elements r)) with Some _ => _ | None => _ end); [done|].
  cbn [orb]. f_equal. destruct (wpa_key_mgmt_wpa _); cbn [negb]; [|by rewrite andb_false_r]. by if_branch.
Qed.

Lemma rates_loop_spec mode d : ∀ j, (∀ i b, d !! i = Some b → rd (res_ies r) (j + i) = Ret b) →
  rates_loop mode (res_ies r) j (length d) = Ret (forallb (basic_rate_ok mode) d).
Proof.
  induction d as [|b d IH]; intros j Hd; [done|]. cbn [length rates_loop forallb].
  pose proof (Hd 0%nat b eq_refl) as H0. rewrite Nat.add_0_r in H0. rewrite H0, run_bind_l. cbv zeta.
  rewrite IH by (intros i c Hi; replace (S j + i)%nat with (j + S i)%nat by lia; by apply Hd).
  generalize (forallb (basic_rate_ok mode) d). intros rest. unfold basic_rate_ok. destruct (has b 128); [|done]. cbn [negb andb orb].
  destruct (Z.land b 127 =? BSS_MEMBERSHIP_SELECTOR_HT_PHY); [by destruct (ht_supported mode)|]. by destruct (existsb _ _).
Qed.
Lemma rates_ie_spec mode p :
  rates_ie mode (res_ies r) (ie_find p 0 (elements r)) = Ret (forallb (basic_rate_ok mode) (ie_data p (elements r))).
Proof.
  unfold rates_ie, ie_data. pose proof (found_element p) as H. destruct (ie_find p 0 (elements r)) as [pos|]; [|by rewrite H].
  destruct H as (e & -> & Hl & _ & _ & _ & Hd). rewrite Hl, run_bind_l, Nat2Z.id. by apply rates_loop_spec.
Qed.
Lemma rate_match_spec modes : rate_match modes r = Ret (rates_ok modes r).
Proof.
  unfold rate_match, rates_ok. destruct (r_freq r =? 0); [done|]. destruct modes as [modes|]; [|done]. destruct (mode_of _ _) as [mode|]; [|done].
  cbn [orb]. rewrite (scan_get_ie WLAN_EID_SUPP_RATES), run_bind_l, rates_ie_spec, run_bind_l. destruct (forallb _ _); [|done]. cbn [negb andb].
  by rewrite scan_get_ie, run_bind_l, rates_ie_spec.
Qed.

Lemma res_ssid_spec : res_ssid r = Ret (r_ssid r).
Proof.
  unfold res_ssid, r_ssid, ie_data. rewrite scan_get_ie, run_bind_l. pose proof (found_element (ie_is WLAN_EID_SSID)) as H.
  destruct (ie_find _ 0 (elements r)) as [pos|]; [|by rewrite H]. destruct H as (e & -> & Hl & _ & Hd & _). by rewrite Hl, run_bind_l, Nat2Z.id.
Qed.
Lemma ie_len_spec p : ie_len_of (res_ies r) (ie_find p 0 (elements r)) = Ret (Z.of_nat (length (ie_data p (elements r)))).
Proof.
  unfold ie_len_of, ie_data. pose proof (found_element p) as H. destruct (ie_find p 0 (elements r)) as [pos|]; [|by rewrite H].
  destruct H as (e & -> & Hl & _). exact Hl.
Qed.
End matching.

Lemma memcmp_bool a b : length a = length b → (memcmp a b =? 0) = bool_decide (a = b).
Proof.
  intros Hl. destruct (Z.eqb_spec (memcmp a b) 0) as [H|H]; symmetry.
  - apply bool_decide_eq_true. by apply memcmp_eq.
  - apply bool_decide_eq_false. intros ->. by rewrite memcmp_refl in H.
Qed.

Lemma network_match_spec modes r n : res_wf r → net_wf n → r_ssid r ≠ [] →
  network_match modes r (r_ssid r) (protected r) n = Ret (accepts modes r n).
Proof.
  intros Hr Hn Hx. unfold network_match, accepts, ssid_ok, pinned. destruct (n_disabled n); [done|]. cbn [negb andb].
  rewrite !(memcmp_bool (r_bssid r)) by (rewrite (rwf_bssid r Hr); by rewrite (nwf_bssid n Hn)).
  rewrite (ssid_bss_match_spec r Hr n Hn), (rate_match_spec r Hr).
  assert (Hs : negb (length (r_ssid r) =? length (n_ssid n))%nat || negb (memcmp (r_ssid r) (n_ssid n) =? 0) =
               negb (bool_decide (r_ssid r = n_ssid n))).
  { destruct (Nat.eqb_spec (length (r_ssid r)) (length (n_ssid n))) as [E|E]; cbn [negb orb]; [by rewrite memcmp_bool|].
    rewrite bool_decide_false; [done|]. intros H. by rewrite H in E. }
  rewrite Hs. assert (H0 : (length (n_ssid n) =? 0)%nat = bool_decide (n_ssid n = [])).
  { destruct (n_ssid n); [done|]. by rewrite bool_decide_false. }
  rewrite H0. rewrite run_bind_l.
  assert (Hne : bool_decide (n_ssid n = []) = true → bool_decide (r_ssid r = n_ssid n) = false).
  { intros H%bool_decide_eq_true. apply bool_decide_eq_false. congruence. }
  destruct (bool_decide (n_ssid n = [])); [rewrite (Hne eq_refl)|]; clear Hne Hs H0;
  destruct (n_bssid_set n), (bool_decide (r_bssid r = n_bssid n)), (protected r), (bool_decide (r_ssid r = n_ssid n)); cbn [negb andb orb];
    try done; destruct (security_ok n r); cbn [negb andb]; try done;
    destruct (wpa_supplicant_match_privacy r n); cbn [negb andb]; rewrite ?andb_false_r, ?andb_false_l;
    repeat match goal with |- context [has ?a ?b] => destruct (has a b); cbn [negb andb orb]; try done end;
    by destruct (freq_allowed (n_freq_list n) (r_freq r)).
Qed.

(** ** Matching a scan result *)

(** The networks of the configuration that are enabled. *)
Definition enabled_nets (c : wpa_config) : list positive :=
  List.filter (λ p, match nets c !! p with Some n => negb (n_disabled n) | None => false end) (c_ssid c).
Definition blacklisted (w : wpa_supplicant) (r : wpa_scan_res) : bool :=
  (if (length (enabled_nets (conf w)) =? 1)%nat then 0 else 1) <? failures (blacklist w) (r_bssid r).
Definition net_accepts (w : wpa_supplicant) (r : wpa_scan_res) (p : positive) : bool :=
  match nets (conf w) !! p with Some n => accepts (hw_modes w) r n | None => false end.
(** The network of a list that a scan result matches: the first that accepts it, unless
    the access point is blacklisted or hides its name. *)
Definition match_in (w : wpa_supplicant) (r : wpa_scan_res) (group : list positive) : option positive :=
  if blacklisted w r || bool_decide (r_ssid r = []) then None else List.find (net_accepts w r) group.

Definition nets_wf (c : wpa_config) : Prop := map_Forall (λ _, net_wf) (nets c).

Lemma enabled_networks_spec c : live (nets c) (c_ssid c) →
  wpa_supplicant_enabled_networks c = Ret (Z.of_nat (length (enabled_nets c))).
Proof.
  unfold wpa_supplicant_enabled_networks, enabled_nets. induction (c_ssid c) as [|p l IH]; intros Hl; [done|].
  apply Forall_cons in Hl as [Hp Hl]. cbn [count_enabled List.filter]. destruct (net_at_live p c Hp) as (n & -> & ->).
  rewrite run_bind_l, IH, run_bind_l by done. destruct (n_disabled n); cbn [negb length]; [done|]. f_equal. lia.
Qed.

Lemma match_loop_spec w r group : res_wf r → nets_wf (conf w) → live (nets (conf w)) group → r_ssid r ≠ [] →
  match_loop w r (r_ssid r) (protected r) group = Ret (List.find (net_accepts w r) group).
Proof.
  intros Hr Hn Hl Hx. induction Hl as [|p group Hp Hl IH]; [done|]. cbn [match_loop List.find].
  destruct (net_at_live p (conf w) Hp) as (n & -> & Hpn). rewrite run_bind_l, network_match_spec, run_bind_l; [|done|by apply (Hn p)|done].
  unfold net_accepts at 1. rewrite Hpn. by destruct (accepts _ _ _).
Qed.

Lemma scan_res_match_spec w r group : res_wf r → nets_wf (conf w) → live (nets (conf w)) (c_ssid (conf w)) →
  live (nets (conf w)) group → wpa_scan_res_match w r group = Ret (match_in w r group).
Proof.
  intros Hr Hn Hc Hl. unfold wpa_scan_res_match, match_in, blacklisted.
  rewrite res_ssid_spec, run_bind_l, scan_get_vendor_ie, run_bind_l, ie_len_spec, run_bind_l by done.
  rewrite scan_get_ie, run_bind_l, ie_len_spec, run_bind_l, enabled_networks_spec, run_bind_l by done.
  replace (Z.of_nat (length (enabled_nets (conf w))) =? 1) with (length (enabled_nets (conf w)) =? 1)%nat
    by (destruct (Nat.eqb_spec (length (enabled_nets (conf w))) 1); symmetry; [apply Z.eqb_eq|apply Z.eqb_neq]; lia).
  set (limit := if (_ =? 1)%nat then 0 else 1). assert (Hlim : limit = 0 ∨ limit = 1) by (unfold limit; if_branch; auto).
  replace (match wpa_blacklist_get (blacklist w) (r_bssid r) with Some e => limit <? bl_count e | None => false end)
    with (limit <? failures (blacklist w) (r_bssid r))
    by (unfold failures; destruct (wpa_blacklist_get _ _); [done|]; cbn; apply Z.ltb_ge; lia).
  destruct (limit <? _); [done|]. cbn [orb]. destruct (decide (r_ssid r = [])) as [E|E].
  - rewrite E at 1. by rewrite bool_decide_true.
  - rewrite bool_decide_false by done. destruct (Nat.eqb_spec (length (r_ssid r)) 0) as [E0|_]; [by destruct (r_ssid r)|].
    assert ((0 <? Z.of_nat (length (ie_data (vendor_is WPA_IE_VENDOR_TYPE) (elements r)))) ||
            (0 <? Z.of_nat (length (ie_data (ie_is WLAN_EID_RSN) (elements r)))) = protected r) as ->.
    { unfold protected. do 2 destruct (ie_data _ _); done. }
    by apply match_loop_spec.
Qed.

(** ** Selection *)

(** A result a network accepts, whether or not it is blacklisted. *)
Definition fits (w : wpa_supplicant) (r : wpa_scan_res) (p : positive) : Prop := r_ssid r ≠ [] ∧ net_accepts w r p = true.
(** The result has an entry in the BSS table. *)
Definition stored (w : wpa_supplicant) (r : wpa_scan_res) : Prop :=
  ∃ a, wpa_bss_get (table w) (r_bssid r) (r_ssid r) = Ret (Some a).

Record sup_ok (w : wpa_supplicant) : Prop := SupOk {
  sok_conf : config_ok (conf w);
  sok_nets : nets_wf (conf w);
  sok_table : bss_core (table w)
}.

Fixpoint candidate (w : wpa_supplicant) (results : list wpa_scan_res) (group : list positive) : option (wpa_scan_res * positive) :=
  match results with
  | [] => None
  | r :: results => match match_in w r group with Some p => Some (r, p) | None => candidate w results group end
  end.
Fixpoint best (w : wpa_supplicant) (results : list wpa_scan_res) (groups : list (list positive)) : option (wpa_scan_res * positive) :=
  match groups with
  | [] => None
  | g :: groups => match candidate w results g with Some c => Some c | None => best w results groups end
  end.

Lemma match_in_Some w r g p : match_in w r g = Some p → blacklisted w r = false ∧ p ∈ g ∧ fits w r p.
Proof.
  unfold match_in, fits. destruct (blacklisted w r); [done|]. cbn [orb]. case_bool_decide; [done|]. intros [? ?]%find_some.
  rewrite list_elem_of_In. done.
Qed.
Lemma match_in_None w r g p : match_in w r g = None → p ∈ g → fits w r p → blacklisted w r = true.
Proof.
  unfold match_in, fits. destruct (blacklisted w r); [done|]. cbn [orb]. intros H Hp [Hx Ha]. exfalso.
  rewrite bool_decide_false in H by done. apply list_elem_of_In in Hp. pose proof (find_none _ _ H _ Hp). congruence.
Qed.

Lemma candidate_Some w results g r p : candidate w results g = Some (r, p) →
  match_in w r g = Some p ∧ ∃ l1 l2, results = l1 ++ r :: l2 ∧ ∀ r', r' ∈ l1 → match_in w r' g = None.
Proof.
  induction results as [|r0 results IH]; [done|]. cbn [candidate]. destruct (match_in w r0 g) as [q|] eqn:Hm.
  - intros [= -> ->]. split; [done|]. exists [], results. split; [done|]. set_solver.
  - intros (H & l1 & l2 & -> & Hall)%IH. split; [done|]. exists (r0 :: l1), l2. split; [done|]. set_solver.
Qed.
Lemma candidate_None w results g r : candidate w results g = None → r ∈ results → match_in w r g = None.
Proof.
  induction results as [|r0 results IH]; [set_solver|]. cbn [candidate]. destruct (match_in w r0 g) as [q|] eqn:Hm; [done|].
  intros H [->|Hr]%elem_of_cons; [done|by apply IH].
Qed.
Lemma best_Some w results groups c : best w results groups = Some c →
  ∃ g1 g g2, groups = g1 ++ g :: g2 ∧ candidate w results g = Some c ∧ ∀ h, h ∈ g1 → candidate w results h = None.
Proof.
  induction groups as [|g groups IH]; [done|]. cbn [best]. destruct (candidate w results g) as [c'|] eqn:Hc.
  - intros [= ->]. exists [], g, groups. split; [done|]. split; [done|]. set_solver.
  - intros (g1 & h & g2 & -> & Hh & Hall)%IH. exists (g :: g1), h, g2. split; [done|]. split; [done|]. set_solver.
Qed.
Lemma best_None w results groups g : best w results groups = None → g ∈ groups → candidate w results g = None.
Proof.
  induction groups as [|h groups IH]; [set_solver|]. cbn [best]. destruct (candidate w results h) eqn:Hc; [done|].
  intros H [->|Hg]%elem_of_cons; [done|by apply IH].
Qed.

Section select.
Context (w : wpa_supplicant) (Hw : sup_ok w).

Lemma conf_live : live (nets (conf w)) (c_ssid (conf w)).
Proof using Hw. apply config_live, cfg_dom, Hw. Qed.
Lemma groups_live g : g ∈ c_pssid (conf w) → live (nets (conf w)) g.
Proof using Hw.
  intros Hg. pose proof (cfg_groups _ (sok_conf w Hw)) as H. eapply Forall_forall in H as [_ H]; [|exact Hg].
  eapply Forall_impl; [exact H|]. intros p Hp. by apply (cfg_dom _ (sok_conf w Hw)).
Qed.

Lemma select_loop_spec results g sel : Forall res_wf results → live (nets (conf w)) g →
  select_loop w results g sel =
    match candidate w results g with
    | Some (r, p) => b ← wpa_bss_get (table w) (r_bssid r) (r_ssid r); Ret (b, Some p)
    | None => Ret (None, match results with [] => sel | _ => None end)
    end.
Proof using Hw.
  intros Hres Hg. revert sel. induction Hres as [|r l Hr Hl IH]; intros sel; [done|]. cbn [select_loop candidate].
  rewrite scan_res_match_spec, run_bind_l by (done || apply Hw || apply conf_live). destruct (match_in w r g) as [p|].
  - by rewrite res_ssid_spec, run_bind_l by done.
  - rewrite IH. destruct (candidate w l g) as [[]|]; [done|]. by destruct l.
Qed.

Lemma prio_loop_spec results groups sel : Forall res_wf results → Forall (live (nets (conf w))) groups →
  (∀ r p, r ∈ results → p ∈ concat groups → fits w r p → stored w r) →
  ∃ b ssid, prio_loop w results groups sel = Ret (b, ssid) ∧
    match best w results groups with
    | Some (r, p) => ssid = Some p ∧ ∃ a, b = Some a ∧ wpa_bss_get (table w) (r_bssid r) (r_ssid r) = Ret (Some a)
    | None => b = None
    end.
Proof using Hw.
  intros Hres Hg Hst. revert sel. induction Hg as [|g groups Hg Hgs IH]; intros sel; [by eexists _, _|]. cbn [prio_loop best].
  unfold wpa_supplicant_select_bss. rewrite select_loop_spec by done. destruct (candidate w results g) as [[r p]|] eqn:Hc.
  - destruct (candidate_Some _ _ _ _ _ Hc) as (Hm & l1 & l2 & Hin & _). apply match_in_Some in Hm as (_ & Hp & Hf).
    destruct (Hst r p) as [a Ha]; [rewrite Hin; set_solver|cbn; set_solver|done|]. rewrite Ha, !run_bind_l. eexists _, _. split; [done|]. eauto.
  - rewrite run_bind_l. apply IH. intros r p Hr Hp. apply Hst; [done|]. cbn. set_solver.
Qed.
End select.

(** The state after the blacklist has been cleared. *)
Definition cleared (w : wpa_supplicant) : wpa_supplicant :=
  w <| blacklist := [] |> <| blacklist_cleared := blacklist_cleared w + 1 |>.

Lemma cleared_not_blacklisted w r : blacklisted (cleared w) r = false.
Proof. unfold blacklisted, failures. cbn. by if_branch. Qed.

Lemma pick_spec w results : sup_ok w → Forall res_wf results →
  (∀ r p, r ∈ results → p ∈ concat (c_pssid (conf w)) → fits w r p → stored w r) →
  ∃ b ssid w', wpa_supplicant_pick_network w results = Ret (b, ssid, w') ∧
    (w' = w ∨ w' = cleared w ∧ blacklist w ≠ [] ∧ best w results (c_pssid (conf w)) = None) ∧
    match best w' results (c_pssid (conf w)) with
    | Some (r, p) => ssid = Some p ∧ ∃ a, b = Some a ∧ wpa_bss_get (table w) (r_bssid r) (r_ssid r) = Ret (Some a)
    | None => b = None ∧ blacklist w' = []
    end.
Proof.
  intros Hw Hr Hst. unfold wpa_supplicant_pick_network. cbn [pick_loop].
  assert (Hl : Forall (live (nets (conf w))) (c_pssid (conf w))) by (apply Forall_forall; by apply groups_live).
  destruct (prio_loop_spec w Hw results _ None Hr Hl Hst) as (b & ssid & -> & Hb). rewrite run_bind_l.
  destruct (best w results (c_pssid (conf w))) as [[r p]|] eqn:Hbest.
  { destruct Hb as (-> & a & -> & Ha). do 3 eexists. split; [done|]. split; [by left|]. rewrite Hbest. eauto. }
  subst b. destruct (blacklist w) as [|e l] eqn:Hbl.
  { do 3 eexists. split; [done|]. split; [by left|]. by rewrite Hbest. }
  change (w <| blacklist := _ |> <| blacklist_cleared := _ |>) with (cleared w).
  assert (Hw' : sup_ok (cleared w)) by (destruct Hw; by split).
  destruct (prio_loop_spec (cleared w) Hw' results (c_pssid (conf w)) ssid Hr) as (b & ssid' & E & Hb); [done|done|].
  change (c_pssid (conf (cleared w))) with (c_pssid (conf w)). rewrite E, run_bind_l. clear E.
  destruct (best (cleared w) results (c_pssid (conf w))) as [[r p]|] eqn:Hbest'.
  - destruct Hb as (-> & a & -> & Ha). do 3 eexists. split; [done|]. split; [by right|]. rewrite Hbest'. eauto.
  - subst b. do 3 eexists. split; [done|]. split; [by right|]. by rewrite Hbest'.
Qed.

Lemma class_before m (l : list positive) prs1 x prs2 p : StronglySorted Z.gt (prs1 ++ x :: prs2) →
  (∀ y, y ∈ prs1 ++ x :: prs2 ↔ ∃ q, q ∈ l ∧ prio_at m q = y) → p ∈ l → x < prio_at m p → prio_at m p ∈ prs1.
Proof.
  intros Hs Hc Hp Hlt. assert (Hin : prio_at m p ∈ prs1 ++ x :: prs2) by (apply Hc; eauto).
  apply elem_of_app in Hin as [Hin|Hin]; [done|]. exfalso.
  assert (Hs2 : StronglySorted Z.gt (x :: prs2)) by (clear -Hs; induction prs1 as [|y prs1 IH]; [done|]; inversion Hs; auto).
  apply elem_of_cons in Hin as [Hin|Hin]; [lia|]. inversion Hs2 as [|? ? _ Hall]; subst. eapply Forall_forall in Hall; [|exact Hin]. lia.
Qed.

Lemma elem_of_concat {A} (x : A) ls : x ∈ concat ls ↔ ∃ l, x ∈ l ∧ l ∈ ls.
Proof.
  rewrite list_elem_of_In, in_concat. split; intros (l & H1 & H2); exists l; rewrite ?list_elem_of_In in *; done.
Qed.
Lemma in_groups m l groups p : prio_lists m l groups → (p ∈ concat groups ↔ p ∈ l).
Proof. intros H. by rewrite (prio_lists_perm m l groups H). Qed.

(** ** What is selected fits *)

Lemma bss_get_total s a x : bss_core s →
  ∃ o, wpa_bss_get s a x = Ret o ∧ ∀ p, o = Some p → ∃ b, store s !! p = Some b ∧ same_bss a x b = true.
Proof.
  intros Hc. unfold wpa_bss_get. destruct (negb _); [by exists None|].
  rewrite find_bss_eq by (intros p; apply (inv_dom s Hc)). eexists. split; [done|]. intros p [_ Hp]%find_some.
  destruct (store s !! p) as [b|]; [|done]. by exists b.
Qed.
Lemma same_bss_bssid a x b : bss_wf b → length a = 6%nat → same_bss a x b = true → bssid b = a.
Proof.
  intros Hb Ha H. unfold same_bss in H. apply andb_true_iff in H as [H _]. apply andb_true_iff in H as [H _].
  apply memcmp_eq; [by rewrite (wf_bssid b Hb)|by apply Z.eqb_eq].
Qed.

(** What [wpa_supplicant_pick_network] returns names a fitting pair. *)
Definition picked (w : wpa_supplicant) (results : list wpa_scan_res) (a p : positive) : Prop :=
  ∃ r b, r ∈ results ∧ p ∈ c_ssid (conf w) ∧ fits w r p ∧ store (table w) !! a = Some b ∧ bssid b = r_bssid r.

Lemma prio_loop_sound w results groups : sup_ok w → Forall res_wf results →
  Forall (Forall (.∈ c_ssid (conf w))) groups → ∀ sel,
  ∃ b ssid, prio_loop w results groups sel = Ret (b, ssid) ∧ ∀ a, b = Some a → ∃ p, ssid = Some p ∧ picked w results a p.
Proof.
  intros Hw Hr. induction 1 as [|g groups Hg Hgs IH]; intros sel; [by eexists _, _|]. cbn [prio_loop]. unfold wpa_supplicant_select_bss.
  assert (Hl : live (nets (conf w)) g) by (eapply Forall_impl; [exact Hg|]; intros q Hq; by apply (cfg_dom _ (sok_conf w Hw))).
  rewrite (select_loop_spec w Hw) by done. destruct (candidate w results g) as [[r p]|] eqn:Hc.
  2:{ rewrite run_bind_l. apply IH. }
  destruct (candidate_Some _ _ _ _ _ Hc) as (Hm & l1 & l2 & Hin & _). apply match_in_Some in Hm as (_ & Hp & Hf).
  destruct (bss_get_total (table w) (r_bssid r) (r_ssid r) (sok_table w Hw)) as ([a|] & -> & Ha); rewrite !run_bind_l; [|apply IH].
  eexists _, _. split; [done|]. intros a' [= <-]. exists p. split; [done|]. destruct (Ha a eq_refl) as (b & Hb & Hs).
  assert (Hrin : r ∈ results) by (rewrite Hin; set_solver). exists r, b. split_and!; [done|by eapply Forall_forall in Hg|done|done|].
  apply (same_bss_bssid _ (r_ssid r)); [by apply (inv_wf _ (sok_table w Hw) a)|eapply Forall_forall in Hr; [apply Hr|done]|done].
Qed.

Lemma pick_sound w results : sup_ok w → Forall res_wf results →
  ∃ b ssid w', wpa_supplicant_pick_network w results = Ret (b, ssid, w') ∧ (w' = w ∨ w' = cleared w) ∧
    ∀ a, b = Some a → ∃ p, ssid = Some p ∧ picked w results a p.
Proof.
  intros Hw Hr. assert (Hg : Forall (Forall (.∈ c_ssid (conf w))) (c_pssid (conf w)))
    by (eapply Forall_impl; [exact (cfg_groups _ (sok_conf w Hw))|]; by intros g []).
  unfold wpa_supplicant_pick_network. cbn [pick_loop].
  destruct (prio_loop_sound w results _ Hw Hr Hg None) as ([a|] & ssid & -> & Ha); rewrite run_bind_l.
  { do 3 eexists. split; [done|]. split; [by left|]. done. }
  destruct (blacklist w) as [|e l] eqn:Hbl; [do 3 eexists; split; [done|]; split; [by left|done]|].
  change (w <| blacklist := _ |> <| blacklist_cleared := _ |>) with (cleared w).
  assert (Hw' : sup_ok (cleared w)) by (destruct Hw; by split).
  destruct (prio_loop_sound (cleared w) results (c_pssid (conf w)) Hw' Hr Hg ssid) as (b & ssid' & E & Hb).
  change (c_pssid (conf (cleared w))) with (c_pssid (conf w)). rewrite E, run_bind_l. exists b, ssid', (cleared w).
  split; [by destruct b|]. split; [by right|exact Hb].
Qed.

(** A network for WPA is only matched by an access point that announces WPA or RSN with
    suites the network allows. *)
Definition secured (n : wpa_ssid) (r : wpa_scan_res) : Prop :=
  ∃ d, suites_ok n d = true ∧
    (has (n_proto n) WPA_PROTO_RSN = true ∧ parsed (r_element r WLAN_EID_RSN) = Some d ∨
     has (n_proto n) WPA_PROTO_WPA = true ∧ parsed (r_wpa_element r) = Some d).

Lemma offers_suites n p e : wpa_key_mgmt_wpa (n_key_mgmt n) = true → offers n p e = true →
  has (n_proto n) p = true ∧ ∃ d, parsed e = Some d ∧ suites_ok n d = true.
Proof.
  intros Hk H. unfold offers, wep_ok in H. rewrite Hk in H. cbn [negb andb] in H. apply andb_true_iff in H as [Hp H].
  split; [done|]. destruct (parsed e) as [d|]; [|done]. by exists d.
Qed.

Lemma accepts_secured modes r n : accepts modes r n = true → wpa_key_mgmt_wpa (n_key_mgmt n) = true →
  secured n r ∧ (n_mixed_cell n = false → has (r_caps r) IEEE80211_CAP_PRIVACY = true).
Proof.
  intros Ha Hk. unfold accepts in Ha. repeat match goal with H : _ && _ = true |- _ => apply andb_true_iff in H as [? ?] end. split.
  - assert (Hs : security_ok n r = true) by done. unfold security_ok in Hs. rewrite Hk, orb_false_r in Hs.
    apply orb_true_iff in Hs as [Hs|Hs]; apply offers_suites in Hs as (Hp & d & Hd & Hs); try done; exists d; auto.
  - intros Hmc. match goal with H : wpa_supplicant_match_privacy r n = true |- _ => unfold wpa_supplicant_match_privacy in H; rewrite Hmc, Hk in H end.
    by destruct (has (r_caps r) IEEE80211_CAP_PRIVACY).
Qed.

(** ** Claims *)


Definition quiet (e : sup_event) : Prop := ∀ a p, e ≠ EvAssociate (Some a) p.
(** Steps that keep configuration, table and hardware and request no association with
    an access point. *)
Definition quietly (w w' : wpa_supplicant) : Prop :=
  conf w' = conf w ∧ table w' = table w ∧ hw_modes w' = hw_modes w ∧ ∃ evs, sup_log w' = sup_log w ++ evs ∧ Forall quiet evs.

#[global] Instance quietly_preorder : PreOrder quietly.
Proof.
  split.
  - intros w. split_and!; try done. exists []. by rewrite app_nil_r.
  - intros w1 w2 w3 (C1 & T1 & H1 & e1 & L1 & Q1) (C2 & T2 & H2 & e2 & L2 & Q2). split_and!; [congruence..|].
    exists (e1 ++ e2). rewrite L2, L1, app_assoc. split; [done|]. by apply Forall_app.
Qed.

Lemma quietly_log e w w' : quiet e → quietly w w' → quietly w (log e w').
Proof.
  intros He Hq. transitivity w'; [done|]. split_and!; try done. exists [e]. split; [done|]. by constructor.
Qed.
Ltac quiet_step := repeat (apply quietly_log; [intros ? ?; discriminate|]); try (split_and!; [done..|exists []; split; [by rewrite app_nil_r|constructor]]).

Lemma notify_scanning_quiet b w : quietly w (wpa_supplicant_notify_scanning b w).
Proof. unfold wpa_supplicant_notify_scanning. if_branch; [done|]. quiet_step. Qed.

Lemma set_state_quiet st w : quietly w (wpa_supplicant_set_state st w).
Proof.
  assert (H0 : quietly w (if negb (st =? WPA_SCANNING) then wpa_supplicant_notify_scanning false w else w))
    by (if_branch; [apply notify_scanning_quiet|done]).
  unfold wpa_supplicant_set_state. set (w0 := if negb (st =? WPA_SCANNING) then _ else _) in *. clearbody w0. cbv zeta.
  set (w1 := if (st =? WPA_COMPLETED) && _ then _ else _). assert (H1 : quietly w w1).
  { transitivity w0; [done|]. unfold w1. if_branch; [quiet_step|]. if_branch; [quiet_step|done]. }
  clearbody w1. assert (H2 : quietly w (w1 <| wpa_state := st |>)) by (transitivity w1; [done|]; quiet_step).
  if_branch; [|done]. if_branch; repeat (apply quietly_log; [intros ? ?; discriminate|]); done.
Qed.

Lemma req_scan_quiet sec usec w : live (nets (conf w)) (c_ssid (conf w)) →
  ∃ w', wpa_supplicant_req_scan sec usec w = Ret w' ∧ quietly w w'.
Proof.
  intros Hl. unfold wpa_supplicant_req_scan.
  assert (∃ k : bool, (if bool_decide (is_Some (scan_timer w)) && (c_ap_scan (conf w) =? 1)
     then p ← find_network (λ n, negb (n_disabled n) && n_scan_ssid n) (c_ssid (conf w)) (conf w); Ret (bool_decide (is_Some p))
     else Ret false) = Ret k) as [k ->].
  { if_branch; [|eauto]. destruct (find_network_spec (λ n, negb (n_disabled n) && n_scan_ssid n) _ _ Hl) as (p & -> & _). rewrite run_bind_l. eauto. }
  rewrite run_bind_l. eexists. split; [done|]. destruct k; [done|quiet_step].
Qed.
Lemma req_new_scan_quiet sec usec w : live (nets (conf w)) (c_ssid (conf w)) →
  ∃ w', wpa_supplicant_req_new_scan sec usec w = Ret w' ∧ quietly w w'.
Proof.
  intros Hl. unfold wpa_supplicant_req_new_scan. rewrite enabled_networks_spec, run_bind_l by done.
  if_branch; [|by apply req_scan_quiet]. eexists. split; [done|]. apply set_state_quiet.
Qed.

Lemma find_current_total w x results : Forall res_wf results → ∃ c, find_current w x results = Ret c.
Proof.
  induction 1 as [|r l Hr Hl IH]; [by eexists|]. cbn [find_current]. if_branch; [done|]. rewrite scan_get_ie, run_bind_l by done.
  pose proof (found_element r Hr (ie_is WLAN_EID_SSID)) as H. destruct (ie_find _ 0 (elements r)) as [pos|]; [|done].
  destruct H as (e & _ & Hlen & _ & Hd & _). rewrite Hlen, run_bind_l. if_branch; [done|]. rewrite Nat2Z.id, Hd, run_bind_l. if_branch; [done|eauto].
Qed.
Lemma need_to_roam_total w results a p : sup_ok w → Forall res_wf results → is_Some (store (table w) !! a) →
  (∀ q, current_ssid w = Some q → q ∈ c_ssid (conf w)) → ∃ x, wpa_supplicant_need_to_roam a p results w = Ret x.
Proof.
  intros Hw Hr [b Hb] Hcur. unfold wpa_supplicant_need_to_roam. if_branch; [eauto|]. if_branch; [eauto|].
  destruct (current_ssid w) as [q|] eqn:Hq; [|eauto]. if_branch; [eauto|]. if_branch; [eauto|].
  destruct (net_at_live q (conf w)) as (n & -> & _); [apply (cfg_dom _ (sok_conf w Hw)); by apply Hcur|]. rewrite run_bind_l.
  destruct (find_current_total w (n_ssid n) results Hr) as [[c|] ->]; rewrite run_bind_l; [|eauto].
  rewrite (bss_at_live _ _ _ Hb), run_bind_l. if_branch; eauto.
Qed.
Lemma pick_new_total w : sup_ok w → ∃ o, wpa_supplicant_pick_new_network w = Ret o.
Proof.
  intros Hw. unfold wpa_supplicant_pick_new_network.
  assert (Hl : live (nets (conf w)) (concat (c_pssid (conf w)))).
  { apply Forall_forall. intros p (g & Hp & Hg)%elem_of_concat. pose proof (groups_live w Hw g Hg) as H. by eapply Forall_forall in H. }
  induction Hl as [|p l Hp Hl IH]; [by eexists|]. cbn [first_new_network]. destruct (net_at_live p (conf w) Hp) as (n & -> & _).
  rewrite run_bind_l. if_branch; [done|]. if_branch; [eauto|done].
Qed.

(** The association an event requests is one with an access point of the results, for
    a network that accepts it; a network for WPA only with announced and allowed
    suites. *)
Definition association_ok (w : wpa_supplicant) (results : list wpa_scan_res) (t : bss_sys) (e : sup_event) : Prop :=
  ∀ a p, e = EvAssociate (Some a) p →
    ∃ r n b, r ∈ results ∧ nets (conf w) !! p = Some n ∧ accepts (hw_modes w) r n = true ∧
      store t !! a = Some b ∧ bssid b = r_bssid r ∧
      (wpa_key_mgmt_wpa (n_key_mgmt n) = true →
         secured n r ∧ (n_mixed_cell n = false → has (r_caps r) IEEE80211_CAP_PRIVACY = true)).

Lemma picked_association w results a p : picked w results a p → association_ok w results (table w) (EvAssociate (Some a) p).
Proof.
  intros (r & b & Hr & Hp & [_ Ha] & Hb & Hbs) a' p' [= <- <-]. unfold net_accepts in Ha.
  destruct (nets (conf w) !! p) as [n|] eqn:Hn; [|done]. exists r, n, b. split_and!; try done. intros Hk. by eapply accepts_secured.
Qed.
Lemma quiet_association w results t e : quiet e → association_ok w results t e.
Proof. intros Hq a p ->. by destruct (Hq a p). Qed.

(** Log grown by acceptable requests. *)
Definition acts_well (w : wpa_supplicant) (results : list wpa_scan_res) (w' : wpa_supplicant) : Prop :=
  conf w' = conf w ∧ table w' = table w ∧
  ∃ evs, sup_log w' = sup_log w ++ evs ∧ Forall (association_ok w results (table w)) evs.

Lemma quietly_acts_well w results w' : quietly w w' → acts_well w results w'.
Proof.
  intros (Hc & Ht & _ & evs & Hl & Hq). split_and!; try done. exists evs. split; [done|]. eapply Forall_impl; [exact Hq|].
  intros e. apply quiet_association.
Qed.

Lemma connect_acts_well w0 w results a p : quietly w0 w → picked w0 results a p →
  ∃ w', wpa_supplicant_connect a p w = Ret (0, w') ∧ acts_well w0 results (log EvPreauthScanResults w').
Proof.
  intros Hq Hp. pose proof Hp as (r & b & _ & _ & _ & Hb & _). destruct Hq as (Hc & Ht & Hh & evs & Hl & Hqs).
  unfold wpa_supplicant_connect. rewrite Ht, (bss_at_live _ _ _ Hb), run_bind_l. eexists. split; [done|]. if_branch.
  - split_and!; [done|done|]. exists (evs ++ [EvAssociate (Some a) p; EvPreauthScanResults]). split; [cbn; by rewrite Hl, <-!app_assoc|].
    apply Forall_app. split; [eapply Forall_impl; [exact Hqs|]; intros e; apply quiet_association|]. repeat constructor.
    + by apply picked_association.
    + apply quiet_association. by intros ? ?.
  - apply quietly_acts_well. apply quietly_log; [by intros ? ?|]. split_and!; try done. by exists evs.
Qed.

Lemma after_results_ok env w results : sup_ok w → Forall res_wf results →
  (∀ q, current_ssid w = Some q → q ∈ c_ssid (conf w)) →
  ∃ x w', after_results env results w = Ret (x, w') ∧ acts_well w results w'.
Proof.
  intros Hw Hr Hcur. unfold after_results. destruct (pick_sound w results Hw Hr) as (b & ssid & w1 & -> & Hw1 & Hp). rewrite run_bind_l.
  assert (Hq : quietly w w1) by (destruct Hw1 as [->| ->]; [done|quiet_step]).
  assert (Hw1ok : sup_ok w1 ∧ current_ssid w1 = current_ssid w ∧ conf w1 = conf w) by (destruct Hw1 as [->| ->]; destruct Hw; by split_and!).
  destruct Hw1ok as (Hok & Hcs & Hcf). destruct b as [a|].
  - destruct (Hp a eq_refl) as (p & -> & Hpick). pose proof Hpick as (r & b & _ & _ & _ & Hb & _).
    destruct (need_to_roam_total w1 results a p) as [x ->]; [done|done|destruct Hq as (_ & -> & _); eauto|by rewrite Hcs, Hcf|].
    rewrite run_bind_l. destruct x; cbn [negb].
    + destruct (connect_acts_well w w1 results a p Hq Hpick) as (w' & -> & H). rewrite run_bind_l. eauto.
    + do 2 eexists. split; [done|]. apply quietly_acts_well. by apply quietly_log; [by intros ? ?|].
  - destruct (pick_new_total w1 Hok) as [[p|] ->]; rewrite run_bind_l.
    + do 2 eexists. split; [done|]. apply quietly_acts_well. repeat (apply quietly_log; [by intros ? ?|]). done.
    + cbv zeta. assert (Hq' : quietly w (log EvSchedScan w1)) by (by apply quietly_log; [by intros ? ?|]).
      if_branch; [|do 2 eexists; split; [done|]; by apply quietly_acts_well].
      destruct (req_new_scan_quiet (scan_interval (log EvSchedScan w1)) 0 (log EvSchedScan w1)) as (w' & -> & H); [by apply (conf_live w1)|].
      rewrite run_bind_l. do 2 eexists. split; [done|]. apply quietly_acts_well. by transitivity (log EvSchedScan w1).
Qed.

Lemma results_handled w w0 t l rs w2 (x : Z) w' : quietly w w0 → bss_inv t → (∀ r, r ∈ rs → r ∈ l) →
  quietly (w0 <| table := t |>) w2 → acts_well w2 rs w' →
  ∃ x' w'', Ret (x, w') = Ret (x', w'') ∧ bss_inv (table w'') ∧ conf w'' = conf w ∧
    ∃ evs, sup_log w'' = sup_log w ++ evs ∧ Forall (association_ok w l (table w'')) evs.
Proof.
  intros (Hc0 & Ht0 & Hh0 & e0 & Hl0 & Hqe0) Hti Hsub (B1 & B2 & B3 & evs' & B4 & B5) (A1 & A2 & evs & A3 & A4). exists x, w'. split; [done|].
  rewrite A2, B2. split; [exact Hti|]. split; [by rewrite A1, B1|]. exists (e0 ++ evs' ++ evs).
  split; [rewrite A3, B4; cbn; by rewrite Hl0, <-!app_assoc|]. rewrite !Forall_app. split_and!.
  - eapply Forall_impl; [exact Hqe0|]. intros e. apply quiet_association.
  - eapply Forall_impl; [exact B5|]. intros e. apply quiet_association.
  - eapply Forall_impl; [exact A4|]. intros e He a p Hep. destruct (He a p Hep) as (r & n & b & H1 & H2 & H3 & H4 & H5 & H6).
    exists r, n, b. rewrite B1, B3 in *. cbn in H2, H3. rewrite Hc0 in H2. rewrite Hh0 in H3. rewrite B2 in H4. split_and!; auto.
Qed.

(** C16: handling scan results is safe and never downgrades: for any results, order,
    allocations and configuration the handler returns with the BSS table consistent,
    and it requests an association only with an access point of the results that the
    network accepts; for a network configured for WPA or WPA2 the access point must
    have announced an RSN or WPA element, of a protocol the network allows, with common
    pairwise and group ciphers and key management, and (without mixed_cell) the privacy
    bit. *)
Theorem scan_results_no_downgrade env l info w :
  config_ok (conf w) → nets_wf (conf w) → bss_inv (table w) → (∀ q, current_ssid w = Some q → q ∈ c_ssid (conf w)) →
  (∀ k, se_qsort env k ≡ₚ k) → (∀ i, alloc_ok (se_envs env i).1) → Forall res_wf l →
  bss_next_id (table w) + Z.of_nat (length l) < 2 ^ 32 →
  ∃ x w', _wpa_supplicant_event_scan_results env (Some l) info w = Ret (x, w') ∧ bss_inv (table w') ∧ conf w' = conf w ∧
    ∃ evs, sup_log w' = sup_log w ++ evs ∧ Forall (association_ok w l (table w')) evs.
Proof.
  intros Hc Hn Ht Hcur Hq Hal Hl Hid. unfold _wpa_supplicant_event_scan_results.
  set (w0 := wpa_supplicant_notify_scanning false w). pose proof (notify_scanning_quiet false w : quietly w w0) as Hq0.
  assert (Hcs : current_ssid w0 = current_ssid w) by (unfold w0, wpa_supplicant_notify_scanning; by if_branch). clearbody w0.
  pose proof Hq0 as (Hc0 & Ht0 & _). cbv zeta. rewrite Ht0.
  destruct (get_scan_results_inv (se_qsort env) (se_envs env) l info true (table w) Hq Hal Hl Ht Hid) as (t & -> & Hti & _). rewrite run_bind_l.
  set (w1 := w0 <| table := t |>). set (rs := se_qsort env (filter_scan_res (table w) l)).
  assert (Hsub : ∀ r, r ∈ rs → r ∈ l).
  { intros r Hr. unfold rs in Hr. rewrite (Hq _) in Hr. eapply elem_of_sublist; [exact Hr|]. apply filter_scan_res_sub. }
  assert (Hrs : Forall res_wf rs) by (apply Forall_forall; intros r Hr%Hsub; by eapply Forall_forall in Hl).
  assert (Hquiet : ∀ (x : Z) w', quietly w1 w' → ∃ x' w'', Ret (x, w') = Ret (x', w'') ∧ bss_inv (table w'') ∧
     conf w'' = conf w ∧ ∃ evs, sup_log w'' = sup_log w ++ evs ∧ Forall (association_ok w l (table w'')) evs).
  { intros x w' H. eapply (results_handled w w0 t l rs); eauto. by apply quietly_acts_well. }
  if_branch. { apply Hquiet. quiet_step. }
  set (w2 := log (EvScanDone true) (log EvScanResults w1)). assert (Hw2 : quietly w1 w2) by quiet_step.
  if_branch; [by apply Hquiet|]. if_branch. { apply Hquiet. transitivity w2; [done|apply set_state_quiet]. }
  destruct (after_results_ok env w2 rs) as (x & w' & E & H); [|done|cbn; by rewrite Hcs, Hc0|].
  - split; cbn; [by rewrite Hc0..|]. apply Hti.
  - rewrite E. by eapply (results_handled w w0 t l rs w2).
Qed.

(** ** Failed connections *)

(** Another entry of the table in the ESS of [cur] that is not blacklisted. *)
Definition ess_other (w : wpa_supplicant) (cur : positive) (cbss : wpa_bss) (p : positive) : bool :=
  negb (bool_decide (p = cur)) &&
  match store (table w) !! p with
  | Some b => (ssid_len b =? ssid_len cbss)%nat && (memcmp (take (ssid_len b) (ssid b)) (take (ssid_len b) (ssid cbss)) =? 0) &&
              match wpa_blacklist_get (blacklist w) (bssid b) with None => true | Some _ => false end
  | None => false
  end.

Lemma ess_freqs_spec w cur cbss l : (∀ p, p ∈ l → is_Some (store (table w) !! p)) → ∀ freqs, (length freqs < 10)%nat →
  ∃ fs, ess_freqs_loop w cur cbss l freqs = Ret fs ∧ (length fs ≤ 10)%nat ∧
    (length fs = 0%nat ↔ length freqs = 0%nat ∧ existsb (ess_other w cur cbss) l = false).
Proof.
  induction l as [|p l IH]; intros Hl freqs Hf; [exists freqs; split; [done|]; split; [lia|]; cbn; naive_solver|].
  assert (Hl' : ∀ q, q ∈ l → is_Some (store (table w) !! q)) by (intros; apply Hl; by right). specialize (IH Hl').
  destruct (Hl p) as [b Hb]; [left|]. cbn [ess_freqs_loop existsb]. unfold ess_other at 1. rewrite Hb.
  destruct (bool_decide (p = cur)); cbn [negb andb orb]; [by apply IH|]. rewrite (bss_at_live _ _ _ Hb), run_bind_l.
  destruct (_ && _ && _); cbn [orb]; [|by apply IH]. unfold add_freq. destruct (existsb (Z.eqb (freq b)) freqs) eqn:He.
  - rewrite run_bind_l. destruct (Nat.eqb_spec (length freqs) 10); [lia|]. destruct (IH freqs Hf) as (fs & -> & Hlen & Hz). exists fs. split; [done|]. split; [done|].
    rewrite Hz. destruct freqs; [done|]. cbn. naive_solver.
  - rewrite (proj2 (Nat.ltb_lt _ _)), run_bind_l by lia. assert (Hln : length (freqs ++ [freq b]) = S (length freqs)) by (rewrite length_app; cbn; lia).
    destruct (Nat.eqb_spec (length (freqs ++ [freq b])) 10); [exists (freqs ++ [freq b]); split; [done|]; split; [lia|]; split; [lia|naive_solver]|].
    destruct (IH (freqs ++ [freq b]) ltac:(lia)) as (fs & -> & Hlen & Hz). exists fs. split; [done|]. split; [done|]. rewrite Hz. split; [lia|naive_solver].
Qed.

Definition ess_has_other (w : wpa_supplicant) : bool :=
  match current_bss (table w) with
  | Some cur => match store (table w) !! cur with Some b => existsb (ess_other w cur b) (bss (table w)) | None => false end
  | None => false
  end.

Lemma freqs_in_ess_spec ok w cur : bss_core (table w) → current_bss (table w) = Some cur → is_Some (store (table w) !! cur) →
  ∃ o, get_bss_freqs_in_ess ok w cur = Ret o ∧ (∀ fs, o = Some fs → (1 ≤ length fs ≤ 10)%nat) ∧
    (is_Some o ↔ ok = true ∧ ess_has_other w = true).
Proof.
  intros Hc Hcur [b Hb]. unfold get_bss_freqs_in_ess, ess_has_other. rewrite Hcur, Hb. destruct ok; cbn [negb].
  2:{ exists None. split; [done|]. split; [done|]. split; [by intros []|naive_solver]. }
  rewrite (bss_at_live _ _ _ Hb), run_bind_l.
  destruct (ess_freqs_spec w cur b (bss (table w))) with (freqs := @nil Z) as (fs & -> & Hlen & Hz); [intros p; apply (inv_dom _ Hc)|cbn; lia|].
  rewrite run_bind_l. eexists. split; [done|]. destruct (Nat.eqb_spec (length fs) 0) as [E|E].
  - split; [done|]. destruct (proj1 Hz E) as [_ ->]. split; [by intros []|naive_solver].
  - split; [intros ? [= <-]; lia|]. destruct (existsb _ _); [split; eauto|]. exfalso. apply E. by apply Hz.
Qed.

Lemma blacklist_add_again l a : bl_ok l → length a = 6%nat → failures l a ≠ 0 →
  bl_ok (wpa_blacklist_add true l a).2 ∧
  ∀ b, length b = 6%nat → failures (wpa_blacklist_add true l a).2 b = if bool_decide (b = a) then failures l a + 1 else failures l b.
Proof.
  intros Hl Ha Hf. pose proof (blacklist_add_counts true l a Hl Ha) as H. destruct (wpa_blacklist_add true l a) as [r l'].
  destruct H as [Hok [(_ & _ & Hn & _)|[-> H]]]; [done|]. by split.
Qed.

Lemma blacklist_first ok l a l' : bl_ok l → wpa_blacklist_add ok l a = (1, l') → l' = WpaBlacklist a 1 :: l ∧ failures l a = 0.
Proof.
  intros [_ Hf]. unfold wpa_blacklist_add, failures. destruct (wpa_blacklist_get l a) as [e|] eqn:He.
  - intros [= Hc _]. apply find_some in He as [Hin%list_elem_of_In _]. eapply Forall_forall in Hf as [_ ?]; [|exact Hin]. lia.
  - by destruct ok; intros [= <-].
Qed.
Lemma req_scan_timer sec usec w : live (nets (conf w)) (c_ssid (conf w)) →
  ∃ w', wpa_supplicant_req_scan sec usec w = Ret w' ∧ ∃ t, w' = w <| scan_timer := t |> ∧ is_Some t.
Proof.
  intros Hl. unfold wpa_supplicant_req_scan. destruct (bool_decide (is_Some (scan_timer w))) eqn:Ht; cbn [andb].
  2:{ rewrite run_bind_l. eexists. split; [done|]. by eexists. }
  apply bool_decide_eq_true in Ht. destruct (c_ap_scan (conf w) =? 1).
  - destruct (find_network_spec (λ n, negb (n_disabled n) && n_scan_ssid n) _ _ Hl) as (p & -> & _). rewrite !run_bind_l.
    case_bool_decide; (eexists; split; [done|]); [exists (scan_timer w); by destruct w|by eexists].
  - rewrite run_bind_l. eexists. split; [done|]. by eexists.
Qed.

Lemma try_other_bss_spec ok a count w : bss_core (table w) → (∀ c, current_bss (table w) = Some c → is_Some (store (table w) !! c)) →
  ∃ w2, try_other_bss ok a count w = Ret w2 ∧
    (w2 = w ∧ (count = 1 → ok = true → ess_has_other w = false) ∨
     ∃ fs, w2 = w <| blacklist := (wpa_blacklist_add true (blacklist w) a).2 |> <| next_scan_freqs := Some fs |> ∧ count = 1 ∧
       ess_has_other w = true ∧ (1 ≤ length fs ≤ 10)%nat).
Proof.
  intros Ht Hcur. unfold try_other_bss. destruct (current_bss (table w)) as [cur|] eqn:Hcb.
  2:{ eexists. split; [done|]. left. split; [done|]. intros _ _. unfold ess_has_other. by rewrite Hcb. }
  destruct (Z.eqb_spec count 1) as [->|Hne]; [|eexists; split; [done|]; left; done].
  destruct (freqs_in_ess_spec ok w cur Ht Hcb (Hcur cur eq_refl)) as (o & -> & Hlen & Ho). rewrite run_bind_l.
  destruct o as [fs|]; eexists; (split; [done|]); [right|left].
  - exists fs. split_and!; try done; [apply Ho; eauto|by apply Hlen..].
  - split; [done|]. intros _ Hal. destruct (ess_has_other w); [|done]. by destruct (proj2 Ho (conj Hal eq_refl)) as [? [=]].
Qed.


(** ** The order of scan results *)

(** The comparison is antisymmetric on any scan results ... *)
Lemma scan_compar_antisym a b : res_wf a → res_wf b →
  ∃ x, wpa_scan_result_compar a b = Ret x ∧ wpa_scan_result_compar b a = Ret (- x).
Proof.
  intros Ha Hb. unfold wpa_scan_result_compar.
  assert (Hwpa : ∀ r, res_wf r → ∃ v, scan_wpa r = Ret v).
  { intros r Hr. unfold scan_wpa. rewrite scan_get_vendor_ie, run_bind_l, scan_get_ie, run_bind_l by done. eauto. }
  assert (Hmax : ∀ r, res_wf r → ∃ v, wpa_scan_get_max_rate r = Ret v).
  { intros r Hr. unfold wpa_scan_get_max_rate, wpa_bss_get_max_rate. rewrite !(wpa_bss_get_ie_find _ _ _ (elements_stream r Hr)).
    rewrite run_bind_l, (max_rate_of_spec _ _ _ _ (elements_stream r Hr)), !run_bind_l, (max_rate_of_spec _ _ _ _ (elements_stream r Hr)). eauto. }
  destruct (Hwpa a Ha) as [va Hva], (Hwpa b Hb) as [vb Hvb]. rewrite Hva, Hvb, !run_bind_l.
  destruct va, vb; cbn [negb andb]; try (by eauto).
  all: destruct (has (r_caps a) IEEE80211_CAP_PRIVACY), (has (r_caps b) IEEE80211_CAP_PRIVACY); cbn [negb andb]; try (by eauto).
  all: assert (Hsnr : ∀ r, scan_snr b a r = scan_snr a b r)
         by (intros r; unfold scan_snr; by rewrite (Z.land_comm (r_flags b)), (Z.lor_comm (r_flags b))).
  all: rewrite !Hsnr; set (sa := scan_snr a b a); set (sb := scan_snr a b b).
  all: rewrite (andb_comm (negb (sb =? 0))), (andb_comm (negb (r_qual b =? 0))).
  all: replace (Z.abs (sa - sb)) with (Z.abs (sb - sa)) by lia; replace (Z.abs (r_qual a - r_qual b)) with (Z.abs (r_qual b - r_qual a)) by lia.
  all: assert (Hby : (if sa =? sb then r_qual a - r_qual b else sa - sb) = - (if sb =? sa then r_qual b - r_qual a else sb - sa))
         by (rewrite Z.eqb_sym; destruct (sb =? sa); lia).
  all: cbv zeta; rewrite Hby; if_branch; [|by eauto].
  all: destruct (Hmax a Ha) as [ma ->], (Hmax b Hb) as [mb ->]; rewrite !run_bind_l, (Z.eqb_sym mb ma).
  all: destruct (ma =? mb); cbn [negb]; [|exists (mb - ma); split; [done|]; f_equal; lia].
  all: rewrite xorb_comm; destruct (IS_5GHZ (r_freq a)), (IS_5GHZ (r_freq b)); cbn [xorb]; eauto.
Qed.

Module Demo.
Import Bss.Demo.

Definition rsn_psk_ccmp : list Z :=
  [48; 20; 1; 0; 0x00; 0x0f; 0xac; 4; 1; 0; 0x00; 0x0f; 0xac; 4; 1; 0; 0x00; 0x0f; 0xac; 2; 0; 0].
(** A WPA2 access point of network "a", an open one of the same name, and one with the
    name "b". *)
Definition ap (bssid : list Z) (caps lvl rate : Z) (ies : list Z) : wpa_scan_res :=
  ScanRes 8 bssid 2412 100 caps 0 0 lvl 7 1500 (length ies + 3) 0 (ies ++ [1; 1; rate]).
Definition ap_wpa2 : wpa_scan_res := ap [2; 0; 0; 0; 0; 1] 0x11 (-60) 2 ([0; 1; 97] ++ rsn_psk_ccmp).
Definition ap_rogue : wpa_scan_res := ap [2; 0; 0; 0; 0; 2] 0x01 (-30) 2 [0; 1; 97].
Definition ap_open : wpa_scan_res := ap [2; 0; 0; 0; 0; 3] 0x01 (-40) 2 [0; 1; 98].
(** A result whose name is 33 bytes long, which the BSS table does not store. *)
Definition ap_long : wpa_scan_res := ap [2; 0; 0; 0; 0; 4] 0x01 (-20) 2 (0 :: 33 :: repeat 120 33).

(** Network "a" with WPA2-PSK, and any open network with a lower priority. *)
Definition net_home : wpa_ssid :=
  wpa_config_set_network_defaults zero_ssid <| n_ssid := [97] |> <| n_key_mgmt := 2 |> <| n_priority := 1 |>.
Definition net_any : wpa_ssid := wpa_config_set_network_defaults zero_ssid <| n_id := 1 |> <| n_key_mgmt := 4 |>.
Definition s_conf : wpa_config := WpaConfig [1; 2]%positive [[1]; [2]]%positive {[1%positive := net_home; 2%positive := net_any]} 1.

Definition s_table (l : list wpa_scan_res) : bss_sys := demo_state 10 [demo_scan l].
Definition s_start (l : list wpa_scan_res) (bl : list wpa_blacklist) : wpa_supplicant :=
  WpaSupplicant s_conf bl 0 (s_table l) None 0 WPA_SCANNING false false false false None 5 true None None false [].

Lemma s_nets p n : nets s_conf !! p = Some n → p = 1%positive ∧ n = net_home ∨ p = 2%positive ∧ n = net_any.
Proof.
  cbn. intros [[-> <-]|[_ [-> <-]%lookup_singleton_Some]]%lookup_insert_Some; auto.
Qed.
Lemma s_conf_ok : config_ok s_conf.
Proof.
  split.
  - apply (bool_decide_unpack _). vm_compute. exact I.
  - intros p. split.
    + cbn. intros [->|[->|[]%not_elem_of_nil]%elem_of_cons]%elem_of_cons; eexists; vm_compute; reflexivity.
    + intros [n [[-> _]|[-> _]]%s_nets]; [left|right; left].
  - intros p q n n' [[-> ->]|[-> ->]]%s_nets [[-> ->]|[-> ->]]%s_nets; done.
  - repeat constructor; try done; set_solver.
Qed.
Lemma s_nets_wf : nets_wf s_conf.
Proof. intros p n [[-> ->]|[-> ->]]%s_nets; split; done. Qed.
Lemma s_prio : prio_lists (nets s_conf) (c_ssid s_conf) (c_pssid s_conf).
Proof.
  exists [1; 0]. split; [vm_compute; reflexivity|]. split; [repeat constructor; lia|]. intros x. split.
  - intros [->|[->|[]%not_elem_of_nil]%elem_of_cons]%elem_of_cons; [exists 1%positive|exists 2%positive]; split; vm_compute; try done; [left|right; left].
  - intros (p & Hp & <-). cbn in Hp. apply elem_of_cons in Hp as [->|[->|[]%not_elem_of_nil]%elem_of_cons]; vm_compute; [left|right; left].
Qed.
Lemma ap_wf : Forall res_wf [ap_wpa2; ap_rogue; ap_open; ap_long].
Proof. repeat constructor; try done; by apply (bool_decide_unpack _); vm_compute. Qed.
Lemma s_table_inv l : Forall res_wf l → (length l < 100)%nat → bss_inv (s_table l).
Proof.
  intros Hl Hn. unfold s_table, demo_state.
  destruct (run_bss_ops_inv [demo_scan l] (bss_start 10 180 2)) as (s & E & I); [|by apply bss_start_inv|cbn; lia|by rewrite E].
  repeat constructor; cbn; try done; apply demo_env_ok.
Qed.

Definition s_results : list wpa_scan_res := [ap_rogue; ap_open; ap_wpa2].
Lemma s_ok l bl : Forall res_wf l → (length l < 100)%nat → sup_ok (s_start l bl).
Proof. intros Hl Hn. split; [exact s_conf_ok|exact s_nets_wf|]. by apply s_table_inv. Qed.
Lemma s_results_wf : Forall res_wf s_results.
Proof. pose proof ap_wf as H. rewrite !Forall_cons in H. destruct H as (H1 & H2 & H3 & _). by repeat constructor. Qed.

(** The WPA2 access point is picked although the open ones come first. *)
Example demo_pick :
  match wpa_supplicant_pick_network (s_start s_results []) s_results with
  | Ret (Some a, ssid, _) => (option_map bssid (store (s_table s_results) !! a), ssid)
  | _ => (None, None)
  end = (Some [2; 0; 0; 0; 0; 1], Some 1%positive).
Proof. vm_compute. reflexivity. Qed.


Definition s_env : scan_env := ScanEnv (λ l, l) demo_envs 0.

Lemma scan_results_no_downgrade_witness :
  ∃ x w', _wpa_supplicant_event_scan_results s_env (Some s_results) None (s_start [] []) = Ret (x, w') ∧ bss_inv (table w') ∧
    ∃ evs, sup_log w' = sup_log (s_start [] []) ++ evs ∧ Forall (association_ok (s_start [] []) s_results (table w')) evs.
Proof.
  destruct (scan_results_no_downgrade s_env s_results None (s_start [] [])) as (x & w' & E & H1 & _ & H2).
  - exact s_conf_ok.
  - exact s_nets_wf.
  - apply s_table_inv; [constructor|cbn; lia].
  - discriminate.
  - reflexivity.
  - intros i. apply demo_env_ok.
  - exact s_results_wf.
  - vm_compute. reflexivity.
  - exists x, w'. split; [exact E|]. split; [exact H1|exact H2].
Defined.

Lemma set_current_core s c : bss_core s → bss_core (s <| Bss.current_bss := c |>).
Proof. intros [H1 H2 H3 H4 H5 H6 H7 H8 H9]. by split. Qed.
Definition s_assoc : wpa_supplicant :=
  s_start s_results [] <| table := s_table s_results <| Bss.current_bss := head (bss (s_table s_results)) |> |>.

(** The comparison by which scan results are sorted is not an order: of these three
    access points the second is preferred to the first and the third to the second for
    their rates, since the signals are close, but the first to the third for its
    signal; [qsort] requires a consistent comparison. *)
Theorem scan_compar_cycle :
  let a := ap [2; 0; 0; 0; 0; 1] 0x01 (-60) 2 [] in
  let b := ap [2; 0; 0; 0; 0; 2] 0x01 (-64) 4 [] in
  let c := ap [2; 0; 0; 0; 0; 3] 0x01 (-68) 11 [] in
  wpa_scan_result_compar a b = Ret 2 ∧ wpa_scan_result_compar b c = Ret 7 ∧ wpa_scan_result_compar a c = Ret (-8).
Proof. vm_compute. done. Qed.

(** An access point with an overlong name that comes first in the scan hides all
    others from a network with a wildcard name: it matches, has no entry in the BSS
    table, and the selection returns NULL without looking at the open access point
    behind it, which is in the table and acceptable. *)
Theorem select_stops_at_unstored :
  let w := s_start [ap_long; ap_open] [] in
  (∃ w', wpa_supplicant_pick_network w [ap_long; ap_open] = Ret (None, Some 2%positive, w')) ∧
  fits w ap_open 2 ∧ stored w ap_open ∧ blacklisted w ap_open = false.
Proof.
  cbv zeta. split; [|split; [|split]].
  - exists (s_start [ap_long; ap_open] []). vm_compute. reflexivity.
  - split; [discriminate|vm_compute; reflexivity].
  - eexists. vm_compute. reflexivity.
  - vm_compute. reflexivity.
Qed.
End Demo.
