(* ===== verification/Suites.v ===== *)
(** * Selection of the security suites (src/wpa_supplicant/wpa_supplicant.c)

    Before an association, [wpa_supplicant_set_suites] chooses the protocol, the ciphers
    and the key management that both the network block and the access point (or the
    association request the driver has used) allow, configures the RSN component with
    them and generates the element for the association request;
    [wpa_supplicant_set_non_wpa_policy] does so for networks without WPA.  The build
    without CONFIG_IEEE80211R and CONFIG_IEEE80211W is modelled. *)

From S2P Require Import Prelude Sha1 WpaIe Ies Eloop Bss Network Select RsnIe WpaSm WpaConf.

(** ** State *)

(** The fields of [struct wpa_supplicant] that hold the suites in use. *)
Record wpa_suites := WpaSuites { ws_proto : Z; ws_group : Z; ws_pairwise : Z; ws_key_mgmt : Z }.

#[global] Instance eta_wpa_suites : Eta wpa_suites := λ w,
  WpaSuites (ws_proto w) (ws_group w) (ws_pairwise w) (ws_key_mgmt w).

(** The secrets of a network block. *)
Record wpa_secrets := WpaSecrets { n_psk : list Z; n_passphrase : option (list Z) }.

(** Outcomes of the allocations for the two elements of the access point and the own
    element. *)
Record suite_allocs := SuiteAllocs { al_wpa : bool; al_rsn : bool; al_own : bool }.

Section suites.
Context {crypto : WpaCrypto} {C : Type} {cache : PmksaCache C}.
Notation supp := (@rsn_supp C).

(** ** Operations *)

(** The bytes of an element found at an offset. *)
Definition ie_at (ies : list Z) (off : option nat) : run (option (list Z)) :=
  match off with
  | None => Ret None
  | Some pos => len ← rd ies (pos + 1); e ← rdn ies pos (2 + Z.to_nat len); Ret (Some e)
  end.

(** [ie && (ssid->proto & p) && wpa_parse_wpa_ie(...) == 0 && ...] *)
Definition usable_ie (n : wpa_ssid) (p : Z) (ie : option (list Z)) : run (option wpa_ie_data) :=
  match ie with
  | None => Ret None
  | Some e =>
      if negb (has (n_proto n) p) then Ret None
      else
        '(r, d) ← wpa_parse_wpa_ie e;
        Ret (if (r =? 0) && has (RsnIe.group_cipher d) (n_group_cipher n) &&
                has (RsnIe.pairwise_cipher d) (n_pairwise_cipher n) && has (RsnIe.key_mgmt d) (n_key_mgmt n)
             then Some d else None)
  end.

Definition wpa_supplicant_suites_from_ai (n : wpa_ssid) (s : supp) : run (option wpa_ie_data) :=
  '(ret, d) ← wpa_sm_parse_own_wpa_ie s;
  Ret (match d with
       | Some d =>
           if negb (ret =? 0) then None
           else if negb (has (RsnIe.group_cipher d) (n_group_cipher n)) then None
           else if negb (has (RsnIe.pairwise_cipher d) (n_pairwise_cipher n)) then None
           else if negb (has (RsnIe.key_mgmt d) (n_key_mgmt n)) then None
           else Some d
       | None => None
       end).

(** The protocol and the suites the other side allows; [None] is the failure to select
    WPA or RSN. *)
Definition choose_proto (n : wpa_ssid) (bss_wpa bss_rsn : option (list Z)) (have_bss : bool) (s : supp)
  : run (option (Z * wpa_ie_data)) :=
  rsn ← usable_ie n RsnIe.WPA_PROTO_RSN bss_rsn;
  match rsn with
  | Some d => Ret (Some (RsnIe.WPA_PROTO_RSN, d))
  | None =>
      wpa ← usable_ie n RsnIe.WPA_PROTO_WPA bss_wpa;
      match wpa with
      | Some d => Ret (Some (RsnIe.WPA_PROTO_WPA, d))
      | None =>
          if have_bss then Ret None
          else
            ai ← wpa_supplicant_suites_from_ai n s;
            Ret (Some (match ai with
                       | Some d => (RsnIe.proto d, d)
                       | None =>
                           (if has (n_proto n) RsnIe.WPA_PROTO_RSN then RsnIe.WPA_PROTO_RSN else RsnIe.WPA_PROTO_WPA,
                            IeData 0 (n_pairwise_cipher n) (n_group_cipher n) (n_key_mgmt n) 0 0 None 0)
                       end))
      end
  end.

Definition select_group (sel : Z) : option Z :=
  if has sel WPA_CIPHER_CCMP then Some WPA_CIPHER_CCMP
  else if has sel WPA_CIPHER_TKIP then Some WPA_CIPHER_TKIP
  else if has sel WPA_CIPHER_WEP104 then Some WPA_CIPHER_WEP104
  else if has sel WPA_CIPHER_WEP40 then Some WPA_CIPHER_WEP40
  else None.
Definition select_pairwise (sel : Z) : option Z :=
  if has sel WPA_CIPHER_CCMP then Some WPA_CIPHER_CCMP
  else if has sel WPA_CIPHER_TKIP then Some WPA_CIPHER_TKIP
  else if has sel WPA_CIPHER_NONE then Some WPA_CIPHER_NONE
  else None.
Definition select_key_mgmt (sel : Z) : option Z :=
  if has sel WPA_KEY_MGMT_IEEE8021X then Some WPA_KEY_MGMT_IEEE8021X
  else if has sel WPA_KEY_MGMT_PSK then Some WPA_KEY_MGMT_PSK
  else if has sel WPA_KEY_MGMT_WPA_NONE then Some WPA_KEY_MGMT_WPA_NONE
  else None.

Definition set_param (p : wpa_sm_conf_params) (v : Z) (s : supp) : supp := (wpa_sm_set_param p v s).2.

(** The PMK of a network with a pre-shared key, or that of the cached PMKSA; [bss_ssid] is
    the SSID of the access point, if there is one. *)
Definition set_suites_pmk (mem : list Z) (n : wpa_ssid) (k : wpa_secrets) (bss_ssid : option (list Z)) (s : supp) : supp :=
  if wpa_key_mgmt_wpa_psk (n_key_mgmt n) then
    let s := s <| rsys := wpa_sm_set_pmk (n_psk k) (rsys s) |> in
    match bss_ssid, n_passphrase k with
    | Some x, Some pass =>
        if n_bssid_set n && (length (n_ssid n) =? 0)%nat
        then match pbkdf2_sha1 mem pass x 4096 32 with
             | Some psk => s <| rsys := wpa_sm_set_pmk psk (rsys s) |>
             | None => s
             end
        else s
    | _, _ => s
    end
  else s <| rsys := wpa_sm_set_pmk_from_pmksa (rsys s) |>.

(** After the ciphers have been selected: the element and the PMK. *)
Definition set_suites_finish (mem : list Z) (al : suite_allocs) (n : wpa_ssid) (k : wpa_secrets)
    (bss_ssid : option (list Z)) (wpa_ie : list Z) (w : wpa_suites) (s : supp)
  : Z * (list Z * nat) * wpa_suites * supp :=
  let s := set_param WPA_PARAM_KEY_MGMT (ws_key_mgmt w) s in
  let s := set_param WPA_PARAM_PAIRWISE (ws_pairwise w) s in
  let s := set_param WPA_PARAM_GROUP (ws_group w) s in
  let '(r, buf, len, s) := wpa_sm_set_assoc_wpa_ie_default (al_own al) wpa_ie s in
  if negb (r =? 0) then (-1, (buf, len), w, s)
  else (0, (buf, len), w, set_suites_pmk mem n k bss_ssid s).

Definition set_suites_ciphers (mem : list Z) (al : suite_allocs) (n : wpa_ssid) (k : wpa_secrets)
    (bss_ssid : option (list Z)) (wpa_ie : list Z) (d : wpa_ie_data) (w : wpa_suites) (s : supp)
  : Z * (list Z * nat) * wpa_suites * supp :=
  let fail w := (-1, (wpa_ie, length wpa_ie), w, s) in
  match select_group (Z.land (RsnIe.group_cipher d) (n_group_cipher n)) with
  | None => fail w
  | Some g =>
      let w := w <| ws_group := g |> in
      match select_pairwise (Z.land (RsnIe.pairwise_cipher d) (n_pairwise_cipher n)) with
      | None => fail w
      | Some p =>
          let w := w <| ws_pairwise := p |> in
          match select_key_mgmt (Z.land (RsnIe.key_mgmt d) (n_key_mgmt n)) with
          | None => fail w
          | Some km => set_suites_finish mem al n k bss_ssid wpa_ie (w <| ws_key_mgmt := km |>) s
          end
      end
  end.

(** [bss] is the access point, given by its elements and its SSID.  The result is the
    return value and the caller's buffer with its length, the suites and the RSN
    component. *)
Definition wpa_supplicant_set_suites (mem : list Z) (al : suite_allocs) (ap_ies_from_associnfo : bool)
    (bss : option (list Z * list Z)) (n : wpa_ssid) (k : wpa_secrets) (wpa_ie : list Z) (w : wpa_suites) (s : supp)
  : run (Z * (list Z * nat) * wpa_suites * supp) :=
  let fail w s := Ret (-1, (wpa_ie, length wpa_ie), w, s) in
  '(bss_wpa, bss_rsn) ←
    match bss with
    | Some (ies, _) =>
        o ← wpa_bss_get_vendor_ie ies WPA_IE_VENDOR_TYPE; a ← ie_at ies o;
        o ← wpa_bss_get_ie ies WLAN_EID_RSN; b ← ie_at ies o;
        Ret (a, b)
    | None => Ret (None, None)
    end;
  c ← choose_proto n bss_wpa bss_rsn (bool_decide (is_Some bss)) s;
  match c with
  | None => fail w s
  | Some (p, d) =>
      let w := w <| ws_proto := p |> in
      let s := set_param WPA_PARAM_PROTO p s in
      let s := set_param WPA_PARAM_RSN_ENABLED (Z.b2z (has (n_proto n) RsnIe.WPA_PROTO_RSN)) s in
      let '(ret, s) :=
        if bool_decide (is_Some bss) || negb ap_ies_from_associnfo then
          let '(r, s) := wpa_sm_set_ap_wpa_ie (al_wpa al) bss_wpa s in
          if negb (r =? 0) then (r, s) else wpa_sm_set_ap_rsn_ie (al_rsn al) bss_rsn s
        else (0, s) in
      if negb (ret =? 0) then fail w s
      else Ret (set_suites_ciphers mem al n k (snd <$> bss) wpa_ie d w s)
  end.

Definition pmksa_cache_clear_current (s : supp) : supp :=
  s <| rsys := (rsys s) <| wsm := (wsm (rsys s)) <| cur_pmksa := None |> |> |>.

(** The cipher of the first configured WEP key. *)
Fixpoint wep_cipher (lens : list Z) : Z :=
  match lens with
  | [] => WPA_CIPHER_NONE
  | l :: lens => if 5 <? l then WPA_CIPHER_WEP104 else if 0 <? l then WPA_CIPHER_WEP40 else wep_cipher lens
  end.

Definition wpa_supplicant_set_non_wpa_policy (n : wpa_ssid) (w : wpa_suites) (s : supp) : wpa_suites * supp :=
  let km := if has (n_key_mgmt n) WPA_KEY_MGMT_WPS then WPA_KEY_MGMT_WPS
            else if has (n_key_mgmt n) WPA_KEY_MGMT_IEEE8021X_NO_WPA then WPA_KEY_MGMT_IEEE8021X_NO_WPA
            else WPA_KEY_MGMT_NONE in
  let w := w <| ws_key_mgmt := km |> in
  let s := (wpa_sm_set_ap_wpa_ie true None s).2 in
  let s := (wpa_sm_set_ap_rsn_ie true None s).2 in
  let s := (wpa_sm_set_assoc_wpa_ie true None s).2 in
  let c := wep_cipher (n_wep_key_len n) in
  let w := w <| ws_pairwise := c |> <| ws_group := c |> in
  let s := set_param WPA_PARAM_RSN_ENABLED 0 s in
  let s := set_param WPA_PARAM_KEY_MGMT (ws_key_mgmt w) s in
  let s := set_param WPA_PARAM_PAIRWISE (ws_pairwise w) s in
  let s := set_param WPA_PARAM_GROUP (ws_group w) s in
  (w, pmksa_cache_clear_current s).

End suites.

Inductive wpa_cipher := CIPHER_NONE | CIPHER_WEP40 | CIPHER_TKIP | CIPHER_CCMP | CIPHER_WEP104.
Inductive wpa_key_mgmt :=
| KEY_MGMT_802_1X | KEY_MGMT_PSK | KEY_MGMT_NONE | KEY_MGMT_802_1X_NO_WPA | KEY_MGMT_WPA_NONE | KEY_MGMT_FT_802_1X
| KEY_MGMT_FT_PSK | KEY_MGMT_802_1X_SHA256 | KEY_MGMT_PSK_SHA256 | KEY_MGMT_WPS.

Definition cipher_suite2driver (cipher : Z) : wpa_cipher :=
  if cipher =? WPA_CIPHER_NONE then CIPHER_NONE
  else if cipher =? WPA_CIPHER_WEP40 then CIPHER_WEP40
  else if cipher =? WPA_CIPHER_WEP104 then CIPHER_WEP104
  else if cipher =? WPA_CIPHER_CCMP then CIPHER_CCMP
  else CIPHER_TKIP.

Definition key_mgmt2driver (km : Z) : wpa_key_mgmt :=
  if km =? WPA_KEY_MGMT_NONE then KEY_MGMT_NONE
  else if km =? WPA_KEY_MGMT_IEEE8021X_NO_WPA then KEY_MGMT_802_1X_NO_WPA
  else if km =? WPA_KEY_MGMT_IEEE8021X then KEY_MGMT_802_1X
  else if km =? WPA_KEY_MGMT_WPA_NONE then KEY_MGMT_WPA_NONE
  else if km =? WPA_KEY_MGMT_FT_IEEE8021X then KEY_MGMT_FT_802_1X
  else if km =? WPA_KEY_MGMT_FT_PSK then KEY_MGMT_FT_PSK
  else if km =? WPA_KEY_MGMT_IEEE8021X_SHA256 then KEY_MGMT_802_1X_SHA256
  else if km =? WPA_KEY_MGMT_PSK_SHA256 then KEY_MGMT_PSK_SHA256
  else if km =? WPA_KEY_MGMT_WPS then KEY_MGMT_WPS
  else KEY_MGMT_PSK.

(** ** Masks *)

Lemma has_land a b c : has (Z.land a b) c = true → has a c = true ∧ has b c = true.
Proof.
  unfold has. rewrite !negb_true_iff, !Z.eqb_neq. intros H. split; intros H0; apply H.
  - by rewrite (Z.land_comm a b), <-Z.land_assoc, H0, Z.land_0_r.
  - by rewrite <-Z.land_assoc, H0, Z.land_0_r.
Qed.

Lemma has_lor_false a b c : has a (Z.lor b c) = has a b || has a c.
Proof.
  unfold has. rewrite Z.land_lor_distr_r.
  destruct (Z.eqb_spec (Z.land a b) 0) as [->|Hb]; [by rewrite Z.lor_0_l|]. cbn [negb orb].
  destruct (Z.eqb_spec (Z.lor (Z.land a b) (Z.land a c)) 0) as [H|]; [|done].
  by apply Z.lor_eq_0_iff in H as [? _].
Qed.

(** [a] has no bit outside [m]. *)
Definition within (a m : Z) : Prop := Z.land a m = a.

Lemma within_land a b m : within b m → within (Z.land a b) m.
Proof. unfold within. intros H. by rewrite <-Z.land_assoc, H. Qed.
Lemma within_lor a b m : within a m → within b m → within (Z.lor a b) m.
Proof. unfold within. intros Ha Hb. by rewrite Z.land_lor_distr_l, Ha, Hb. Qed.

(** The selectors take the strongest suite of a set, and fail only on a set without any
    suite they know. *)
Lemma select_some f a b c :
  f ∈ [select_group; select_pairwise; select_key_mgmt] → f (Z.land a b) = Some c →
  has a c = true ∧ has b c = true.
Proof.
  intros Hf H. apply has_land. apply list_elem_of_In in Hf. repeat destruct Hf as [<-|Hf]; [..|done].
  all: unfold select_group, select_pairwise, select_key_mgmt in H; repeat case_match; by simplify_eq.
Qed.

Lemma has_within a m : within a m → a ≠ 0 → has a m = true.
Proof. unfold within, has. intros -> H. by apply negb_true_iff, Z.eqb_neq. Qed.

Lemma select_total a :
  a ≠ 0 → (within a 30 → is_Some (select_group a)) ∧ (within a 25 → is_Some (select_pairwise a)) ∧
  (within a 19 → is_Some (select_key_mgmt a)).
Proof.
  intros Ha. split_and!; intros Hw%has_within; try done.
  - change 30 with (Z.lor 16 (Z.lor 8 (Z.lor 4 2))) in Hw. rewrite !has_lor_false in Hw. unfold select_group.
    repeat (case_match; [done|]). unfold WPA_CIPHER_CCMP, WPA_CIPHER_TKIP, WPA_CIPHER_WEP104, WPA_CIPHER_WEP40 in *.
    by rewrite H, H0, H1, H2 in Hw.
  - change 25 with (Z.lor 16 (Z.lor 8 1)) in Hw. rewrite !has_lor_false in Hw. unfold select_pairwise.
    repeat (case_match; [done|]). unfold WPA_CIPHER_CCMP, WPA_CIPHER_TKIP, WPA_CIPHER_NONE in *. by rewrite H, H0, H1 in Hw.
  - change 19 with (Z.lor 1 (Z.lor 2 16)) in Hw. rewrite !has_lor_false in Hw. unfold select_key_mgmt.
    repeat (case_match; [done|]). unfold WPA_KEY_MGMT_IEEE8021X, WPA_KEY_MGMT_PSK, WPA_KEY_MGMT_WPA_NONE in *.
    by rewrite H, H0, H1 in Hw.
Qed.

(** ** What is negotiated *)

Section negotiation.
Context {crypto : WpaCrypto} {C : Type} {cache : PmksaCache C}.
Notation supp := (@rsn_supp C).

(** The element of protocol [p] among the elements of an access point. *)
Definition announced (ies : list Z) (p : Z) : run (option (list Z)) :=
  if p =? RsnIe.WPA_PROTO_RSN then o ← wpa_bss_get_ie ies WLAN_EID_RSN; ie_at ies o
  else o ← wpa_bss_get_vendor_ie ies WPA_IE_VENDOR_TYPE; ie_at ies o.

(** The suite [c] is allowed by the announced element's set and the network's. *)
Definition agreed (announced configured c : Z) : Prop := has announced c = true ∧ has configured c = true.

(** The RSN component is configured with the suites. *)
Definition configured (w : wpa_suites) (s : supp) : Prop :=
  proto (wsm (rsys s)) = proto_of (ws_proto w) ∧ pairwise_cipher (wsm (rsys s)) = ws_pairwise w ∧
  group_cipher (wsm (rsys s)) = ws_group w ∧ key_mgmt (wsm (rsys s)) = ws_key_mgmt w.

Lemma usable_ie_some n p e d :
  usable_ie n p e = Ret (Some d) →
  ∃ b, e = Some b ∧ has (n_proto n) p = true ∧ wpa_parse_wpa_ie b = Ret (0, d).
Proof.
  unfold usable_ie. destruct e as [b|]; [|done]. destruct (has (n_proto n) p) eqn:Hp; [|done]. cbn [negb].
  intros H. run_inv. destruct x as [r d']. exists b. destruct (Z.eqb_spec r 0) as [->|]; cbn [andb] in H; [|done].
  revert H. if_branch; [|done]. intros [= <-]. by split_and!.
Qed.

Lemma assoc_ie_default_keeps ok buf s r buf' len s' :
  wpa_sm_set_assoc_wpa_ie_default ok buf s = (r, buf', len, s') →
  ∀ w, configured w s → configured w s'.
Proof.
  unfold wpa_sm_set_assoc_wpa_ie_default. cbv zeta. destruct (wpa_gen_wpa_ie _ _ _ _ _ _) as [res b].
  repeat case_match; intros [= _ _ _ <-] w Hw; done.
Qed.

Lemma suites_pmk_keeps mem n k x s w : configured w s → configured w (set_suites_pmk mem n k x s).
Proof.
  intros Hw. unfold set_suites_pmk. cbv zeta. if_branch.
  - destruct x as [x|]; [|done]. destruct (n_passphrase k); [|done]. if_branch; [|done].
    by destruct (pbkdf2_sha1 _ _ _ _ _).
  - unfold wpa_sm_set_pmk_from_pmksa. by case_match.
Qed.

Lemma set_suites_finish_ok mem al n k x ie w s buf w' s' :
  set_suites_finish mem al n k x ie w s = (0, buf, w', s') →
  w' = w ∧ (proto (wsm (rsys s)) = proto_of (ws_proto w) → configured w s').
Proof.
  unfold set_suites_finish. cbv zeta. destruct (wpa_sm_set_assoc_wpa_ie_default _ _ _) as [[[r b] len] s1] eqn:Ha.
  if_branch; [done|]. intros [= _ <- <-]. split; [done|]. intros Hp. apply suites_pmk_keeps.
  eapply assoc_ie_default_keeps; [exact Ha|]. by split_and!.
Qed.

Lemma set_suites_ciphers_ok mem al n k x ie d w s buf w' s' :
  set_suites_ciphers mem al n k x ie d w s = (0, buf, w', s') →
  ws_proto w' = ws_proto w ∧
  select_group (Z.land (RsnIe.group_cipher d) (n_group_cipher n)) = Some (ws_group w') ∧
  select_pairwise (Z.land (RsnIe.pairwise_cipher d) (n_pairwise_cipher n)) = Some (ws_pairwise w') ∧
  select_key_mgmt (Z.land (RsnIe.key_mgmt d) (n_key_mgmt n)) = Some (ws_key_mgmt w') ∧
  (proto (wsm (rsys s)) = proto_of (ws_proto w) → configured w' s').
Proof.
  unfold set_suites_ciphers. cbv zeta. repeat (case_match; [|done]).
  intros [-> Hc]%set_suites_finish_ok. by split_and!.
Qed.

(** The protocol chosen for an access point. *)
Lemma choose_proto_bss n ies bw br (s : supp) p d :
  announced ies RsnIe.WPA_PROTO_WPA = Ret bw → announced ies RsnIe.WPA_PROTO_RSN = Ret br →
  choose_proto n bw br true s = Ret (Some (p, d)) →
  ∃ e, announced ies p = Ret (Some e) ∧ wpa_parse_wpa_ie e = Ret (0, d) ∧ has (n_proto n) p = true ∧
    (∀ e2 d2, announced ies RsnIe.WPA_PROTO_RSN = Ret e2 → usable_ie n RsnIe.WPA_PROTO_RSN e2 = Ret (Some d2) →
       p = RsnIe.WPA_PROTO_RSN).
Proof.
  intros Hw Hr. unfold choose_proto. intros H. run_inv. destruct x as [d1|].
  - simplify_eq. destruct (usable_ie_some _ _ _ _ Hrun) as (b & -> & Hp & Hb). by exists b.
  - run_inv. destruct x as [d1|]; [|done]. simplify_eq.
    destruct (usable_ie_some _ _ _ _ Hrun0) as (b & -> & Hp & Hb). exists b. split_and!; try done.
    intros e2 d2 He2 Hd2. rewrite Hr in He2. simplify_eq. congruence.
Qed.

Lemma set_ap_ies_proto al bw br n p (s : supp) :
  ∃ r s1,
    (let '(r, s1) := wpa_sm_set_ap_wpa_ie (al_wpa al) bw
       (set_param WPA_PARAM_RSN_ENABLED (Z.b2z (has (n_proto n) RsnIe.WPA_PROTO_RSN)) (set_param WPA_PARAM_PROTO p s)) in
     if negb (r =? 0) then (r, s1) else wpa_sm_set_ap_rsn_ie (al_rsn al) br s1) = (r, s1) ∧
    proto (wsm (rsys s1)) = proto_of p.
Proof.
  unfold wpa_sm_set_ap_wpa_ie, wpa_sm_set_ap_rsn_ie. destruct (copy_ie (al_wpa al) bw) as [r1 v1].
  if_branch; [by eexists _, _|]. destruct (copy_ie (al_rsn al) br) as [r2 v2]. by eexists _, _.
Qed.

Lemma has_both a b c : has a c = true → has b c = true → c ∈ [1; 2; 4; 8; 16] → has (Z.land a b) c = true.
Proof.
  unfold has. rewrite !negb_true_iff, !Z.eqb_neq. intros Ha Hb Hc H0.
  assert (∃ k, 0 ≤ k ∧ c = 2 ^ k) as (k & Hk & ->).
  { apply list_elem_of_In in Hc. repeat destruct Hc as [<-|Hc]; [by exists 0|by exists 1|by exists 2|by exists 3|by exists 4|done]. }
  assert (∀ z, Z.land z (2 ^ k) ≠ 0 → Z.testbit z k = true) as Hbit.
  { intros z Hz. destruct (Z.testbit z k) eqn:E; [done|]. exfalso. apply Hz. apply Z.bits_inj'. intros j Hj.
    rewrite Z.land_spec, Z.bits_0, Z.pow2_bits_eqb by done. destruct (Z.eqb_spec k j) as [<-|]; [by rewrite E|apply andb_false_r]. }
  assert (Z.testbit (Z.land (Z.land a b) (2 ^ k)) k = true) as Ht.
  { by rewrite !Z.land_spec, (Hbit a), (Hbit b), Z.pow2_bits_true. }
  by rewrite H0, Z.bits_0 in Ht.
Qed.

(** C4: when suites for an access point have been set, the protocol is one the access point
    announces and the network allows, RSN if both do; each of the ciphers and the key
    management is a suite of the announced element and enabled for the network, and
    CCMP is used wherever both sides have it; the handshake component uses exactly
    these suites. *)
Theorem suites_negotiated mem al ai ies x n k ie w s buf w' s' :
  wpa_supplicant_set_suites mem al ai (Some (ies, x)) n k ie w s = Ret (0, buf, w', s') →
  ∃ e d, announced ies (ws_proto w') = Ret (Some e) ∧ wpa_parse_wpa_ie e = Ret (0, d) ∧
    has (n_proto n) (ws_proto w') = true ∧
    agreed (RsnIe.group_cipher d) (n_group_cipher n) (ws_group w') ∧
    agreed (RsnIe.pairwise_cipher d) (n_pairwise_cipher n) (ws_pairwise w') ∧
    agreed (RsnIe.key_mgmt d) (n_key_mgmt n) (ws_key_mgmt w') ∧
    (agreed (RsnIe.pairwise_cipher d) (n_pairwise_cipher n) WPA_CIPHER_CCMP → ws_pairwise w' = WPA_CIPHER_CCMP) ∧
    (agreed (RsnIe.group_cipher d) (n_group_cipher n) WPA_CIPHER_CCMP → ws_group w' = WPA_CIPHER_CCMP) ∧
    (∀ e2 d2, announced ies RsnIe.WPA_PROTO_RSN = Ret e2 → usable_ie n RsnIe.WPA_PROTO_RSN e2 = Ret (Some d2) →
       ws_proto w' = RsnIe.WPA_PROTO_RSN) ∧
    configured w' s'.
Proof.
  unfold wpa_supplicant_set_suites. cbv zeta. intros H. run_inv.
  rewrite (bool_decide_true (is_Some (Some (ies, x)))) in H by eauto. cbn [orb] in H.
  apply run_bind_Ret in H as (c & Hc & H).
  assert (announced ies RsnIe.WPA_PROTO_RSN = Ret x4) as Hr by (unfold announced; by rewrite Z.eqb_refl, Hrun2).
  assert (announced ies RsnIe.WPA_PROTO_WPA = Ret x2) as Hw 
    by (unfold announced; change (_ =? _) with false; by rewrite Hrun0).
  destruct c as [[p d]|]; [|done].
  destruct (choose_proto_bss n ies x2 x4 s p d Hw Hr Hc) as (e & He & Hpe & Hpn & Hrsn).
  destruct (set_ap_ies_proto al x2 x4 n p s) as (r0 & s0 & Heq & Hproto).
  rewrite Heq in H. revert H. if_branch; [done|]. intros H. injection H as H.
  destruct (set_suites_ciphers_ok _ _ _ _ _ _ _ _ _ _ _ _ H) as (H1 & H2 & H3 & H4 & H5).
  cbn [ws_proto] in *. rewrite H1. exists e, d. split_and!; try done; try by eapply select_some; [|eassumption]; set_solver.
  - intros [Ha Hb]. unfold select_pairwise in H3. rewrite has_both in H3 by (done || set_solver). by simplify_eq.
  - intros [Ha Hb]. unfold select_group in H2. rewrite has_both in H2 by (done || set_solver). by simplify_eq.
  - by apply H5.
Qed.
End negotiation.

(** ** Every selected access point can be associated with *)

(** A property of the parsed data that every stage of the parser keeps. *)
Definition stage_all (P : wpa_ie_data → Prop) (m : run parsing) : Prop :=
  match m with Ret (inl (_, d)) => P d | Ret (inr (d, _, _)) => P d | _ => True end.

Lemma andthen_all P m k : stage_all P m → (∀ d pos lft, P d → stage_all P (k d pos lft)) → stage_all P (andthen m k).
Proof. intros Hm Hk. unfold andthen. destruct m as [[[e d]|[[d pos] lft]]| |]; try done. by apply Hk. Qed.

Lemma finish_all P m r d : stage_all P m → finish m = Ret (r, d) → P d.
Proof. intros Hm. unfold finish. destruct m as [[[e d']|[[d' pos] lft]]| |]; try done; by intros [= _ <-]. Qed.

Section key_mgmt_mask.
Context (mask : Z).
Let P (d : wpa_ie_data) : Prop := within (RsnIe.key_mgmt d) mask.

Lemma or_suites_within f buf pos count acc v :
  (∀ s, within (f s) mask) → within acc mask → or_suites f buf pos count acc = Ret v → within v mask.
Proof.
  intros Hf. revert pos acc. induction count as [|count IH]; intros pos acc Ha; cbn [or_suites]; [by intros [= <-]|].
  intros H. run_inv. eapply IH; [|exact H]. apply within_lor; [done|apply Hf].
Qed.

Lemma group_suite_all f buf d pos lft : P d → stage_all P (group_suite f buf d pos lft).
Proof.
  intros Hd. unfold group_suite. if_branch; [|by if_branch].
  destruct (RSN_SELECTOR_GET buf pos); [exact Hd|done|done].
Qed.

Lemma suite_list_all f set e1 e2 buf d pos lft :
  (∀ v d, P d → within v mask → P (set v d)) ∨ (∀ v d, P d → P (set v d)) →
  (∀ s, within (f s) mask) ∨ (∀ v d, P d → P (set v d)) →
  P d → stage_all P (suite_list f set e1 e2 buf d pos lft).
Proof.
  intros Hset Hf Hd. unfold suite_list. if_branch; [|by if_branch].
  assert (P (set 0 d)) as H0 by (destruct Hset; auto; by apply H).
  destruct (WPA_GET_LE16 buf pos) as [c| |]; [|done|done]. rewrite run_bind_l. cbv zeta. if_branch; [done|].
  destruct (or_suites _ _ _ _ _) as [v| |] eqn:Hv; [|done|done]. cbn.
  destruct Hf as [Hf|Hf]; [|by apply Hf].
  destruct Hset as [Hset|Hset]; [|by apply Hset]. apply Hset; [done|].
  eapply (or_suites_within f); [exact Hf| |exact Hv]. done.
Qed.

Lemma capabilities_all buf d pos lft : P d → stage_all P (get_capabilities buf d pos lft).
Proof. intros Hd. unfold get_capabilities. if_branch; [|done]. destruct (WPA_GET_LE16 buf pos); [exact Hd|done|done]. Qed.

Lemma pmkids_all buf d pos lft : P d → stage_all P (get_pmkids buf d pos lft).
Proof.
  intros Hd. unfold get_pmkids. if_branch; [|done]. destruct (WPA_GET_LE16 buf pos); [|done|done].
  rewrite run_bind_l. cbv zeta. by if_branch.
Qed.
End key_mgmt_mask.

(** The key management suites a parsed element can have. *)
Lemma parse_rsn_key_mgmt buf r d : wpa_parse_wpa_ie_rsn buf = Ret (r, d) → within (RsnIe.key_mgmt d) 3.
Proof.
  unfold wpa_parse_wpa_ie_rsn. cbv zeta. set (d0 := IeData _ _ _ _ _ _ _ _).
  assert (within (RsnIe.key_mgmt d0) 3) as H0 by done.
  if_branch; [by intros [= _ <-]|]. if_branch; [by intros [= _ <-]|]. intros H. run_inv.
  revert H. if_branch; [by intros [= _ <-]|]. apply (finish_all (λ d, within (RsnIe.key_mgmt d) 3)).
  apply andthen_all; [by apply group_suite_all|]. intros.
  apply andthen_all; [apply suite_list_all; [right|right|]; done|]. intros.
  apply andthen_all; [apply suite_list_all; [by left|left|done]; intros s; unfold rsn_key_mgmt_to_bitfield; by repeat case_match|].
  intros. apply andthen_all; [by apply capabilities_all|]. intros. by apply pmkids_all.
Qed.

Lemma parse_wpa_key_mgmt buf r d : wpa_parse_wpa_ie_wpa buf = Ret (r, d) → within (RsnIe.key_mgmt d) 19.
Proof.
  unfold wpa_parse_wpa_ie_wpa. cbv zeta. set (d0 := IeData _ _ _ _ _ _ _ _).
  assert (within (RsnIe.key_mgmt d0) 19) as H0 by done.
  if_branch; [by intros [= _ <-]|]. if_branch; [by intros [= _ <-]|]. intros H. run_inv.
  revert H. if_branch; [by intros [= _ <-]|]. apply (finish_all (λ d, within (RsnIe.key_mgmt d) 19)).
  apply andthen_all; [by apply group_suite_all|]. intros.
  apply andthen_all; [apply suite_list_all; [right|right|]; done|]. intros.
  apply andthen_all; [apply suite_list_all; [by left|left|done]; intros s; unfold wpa_key_mgmt_to_bitfield; by repeat case_match|].
  intros. by apply capabilities_all.
Qed.

(** Generation succeeds for selected suites in a buffer of 40 bytes. *)
Lemma gen_selected p g pw km id buf a b c :
  select_group a = Some g → select_pairwise b = Some pw → select_key_mgmt c = Some km →
  (p = RsnIe.WPA_PROTO_RSN → within c 3) → (40 ≤ length buf)%nat →
  0 ≤ (wpa_gen_wpa_ie p pw g km id buf).1.
Proof.
  intros Hg Hp Hk Hr Hb. unfold wpa_gen_wpa_ie.
  assert (g ∈ [16; 8; 4; 2]) as Hg' by (unfold select_group in Hg; repeat case_match; simplify_eq; set_solver).
  assert (pw ∈ [16; 8; 1]) as Hp' by (unfold select_pairwise in Hp; repeat case_match; simplify_eq; set_solver).
  destruct (Z.eqb_spec p RsnIe.WPA_PROTO_RSN) as [Hpr|_].
  - assert (km ∈ [1; 2]) as Hk'.
    { specialize (Hr Hpr). unfold select_key_mgmt in Hk. repeat case_match; simplify_eq; try set_solver.
      exfalso. unfold has, within in *. rewrite <-Hr, <-Z.land_assoc in H1. by rewrite Z.land_0_r in H1. }
    unfold wpa_gen_wpa_ie_rsn. rewrite (proj2 (Nat.ltb_ge _ _)) by (destruct id; lia).
    apply list_elem_of_In in Hg', Hp', Hk'. cbn in Hg', Hp', Hk'.
    destruct_or?; subst; try done; by destruct id.
  - assert (km ∈ [1; 2; 16]) as Hk' by (unfold select_key_mgmt in Hk; repeat case_match; simplify_eq; set_solver).
    unfold wpa_gen_wpa_ie_wpa. rewrite (proj2 (Nat.ltb_ge _ _)) by lia.
    apply list_elem_of_In in Hg', Hp', Hk'. cbn in Hg', Hp', Hk'. by destruct_or?; subst.
Qed.

Section association.
Context {crypto : WpaCrypto} {C : Type} {cache : PmksaCache C}.
Notation supp := (@rsn_supp C).
Context (r : wpa_scan_res) (Hr : res_wf r) (n : wpa_ssid).

Lemma ie_at_found p : ie_at (res_ies r) (ie_find p 0 (elements r)) = Ret (ie_bytes <$> List.find p (elements r)).
Proof.
  unfold ie_at. pose proof (found_element r Hr p) as H. destruct (ie_find p 0 (elements r)) as [pos|]; [|by rewrite H].
  destruct H as (e & -> & Hl & He & _). by rewrite Hl, run_bind_l, Nat2Z.id, He.
Qed.

Definition usable (p : Z) (e : option (Z * list Z)) : option wpa_ie_data :=
  match parsed e with
  | Some d => if has (n_proto n) p && has (RsnIe.group_cipher d) (n_group_cipher n) &&
                 has (RsnIe.pairwise_cipher d) (n_pairwise_cipher n) && has (RsnIe.key_mgmt d) (n_key_mgmt n)
              then Some d else None
  | None => None
  end.

Lemma usable_ie_spec p q :
  usable_ie n p (ie_bytes <$> List.find q (elements r)) = Ret (usable p (List.find q (elements r))).
Proof.
  unfold usable_ie, usable. pose proof (found_element r Hr q) as H.
  destruct (ie_find q 0 (elements r)) as [pos|]; [|by rewrite H].
  destruct H as (e & -> & _ & _ & _ & Hb & _). cbn [fmap option_fmap option_map parsed].
  destruct (parse_total _ Hb) as (x & d & Hp). rewrite Hp.
  destruct (has (n_proto n) p); cbn [negb andb].
  - rewrite run_bind_l. destruct x; cbn [Z.eqb andb]; done.
  - by destruct x.
Qed.

Lemma offers_usable p e :
  wpa_key_mgmt_wpa (n_key_mgmt n) = true → offers n p e = true → is_Some (usable p e).
Proof.
  intros Hwpa. unfold offers, usable, wep_ok. rewrite Hwpa. cbn [negb andb orb].
  intros [-> H]%andb_true_iff. destruct (parsed e) as [d|]; [|done].
  unfold suites_ok in H. repeat apply andb_true_iff in H as [H ?]. cbn [andb]. by rewrite H0, H1, H2.
Qed.

Lemma within_land_l a b m : within a m → within (Z.land a b) m.
Proof. rewrite Z.land_comm. apply within_land. Qed.

(** What a usable element allows. *)
Lemma usable_suites p q d :
  q = ie_is WLAN_EID_RSN ∧ p = RsnIe.WPA_PROTO_RSN ∨ q = vendor_is WPA_IE_VENDOR_TYPE ∧ p = RsnIe.WPA_PROTO_WPA →
  usable p (List.find q (elements r)) = Some d →
  Z.land (RsnIe.group_cipher d) (n_group_cipher n) ≠ 0 ∧ Z.land (RsnIe.pairwise_cipher d) (n_pairwise_cipher n) ≠ 0 ∧
  Z.land (RsnIe.key_mgmt d) (n_key_mgmt n) ≠ 0 ∧ within (RsnIe.key_mgmt d) 19 ∧
  (p = RsnIe.WPA_PROTO_RSN → within (RsnIe.key_mgmt d) 3).
Proof.
  intros Hq. unfold usable, parsed. destruct (List.find q (elements r)) as [e|] eqn:He; [|done].
  apply find_some in He as [_ Hqe].
  destruct (wpa_parse_wpa_ie (ie_bytes e)) as [[[|x|x] d']| |] eqn:Hp; try done.
  destruct (_ && _) eqn:Hh; [|done]. intros [= ->]. repeat apply andb_true_iff in Hh as [Hh ?].
  assert (∀ a b, has a b = true → Z.land a b ≠ 0) as Hnz by (intros a b; unfold has; by rewrite negb_true_iff, Z.eqb_neq).
  split_and!; try by apply Hnz.
  - unfold wpa_parse_wpa_ie in Hp. case_match; [|by eapply parse_wpa_key_mgmt].
    apply parse_rsn_key_mgmt in Hp. unfold within in *. rewrite <-Hp at 2. by rewrite <-Hp, <-!Z.land_assoc.
  - intros Hrsn. destruct Hq as [[-> _]|[_ ->]]; [|done]. unfold ie_is in Hqe. apply Z.eqb_eq in Hqe.
    unfold wpa_parse_wpa_ie, ie_bytes in Hp. rewrite Hqe in Hp. cbn [app] in Hp.
    change (WLAN_EID_RSN =? EID_RSN) with true in Hp. by apply parse_rsn_key_mgmt in Hp.
Qed.

Lemma set_ap_ies_ok a b p (s : supp) n' :
  ∃ s1,
    (let '(r, s1) := wpa_sm_set_ap_wpa_ie true a
       (set_param WPA_PARAM_RSN_ENABLED (Z.b2z (has (n_proto n') RsnIe.WPA_PROTO_RSN)) (set_param WPA_PARAM_PROTO p s)) in
     if negb (r =? 0) then (r, s1) else wpa_sm_set_ap_rsn_ie true b s1) = (0, s1) ∧
    proto (wsm (rsys s1)) = proto_of p.
Proof.
  unfold wpa_sm_set_ap_wpa_ie, wpa_sm_set_ap_rsn_ie, copy_ie.
  destruct a as [[|a0 a]|], b as [[|b0 b]|]; by eexists.
Qed.

(** The suites of a usable element can be set. *)
Lemma ciphers_succeed mem k x ie p d w (s : supp) :
  Z.land (RsnIe.group_cipher d) (n_group_cipher n) ≠ 0 → Z.land (RsnIe.pairwise_cipher d) (n_pairwise_cipher n) ≠ 0 →
  Z.land (RsnIe.key_mgmt d) (n_key_mgmt n) ≠ 0 → within (RsnIe.key_mgmt d) 19 →
  (p = RsnIe.WPA_PROTO_RSN → within (RsnIe.key_mgmt d) 3) →
  within (n_group_cipher n) 30 → within (n_pairwise_cipher n) 25 → (40 ≤ length ie)%nat →
  proto (wsm (rsys s)) = proto_of p → p ∈ [RsnIe.WPA_PROTO_WPA; RsnIe.WPA_PROTO_RSN] →
  ∃ buf w' s', set_suites_ciphers mem (SuiteAllocs true true true) n k x ie d w s = (0, buf, w', s').
Proof.
  intros Hg Hp Hk Hkm Hrsn Hcg Hcp Hie Hpr Hpp. unfold set_suites_ciphers. cbv zeta.
  destruct (proj1 (select_total _ Hg)) as [g Hg']; [by apply within_land|]. rewrite Hg'.
  destruct (proj1 (proj2 (select_total _ Hp))) as [pw Hp']; [by apply within_land|]. rewrite Hp'.
  destruct (proj2 (proj2 (select_total _ Hk))) as [km Hk']; [by apply within_land_l|]. rewrite Hk'.
  unfold set_suites_finish. cbv zeta.
  destruct (wpa_sm_set_assoc_wpa_ie_default _ _ _) as [[[r1 b] len] s1] eqn:Ha.
  assert (r1 = 0) as ->; [|by eexists _, _, _].
  revert Ha. unfold wpa_sm_set_assoc_wpa_ie_default. cbv zeta. destruct (wpa_gen_wpa_ie _ _ _ _ _ _) as [res b'] eqn:Hgen.
  assert (0 ≤ res) as Hres.
  { change res with (res, b').1. rewrite <-Hgen. eapply gen_selected; [exact Hg'|exact Hp'|exact Hk'| |done].
    intros Hv. apply within_land_l, Hrsn. cbn in Hv. rewrite Hpr in Hv.
    apply list_elem_of_In in Hpp. cbn in Hpp. by destruct_or?; subst. }
  rewrite (proj2 (Z.ltb_ge _ _)) by lia. case_match; by intros [= <- _ _ _].
Qed.

(** C18: a network for WPA that the selection accepts for a scan result can be configured for
    that access point: suites are found in common, the element for the association
    request fits and is generated, and [wpa_supplicant_set_suites] succeeds (given
    memory).  The network's ciphers are those the configuration accepts: TKIP, CCMP, WEP
    for the group key, TKIP, CCMP or none for the pairwise key. *)
Theorem selected_can_associate mem ai x k ie w (s : supp) :
  wpa_key_mgmt_wpa (n_key_mgmt n) = true → security_ok n r = true →
  within (n_group_cipher n) 30 → within (n_pairwise_cipher n) 25 → (40 ≤ length ie)%nat →
  ∃ buf w' s', wpa_supplicant_set_suites mem (SuiteAllocs true true true) ai (Some (res_ies r, x)) n k ie w s =
    Ret (0, buf, w', s').
Proof.
  intros Hwpa Hsec Hg Hp Hie. unfold wpa_supplicant_set_suites. cbv zeta.
  change (wpa_bss_get_vendor_ie (res_ies r)) with (wpa_scan_get_vendor_ie r).
  change (wpa_bss_get_ie (res_ies r)) with (wpa_scan_get_ie r).
  rewrite (scan_get_vendor_ie r Hr), run_bind_l, ie_at_found, run_bind_l.
  rewrite (scan_get_ie r Hr), run_bind_l, ie_at_found, !run_bind_l.
  set (a := ie_bytes <$> List.find (vendor_is _) _). set (b := ie_bytes <$> List.find (ie_is _) _).
  rewrite (bool_decide_true (is_Some _)) by eauto. cbn [orb].
  assert (∃ p q d, choose_proto n a b true s = Ret (Some (p, d)) ∧ usable p (List.find q (elements r)) = Some d ∧
    (q = ie_is WLAN_EID_RSN ∧ p = RsnIe.WPA_PROTO_RSN ∨ q = vendor_is WPA_IE_VENDOR_TYPE ∧ p = RsnIe.WPA_PROTO_WPA))
    as (p & q & d & -> & Hu & Hq).
  { unfold choose_proto, a, b. rewrite !usable_ie_spec, run_bind_l.
    destruct (usable RsnIe.WPA_PROTO_RSN _) as [d|] eqn:Hu; [by eexists _, _, d; split; [done|]; split; [exact Hu|]; left|].
    rewrite run_bind_l. unfold security_ok in Hsec. rewrite Hwpa in Hsec. cbn [negb] in Hsec. rewrite orb_false_r in Hsec.
    apply orb_true_iff in Hsec as [Ho|Ho]; apply (offers_usable _ _ Hwpa) in Ho as [d Hd];
      [unfold r_element in Hd; congruence|]. unfold r_wpa_element in Hd. rewrite Hd.
    eexists _, _, d. split; [done|]. split; [exact Hd|]. by right. }
  rewrite run_bind_l. cbn [al_wpa al_rsn]. destruct (set_ap_ies_ok a b p s n) as (s1 & -> & Hpr). cbn [negb Z.eqb].
  destruct (usable_suites p q d Hq Hu) as (H1 & H2 & H3 & H4 & H5).
  match goal with |- context [set_suites_ciphers _ _ _ _ ?y _ _ ?v _] =>
    destruct (ciphers_succeed mem k y ie p d v s1) as (buf & w' & s' & ->) end;
    try done; [|by eexists _, _, _].
  destruct Hq as [[_ ->]|[_ ->]]; set_solver.
Qed.
End association.

(** ** Witnesses *)

Import WpaSm.Demo Select.Demo.

Definition start_suites : wpa_suites := WpaSuites 0 0 0 0.
Definition home_secrets : wpa_secrets := WpaSecrets (repeat 9 32) None.
Definition home_result : Z * (list Z * nat) * wpa_suites * @rsn_supp unit :=
  match wpa_supplicant_set_suites (repeat 0 64) (SuiteAllocs true true true) false (Some (res_ies ap_wpa2, [97])) net_home
          home_secrets (repeat 0 80) start_suites new_supp with
  | Ret x => x | _ => (-1, ([], 0%nat), start_suites, new_supp) end.

Lemma suites_negotiated_witness :
  ws_pairwise home_result.1.2 = WPA_CIPHER_CCMP ∧ configured home_result.1.2 home_result.2.
Proof.
  destruct (suites_negotiated (repeat 0 64) (SuiteAllocs true true true) false (res_ies ap_wpa2) [97] net_home
    home_secrets (repeat 0 80) start_suites new_supp home_result.1.1.2 home_result.1.2 home_result.2)
    as (e & d & He & Hd & _ & _ & Hp & _ & Hccmp & _ & _ & Hc); [vm_compute; reflexivity|].
  split; [vm_compute; reflexivity|exact Hc].
Defined.

Lemma selected_can_associate_witness :
  ∃ buf w' s', wpa_supplicant_set_suites (repeat 0 64) (SuiteAllocs true true true) false (Some (res_ies ap_wpa2, [97])) net_home
    home_secrets (repeat 0 80) start_suites (new_supp : @rsn_supp unit) = Ret (0, buf, w', s').
Proof.
  apply (selected_can_associate ap_wpa2); [|vm_compute; reflexivity|vm_compute; reflexivity|vm_compute; reflexivity
    |vm_compute; reflexivity|rewrite repeat_length; lia].
  exact (Forall_inv ap_wf).
Defined.
