(* ===== verification/Supplicant.v ===== *)
(** * The supplicant: its components together (src/wpa_supplicant/wpa_supplicant.c, events.c, wpas_glue.c, sme.c)

    A [sup] is [struct wpa_supplicant] with its parts: the selection of networks of
    Select, the EAPOL supplicant of EapolSupp, the RSN component of WpaConf and the
    security suites of Suites.  The operations are the driver events, the received EAPOL
    frames, the timeouts and the requests to connect and to disconnect.  A callback of a
    component is run here when the component returns, in the order in which the
    callbacks were made: none of them changes what the component still reads.  Requests
    to the driver are recorded in [acts].

    Modelled is the build with IEEE8021X_EAPOL and without CONFIG_AP, CONFIG_IBSS_RSN,
    CONFIG_IEEE80211R, CONFIG_IEEE80211W, CONFIG_WPS, CONFIG_P2P, CONFIG_TDLS, CONFIG_HS20,
    CONFIG_BGSCAN and CONFIG_ARBITER, with CONFIG_SME: a driver with the capability
    WPA_DRIVER_FLAGS_SME is asked to authenticate first, and to associate on its answer. *)

From S2P Require Import Prelude WpaIe Ies Eloop Bss Network Select EapolSupp EapolGuard RsnIe WpaSm WpaConf Suites Elems.

(** ** Data *)

Definition WPA_DRIVER_FLAGS_SET_KEYS_AFTER_ASSOC : Z := 0x00000002.
Definition WPA_DRIVER_FLAGS_4WAY_HANDSHAKE : Z := 0x00000008.
Definition WPA_DRIVER_FLAGS_WIRED : Z := 0x00000010.
Definition WPA_DRIVER_FLAGS_SME : Z := 0x00000020.
Definition WPA_DRIVER_FLAGS_SET_KEYS_AFTER_ASSOC_DONE : Z := 0x00000080.
Definition WPA_DRIVER_FLAGS_SANE_ERROR_CODES : Z := 0x00004000.
Definition WPAS_MODE_INFRA : Z := 0.
Definition WPAS_MODE_P2P_GO : Z := 3.
Definition WPAS_MODE_P2P_GROUP_FORMATION : Z := 4.
Definition WLAN_REASON_DEAUTH_LEAVING : Z := 3.
Definition WLAN_REASON_MICHAEL_MIC_FAILURE : Z := 14.
Definition WPA_AUTH_ALG_OPEN : Z := 1.
Definition WPA_AUTH_ALG_SHARED : Z := 2.
Definition WPA_AUTH_ALG_LEAP : Z := 4.
Definition WLAN_AUTH_OPEN : Z := 0.
Definition WLAN_AUTH_SHARED_KEY : Z := 1.
Definition WLAN_STATUS_SUCCESS : Z := 0.
Definition WLAN_STATUS_NOT_SUPPORTED_AUTH_ALG : Z := 13.
Definition WLAN_EID_EXT_CAPAB : Z := 127.
Definition zero_addr : list Z := repeat 0 6.

(** The values of [enum wpa_states], which Select uses. *)
Definition state_num (st : wpa_states) : Z :=
  match st with
  | WPA_DISCONNECTED => 0 | WPA_INTERFACE_DISABLED => 1 | WPA_INACTIVE => 2 | WPA_SCANNING => 3
  | WPA_AUTHENTICATING => 4 | WPA_ASSOCIATING => 5 | WPA_ASSOCIATED => 6 | WPA_4WAY_HANDSHAKE => 7
  | WPA_GROUP_HANDSHAKE => 8 | WPA_COMPLETED => 9
  end.
Definition num_state (z : Z) : wpa_states :=
  match z with
  | 0 => WPA_DISCONNECTED | 1 => WPA_INTERFACE_DISABLED | 2 => WPA_INACTIVE | 3 => WPA_SCANNING
  | 4 => WPA_AUTHENTICATING | 5 => WPA_ASSOCIATING | 6 => WPA_ASSOCIATED | 7 => WPA_4WAY_HANDSHAKE
  | 8 => WPA_GROUP_HANDSHAKE | _ => WPA_COMPLETED
  end.

(** The fields of [struct wpa_ssid] that selection does not use. *)
Record net_more := NetMore {
  m_secrets : wpa_secrets; m_psk_set : bool; m_wep_key : list (list Z); m_leap : bool; m_non_leap : Z;
  m_auth_alg : Z; m_peerkey : Z; m_proactive_key_caching : bool; m_wpa_ptk_rekey : Z; m_frequency : Z
}.

(** [struct wpa_driver_associate_params], but for the fields of P2P and U-APSD and the
    protection of management frames. *)
Record assoc_params := AssocParams {
  ap_bssid : option (list Z); ap_ssid : list Z; ap_freq : Z; ap_wpa_ie_ : list Z;
  ap_pairwise : wpa_cipher; ap_group : wpa_cipher; ap_key_mgmt : wpa_key_mgmt; ap_proto : Z;
  ap_auth_alg : Z; ap_mode : Z; ap_drop_unencrypted : bool;
  ap_wep_key : list (option (list Z)); ap_wep_tx_keyidx : Z; ap_prev_bssid : option (list Z);
  ap_passphrase : option (list Z); ap_psk : option (list Z)
}.

(** [struct wpa_driver_auth_params] *)
Record auth_params := AuthParams {
  au_freq : Z; au_bssid : list Z; au_ssid : list Z; au_auth_alg : Z; au_wep_key : list (option (list Z)); au_wep_tx_keyidx : Z
}.

(** The part [sme] of [struct wpa_supplicant]: the request under way, the previous access
    point, and the number of pending timeouts [sme_auth_timer] and [sme_assoc_timer]. *)
Record sme_state := Sme {
  sme_ssid : list Z; sme_freq : Z; assoc_req_ie : list Z; assoc_req_ie_len : nat; prev_bssid : option (list Z);
  sme_auth_alg : Z; sme_auth_timers : nat; sme_assoc_timers : nat
}.
#[global] Instance eta_sme : Eta sme_state := λ s,
  Sme (sme_ssid s) (sme_freq s) (assoc_req_ie s) (assoc_req_ie_len s) (prev_bssid s) (sme_auth_alg s) (sme_auth_timers s)
    (sme_assoc_timers s).

Inductive drv_alg := DrvNone | DrvAlg (a : wpa_alg) | DrvPmk.

(** Requests to the driver and notifications, and three marks: the EAPOL supplicant has
    been configured for a key management, an association has taken place, the RSN
    component has reported a cached PMKSA.  A deauthentication the RSN component asks for
    has its reason left out. *)
Inductive act :=
| ASetKey (alg : drv_alg) (addr : option (list Z)) (idx : Z) (tx : bool) (seq key : list Z)
| AProtection (addr : list Z)
| APort (authorized : bool)
| ASend (dest frame : list Z)
| ADisassociate (b : list Z) (reason : Z) | ADeauthenticate (b : list Z) (reason : option Z)
| AAssociate (p : assoc_params) | AAuthenticate (p : auth_params)
| ACountermeasures (on : bool) | APoll | AStopSchedScan
| ANetworkChanged | ABssidChanged
| ARsn (e : wpa_event) | AEapol (e : event)
| MConfig (km : Z) | MAssoc (b : list Z) | MCached.

(** The selection of a cache entry by PMKID or address, with opportunistic caching if
    asked for: the new cache, the entry selected and the entries freed. *)
Class PmksaSelect (C : Type) := {
  pmksa_select : C → Z → option (list Z) → option (list Z) → Z → bool →
    run (C * option positive * list (positive * pmksa_entry * bool))
}.

(** What an operation obtains from outside: the environment of the RSN component, the
    BSSID and the SSID the driver reports, the capabilities of the driver, its answer to
    the request to associate, the time, random numbers, the outcome of allocations, the
    uninitialised array [bssid] of [wpa_supplicant_event_assoc], and the scan results. *)
Record sup_env := SupEnv {
  e_rsn : wpa_env; e_bssid : option (list Z); e_ssid : option (list Z); e_capa : option Z; e_associate : Z;
  e_time : os_time; e_random : Z * Z; e_malloc : bool; e_suites : suite_allocs; e_blacklist : bool * bool;
  e_stack : list Z; e_scan : option (scan_env * list wpa_scan_res)
}.

(** The global part of the configuration. *)
Record glob_conf := GlobConf { g_fast_reauth : bool; g_eapol_version : Z; g_interworking : bool }.

(** The association information of the driver. *)
Record assoc_info := AssocInfo { ai_req_ies : option (list Z); ai_beacon_ies : option (list Z); ai_freq : Z }.

Section supplicant.
Context {E : Type} `{!EapPeer E} {crypto : WpaCrypto} {C : Type} {cache : PmksaCache C} {pselect : PmksaSelect C}.
(** Uninitialised memory, the results of the driver for WEP keys, the networks, the global
    configuration, and whether the build has CONFIG_DELAYED_MIC_ERROR_REPORT. *)
Context (junk mem : list Z) (wep_ret : bool → Z → list Z → Z) (more : positive → net_more) (glob : glob_conf)
  (delayed_report : bool).

(** [pending_eapol_rx] with the time and the source of the frame.  The timers are those
    of [wpa_supplicant_timeout], [wpa_supplicant_stop_countermeasures] and
    [wpa_supplicant_delayed_mic_error_report].  [auth_alg_set] are the networks whose field
    [auth_alg] the SME has changed. *)
Record sup := Sup {
  sel : wpa_supplicant; eapol : sys (E := E); rsn : @rsn_supp C; suites : wpa_suites;
  countermeasures : bool; last_michael_mic_error : Z; mic_errors_seen : Z;
  pending_mic_error_report : bool; pending_mic_error_pairwise : bool;
  keys_cleared : bool; eapol_received : Z; pending_eapol_rx : option (list Z * os_time * list Z);
  last_eapol_src : list Z; ap_ies_from_associnfo : bool; assoc_freq : Z; auto_reconnect_disabled : bool;
  auth_timer : option (Z * Z); countermeasures_timer : option (Z * Z); mic_report_timer : option (Z * Z);
  sme : sme_state; auth_alg_set : list (positive * Z); acts : list act
}.

#[global] Instance eta_sup : Eta sup := λ w,
  Sup (sel w) (eapol w) (rsn w) (suites w) (countermeasures w) (last_michael_mic_error w) (mic_errors_seen w)
    (pending_mic_error_report w) (pending_mic_error_pairwise w) (keys_cleared w) (eapol_received w) (pending_eapol_rx w)
    (last_eapol_src w) (ap_ies_from_associnfo w) (assoc_freq w) (auto_reconnect_disabled w) (auth_timer w)
    (countermeasures_timer w) (mic_report_timer w) (sme w) (auth_alg_set w) (acts w).

Implicit Types w : sup.

Definition record (a : act) w : sup := w <| acts := acts w ++ [a] |>.
Definition km w : Z := ws_key_mgmt (suites w).
Definition flag w (f : Z) : bool := has (drv_flags (sel w)) f.

(** ** Connection state and timers *)

Definition sme_state_changed w : sup :=
  let st := wpa_state (sel w) in
  let w := if negb (st =? Select.WPA_ASSOCIATING) then w <| sme := (sme w) <| sme_assoc_timers := 0%nat |> |> else w in
  if negb (st =? Select.WPA_AUTHENTICATING) then w <| sme := (sme w) <| sme_auth_timers := 0%nat |> |> else w.
(** The notification of a change of the state reaches the SME. *)
Definition put_sel (s : wpa_supplicant) w : sup :=
  if wpa_state s =? wpa_state (sel w) then w <| sel := s |> else sme_state_changed (w <| sel := s |>).

Definition set_state (st : Z) w : sup := put_sel (Select.wpa_supplicant_set_state st (sel w)) w.

Definition req_scan (sec usec : Z) w : run sup :=
  s ← Select.wpa_supplicant_req_scan sec usec (sel w); Ret (w <| sel := s |>).
Definition wpa_supplicant_cancel_scan w : sup := w <| sel := (sel w) <| scan_timer := None |> |>.

Definition wpa_supplicant_req_auth_timeout (sec usec : Z) w : sup :=
  if (c_ap_scan (Select.conf (sel w)) =? 0) && flag w WPA_DRIVER_FLAGS_WIRED then w
  else w <| auth_timer := Some (sec, usec) |>.

Definition wpa_supplicant_cancel_auth_timeout w : sup :=
  let w := w <| auth_timer := None |> in
  w <| sel := (sel w) <| blacklist := (wpa_blacklist_del (blacklist (sel w)) (own_bssid (table (sel w)))).2 |> |>.

(** ** Keys of the driver *)

Definition wpa_drv_set_key (alg : drv_alg) (addr : option (list Z)) (idx : Z) (tx : bool) (seq key : list Z) w : sup :=
  record (ASetKey alg addr idx tx seq key) (w <| keys_cleared := false |>).

Definition wpa_clear_keys (addr : option (list Z)) w : sup :=
  if keys_cleared w then w
  else
    let w := foldl (λ w i, wpa_drv_set_key DrvNone None i false [] [] w) w [0; 1; 2; 3] in
    let w := match addr with
             | Some a => record (AProtection a) (wpa_drv_set_key DrvNone (Some a) 0 false [] [] w)
             | None => w
             end in
    w <| keys_cleared := true |>.

Fixpoint wep_keys_loop (i : Z) (lens : list Z) (keys : list (list Z)) (tx : Z) w : bool * sup :=
  match lens, keys with
  | l :: lens, k :: keys =>
      if l =? 0 then wep_keys_loop (i + 1) lens keys tx w
      else
        let w := wpa_drv_set_key (DrvAlg WPA_ALG_WEP) None i (i =? tx) [] (take (Z.to_nat l) k) w in
        (true, (wep_keys_loop (i + 1) lens keys tx w).2)
  | _, _ => (false, w)
  end.
Definition wpa_set_wep_keys (n : wpa_ssid) (p : positive) w : bool * sup :=
  wep_keys_loop 0 (n_wep_key_len n) (m_wep_key (more p)) (n_wep_tx_keyidx n) w.

Definition wpa_supplicant_set_wpa_none_key (n : wpa_ssid) (p : positive) w : sup :=
  let psk := n_psk (m_secrets (more p)) in
  if negb (n_mode n =? IEEE80211_MODE_IBSS) then w
  else if negb (m_psk_set (more p)) then w
  else if ws_group (suites w) =? WPA_CIPHER_CCMP then
    wpa_drv_set_key (DrvAlg WPA_ALG_CCMP) None 0 true (repeat 0 6) (take 16 psk) w
  else if ws_group (suites w) =? WPA_CIPHER_TKIP then
    wpa_drv_set_key (DrvAlg WPA_ALG_TKIP) None 0 true (repeat 0 6) (take 24 psk ++ take 8 (drop 16 psk)) w
  else w.

(** ** Callbacks of the EAPOL supplicant (wpas_glue.c) *)

Definition glue_ctx : eapol_ctx := EapolCtx true true true true (Some wep_ret).

Definition wpa_supplicant_eapol_send (env : sup_env) (type : Z) (body : list Z) w : sup :=
  if wpa_key_mgmt_wpa_psk (km w) || (km w =? WPA_KEY_MGMT_NONE) then w
  else if bool_decide (is_Some (cur_pmksa (wsm (rsys (rsn w))))) && (type =? IEEE802_1X_TYPE_EAPOL_START) then w
  else
    let own := own_bssid (table (sel w)) in
    let dst := if is_zero_ether_addr own
               then match e_bssid env with
                    | Some b => if is_zero_ether_addr b then last_eapol_src w else b
                    | None => last_eapol_src w
                    end
               else own in
    if negb (e_malloc env) then w
    else record (ASend dst ([u8 (g_eapol_version glob); u8 type] ++ put_be16 (Z.of_nat (length body)) ++ body)) w.

Definition wpa_eapol_set_wep_key (unicast : bool) (keyidx : Z) (key : list Z) w : sup :=
  let w := if km w =? WPA_KEY_MGMT_IEEE8021X_NO_WPA then
             let cipher := if (length key =? 5)%nat then WPA_CIPHER_WEP40 else WPA_CIPHER_WEP104 in
             if unicast then w <| suites := (suites w) <| ws_pairwise := cipher |> |>
             else w <| suites := (suites w) <| ws_group := cipher |> |>
           else w in
  wpa_drv_set_key (DrvAlg WPA_ALG_WEP) (if unicast then Some (own_bssid (table (sel w))) else None) keyidx unicast [] key w.

Definition wpa_supplicant_aborted_cached w : sup :=
  w <| rsn := (rsn w) <| rsys := wpa_sm_aborted_cached (rsys (rsn w)) |> |>.

(** The PMK for a driver that does the 4-way handshake. *)
Definition driver_pmk w : option (list Z) :=
  if wpa_key_mgmt_ft (km w) then None
  else
    let '(res, pmk) := eapol_sm_get_key (eapol w) (take 32 junk) 32 in
    if res =? 0 then Some pmk
    else
      let '(res, pmk) := eapol_sm_get_key (eapol w) pmk 16 in
      if res =? 0 then Some (take 16 pmk) else None.

Definition wpa_supplicant_eapol_cb (success : bool) w : sup :=
  let w := if success then w else wpa_supplicant_req_auth_timeout 2 0 w in
  if negb success || negb (flag w WPA_DRIVER_FLAGS_4WAY_HANDSHAKE) then w
  else if negb (wpa_key_mgmt_wpa_ieee8021x (km w)) then w
  else match driver_pmk w with
       | None => w
       | Some pmk =>
           let w := wpa_drv_set_key DrvPmk None 0 false [] pmk w in
           let w := wpa_supplicant_cancel_scan w in
           let w := wpa_supplicant_cancel_auth_timeout w in
           set_state Select.WPA_COMPLETED w
       end.

Definition wpa_supplicant_notify_eapol_done w : sup :=
  if wpa_key_mgmt_wpa_ieee8021x (km w) then set_state (state_num WPA_4WAY_HANDSHAKE) w
  else set_state Select.WPA_COMPLETED (wpa_supplicant_cancel_auth_timeout w).

Definition eapol_callback (env : sup_env) w (e : event) : sup :=
  match e with
  | EapolSend type body => wpa_supplicant_eapol_send env type body w
  | PortCb b => record (APort b) w
  | EapolDone => wpa_supplicant_notify_eapol_done w
  | Completed b => wpa_supplicant_eapol_cb b w
  | SetWepKey u i k => wpa_eapol_set_wep_key u i k w
  | AbortedCached => wpa_supplicant_aborted_cached w
  | EapolSupp.RegisterTimeout _ _ | EapolSupp.CancelTimeout _ => record (AEapol e) w
  end.

(** A call of the EAPOL supplicant, with its callbacks. *)
Definition eapol_after (env : sup_env) (e : sys (E := E)) w : sup :=
  foldl (eapol_callback env) (w <| eapol := e |>) (drop (length (out (eapol w))) (out e)).
Definition eapol_do (env : sup_env) (o : op) w : run sup :=
  e ← run_op glue_ctx false junk mem o (eapol w); Ret (eapol_after env e w).
Definition eapol_rx (env : sup_env) (src buf : list Z) w : run (Z * sup) :=
  '(r, e) ← eapol_sm_rx_eapol glue_ctx false junk mem (e_malloc env) src buf (eapol w);
  Ret (r, eapol_after env e w).

(** ** Disconnecting *)

Definition set_table (f : bss_sys → bss_sys) w : sup := w <| sel := (sel w) <| table := f (table (sel w)) |> |>.

Definition wpa_supplicant_mark_disassoc (env : sup_env) w : run sup :=
  if wpa_state (sel w) =? Select.WPA_INTERFACE_DISABLED then Ret w
  else
    let w := set_state Select.WPA_DISCONNECTED w in
    let bssid_changed := negb (is_zero_ether_addr (own_bssid (table (sel w)))) in
    let w := set_table (λ t, t <| own_bssid := zero_addr |> <| pending_bssid := zero_addr |> <| current_bss := None |>) w in
    let w := w <| assoc_freq := 0 |> in
    let w := if bssid_changed then record ABssidChanged w else w in
    w ← eapol_do env (OpPortEnabled false) w;
    w ← eapol_do env (OpPortValid false) w;
    w ← (if wpa_key_mgmt_wpa_psk (km w) then eapol_do env (OpEapSuccess false) w else Ret w);
    Ret (w <| ap_ies_from_associnfo := false |>).

Definition wpa_supplicant_clear_connection (env : sup_env) (addr : option (list Z)) w : run sup :=
  let w := wpa_clear_keys addr w in
  w ← wpa_supplicant_mark_disassoc env w;
  let old_ssid := current_ssid (sel w) in
  let w := w <| sel := (sel w) <| current_ssid := None |> |> in
  let w := set_table (λ t, t <| current_bss := None |>) w in
  let w := w <| rsn := wpa_sm_set_config None (rsn w) |> in
  w ← eapol_do env (EapolSupp.OpConfig None) w;
  let w := if bool_decide (old_ssid = None) then w else record ANetworkChanged w in
  Ret (w <| auth_timer := None |>).

(** The driver is told only if there is an access point. *)
Definition disconnect (env : sup_env) (tell : list Z → act) w : run sup :=
  let own := own_bssid (table (sel w)) in
  if negb (is_zero_ether_addr own)
  then wpa_supplicant_clear_connection env (Some own) (record (tell own) w)
  else wpa_supplicant_clear_connection env None w.
Definition wpa_supplicant_disassociate (env : sup_env) (reason : Z) w : run sup :=
  disconnect env (λ b, ADisassociate b reason) w.
Definition wpa_supplicant_deauthenticate (env : sup_env) (reason : option Z) w : run sup :=
  disconnect env (λ b, ADeauthenticate b reason) w.

(** ** Callbacks of the RSN component (wpas_glue.c) *)

Definition wpa_supplicant_set_key (alg : wpa_alg) (addr : option (list Z)) (idx : Z) (tx : bool) (seq key : list Z) w : sup :=
  let w := if bool_decide (alg = WPA_ALG_TKIP) && (idx =? 0) && (length key =? 32)%nat
           then w <| mic_errors_seen := 0 |> else w in
  wpa_drv_set_key (DrvAlg alg) addr idx tx seq key w.

Definition rsn_callback (env : sup_env) (e : wpa_event) w : run sup :=
  match e with
  | SetState st => Ret (set_state (state_num st) w)
  | Deauthenticate => w ← wpa_supplicant_deauthenticate env None w; req_scan 5 0 w
  | SetKey alg a i tx seq k => Ret (wpa_supplicant_set_key alg a i tx seq k w)
  | EtherSend dest frame => Ret (record (ASend dest frame) w)
  | NotifyTxEapolKey => eapol_do env OpTxKey w
  | NotifyPortValid b => eapol_do env (OpPortValid b) w
  | NotifyEapSuccess => eapol_do env (OpEapSuccess true) w
  | NotifyCached => eapol_do env OpCached (record MCached w)
  | NotifyLowerLayerSuccess => eapol_do env OpLowerLayerSuccess w
  | CancelAuthTimeout => Ret (wpa_supplicant_cancel_auth_timeout w)
  | SetProtection _ | RegisterPreauth | CancelRekeyPtk | RegisterRekeyPtk _ | SetRekeyOffload | PreauthDeinit =>
      Ret (record (ARsn e) w)
  end.

Fixpoint rsn_callbacks (env : sup_env) (l : list wpa_event) w : run sup :=
  match l with
  | [] => Ret w
  | e :: l => w ← rsn_callback env e w; rsn_callbacks env l w
  end.

(** The network of the current access point, from what the driver reports. *)
Definition get_ssid_match (wired : bool) (x b : list Z) (n : wpa_ssid) : bool :=
  (negb (n_disabled n) &&
   (((length x =? length (n_ssid n))%nat && (memcmp x (n_ssid n) =? 0)) || wired) &&
   (negb (n_bssid_set n) || (memcmp b (n_bssid n) =? 0))) ||
  (negb (n_disabled n) && n_bssid_set n && (length (n_ssid n) =? 0)%nat && (memcmp b (n_bssid n) =? 0)).
Definition wpa_supplicant_get_ssid (env : sup_env) w : run (option positive) :=
  match e_ssid env, e_bssid env with
  | Some x, Some b =>
      let c := Select.conf (sel w) in
      find_network (get_ssid_match ((c_ap_scan c =? 0) && flag w WPA_DRIVER_FLAGS_WIRED) x b) (Network.c_ssid c) c
  | _, _ => Ret None
  end.

(** The environment of the RSN component: the network and the BSSID are asked of the
    supplicant, the master key of the EAPOL supplicant. *)
Definition rsn_env (env : sup_env) w : run wpa_env :=
  net ← wpa_supplicant_get_ssid env w;
  let e := e_rsn env in
  let msk := if eap_key_available (eap (eapol w)) then eap_get_eapKeyData (eap (eapol w)) else None in
  Ret (WpaEnv (env_malloc e) (env_malloc_unwrap e) (env_alloc_eapol e) (g_eapol_version glob) (env_random e)
         (sec (e_time env)) (bool_decide (is_Some net)) true msk (e_bssid env) (env_beacon_ie e) (env_set_key e)
         (env_preauth_bssid e)).

(** A call of the RSN component, which reads the connection state of the supplicant, with
    its callbacks. *)
Definition rsn_do {A} (env : sup_env) (f : wpa_env → wpa_sys → run (A * wpa_sys)) w : run (A * sup) :=
  e ← rsn_env env w;
  let s := (rsys (rsn w)) <| wstate := num_state (wpa_state (sel w)) |> in
  '(a, s') ← f e s;
  w ← rsn_callbacks env (drop (length (wout s)) (wout s')) (w <| rsn := (rsn w) <| rsys := s' |> |>);
  Ret (a, w).

Definition key_request (env : sup_env) (error pairwise : bool) w : run sup :=
  '(_, w) ← rsn_do env (λ e s, Ret (tt, wpa_sm_key_request e error pairwise s)) w; Ret w.

Definition notify_disassoc (env : sup_env) w : run sup :=
  let r := (rsn w) <| rsys := (rsys (rsn w)) <| wstate := num_state (wpa_state (sel w)) |> |> in
  let r' := wpa_sm_notify_disassoc r in
  rsn_callbacks env (drop (length (wout (rsys r))) (wout (rsys r'))) (w <| rsn := r' |>).

(** ** Timeouts and TKIP countermeasures *)

Definition wpa_supplicant_timeout (env : sup_env) w : run sup :=
  let own := own_bssid (table (sel w)) in
  let b := if is_zero_ether_addr own then pending_bssid (table (sel w)) else own in
  let w := w <| sel := (sel w) <| blacklist := (wpa_blacklist_add (e_blacklist env).1 (blacklist (sel w)) b).2 |> |> in
  w ← notify_disassoc env w;
  w ← wpa_supplicant_disassociate env WLAN_REASON_DEAUTH_LEAVING w;
  let w := w <| sel := (sel w) <| reassociate := true |> |> in
  req_scan 1 0 w.

Definition wpa_supplicant_stop_countermeasures (w : sup) : run sup :=
  if countermeasures w then
    let w := w <| countermeasures := false |> in
    let w := record (ACountermeasures false) w in
    req_scan 0 0 w
  else Ret w.

Definition wpa_supplicant_delayed_mic_error_report (env : sup_env) w : run sup :=
  if negb (pending_mic_error_report w) then Ret w
  else
    w ← key_request env true (pending_mic_error_pairwise w) w;
    Ret (w <| pending_mic_error_report := false |>).

(** Second failure within a minute, or while a report is pending. *)
Definition start_countermeasures (env : sup_env) (pairwise : bool) w : run sup :=
  w ← (if pending_mic_error_report w then key_request env true (pending_mic_error_pairwise w) w else Ret w);
  w ← key_request env true pairwise w;
  let w := w <| countermeasures := true |> in
  let w := record (ACountermeasures true) w in
  w ← wpa_supplicant_deauthenticate env (Some WLAN_REASON_MICHAEL_MIC_FAILURE) w;
  Ret (w <| countermeasures_timer := Some (60, 0) |>).

Definition wpa_supplicant_event_michael_mic_failure (env : sup_env) (unicast : option bool) w : run sup :=
  let pairwise := default false unicast in
  let t := sec (e_time env) in
  w ← (if (negb (last_michael_mic_error w =? 0) && (t - last_michael_mic_error w <=? 60)) || pending_mic_error_report w
       then start_countermeasures env pairwise w
       else if delayed_report && negb (mic_errors_seen w =? 0) then
         Ret (w <| pending_mic_error_report := true |> <| pending_mic_error_pairwise := pairwise |>
                <| mic_report_timer := Some ((e_random env).1 mod 60, (e_random env).2 mod 1000000) |>)
       else key_request env true pairwise w);
  Ret (w <| last_michael_mic_error := t |> <| mic_errors_seen := mic_errors_seen w + 1 |>).

(** ** Received EAPOL frames *)

Definition current_net w : run (option wpa_ssid) :=
  match current_ssid (sel w) with
  | Some p => n ← net_at p (Select.conf (sel w)); Ret (Some n)
  | None => Ret None
  end.
Definition is_ibss (n : option wpa_ssid) : bool := from_option (λ n, n_mode n =? IEEE80211_MODE_IBSS) false n.

(** The two receivers, and the driver that does the handshake itself. *)
Definition rx_deliver (env : sup_env) (src buf : list Z) w : run sup :=
  '(r, w) ← (if negb (wpa_key_mgmt_wpa_psk (km w)) then eapol_rx env src buf w else Ret (0, w));
  if 0 <? r then Ret w
  else
    let w := record APoll w in
    if negb (flag w WPA_DRIVER_FLAGS_4WAY_HANDSHAKE)
    then '(_, w) ← rsn_do env (λ e s, wpa_sm_rx_eapol e src buf s) w; Ret w
    else if wpa_key_mgmt_wpa_ieee8021x (km w) then eapol_do env (OpPortValid true) w
    else Ret w.

Definition wpa_supplicant_rx_eapol (env : sup_env) (src buf : list Z) w : run sup :=
  if wpa_state (sel w) <? Select.WPA_ASSOCIATED then
    Ret (w <| pending_eapol_rx := if e_malloc env then Some (buf, e_time env, src) else None |>)
  else if km w =? WPA_KEY_MGMT_NONE then Ret w
  else
    net ← current_net w;
    let w := if (eapol_received w =? 0) &&
                (negb (flag w WPA_DRIVER_FLAGS_4WAY_HANDSHAKE) || negb (wpa_key_mgmt_wpa_psk (km w)) ||
                 negb (wpa_state (sel w) =? Select.WPA_COMPLETED)) && negb (is_ibss net)
             then wpa_supplicant_req_auth_timeout
                    (if wpa_key_mgmt_wpa_ieee8021x (km w) || (km w =? WPA_KEY_MGMT_IEEE8021X_NO_WPA) ||
                        (km w =? WPA_KEY_MGMT_WPS) then 70 else 10) 0 w
             else w in
    let w := w <| eapol_received := eapol_received w + 1 |> in
    if countermeasures w then Ret w
    else rx_deliver env src buf (w <| last_eapol_src := src |>).

(** ** Configuration for a network *)

Definition net_ptr (p : option positive) : Z := match p with Some p => Zpos p | None => 0 end.

Definition wpa_supplicant_rsn_supp_set_config (p : option positive) w : run sup :=
  match p with
  | None => Ret (w <| rsn := wpa_sm_set_config None (rsn w) |>)
  | Some q =>
      n ← net_at q (Select.conf (sel w));
      let c := RsnSuppConfig (net_ptr p) (m_peerkey (more q)) (n_pairwise_cipher n)
                 (Z.b2z (m_proactive_key_caching (more q))) (n_eap_workaround n) (net_ptr p) (Some (n_ssid n))
                 (m_wpa_ptk_rekey (more q)) in
      Ret (w <| rsn := wpa_sm_set_config (Some c) (rsn w) |>)
  end.

Definition eapol_conf_of (k : Z) (flags : Z) (n : wpa_ssid) : eapol_config :=
  let no_wpa := k =? WPA_KEY_MGMT_IEEE8021X_NO_WPA in
  let required :=
    if no_wpa && negb (has flags WPA_DRIVER_FLAGS_WIRED) then
      Z.lor (if has (n_eapol_flags n) EAPOL_FLAG_REQUIRE_KEY_UNICAST then EAPOL_REQUIRE_KEY_UNICAST else 0)
        (if has (n_eapol_flags n) EAPOL_FLAG_REQUIRE_KEY_BROADCAST then EAPOL_REQUIRE_KEY_BROADCAST else 0)
    else 0 in
  EapolConfig no_wpa required (g_fast_reauth glob) (n_eap_workaround n)
    (negb (wpa_key_mgmt_wpa_ieee8021x k) && negb no_wpa && negb (k =? WPA_KEY_MGMT_WPS)).

Definition wpa_supplicant_initiate_eapol (env : sup_env) w : run sup :=
  w ← eapol_do env (OpEapSuccess false) w;
  w ← eapol_do env (OpEapFail false) w;
  w ← eapol_do env (OpPortControl (if (km w =? WPA_KEY_MGMT_NONE) || (km w =? WPA_KEY_MGMT_WPA_NONE)
                                   then ForceAuthorized else Auto)) w;
  net ← current_net w;
  match net with
  | None => UB NullDeref
  | Some n =>
      w ← eapol_do env (EapolSupp.OpConfig (Some (eapol_conf_of (km w) (drv_flags (sel w)) n))) w;
      Ret (record (MConfig (km w)) w)
  end.

Definition set_suites (env : sup_env) (b : option (list Z * list Z)) (n : wpa_ssid) (p : positive) (buf : list Z) w
  : run (Z * (list Z * nat) * sup) :=
  '(r, ie, s, c) ← wpa_supplicant_set_suites mem (e_suites env) (ap_ies_from_associnfo w) b n (m_secrets (more p))
                     buf (suites w) (rsn w);
  Ret (r, ie, w <| suites := s |> <| rsn := c |>).
Definition set_non_wpa_policy (n : wpa_ssid) w : sup :=
  let '(s, c) := wpa_supplicant_set_non_wpa_policy n (suites w) (rsn w) in w <| suites := s |> <| rsn := c |>.

Definition wpa_key_mgmt_wpa_any (akm : Z) : bool := wpa_key_mgmt_wpa akm || has akm WPA_KEY_MGMT_WPA_NONE.

(** The new network, as the last step of selection, association and authentication. *)
Definition enter_network (env : sup_env) (p : positive) (b : option (option positive)) w : run sup :=
  let old_ssid := current_ssid (sel w) in
  let w := w <| sel := (sel w) <| current_ssid := Some p |> |> in
  let w := match b with Some b => set_table (λ t, t <| current_bss := b |>) w | None => w end in
  w ← wpa_supplicant_rsn_supp_set_config (Some p) w;
  w ← wpa_supplicant_initiate_eapol env w;
  Ret (if bool_decide (old_ssid = Some p) then w else record ANetworkChanged w).
(** Selection and association do not resume an EAP session of another network. *)
Definition switch_network (env : sup_env) (p : positive) (b : option (option positive)) w : run sup :=
  w ← (match current_ssid (sel w) with
       | Some q => if bool_decide (q = p) then Ret w else eapol_do env OpInvalidateSession w
       | None => Ret w
       end);
  enter_network env p b w.

Definition wpa_supplicant_select_config (env : sup_env) w : run (Z * sup) :=
  if (c_ap_scan (Select.conf (sel w)) =? 1) && bool_decide (is_Some (current_ssid (sel w))) then Ret (0, w)
  else
    p ← wpa_supplicant_get_ssid env w;
    match p with
    | None => Ret (-1, w)
    | Some p =>
        n ← net_at p (Select.conf (sel w));
        if n_disabled n then Ret (-1, w)
        else
          w ← (if wpa_key_mgmt_wpa_any (n_key_mgmt n)
               then '(_, _, w) ← set_suites env None n p (repeat 0 80) w; Ret w
               else Ret (set_non_wpa_policy n w));
          w ← switch_network env p None w;
          Ret (0, w)
    end.

Definition wpa_supplicant_dynamic_keys (k : Z) (n : option wpa_ssid) : bool :=
  if (k =? WPA_KEY_MGMT_NONE) || (k =? WPA_KEY_MGMT_WPA_NONE) then false
  else if (k =? WPA_KEY_MGMT_IEEE8021X_NO_WPA) &&
          from_option (λ n, negb (has (n_eapol_flags n)
            (Z.lor EAPOL_FLAG_REQUIRE_KEY_UNICAST EAPOL_FLAG_REQUIRE_KEY_BROADCAST))) false n
  then false
  else true.

(** ** Association *)

Definition wpa_oui : list Z := [0x00; 0x50; 0xF2; 0x01; 0x01; 0x00].
Definition is_wpa_ie (ies : list Z) (pos : nat) : run bool :=
  t ← rd ies pos; len ← rd ies (pos + 1);
  if (t =? WLAN_EID_VENDOR_SPECIFIC) && (6 <=? len)
  then o ← rdn ies (pos + 2) 6; Ret (memcmp o wpa_oui =? 0)
  else Ret false.
Definition is_rsn_ie (ies : list Z) (pos : nat) : run bool :=
  t ← rd ies pos; len ← rd ies (pos + 1); Ret ((t =? WLAN_EID_RSN) && (2 <=? len)).
Definition is_security_ie (ies : list Z) (pos : nat) : run bool :=
  a ← is_wpa_ie ies pos; if a : bool then Ret true else is_rsn_ie ies pos.

(** The first element that passes a test. *)
Definition find_ie (test : list Z → nat → run bool) (ies : list Z) : run (option (list Z)) :=
  o ← ie_walk (S (length ies)) ies (test ies) 0; ie_at ies o.

Definition pmksa_cache_set_current (env : sup_env) (pmkid b : option (list Z)) (net : Z) (opportunistic : bool) w
  : run (bool * sup) :=
  rsn_do env (λ e s,
    let s := s <| wsm := (wsm s) <| cur_pmksa := None |> |> in
    '(c, cur, freed) ← pmksa_select (pmksa s) (env_now e) pmkid b net opportunistic;
    let s := foldl wpa_sm_pmksa_free_cb (s <| pmksa := c |>) freed in
    Ret (bool_decide (is_Some cur), s <| wsm := (wsm s) <| cur_pmksa := cur |> |>)) w.

Fixpoint assoc_pmkid_loop (env : sup_env) (ids : list (list Z)) w : run sup :=
  match ids with
  | [] => Ret w
  | i :: ids =>
      '(found, w) ← pmksa_cache_set_current env (Some i) None 0 false w;
      if found : bool then eapol_do env (OpPmkidAttempt true) w else assoc_pmkid_loop env ids w
  end.
Definition wpa_find_assoc_pmkid (env : sup_env) w : run sup :=
  '(r, d) ← wpa_sm_parse_own_wpa_ie (rsn w);
  if r <? 0 then Ret w
  else match d ≫= pmkid, assoc_wpa_ie (wsm (rsys (rsn w))) with
       | Some off, Some ie =>
           ids ← rdn ie off (16 * Z.to_nat (from_option num_pmkid 0 d));
           assoc_pmkid_loop env (map (λ i, take 16 (drop (16 * i) ids)) (seq 0 (Z.to_nat (from_option num_pmkid 0 d)))) w
       | _, _ => Ret w
       end.

(** The own element, from the association request. *)
Definition associnfo_req (env : sup_env) (req : option (list Z)) w : run sup :=
  match req with
  | None => Ret w
  | Some ies =>
      o ← find_ie is_security_ie ies;
      let clear w := w <| rsn := (wpa_sm_set_assoc_wpa_ie (e_malloc env) None (rsn w)).2 |> in
      match o with
      | None => Ret (clear w)
      | Some ie =>
          let '(r, c) := wpa_sm_set_assoc_wpa_ie (e_malloc env) (Some ie) (rsn w) in
          let w := w <| rsn := c |> in
          if negb (r =? 0) then Ret (clear w) else wpa_find_assoc_pmkid env w
      end
  end.
(** The elements of the access point, from its beacon. *)
Definition associnfo_beacon (env : sup_env) (beacon : option (list Z)) w : run sup :=
  match beacon with
  | None => Ret w
  | Some ies =>
      a ← find_ie is_wpa_ie ies; b ← find_ie is_rsn_ie ies;
      let w := w <| rsn := (wpa_sm_set_ap_wpa_ie (e_malloc env) a (rsn w)).2 |> in
      let w := w <| rsn := (wpa_sm_set_ap_rsn_ie (e_malloc env) b (rsn w)).2 |> in
      Ret (if bool_decide (is_Some a) || bool_decide (is_Some b) then w <| ap_ies_from_associnfo := true |> else w)
  end.
Definition update_scan_results (env : sup_env) w : run sup :=
  match e_scan env with
  | None => Ret w
  | Some (se, l) =>
      t ← wpa_supplicant_get_scan_results (se_qsort se) (se_envs se) l None false (table (sel w));
      Ret (w <| sel := (sel w) <| table := t |> |>)
  end.
Definition wpa_supplicant_event_associnfo (env : sup_env) (d : assoc_info) w : run sup :=
  w ← associnfo_req env (ai_req_ies d) w;
  w ← associnfo_beacon env (ai_beacon_ies d) w;
  w ← (if negb (assoc_freq w =? 0) && negb (ai_freq d =? 0) && negb (assoc_freq w =? ai_freq d)
       then update_scan_results env w else Ret w);
  Ret (w <| assoc_freq := ai_freq d |>).

(** The part for a new access point; [None] is the failure to find a network. *)
Definition assoc_new_bss (env : sup_env) (b : list Z) w : run (bool * sup) :=
  let w := set_table (λ t, t <| own_bssid := b |> <| pending_bssid := zero_addr |>) w in
  let w := record ABssidChanged w in
  net ← current_net w;
  let w := if wpa_supplicant_dynamic_keys (km w) net then wpa_clear_keys (Some b) w else w in
  '(r, w) ← wpa_supplicant_select_config env w;
  if r <? 0 then
    w ← wpa_supplicant_disassociate env WLAN_REASON_DEAUTH_LEAVING w; Ret (false, w)
  else
    net ← current_net w;
    match net with
    | None => Ret (true, w)
    | Some n =>
        o ← (if (0 <? length (n_ssid n))%nat then wpa_bss_get (table (sel w)) b (n_ssid n) else Ret None);
        o ← match o with Some a => Ret (Some a) | None => wpa_bss_get_bssid (table (sel w)) b end;
        Ret (true, match o with Some a => set_table (λ t, t <| current_bss := Some a |>) w | None => w end)
    end.

(** The notifications of the components. *)
Definition assoc_notify (env : sup_env) (b : list Z) w : run sup :=
  '(_, w) ← rsn_do env (λ e s, Ret (tt, wpa_sm_notify_assoc e b s)) w;
  w ← eapol_do env (OpPortEnabled false) w;
  w ← eapol_do env (OpPortValid false) w;
  let w := record (MAssoc b) w in
  w ← (if wpa_key_mgmt_wpa_psk (km w) then eapol_do env (OpEapSuccess false) w else Ret w);
  w ← eapol_do env (OpPortEnabled true) w;
  Ret (w <| eapol_received := 0 |>).

(** The connections that are complete with the association, or that the driver completes. *)
Definition assoc_complete (env : sup_env) w : run sup :=
  net ← current_net w;
  let done w := set_state Select.WPA_COMPLETED (wpa_supplicant_cancel_auth_timeout w) in
  let w := if (km w =? WPA_KEY_MGMT_NONE) || (km w =? WPA_KEY_MGMT_WPA_NONE) || is_ibss net then done w
           else wpa_supplicant_req_auth_timeout 10 0 w in
  let w := wpa_supplicant_cancel_scan w in
  if flag w WPA_DRIVER_FLAGS_4WAY_HANDSHAKE && wpa_key_mgmt_wpa_psk (km w) then
    let w := done w in
    w ← eapol_do env (OpPortValid true) w;
    eapol_do env (OpEapSuccess true) w
  else if flag w WPA_DRIVER_FLAGS_4WAY_HANDSHAKE && wpa_key_mgmt_wpa_ieee8021x (km w) then
    eapol_do env (OpPortValid true) w
  else Ret w.

(** A frame that arrived just before the association is processed if it is younger than
    100 ms and comes from the access point. *)
Definition assoc_pending (env : sup_env) (b : list Z) w : run sup :=
  match pending_eapol_rx w with
  | None => Ret w
  | Some (buf, t, src) =>
      let age := os_time_sub (e_time env) t in
      w ← (if (sec age =? 0) && (usec age <? 100000) && (memcmp src b =? 0)
           then wpa_supplicant_rx_eapol env src buf w else Ret w);
      Ret (w <| pending_eapol_rx := None |>)
  end.

Definition assoc_wep (env : sup_env) w : run sup :=
  match current_ssid (sel w), e_capa env with
  | Some p, Some capa =>
      if ((km w =? WPA_KEY_MGMT_NONE) || (km w =? WPA_KEY_MGMT_IEEE8021X_NO_WPA)) &&
         has capa WPA_DRIVER_FLAGS_SET_KEYS_AFTER_ASSOC_DONE
      then n ← net_at p (Select.conf (sel w)); Ret (wpa_set_wep_keys n p w).2
      else Ret w
  | _, _ => Ret w
  end.

(** If the driver does not report the BSSID, the array [bssid] is used uninitialised. *)
Definition wpa_supplicant_event_assoc (env : sup_env) (data : option assoc_info) w : run sup :=
  w ← match data with Some d => wpa_supplicant_event_associnfo env d w | None => Ret w end;
  let w := set_state Select.WPA_ASSOCIATED w in
  let b := default (e_stack env) (e_bssid env) in
  '(ok, w) ← (if bool_decide (is_Some (e_bssid env)) && negb (memcmp b (own_bssid (table (sel w))) =? 0)
              then assoc_new_bss env b w else Ret (true, w));
  if negb ok then Ret w
  else
    let w := w <| sme := (sme w) <| prev_bssid := Some b |> |> in
    w ← assoc_notify env b w;
    w ← assoc_complete env w;
    w ← assoc_pending env b w;
    assoc_wep env w.

Definition sme_disassoc_while_authenticating (prev_pending_bssid : list Z) w : sup :=
  let w := set_state Select.WPA_AUTHENTICATING w in
  let w := set_table (λ t, t <| pending_bssid := prev_pending_bssid |>) w in
  w <| sme := (sme w) <| sme_auth_timers := 1%nat |> |>.

Definition wpa_supplicant_event_disassoc (env : sup_env) w : run sup :=
  let authenticating := wpa_state (sel w) =? Select.WPA_AUTHENTICATING in
  let prev_pending_bssid := pending_bssid (table (sel w)) in
  if km w =? WPA_KEY_MGMT_WPA_NONE then Ret w
  else
    w ← (if negb (auto_reconnect_disabled w) || (km w =? WPA_KEY_MGMT_WPS)
         then if Select.WPA_ASSOCIATING <=? wpa_state (sel w) then req_scan 0 100000 w else Ret w
         else Ret (w <| sel := (sel w) <| reassociate := false |> <| disconnected := true |> |>));
    let own := own_bssid (table (sel w)) in
    let b := if is_zero_ether_addr own then pending_bssid (table (sel w)) else own in
    s ← wpas_connection_failed (e_blacklist env) b (sel w);
    let w := w <| sel := s |> in
    w ← notify_disassoc env w;
    net ← current_net w;
    let w := if wpa_supplicant_dynamic_keys (km w) net
             then wpa_clear_keys (Some (own_bssid (table (sel w)))) (w <| keys_cleared := false |>) else w in
    w ← wpa_supplicant_mark_disassoc env w;
    Ret (if authenticating && flag w WPA_DRIVER_FLAGS_SME then sme_disassoc_while_authenticating prev_pending_bssid w else w).

(** ** The request to associate *)

Definition net_auth_alg (p : positive) w : Z :=
  match List.find (λ x, bool_decide (x.1 = p)) (auth_alg_set w) with Some x => x.2 | None => m_auth_alg (more p) end.
Definition auth_algs (n : wpa_ssid) (p : positive) w : Z :=
  let m := more p in
  let algs := if has (n_key_mgmt n) WPA_KEY_MGMT_IEEE8021X_NO_WPA && m_leap m
              then if m_non_leap m =? 0 then WPA_AUTH_ALG_LEAP else Z.lor WPA_AUTH_ALG_OPEN WPA_AUTH_ALG_LEAP
              else WPA_AUTH_ALG_OPEN in
  if net_auth_alg p w =? 0 then algs else net_auth_alg p w.
Definition wep_params (n : wpa_ssid) (p : positive) : list (option (list Z)) :=
  zip_with (λ l k, if l =? 0 then None else Some (take (Z.to_nat l) k)) (n_wep_key_len n) (m_wep_key (more p)).

(** The suites or the policy, and the elements of the request in the buffer [buf]; the
    first two components are whether they could be set and whether the network uses WPA. *)
Definition associate_suites (env : sup_env) (b : option wpa_bss) (n : wpa_ssid) (p : positive) (buf : list Z) w
  : run (bool * bool * (list Z * nat) * sup) :=
  announced ← match b with
              | None => Ret false
              | Some b =>
                  a ← wpa_bss_get_vendor_ie (bss_ies b) WPA_IE_VENDOR_TYPE;
                  c ← wpa_bss_get_ie (bss_ies b) WLAN_EID_RSN;
                  Ret (bool_decide (is_Some a) || bool_decide (is_Some c))
              end;
  let suites_of b w :=
    '(r, ie, w) ← set_suites env b n p buf w; Ret (r =? 0, true, ie, w) in
  match b with
  | Some b =>
      if announced && wpa_key_mgmt_wpa (n_key_mgmt n) then
        '(found, w) ← pmksa_cache_set_current env None (Some (Bss.bssid b)) (net_ptr (current_ssid (sel w)))
                        (m_proactive_key_caching (more p) && has (n_proto n) RsnIe.WPA_PROTO_RSN) w;
        w ← (if found : bool then eapol_do env (OpPmkidAttempt true) w else Ret w);
        suites_of (Some (bss_ies b, take (Bss.ssid_len b) (Bss.ssid b))) w
      else if wpa_key_mgmt_wpa_any (n_key_mgmt n) then suites_of None w
      else Ret (true, false, (buf, 0%nat), set_non_wpa_policy n w)
  | None =>
      if wpa_key_mgmt_wpa_any (n_key_mgmt n) then suites_of None w
      else Ret (true, false, (buf, 0%nat), set_non_wpa_policy n w)
  end.

(** The element for interworking goes behind the RSN element. *)
Definition add_interworking (ie : list Z) : list Z :=
  if negb (g_interworking glob) then ie
  else
    let pos := match ie with
               | t :: len :: _ => if t =? WLAN_EID_RSN then (2 + Z.to_nat len)%nat else 0%nat
               | _ => 0%nat
               end in
    take pos ie ++ [WLAN_EID_EXT_CAPAB; 4; 0; 0; 0; 0x80] ++ drop pos ie.

(** Keys and ciphers before the request: whether encryption is used, whether static keys
    were set, and the ciphers. *)
Definition associate_keys (n : wpa_ssid) (p : positive) w : bool * bool * wpa_cipher * wpa_cipher * sup :=
  let static := (km w =? WPA_KEY_MGMT_NONE) || (km w =? WPA_KEY_MGMT_IEEE8021X_NO_WPA) in
  let '(wep, w) := if static then wpa_set_wep_keys n p w else (false, w) in
  let crypt := if km w =? WPA_KEY_MGMT_NONE then wep else true in
  let crypt := if km w =? WPA_KEY_MGMT_WPS then false else crypt in
  let '(crypt, pw, g) :=
    if km w =? WPA_KEY_MGMT_IEEE8021X_NO_WPA then
      if negb (has (n_eapol_flags n) (Z.lor EAPOL_FLAG_REQUIRE_KEY_UNICAST EAPOL_FLAG_REQUIRE_KEY_BROADCAST)) && negb wep
      then (false, cipher_suite2driver (ws_pairwise (suites w)), cipher_suite2driver (ws_group (suites w)))
      else (crypt, CIPHER_WEP104, CIPHER_WEP104)
    else (crypt, cipher_suite2driver (ws_pairwise (suites w)), cipher_suite2driver (ws_group (suites w))) in
  (crypt, wep, pw, g, if km w =? WPA_KEY_MGMT_WPA_NONE then wpa_supplicant_set_wpa_none_key n p w else w).

Definition assoc_params_of (b : option wpa_bss) (n : wpa_ssid) (p : positive) (ie : list Z) (pw g : wpa_cipher)
    (crypt : bool) w : assoc_params :=
  let pick := negb (wpas_driver_bss_selection (sel w)) in
  let f := match b with Some b => if pick then Bss.freq b else 0 | None => 0 end in
  let suite := key_mgmt2driver (km w) in
  let offload := flag w WPA_DRIVER_FLAGS_4WAY_HANDSHAKE &&
                 match suite with KEY_MGMT_PSK | KEY_MGMT_FT_PSK => true | _ => false end in
  AssocParams
    (match b with Some b => if pick then Some (Bss.bssid b) else None | None => None end)
    (match b with Some b => take (Bss.ssid_len b) (Bss.ssid b) | None => n_ssid n end)
    (if (n_mode n =? IEEE80211_MODE_IBSS) && (0 <? m_frequency (more p)) && (f =? 0) then m_frequency (more p) else f)
    ie pw g suite (ws_proto (suites w)) (auth_algs n p w) (n_mode n) crypt
    (wep_params n p) (n_wep_tx_keyidx n) None
    (if offload then n_passphrase (m_secrets (more p)) else None)
    (if offload && m_psk_set (more p) then Some (n_psk (m_secrets (more p))) else None).

(** After the request: the timer, static keys, and the new network. *)
Definition associate_finish (env : sup_env) (a : option positive) (n : wpa_ssid) (p : positive) (failed wep : bool) w
  : run sup :=
  let ibss := n_mode n =? IEEE80211_MODE_IBSS in
  let w :=
    if km w =? WPA_KEY_MGMT_WPA_NONE then
      set_state Select.WPA_COMPLETED (wpa_supplicant_cancel_auth_timeout (wpa_supplicant_set_wpa_none_key n p w))
    else
      let timeout := if failed : bool then if ibss then 10 else 5
                     else if c_ap_scan (Select.conf (sel w)) =? 1 then if ibss then 20 else 10
                     else 60 in
      wpa_supplicant_req_auth_timeout timeout 0 w in
  let w := if wep && from_option (λ c, has c WPA_DRIVER_FLAGS_SET_KEYS_AFTER_ASSOC) false (e_capa env)
           then (wpa_set_wep_keys n p w).2 else w in
  switch_network env p (Some a) w.

(** With the suites set. *)
Definition associate_request (env : sup_env) (a : option positive) (b : option wpa_bss) (n : wpa_ssid) (p : positive)
    (ie : list Z) w : run sup :=
  let w := wpa_clear_keys (Bss.bssid <$> b) w in
  let '(crypt, wep, pw, g, w) := associate_keys n p w in
  let w := set_state Select.WPA_ASSOCIATING w in
  let w := record (AAssociate (assoc_params_of b n p (add_interworking ie) pw g crypt w)) w in
  let failed := e_associate env <? 0 in
  if failed && flag w WPA_DRIVER_FLAGS_SANE_ERROR_CODES then
    s ← wpas_connection_failed (e_blacklist env) (pending_bssid (table (sel w))) (sel w);
    Ret (set_table (λ t, t <| pending_bssid := zero_addr |>) (w <| sel := s |>))
  else associate_finish env a n p failed wep w.

(** ** Authentication for drivers that leave it to the supplicant (sme.c) *)

(** The new element goes into the array of the request. *)
Definition sme_interworking w : run sup :=
  let ie := add_interworking (take (assoc_req_ie_len (sme w)) (assoc_req_ie (sme w))) in
  if (length ie <=? length (assoc_req_ie (sme w)))%nat
  then Ret (w <| sme := (sme w) <| assoc_req_ie := splice (assoc_req_ie (sme w)) 0 ie |> <| assoc_req_ie_len := length ie |> |>)
  else UB OutOfBounds.

(** With the suites set. *)
Definition sme_request (env : sup_env) (params : auth_params) (p : positive) w : run sup :=
  w ← sme_interworking w;
  let w := wpa_supplicant_cancel_scan (record AStopSchedScan w) in
  let w := wpa_clear_keys (Some (au_bssid params)) w in
  let w := set_state Select.WPA_AUTHENTICATING w in
  w ← enter_network env p None w;
  let w := w <| sme := (sme w) <| sme_auth_alg := au_auth_alg params |> |> in
  let w := record (AAuthenticate params) w in
  if e_associate env <? 0 then req_scan 1 0 w
  else Ret (w <| sme := (sme w) <| sme_auth_timers := S (sme_auth_timers (sme w)) |> |>).

Definition sme_authenticate (env : sup_env) (a : option positive) (n : wpa_ssid) (p : positive) w : run sup :=
  match a with
  | None => Ret w
  | Some a =>
      b ← bss_at a (table (sel w));
      let w := set_table (λ t, t <| current_bss := Some a |>) w in
      let w := w <| sel := (sel w) <| reassociate := false |> |> in
      let x := take (Bss.ssid_len b) (Bss.ssid b) in
      let params := AuthParams (Bss.freq b) (Bss.bssid b) x (auth_algs n p w) (wep_params n p) (n_wep_tx_keyidx n) in
      let same := (length (sme_ssid (sme w)) =? length x)%nat && (memcmp (sme_ssid (sme w)) x =? 0) in
      let w := w <| sme := (sme w) <| prev_bssid := if same then prev_bssid (sme w) else None |>
                             <| sme_freq := Bss.freq b |> <| sme_ssid := x |> |> in
      let changed := negb (is_zero_ether_addr (own_bssid (table (sel w)))) in
      let w := set_table (λ t, t <| own_bssid := zero_addr |> <| pending_bssid := Bss.bssid b |>) w in
      let w := if changed then record ABssidChanged w else w in
      '(ok, _, (ie, len), w) ← associate_suites env (Some b) n p (assoc_req_ie (sme w)) w;
      let w := w <| sme := (sme w) <| assoc_req_ie := ie |> <| assoc_req_ie_len := len |> |> in
      if negb ok then Ret w else sme_request env params p w
  end.

Definition wpa_supplicant_associate (env : sup_env) (a : option positive) (p : positive) w : run sup :=
  n ← net_at p (Select.conf (sel w));
  if (n_mode n =? IEEE80211_MODE_AP) || (n_mode n =? WPAS_MODE_P2P_GO) || (n_mode n =? WPAS_MODE_P2P_GROUP_FORMATION)
  then Ret w
  else if flag w WPA_DRIVER_FLAGS_SME && (n_mode n =? WPAS_MODE_INFRA) then sme_authenticate env a n p w
  else
    let w := w <| sel := (sel w) <| reassociate := false |> |> in
    b ← match a with Some a => b ← bss_at a (table (sel w)); Ret (Some b) | None => Ret None end;
    let w := match b with
             | Some b =>
                 if negb (wpas_driver_bss_selection (sel w)) then
                   let changed := negb (is_zero_ether_addr (own_bssid (table (sel w)))) in
                   let w := set_table (λ t, t <| own_bssid := zero_addr |> <| pending_bssid := Bss.bssid b |>) w in
                   if changed then record ABssidChanged w else w
                 else set_table (λ t, t <| pending_bssid := zero_addr |>) w
             | None => set_table (λ t, t <| pending_bssid := zero_addr |>) w
             end in
    let w := wpa_supplicant_cancel_scan (record AStopSchedScan w) in
    let w := w <| rsn := (wpa_sm_set_assoc_wpa_ie true None (rsn w)).2 |> in
    '(ok, wpa, (ie, len), w) ← associate_suites env b n p (repeat 0 200) w;
    if negb ok then Ret w
    else associate_request env a b n p (take len ie) (if wpa : bool then w else w <| suites := (suites w) <| ws_proto := 0 |> |>).

(** The own element in the elements of the request, with the protocol. *)
Definition own_element (ies : list Z) : run (Z * option (list Z)) :=
  if (length ies =? 0)%nat then Ret (0, None)
  else
    '(r, e) ← ieee802_11_parse_elems ies;
    let whole x := take (x.2 + 2) (drop (x.1 - 2) ies) in
    match r, e F_rsn_ie, e F_wpa_ie with
    | ParseFailed, _, _ | _, None, None => Ret (0, None)
    | _, Some x, _ => Ret (RsnIe.WPA_PROTO_RSN, Some (whole x))
    | _, None, Some x => Ret (RsnIe.WPA_PROTO_WPA, Some (whole x))
    end.

(** The fields that are not set are zero. *)
Definition sme_associate (env : sup_env) (mode : Z) (b : list Z) w : run sup :=
  let ies := take (assoc_req_ie_len (sme w)) (assoc_req_ie (sme w)) in
  let w := set_state Select.WPA_ASSOCIATING w in
  '(proto, own) ← own_element ies;
  let w := w <| rsn := (wpa_sm_set_assoc_wpa_ie (e_malloc env) own (rsn w)).2 |> in
  let w := record (AAssociate (AssocParams (Some b) (sme_ssid (sme w)) (sme_freq (sme w)) ies
             (cipher_suite2driver (ws_pairwise (suites w))) (cipher_suite2driver (ws_group (suites w))) KEY_MGMT_802_1X proto
             0 mode false (repeat None 4) 0 (prev_bssid (sme w)) None None)) w in
  if e_associate env <? 0 then
    s ← wpas_connection_failed (e_blacklist env) (pending_bssid (table (sel w))) (sel w);
    Ret (set_table (λ t, t <| pending_bssid := zero_addr |>) (w <| sel := s |>))
  else Ret (w <| sme := (sme w) <| sme_assoc_timers := S (sme_assoc_timers (sme w)) |> |>).

(** The types of the algorithm tried, a bit of WPA_AUTH_ALG, and of the one the response
    names, a WLAN_AUTH number, differ; the code compares them. *)
Definition sme_event_auth (env : sup_env) (peer : list Z) (auth_type status : Z) w : run sup :=
  match current_ssid (sel w) with
  | None => Ret w
  | Some p =>
      if negb (wpa_state (sel w) =? Select.WPA_AUTHENTICATING) then Ret w
      else if negb (memcmp (pending_bssid (table (sel w))) peer =? 0) then Ret w
      else
        n ← net_at p (Select.conf (sel w));
        let w := w <| sme := (sme w) <| sme_auth_timers := 0%nat |> |> in
        let retry alg := wpa_supplicant_associate env (current_bss (table (sel w))) p
                           (w <| auth_alg_set := (p, alg) :: auth_alg_set w |>) in
        if negb (status =? WLAN_STATUS_SUCCESS) then
          if negb (status =? WLAN_STATUS_NOT_SUPPORTED_AUTH_ALG) || (sme_auth_alg (sme w) =? auth_type) ||
             (net_auth_alg p w =? WPA_AUTH_ALG_LEAP)
          then s ← wpas_connection_failed (e_blacklist env) (pending_bssid (table (sel w))) (sel w); Ret (w <| sel := s |>)
          else if auth_type =? WLAN_AUTH_OPEN then retry WPA_AUTH_ALG_SHARED
          else if auth_type =? WLAN_AUTH_SHARED_KEY then retry WPA_AUTH_ALG_LEAP
          else Ret w
        else sme_associate env (n_mode n) peer w
  end.

Definition sme_deauth (env : sup_env) w : run sup :=
  let changed := negb (is_zero_ether_addr (own_bssid (table (sel w)))) in
  let w := record (ADeauthenticate (pending_bssid (table (sel w))) (Some WLAN_REASON_DEAUTH_LEAVING)) w in
  let w := w <| sme := (sme w) <| prev_bssid := None |> |> in
  s ← wpas_connection_failed (e_blacklist env) (pending_bssid (table (sel w))) (sel w);
  let w := set_state Select.WPA_DISCONNECTED (w <| sel := s |>) in
  let w := set_table (λ t, t <| own_bssid := zero_addr |> <| pending_bssid := zero_addr |>) w in
  Ret (if changed then record ABssidChanged w else w).

Definition sme_event_assoc_reject (env : sup_env) w : run sup :=
  sme_deauth env (w <| sme := (sme w) <| sme_assoc_timers := 0%nat |> |>).
Definition sme_event_auth_timed_out (env : sup_env) w : run sup :=
  s ← wpas_connection_failed (e_blacklist env) (pending_bssid (table (sel w))) (sel w); Ret (w <| sel := s |>).
Definition sme_event_assoc_timed_out (env : sup_env) w : run sup :=
  w ← sme_event_auth_timed_out env w; wpa_supplicant_mark_disassoc env w.
Definition sme_event_disassoc w : sup :=
  match prev_bssid (sme w) with
  | Some b => record (ADeauthenticate b (Some WLAN_REASON_DEAUTH_LEAVING)) w
  | None => w
  end.
Definition sme_auth_timer (env : sup_env) w : run sup :=
  if wpa_state (sel w) =? Select.WPA_AUTHENTICATING then sme_deauth env w else Ret w.
Definition sme_assoc_timer (env : sup_env) w : run sup :=
  if wpa_state (sel w) =? Select.WPA_ASSOCIATING then sme_deauth env w else Ret w.

(** Scan results, with the associations they lead to. *)
Fixpoint associate_all (env : sup_env) (l : list sup_event) w : run sup :=
  match l with
  | [] => Ret w
  | EvAssociate a p :: l => w ← wpa_supplicant_associate env a p w; associate_all env l w
  | _ :: l => associate_all env l w
  end.
Definition event_scan_results (env : sup_env) (se : scan_env) (results : option (list wpa_scan_res)) (info : option scan_info) w
  : run sup :=
  '(_, s) ← _wpa_supplicant_event_scan_results se results info (sel w);
  associate_all env (drop (length (sup_log (sel w))) (sup_log s)) (put_sel s w).

(** ** Everything that can happen *)

(** What reaches the EAPOL supplicant without the functions above. *)
Definition external (o : op) : bool :=
  match o with
  | OpTick | OpStepTimeout | OpCtrlAttached | OpCtrlResponse | OpPending | OpReauth | OpLogoff _ | OpConfigure _ _ _ _ => true
  | _ => false
  end.

Inductive sup_op :=
| SRxEapol (env : sup_env) (src buf : list Z)
| SAssoc (env : sup_env) (data : option assoc_info)
| SDisassoc (env : sup_env) (deauth : bool)
| SAuth (env : sup_env) (peer : list Z) (auth_type status : Z)
| SAssocReject (env : sup_env) | SAuthTimedOut (env : sup_env) | SAssocTimedOut (env : sup_env)
| SSmeAuthTimer (env : sup_env) | SSmeAssocTimer (env : sup_env)
| SMicFailure (env : sup_env) (unicast : option bool)
| SAuthTimeout (env : sup_env) | SStopCountermeasures | SMicReport (env : sup_env)
| SScanResults (env : sup_env) (se : scan_env) (results : option (list wpa_scan_res)) (info : option scan_info)
| SAssociate (env : sup_env) (a : option positive) (p : positive)
| SDisassociate (env : sup_env) (reason : Z) | SDeauthenticate (env : sup_env) (reason : Z)
| SEapol (env : sup_env) (o : op).

(** Events of the driver are ignored while the interface is disabled. *)
Definition wpa_supplicant_event (handler : sup → run sup) w : run sup :=
  if wpa_state (sel w) =? Select.WPA_INTERFACE_DISABLED then Ret w else handler w.

Definition if_sme (handler : sup → run sup) w : run sup :=
  if flag w WPA_DRIVER_FLAGS_SME then handler w else Ret w.

(** A timeout is removed before its handler runs. *)
Definition run_sup_op (o : sup_op) w : run sup :=
  match o with
  | SRxEapol env src buf => wpa_supplicant_rx_eapol env src buf w
  | SAssoc env data => wpa_supplicant_event (wpa_supplicant_event_assoc env data) w
  | SDisassoc env deauth =>
      wpa_supplicant_event (λ w,
        wpa_supplicant_event_disassoc env
          (if negb deauth && flag w WPA_DRIVER_FLAGS_SME then sme_event_disassoc w else w)) w
  | SAuth env peer t st => wpa_supplicant_event (sme_event_auth env peer t st) w
  | SAssocReject env => wpa_supplicant_event (if_sme (sme_event_assoc_reject env)) w
  | SAuthTimedOut env => wpa_supplicant_event (if_sme (sme_event_auth_timed_out env)) w
  | SAssocTimedOut env => wpa_supplicant_event (if_sme (sme_event_assoc_timed_out env)) w
  | SSmeAuthTimer env =>
      if (sme_auth_timers (sme w) =? 0)%nat then Ret w
      else sme_auth_timer env (w <| sme := (sme w) <| sme_auth_timers := Nat.pred (sme_auth_timers (sme w)) |> |>)
  | SSmeAssocTimer env =>
      if (sme_assoc_timers (sme w) =? 0)%nat then Ret w
      else sme_assoc_timer env (w <| sme := (sme w) <| sme_assoc_timers := Nat.pred (sme_assoc_timers (sme w)) |> |>)
  | SMicFailure env u => wpa_supplicant_event (wpa_supplicant_event_michael_mic_failure env u) w
  | SAuthTimeout env => wpa_supplicant_timeout env (w <| auth_timer := None |>)
  | SStopCountermeasures => wpa_supplicant_stop_countermeasures (w <| countermeasures_timer := None |>)
  | SMicReport env => wpa_supplicant_delayed_mic_error_report env (w <| mic_report_timer := None |>)
  | SScanResults env se results info => wpa_supplicant_event (event_scan_results env se results info) w
  | SAssociate env a p => wpa_supplicant_associate env a p w
  | SDisassociate env r => wpa_supplicant_disassociate env r w
  | SDeauthenticate env r => wpa_supplicant_deauthenticate env (Some r) w
  | SEapol env o => if external o then eapol_do env o w else Ret w
  end.

(** A new interface: the components have just been created. *)
Definition new_interface (s : wpa_supplicant) (e : sys (E := E)) (r : @rsn_supp C) : sup :=
  Sup s e r (WpaSuites 0 0 0 0) false 0 0 false false false 0 None zero_addr false 0 false None None None
    (Sme [] 0 (repeat 0 200) 0 None 0 0 0) [] [].

(** The interface of a driver with capabilities [flags]. *)
Inductive running (flags : Z) : sup → Prop :=
| running_init s e0 e c st r :
    drv_flags s = flags → eapol_sm_init glue_ctx false junk mem (Some e0) = Ret (Some e) →
    wpa_sm_init true (Some c) st = Some r → running flags (new_interface s e r)
| running_op o w w' : running flags w → run_sup_op o w = Ret w' → running flags w'.

(** ** Sessions

    What the marks say about the current session: the key management the EAPOL supplicant
    was last configured for, whether an association followed, and whether a cached PMKSA
    has been reported since then. *)

Definition mark (s : option Z * bool * bool) (a : act) : option Z * bool * bool :=
  match a with
  | MConfig k => (Some k, false, false)
  | MAssoc _ => (s.1.1, true, false)
  | MCached => (s.1.1, s.1.2, true)
  | _ => s
  end.
Definition session (l : list act) : option Z * bool * bool := foldl mark (None, false, false) l.

Lemma session_snoc l a : session (l ++ [a]) = mark (session l) a.
Proof. unfold session. by rewrite foldl_app. Qed.

(** The network has WPA. *)
Definition protected_km (k : Z) : bool :=
  negb (k =? WPA_KEY_MGMT_NONE) && negb (k =? WPA_KEY_MGMT_WPA_NONE) && negb (k =? WPA_KEY_MGMT_IEEE8021X_NO_WPA).
Definition protected w : bool := from_option protected_km false (session (acts w)).1.1.
Definition associated w : bool := (session (acts w)).1.2.
Definition cached w : bool := (session (acts w)).2.
Definition have_ptk w : bool := ptk_set (wsm (rsys (rsn w))).

(** What the operations that do not concern the session keep. *)
Definition obs w : (option Z * bool * bool) * bool * Z * sys (E := E) :=
  (session (acts w), have_ptk w, drv_flags (sel w), eapol w).
Definition calm w w' : Prop := obs w' = obs w.

#[global] Instance calm_preorder : PreOrder calm.
Proof. unfold calm. split; [done|]. intros w1 w2 w3. congruence. Qed.

Definition unmarked (a : act) : bool := match a with MConfig _ | MAssoc _ | MCached => false | _ => true end.

Lemma calm_record a w : unmarked a = true → calm w (record a w).
Proof. intros Ha. unfold calm, obs, record, have_ptk. cbn [acts]. cbn. rewrite session_snoc. by destruct a. Qed.
Lemma calm_sel s w : drv_flags s = drv_flags (sel w) → calm w (w <| sel := s |>).
Proof. unfold calm, obs, have_ptk. cbn. by intros ->. Qed.
Lemma calm_rsn r w : ptk_set (wsm (rsys r)) = have_ptk w → calm w (w <| rsn := r |>).
Proof. unfold calm, obs, have_ptk. cbn. by intros ->. Qed.

Lemma set_state_flags st s : drv_flags (Select.wpa_supplicant_set_state st s) = drv_flags s.
Proof.
  unfold Select.wpa_supplicant_set_state, wpa_supplicant_notify_scanning, log. cbv zeta.
  repeat case_match; reflexivity.
Qed.
Lemma req_scan_flags a b s s' : Select.wpa_supplicant_req_scan a b s = Ret s' → drv_flags s' = drv_flags s.
Proof. unfold Select.wpa_supplicant_req_scan. intros H. run_inv. by destruct x. Qed.
Lemma connection_failed_flags al a s s' : wpas_connection_failed al a s = Ret s' → drv_flags s' = drv_flags s.
Proof.
  unfold wpas_connection_failed. destruct (wpa_blacklist_add _ _ _) as [count l]. intros H. run_inv.
  apply req_scan_flags in H. rewrite H. revert Hrun. unfold try_other_bss.
  destruct (current_bss _); [|by intros [= <-]]. if_branch; [|by intros [= <-]]. intros H'. run_inv.
  revert H'. case_match; by intros [= <-].
Qed.

Lemma calm_sme x w : calm w (w <| sme := x |>).
Proof. reflexivity. Qed.
Lemma put_sel_eq s w : ∃ x, put_sel s w = w <| sel := s |> <| sme := x |>.
Proof.
  unfold put_sel. if_branch; [exists (sme w); by destruct w|]. unfold sme_state_changed. cbv zeta.
  do 2 if_branch; first [by eexists | exists (sme w); by destruct w].
Qed.
Lemma set_state_eq st w : ∃ x, set_state st w = w <| sel := Select.wpa_supplicant_set_state st (sel w) |> <| sme := x |>.
Proof. apply put_sel_eq. Qed.
Lemma calm_put_sel s w : drv_flags s = drv_flags (sel w) → calm w (put_sel s w).
Proof.
  intros Hs. destruct (put_sel_eq s w) as (x & ->). etrans; [by apply (calm_sel s)|]. apply calm_sme.
Qed.
Lemma calm_set_state st w : calm w (set_state st w).
Proof. apply calm_put_sel, set_state_flags. Qed.
Lemma calm_req_scan a b w w' : req_scan a b w = Ret w' → calm w w'.
Proof. unfold req_scan. intros H. run_inv. by apply calm_sel, (req_scan_flags a b). Qed.
Lemma calm_set_table f w : calm w (set_table f w).
Proof. by apply calm_sel. Qed.
Lemma calm_cancel_scan w : calm w (wpa_supplicant_cancel_scan w).
Proof. by apply calm_sel. Qed.
Lemma calm_req_timeout a b w : calm w (wpa_supplicant_req_auth_timeout a b w).
Proof. unfold wpa_supplicant_req_auth_timeout. by if_branch. Qed.
Lemma calm_cancel_timeout w : calm w (wpa_supplicant_cancel_auth_timeout w).
Proof. reflexivity. Qed.
Lemma calm_set_key alg a i tx q k w : calm w (wpa_drv_set_key alg a i tx q k w).
Proof. unfold wpa_drv_set_key. etrans; [|by apply calm_record]. reflexivity. Qed.
Lemma calm_clear_keys a w : calm w (wpa_clear_keys a w).
Proof.
  unfold wpa_clear_keys. if_branch; [done|]. cbn [foldl]. cbv zeta.
  match goal with |- calm _ (?x <| keys_cleared := true |>) => change (calm w x) end.
  assert (∀ w0, calm w w0 → calm w (match a with
    | Some b => record (AProtection b) (wpa_drv_set_key DrvNone (Some b) 0 false [] [] w0) | None => w0 end)) as H.
  { intros w0 H0. destruct a; [|done]. etrans; [|by apply calm_record]. etrans; [exact H0|apply calm_set_key]. }
  apply H. do 4 (etrans; [|apply calm_set_key]). done.
Qed.
Lemma calm_wep_loop lens i keys tx w : calm w (wep_keys_loop i lens keys tx w).2.
Proof.
  revert i keys w. induction lens as [|l lens IH]; intros i [|k keys] w; cbn [wep_keys_loop]; try done.
  if_branch; [apply IH|]. cbn [snd]. etrans; [apply calm_set_key|apply IH].
Qed.
Lemma calm_none_key n p w : calm w (wpa_supplicant_set_wpa_none_key n p w).
Proof. unfold wpa_supplicant_set_wpa_none_key. cbv zeta. repeat if_branch; try done; apply calm_set_key. Qed.

(** Callbacks of the EAPOL supplicant are calm. *)
Lemma calm_callback env w e : calm w (eapol_callback env w e).
Proof.
  destruct e as [ty body|b| |b|u i k| |sc h|h]; cbn [eapol_callback]; try by apply calm_record.
  - unfold wpa_supplicant_eapol_send. cbv zeta. repeat if_branch; try done; by apply calm_record.
  - unfold wpa_supplicant_notify_eapol_done. if_branch; [apply calm_set_state|].
    etrans; [apply calm_cancel_timeout|apply calm_set_state].
  - unfold wpa_supplicant_eapol_cb. cbv zeta. set (w1 := if b then w else _).
    assert (calm w w1) as H1 by (unfold w1; destruct b; [done|apply calm_req_timeout]). clearbody w1.
    if_branch; [done|]. if_branch; [done|]. destruct (driver_pmk w1) as [pmk|]; [|done].
    etrans; [exact H1|]. etrans; [apply calm_set_key|]. etrans; [apply calm_cancel_scan|].
    etrans; [apply calm_cancel_timeout|apply calm_set_state].
  - unfold wpa_eapol_set_wep_key. cbv zeta. etrans; [|apply calm_set_key]. if_branch; [by destruct u|done].
  - by apply calm_rsn.
Qed.

Lemma eapol_after_obs env e w :
  obs (eapol_after env e w) = (session (acts w), have_ptk w, drv_flags (sel w), e).
Proof.
  unfold eapol_after. generalize (drop (length (out (eapol w))) (out e)). intros l.
  assert (∀ l w0, obs (foldl (eapol_callback env) w0 l) = obs w0) as H.
  { clear. induction l as [|x l IH]; intros w0; [done|]. cbn [foldl]. rewrite IH. apply calm_callback. }
  by rewrite H.
Qed.

(** ** Safety of the port *)

Context `{!EapPeerOk E} {crypto_ok : WpaCryptoOk}.

(** The driver leaves the 4-way handshake to the supplicant, and the EAPOL supplicant of a
    protected network guards the port. *)
Record sane w : Prop := Sane {
  sane_inv : inv glue_ctx (eapol w);
  sane_flag : flag w WPA_DRIVER_FLAGS_4WAY_HANDSHAKE = false;
  sane_guard : protected w = true → guarded (eapol w)
}.

(** What entitles a station to an open port: a PTK confirmed by an authentic frame, or a
    cached PMKSA. *)
Definition entitled w : Prop := have_ptk w = true ∨ cached w = true.
Definition safe w : Prop :=
  sane w ∧ (protected w = true → associated w = true → shut (eapol w) ∨ entitled w).

Lemma obs_sane w w' : obs w' = obs w → sane w → sane w'.
Proof.
  unfold obs. intros [= Hs Hk Hf He] [H1 H2 H3]. unfold flag, protected in *. split; unfold flag, protected; rewrite ?Hs, ?Hf, ?He; done.
Qed.
Lemma obs_safe w w' : obs w' = obs w → safe w → safe w'.
Proof.
  intros Ho [H1 H2]. split; [by eapply obs_sane|]. revert H2. unfold obs in Ho. injection Ho as Hs Hk Hf He.
  unfold protected, associated, entitled, cached. by rewrite Hs, Hk, He.
Qed.

Lemma eapol_do_obs env o w w' :
  eapol_do env o w = Ret w' → ∃ e, run_op glue_ctx false junk mem o (eapol w) = Ret e ∧
    obs w' = (session (acts w), have_ptk w, drv_flags (sel w), e).
Proof.
  unfold eapol_do. intros H. apply run_bind_Ret in H as (e & He & H). injection H as <-.
  exists e. split; [done|apply eapol_after_obs].
Qed.

(** A state in which the EAPOL supplicant has been replaced. *)
Lemma with_eapol w w' e :
  obs w' = (session (acts w), have_ptk w, drv_flags (sel w), e) → sane w → inv glue_ctx e →
  (protected w = true → guarded e) → ((protected w = true → shut (eapol w) → shut e) ∨ entitled w) →
  sane w' ∧ (safe w → safe w').
Proof.
  intros Ho [H1 H2 H3] Hi Hg Hs. unfold obs in Ho. injection Ho as Hse Hk Hf He.
  assert (sane w') as Hw'.
  { split; unfold flag, protected in *; by rewrite ?Hse, ?Hf, ?He. }
  split; [done|]. intros [_ Hw]. split; [done|]. unfold protected, associated, entitled, cached in *.
  rewrite Hse, Hk, He. intros Hp Ha. destruct Hs as [Hs|Hs]; [|by right].
  destruct (Hw Hp Ha) as [Hsh|Hen]; [left; auto|by right].
Qed.

Lemma eapol_do_safe env o w w' :
  reports o = false → configures o = false → sane w → eapol_do env o w = Ret w' → sane w' ∧ (safe w → safe w').
Proof.
  intros Hr Hc Hw H. apply eapol_do_obs in H as (e & He & Ho).
  destruct (run_op_inv glue_ctx false junk mem o (eapol w) (sane_inv w Hw)) as (e' & He' & Hi).
  rewrite He in He'. injection He' as <-.
  eapply with_eapol; [exact Ho|done|done|..].
  - intros Hp. by eapply (op_guards glue_ctx false junk mem o (eapol w) e); [apply Hw|apply Hw|..].
  - left. intros Hp. by eapply (op_guards glue_ctx false junk mem o (eapol w) e); [apply Hw|apply Hw|..].
Qed.

(** Reports of keys need a reason. *)
Lemma eapol_report_safe env o w w' :
  o = OpPortValid true ∨ o = OpCached → entitled w → sane w → eapol_do env o w = Ret w' → sane w' ∧ (safe w → safe w').
Proof.
  intros Hor Hen Hw H. apply eapol_do_obs in H as (e & He & Ho).
  destruct (run_op_inv glue_ctx false junk mem o (eapol w) (sane_inv w Hw)) as (e' & He' & Hi).
  rewrite He in He'. injection He' as <-.
  eapply with_eapol; [exact Ho|done|done| |by right].
  intros Hp. pose proof (sane_guard w Hw Hp) as Hg. pose proof (sane_inv w Hw) as Hiw.
  destruct Hor as [-> | ->]; [rewrite run_valid in He; by eapply valid_guarded|rewrite run_cached in He; by eapply cached_guarded].
Qed.

(** Closing the port at the start of a session. *)
Lemma close_spec env w w1 w2 :
  sane w → eapol_do env (OpPortEnabled false) w = Ret w1 → eapol_do env (OpPortValid false) w1 = Ret w2 →
  sane w2 ∧ (protected w2 = true → shut (eapol w2)) ∧ session (acts w2) = session (acts w) ∧ have_ptk w2 = have_ptk w.
Proof.
  intros Hw H1 H2. destruct (eapol_do_safe env (OpPortEnabled false) w w1 eq_refl eq_refl Hw H1) as [Hw1 _].
  destruct (eapol_do_safe env (OpPortValid false) w1 w2 eq_refl eq_refl Hw1 H2) as [Hw2 _].
  apply eapol_do_obs in H1 as (e1 & He1 & Ho1). apply eapol_do_obs in H2 as (e2 & He2 & Ho2).
  unfold obs in Ho1, Ho2. injection Ho1 as Hs1 Hk1 _ Hx1. injection Ho2 as Hs2 Hk2 _ Hx2.
  split; [done|]. split; [|split; congruence]. intros Hp. rewrite Hx2.
  assert (protected w1 = true) as Hp1 by (unfold protected in *; congruence).
  rewrite Hx1 in He2. rewrite run_enabled in He1. rewrite run_valid in He2.
  pose proof (sane_inv w1 Hw1) as Hi1. pose proof (sane_guard w1 Hw1 Hp1) as Hg1. rewrite Hx1 in Hi1, Hg1.
  apply (invalid_guards glue_ctx false junk mem e1 e2 Hi1 Hg1 He2).
  by apply (link_down glue_ctx false junk mem (eapol w) e1 (sane_inv w Hw)).
Qed.

(** ** Operations that keep a safe supplicant safe *)

Definition good w w' : Prop := sane w → sane w' ∧ (safe w → safe w').
(** ... and keep the PTK. *)
Definition mild w w' : Prop := have_ptk w' = have_ptk w ∧ good w w'.

#[global] Instance good_preorder : PreOrder good.
Proof.
  split; [intros w H; by split|]. intros w1 w2 w3 H1 H2 H. destruct (H1 H) as [H3 H4]. destruct (H2 H3) as [H5 H6]. auto.
Qed.
#[global] Instance mild_preorder : PreOrder mild.
Proof. split; [by split|]. intros w1 w2 w3 [H1 H2] [H3 H4]. split; [congruence|by etrans]. Qed.

Lemma calm_mild w w' : calm w w' → mild w w'.
Proof.
  intros H. split; [unfold calm, obs in H; by injection H|]. intros Hs.
  split; [by eapply obs_sane|by apply obs_safe].
Qed.
Lemma mild_good w w' : mild w w' → good w w'.
Proof. by intros [_ H]. Qed.
Lemma calm_good w w' : calm w w' → good w w'.
Proof. intros. by apply mild_good, calm_mild. Qed.

Lemma eapol_do_mild env o w w' :
  reports o = false → configures o = false → eapol_do env o w = Ret w' → mild w w'.
Proof.
  intros Hr Hc H. split; [|intros Hs; by eapply eapol_do_safe].
  apply eapol_do_obs in H as (e & _ & Ho). unfold obs in Ho. by injection Ho.
Qed.

Lemma eapol_report_mild env o w w' :
  o = OpPortValid true ∨ o = OpCached → entitled w → eapol_do env o w = Ret w' → mild w w'.
Proof.
  intros Ho Hen H. split; [|intros Hs; by eapply eapol_report_safe].
  apply eapol_do_obs in H as (e & _ & Hob). unfold obs in Hob. by injection Hob.
Qed.

Lemma eapol_rx_mild env src buf w r w' : eapol_rx env src buf w = Ret (r, w') → mild w w'.
Proof.
  unfold eapol_rx. intros H. apply run_bind_Ret in H as ([r' e] & He & H). injection H as <- <-.
  apply (eapol_do_mild env (OpRx (e_malloc env) src buf)); [done|done|]. unfold eapol_do.
  assert (run_op glue_ctx false junk mem (OpRx (e_malloc env) src buf) (eapol w) = Ret e) as ->; [|done].
  change (run_op glue_ctx false junk mem (OpRx (e_malloc env) src buf) (eapol w)) with
    ('(_, s) ← eapol_sm_rx_eapol glue_ctx false junk mem (e_malloc env) src buf (eapol w); Ret s). by rewrite He.
Qed.

Lemma mark_disassoc_mild env w w' : wpa_supplicant_mark_disassoc env w = Ret w' → mild w w'.
Proof.
  unfold wpa_supplicant_mark_disassoc. if_branch; [by intros [= <-]|]. cbv zeta. intros H.
  apply run_bind_Ret in H as (w1 & H1 & H). apply run_bind_Ret in H as (w2 & H2 & H). apply run_bind_Ret in H as (w3 & H3 & H).
  injection H as <-.
  match type of H1 with eapol_do _ _ ?x = _ => assert (mild w x) as H0 end.
  { apply calm_mild. etrans; [apply (calm_set_state Select.WPA_DISCONNECTED)|].
    match goal with |- calm ?a _ => generalize a; intros w0 end.
    assert (∀ b, calm w0 (if b : bool then record ABssidChanged (set_table (λ t, t <| own_bssid := zero_addr |> <| pending_bssid := zero_addr |>
      <| current_bss := None |>) w0 <| assoc_freq := 0 |>) else (set_table (λ t, t <| own_bssid := zero_addr |>
      <| pending_bssid := zero_addr |> <| current_bss := None |>) w0 <| assoc_freq := 0 |>))) as Hb; [|apply Hb].
    intros []; [|apply calm_set_table]. etrans; [|by apply calm_record]. apply calm_set_table. }
  etrans; [exact H0|]. etrans; [by eapply eapol_do_mild; [..|exact H1]|].
  etrans; [by eapply eapol_do_mild; [..|exact H2]|].
  assert (mild w2 w3) as H23.
  { revert H3. if_branch; [intros H3; by eapply eapol_do_mild; [..|exact H3]|by intros [= <-]]. }
  etrans; [exact H23|]. by apply calm_mild.
Qed.

Lemma clear_connection_mild env a w w' : wpa_supplicant_clear_connection env a w = Ret w' → mild w w'.
Proof.
  unfold wpa_supplicant_clear_connection. cbv zeta. intros H.
  apply run_bind_Ret in H as (w1 & H1 & H). apply run_bind_Ret in H as (w2 & H2 & H). injection H as <-.
  etrans; [apply calm_mild, (calm_clear_keys a)|]. etrans; [by eapply mark_disassoc_mild|].
  match type of H2 with eapol_do _ _ ?x = _ => assert (mild w1 x) as H0 end.
  { apply calm_mild. etrans; [apply (calm_sel ((sel w1) <| current_ssid := None |>)); done|].
    etrans; [apply calm_set_table|]. by apply calm_rsn. }
  etrans; [exact H0|]. etrans; [by eapply eapol_do_mild; [..|exact H2]|]. apply calm_mild.
  if_branch; [reflexivity|]. etrans; [|by apply (calm_record ANetworkChanged)]. reflexivity.
Qed.

Lemma disconnect_mild env tell w w' :
  (∀ b, unmarked (tell b) = true) → disconnect env tell w = Ret w' → mild w w'.
Proof.
  intros Ht. unfold disconnect. cbv zeta. if_branch; intros H; apply clear_connection_mild in H; [|done].
  etrans; [|exact H]. apply calm_mild, calm_record, Ht.
Qed.

(** A callback of the RSN component. *)
Lemma rsn_callback_mild env e w w' :
  plain e ∨ have_ptk w = true → rsn_callback env e w = Ret w' → mild w w'.
Proof.
  intros He. destruct e as [st| |alg a i tx q k|d f| |[]| | | | |rx| | |sc| |]; cbn [rsn_callback]; intros H;
    try (injection H as <-; apply calm_mild; by apply calm_record).
  - injection H as <-. apply calm_mild, calm_set_state.
  - apply run_bind_Ret in H as (w1 & H1 & H). etrans; [by eapply disconnect_mild; [|exact H1]|].
    by apply calm_mild, (calm_req_scan 5 0).
  - injection H as <-. apply calm_mild. unfold wpa_supplicant_set_key. cbv zeta. etrans; [|apply calm_set_key]. by if_branch.
  - by eapply eapol_do_mild; [..|exact H].
  - destruct He as [[=]|He]. eapply eapol_report_mild; [by left|by left|exact H].
  - by eapply eapol_do_mild; [..|exact H].
  - by eapply eapol_do_mild; [..|exact H].
  - assert (entitled (record MCached w)) as Hen.
    { right. unfold cached, record. cbn. by rewrite session_snoc. }
    assert (mild w (record MCached w)) as H0.
    { split; [done|]. intros [S1 S2 S3]. assert (sane (record MCached w)) as Hs.
      { split; [done|done|]. intros Hp. apply S3. revert Hp. unfold protected, record. cbn. by rewrite session_snoc. }
      split; [done|]. intros _. split; [done|]. by intros; right. }
    etrans; [exact H0|]. eapply eapol_report_mild; [by right|done|exact H].
  - by eapply eapol_do_mild; [..|exact H].
  - injection H as <-. apply calm_mild, calm_cancel_timeout.
Qed.

Lemma rsn_callbacks_mild env l w w' :
  Forall plain l ∨ have_ptk w = true → rsn_callbacks env l w = Ret w' → mild w w'.
Proof.
  revert w. induction l as [|e l IH]; intros w Hl; cbn [rsn_callbacks]; [by intros [= <-]|].
  intros H. apply run_bind_Ret in H as (w1 & H1 & H).
  assert (mild w w1) as Hm.
  { eapply rsn_callback_mild; [|exact H1]. destruct Hl as [Hl|]; [left; by inversion Hl|by right]. }
  etrans; [exact Hm|]. apply IH; [|done]. destruct Hl as [Hl|Hl]; [left; by inversion Hl|right]. by rewrite (proj1 Hm).
Qed.

(** ** Calls of the RSN component *)

Definition rsn_keeps (s s' : wpa_sys (C := C)) : Prop :=
  ∃ l, wout s' = wout s ++ l ∧ (ptk_set (wsm s') = ptk_set (wsm s) ∧ Forall plain l ∨ ptk_set (wsm s') = true).

Lemma keep_rsn_keeps s s' : keep plain s s' → rsn_keeps s s'.
Proof. intros [Hc (l & Ho & Hl)]. exists l. split; [done|left]. split; [|done]. unfold core in Hc. by injection Hc. Qed.

Lemma rx_rsn_keeps e src buf s r s' : wpa_sm_rx_eapol e src buf s = Ret (r, s') → rsn_keeps s s'.
Proof.
  intros [H|(ki & plen & K & s1 & _ & _ & _ & _ & _ & Ha & Ho & Hc & l & Ho' & _)]%rx_eapol_auth; [by apply keep_rsn_keeps| |done].
  exists (NotifyLowerLayerSuccess :: l). split; [by rewrite Ho', Ho, <-app_assoc|right].
  destruct Ha as (_ & _ & Ha). rewrite Ha in Hc. unfold core in Hc. by injection Hc.
Qed.

Lemma key_request_rsn_keeps e er pw s : rsn_keeps s (wpa_sm_key_request e er pw s).
Proof.
  apply keep_rsn_keeps. unfold wpa_sm_key_request. cbv zeta. destruct (env_get_bssid e); [|done].
  destruct (wpa_sm_alloc_eapol _ _ _); [|done]. etrans; [|apply key_send_plain]. by apply keep_silent.
Qed.

Lemma set_rsn_good r w : ptk_set (wsm (rsys r)) = have_ptk w ∨ ptk_set (wsm (rsys r)) = true → good w (w <| rsn := r |>).
Proof.
  intros [Hr|Hr]; [by apply calm_good, calm_rsn|]. intros [S1 S2 S3]. assert (sane (w <| rsn := r |>)) as Hs by done.
  split; [done|]. intros _. split; [done|]. intros _ _. right. by left.
Qed.

Lemma rsn_after_good env r l w w' :
  (ptk_set (wsm (rsys r)) = have_ptk w ∧ Forall plain l ∨ ptk_set (wsm (rsys r)) = true) →
  rsn_callbacks env l (w <| rsn := r |>) = Ret w' → good w w'.
Proof.
  intros Hr H. etrans; [apply (set_rsn_good r); tauto|]. apply mild_good. eapply rsn_callbacks_mild; [|exact H].
  destruct Hr as [[_ ?]|]; [by left|by right].
Qed.

Lemma rsn_do_good {A} env (f : wpa_env → wpa_sys → run (A * wpa_sys)) w a w' :
  (∀ e s a s', f e s = Ret (a, s') → rsn_keeps s s') → rsn_do env f w = Ret (a, w') → good w w'.
Proof.
  intros Hf. unfold rsn_do. cbv zeta. intros H. apply run_bind_Ret in H as (e & _ & H).
  apply run_bind_Ret in H as ([a1 s'] & Hs & H). apply run_bind_Ret in H as (w1 & H1 & H). injection H as _ <-.
  apply Hf in Hs as (l & Hl & Hs). rewrite Hl, drop_app_length in H1. by eapply rsn_after_good; [|exact H1].
Qed.

Lemma key_request_good env er pw w w' : key_request env er pw w = Ret w' → good w w'.
Proof.
  unfold key_request. intros H. apply run_bind_Ret in H as ([[] w1] & H1 & H). injection H as <-.
  eapply rsn_do_good; [|exact H1]. intros e s [] s' [= <-]. apply key_request_rsn_keeps.
Qed.

Lemma set_current_good env i b net o w found w' :
  pmksa_cache_set_current env i b net o w = Ret (found, w') → good w w'.
Proof.
  apply rsn_do_good. cbv zeta. intros e s x s' H. apply run_bind_Ret in H as ([[c cur] freed] & _ & H). injection H as _ <-.
  apply keep_rsn_keeps. set (s0 := s <| wsm := (wsm s) <| cur_pmksa := None |> |> <| pmksa := c |>). etrans; [by apply (keep_silent plain s s0)|].
  etrans; [apply (free_cbs_plain freed s0)|]. by apply keep_silent.
Qed.

Lemma notify_disassoc_good env w w' : notify_disassoc env w = Ret w' → good w w'.
Proof.
  unfold notify_disassoc. cbv zeta. set (r := (rsn w) <| rsys := _ |>).
  assert (wout (rsys (wpa_sm_notify_disassoc r)) = wout (rsys r) ++ [PreauthDeinit] ∧
    ptk_set (wsm (rsys (wpa_sm_notify_disassoc r))) = have_ptk w) as [-> Hp].
  { unfold wpa_sm_notify_disassoc. cbv zeta. by case_bool_decide. }
  rewrite drop_app_length. apply rsn_after_good. left. split; [done|]. by repeat constructor.
Qed.

(** ** A new configuration *)

Lemma callback_km env w e : km (eapol_callback env w e) = km w.
Proof.
  destruct e as [ty body|b| |b|u i k| |sc h|h]; cbn [eapol_callback]; try reflexivity.
  - unfold wpa_supplicant_eapol_send. cbv zeta. by repeat if_branch.
  - unfold wpa_supplicant_notify_eapol_done.
    if_branch; match goal with |- context [set_state ?st ?x] => by destruct (set_state_eq st x) as (y & ->) end.
  - unfold wpa_supplicant_eapol_cb. cbv zeta. set (w1 := if b then w else _).
    assert (km w1 = km w) as <- by (unfold w1, wpa_supplicant_req_auth_timeout; destruct b; [done|by if_branch]). clearbody w1.
    repeat if_branch; try reflexivity. destruct (driver_pmk w1); [|done].
    match goal with |- context [set_state ?st ?x] => by destruct (set_state_eq st x) as (y & ->) end.
  - unfold wpa_eapol_set_wep_key. cbv zeta. by destruct (km w =? _), u.
Qed.
Lemma eapol_do_km env o w w' : eapol_do env o w = Ret w' → km w' = km w.
Proof.
  unfold eapol_do, eapol_after. intros H. apply run_bind_Ret in H as (e & _ & H). injection H as <-.
  assert (∀ l w0, km (foldl (eapol_callback env) w0 l) = km w0) as Hl.
  { clear. induction l as [|x l IH]; intros w0; [done|]. cbn [foldl]. by rewrite IH, callback_km. }
  by rewrite Hl.
Qed.

Lemma eapol_do_sane env o w w' :
  reports o = false → configures o = false → eapol_do env o w = Ret w' → sane w → sane w'.
Proof. intros Hr Hc H Hw. exact (proj1 (eapol_do_safe env o w w' Hr Hc Hw H)). Qed.

(** The EAPOL supplicant of a network with WPA guards the port. *)
Lemma initiate_safe env w w' : wpa_supplicant_initiate_eapol env w = Ret w' → sane w → safe w'.
Proof.
  unfold wpa_supplicant_initiate_eapol. intros H Hw.
  apply run_bind_Ret in H as (w1 & H1 & H). apply (eapol_do_sane _ (OpEapSuccess false)) in H1; [|done..].
  apply run_bind_Ret in H as (w2 & H2 & H). apply (eapol_do_sane _ (OpEapFail false)) in H2; [|done..].
  apply run_bind_Ret in H as (w3 & H3 & H). apply run_bind_Ret in H as (net & _ & H).
  destruct net as [n|]; [|done]. apply run_bind_Ret in H as (w4 & H4 & H). injection H as <-.
  pose proof (eapol_do_km _ _ _ _ H3) as Hk3. pose proof (eapol_do_km _ _ _ _ H4) as Hk4.
  apply eapol_do_obs in H3 as (e3 & He3 & Ho3). apply eapol_do_obs in H4 as (e4 & He4 & Ho4).
  unfold obs in Ho3, Ho4. injection Ho3 as Hs3 Hp3 Hf3 Hx3. injection Ho4 as Hs4 Hp4 Hf4 Hx4.
  rewrite Hx3 in He4. set (cf := eapol_conf_of _ _ _) in He4.
  assert (accept_802_1x_keys cf = (km w3 =? WPA_KEY_MGMT_IEEE8021X_NO_WPA)) as Hcf by done. clearbody cf.
  match type of He3 with run_op _ _ _ _ ?o _ = _ =>
    destruct (run_op_inv glue_ctx false junk mem o _ (sane_inv _ H2)) as (e & He & Hi) end. rewrite He3 in He. injection He as <-.
  destruct (run_op_inv glue_ctx false junk mem (EapolSupp.OpConfig (Some cf)) e3 Hi) as (e & He & Hi4).
  rewrite He4 in He. injection He as <-. rewrite run_control in He3. apply control_set in He3.
  change (Ret (eapol_sm_notify_config (Some cf) e3) = Ret e4) in He4. injection He4 as <-.
  assert (session (acts (record (MConfig (km w4)) w4)) = (Some (km w4), false, false)) as Hs.
  { unfold record. cbn [acts]. cbn. apply session_snoc. }
  split; [|unfold associated; by rewrite Hs]. split.
  - change (inv glue_ctx (eapol w4)). by rewrite Hx4.
  - unfold flag. change (has (drv_flags (sel w4)) WPA_DRIVER_FLAGS_4WAY_HANDSHAKE = false). rewrite Hf4, Hf3. apply H2.
  - unfold protected. rewrite Hs. cbn [from_option fst]. unfold protected_km. intros Hp.
    change (guarded (eapol w4)). rewrite Hx4. rewrite Hk4, Hk3 in Hp. rewrite Hk3 in Hcf.
    unfold guarded. change (pctl e3 = Auto ∧ accept_802_1x_keys cf = false). rewrite He3, Hcf.
    by destruct (km w2 =? WPA_KEY_MGMT_NONE), (km w2 =? WPA_KEY_MGMT_WPA_NONE), (km w2 =? WPA_KEY_MGMT_IEEE8021X_NO_WPA).
Qed.

(** The suites do not concern the PTK. *)
Definition pset (r : @rsn_supp C) : bool := ptk_set (wsm (rsys r)).

Lemma pset_param p v r : pset (set_param p v r) = pset r.
Proof. unfold set_param, wpa_sm_set_param. destruct p; try done; by if_branch. Qed.
Lemma pset_assoc_ie ok i r : pset (wpa_sm_set_assoc_wpa_ie ok i r).2 = pset r.
Proof. unfold wpa_sm_set_assoc_wpa_ie. by destruct (copy_ie ok i). Qed.
Lemma pset_ap_wpa ok i r : pset (wpa_sm_set_ap_wpa_ie ok i r).2 = pset r.
Proof. unfold wpa_sm_set_ap_wpa_ie. by destruct (copy_ie ok i). Qed.
Lemma pset_ap_rsn ok i r : pset (wpa_sm_set_ap_rsn_ie ok i r).2 = pset r.
Proof. unfold wpa_sm_set_ap_rsn_ie. by destruct (copy_ie ok i). Qed.

Lemma pset_clear r : pset (Suites.pmksa_cache_clear_current r) = pset r.
Proof. reflexivity. Qed.

Lemma pset_pmk n k x r : pset (set_suites_pmk mem n k x r) = pset r.
Proof.
  unfold set_suites_pmk. cbv zeta. if_branch; [|unfold wpa_sm_set_pmk_from_pmksa; by repeat case_match].
  destruct x, (n_passphrase k); try done. if_branch; [|done]. by case_match.
Qed.
Lemma pset_finish al n k x ie u r : pset (set_suites_finish mem al n k x ie u r).2 = pset r.
Proof.
  unfold set_suites_finish. cbv zeta. set (r0 := set_param WPA_PARAM_GROUP _ _).
  assert (pset r0 = pset r) as <- by (unfold r0; by rewrite !pset_param). clearbody r0.
  destruct (wpa_sm_set_assoc_wpa_ie_default _ _ _) as [[[z buf] len] r1] eqn:H1.
  assert (pset r1 = pset r0) as <-.
  { revert H1. unfold wpa_sm_set_assoc_wpa_ie_default. cbv zeta. destruct (wpa_gen_wpa_ie _ _ _ _ _ _) as [res b].
    if_branch; [by intros [= _ _ _ <-]|]. destruct (assoc_wpa_ie _); [by intros [= _ _ _ <-]|].
    if_branch; by intros [= _ _ _ <-]. }
  if_branch; [done|]. apply pset_pmk.
Qed.
Lemma pset_ciphers al n k x ie d u r : pset (set_suites_ciphers mem al n k x ie d u r).2 = pset r.
Proof. unfold set_suites_ciphers. cbv zeta. do 3 (case_match; [|done]). apply pset_finish. Qed.
Lemma pset_suites al ai b n k ie u r z i u' r' :
  wpa_supplicant_set_suites mem al ai b n k ie u r = Ret (z, i, u', r') → pset r' = pset r.
Proof.
  unfold wpa_supplicant_set_suites. cbv zeta. intros H. apply run_bind_Ret in H as ([bw br] & _ & H).
  apply run_bind_Ret in H as (c & _ & H). destruct c as [[p d]|]; [|by injection H as _ _ _ <-]. revert H.
  set (r0 := set_param WPA_PARAM_RSN_ENABLED _ _).
  assert (pset r0 = pset r) as <- by (unfold r0; by rewrite !pset_param). clearbody r0.
  set (x := if _ || _ then _ else _). assert (pset x.2 = pset r0) as <-.
  { unfold x. if_branch; [|done]. destruct (wpa_sm_set_ap_wpa_ie (al_wpa al) bw r0) as [q r1] eqn:Hq.
    pose proof (pset_ap_wpa (al_wpa al) bw r0) as Hp. rewrite Hq in Hp. cbn [snd] in Hp. if_branch; [done|].
    by rewrite pset_ap_rsn. }
  clearbody x. destruct x as [ret r1]. cbn [snd]. if_branch; [by intros [= _ _ _ <-]|].
  intros [= H]. apply (f_equal (λ x, pset x.2)) in H. by rewrite pset_ciphers in H.
Qed.

Lemma set_suites_calm env b n p size w x w' : set_suites env b n p size w = Ret (x, w') → calm w w'.
Proof.
  unfold set_suites. intros H. apply run_bind_Ret in H as ([[[r ie] u] c] & H1 & H). injection H as _ <-.
  apply pset_suites in H1. etrans; [by apply (calm_rsn c)|]. reflexivity.
Qed.
Lemma set_non_wpa_policy_calm n w : calm w (set_non_wpa_policy n w).
Proof.
  unfold set_non_wpa_policy. destruct (wpa_supplicant_set_non_wpa_policy n (suites w) (rsn w)) as [u r] eqn:H.
  assert (pset r = pset (rsn w)) as Hp.
  { assert (r = (wpa_supplicant_set_non_wpa_policy n (suites w) (rsn w)).2) as -> by (by rewrite H).
    unfold wpa_supplicant_set_non_wpa_policy. cbv zeta. cbn [snd].
    by rewrite pset_clear, !pset_param, pset_assoc_ie, pset_ap_rsn, pset_ap_wpa. }
  etrans; [by apply (calm_rsn r)|]. reflexivity.
Qed.

(** ** Networks and associations *)

Lemma ret_inj {A} (x y : A) : Ret x = Ret y → x = y.
Proof. by intros [= ->]. Qed.

Lemma safe_good w w' : (sane w → safe w') → good w w'.
Proof. intros H Hs. split; [apply H, Hs|]. intros _. by apply H. Qed.

Lemma rsn_config_calm p w w' : wpa_supplicant_rsn_supp_set_config p w = Ret w' → calm w w'.
Proof.
  unfold wpa_supplicant_rsn_supp_set_config. destruct p as [q|]; cbv zeta; intros H.
  - apply run_bind_Ret in H as (n & _ & H). injection H as <-. by apply calm_rsn.
  - injection H as <-. by apply calm_rsn.
Qed.

Lemma enter_network_safe env p b w1 w' : enter_network env p b w1 = Ret w' → sane w1 → safe w'.
Proof.
  unfold enter_network. cbv zeta. intros H Hw1.
  apply run_bind_Ret in H as (w2 & H2 & H). apply run_bind_Ret in H as (w3 & H3 & H). injection H as <-.
  apply rsn_config_calm in H2. eapply obs_sane in H2.
  - apply (initiate_safe env _ w3) in H2; [|done]. case_bool_decide; [done|]. eapply obs_safe; [by apply calm_record|done].
  - set (w0 := w1 <| sel := _ |>). assert (sane w0) as Hw0 by (by eapply obs_sane; [apply (calm_sel ((sel w1) <| current_ssid := Some p |>))|]).
    clearbody w0. destruct b; [|done]. by eapply obs_sane; [apply calm_set_table|].
Qed.

Lemma switch_network_safe env p b w w' : switch_network env p b w = Ret w' → sane w → safe w'.
Proof.
  unfold switch_network. intros H Hw. apply run_bind_Ret in H as (w1 & H1 & H). apply (enter_network_safe _ _ _ _ _ H).
  revert H1. destruct (current_ssid (sel w)) as [q|]; [|by intros [= <-]]. case_bool_decide; [by intros [= <-]|].
  intros H1. by eapply eapol_do_sane; [..|exact H1|].
Qed.

Lemma select_config_good env w r w' : wpa_supplicant_select_config env w = Ret (r, w') → good w w'.
Proof.
  unfold wpa_supplicant_select_config. if_branch; [by intros [= _ <-]|]. intros H.
  apply run_bind_Ret in H as ([p|] & _ & H); [|by injection H as _ <-]. apply run_bind_Ret in H as (n & _ & H).
  revert H. if_branch; [by intros [= _ <-]|]. intros H. apply run_bind_Ret in H as (w1 & H1 & H).
  apply run_bind_Ret in H as (w2 & H2 & H). injection H as _ <-.
  assert (calm w w1) as Hc.
  { revert H1. if_branch; [|intros [= <-]; apply set_non_wpa_policy_calm]. intros H1.
    apply run_bind_Ret in H1 as ([x w3] & H1 & H3). destruct x. injection H3 as <-. by eapply set_suites_calm. }
  etrans; [by apply calm_good|]. apply safe_good. by eapply switch_network_safe.
Qed.

Lemma pmkid_loop_good env ids w w' : assoc_pmkid_loop env ids w = Ret w' → good w w'.
Proof.
  revert w. induction ids as [|i ids IH]; intros w; cbn [assoc_pmkid_loop]; [by intros [= <-]|]. intros H.
  apply run_bind_Ret in H as ([found w1] & H1 & H). apply set_current_good in H1. etrans; [exact H1|].
  destruct found; [|by apply IH]. by eapply mild_good, eapol_do_mild; [..|exact H].
Qed.
Lemma find_pmkid_good env w w' : wpa_find_assoc_pmkid env w = Ret w' → good w w'.
Proof.
  unfold wpa_find_assoc_pmkid. intros H. apply run_bind_Ret in H as ([r d] & _ & H). revert H.
  if_branch; [by intros [= <-]|]. destruct (d ≫= pmkid); [|by intros [= <-]].
  destruct (assoc_wpa_ie _); [|by intros [= <-]]. intros H. apply run_bind_Ret in H as (ids & _ & H).
  by eapply pmkid_loop_good.
Qed.

Lemma associnfo_good env d w w' : wpa_supplicant_event_associnfo env d w = Ret w' → good w w'.
Proof.
  unfold wpa_supplicant_event_associnfo. intros H. apply run_bind_Ret in H as (w1 & H1 & H).
  apply run_bind_Ret in H as (w2 & H2 & H). apply run_bind_Ret in H as (w3 & H3 & H). injection H as <-.
  assert (good w w1) as G1.
  { revert H1. unfold associnfo_req. destruct (ai_req_ies d) as [ies|]; [|by intros [= <-]]. cbv zeta. intros H.
    apply run_bind_Ret in H as (o & _ & H). destruct o as [ie|]; [|apply ret_inj in H as <-; apply calm_good, calm_rsn, pset_assoc_ie].
    destruct (wpa_sm_set_assoc_wpa_ie (e_malloc env) (Some ie) (rsn w)) as [r c] eqn:Hc.
    pose proof (pset_assoc_ie (e_malloc env) (Some ie) (rsn w)) as Hp. rewrite Hc in Hp. cbn [snd] in Hp.
    etrans; [apply calm_good, (calm_rsn c), Hp|]. revert H.
    if_branch; [|by apply find_pmkid_good]. intros H. apply ret_inj in H as <-. apply calm_good, calm_rsn, pset_assoc_ie. }
  assert (calm w1 w2) as G2.
  { revert H2. unfold associnfo_beacon. destruct (ai_beacon_ies d) as [ies|]; [|by intros [= <-]]. cbv zeta. intros H.
    apply run_bind_Ret in H as (a & _ & H). apply run_bind_Ret in H as (b & _ & H). injection H as <-.
    etrans; [apply calm_rsn, (pset_ap_wpa (e_malloc env) a)|]. etrans; [apply calm_rsn, (pset_ap_rsn (e_malloc env) b)|].
    by if_branch. }
  assert (calm w2 w3) as G3.
  { revert H3. if_branch; [|by intros [= <-]]. unfold update_scan_results. destruct (e_scan env) as [[se l]|]; [|by intros [= <-]].
    intros H. apply run_bind_Ret in H as (t & _ & H). injection H as <-. by apply calm_sel. }
  etrans; [exact G1|]. etrans; [by apply calm_good|]. etrans; [by apply calm_good|]. by apply calm_good.
Qed.

Lemma new_bss_good env b w ok w' : assoc_new_bss env b w = Ret (ok, w') → good w w'.
Proof.
  unfold assoc_new_bss. cbv zeta. set (w0 := record ABssidChanged _).
  assert (calm w w0) as G0 by (etrans; [apply calm_set_table|by apply calm_record]). clearbody w0. intros H.
  etrans; [apply calm_good, G0|]. apply run_bind_Ret in H as (net & _ & H). apply run_bind_Ret in H as ([r w1] & H1 & H).
  assert (good w0 w1) as G1.
  { apply select_config_good in H1. etrans; [|exact H1]. apply calm_good. if_branch; [apply calm_clear_keys|done]. }
  etrans; [exact G1|]. revert H. if_branch; intros H.
  - apply run_bind_Ret in H as (w2 & H2 & H). injection H as _ <-. by eapply mild_good, disconnect_mild; [|exact H2].
  - apply run_bind_Ret in H as ([n|] & _ & H); [|by injection H as _ <-].
    apply run_bind_Ret in H as (o & _ & H). apply run_bind_Ret in H as (o' & _ & H). injection H as _ <-.
    apply calm_good. destruct o'; [apply calm_set_table|done].
Qed.

Lemma rsn_do_sane {A} env (f : wpa_env → wpa_sys → run (A * wpa_sys)) w a w' :
  (∀ e s a s', f e s = Ret (a, s') → ∃ l, wout s' = wout s ++ l ∧ Forall plain l) →
  rsn_do env f w = Ret (a, w') → sane w → sane w'.
Proof.
  intros Hf. unfold rsn_do. cbv zeta. intros H Hw. apply run_bind_Ret in H as (e & _ & H).
  apply run_bind_Ret in H as ([a1 s'] & Hs & H). apply run_bind_Ret in H as (w1 & H1 & H). injection H as _ <-.
  apply Hf in Hs as (l & Hl & Hs). rewrite Hl, drop_app_length in H1. apply rsn_callbacks_mild in H1; [|by left].
  destruct Hw as [S1 S2 S3]. assert (sane (w <| rsn := (rsn w) <| rsys := s' |> |>)) as Hw by done.
  exact (proj1 (proj2 H1 Hw)).
Qed.

(** A new session starts with a closed port. *)
Lemma assoc_notify_safe env b w w' : assoc_notify env b w = Ret w' → sane w → safe w'.
Proof.
  unfold assoc_notify. cbv zeta. intros H Hw. apply run_bind_Ret in H as ([[] w1] & H1 & H).
  apply run_bind_Ret in H as (w2 & H2 & H). apply run_bind_Ret in H as (w3 & H3 & H).
  apply run_bind_Ret in H as (w4 & H4 & H). apply run_bind_Ret in H as (w5 & H5 & H). injection H as <-.
  apply rsn_do_sane in H1; [| |done].
  2: { intros e s [] s' [= <-]. unfold wpa_sm_notify_assoc. cbv zeta. if_branch; [|exists []; by rewrite app_nil_r].
       exists [PreauthDeinit]. split; [done|by repeat constructor]. }
  destruct (close_spec env w1 w2 w3 H1 H2 H3) as (Hw3 & Hsh & _). clear H1 H2 H3.
  assert (safe (record (MAssoc b) w3)) as Hs3.
  { assert (protected (record (MAssoc b) w3) = protected w3) as Hp by (unfold protected, record; cbn; by rewrite session_snoc).
    split; [|rewrite Hp; intros; left; by apply Hsh]. split; [apply Hw3|apply Hw3|rewrite Hp; apply Hw3]. }
  assert (good (record (MAssoc b) w3) w4) as G4.
  { revert H4. if_branch; [|by intros [= <-]]. intros H4. by eapply mild_good, eapol_do_mild; [..|exact H4]. }
  assert (good w4 w5) as G5 by (by eapply mild_good, eapol_do_mild; [..|exact H5]).
  apply (obs_safe w5); [done|]. apply G5; apply G4; done || apply Hs3.
Qed.

Lemma assoc_complete_good env w w' : assoc_complete env w = Ret w' → good w w'.
Proof.
  unfold assoc_complete. cbv zeta. intros H. apply run_bind_Ret in H as (net & _ & H). revert H.
  set (w0 := wpa_supplicant_cancel_scan _). assert (calm w w0) as G0.
  { unfold w0. etrans; [|apply calm_cancel_scan]. if_branch; [|apply calm_req_timeout].
    etrans; [apply calm_cancel_timeout|apply calm_set_state]. }
  clearbody w0. intros H Hw. apply calm_good in G0 as G1. destruct (G1 Hw) as [Hw0 Hs0].
  rewrite (sane_flag w0 Hw0) in H. by injection H as <-.
Qed.

Lemma rx_deliver_good env src buf w w' : rx_deliver env src buf w = Ret w' → good w w'.
Proof.
  unfold rx_deliver. intros H. apply run_bind_Ret in H as ([r w1] & H1 & H).
  assert (good w w1) as G1.
  { revert H1. if_branch; [|by intros [= _ <-]]. intros H1. by eapply mild_good, eapol_rx_mild. }
  etrans; [exact G1|]. revert H. if_branch; [by intros [= <-]|]. cbv zeta.
  set (w2 := record APoll w1). assert (calm w1 w2) as G2 by (by apply calm_record). clearbody w2.
  intros H. etrans; [apply calm_good, G2|]. intros Hw. rewrite (sane_flag w2 Hw) in H. cbn [negb] in H.
  apply run_bind_Ret in H as ([z w3] & H3 & H). injection H as <-. revert Hw. eapply rsn_do_good; [|exact H3].
  intros e s a s'. apply rx_rsn_keeps.
Qed.

Lemma rx_eapol_good env src buf w w' : wpa_supplicant_rx_eapol env src buf w = Ret w' → good w w'.
Proof.
  unfold wpa_supplicant_rx_eapol. if_branch; [intros [= <-]; by apply calm_good|].
  if_branch; [by intros [= <-]|]. intros H. apply run_bind_Ret in H as (net & _ & H). revert H. cbv zeta.
  set (w0 := (if _ && _ then _ else w)).
  assert (calm w w0) as G0 by (unfold w0; if_branch; [apply calm_req_timeout|done]). clearbody w0.
  etrans; [apply calm_good, G0|]. revert H. if_branch; [intros [= <-]; by apply calm_good|].
  intros H. apply rx_deliver_good in H. etrans; [|exact H]. by apply calm_good.
Qed.

Lemma event_assoc_good env d w w' : wpa_supplicant_event_assoc env d w = Ret w' → good w w'.
Proof.
  unfold wpa_supplicant_event_assoc. cbv zeta. intros H. apply run_bind_Ret in H as (w1 & H1 & H).
  apply run_bind_Ret in H as ([ok w2] & H2 & H).
  assert (good w w1) as G1 by (destruct d; [by eapply associnfo_good|by injection H1 as <-]).
  assert (good w1 w2) as G2.
  { etrans; [apply calm_good, (calm_set_state Select.WPA_ASSOCIATED)|]. revert H2.
    if_branch; [apply new_bss_good|by intros [= _ <-]]. }
  etrans; [exact G1|]. etrans; [exact G2|]. revert H. if_branch; [by intros [= <-]|]. intros H.
  apply run_bind_Ret in H as (w3 & H3 & H). apply run_bind_Ret in H as (w4 & H4 & H).
  apply run_bind_Ret in H as (w5 & H5 & H).
  etrans; [|etrans; [eapply safe_good, assoc_notify_safe, H3|]]; [by apply calm_good|].
  etrans; [by eapply assoc_complete_good|].
  assert (good w4 w5) as G5.
  { revert H5. unfold assoc_pending. destruct (pending_eapol_rx w4) as [[[buf t] src]|]; [|by intros [= <-]]. cbv zeta.
    intros H5. apply run_bind_Ret in H5 as (w6 & H6 & H5). injection H5 as <-.
    assert (good w4 w6) as G6 by (revert H6; if_branch; [apply rx_eapol_good|by intros [= <-]]).
    etrans; [exact G6|]. by apply calm_good. }
  etrans; [exact G5|]. apply calm_good. revert H. unfold assoc_wep.
  destruct (current_ssid (sel w5)); [|by intros [= <-]]. destruct (e_capa env); [|by intros [= <-]].
  if_branch; [|by intros [= <-]]. intros H. apply run_bind_Ret in H as (n & _ & H). apply ret_inj in H as <-. apply calm_wep_loop.
Qed.

(** ** The capabilities of the driver during the handling of scan results *)

Lemma log_flags e s : drv_flags (log e s) = drv_flags s.
Proof. reflexivity. Qed.
Lemma new_scan_flags a b s s' : wpa_supplicant_req_new_scan a b s = Ret s' → drv_flags s' = drv_flags s.
Proof.
  unfold wpa_supplicant_req_new_scan. intros H. apply run_bind_Ret in H as (x & _ & H). revert H.
  if_branch; [intros H; apply ret_inj in H as <-; apply set_state_flags|apply req_scan_flags].
Qed.
Lemma pick_flags n s l o a b s' : pick_loop n s l o = Ret (a, b, s') → drv_flags s' = drv_flags s.
Proof.
  revert s o. induction n as [|n IH]; intros s o; cbn [pick_loop]; [done|]. intros H.
  apply run_bind_Ret in H as ([y z] & _ & H). revert H. repeat case_match; intros H'; simplify_eq; try done.
  by apply IH in H'.
Qed.
Lemma after_results_flags se l s r s' : after_results se l s = Ret (r, s') → drv_flags s' = drv_flags s.
Proof.
  unfold after_results. intros H. apply run_bind_Ret in H as ([[[a|] b] s1] & H1 & H); apply pick_flags in H1; rewrite <-H1; clear H1.
  - destruct b as [p|]; [|done]. apply run_bind_Ret in H as (roam & _ & H). destruct roam; [|by injection H as _ <-].
    apply run_bind_Ret in H as ([z s2] & H2 & H). assert (drv_flags s2 = drv_flags s1) as Hs.
    { revert H2. unfold wpa_supplicant_connect. intros H2. apply run_bind_Ret in H2 as (bss & _ & H2). injection H2 as _ <-. by if_branch. }
    revert H. by if_branch; intros [= _ <-].
  - apply run_bind_Ret in H as ([p|] & _ & H); [by injection H as _ <-|]. revert H. cbv zeta. if_branch; [|by intros [= _ <-]].
    intros H. apply run_bind_Ret in H as (s2 & H2 & H). injection H as _ <-. by apply new_scan_flags in H2.
Qed.
Lemma scanning_flags b s : drv_flags (wpa_supplicant_notify_scanning b s) = drv_flags s.
Proof. unfold wpa_supplicant_notify_scanning. by if_branch. Qed.
Lemma scan_results_flags se l i s r s' :
  _wpa_supplicant_event_scan_results se l i s = Ret (r, s') → drv_flags s' = drv_flags s.
Proof.
  unfold _wpa_supplicant_event_scan_results. cbv zeta. rewrite <-(scanning_flags false s).
  generalize (wpa_supplicant_notify_scanning false s). clear s. intros s. destruct l as [l|]; intros H.
  - apply run_bind_Ret in H as (t & _ & H). revert H. if_branch; [by intros [= _ <-]|]. if_branch; [by intros [= _ <-]|].
    if_branch; [intros H; apply ret_inj, (f_equal snd) in H; cbn [snd] in H; by rewrite <-H, set_state_flags|].
    intros H. by apply after_results_flags in H.
  - revert H. if_branch; [by intros [= _ <-]|]. intros H. apply run_bind_Ret in H as (s1 & H1 & H). injection H as _ <-.
    by apply new_scan_flags in H1.
Qed.

(** ** The other operations *)

Lemma event_disassoc_good env w w' : wpa_supplicant_event_disassoc env w = Ret w' → good w w'.
Proof.
  unfold wpa_supplicant_event_disassoc. cbv zeta. if_branch; [by intros [= <-]|]. intros H.
  apply run_bind_Ret in H as (w1 & H1 & H). apply run_bind_Ret in H as (s2 & H2 & H).
  apply run_bind_Ret in H as (w3 & H3 & H). apply run_bind_Ret in H as (net & _ & H). apply run_bind_Ret in H as (w4 & H4 & H).
  injection H as <-.
  assert (calm w w1) as G1.
  { revert H1. if_branch; [|intros [= <-]; by apply calm_sel]. if_branch; [apply calm_req_scan|by intros [= <-]]. }
  etrans; [apply calm_good, G1|]. apply connection_failed_flags in H2. etrans; [by apply calm_good, (calm_sel s2)|].
  etrans; [by eapply notify_disassoc_good|].
  assert (good w3 w4) as G4.
  { apply mark_disassoc_mild in H4. etrans; [|apply mild_good, H4]. apply calm_good. if_branch; [|done].
    etrans; [|apply calm_clear_keys]. done. }
  etrans; [exact G4|]. apply calm_good. if_branch; [|done]. unfold sme_disassoc_while_authenticating.
  etrans; [apply (calm_set_state Select.WPA_AUTHENTICATING)|]. etrans; [apply calm_set_table|apply calm_sme].
Qed.

Lemma countermeasures_good env pw w w' : start_countermeasures env pw w = Ret w' → good w w'.
Proof.
  unfold start_countermeasures. cbv zeta. intros H. apply run_bind_Ret in H as (w1 & H1 & H).
  apply run_bind_Ret in H as (w2 & H2 & H). apply run_bind_Ret in H as (w3 & H3 & H). injection H as <-.
  assert (good w w1) as G1 by (revert H1; if_branch; [apply key_request_good|by intros [= <-]]).
  etrans; [exact G1|]. etrans; [by eapply key_request_good|]. apply disconnect_mild in H3; [|done].
  etrans; [|etrans; [apply mild_good, H3|by apply calm_good]]. apply calm_good. etrans; [|by apply calm_record]. done.
Qed.
Lemma michael_good env u w w' : wpa_supplicant_event_michael_mic_failure env u w = Ret w' → good w w'.
Proof.
  unfold wpa_supplicant_event_michael_mic_failure. cbv zeta. intros H. apply run_bind_Ret in H as (w1 & H1 & H). injection H as <-.
  assert (good w w1) as G1.
  { revert H1. if_branch; [apply countermeasures_good|]. if_branch; [intros [= <-]; by apply calm_good|apply key_request_good]. }
  etrans; [exact G1|]. by apply calm_good.
Qed.

Lemma auth_timeout_good env w w' : wpa_supplicant_timeout env w = Ret w' → good w w'.
Proof.
  unfold wpa_supplicant_timeout. cbv zeta. intros H. apply run_bind_Ret in H as (w1 & H1 & H).
  apply run_bind_Ret in H as (w2 & H2 & H). apply notify_disassoc_good in H1. apply disconnect_mild in H2; [|done].
  etrans; [|etrans; [exact H1|]]; [by apply calm_good, calm_sel|]. etrans; [apply mild_good, H2|].
  apply calm_req_scan in H. etrans; [|apply calm_good, H]. by apply calm_good, calm_sel.
Qed.

Lemma associate_suites_good env b n p buf w x w' : associate_suites env b n p buf w = Ret (x, w') → good w w'.
Proof.
  unfold associate_suites. cbv zeta. intros H. apply run_bind_Ret in H as (ann & _ & H).
  assert (∀ b w1, ('(r, ie, w) ← set_suites env b n p buf w1; Ret (r =? 0, true, ie, w)) = Ret (x, w') → good w1 w') as Hset.
  { intros b' w1 Hx. apply run_bind_Ret in Hx as ([[r ie] w2] & Hx & H2). injection H2 as _ <-.
    by eapply calm_good, set_suites_calm. }
  assert (∀ w1, Ret (true, false, (buf, 0%nat), set_non_wpa_policy n w1) = Ret (x, w') → good w1 w') as Hnon.
  { intros w1 Hx. apply ret_inj, (f_equal snd) in Hx. cbn [snd] in Hx. rewrite <-Hx. apply calm_good, set_non_wpa_policy_calm. }
  destruct b as [b|]; revert H; if_branch.
  - intros H. apply run_bind_Ret in H as ([found w1] & H1 & H). apply run_bind_Ret in H as (w2 & H2 & H).
    etrans; [by eapply set_current_good|]. apply Hset in H. etrans; [|exact H]. destruct found; [|by injection H2 as <-].
    by eapply mild_good, eapol_do_mild; [..|exact H2].
  - if_branch; [apply Hset|apply Hnon].
  - apply Hset.
  - apply Hnon.
Qed.

Lemma associate_keys_calm n p w x w' : associate_keys n p w = (x, w') → calm w w'.
Proof.
  unfold associate_keys. cbv zeta. set (y := if _ || _ then wpa_set_wep_keys n p w else (false, w)).
  assert (calm w y.2) as Hy by (unfold y; if_branch; [apply calm_wep_loop|done]). clearbody y. destruct y as [wep w1]. cbn [snd] in Hy.
  match goal with |- context [if km w1 =? WPA_KEY_MGMT_IEEE8021X_NO_WPA then ?a else ?b] =>
    destruct (if km w1 =? WPA_KEY_MGMT_IEEE8021X_NO_WPA then a else b) as [[crypt pw] g] end.
  intros H. apply (f_equal snd) in H. cbn [snd] in H. rewrite <-H. etrans; [exact Hy|]. if_branch; [apply calm_none_key|done].
Qed.

Lemma associate_finish_good env a n p failed wep w w' : associate_finish env a n p failed wep w = Ret w' → good w w'.
Proof.
  unfold associate_finish. cbv zeta. set (w0 := if km w =? _ then _ else _). assert (calm w w0) as G0.
  { unfold w0. if_branch; [|apply calm_req_timeout].
    etrans; [apply calm_none_key|]. etrans; [apply calm_cancel_timeout|apply calm_set_state]. }
  clearbody w0. set (w1 := if wep && _ then _ else w0).
  assert (calm w0 w1) as G1 by (unfold w1; if_branch; [apply calm_wep_loop|done]). clearbody w1. intros H.
  etrans; [apply calm_good, G0|]. etrans; [apply calm_good, G1|]. apply safe_good. by eapply switch_network_safe.
Qed.

Lemma associate_request_good env a b n p ie w w' : associate_request env a b n p ie w = Ret w' → good w w'.
Proof.
  unfold associate_request. cbv zeta. destruct (associate_keys _ _ _) as [x w1] eqn:Hk. apply associate_keys_calm in Hk.
  destruct x as [[[crypt wep] pw] g]. set (w2 := record _ _).
  assert (calm w w2) as G2.
  { etrans; [apply (calm_clear_keys (Bss.bssid <$> b))|]. etrans; [exact Hk|].
    etrans; [apply (calm_set_state Select.WPA_ASSOCIATING)|]. by apply calm_record. }
  clearbody w2. intros H. etrans; [apply calm_good, G2|]. revert H. if_branch; [|apply associate_finish_good].
  intros H. apply run_bind_Ret in H as (s & Hs & H). injection H as <-. apply connection_failed_flags in Hs.
  apply calm_good. etrans; [by apply (calm_sel s)|]. apply calm_set_table.
Qed.

(** The SME. *)
Lemma sme_interworking_calm w w' : sme_interworking w = Ret w' → calm w w'.
Proof. unfold sme_interworking. cbv zeta. by if_branch; [intros [= <-]|]. Qed.
Lemma sme_request_good env params p w w' : sme_request env params p w = Ret w' → good w w'.
Proof.
  unfold sme_request. cbv zeta. intros H. apply run_bind_Ret in H as (w1 & H1 & H). apply run_bind_Ret in H as (w2 & H2 & H).
  apply sme_interworking_calm in H1. etrans; [apply calm_good, H1|]. transitivity w2.
  - etrans; [|eapply safe_good, enter_network_safe, H2]. apply calm_good. etrans; [|apply calm_set_state].
    etrans; [|apply calm_clear_keys]. etrans; [|apply calm_cancel_scan]. by apply calm_record.
  - apply calm_good. revert H. set (w3 := record _ _). assert (calm w2 w3) as G3 by (etrans; [|by apply calm_record]; apply calm_sme).
    clearbody w3. intros H. etrans; [exact G3|]. revert H. if_branch; [apply calm_req_scan|by intros [= <-]].
Qed.
Lemma sme_authenticate_good env a n p w w' : sme_authenticate env a n p w = Ret w' → good w w'.
Proof.
  unfold sme_authenticate. destruct a as [a|]; [|by intros [= <-]]. cbv zeta. intros H.
  apply run_bind_Ret in H as (b & _ & H). apply run_bind_Ret in H as ([[[ok wpa] [ie len]] w1] & H1 & H).
  assert (good w w1) as G1.
  { apply associate_suites_good in H1. etrans; [|exact H1]. apply calm_good. if_branch; [etrans; [|by apply calm_record]|];
      (etrans; [|apply calm_set_table]; etrans; [|apply calm_sme]; etrans; [|by apply calm_sel]; apply calm_set_table). }
  etrans; [exact G1|]. revert H. if_branch; [intros [= <-]; apply calm_good, calm_sme|]. intros H.
  apply sme_request_good in H. etrans; [|exact H]. apply calm_good, calm_sme.
Qed.
Lemma sme_associate_calm env mode b w w' : sme_associate env mode b w = Ret w' → calm w w'.
Proof.
  unfold sme_associate. cbv zeta. intros H. apply run_bind_Ret in H as ([proto own] & _ & H). revert H.
  set (w1 := record _ _). assert (calm w w1) as G1.
  { etrans; [apply (calm_set_state Select.WPA_ASSOCIATING)|]. etrans; [|by apply calm_record]. apply calm_rsn, pset_assoc_ie. }
  clearbody w1. intros H. etrans; [exact G1|]. revert H. if_branch; [|by intros [= <-]]. intros H.
  apply run_bind_Ret in H as (s & Hs & H). injection H as <-. apply connection_failed_flags in Hs.
  etrans; [by apply (calm_sel s)|]. apply calm_set_table.
Qed.
Lemma sme_timed_out_calm env w w' : sme_event_auth_timed_out env w = Ret w' → calm w w'.
Proof.
  unfold sme_event_auth_timed_out. intros H. apply run_bind_Ret in H as (s & Hs & H). injection H as <-.
  apply connection_failed_flags in Hs. by apply (calm_sel s).
Qed.
Lemma sme_deauth_calm env w w' : sme_deauth env w = Ret w' → calm w w'.
Proof.
  unfold sme_deauth. cbv zeta. intros H. apply run_bind_Ret in H as (s & Hs & H). apply ret_inj in H as <-.
  apply connection_failed_flags in Hs. set (w0 := record _ w <| sme := _ |>) in *.
  assert (calm w w0) as G0 by (etrans; [|apply calm_sme]; by apply calm_record). clearbody w0. etrans; [exact G0|].
  assert (calm w0 (set_state Select.WPA_DISCONNECTED (w0 <| sel := s |>))) as G1
    by (etrans; [by apply (calm_sel s)|apply calm_set_state]).
  etrans; [exact G1|]. if_branch; [etrans; [|by apply calm_record]|]; apply calm_set_table.
Qed.

Lemma associate_good env a p w w' : wpa_supplicant_associate env a p w = Ret w' → good w w'.
Proof.
  unfold wpa_supplicant_associate. intros H. apply run_bind_Ret in H as (n & _ & H). revert H.
  if_branch; [by intros [= <-]|]. if_branch; [apply sme_authenticate_good|]. cbv zeta. intros H.
  apply run_bind_Ret in H as (b & _ & H). apply run_bind_Ret in H as ([[[ok wpa] [ie len]] w1] & H1 & H).
  assert (good w w1) as G1.
  { apply associate_suites_good in H1. etrans; [|exact H1]. apply calm_good.
    etrans; [|apply calm_rsn, pset_assoc_ie]. etrans; [|apply calm_cancel_scan]. etrans; [|by apply calm_record].
    set (w0 := w <| sel := _ |>). assert (calm w w0) as G0 by (by apply calm_sel). clearbody w0. etrans; [exact G0|].
    destruct b as [b|]; [|apply calm_set_table]. if_branch; [|apply calm_set_table].
    if_branch; [|apply calm_set_table]. etrans; [|by apply calm_record]. apply calm_set_table. }
  etrans; [exact G1|]. revert H. if_branch; [by intros [= <-]|]. intros H. apply associate_request_good in H.
  etrans; [|exact H]. apply calm_good. by destruct wpa.
Qed.
Lemma sme_event_auth_good env peer t st w w' : sme_event_auth env peer t st w = Ret w' → good w w'.
Proof.
  unfold sme_event_auth. destruct (current_ssid (sel w)) as [p|]; [|by intros [= <-]]. if_branch; [by intros [= <-]|].
  if_branch; [by intros [= <-]|]. intros H. apply run_bind_Ret in H as (n & _ & H). revert H. cbv zeta.
  set (w0 := w <| sme := _ |>). assert (calm w w0) as G0 by apply calm_sme. clearbody w0. intros H.
  etrans; [apply calm_good, G0|].
  assert (∀ a alg, wpa_supplicant_associate env a p (w0 <| auth_alg_set := (p, alg) :: auth_alg_set w0 |>) = Ret w' →
    good w0 w') as Hretry.
  { intros a alg Ha. apply associate_good in Ha. etrans; [|exact Ha]. by apply calm_good. }
  revert H. if_branch; [|intros H; by eapply calm_good, sme_associate_calm].
  if_branch; [intros H; by eapply calm_good, sme_timed_out_calm|].
  if_branch; [apply Hretry|]. if_branch; [apply Hretry|]. by intros [= <-].
Qed.

Lemma scan_results_good env se l i w w' : event_scan_results env se l i w = Ret w' → good w w'.
Proof.
  unfold event_scan_results. intros H. apply run_bind_Ret in H as ([r s] & Hs & H). apply scan_results_flags in Hs.
  etrans; [apply calm_good, (calm_put_sel s), Hs|]. revert H.
  generalize (drop (length (sup_log (sel w))) (sup_log s)). generalize (put_sel s w). clear w Hs. intros w evs.
  revert w. induction evs as [|e evs IH]; intros w; cbn [associate_all]; [by intros [= <-]|].
  destruct e; try apply IH. intros H. apply run_bind_Ret in H as (w1 & H1 & H).
  etrans; [by eapply associate_good|]. by apply IH.
Qed.

Lemma event_good h w w' : (∀ w', h w = Ret w' → good w w') → wpa_supplicant_event h w = Ret w' → good w w'.
Proof. intros Hh. unfold wpa_supplicant_event. if_branch; [by intros [= <-]|apply Hh]. Qed.

Lemma if_sme_good h w w' : (∀ w', h w = Ret w' → good w w') → if_sme h w = Ret w' → good w w'.
Proof. intros Hh. unfold if_sme. if_branch; [apply Hh|by intros [= <-]]. Qed.

(** Every operation. *)
Lemma sup_op_good o w w' : run_sup_op o w = Ret w' → good w w'.
Proof.
  destruct o as [env src buf|env d|env deauth|env peer t st|env|env|env|env|env|env u|env| |env|env se l i|env a p|env r|env r|env o];
    cbn [run_sup_op]; intros H.
  - by eapply rx_eapol_good.
  - eapply event_good; [|exact H]. intros w1. apply event_assoc_good.
  - eapply event_good; [|exact H]. intros w1 H1. apply event_disassoc_good in H1. etrans; [|exact H1]. apply calm_good.
    if_branch; [|done]. unfold sme_event_disassoc. destruct (prev_bssid (sme w)); [by apply calm_record|done].
  - eapply event_good; [|exact H]. intros w1. apply sme_event_auth_good.
  - eapply event_good; [|exact H]. intros w1. apply if_sme_good. intros w2 H2. apply sme_deauth_calm in H2.
    apply calm_good. etrans; [|exact H2]. apply calm_sme.
  - eapply event_good; [|exact H]. intros w1. apply if_sme_good. intros w2 H2. by eapply calm_good, sme_timed_out_calm.
  - eapply event_good; [|exact H]. intros w1. apply if_sme_good. intros w2 H2. apply run_bind_Ret in H2 as (w3 & H2 & H3).
    etrans; [by eapply calm_good, sme_timed_out_calm|]. by eapply mild_good, mark_disassoc_mild.
  - revert H. if_branch; [by intros [= <-]|]. unfold sme_auth_timer. if_branch; [|intros [= <-]; apply calm_good, calm_sme].
    intros H. apply sme_deauth_calm in H. apply calm_good. etrans; [|exact H]. apply calm_sme.
  - revert H. if_branch; [by intros [= <-]|]. unfold sme_assoc_timer. if_branch; [|intros [= <-]; apply calm_good, calm_sme].
    intros H. apply sme_deauth_calm in H. apply calm_good. etrans; [|exact H]. apply calm_sme.
  - eapply event_good; [|exact H]. intros w1. apply michael_good.
  - apply auth_timeout_good in H. etrans; [|exact H]. by apply calm_good.
  - revert H. unfold wpa_supplicant_stop_countermeasures. cbv zeta. if_branch; [|intros [= <-]; by apply calm_good].
    intros H. apply calm_req_scan in H. apply calm_good. etrans; [|exact H]. etrans; [|by apply calm_record]. done.
  - revert H. unfold wpa_supplicant_delayed_mic_error_report. if_branch; [intros [= <-]; by apply calm_good|].
    intros H. apply run_bind_Ret in H as (w1 & H1 & H). injection H as <-. apply key_request_good in H1.
    etrans; [|etrans; [exact H1|]]; by apply calm_good.
  - eapply event_good; [|exact H]. intros w1. apply scan_results_good.
  - by eapply associate_good.
  - by eapply mild_good, disconnect_mild; [|exact H].
  - by eapply mild_good, disconnect_mild; [|exact H].
  - revert H. if_branch; [|by intros [= <-]]. intros H. eapply mild_good, eapol_do_mild; [..|exact H]; by destruct o.
Qed.

Lemma running_safe flags w : has flags WPA_DRIVER_FLAGS_4WAY_HANDSHAKE = false → running flags w → safe w.
Proof.
  intros Hf. induction 1 as [s e0 e c st r Hs He Hr|o w w' _ IH H].
  - destruct (init_inv glue_ctx false junk mem e0) as (e' & He' & Hi). rewrite He in He'. injection He' as <-.
    split; [|done]. split; [done|unfold flag; cbn; by rewrite Hs|done].
  - apply sup_op_good in H. by apply H; [apply IH|].
Qed.

(** The port is open, for the EAPOL supplicant or for the driver. *)
Definition port_open w : Prop :=
  suppPortStatus (sm (eapol w)) = Authorized ∨ portValid (sm (eapol w)) = true ∨ driver_port (out (eapol w)) = true.

(** C1: With a driver that leaves the 4-way handshake to the supplicant, whatever frames,
    driver events, timeouts and requests come in whatever order, from the creation of the
    interface on: in an association to a network with WPA the port is open, or the keys
    are reported valid, only if the PTK of this association has been confirmed by a frame
    with a correct MIC, or a cached PMKSA has been reported since the association. *)
Theorem port_needs_keys flags w :
  has flags WPA_DRIVER_FLAGS_4WAY_HANDSHAKE = false → running flags w →
  protected w = true → associated w = true → port_open w → have_ptk w = true ∨ cached w = true.
Proof.
  intros Hf Hr Hp Ha Ho. destruct (running_safe flags w Hf Hr) as [Hs Hw].
  destruct (Hw Hp Ha) as [[Hv Hu]|]; [exfalso|done]. destruct (proj1 (sane_inv w Hs)) as [_ Hd].
  destruct Ho as [Ho|[Ho|Ho]]; [congruence..|]. rewrite Hd, Hu in Ho by done. by rewrite bool_decide_false in Ho.
Qed.

(** ** Disconnecting *)

Lemma callback_quiet env w e :
  flag w WPA_DRIVER_FLAGS_4WAY_HANDSHAKE = false → tame_event e →
  sel (eapol_callback env w e) = sel w ∧ keys_cleared (eapol_callback env w e) = keys_cleared w.
Proof.
  intros Hf He. destruct e as [ty body|b| |b|u i k| |sc h|h]; cbn [eapol_callback]; try done.
  - unfold wpa_supplicant_eapol_send. cbv zeta. by repeat if_branch.
  - unfold wpa_supplicant_eapol_cb. cbv zeta. set (w1 := if b then w else _).
    assert (sel w1 = sel w ∧ keys_cleared w1 = keys_cleared w) as [H1 H2].
    { unfold w1, wpa_supplicant_req_auth_timeout. destruct b; [done|by if_branch]. }
    clearbody w1. assert (flag w1 WPA_DRIVER_FLAGS_4WAY_HANDSHAKE = false) as -> by (unfold flag in *; by rewrite H1).
    by rewrite orb_true_r.
Qed.
Lemma callbacks_quiet env l w :
  flag w WPA_DRIVER_FLAGS_4WAY_HANDSHAKE = false → Forall tame_event l →
  sel (foldl (eapol_callback env) w l) = sel w ∧ keys_cleared (foldl (eapol_callback env) w l) = keys_cleared w.
Proof.
  revert w. induction l as [|e l IH]; intros w Hf Hl; [done|]. inversion Hl as [|?? He Hl']. subst. cbn [foldl].
  destruct (callback_quiet env w e Hf He) as [H1 H2]. rewrite <-H1, <-H2. apply IH; [|done]. unfold flag in *. by rewrite H1.
Qed.

(** The operations of a disconnection. *)
Definition closing (o : op) : bool :=
  match o with OpPortEnabled false | OpPortValid false | OpEapSuccess false | EapolSupp.OpConfig None => true | _ => false end.

Lemma closing_tame o e e' :
  closing o = true → inv glue_ctx e → guarded e → run_op glue_ctx false junk mem o e = Ret e' → tame e e'.
Proof.
  intros Ho Hi Hg H. destruct o as [| | | | |[]|[]|[]| |[]| | | | | | | | | |]; try done.
  - rewrite run_enabled in H. by apply (enabled_tame glue_ctx false junk mem false).
  - rewrite run_valid in H. by apply (valid_tame glue_ctx false junk mem false).
  - rewrite run_success in H. by apply (fail_success_tame glue_ctx false junk mem).
  - change (Ret e = Ret e') in H. by injection H as <-.
Qed.

(** A supplicant that is being disconnected from a network with WPA. *)
Record leaving w : Prop := Leaving { leaving_sane : sane w; leaving_protected : protected w = true }.

Lemma calm_leaving w w' : calm w w' → leaving w → leaving w'.
Proof.
  intros Hc [H1 H2]. split; [by eapply obs_sane|]. unfold protected in *. unfold calm, obs in Hc. by injection Hc as -> _ _ _.
Qed.

Lemma closing_do env o w :
  closing o = true → leaving w →
  ∃ w', eapol_do env o w = Ret w' ∧ leaving w' ∧ sel w' = sel w ∧ keys_cleared w' = keys_cleared w ∧
    (shut (eapol w) → shut (eapol w')).
Proof.
  intros Ho [Hs Hp]. pose proof (sane_inv w Hs) as Hi. pose proof (sane_guard w Hs Hp) as Hg.
  destruct (run_op_inv glue_ctx false junk mem o (eapol w) Hi) as (e & He & _).
  assert (reports o = false ∧ configures o = false) as [Hr Hc].
  { by destruct o as [| | | | |[]|[]|[]| |[]| | | | | | | | | |]. }
  pose proof (closing_tame o (eapol w) e Ho Hi Hg He) as (l & Hl & Ht).
  destruct (op_guards glue_ctx false junk mem o (eapol w) e Hi Hg Hr Hc He) as [Hsh _].
  assert (eapol_do env o w = Ret (eapol_after env e w)) as Hdo by (unfold eapol_do; by rewrite He).
  exists (eapol_after env e w). split; [exact Hdo|].
  pose proof (eapol_after_obs env e w) as Hob. unfold obs in Hob. injection Hob as Hse _ _ Hx.
  split; [split|].
  - exact (eapol_do_sane env o w _ Hr Hc Hdo Hs).
  - unfold protected in *. by rewrite Hse.
  - rewrite Hx. unfold eapol_after. rewrite Hl, drop_app_length.
    destruct (callbacks_quiet env l (w <| eapol := e |>)) as [H1 H2]; [apply Hs|done|]. by rewrite H1, H2.
Qed.

Lemma set_state_is st s : wpa_state (Select.wpa_supplicant_set_state st s) = st.
Proof. unfold Select.wpa_supplicant_set_state. cbv zeta. repeat case_match; reflexivity. Qed.

Definition no_link (t : bss_sys) : Prop := own_bssid t = zero_addr ∧ pending_bssid t = zero_addr ∧ current_bss t = None.

Lemma mark_disassoc_spec env w :
  leaving w → wpa_state (sel w) ≠ Select.WPA_INTERFACE_DISABLED →
  ∃ w', wpa_supplicant_mark_disassoc env w = Ret w' ∧ leaving w' ∧ shut (eapol w') ∧
    wpa_state (sel w') = Select.WPA_DISCONNECTED ∧ no_link (table (sel w')) ∧ keys_cleared w' = keys_cleared w.
Proof.
  intros Hl Hst. unfold wpa_supplicant_mark_disassoc. rewrite (proj2 (Z.eqb_neq _ _) Hst). cbv zeta.
  match goal with |- context [eapol_do env (OpPortEnabled false) ?x] => set (w0 := x) end.
  assert (leaving w0 ∧ keys_cleared w0 = keys_cleared w ∧ wpa_state (sel w0) = Select.WPA_DISCONNECTED ∧ no_link (table (sel w0)))
    as (Hl0 & Hk0 & Hs0 & Ht0).
  { pose proof (set_state_is Select.WPA_DISCONNECTED (sel w)) as Hd.
    apply (calm_leaving _ _ (calm_set_state Select.WPA_DISCONNECTED w)) in Hl. unfold w0. clear w0.
    assert (keys_cleared (set_state Select.WPA_DISCONNECTED w) = keys_cleared w ∧
      sel (set_state Select.WPA_DISCONNECTED w) = Select.wpa_supplicant_set_state Select.WPA_DISCONNECTED (sel w)) as [<- Hse]
      by (by destruct (set_state_eq Select.WPA_DISCONNECTED w) as (x & ->)).
    rewrite <-Hse in Hd. clear Hse. revert Hl Hd. generalize (set_state Select.WPA_DISCONNECTED w). clear w Hst. intros w Hl Hd. if_branch; (split; [|by repeat split]).
    - eapply calm_leaving; [|exact Hl]. etrans; [|by apply calm_record]. apply calm_set_table.
    - eapply calm_leaving; [|exact Hl]. apply calm_set_table. }
  clearbody w0. clear Hl Hst.
  destruct (closing_do env (OpPortEnabled false) w0 eq_refl Hl0) as (w1 & H1 & Hl1 & Hse1 & Hk1 & _).
  destruct (closing_do env (OpPortValid false) w1 eq_refl Hl1) as (w2 & H2 & Hl2 & Hse2 & Hk2 & _).
  destruct (close_spec env w0 w1 w2 (leaving_sane w0 Hl0) H1 H2) as (_ & Hsh & _). specialize (Hsh (leaving_protected w2 Hl2)).
  rewrite H1, run_bind_l, H2, run_bind_l. clear H1 H2.
  assert (∃ w3, (if wpa_key_mgmt_wpa_psk (km w2) then eapol_do env (OpEapSuccess false) w2 else Ret w2) = Ret w3 ∧
    leaving w3 ∧ sel w3 = sel w2 ∧ keys_cleared w3 = keys_cleared w2 ∧ shut (eapol w3)) as (w3 & -> & Hl3 & Hse3 & Hk3 & Hsh3).
  { if_branch; [|by exists w2]. destruct (closing_do env (OpEapSuccess false) w2 eq_refl Hl2) as (w3 & H3 & Hl3 & Hse3 & Hk3 & Hsh3).
    exists w3. split_and!; auto. }
  rewrite run_bind_l. eexists. split; [done|]. split; [by apply (calm_leaving w3)|]. split; [exact Hsh3|].
  change (wpa_state (sel w3) = Select.WPA_DISCONNECTED ∧ no_link (table (sel w3)) ∧ keys_cleared w3 = keys_cleared w).
  rewrite Hse3, Hse2, Hse1. split_and!; [done..|congruence].
Qed.

Lemma clear_keys_cleared a w : keys_cleared (wpa_clear_keys a w) = true ∧ sel (wpa_clear_keys a w) = sel w.
Proof. unfold wpa_clear_keys. if_branch; [done|]. by destruct a. Qed.

(** What is left of a connection. *)
Record closed w : Prop := Closed {
  closed_port : ¬ port_open w;
  closed_state : wpa_state (sel w) = Select.WPA_DISCONNECTED;
  closed_link : no_link (table (sel w));
  closed_network : current_ssid (sel w) = None;
  closed_keys : keys_cleared w = true;
  closed_timer : auth_timer w = None
}.

Lemma clear_connection_spec env a w :
  leaving w → wpa_state (sel w) ≠ Select.WPA_INTERFACE_DISABLED →
  ∃ w', wpa_supplicant_clear_connection env a w = Ret w' ∧ leaving w' ∧ closed w'.
Proof.
  intros Hl Hst. unfold wpa_supplicant_clear_connection. cbv zeta. destruct (clear_keys_cleared a w) as [Hk Hs].
  destruct (mark_disassoc_spec env (wpa_clear_keys a w)) as (w1 & -> & Hl1 & Hsh & Hd & Hn & Hk1).
  { by eapply calm_leaving; [apply calm_clear_keys|]. }
  { by rewrite Hs. }
  rewrite run_bind_l. set (w2 := set_table _ _ <| rsn := _ |>).
  assert (leaving w2 ∧ shut (eapol w2) ∧ wpa_state (sel w2) = Select.WPA_DISCONNECTED ∧ no_link (table (sel w2)) ∧
    current_ssid (sel w2) = None ∧ keys_cleared w2 = true) as (Hl2 & Hsh2 & Hd2 & Hn2 & Hc2 & Hk2).
  { split; [|destruct Hn as (N1 & N2 & N3); by rewrite Hk in Hk1].
    eapply calm_leaving; [|exact Hl1]. etrans; [by apply (calm_sel ((sel w1) <| current_ssid := None |>))|].
    etrans; [apply calm_set_table|]. by apply calm_rsn. }
  clearbody w2. destruct (closing_do env (EapolSupp.OpConfig None) w2 eq_refl Hl2) as (w3 & -> & Hl3 & Hs3 & Hk3 & Hsh3).
  rewrite run_bind_l. eexists. split; [done|]. specialize (Hsh3 Hsh2).
  assert (∀ w4, calm w3 w4 → sel w4 = sel w3 → keys_cleared w4 = keys_cleared w3 → leaving (w4 <| auth_timer := None |>) ∧
    closed (w4 <| auth_timer := None |>)) as H.
  { intros w4 Hc Hs4 Hk4. assert (eapol w4 = eapol w3) as He by (unfold calm, obs in Hc; by injection Hc).
    split; [by apply (calm_leaving w3)|]. split.
    - change (¬ port_open w4). unfold port_open. rewrite He. destruct Hsh3 as [Hv Hu]. rewrite Hv, Hu.
      destruct (proj1 (sane_inv w3 (leaving_sane w3 Hl3))) as [_ Hp]. rewrite Hp, Hu by done. by intros [|[|]].
    - change (wpa_state (sel w4) = Select.WPA_DISCONNECTED). by rewrite Hs4, Hs3.
    - change (no_link (table (sel w4))). by rewrite Hs4, Hs3.
    - change (current_ssid (sel w4) = None). by rewrite Hs4, Hs3.
    - change (keys_cleared w4 = true). by rewrite Hk4, Hk3.
    - done. }
  if_branch; apply H; try done. by apply calm_record.
Qed.

Lemma disconnect_spec env tell w :
  (∀ b, unmarked (tell b) = true) → leaving w → wpa_state (sel w) ≠ Select.WPA_INTERFACE_DISABLED →
  ∃ w', disconnect env tell w = Ret w' ∧ closed w'.
Proof.
  intros Ht Hl Hst. unfold disconnect. cbv zeta. if_branch.
  - set (w0 := record _ w). assert (leaving w0) as Hl0 by (eapply calm_leaving; [apply calm_record, Ht|done]).
    destruct (clear_connection_spec env (Some (own_bssid (table (sel w)))) w0 Hl0 Hst) as (w' & H & _ & Hc). by exists w'.
  - destruct (clear_connection_spec env None w Hl Hst) as (w' & H & _ & Hc). by exists w'.
Qed.

(** C10: From any state a supplicant on a network with WPA can be in, but for a disabled
    interface, a request to deauthenticate returns, and then the port is closed and the
    keys are not reported valid, for the EAPOL supplicant and for the driver; the keys are
    cleared, no access point, no network and no authentication timer are left, and the
    state is disconnected. *)
Theorem deauthenticate_closes flags env reason w :
  has flags WPA_DRIVER_FLAGS_4WAY_HANDSHAKE = false → running flags w → protected w = true →
  wpa_state (sel w) ≠ Select.WPA_INTERFACE_DISABLED →
  ∃ w', wpa_supplicant_deauthenticate env reason w = Ret w' ∧ closed w'.
Proof.
  intros Hf Hr Hp Hst. destruct (running_safe flags w Hf Hr) as [Hs _].
  by apply disconnect_spec.
Qed.

(** ** TKIP countermeasures *)

(** Requests to the driver are never forgotten, and the countermeasures are kept. *)
Definition extends w w' : Prop := countermeasures w' = countermeasures w ∧ acts w `prefix_of` acts w'.
#[global] Instance extends_preorder : PreOrder extends.
Proof.
  split; [by intros w|]. intros w1 w2 w3 [H1 H2] [H3 H4]. split; [congruence|by etrans].
Qed.

Lemma extends_record a w : extends w (record a w).
Proof. split; [done|]. by eexists. Qed.
Lemma extends_set_key alg a i tx q k w : extends w (wpa_drv_set_key alg a i tx q k w).
Proof. unfold wpa_drv_set_key. by etrans; [|apply extends_record]. Qed.
Lemma extends_clear_keys a w : extends w (wpa_clear_keys a w).
Proof.
  unfold wpa_clear_keys. if_branch; [done|]. cbn [foldl]. cbv zeta.
  match goal with |- extends _ (?x <| keys_cleared := true |>) => change (extends w x) end.
  destruct a; [etrans; [|apply extends_record]; etrans; [|apply extends_set_key]|]; do 4 (etrans; [|apply extends_set_key]); done.
Qed.
Lemma extends_set_state st w : extends w (set_state st w).
Proof. by destruct (set_state_eq st w) as (x & ->). Qed.
Lemma extends_callback env w e : extends w (eapol_callback env w e).
Proof.
  destruct e as [ty body|b| |b|u i k| |sc h|h]; cbn [eapol_callback]; try apply extends_record.
  - unfold wpa_supplicant_eapol_send. cbv zeta. repeat if_branch; try done; apply extends_record.
  - unfold wpa_supplicant_notify_eapol_done. if_branch; by etrans; [|apply extends_set_state].
  - unfold wpa_supplicant_eapol_cb. cbv zeta. set (w1 := if b then w else _).
    assert (extends w w1) as H1 by (unfold w1, wpa_supplicant_req_auth_timeout; destruct b; [done|by if_branch]). clearbody w1.
    if_branch; [done|]. if_branch; [done|]. destruct (driver_pmk w1) as [pmk|]; [|done].
    etrans; [exact H1|]. etrans; [apply (extends_set_key DrvPmk None 0 false [] pmk)|]. by etrans; [|apply extends_set_state].
  - unfold wpa_eapol_set_wep_key. cbv zeta. etrans; [|apply extends_set_key]. by destruct (km w =? _), u.
  - done.
Qed.
Lemma extends_do env o w w' : eapol_do env o w = Ret w' → extends w w'.
Proof.
  unfold eapol_do, eapol_after. intros H. apply run_bind_Ret in H as (e & _ & H). apply ret_inj in H as <-.
  assert (∀ l w0, extends w0 (foldl (eapol_callback env) w0 l)) as Hl.
  { clear. induction l as [|x l IH]; intros w0; [done|]. cbn [foldl]. etrans; [apply (extends_callback env _ x)|apply IH]. }
  by etrans; [|apply Hl].
Qed.
Lemma extends_mark env w w' : wpa_supplicant_mark_disassoc env w = Ret w' → extends w w'.
Proof.
  unfold wpa_supplicant_mark_disassoc. if_branch; [by intros [= <-]|]. cbv zeta. intros H.
  apply run_bind_Ret in H as (w1 & H1%extends_do & H). apply run_bind_Ret in H as (w2 & H2%extends_do & H).
  apply run_bind_Ret in H as (w3 & H3 & H). injection H as <-.
  assert (extends w2 w3) as H23 by (revert H3; if_branch; [apply extends_do|by intros [= <-]]).
  change (extends w w3). etrans; [|etrans; [exact H1|etrans; [exact H2|exact H23]]]. etrans; [apply (extends_set_state Select.WPA_DISCONNECTED)|].
  if_branch; [|done]. by etrans; [|apply extends_record].
Qed.
Lemma extends_disconnect env tell w w' : disconnect env tell w = Ret w' → extends w w'.
Proof.
  assert (∀ a w, wpa_supplicant_clear_connection env a w = Ret w' → extends w w') as Hc.
  { clear w. intros a w. unfold wpa_supplicant_clear_connection. cbv zeta. intros H.
    apply run_bind_Ret in H as (w1 & H1%extends_mark & H). apply run_bind_Ret in H as (w2 & H2%extends_do & H). apply ret_inj in H as <-.
    etrans; [apply (extends_clear_keys a)|]. etrans; [exact H1|]. etrans; [exact H2|]. if_branch; [done|].
    by etrans; [apply (extends_record ANetworkChanged)|]. }
  unfold disconnect. cbv zeta. if_branch; intros H%Hc; [|done]. etrans; [apply extends_record|exact H].
Qed.

Lemma tx_key_do env w :
  ∃ w', eapol_do env OpTxKey w = Ret w' ∧ sel w' = sel w ∧ extends w w' ∧ (leaving w → leaving w').
Proof.
  set (e := eapol_sm_notify_tx_eapol_key (eapol w)).
  assert (eapol_do env OpTxKey w = Ret (w <| eapol := e |>)) as H.
  { change (Ret (eapol_after env e w) = Ret (w <| eapol := e |>)). f_equal. unfold eapol_after.
    change (out e) with (out (eapol w)). by rewrite drop_all. }
  exists (w <| eapol := e |>). split; [exact H|]. split_and!; [done|by eapply extends_do|]. intros [Hs Hp].
  split; [|exact Hp]. by eapply eapol_do_sane; [| |exact H|].
Qed.

(** A key request sends at most one frame. *)
Lemma key_request_events e er pw (s : wpa_sys (C := C)) :
  ∃ l, wout (wpa_sm_key_request e er pw s) = wout s ++ l ∧ (l = [] ∨ ∃ d f, l = [EtherSend d f; NotifyTxEapolKey]) ∧
    ptk_set (wsm (wpa_sm_key_request e er pw s)) = ptk_set (wsm s).
Proof.
  unfold wpa_sm_key_request. cbv zeta. destruct (env_get_bssid e) as [b|] eqn:Hb; [|exists []; rewrite app_nil_r; auto].
  destruct (wpa_sm_alloc_eapol _ _ _) as [rbuf|]; [|exists []; rewrite app_nil_r; auto].
  set (s0 := s <| wsm := _ |>). assert (wout s0 = wout s ∧ ptk_set (wsm s0) = ptk_set (wsm s)) as [Ho Hp] by done. clearbody s0.
  rewrite <-Ho, <-Hp. unfold wpa_eapol_key_send. rewrite Hb.
  match goal with |- context [if ?c && ?d then (b, ?u) else ?v] => set (x := if c && d then (b, u) else v) end.
  assert (wout x.2 = wout s0 ∧ ptk_set (wsm x.2) = ptk_set (wsm s0)) as [<- <-] by (unfold x; by if_branch). clearbody x.
  destruct x as [d s1]. cbn [snd]. case_match; [|exists []; rewrite app_nil_r; auto].
  eexists. split; [unfold effect; cbn; by rewrite <-app_assoc|]. split; [right; eauto|done].
Qed.

Lemma get_ssid_returns env w : config_ok (Select.conf (sel w)) → ∃ o, wpa_supplicant_get_ssid env w = Ret o.
Proof.
  intros Hc. unfold wpa_supplicant_get_ssid. destruct (e_ssid env) as [x|]; [|eauto]. destruct (e_bssid env) as [b|]; [|eauto].
  cbv zeta. match goal with |- context [get_ssid_match ?v x b] => generalize (get_ssid_match v x b) end. intros test.
  destruct (find_network_spec test _ _ (config_live _ (cfg_dom _ Hc))) as (r & -> & _). eauto.
Qed.

Lemma key_request_spec env er pw w :
  leaving w → config_ok (Select.conf (sel w)) →
  ∃ w', key_request env er pw w = Ret w' ∧ leaving w' ∧ sel w' = sel w ∧ extends w w'.
Proof.
  intros Hl Hc. unfold key_request, rsn_do, rsn_env. destruct (get_ssid_returns env w Hc) as (net & ->). rewrite !run_bind_l. cbv zeta.
  match goal with |- context [wpa_sm_key_request ?e er pw ?s] => destruct (key_request_events e er pw s) as (l & Ho & He & Hp);
    set (s1 := wpa_sm_key_request e er pw s) in * end. clearbody s1.
  rewrite Ho, drop_app_length. set (w1 := w <| rsn := _ |>).
  assert (leaving w1 ∧ sel w1 = sel w ∧ extends w w1) as (Hl1 & Hs1 & He1).
  { split; [|done]. eapply calm_leaving; [|exact Hl]. by apply calm_rsn. }
  clearbody w1. destruct He as [->|(d & f & ->)]; cbn [rsn_callbacks rsn_callback].
  - rewrite !run_bind_l. by exists w1.
  - rewrite run_bind_l. destruct (tx_key_do env (record (ASend d f) w1)) as (w2 & -> & Hs2 & He2 & Hl2).
    rewrite !run_bind_l. exists w2. split; [done|]. split; [apply Hl2; by eapply calm_leaving; [apply calm_record|]|].
    split; [by rewrite Hs2|]. etrans; [exact He1|]. etrans; [apply extends_record|exact He2].
Qed.

(** C14: A second TKIP MIC failure within 60 seconds of the first starts the
    countermeasures: the handler returns, they are on for 60 seconds, the driver has been
    told, and the connection is closed. *)
Theorem second_mic_failure flags env u w :
  has flags WPA_DRIVER_FLAGS_4WAY_HANDSHAKE = false → running flags w → protected w = true →
  wpa_state (sel w) ≠ Select.WPA_INTERFACE_DISABLED → config_ok (Select.conf (sel w)) →
  last_michael_mic_error w ≠ 0 → sec (e_time env) - last_michael_mic_error w ≤ 60 →
  ∃ w', wpa_supplicant_event_michael_mic_failure env u w = Ret w' ∧ closed w' ∧ countermeasures w' = true ∧
    countermeasures_timer w' = Some (60, 0) ∧ ACountermeasures true ∈ acts w'.
Proof.
  intros Hf Hr Hp Hst Hc Hl Ht. destruct (running_safe flags w Hf Hr) as [Hs _]. pose proof (Leaving w Hs Hp) as Hlv.
  unfold wpa_supplicant_event_michael_mic_failure. cbv zeta.
  rewrite (proj2 (Z.eqb_neq _ _) Hl), (proj2 (Z.leb_le _ _) Ht). cbn [negb andb orb]. unfold start_countermeasures. cbv zeta.
  assert (∃ w1, (if pending_mic_error_report w then key_request env true (pending_mic_error_pairwise w) w else Ret w) = Ret w1 ∧
    leaving w1 ∧ sel w1 = sel w) as (w1 & -> & Hl1 & Hs1).
  { if_branch; [|by exists w]. destruct (key_request_spec env true (pending_mic_error_pairwise w) w Hlv Hc) as (w1 & ? & ? & ? & _).
    by exists w1. }
  rewrite run_bind_l. destruct (key_request_spec env true (default false u) w1) as (w2 & -> & Hl2 & Hs2 & _); [done|by rewrite Hs1|].
  rewrite run_bind_l. set (w3 := record (ACountermeasures true) _).
  assert (leaving w3 ∧ sel w3 = sel w2 ∧ countermeasures w3 = true ∧ ACountermeasures true ∈ acts w3) as (Hl3 & Hs3 & Hc3 & Ha3).
  { split; [by eapply calm_leaving; [|exact Hl2]; etrans; [|by apply calm_record]|]. split_and!; [done..|].
    apply elem_of_app. right. by left. }
  clearbody w3. unfold wpa_supplicant_deauthenticate.
  assert (∃ w4, disconnect env (λ b, ADeauthenticate b (Some WLAN_REASON_MICHAEL_MIC_FAILURE)) w3 = Ret w4 ∧ closed w4) as (w4 & Hd & Hcl).
  { apply disconnect_spec; [done..|]. by rewrite Hs3, Hs2, Hs1. }
  rewrite Hd, !run_bind_l. apply extends_disconnect in Hd as [Hc4 [k Hk]]. eexists. split; [done|].
  split; [by destruct Hcl; split|]. split_and!; [by rewrite <-Hc3, <-Hc4|done|].
  change (ACountermeasures true ∈ acts w4). rewrite Hk. apply elem_of_app. by left.
Qed.

End supplicant.

(** ** A connection

    From the scan results to the end of the 4-way handshake with the access point of
    Select's example. *)

Module Demo.
Import WpaSm.Demo Select.Demo.

#[global] Instance demo_select : PmksaSelect unit := {| pmksa_select c _ _ _ _ _ := Ret (c, None, []) |}.

Definition zeros : list Z := EapolSupp.Idle.zeros.
Definition ap_addr : list Z := [2; 0; 0; 0; 0; 1].
Definition demo_more (p : positive) : net_more :=
  NetMore home_secrets true [[]; []; []; []] false 0 0 0 false 0 0.
Definition demo_glob : glob_conf := GlobConf true 2 false.
Definition demo_sup_env : sup_env :=
  SupEnv demo_env (Some ap_addr) (Some [97]) (Some 0) 0 (OsTime 1000 0) (0, 0) true (SuiteAllocs true true true) (true, true)
    (repeat 0 6) None.
Definition demo_sup := @sup (option (list Z)) unit.
Definition demo_op : sup_op → demo_sup → run demo_sup :=
  run_sup_op zeros zeros (λ _ _ _, 0) demo_more demo_glob false.
Definition demo_running : Z → demo_sup → Prop :=
  running zeros zeros (λ _ _ _, 0) demo_more demo_glob false.

Fixpoint play (ops : list sup_op) (w : demo_sup) : run demo_sup :=
  match ops with
  | [] => Ret w
  | o :: ops => w ← demo_op o w; play ops w
  end.

(** Message 1/4, and message 3/4 with the element of the access point and a group key. *)
Definition msg1 : list Z := key_frame 0x8a 0.
Definition msg3_data : list Z :=
  repeat 0 8 ++ rsn_psk_ccmp ++ [221; 22; 0x00; 0x0f; 0xac; 1; 1; 0] ++ repeat 6 16 ++ [221; 0].
Definition msg3_frame : list Z :=
  signed (repeat 7 64)
    ([2; 3; 0; 151; 2] ++ put_be16 0x13ca ++ [0; 16; 0; 0; 0; 0; 0; 0; 0; 1] ++ repeat 3 32 ++
     repeat 0 16 ++ repeat 0 8 ++ repeat 0 8 ++ repeat 0 16 ++ [0; 56] ++ msg3_data).

Definition demo_ops : list sup_op :=
  [SScanResults demo_sup_env s_env (Some [ap_wpa2]) None; SAssoc demo_sup_env None;
   SRxEapol demo_sup_env ap_addr msg1; SRxEapol demo_sup_env ap_addr msg3_frame].
Definition demo_start : demo_sup :=
  match eapol_sm_init (glue_ctx (λ _ _ _, 0)) false zeros zeros (Some None) with
  | Ret (Some e) => new_interface (s_start [] []) e new_supp
  | _ => new_interface (s_start [] []) (Sys eapol_sm_zero None []) new_supp
  end.
Definition after_ops (ops : list sup_op) : demo_sup := match play ops demo_start with Ret w => w | _ => demo_start end.
Definition summary (w : demo_sup) :=
  (wpa_state (sel w), protected w, associated w, have_ptk w, cached w, suppPortStatus (sm (eapol w)), portValid (sm (eapol w))).

(** The states on the way: scanning, associating, associated, in the handshake, and
    completed with an open port. *)
Example demo_connection :
  map (λ n, match play (take n demo_ops) demo_start with Ret w => Some (summary w) | _ => None end) (seq 0 5) =
  [Some (3, false, false, false, false, Unauthorized, false); Some (5, true, false, false, false, Unauthorized, false);
   Some (6, true, true, false, false, Unauthorized, false); Some (7, true, true, false, false, Unauthorized, false);
   Some (9, true, true, true, false, Authorized, true)].
Proof. vm_compute. reflexivity. Qed.

Lemma play_running flags ops w w' : demo_running flags w → play ops w = Ret w' → demo_running flags w'.
Proof.
  revert w. induction ops as [|o ops IH]; intros w Hw; cbn [play]; [by intros [= <-]|]. intros H.
  apply run_bind_Ret in H as (w1 & H1 & H). apply (IH w1); [|done]. by eapply running_op.
Qed.
Lemma demo_start_running : demo_running 0 demo_start.
Proof.
  unfold demo_start. destruct (init_inv (glue_ctx (λ _ _ _, 0)) false zeros zeros (None : option (list Z))) as (e & He & _).
  rewrite He. by apply (running_init zeros zeros _ demo_more demo_glob false 0 (s_start [] []) None e tt WPA_DISCONNECTED).
Qed.
Lemma after_running ops : demo_running 0 (after_ops ops).
Proof.
  unfold after_ops. destruct (play ops demo_start) as [w| |] eqn:Hw; [|exact demo_start_running..].
  exact (play_running 0 ops demo_start w demo_start_running Hw).
Qed.

(** The connection, and the connection after a first MIC failure. *)
Definition connected : demo_sup := after_ops demo_ops.
Definition attacked : demo_sup := after_ops (demo_ops ++ [SMicFailure demo_sup_env (Some true)]).

Lemma port_needs_keys_witness :
  suppPortStatus (sm (eapol connected)) = Authorized ∧ (have_ptk connected = true ∨ cached connected = true).
Proof.
  assert (suppPortStatus (sm (eapol connected)) = Authorized) as H by (vm_compute; reflexivity). split; [exact H|].
  apply (port_needs_keys zeros zeros (λ _ _ _, 0) demo_more demo_glob false 0 connected);
    [reflexivity|exact (after_running demo_ops)|vm_compute; reflexivity|vm_compute; reflexivity|left; exact H].
Defined.

Lemma deauthenticate_closes_witness :
  ∃ w', wpa_supplicant_deauthenticate zeros zeros (λ _ _ _, 0) demo_glob demo_sup_env (Some 3) connected = Ret w' ∧ closed w'.
Proof.
  apply (deauthenticate_closes zeros zeros (λ _ _ _, 0) demo_more demo_glob false 0 demo_sup_env (Some 3) connected);
    [reflexivity|exact (after_running demo_ops)|vm_compute; reflexivity|vm_compute; discriminate].
Defined.

Lemma second_mic_failure_witness :
  ∃ w', wpa_supplicant_event_michael_mic_failure zeros zeros (λ _ _ _, 0) demo_glob false demo_sup_env (Some true) attacked = Ret w' ∧
    closed w' ∧ countermeasures w' = true ∧ countermeasures_timer w' = Some (60, 0) ∧ ACountermeasures true ∈ acts w'.
Proof.
  apply (second_mic_failure zeros zeros (λ _ _ _, 0) demo_more demo_glob false 0 demo_sup_env (Some true) attacked);
    [reflexivity|exact (after_running _)|vm_compute; reflexivity|vm_compute; discriminate| |vm_compute; discriminate|vm_compute; discriminate].
  assert (Select.conf (sel attacked) = s_conf) as -> by (vm_compute; reflexivity). exact s_conf_ok.
Defined.

End Demo.

(** ** A cached PMKSA

    The same with 802.1X and one cached PMKSA: the first frame after the association, which
    nothing authenticates, opens the port if it names the PMKID. *)
Module CachedDemo.
Import WpaSm.Demo Select.Demo Demo.

Definition entry : pmksa_entry := PmksaEntry (repeat 8 16) (repeat 9 32) false.
#[global] Instance one_entry : PmksaCache pmksa_entry := {|
  pmksa_cache_get e _ id := if memcmp id (pe_pmkid e) =? 0 then Some 1%positive else None;
  pmksa_cache_entry e _ := Some e;
  pmksa_cache_add e _ _ _ _ _ _ := (e, []);
  pmksa_mark_valid e _ := e
|}.
#[global] Instance entry_select : PmksaSelect pmksa_entry := {| pmksa_select c _ _ _ _ _ := Ret (c, None, []) |}.

Definition rsn_eap_ccmp : list Z :=
  [48; 20; 1; 0; 0x00; 0x0f; 0xac; 4; 1; 0; 0x00; 0x0f; 0xac; 4; 1; 0; 0x00; 0x0f; 0xac; 1; 0; 0].
Definition ap_eap : wpa_scan_res := ap ap_addr 0x11 (-60) 2 ([0; 1; 97] ++ rsn_eap_ccmp).
Definition eap_conf : wpa_config := WpaConfig [1]%positive [[1]]%positive {[1%positive := net_home <| n_key_mgmt := 1 |>]} 1.
Definition eap_sup := @sup (option (list Z)) pmksa_entry.
Fixpoint eap_play (ops : list sup_op) (w : eap_sup) : run eap_sup :=
  match ops with
  | [] => Ret w
  | o :: ops => w ← run_sup_op zeros zeros (λ _ _ _, 0) demo_more demo_glob false o w; eap_play ops w
  end.
Definition forged_msg1 : list Z :=
  [2; 3; 0; 117; 2] ++ put_be16 0x8a ++ [0; 16; 0; 0; 0; 0; 0; 0; 0; 0] ++ repeat 3 32 ++
  repeat 0 16 ++ repeat 0 8 ++ repeat 0 8 ++ repeat 0 16 ++ [0; 22] ++ [221; 20; 0x00; 0x0f; 0xac; 4] ++ repeat 8 16.

Definition eap_start : option eap_sup :=
  match eapol_sm_init (glue_ctx (λ _ _ _, 0)) false zeros zeros (Some None), wpa_sm_init true (Some entry) WPA_DISCONNECTED with
  | Ret (Some e), Some r => Some (new_interface ((s_start [] []) <| Select.conf := eap_conf |>) e r)
  | _, _ => None
  end.

(** The port is authorized, and the keys count as valid, without a PTK. *)
Example cached_before_handshake :
  match eap_start with
  | Some w =>
      match eap_play [SScanResults demo_sup_env s_env (Some [ap_eap]) None; SAssoc demo_sup_env None;
                      SRxEapol demo_sup_env ap_addr forged_msg1] w with
      | Ret w => Some (protected w, associated w, have_ptk w, cached w, suppPortStatus (sm (eapol w)), portValid (sm (eapol w)))
      | _ => None
      end
  | None => None
  end = Some (true, true, false, true, Authorized, true).
Proof. vm_compute. reflexivity. Qed.
End CachedDemo.

(** ** A driver without an own SME

    The same connection: the authentication is requested first, its response starts the
    association, and a response that does not come ends the attempt. *)
Module SmeDemo.
Import WpaSm.Demo Select.Demo Demo.

Definition sme_start : demo_sup := demo_start <| sel := (sel demo_start) <| drv_flags := WPA_DRIVER_FLAGS_SME |> |>.
Definition scan : sup_op := SScanResults demo_sup_env s_env (Some [ap_wpa2]) None.
Definition sme_ops : list sup_op :=
  [scan; SAuth demo_sup_env ap_addr WLAN_AUTH_OPEN WLAN_STATUS_SUCCESS; SAssoc demo_sup_env None;
   SRxEapol demo_sup_env ap_addr msg1; SRxEapol demo_sup_env ap_addr msg3_frame].
Definition sme_summary (w : demo_sup) :=
  (wpa_state (sel w), sme_auth_timers (sme w), sme_assoc_timers (sme w), prev_bssid (sme w), have_ptk w, suppPortStatus (sm (eapol w))).

Example sme_connection :
  map (λ n, match play (take n sme_ops) sme_start with Ret w => Some (sme_summary w) | _ => None end) (seq 1 5) =
  [Some (4, 1%nat, 0%nat, None, false, Unauthorized); Some (5, 0%nat, 1%nat, None, false, Unauthorized);
   Some (6, 0%nat, 0%nat, Some ap_addr, false, Unauthorized); Some (7, 0%nat, 0%nat, Some ap_addr, false, Unauthorized);
   Some (9, 0%nat, 0%nat, Some ap_addr, true, Authorized)].
Proof. vm_compute. reflexivity. Qed.

Example sme_timeout :
  match play [scan; SSmeAuthTimer demo_sup_env] sme_start with
  | Ret w => Some (sme_summary w, pending_bssid (table (sel w)))
  | _ => None
  end = Some (Select.WPA_DISCONNECTED, 0%nat, 0%nat, None, false, Unauthorized, zero_addr).
Proof. vm_compute. reflexivity. Qed.

(** A rejected algorithm: the next one is tried, with the network's own choice replaced. *)
Example sme_next_algorithm :
  match play [scan; SAuth demo_sup_env ap_addr WLAN_AUTH_OPEN WLAN_STATUS_NOT_SUPPORTED_AUTH_ALG] sme_start with
  | Ret w => Some (sme_auth_alg (sme w), sme_summary w)
  | _ => None
  end = Some (WPA_AUTH_ALG_SHARED, (4, 1%nat, 0%nat, None, false, Unauthorized)).
Proof. vm_compute. reflexivity. Qed.
End SmeDemo.
