(* ===== verification/EapCommon.v ===== *)
(** * EAP messages (src/src/eap_common/eap_common.c, src/src/utils/wpabuf.c)

    Growing buffers with the abort of [wpabuf_put] on overflow, the construction of
    EAP messages and the validation of received ones.  A received message is the
    list of its bytes; a message under construction is a [wpabuf] with the size it
    was allocated with. *)

From Stdlib Require String Ascii.
From S2P Require Import Prelude.

(** The bytes of a string constant. *)
Definition bytes_of (s : String.string) : list Z := map (λ c, Z.of_N (Ascii.N_of_ascii c)) (String.list_ascii_of_string s).

(** ** Big-endian fields *)

Definition be_put (n : nat) (z : Z) : list Z := rev (le_bytes n z).

Definition WPA_GET_BE16 (buf : list Z) (pos : nat) : run Z :=
  a ← rd buf pos; b ← rd buf (pos + 1); Ret (be16 a b).
Definition WPA_GET_BE24 (buf : list Z) (pos : nat) : run Z :=
  a ← rd buf pos; b ← rd buf (pos + 1); c ← rd buf (pos + 2);
  Ret (Z.lor (Z.lor (Z.shiftl a 16) (Z.shiftl b 8)) c).
Definition WPA_GET_BE32 (buf : list Z) (pos : nat) : run Z :=
  a ← rd buf pos; b ← rd buf (pos + 1); c ← rd buf (pos + 2); d ← rd buf (pos + 3);
  Ret (be32 a b c d).

(** ** Buffers *)

(** [size] and the [used] bytes. *)
Record wpabuf := Wpabuf { buf_size : nat; buf_data : list Z }.

Definition wpabuf_alloc (malloc_ok : bool) (len : nat) : option wpabuf :=
  if malloc_ok then Some (Wpabuf len []) else None.

(** [wpabuf_put] and the copy that follows it. *)
Definition wpabuf_put_data (b : wpabuf) (d : list Z) : run wpabuf :=
  if (buf_size b <? length (buf_data b) + length d)%nat then UB BufferOverflowAbort
  else Ret (Wpabuf (buf_size b) (buf_data b ++ d)).

Definition wpabuf_put_u8 (b : wpabuf) (z : Z) : run wpabuf := wpabuf_put_data b (be_put 1 z).
Definition wpabuf_put_be24 (b : wpabuf) (z : Z) : run wpabuf := wpabuf_put_data b (be_put 3 z).
Definition wpabuf_put_be32 (b : wpabuf) (z : Z) : run wpabuf := wpabuf_put_data b (be_put 4 z).

(** ** Messages *)

Definition EAP_CODE_REQUEST : Z := 1.
Definition EAP_CODE_RESPONSE : Z := 2.
Definition EAP_CODE_SUCCESS : Z := 3.
Definition EAP_CODE_FAILURE : Z := 4.

Definition EAP_TYPE_NONE : Z := 0.
Definition EAP_TYPE_IDENTITY : Z := 1.
Definition EAP_TYPE_NOTIFICATION : Z := 2.
Definition EAP_TYPE_NAK : Z := 3.
Definition EAP_TYPE_MD5 : Z := 4.
Definition EAP_TYPE_OTP : Z := 5.
Definition EAP_TYPE_GTC : Z := 6.
Definition EAP_TYPE_TLS : Z := 13.
Definition EAP_TYPE_LEAP : Z := 17.
Definition EAP_TYPE_TTLS : Z := 21.
Definition EAP_TYPE_PEAP : Z := 25.
Definition EAP_TYPE_MSCHAPV2 : Z := 26.
Definition EAP_TYPE_FAST : Z := 43.
Definition EAP_TYPE_EXPANDED : Z := 254.
Definition EAP_VENDOR_IETF : Z := 0.

(** The payload is returned as position and length. *)
Definition eap_hdr_validate (vendor eap_type : Z) (msg : list Z) : run (option (nat * nat)) :=
  if (length msg <? 4)%nat then Ret None
  else
    len ← WPA_GET_BE16 msg 2;
    let len := Z.to_nat len in
    if (len <? 5)%nat || (length msg <? len)%nat then Ret None
    else
      t ← rd msg 4;
      if t =? EAP_TYPE_EXPANDED then
        if (len <? 12)%nat then Ret None
        else
          exp_vendor ← WPA_GET_BE24 msg 5;
          exp_type ← WPA_GET_BE32 msg 8;
          if negb (exp_vendor =? vendor) || negb (exp_type =? u32 eap_type) then Ret None
          else Ret (Some (12%nat, (len - 12)%nat))
      else if negb (vendor =? EAP_VENDOR_IETF) || negb (t =? eap_type) then Ret None
      else Ret (Some (5%nat, (len - 5)%nat)).

Definition eap_msg_alloc (malloc_ok : bool) (vendor type : Z) (payload_len : nat) (code identifier : Z)
  : run (option wpabuf) :=
  let len := (4 + (if (vendor =? EAP_VENDOR_IETF)%Z then 1 else 8) + payload_len)%nat in
  match wpabuf_alloc malloc_ok len with
  | None => Ret None
  | Some buf =>
      buf ← wpabuf_put_data buf ([u8 code; u8 identifier] ++ be_put 2 (Z.of_nat len));
      buf ← (if vendor =? EAP_VENDOR_IETF then wpabuf_put_u8 buf type
             else
               buf ← wpabuf_put_u8 buf EAP_TYPE_EXPANDED;
               buf ← wpabuf_put_be24 buf vendor;
               wpabuf_put_be32 buf type);
      Ret (Some buf)
  end.

Definition eap_update_len (msg : wpabuf) : wpabuf :=
  if (length (buf_data msg) <? 4)%nat then msg
  else Wpabuf (buf_size msg) (splice (buf_data msg) 2 (be_put 2 (Z.of_nat (length (buf_data msg))))).

Definition eap_get_id (msg : list Z) : run Z := if (length msg <? 4)%nat then Ret 0 else rd msg 1.
Definition eap_get_type (msg : list Z) : run Z :=
  if (length msg <? 5)%nat then Ret EAP_TYPE_NONE else rd msg 4.

(** ** Lemmas *)

Lemma length_be_put n z : length (be_put n z) = n.
Proof. unfold be_put. by rewrite length_rev, length_le_bytes. Qed.
Lemma be_put_ok n z : bytes_ok (be_put n z).
Proof. unfold be_put, bytes_ok. apply Forall_rev, le_bytes_ok. Qed.

#[export] Hint Resolve be_put_ok : wpa.

Lemma put_ok b d : (length (buf_data b) + length d ≤ buf_size b)%nat →
  wpabuf_put_data b d = Ret (Wpabuf (buf_size b) (buf_data b ++ d)).
Proof. intros H. unfold wpabuf_put_data. by rewrite (proj2 (Nat.ltb_ge _ _) H). Qed.

(** What the fields of a header hold. *)
Definition eap_header (code id : Z) (len : nat) : list Z := [u8 code; u8 id] ++ be_put 2 (Z.of_nat len).

(** The type field of a message: one octet, or eight for an expanded type. *)
Definition eap_type_field (vendor type : Z) : list Z :=
  if vendor =? EAP_VENDOR_IETF then be_put 1 type
  else be_put 1 EAP_TYPE_EXPANDED ++ be_put 3 vendor ++ be_put 4 type.

Lemma length_type_field vendor type :
  length (eap_type_field vendor type) = (if (vendor =? EAP_VENDOR_IETF)%Z then 1 else 8)%nat.
Proof. unfold eap_type_field. if_branch; by rewrite ?length_app, !length_be_put. Qed.

Lemma eap_msg_alloc_eq vendor type n code id :
  eap_msg_alloc true vendor type n code id =
    Ret (Some (Wpabuf (4 + length (eap_type_field vendor type) + n)
                 (eap_header code id (4 + length (eap_type_field vendor type) + n) ++ eap_type_field vendor type))).
Proof.
  unfold eap_msg_alloc, wpabuf_put_u8, wpabuf_put_be24, wpabuf_put_be32. rewrite length_type_field. cbn [wpabuf_alloc].
  unfold eap_type_field. destruct (vendor =? EAP_VENDOR_IETF).
  all: repeat (rewrite put_ok by (cbn [buf_data buf_size]; rewrite ?length_app, ?length_be_put; simpl; lia);
               cbn [mbind run_bind buf_data buf_size]).
  - done.
  - by rewrite <-!app_assoc.
Qed.

Lemma be16_of_put z : 0 ≤ z < 65536 → be16 (u8 (Z.shiftr z 8)) (u8 z) = z.
Proof.
  intros Hz. rewrite be16_val by apply u8_byte. unfold u8. rewrite Z.shiftr_div_pow2 by lia.
  rewrite (Z.mod_small (z / 2 ^ 8)) by (split; [apply Z.div_pos; lia|apply Z.div_lt_upper_bound; lia]).
  pose proof (Z.div_mod z 256). change (2 ^ 8) with 256. lia.
Qed.

(** A message as it is on the wire. *)
Definition eap_message (code id vendor type : Z) (payload : list Z) : list Z :=
  eap_header code id (4 + length (eap_type_field vendor type) + length payload) ++
  eap_type_field vendor type ++ payload.

Lemma length_eap_message code id vendor type payload :
  length (eap_message code id vendor type payload) =
    (4 + length (eap_type_field vendor type) + length payload)%nat.
Proof. unfold eap_message, eap_header. rewrite !length_app, length_be_put. simpl. lia. Qed.

(** The length field counts the whole message. *)
Lemma eap_message_length_field code id vendor type payload :
  Z.of_nat (length (eap_message code id vendor type payload)) < 65536 →
  WPA_GET_BE16 (eap_message code id vendor type payload) 2 =
    Ret (Z.of_nat (length (eap_message code id vendor type payload))).
Proof.
  rewrite length_eap_message. unfold eap_message, eap_header. generalize (eap_type_field vendor type ++ payload).
  intros rest Hl. remember (Z.of_nat _) as z eqn:Hz. assert (0 ≤ z) by lia. clear Hz.
  unfold WPA_GET_BE16. cbn. f_equal. apply be16_of_put. lia.
Qed.

(** Reads behind the header. *)
Lemma rd_message_type code id vendor type payload :
  rd (eap_message code id vendor type payload) 4 = rd (eap_type_field vendor type) 0.
Proof.
  unfold eap_message. change 4%nat with (length (eap_header code id 0)) at 2.
  replace (length (eap_header code id 0)) with
    (length (eap_header code id (4 + length (eap_type_field vendor type) + length payload))) by done.
  rewrite rd_app_0. unfold eap_type_field. by destruct (vendor =? EAP_VENDOR_IETF).
Qed.

Lemma be24_val a b c : is_byte b → is_byte c →
  Z.lor (Z.lor (Z.shiftl a 16) (Z.shiftl b 8)) c = a * 65536 + b * 256 + c.
Proof.
  unfold is_byte. intros Hb Hc. rewrite <-Z.lor_assoc, (lor_shiftl_add b c 8), (lor_shiftl_add a) by lia. lia.
Qed.
Lemma be32_val a b c d : is_byte b → is_byte c → is_byte d →
  be32 a b c d = a * 16777216 + b * 65536 + c * 256 + d.
Proof.
  intros Hb Hc Hd. unfold be32. rewrite <-!Z.lor_assoc, (Z.lor_assoc (Z.shiftl b 16)), be24_val by done.
  unfold is_byte in *. rewrite lor_shiftl_add by lia. lia.
Qed.

Lemma be24_of_put z : 0 ≤ z < 2 ^ 24 →
  Z.lor (Z.lor (Z.shiftl (u8 (Z.shiftr (Z.shiftr z 8) 8)) 16) (Z.shiftl (u8 (Z.shiftr z 8)) 8)) (u8 z) = z.
Proof.
  intros Hz. rewrite be24_val by apply u8_byte. unfold u8. rewrite !Z.shiftr_div_pow2 by lia.
  change (2 ^ 8) with 256. Z.to_euclidean_division_equations. lia.
Qed.
Lemma be32_of_put z : 0 ≤ z < 2 ^ 32 →
  be32 (u8 (Z.shiftr (Z.shiftr (Z.shiftr z 8) 8) 8)) (u8 (Z.shiftr (Z.shiftr z 8) 8)) (u8 (Z.shiftr z 8)) (u8 z) = z.
Proof.
  intros Hz. rewrite be32_val by apply u8_byte. unfold u8. rewrite !Z.shiftr_div_pow2 by lia.
  change (2 ^ 8) with 256. Z.to_euclidean_division_equations. lia.
Qed.

(** A message built with [eap_msg_alloc] and its payload passes the validation of
    its own vendor and type, which returns exactly the payload; a message of another
    vendor or type does not. *)
Theorem eap_msg_roundtrip code id vendor type payload vendor' type' :
  0 ≤ vendor < 2 ^ 24 → 0 ≤ type < 2 ^ 32 → (vendor = EAP_VENDOR_IETF → type < EAP_TYPE_EXPANDED) →
  0 ≤ vendor' < 2 ^ 24 → 0 ≤ type' < 2 ^ 32 →
  Z.of_nat (length (eap_message code id vendor type payload)) < 65536 →
  ∃ b, eap_msg_alloc true vendor type (length payload) code id = Ret (Some b) ∧
    (b ← wpabuf_put_data b payload; Ret (buf_data b)) = Ret (eap_message code id vendor type payload) ∧
    ∃ o, eap_hdr_validate vendor' type' (eap_message code id vendor type payload) = Ret o ∧
      (o = None ↔ vendor' ≠ vendor ∨ type' ≠ type) ∧
      (∀ pos n, o = Some (pos, n) → rdn (eap_message code id vendor type payload) pos n = Ret payload).
Proof.
  intros Hv Ht Hle Hv' Ht' Hlen. rewrite eap_msg_alloc_eq. eexists. split; [reflexivity|]. split.
  { rewrite put_ok; [cbn [mbind run_bind buf_data]; by rewrite <-app_assoc|]. unfold eap_header. cbn [buf_data buf_size].
    rewrite !length_app, length_be_put. simpl. lia. }
  unfold eap_hdr_validate. rewrite eap_message_length_field by done. rewrite rd_message_type.
  pose proof (length_eap_message code id vendor type payload) as Hl.
  pose proof (length_type_field vendor type) as Htl.
  rewrite (proj2 (Nat.ltb_ge _ _)) by lia. cbn [mbind run_bind]. rewrite Nat2Z.id.
  rewrite (proj2 (Nat.ltb_ge (length _) 5)), (proj2 (Nat.ltb_ge (length _) (length _)))
    by (destruct (vendor =? EAP_VENDOR_IETF); lia). cbn [orb].
  unfold eap_message, eap_header in *.
  revert Hl Hlen. generalize (4 + length (eap_type_field vendor type) + length payload)%nat. intros n0 Hl Hlen.
  unfold eap_type_field in *. destruct (Z.eqb_spec vendor EAP_VENDOR_IETF) as [->|Hne].
  - specialize (Hle eq_refl). unfold EAP_TYPE_EXPANDED in Hle.
    assert (Eu : u8 type = type) by (apply u8_small; unfold is_byte; lia).
    cbn [be_put le_bytes rev app] in Hl |- *. change (rd [u8 type] 0) with (Ret (u8 type)).
    cbn [mbind run_bind]. rewrite Eu. rewrite (proj2 (Z.eqb_neq type EAP_TYPE_EXPANDED)) by (unfold EAP_TYPE_EXPANDED; lia).
    destruct (Z.eqb_spec vendor' EAP_VENDOR_IETF) as [->|]; cbn [negb orb]; [|eexists; split; [reflexivity|]; naive_solver].
    destruct (Z.eqb_spec type type') as [->|]; cbn [negb]; eexists; (split; [reflexivity|]); [|naive_solver].
    split; [naive_solver|]. intros pos n [= <- <-]. cbn [length] in *. rewrite rdn_ok by (cbn [length]; lia).
    cbn [drop]. by rewrite drop_0, Nat.sub_0_r, firstn_all.
  - cbn [be_put le_bytes rev app] in Hl |- *. rewrite (u8_small EAP_TYPE_EXPANDED) by (split; done).
    change (rd (EAP_TYPE_EXPANDED :: ?l) 0) with (Ret EAP_TYPE_EXPANDED). cbn [mbind run_bind].
    rewrite Z.eqb_refl. rewrite (proj2 (Nat.ltb_ge _ 12)) by (cbn [length]; lia).
    unfold WPA_GET_BE24, WPA_GET_BE32. cbn [rd lookup list_lookup mbind run_bind Nat.add].
    rewrite be24_of_put, be32_of_put, u32_small by (unfold is_u32; lia).
    destruct (Z.eqb_spec vendor vendor') as [->|]; cbn [negb orb]; [|eexists; split; [reflexivity|]; naive_solver].
    destruct (Z.eqb_spec type type') as [->|]; cbn [negb]; eexists; (split; [reflexivity|]); [|naive_solver].
    split; [naive_solver|]. intros pos n [= <- <-]. cbn [length] in *. rewrite rdn_ok by (cbn [length]; lia).
    cbn [drop]. by rewrite drop_0, Nat.sub_0_r, firstn_all.
Qed.

(** The bytes of a message of a legacy type. *)
Lemma legacy_message code id type payload : ∃ a b c d,
  eap_message code id EAP_VENDOR_IETF type payload = [a; b; c; d; u8 type] ++ payload ∧
  b = u8 id ∧ a = u8 code.
Proof. do 4 eexists. split; [reflexivity|done]. Qed.

Lemma legacy_validate code id type payload : 0 ≤ type < EAP_TYPE_EXPANDED →
  Z.of_nat (length payload) < 65531 →
  eap_hdr_validate EAP_VENDOR_IETF type (eap_message code id EAP_VENDOR_IETF type payload) =
    Ret (Some (5%nat, length payload)).
Proof.
  intros Ht Hlen. unfold EAP_TYPE_EXPANDED in Ht. unfold eap_hdr_validate.
  assert (Hl : length (eap_message code id EAP_VENDOR_IETF type payload) = (5 + length payload)%nat) by apply length_eap_message.
  rewrite eap_message_length_field, rd_message_type by (rewrite Hl; lia). rewrite Hl.
  rewrite (proj2 (Nat.ltb_ge (5 + length payload) 4)) by lia. rewrite run_bind_l, Nat2Z.id.
  rewrite (proj2 (Nat.ltb_ge (5 + length payload) 5)), Nat.ltb_irrefl by lia. cbn [orb].
  change (rd (eap_type_field EAP_VENDOR_IETF type) 0) with (Ret (u8 type)). rewrite run_bind_l.
  rewrite u8_small by (unfold is_byte; lia). rewrite (proj2 (Z.eqb_neq type EAP_TYPE_EXPANDED)) by (unfold EAP_TYPE_EXPANDED; lia).
  rewrite !Z.eqb_refl. cbn [negb orb]. by rewrite Nat.add_comm, Nat.add_sub.
Qed.

(** The validation reads inside the message, whatever its bytes, and returns a
    payload that lies inside it. *)
Lemma rd_total (buf : list Z) i : (i < length buf)%nat → ∃ b, rd buf i = Ret b.
Proof. intros H. destruct (rd_lt buf i H) as (b & -> & _). eauto. Qed.

Lemma get_be16_total buf i : (i + 1 < length buf)%nat → ∃ z, WPA_GET_BE16 buf i = Ret z.
Proof.
  intros H. unfold WPA_GET_BE16. destruct (rd_total buf i) as [a ->]; [lia|].
  destruct (rd_total buf (i + 1)) as [b ->]; [lia|]. simpl. eauto.
Qed.
Lemma get_be24_total buf i : (i + 2 < length buf)%nat → ∃ z, WPA_GET_BE24 buf i = Ret z.
Proof.
  intros H. unfold WPA_GET_BE24. destruct (rd_total buf i) as [a ->]; [lia|].
  destruct (rd_total buf (i + 1)) as [b ->]; [lia|]. destruct (rd_total buf (i + 2)) as [c ->]; [lia|]. simpl. eauto.
Qed.
Lemma get_be32_total buf i : (i + 3 < length buf)%nat → ∃ z, WPA_GET_BE32 buf i = Ret z.
Proof.
  intros H. unfold WPA_GET_BE32. destruct (rd_total buf i) as [a ->]; [lia|].
  destruct (rd_total buf (i + 1)) as [b ->]; [lia|]. destruct (rd_total buf (i + 2)) as [c ->]; [lia|].
  destruct (rd_total buf (i + 3)) as [d ->]; [lia|]. simpl. eauto.
Qed.

Lemma eap_hdr_validate_total vendor type msg :
  ∃ o, eap_hdr_validate vendor type msg = Ret o ∧
    ∀ pos n, o = Some (pos, n) → (5 ≤ pos)%nat ∧ (pos + n ≤ length msg)%nat.
Proof.
  unfold eap_hdr_validate. destruct (Nat.ltb_spec (length msg) 4); [eexists; split; [reflexivity|done]|].
  destruct (get_be16_total msg 2) as [z ->]; [lia|]. cbn [mbind run_bind].
  destruct (Nat.ltb_spec (Z.to_nat z) 5); cbn [orb]; [eexists; split; [reflexivity|done]|].
  destruct (Nat.ltb_spec (length msg) (Z.to_nat z)); [eexists; split; [reflexivity|done]|].
  destruct (rd_total msg 4) as [t ->]; [lia|]. cbn [mbind run_bind]. if_branch.
  - destruct (Nat.ltb_spec (Z.to_nat z) 12); [eexists; split; [reflexivity|done]|].
    destruct (get_be24_total msg 5) as [v ->]; [lia|]. destruct (get_be32_total msg 8) as [w ->]; [lia|].
    cbn [mbind run_bind]. if_branch; eexists; (split; [reflexivity|]); [done|]. intros pos n [= <- <-]. lia.
  - if_branch; eexists; (split; [reflexivity|]); [done|]. intros pos n [= <- <-]. lia.
Qed.

Module Demo.
Lemma eap_msg_roundtrip_witness :
  ∃ b, eap_msg_alloc true EAP_VENDOR_IETF EAP_TYPE_MD5 3 EAP_CODE_RESPONSE 7 = Ret (Some b) ∧
    ∃ o, eap_hdr_validate EAP_VENDOR_IETF EAP_TYPE_MD5
      (eap_message EAP_CODE_RESPONSE 7 EAP_VENDOR_IETF EAP_TYPE_MD5 [1; 2; 3]) = Ret o.
Proof.
  destruct (eap_msg_roundtrip EAP_CODE_RESPONSE 7 EAP_VENDOR_IETF EAP_TYPE_MD5 [1; 2; 3] EAP_VENDOR_IETF EAP_TYPE_MD5)
    as (b & H1 & _ & o & H2 & _); try (unfold EAP_VENDOR_IETF, EAP_TYPE_MD5; lia); try done.
  exists b. split; [exact H1|]. exists o. exact H2.
Defined.
End Demo.
