(* ===== verification/Des.v ===== *)
(** * DES and 3DES-EDE (src/src/crypto/des-internal.c)

    Words are integers below [2^32], a key schedule is a list of 32 words, a key has eight
    bytes (seven for [des_encrypt], which adds parity bits), a block eight.  The casts to
    [unsigned long] of the rotations do not matter since their result is masked. *)

From S2P Require Import Prelude EapCommon.

(** ** Tables *)

Definition bytebit : list Z :=
  [128; 64; 32; 16; 8; 4; 2; 1].
Definition bigbyte : list Z :=
  [0x800000; 0x400000; 0x200000; 0x100000; 0x80000; 0x40000; 0x20000; 0x10000;
   0x8000; 0x4000; 0x2000; 0x1000; 0x800; 0x400; 0x200; 0x100;
   0x80; 0x40; 0x20; 0x10; 0x8; 0x4; 0x2; 0x1].
Definition pc1 : list nat :=
  [56; 48; 40; 32; 24; 16; 8; 0; 57; 49; 41; 33; 25; 17;
   9; 1; 58; 50; 42; 34; 26; 18; 10; 2; 59; 51; 43; 35;
   62; 54; 46; 38; 30; 22; 14; 6; 61; 53; 45; 37; 29; 21;
   13; 5; 60; 52; 44; 36; 28; 20; 12; 4; 27; 19; 11; 3]%nat.
Definition totrot : list nat :=
  [1; 2; 4; 6; 8; 10; 12; 14; 15; 17; 19; 21; 23; 25; 27; 28]%nat.
Definition pc2 : list nat :=
  [13; 16; 10; 23; 0; 4; 2; 27; 14; 5; 20; 9;
   22; 18; 11; 3; 25; 7; 15; 6; 26; 19; 12; 1;
   40; 51; 30; 36; 46; 54; 29; 39; 50; 44; 32; 47;
   43; 48; 38; 55; 33; 52; 45; 41; 49; 35; 28; 31]%nat.
Definition SP1 : list Z :=
  [0x01010400; 0x00000000; 0x00010000; 0x01010404; 0x01010004; 0x00010404; 0x00000004; 0x00010000;
   0x00000400; 0x01010400; 0x01010404; 0x00000400; 0x01000404; 0x01010004; 0x01000000; 0x00000004;
   0x00000404; 0x01000400; 0x01000400; 0x00010400; 0x00010400; 0x01010000; 0x01010000; 0x01000404;
   0x00010004; 0x01000004; 0x01000004; 0x00010004; 0x00000000; 0x00000404; 0x00010404; 0x01000000;
   0x00010000; 0x01010404; 0x00000004; 0x01010000; 0x01010400; 0x01000000; 0x01000000; 0x00000400;
   0x01010004; 0x00010000; 0x00010400; 0x01000004; 0x00000400; 0x00000004; 0x01000404; 0x00010404;
   0x01010404; 0x00010004; 0x01010000; 0x01000404; 0x01000004; 0x00000404; 0x00010404; 0x01010400;
   0x00000404; 0x01000400; 0x01000400; 0x00000000; 0x00010004; 0x00010400; 0x00000000; 0x01010004].
Definition SP2 : list Z :=
  [0x80108020; 0x80008000; 0x00008000; 0x00108020; 0x00100000; 0x00000020; 0x80100020; 0x80008020;
   0x80000020; 0x80108020; 0x80108000; 0x80000000; 0x80008000; 0x00100000; 0x00000020; 0x80100020;
   0x00108000; 0x00100020; 0x80008020; 0x00000000; 0x80000000; 0x00008000; 0x00108020; 0x80100000;
   0x00100020; 0x80000020; 0x00000000; 0x00108000; 0x00008020; 0x80108000; 0x80100000; 0x00008020;
   0x00000000; 0x00108020; 0x80100020; 0x00100000; 0x80008020; 0x80100000; 0x80108000; 0x00008000;
   0x80100000; 0x80008000; 0x00000020; 0x80108020; 0x00108020; 0x00000020; 0x00008000; 0x80000000;
   0x00008020; 0x80108000; 0x00100000; 0x80000020; 0x00100020; 0x80008020; 0x80000020; 0x00100020;
   0x00108000; 0x00000000; 0x80008000; 0x00008020; 0x80000000; 0x80100020; 0x80108020; 0x00108000].
Definition SP3 : list Z :=
  [0x00000208; 0x08020200; 0x00000000; 0x08020008; 0x08000200; 0x00000000; 0x00020208; 0x08000200;
   0x00020008; 0x08000008; 0x08000008; 0x00020000; 0x08020208; 0x00020008; 0x08020000; 0x00000208;
   0x08000000; 0x00000008; 0x08020200; 0x00000200; 0x00020200; 0x08020000; 0x08020008; 0x00020208;
   0x08000208; 0x00020200; 0x00020000; 0x08000208; 0x00000008; 0x08020208; 0x00000200; 0x08000000;
   0x08020200; 0x08000000; 0x00020008; 0x00000208; 0x00020000; 0x08020200; 0x08000200; 0x00000000;
   0x00000200; 0x00020008; 0x08020208; 0x08000200; 0x08000008; 0x00000200; 0x00000000; 0x08020008;
   0x08000208; 0x00020000; 0x08000000; 0x08020208; 0x00000008; 0x00020208; 0x00020200; 0x08000008;
   0x08020000; 0x08000208; 0x00000208; 0x08020000; 0x00020208; 0x00000008; 0x08020008; 0x00020200].
Definition SP4 : list Z :=
  [0x00802001; 0x00002081; 0x00002081; 0x00000080; 0x00802080; 0x00800081; 0x00800001; 0x00002001;
   0x00000000; 0x00802000; 0x00802000; 0x00802081; 0x00000081; 0x00000000; 0x00800080; 0x00800001;
   0x00000001; 0x00002000; 0x00800000; 0x00802001; 0x00000080; 0x00800000; 0x00002001; 0x00002080;
   0x00800081; 0x00000001; 0x00002080; 0x00800080; 0x00002000; 0x00802080; 0x00802081; 0x00000081;
   0x00800080; 0x00800001; 0x00802000; 0x00802081; 0x00000081; 0x00000000; 0x00000000; 0x00802000;
   0x00002080; 0x00800080; 0x00800081; 0x00000001; 0x00802001; 0x00002081; 0x00002081; 0x00000080;
   0x00802081; 0x00000081; 0x00000001; 0x00002000; 0x00800001; 0x00002001; 0x00802080; 0x00800081;
   0x00002001; 0x00002080; 0x00800000; 0x00802001; 0x00000080; 0x00800000; 0x00002000; 0x00802080].
Definition SP5 : list Z :=
  [0x00000100; 0x02080100; 0x02080000; 0x42000100; 0x00080000; 0x00000100; 0x40000000; 0x02080000;
   0x40080100; 0x00080000; 0x02000100; 0x40080100; 0x42000100; 0x42080000; 0x00080100; 0x40000000;
   0x02000000; 0x40080000; 0x40080000; 0x00000000; 0x40000100; 0x42080100; 0x42080100; 0x02000100;
   0x42080000; 0x40000100; 0x00000000; 0x42000000; 0x02080100; 0x02000000; 0x42000000; 0x00080100;
   0x00080000; 0x42000100; 0x00000100; 0x02000000; 0x40000000; 0x02080000; 0x42000100; 0x40080100;
   0x02000100; 0x40000000; 0x42080000; 0x02080100; 0x40080100; 0x00000100; 0x02000000; 0x42080000;
   0x42080100; 0x00080100; 0x42000000; 0x42080100; 0x02080000; 0x00000000; 0x40080000; 0x42000000;
   0x00080100; 0x02000100; 0x40000100; 0x00080000; 0x00000000; 0x40080000; 0x02080100; 0x40000100].
Definition SP6 : list Z :=
  [0x20000010; 0x20400000; 0x00004000; 0x20404010; 0x20400000; 0x00000010; 0x20404010; 0x00400000;
   0x20004000; 0x00404010; 0x00400000; 0x20000010; 0x00400010; 0x20004000; 0x20000000; 0x00004010;
   0x00000000; 0x00400010; 0x20004010; 0x00004000; 0x00404000; 0x20004010; 0x00000010; 0x20400010;
   0x20400010; 0x00000000; 0x00404010; 0x20404000; 0x00004010; 0x00404000; 0x20404000; 0x20000000;
   0x20004000; 0x00000010; 0x20400010; 0x00404000; 0x20404010; 0x00400000; 0x00004010; 0x20000010;
   0x00400000; 0x20004000; 0x20000000; 0x00004010; 0x20000010; 0x20404010; 0x00404000; 0x20400000;
   0x00404010; 0x20404000; 0x00000000; 0x20400010; 0x00000010; 0x00004000; 0x20400000; 0x00404010;
   0x00004000; 0x00400010; 0x20004010; 0x00000000; 0x20404000; 0x20000000; 0x00400010; 0x20004010].
Definition SP7 : list Z :=
  [0x00200000; 0x04200002; 0x04000802; 0x00000000; 0x00000800; 0x04000802; 0x00200802; 0x04200800;
   0x04200802; 0x00200000; 0x00000000; 0x04000002; 0x00000002; 0x04000000; 0x04200002; 0x00000802;
   0x04000800; 0x00200802; 0x00200002; 0x04000800; 0x04000002; 0x04200000; 0x04200800; 0x00200002;
   0x04200000; 0x00000800; 0x00000802; 0x04200802; 0x00200800; 0x00000002; 0x04000000; 0x00200800;
   0x04000000; 0x00200800; 0x00200000; 0x04000802; 0x04000802; 0x04200002; 0x04200002; 0x00000002;
   0x00200002; 0x04000000; 0x04000800; 0x00200000; 0x04200800; 0x00000802; 0x00200802; 0x04200800;
   0x00000802; 0x04000002; 0x04200802; 0x04200000; 0x00200800; 0x00000000; 0x00000002; 0x04200802;
   0x00000000; 0x00200802; 0x04200000; 0x00000800; 0x04000002; 0x04000800; 0x00000800; 0x00200002].
Definition SP8 : list Z :=
  [0x10001040; 0x00001000; 0x00040000; 0x10041040; 0x10000000; 0x10001040; 0x00000040; 0x10000000;
   0x00040040; 0x10040000; 0x10041040; 0x00041000; 0x10041000; 0x00041040; 0x00001000; 0x00000040;
   0x10040000; 0x10000040; 0x10001000; 0x00001040; 0x00041000; 0x00040040; 0x10040040; 0x10041000;
   0x00001040; 0x00000000; 0x00000000; 0x10040040; 0x10000040; 0x10001000; 0x00041040; 0x00040000;
   0x00041040; 0x00040000; 0x10041000; 0x00001000; 0x00000040; 0x10040040; 0x00001000; 0x00041040;
   0x10001000; 0x00000040; 0x10000040; 0x10040000; 0x10040040; 0x10000000; 0x00040000; 0x10001040;
   0x00000000; 0x10041040; 0x00040040; 0x10000040; 0x10040000; 0x10001000; 0x10001040; 0x00000000;
   0x10041040; 0x00041000; 0x00041000; 0x00001040; 0x00001040; 0x00040040; 0x10000000; 0x10041000].

(** ** Operations *)

Definition ROLc (x y : Z) : Z :=
  Z.land (Z.lor (Z.shiftl x (Z.land y 31)) (Z.shiftr (Z.land x 0xffffffff) (32 - Z.land y 31))) 0xffffffff.
Definition RORc (x y : Z) : Z :=
  Z.land (Z.lor (Z.shiftr (Z.land x 0xffffffff) (Z.land y 31)) (Z.shiftl x (32 - Z.land y 31))) 0xffffffff.

(** Two words of a round make two cooked words. *)
Definition cook (raw : Z * Z) : list Z :=
  let '(raw0, raw1) := raw in
  [Z.lor (Z.lor (Z.lor (u32 (Z.shiftl (Z.land raw0 0x00fc0000) 6)) (u32 (Z.shiftl (Z.land raw0 0x00000fc0) 10)))
            (Z.shiftr (Z.land raw1 0x00fc0000) 10)) (Z.shiftr (Z.land raw1 0x00000fc0) 6);
   Z.lor (Z.lor (Z.lor (u32 (Z.shiftl (Z.land raw0 0x0003f000) 12)) (u32 (Z.shiftl (Z.land raw0 0x0000003f) 16)))
            (Z.shiftr (Z.land raw1 0x0003f000) 4)) (Z.land raw1 0x0000003f)].
Fixpoint cookey (raw : list Z) : list Z :=
  match raw with
  | raw0 :: raw1 :: raw => cook (raw0, raw1) ++ cookey raw
  | _ => []
  end.

(** The bits of the key the schedule uses, and those of a round. *)
Definition pc1m (key : list Z) : list bool :=
  map (λ l, let m := (l mod 8)%nat in Z.land (key !!! (l / 8)%nat) (bytebit !!! m) =? bytebit !!! m) pc1.
Definition pcr (key : list Z) (i : nat) : list bool :=
  map (λ j, let l := (j + totrot !!! i)%nat in
            pc1m key !!! (if (j <? 28)%nat then if (l <? 28)%nat then l else (l - 28)%nat
                          else if (l <? 56)%nat then l else (l - 28)%nat)) (seq 0 56).
Definition gather (bits : list bool) (from : nat) : Z :=
  foldl (λ (k : Z) (j : nat), if (bits !!! (pc2 !!! (j + from)%nat : nat) : bool) then Z.lor k (bigbyte !!! j) else k) 0 (seq 0 24).
(** Both words of a round. *)
Definition round_key (key : list Z) (i : nat) : Z * Z := (gather (pcr key i) 0, gather (pcr key i) 24).

(** The initial value of [kn] does not matter. *)
Definition deskey (key : list Z) (decrypt : bool) : list Z :=
  cookey (foldl (λ kn i, let m := (2 * if decrypt then 15 - i else i)%nat in
                         let '(a, b) := round_key key i in <[(m + 1)%nat := b]> (<[m := a]> kn)) (repeat 0 32) (seq 0 16)).

(** [work = ((a >> s) ^ b) & m; b ^= work; a ^= (work << s)] *)
Definition exchange (s m a b : Z) : Z * Z :=
  let work := Z.land (Z.lxor (Z.shiftr a s) b) m in (Z.lxor a (u32 (Z.shiftl work s)), Z.lxor b work).

(** The part of [desfunc] before its loop, on the halves of the block, and the part after
    it, which leaves the right half first. *)
Definition des_initial (leftt rightt : Z) : Z * Z :=
  let '(leftt, rightt) := exchange 4 0x0f0f0f0f leftt rightt in
  let '(leftt, rightt) := exchange 16 0x0000ffff leftt rightt in
  let '(rightt, leftt) := exchange 2 0x33333333 rightt leftt in
  let '(rightt, leftt) := exchange 8 0x00ff00ff rightt leftt in
  let rightt := ROLc rightt 1 in
  let work := Z.land (Z.lxor leftt rightt) 0xaaaaaaaa in
  let leftt := Z.lxor leftt work in
  let rightt := Z.lxor rightt work in
  (ROLc leftt 1, rightt).
Definition des_final (leftt rightt : Z) : Z * Z :=
  let rightt := RORc rightt 1 in
  let work := Z.land (Z.lxor leftt rightt) 0xaaaaaaaa in
  let leftt := Z.lxor leftt work in
  let rightt := Z.lxor rightt work in
  let leftt := RORc leftt 1 in
  let '(leftt, rightt) := exchange 8 0x00ff00ff leftt rightt in
  let '(leftt, rightt) := exchange 2 0x33333333 leftt rightt in
  let '(rightt, leftt) := exchange 16 0x0000ffff rightt leftt in
  let '(rightt, leftt) := exchange 4 0x0f0f0f0f rightt leftt in
  (rightt, leftt).

Definition SP (t : list Z) (work s : Z) : Z := t !!! Z.to_nat (Z.land (Z.shiftr work s) 0x3f).
(** What a half round adds to the other half. *)
Definition des_f (rightt k0 k1 : Z) : Z :=
  let work := Z.lxor (RORc rightt 4) k0 in
  let x := Z.lxor (Z.lxor (Z.lxor (SP SP7 work 0) (SP SP5 work 8)) (SP SP3 work 16)) (SP SP1 work 24) in
  let work := Z.lxor rightt k1 in
  Z.lxor x (Z.lxor (Z.lxor (Z.lxor (SP SP8 work 0) (SP SP6 work 8)) (SP SP4 work 16)) (SP SP2 work 24)).

Fixpoint des_rounds (n : nat) (keys : list Z) (leftt rightt : Z) : Z * Z :=
  match n, keys with
  | S n, k0 :: k1 :: k2 :: k3 :: keys =>
      let leftt := Z.lxor leftt (des_f rightt k0 k1) in
      let rightt := Z.lxor rightt (des_f leftt k2 k3) in
      des_rounds n keys leftt rightt
  | _, _ => (leftt, rightt)
  end.

Definition desfunc (block : Z * Z) (keys : list Z) : Z * Z :=
  let '(leftt, rightt) := des_initial block.1 block.2 in
  let '(leftt, rightt) := des_rounds 8 keys leftt rightt in
  des_final leftt rightt.

Definition get_block (b : list Z) : Z * Z :=
  (be32 (b !!! 0%nat) (b !!! 1%nat) (b !!! 2%nat) (b !!! 3%nat), be32 (b !!! 4%nat) (b !!! 5%nat) (b !!! 6%nat) (b !!! 7%nat)).
Definition put_block (w : Z * Z) : list Z := be_put 4 w.1 ++ be_put 4 w.2.

(** The key with parity bits. *)
Definition des_parity (key : list Z) : list Z :=
  let '(pkey, next) :=
    foldl (λ '(pkey, next) i,
      let tmp := key !!! i in
      (pkey ++ [u8 (Z.lor (Z.lor (Z.shiftr tmp (Z.of_nat i)) next) 1)], u8 (Z.shiftl tmp (7 - Z.of_nat i)))) ([], 0) (seq 0 7) in
  pkey ++ [Z.lor next 1].

Definition des_key_setup (key : list Z) : list Z * list Z := (deskey key false, deskey key true).
Definition des_block_encrypt (plain ek : list Z) : list Z := put_block (desfunc (get_block plain) ek).
Definition des_block_decrypt (crypt dk : list Z) : list Z := put_block (desfunc (get_block crypt) dk).
Definition des_encrypt (clear key : list Z) : list Z :=
  put_block (desfunc (get_block clear) (deskey (des_parity key) false)).

Record des3_key_s := Des3Key { des3_ek : list Z * list Z * list Z; des3_dk : list Z * list Z * list Z }.
Definition des3_key_setup (key : list Z) : des3_key_s :=
  let k0 := key in let k1 := drop 8 key in let k2 := drop 16 key in
  Des3Key (deskey k0 false, deskey k1 true, deskey k2 false) (deskey k2 true, deskey k1 false, deskey k0 true).
Definition des3_words (work : Z * Z) (ks : list Z * list Z * list Z) : Z * Z :=
  let '(a, b, c) := ks in desfunc (desfunc (desfunc work a) b) c.
Definition des3_encrypt (plain : list Z) (key : des3_key_s) : list Z := put_block (des3_words (get_block plain) (des3_ek key)).
Definition des3_decrypt (crypt : list Z) (key : des3_key_s) : list Z := put_block (des3_words (get_block crypt) (des3_dk key)).

(** Known answers: all zeros under the weak key, and the example of RFC 2759. *)
Example des_zero : des_block_encrypt (repeat 0 8) (des_key_setup (repeat 0 8)).1 = [0x8c; 0xa6; 0x4d; 0xe9; 0xc1; 0xb1; 0x23; 0xa7].
Proof. vm_compute. reflexivity. Qed.
Example des_vector :
  des_block_encrypt [0x01; 0x23; 0x45; 0x67; 0x89; 0xab; 0xcd; 0xe7]
    (des_key_setup [0x01; 0x23; 0x45; 0x67; 0x89; 0xab; 0xcd; 0xef]).1 = [0xc9; 0x57; 0x44; 0x25; 0x6a; 0x5e; 0xd3; 0x1d].
Proof. vm_compute. reflexivity. Qed.

(** ** Words *)

#[local] Opaque SP1 SP2 SP3 SP4 SP5 SP6 SP7 SP8.

Lemma u32_testbit x n : is_u32 x → 32 ≤ n → Z.testbit x n = false.
Proof.
  intros Hx Hn. rewrite <-(u32_small x Hx). unfold u32. by rewrite Z.mod_pow2_bits_high by lia.
Qed.
Lemma land_u32 x m : is_u32 m → is_u32 (Z.land x m).
Proof. intros Hm. rewrite <-(u32_small m Hm), u32_land, Z.land_assoc. apply land32_range. Qed.

(** A rotation by one bit. *)
Lemma ROLc_bit x n : is_u32 x → 0 ≤ n < 32 → Z.testbit (ROLc x 1) n = Z.testbit x (if n =? 0 then 31 else n - 1).
Proof.
  intros Hx Hn. unfold ROLc. rewrite <-!u32_land, (u32_small x Hx). unfold u32.
  change (Z.land 1 31) with 1. change (32 - 1) with 31. rewrite Z.mod_pow2_bits_low, Z.lor_spec, Z.shiftr_spec by lia.
  destruct (Z.eqb_spec n 0) as [->|Hz]; [by rewrite Z.shiftl_spec_low by lia|].
  rewrite Z.shiftl_spec by lia. rewrite (u32_testbit x (n + 31) Hx) by lia. apply orb_false_r.
Qed.
Lemma RORc_bit x n : is_u32 x → 0 ≤ n < 32 → Z.testbit (RORc x 1) n = Z.testbit x (if n =? 31 then 0 else n + 1).
Proof.
  intros Hx Hn. unfold RORc. rewrite <-!u32_land, (u32_small x Hx). unfold u32.
  change (Z.land 1 31) with 1. change (32 - 1) with 31. rewrite Z.mod_pow2_bits_low, Z.lor_spec, Z.shiftr_spec by lia.
  destruct (Z.eqb_spec n 31) as [->|Hz].
  - rewrite Z.shiftl_spec by lia. by rewrite (u32_testbit x (31 + 1) Hx) by lia.
  - rewrite Z.shiftl_spec_low by lia. apply orb_false_r.
Qed.
Lemma ROLc_u32 x y : is_u32 (ROLc x y).
Proof. apply land32_range. Qed.
Lemma RORc_u32 x y : is_u32 (RORc x y).
Proof. apply land32_range. Qed.
Lemma u32_bits_inj x y : is_u32 x → is_u32 y → (∀ n, 0 ≤ n < 32 → Z.testbit x n = Z.testbit y n) → x = y.
Proof.
  intros Hx Hy H. apply Z.bits_inj'. intros n Hn. destruct (Z.ltb_spec n 32); [apply H; lia|]. by rewrite !u32_testbit by done.
Qed.
Lemma ROR_ROL x : is_u32 x → RORc (ROLc x 1) 1 = x.
Proof.
  intros Hx. apply u32_bits_inj; [apply RORc_u32|done|]. intros n Hn. rewrite RORc_bit by (done || apply ROLc_u32).
  destruct (Z.eqb_spec n 31) as [->|]; rewrite ROLc_bit by (done || lia); [done|].
  destruct (Z.eqb_spec (n + 1) 0); [lia|]. f_equal. lia.
Qed.
Lemma ROL_ROR x : is_u32 x → ROLc (RORc x 1) 1 = x.
Proof.
  intros Hx. apply u32_bits_inj; [apply ROLc_u32|done|]. intros n Hn. rewrite ROLc_bit by (done || apply RORc_u32).
  destruct (Z.eqb_spec n 0) as [->|]; rewrite RORc_bit by (done || lia); [done|].
  destruct (Z.eqb_spec (n - 1) 31); [lia|]. f_equal. lia.
Qed.

(** ** Each exchange of bits undoes itself *)

Definition mask_fits (s m : Z) : Prop := is_u32 m ∧ 0 ≤ s ∧ u32 (Z.shiftl m s) = Z.shiftl m s.

Lemma work_fits s m x : mask_fits s m → u32 (Z.shiftl (Z.land x m) s) = Z.shiftl (Z.land x m) s.
Proof.
  intros (_ & Hs & Hm). rewrite u32_land, Z.shiftl_land, <-Z.land_assoc. f_equal. by rewrite <-u32_land.
Qed.
Lemma exchange_u32 s m a b : mask_fits s m → is_u32 a → is_u32 b → is_u32 (exchange s m a b).1 ∧ is_u32 (exchange s m a b).2.
Proof.
  intros Hm Ha Hb. unfold exchange. cbv zeta. cbn [fst snd]. split; apply lxor_u32; try done; [apply u32_range|].
  apply land_u32, Hm.
Qed.
Lemma exchange_twice s m a b : mask_fits s m → exchange s m (exchange s m a b).1 (exchange s m a b).2 = (a, b).
Proof.
  intros Hm. pose proof Hm as (_ & Hs & _). unfold exchange. cbv zeta. cbn [fst snd].
  set (w := Z.land (Z.lxor (Z.shiftr a s) b) m).
  assert (u32 (Z.shiftl w s) = Z.shiftl w s) as Hw by apply (work_fits s m _ Hm). rewrite Hw.
  assert (Z.land (Z.lxor (Z.shiftr (Z.lxor a (Z.shiftl w s)) s) (Z.lxor b w)) m = w) as ->.
  { rewrite Z.shiftr_lxor, Z.shiftr_shiftl_l, Z.sub_diag, Z.shiftl_0_r by lia. unfold w at 3. f_equal.
    rewrite !Z.lxor_assoc. f_equal. rewrite (Z.lxor_comm b w), <-Z.lxor_assoc, Z.lxor_nilpotent. apply Z.lxor_0_l. }
  rewrite Hw. by rewrite !Z.lxor_assoc, !Z.lxor_nilpotent, !Z.lxor_0_r.
Qed.

Lemma fits4 : mask_fits 4 0x0f0f0f0f.
Proof. by vm_compute. Qed.
Lemma fits16 : mask_fits 16 0x0000ffff.
Proof. by vm_compute. Qed.
Lemma fits2 : mask_fits 2 0x33333333.
Proof. by vm_compute. Qed.
Lemma fits8 : mask_fits 8 0x00ff00ff.
Proof. by vm_compute. Qed.
#[local] Hint Resolve fits4 fits16 fits2 fits8 ROLc_u32 RORc_u32 lxor_u32 : wpa.

Lemma exchange_back s m a b a' b' :
  mask_fits s m → exchange s m a b = (a', b') → is_u32 a → is_u32 b →
  exchange s m a' b' = (a, b) ∧ is_u32 a' ∧ is_u32 b'.
Proof.
  intros Hm H Ha Hb. pose proof (exchange_twice s m a b Hm) as Ht. pose proof (exchange_u32 s m a b Hm Ha Hb) as Hu.
  by rewrite H in Ht, Hu.
Qed.

(** The exchange in the middle, in both orders of the halves. *)
Lemma mix_twice m l r :
  let w := Z.land (Z.lxor l r) m in
  Z.land (Z.lxor (Z.lxor l w) (Z.lxor r w)) m = w ∧ Z.land (Z.lxor (Z.lxor r w) (Z.lxor l w)) m = w ∧
  Z.lxor (Z.lxor l w) w = l ∧ Z.lxor (Z.lxor r w) w = r.
Proof.
  cbv zeta. set (w := Z.land (Z.lxor l r) m).
  assert (∀ x, Z.lxor (Z.lxor x w) w = x) as Hx by (intros; by rewrite Z.lxor_assoc, Z.lxor_nilpotent, Z.lxor_0_r).
  assert (∀ x y, Z.lxor (Z.lxor x w) (Z.lxor y w) = Z.lxor x y) as Hy.
  { intros x y. rewrite (Z.lxor_comm y w), <-Z.lxor_assoc, Hx. done. }
  rewrite !Hy, !Hx. split_and!; try done. by rewrite Z.lxor_comm.
Qed.

#[local] Opaque exchange ROLc RORc.

Lemma des_final_initial a b : is_u32 a → is_u32 b → des_final (des_initial a b).2 (des_initial a b).1 = (a, b).
Proof.
  intros Ha Hb. unfold des_initial.
  destruct (exchange 4 0x0f0f0f0f a b) as [l1 r1] eqn:E1. apply exchange_back in E1 as (E1 & Hl1 & Hr1); [|auto with wpa..].
  destruct (exchange 16 0x0000ffff l1 r1) as [l2 r2] eqn:E2. apply exchange_back in E2 as (E2 & Hl2 & Hr2); [|auto with wpa..].
  destruct (exchange 2 0x33333333 r2 l2) as [r3 l3] eqn:E3. apply exchange_back in E3 as (E3 & Hr3 & Hl3); [|auto with wpa..].
  destruct (exchange 8 0x00ff00ff r3 l3) as [r4 l4] eqn:E4. apply exchange_back in E4 as (E4 & Hr4 & Hl4); [|auto with wpa..].
  cbv zeta. cbn [fst snd]. pose proof (mix_twice 0xaaaaaaaa l4 (ROLc r4 1)) as (_ & M & Ml & Mr). cbv zeta in M, Ml, Mr.
  unfold des_final. set (w := Z.land (Z.lxor l4 (ROLc r4 1)) 0xaaaaaaaa) in *.
  assert (is_u32 w) as Hw by (apply land_u32; by vm_compute). cbv zeta.
  rewrite ROR_ROL, M, Mr, Ml, ROR_ROL, E4, E3, E2, E1 by auto with wpa. done.
Qed.

Lemma des_initial_final l r : is_u32 l → is_u32 r → des_initial (des_final l r).1 (des_final l r).2 = (r, l).
Proof.
  intros Hl Hr. unfold des_final. cbv zeta.
  pose proof (mix_twice 0xaaaaaaaa l (RORc r 1)) as (_ & M & Ml & Mr). cbv zeta in M, Ml, Mr.
  set (w := Z.land (Z.lxor l (RORc r 1)) 0xaaaaaaaa) in *. assert (is_u32 w) as Hw by (apply land_u32; by vm_compute).
  destruct (exchange 8 0x00ff00ff (RORc (Z.lxor l w) 1) (Z.lxor (RORc r 1) w)) as [l1 r1] eqn:E1.
  apply exchange_back in E1 as (E1 & Hl1 & Hr1); [|auto with wpa..].
  destruct (exchange 2 0x33333333 l1 r1) as [l2 r2] eqn:E2. apply exchange_back in E2 as (E2 & Hl2 & Hr2); [|auto with wpa..].
  destruct (exchange 16 0x0000ffff r2 l2) as [r3 l3] eqn:E3. apply exchange_back in E3 as (E3 & Hr3 & Hl3); [|auto with wpa..].
  destruct (exchange 4 0x0f0f0f0f r3 l3) as [r4 l4] eqn:E4. apply exchange_back in E4 as (E4 & Hr4 & Hl4); [|auto with wpa..].
  cbn [fst snd]. unfold des_initial. rewrite E4, E3, E2, E1. cbv zeta. rewrite ROL_ROR, M, Mr, Ml, ROL_ROR by auto with wpa. done.
Qed.

Lemma des_initial_u32 a b : is_u32 a → is_u32 b → is_u32 (des_initial a b).1 ∧ is_u32 (des_initial a b).2.
Proof.
  intros Ha Hb. unfold des_initial.
  destruct (exchange 4 0x0f0f0f0f a b) as [l1 r1] eqn:E1. apply exchange_back in E1 as (E1 & Hl1 & Hr1); [|auto with wpa..].
  destruct (exchange 16 0x0000ffff l1 r1) as [l2 r2] eqn:E2. apply exchange_back in E2 as (E2 & Hl2 & Hr2); [|auto with wpa..].
  destruct (exchange 2 0x33333333 r2 l2) as [r3 l3] eqn:E3. apply exchange_back in E3 as (E3 & Hr3 & Hl3); [|auto with wpa..].
  destruct (exchange 8 0x00ff00ff r3 l3) as [r4 l4] eqn:E4. apply exchange_back in E4 as (E4 & Hr4 & Hl4); [|auto with wpa..].
  cbv zeta. cbn [fst snd]. split; [apply ROLc_u32|]. apply lxor_u32; [apply ROLc_u32|]. apply land_u32; by vm_compute.
Qed.

(** ** The rounds backwards *)

(** A schedule as pairs of words, one for each half round. *)
Definition flat (ps : list (Z * Z)) : list Z := concat (map (λ p, [p.1; p.2]) ps).

(** A round on a state, with the halves exchanged after each half round. *)
Definition half (st : Z * Z) (p : Z * Z) : Z * Z := (st.2, Z.lxor st.1 (des_f st.2 p.1 p.2)).

Lemma des_rounds_half n ps l r :
  length ps = (2 * n)%nat → des_rounds n (flat ps) l r = foldl half (l, r) ps.
Proof.
  revert ps l r. induction n as [|n IH]; intros ps l r Hp; [by destruct ps|].
  destruct ps as [|p [|q ps]]; try (cbn in Hp; lia). cbn [flat map concat app des_rounds foldl]. apply IH. cbn in Hp. lia.
Qed.

Lemma half_back st p : half ((half st p).2, (half st p).1) p = (st.2, st.1).
Proof.
  destruct st as [l r]. unfold half. cbn [fst snd]. by rewrite Z.lxor_assoc, Z.lxor_nilpotent, Z.lxor_0_r.
Qed.
Lemma rounds_back ps st : foldl half ((foldl half st ps).2, (foldl half st ps).1) (rev ps) = (st.2, st.1).
Proof.
  revert st. induction ps as [|p ps IH]; intros st; [done|]. cbn [foldl rev]. rewrite foldl_app, IH. cbn [foldl]. apply half_back.
Qed.

Lemma SP_u32 t work n : Forall is_u32 t → is_u32 (SP t work n).
Proof.
  intros Ht. unfold SP. rewrite list_lookup_total_alt.
  destruct (t !! Z.to_nat (Z.land (work ≫ n) 63)) as [x|] eqn:Hx; [by eapply Forall_lookup_1|by vm_compute].
Qed.
Lemma tables_u32 : Forall (Forall is_u32) [SP1; SP2; SP3; SP4; SP5; SP6; SP7; SP8].
Proof. apply (bool_decide_unpack _). by vm_compute. Qed.
Lemma des_f_u32 x k0 k1 : is_u32 (des_f x k0 k1).
Proof.
  pose proof tables_u32 as H. unfold des_f. cbv zeta. decompose_Forall_hyps. repeat apply lxor_u32; by apply SP_u32.
Qed.
Lemma rounds_u32 ps st : is_u32 st.1 → is_u32 st.2 → is_u32 (foldl half st ps).1 ∧ is_u32 (foldl half st ps).2.
Proof.
  revert st. induction ps as [|p ps IH]; intros st H1 H2; [done|]. cbn [foldl]. apply IH; [done|]. unfold half. cbn [fst snd].
  apply lxor_u32; [done|apply des_f_u32].
Qed.

(** The words of the schedule. *)
Definition cooked (key : list Z) (i : nat) : Z * Z :=
  (cook (round_key key i) !!! 0%nat, cook (round_key key i) !!! 1%nat).
Definition schedule (key : list Z) : list (Z * Z) := map (cooked key) (seq 0 16).

Lemma deskey_flat key decrypt : deskey key decrypt = flat (if decrypt then rev (schedule key) else schedule key).
Proof.
  unfold deskey, schedule, cooked. generalize (round_key key) as k. intros k. cbn [seq foldl map].
  destruct (k 0%nat), (k 1%nat), (k 2%nat), (k 3%nat), (k 4%nat), (k 5%nat), (k 6%nat), (k 7%nat), (k 8%nat), (k 9%nat),
    (k 10%nat), (k 11%nat), (k 12%nat), (k 13%nat), (k 14%nat), (k 15%nat).
  by destruct decrypt.
Qed.

Lemma desfunc_rounds a b ps :
  length ps = 16%nat → desfunc (a, b) (flat ps) = let st := foldl half (des_initial a b) ps in des_final st.1 st.2.
Proof.
  intros Hp. unfold desfunc. cbn [fst snd]. destruct (des_initial a b) as [l r]. rewrite (des_rounds_half 8) by done.
  by destruct (foldl half (l, r) ps).
Qed.

Lemma desfunc_inverse w ps :
  is_u32 w.1 → is_u32 w.2 → length ps = 16%nat → desfunc (desfunc w (flat ps)) (flat (rev ps)) = w.
Proof.
  destruct w as [a b]. cbn [fst snd]. intros Ha Hb Hp. rewrite (desfunc_rounds a b ps Hp). cbv zeta.
  destruct (des_initial_u32 a b Ha Hb) as [Hi1 Hi2]. destruct (rounds_u32 ps _ Hi1 Hi2) as [Hr1 Hr2].
  set (st := foldl half (des_initial a b) ps) in *. pose proof (des_initial_final st.1 st.2 Hr1 Hr2) as Hif.
  destruct (des_final st.1 st.2) as [x y]. cbn [fst snd] in Hif. rewrite desfunc_rounds by (by rewrite length_rev). cbv zeta.
  rewrite Hif. unfold st. rewrite rounds_back. cbn [fst snd]. by apply des_final_initial.
Qed.

Lemma desfunc_u32 w ps : is_u32 w.1 → is_u32 w.2 → length ps = 16%nat → is_u32 (desfunc w (flat ps)).1 ∧ is_u32 (desfunc w (flat ps)).2.
Proof.
  destruct w as [a b]. cbn [fst snd]. intros Ha Hb Hp. rewrite (desfunc_rounds a b ps Hp). cbv zeta.
  destruct (des_initial_u32 a b Ha Hb) as [Hi1 Hi2]. destruct (rounds_u32 ps _ Hi1 Hi2) as [Hr1 Hr2].
  set (st := foldl half (des_initial a b) ps) in *. clearbody st. destruct st as [l r]. cbn [fst snd] in *. unfold des_final. cbv zeta.
  set (w := Z.land (Z.lxor l (RORc r 1)) 0xaaaaaaaa). assert (is_u32 w) as Hw by (apply land_u32; by vm_compute). clearbody w.
  destruct (exchange 8 0x00ff00ff (RORc (Z.lxor l w) 1) (Z.lxor (RORc r 1) w)) as [l1 r1] eqn:E1.
  apply exchange_back in E1 as (E1 & Hl1 & Hr3); [|auto with wpa..].
  destruct (exchange 2 0x33333333 l1 r1) as [l2 r2] eqn:E2. apply exchange_back in E2 as (E2 & Hl2 & Hr4); [|auto with wpa..].
  destruct (exchange 16 0x0000ffff r2 l2) as [r3 l3] eqn:E3. apply exchange_back in E3 as (E3 & Hr5 & Hl3); [|auto with wpa..].
  destruct (exchange 4 0x0f0f0f0f r3 l3) as [r4 l4] eqn:E4. by apply exchange_back in E4 as (E4 & Hr6 & Hl4); [|auto with wpa..].
Qed.

(** ** Blocks *)

Definition is_block (b : list Z) : Prop := length b = 8%nat ∧ bytes_ok b.

Lemma put_block_ok w : is_block (put_block w).
Proof. split; [done|]. apply Forall_app_2; apply be_put_ok. Qed.
Lemma get_put_block w : is_u32 w.1 → is_u32 w.2 → get_block (put_block w) = w.
Proof. intros H1 H2. destruct w as [a b]. unfold get_block. cbn -[be32 Z.shiftr u8]. by rewrite !be32_of_put. Qed.
Lemma be_put_be32 a b c d : is_byte a → is_byte b → is_byte c → is_byte d → be_put 4 (be32 a b c d) = [a; b; c; d].
Proof.
  intros Ha Hb Hc Hd. rewrite be32_val by done. unfold be_put. cbn [le_bytes rev app]. unfold is_byte, u8 in *.
  rewrite !Z.shiftr_div_pow2 by lia. change (2 ^ 8) with 256 in *. repeat f_equal; Z.to_euclidean_division_equations; lia.
Qed.
Lemma put_get_block b : is_block b → put_block (get_block b) = b.
Proof.
  intros [Hl Hb]. do 8 (destruct b as [|? b]; [done|]). destruct b; [|done]. unfold bytes_ok in Hb. decompose_Forall_hyps.
  unfold put_block, get_block. cbn [fst snd lookup_total list_lookup_total]. by rewrite !be_put_be32.
Qed.
Lemma get_block_u32 b : bytes_ok b → is_u32 (get_block b).1 ∧ is_u32 (get_block b).2.
Proof.
  intros Hb. assert (∀ i, is_byte (b !!! i)) as Hi.
  { intros i. rewrite list_lookup_total_alt. destruct (b !! i) eqn:E; [by eapply bytes_ok_lookup|by vm_compute]. }
  unfold get_block. cbn [fst snd]. rewrite !be32_val by done. unfold is_u32. split.
  - pose proof (Hi 0%nat). pose proof (Hi 1%nat). pose proof (Hi 2%nat). pose proof (Hi 3%nat). unfold is_byte in *. lia.
  - pose proof (Hi 4%nat). pose proof (Hi 5%nat). pose proof (Hi 6%nat). pose proof (Hi 7%nat). unfold is_byte in *. lia.
Qed.

(** The schedules of encryption and decryption belong together. *)
Definition inverse_keys (ek dk : list Z) : Prop :=
  ∀ w, is_u32 w.1 → is_u32 w.2 → desfunc (desfunc w ek) dk = w ∧ is_u32 (desfunc w ek).1 ∧ is_u32 (desfunc w ek).2.

Lemma deskey_inverse key decrypt : inverse_keys (deskey key decrypt) (deskey key (negb decrypt)).
Proof.
  intros w H1 H2. rewrite !deskey_flat. destruct decrypt; cbn [negb].
  - split; [|by apply desfunc_u32; [..|rewrite length_rev]]. rewrite <-(rev_involutive (schedule key)) at 2.
    by apply desfunc_inverse; [..|rewrite length_rev].
  - split; [by apply desfunc_inverse|by apply desfunc_u32].
Qed.

(** Decryption with the schedules of [des_key_setup] gives back every block. *)
Theorem des_roundtrip key b :
  is_block b → des_block_decrypt (des_block_encrypt b (des_key_setup key).1) (des_key_setup key).2 = b.
Proof.
  intros Hb. unfold des_block_decrypt, des_block_encrypt, des_key_setup. cbn [fst snd].
  destruct (get_block_u32 b) as [H1 H2]; [apply Hb|]. destruct (deskey_inverse key false _ H1 H2) as (Hi & Hw1 & Hw2).
  rewrite get_put_block by done. cbn [negb] in Hi. rewrite Hi. by apply put_get_block.
Qed.

(** So does 3DES, whose three keys are used in the opposite order. *)
Theorem des3_roundtrip key b : is_block b → des3_decrypt (des3_encrypt b (des3_key_setup key)) (des3_key_setup key) = b.
Proof.
  intros Hb. unfold des3_decrypt, des3_encrypt, des3_key_setup, des3_words. cbn [des3_ek des3_dk].
  destruct (get_block_u32 b) as [H1 H2]; [apply Hb|].
  destruct (deskey_inverse key false _ H1 H2) as (E1 & H3 & H4).
  destruct (deskey_inverse (drop 8 key) true _ H3 H4) as (E2 & H5 & H6).
  destruct (deskey_inverse (drop 16 key) false _ H5 H6) as (E3 & H7 & H8).
  rewrite get_put_block by done. cbn [negb] in *. rewrite E3, E2, E1. by apply put_get_block.
Qed.

(** The encryption with a key of seven bytes is one with the key with parity bits, whose
    56 other bits are the key. *)
Lemma des_encrypt_eq clear key : des_encrypt clear key = des_block_encrypt clear (des_key_setup (des_parity key)).1.
Proof. done. Qed.
Lemma des_encrypt_ok clear key : is_block (des_encrypt clear key).
Proof. apply put_block_ok. Qed.
