(* ===== verification/MsFuncs.v ===== *)
(** * Functions of MS-CHAPv2 (src/src/crypto/ms_funcs.c; hexstr2bin of src/src/utils/common.c)

    Passwords are UTF-8 byte strings.  [mem] stands for the uninitialised memory of the
    hash contexts, [junk] for that of the buffer on the stack; results of -1 are [None].
    The hash functions of this build do not fail. *)

From Stdlib Require Import String.
From S2P Require Import Prelude Merkle Md4 Sha1 Rc4 EapCommon Des.

(** ** Operations *)

Definition put_le16 (buf : list Z) (j : nat) (z : Z) : run (list Z) :=
  if (j + 2 <=? length buf)%nat then Ret (splice buf j (le_bytes 2 (u16 z))) else UB OutOfBounds.

(** The loop from [i] and [j]; the result is the buffer and the number of words.  The last
    case is the three-byte encoding: its test of [i] never holds, and [j] stays. *)
Fixpoint utf8_loop (fuel : nat) (s : list Z) (size i j : nat) (buf : list Z) : run (option (list Z * nat)) :=
  match fuel with
  | O => OutOfFuel
  | S fuel =>
      if negb (i <? length s)%nat then Ret (Some (buf, j / 2)%nat)
      else
        c ← rd s i;
        if (size <=? j)%nat then Ret None
        else if c <=? 0x7f then
          buf ← put_le16 buf j c; utf8_loop fuel s size (i + 1) (j + 2) buf
        else if (i =? length s - 1)%nat || (size - 1 <=? j)%nat then Ret None
        else
          c2 ← rd s (i + 1);
          let i := (i + 1)%nat in
          if Z.land c 0xe0 =? 0xc0 then
            buf ← put_le16 buf j (Z.lor (Z.shiftl (Z.land c 0x1f) 6) (Z.land c2 0x3f));
            utf8_loop fuel s size (i + 1) (j + 2) buf
          else if (i =? length s)%nat || (size - 1 <=? j)%nat then Ret None
          else
            c3 ← rd s (i + 1);
            let i := (i + 1)%nat in
            buf ← put_le16 buf j (Z.lor (Z.lor (Z.shiftl (Z.land c 0xf) 12) (Z.shiftl (Z.land c2 0x3f) 6)) (Z.land c3 0x3f));
            utf8_loop fuel s size (i + 1) j buf
  end.
Definition utf8_to_ucs2 (s buf : list Z) (size : nat) : run (option (list Z * nat)) :=
  utf8_loop (S (List.length s)) s size 0 0 buf.

Definition magic_signing : list Z := bytes_of "Magic server to client signing constant".
Definition magic_pad : list Z := bytes_of "Pad to make it do more than one iteration".
Definition magic_master : list Z := bytes_of "This is the MPPE Master Key".
Definition magic_send : list Z := bytes_of "On the client side, this is the send key; on the server side, it is the receive key.".
Definition magic_receive : list Z := bytes_of "On the client side, this is the receive key; on the server side, it is the send key.".
Definition shs_pad1 : list Z := repeat 0 40.
Definition shs_pad2 : list Z := repeat 0xf2 40.
Definition PWBLOCK_LEN : nat := 516.

Section ms_funcs.
Context (mem junk : list Z).

Definition challenge_hash (peer_challenge auth_challenge username : list Z) : list Z :=
  take 8 (sha1_vector mem [peer_challenge; auth_challenge; username]).

Definition nt_password_hash (password : list Z) : run (option (list Z)) :=
  o ← utf8_to_ucs2 password junk 512;
  match o with
  | None => Ret None
  | Some (buf, len) => d ← rdn buf 0 (len * 2); Ret (Some (md4_vector mem [d]))
  end.
Definition hash_nt_password_hash (password_hash : list Z) : list Z := md4_vector mem [password_hash].

(** Of the third key only two bytes are left. *)
Definition challenge_response (challenge password_hash : list Z) : list Z :=
  let zpwd := [password_hash !!! 14%nat; password_hash !!! 15%nat] ++ repeat 0 5 in
  des_encrypt challenge password_hash ++ des_encrypt challenge (drop 7 password_hash) ++ des_encrypt challenge zpwd.

Definition generate_nt_response (auth_challenge peer_challenge username password : list Z) : run (option (list Z)) :=
  let challenge := challenge_hash peer_challenge auth_challenge username in
  o ← nt_password_hash password;
  Ret (option_map (challenge_response challenge) o).
Definition generate_nt_response_pwhash (auth_challenge peer_challenge username password_hash : list Z) : list Z :=
  challenge_response (challenge_hash peer_challenge auth_challenge username) password_hash.

Definition generate_authenticator_response_pwhash (password_hash peer_challenge auth_challenge username nt_response : list Z) : list Z :=
  let response := sha1_vector mem [hash_nt_password_hash password_hash; nt_response; magic_signing] in
  sha1_vector mem [response; challenge_hash peer_challenge auth_challenge username; magic_pad].
Definition generate_authenticator_response (password peer_challenge auth_challenge username nt_response : list Z)
    : run (option (list Z)) :=
  o ← nt_password_hash password;
  Ret (option_map (λ h, generate_authenticator_response_pwhash h peer_challenge auth_challenge username nt_response) o).

Definition nt_challenge_response (challenge password : list Z) : run (option (list Z)) :=
  o ← nt_password_hash password; Ret (option_map (challenge_response challenge) o).

Definition get_master_key (password_hash_hash nt_response : list Z) : list Z :=
  take 16 (sha1_vector mem [password_hash_hash; nt_response; magic_master]).
Definition get_asymetric_start_key (master_key : list Z) (session_key_len : nat) (is_send is_server : bool) : list Z :=
  let magic :=
    if is_send then if is_server then magic_receive else magic_send
    else if is_server then magic_send else magic_receive in
  take (session_key_len `min` 20) (sha1_vector mem [master_key; shs_pad1; magic; shs_pad2]).

(** [random] is what [os_get_random] gives, as many bytes as asked for. *)
Definition encrypt_pw_block_with_password_hash (random : option (list Z)) (password password_hash : list Z) : run (option (list Z)) :=
  o ← utf8_to_ucs2 password (repeat 0 PWBLOCK_LEN) 512;
  match o with
  | None => Ret None
  | Some (pw_block, ucs2_len) =>
      if (256 <? ucs2_len)%nat then Ret None
      else
        let offset := ((256 - ucs2_len) * 2)%nat in
        let filled :=
          if (offset =? 0)%nat then Some pw_block
          else
            let pw_block := splice pw_block offset (take (ucs2_len * 2) pw_block) in
            match random with
            | None => None
            | Some r => Some (splice pw_block 0 (resize offset 0 r))
            end in
        match filled with
        | None => Ret None
        | Some pw_block =>
            pw_block ← put_le16 pw_block 512 (Z.of_nat (List.length password) * 2);
            enc ← rc4_skip (take 16 password_hash) 0 pw_block;
            Ret (Some enc)
        end
  end.

Definition new_password_encrypted_with_old_nt_password_hash (random : option (list Z)) (new_password old_password : list Z)
    : run (option (list Z)) :=
  o ← nt_password_hash old_password;
  match o with None => Ret None | Some h => encrypt_pw_block_with_password_hash random new_password h end.

Definition nt_password_hash_encrypted_with_block (password_hash block : list Z) : list Z :=
  des_encrypt password_hash block ++ des_encrypt (drop 8 password_hash) (drop 7 block).

Definition old_nt_password_hash_encrypted_with_new_nt_password_hash (new_password old_password : list Z) : run (option (list Z)) :=
  o ← nt_password_hash old_password;
  match o with
  | None => Ret None
  | Some old =>
      n ← nt_password_hash new_password;
      Ret (option_map (nt_password_hash_encrypted_with_block old) n)
  end.
End ms_funcs.

(** ** Hexadecimal text *)

Definition hex2num (c : Z) : Z :=
  if (48 <=? c) && (c <=? 57) then c - 48
  else if (97 <=? c) && (c <=? 102) then c - 97 + 10
  else if (65 <=? c) && (c <=? 70) then c - 65 + 10
  else -1.
Definition hex2byte (buf : list Z) (pos : nat) : run Z :=
  c ← rd buf pos;
  let a := hex2num c in
  if a <? 0 then Ret (-1)
  else
    c ← rd buf (pos + 1);
    let b := hex2num c in
    if b <? 0 then Ret (-1) else Ret (Z.lor (Z.shiftl a 4) b).
(** The bytes written, and whether all were. *)
Fixpoint hexstr2bin (buf : list Z) (pos len : nat) : run (list Z * bool) :=
  match len with
  | O => Ret ([], true)
  | S len =>
      a ← hex2byte buf pos;
      if a <? 0 then Ret ([], false)
      else '(l, ok) ← hexstr2bin buf (pos + 2) len; Ret (a :: l, ok)
  end.

(** The example of RFC 2759, section 9.2. *)
Module Rfc2759.
Definition user : list Z := bytes_of "User".
Definition pass : list Z := bytes_of "clientPass".
Definition auth_challenge : list Z :=
  [0x5b; 0x5d; 0x7c; 0x7d; 0x7b; 0x3f; 0x2f; 0x3e; 0x3c; 0x2c; 0x60; 0x21; 0x32; 0x26; 0x26; 0x28].
Definition peer_challenge : list Z :=
  [0x21; 0x40; 0x23; 0x24; 0x25; 0x5e; 0x26; 0x2a; 0x28; 0x29; 0x5f; 0x2b; 0x3a; 0x33; 0x7c; 0x7e].
Definition nt_response : list Z :=
  [0x82; 0x30; 0x9e; 0xcd; 0x8d; 0x70; 0x8b; 0x5e; 0xa0; 0x8f; 0xaa; 0x39; 0x81; 0xcd; 0x83; 0x54; 0x42; 0x33; 0x11; 0x4a;
   0x3d; 0x85; 0xd6; 0xdf].

Example rfc2759_challenge : challenge_hash (repeat 0 64) peer_challenge auth_challenge user = [0xd0; 0x2e; 0x43; 0x86; 0xbc; 0xe9; 0x12; 0x26].
Proof. vm_compute. reflexivity. Qed.
Example rfc2759_password_hash :
  nt_password_hash (repeat 0 64) (repeat 7 512) pass =
  Ret (Some [0x44; 0xeb; 0xba; 0x8d; 0x53; 0x12; 0xb8; 0xd6; 0x11; 0x47; 0x44; 0x11; 0xf5; 0x69; 0x89; 0xae]).
Proof. vm_compute. reflexivity. Qed.
Example rfc2759_nt_response :
  generate_nt_response (repeat 0 64) (repeat 7 512) auth_challenge peer_challenge user pass = Ret (Some nt_response).
Proof. vm_compute. reflexivity. Qed.
Example rfc2759_authenticator :
  generate_authenticator_response (repeat 0 64) (repeat 7 512) pass peer_challenge auth_challenge user nt_response =
  Ret (Some [0x40; 0x7a; 0x55; 0x89; 0x11; 0x5f; 0xd0; 0xd6; 0x20; 0x9f; 0x51; 0x0f; 0xe9; 0xc0; 0x45; 0x66; 0x93; 0x2c; 0xda; 0x56]).
Proof. vm_compute. reflexivity. Qed.
End Rfc2759.

(** ** UTF-8 *)

(** No character of three bytes is cut off at the end. *)
Fixpoint utf8_whole (s : list Z) : bool :=
  match s with
  | [] => true
  | c :: s =>
      if c <=? 0x7f then utf8_whole s
      else match s with
           | [] => true
           | c2 :: s =>
               if Z.land c 0xe0 =? 0xc0 then utf8_whole s
               else match s with [] => false | c3 :: s => utf8_whole s end
           end
  end.

(** The encoding of a character below [2^11]. *)
Definition utf8_char (n : Z) : list Z := if n <? 0x80 then [n] else [Z.lor 0xc0 (Z.shiftr n 6); Z.lor 0x80 (Z.land n 0x3f)].
Definition utf8 (ns : list Z) : list Z := concat (map utf8_char ns).
Definition ucs2 (ns : list Z) : list Z := concat (map (le_bytes 2) ns).

Lemma drop_cons {A} (s : list A) i c r : drop i s = c :: r → s !! i = Some c ∧ drop (i + 1) s = r ∧ length s = (i + S (length r))%nat.
Proof.
  intros H. split_and!.
  - assert (drop i s !! 0%nat = Some c) as H0 by (by rewrite H). by rewrite lookup_drop, Nat.add_0_r in H0.
  - rewrite <-drop_drop, H. done.
  - assert (length (drop i s) = S (length r)) as Hl by (by rewrite H). rewrite length_drop in Hl. lia.
Qed.

Lemma put_le16_ok buf j z : (j + 2 ≤ length buf)%nat → put_le16 buf j z = Ret (splice buf j (le_bytes 2 (u16 z))).
Proof. intros H. unfold put_le16. by rewrite (proj2 (Nat.leb_le _ _) H). Qed.
Lemma length_put buf j z : (j + 2 ≤ length buf)%nat → length (splice buf j (le_bytes 2 z)) = length buf.
Proof. intros H. rewrite length_splice by (by rewrite length_le_bytes). done. Qed.

(** The conversion of a password stays in its buffers, and returns. *)
Lemma utf8_loop_total fuel s i k buf :
  utf8_whole (drop i s) = true → (length s - i < fuel)%nat → (i ≤ length s)%nat → (k ≤ 256)%nat → (512 ≤ length buf)%nat →
  ∃ o, utf8_loop fuel s 512 i (2 * k) buf = Ret o ∧ ∀ b n, o = Some (b, n) → length b = length buf ∧ (n ≤ 256)%nat.
Proof.
  revert i k buf. induction fuel as [|fuel IH]; intros i k buf Hw Hf Hi Hk Hb; [lia|]. cbn [utf8_loop].
  destruct (drop i s) as [|c r] eqn:Hd.
  { assert (length s - i = 0)%nat as He by (rewrite <-length_drop, Hd; done). rewrite (proj2 (Nat.ltb_ge _ _)) by lia.
    eexists. split; [done|]. intros b n Ho. assert (b = buf ∧ n = (2 * k) / 2)%nat as [-> ->] by (split; congruence).
    split; [done|]. apply Nat.Div0.div_le_upper_bound. lia. }
  apply drop_cons in Hd as (Hc & Hd & Hl). rewrite (proj2 (Nat.ltb_lt _ _)) by lia. rewrite (rd_lookup s i c Hc), run_bind_l.
  cbn [negb]. destruct (Nat.leb_spec 512 (2 * k)) as [|Hj]; [by eexists|].
  assert (∀ i' z, utf8_whole (drop i' s) = true → (i < i' ≤ length s)%nat →
    ∃ o, (buf ← put_le16 buf (2 * k) z; utf8_loop fuel s 512 i' (2 * k + 2) buf) = Ret o ∧
      ∀ b n, o = Some (b, n) → length b = length buf ∧ (n ≤ 256)%nat) as Hgo.
  { intros i' z Hw' Hi'. rewrite put_le16_ok, run_bind_l by lia. replace (2 * k + 2)%nat with (2 * (k + 1))%nat by lia.
    destruct (IH i' (k + 1)%nat (splice buf (2 * k) (le_bytes 2 (u16 z)))) as (o & -> & Ho); try lia; [done|by rewrite length_put by lia|].
    exists o. split; [done|]. rewrite length_put in Ho by lia. exact Ho. }
  cbn [utf8_whole] in Hw. destruct (c <=? 0x7f) eqn:Ec; [apply Hgo; [by rewrite Hd|lia]|].
  destruct r as [|c2 r]; [rewrite (proj2 (Nat.eqb_eq i _)) by (cbn in Hl; lia); by eexists|].
  destruct ((i =? length s - 1)%nat || _); [by eexists|]. apply drop_cons in Hd as (Hc2 & Hd & Hl2).
  rewrite (rd_lookup s _ c2 Hc2), run_bind_l. cbv zeta. destruct (Z.land c 0xe0 =? 0xc0); [apply Hgo; [by rewrite Hd|lia]|].
  destruct r as [|c3 r]; [done|]. destruct ((i + 1 =? length s)%nat || _); [by eexists|]. apply drop_cons in Hd as (Hc3 & Hd & Hl3).
  rewrite (rd_lookup s _ c3 Hc3), run_bind_l, put_le16_ok, run_bind_l by lia.
  destruct (IH (i + 1 + 1 + 1)%nat k (splice buf (2 * k) (le_bytes 2 (u16 (Z.lor (Z.lor (Z.shiftl (Z.land c 0xf) 12) (Z.shiftl (Z.land c2 0x3f) 6)) (Z.land c3 0x3f))))))
    as (o & -> & Ho); try lia; [by rewrite Hd|by rewrite length_put by lia|]. exists o. split; [done|].
  rewrite length_put in Ho by lia. exact Ho.
Qed.
Lemma utf8_total s buf :
  utf8_whole s = true → (512 ≤ length buf)%nat →
  ∃ o, utf8_to_ucs2 s buf 512 = Ret o ∧ ∀ b n, o = Some (b, n) → length b = length buf ∧ (n ≤ 256)%nat.
Proof. intros Hw Hb. apply (utf8_loop_total _ s 0 0 buf); [done|lia..]. Qed.

(** The characters of one and of two bytes. *)
Lemma utf8_two n : 0x80 ≤ n < 0x800 →
  0x7f < Z.lor 0xc0 (Z.shiftr n 6) ∧ Z.land (Z.lor 0xc0 (Z.shiftr n 6)) 0xe0 = 0xc0 ∧
  Z.lor (Z.shiftl (Z.land (Z.lor 0xc0 (Z.shiftr n 6)) 0x1f) 6) (Z.land (Z.lor 0x80 (Z.land n 0x3f)) 0x3f) = n.
Proof.
  intros Hn.
  assert (Forall (λ n : Z, 0x7f < Z.lor 0xc0 (Z.shiftr n 6) ∧ Z.land (Z.lor 0xc0 (Z.shiftr n 6)) 0xe0 = 0xc0 ∧
    Z.lor (Z.shiftl (Z.land (Z.lor 0xc0 (Z.shiftr n 6)) 0x1f) 6) (Z.land (Z.lor 0x80 (Z.land n 0x3f)) 0x3f) = n)
    (Z.of_nat <$> seq 128 1920)) as H by (apply (bool_decide_unpack _); by vm_compute).
  rewrite Forall_forall in H. apply H. apply list_elem_of_fmap. exists (Z.to_nat n). split; [lia|]. apply elem_of_seq. lia.
Qed.

Lemma length_ucs2 ns : length (ucs2 ns) = (2 * length ns)%nat.
Proof. unfold ucs2. induction ns as [|n ns IH]; [done|]. cbn [map concat length]. rewrite length_app, IH, length_le_bytes. lia. Qed.
Lemma length_utf8 ns : (length ns ≤ length (utf8 ns))%nat.
Proof.
  unfold utf8. induction ns as [|n ns IH]; [done|]. cbn [map concat length]. rewrite length_app. unfold utf8_char at 1.
  destruct (n <? 0x80); cbn [length]; lia.
Qed.

(** Behind the words written so far. *)
Lemma utf8_loop_decodes fuel s i rest done ns :
  drop i s = utf8 ns → Forall (λ n, 0 ≤ n < 0x800) ns → (length ns < fuel)%nat → (i ≤ length s)%nat →
  (2 * length done + 2 * length ns ≤ 512)%nat → (512 ≤ 2 * length done + length rest)%nat →
  utf8_loop fuel s 512 i (2 * length done) (ucs2 done ++ rest) =
  Ret (Some (ucs2 (done ++ ns) ++ drop (2 * length ns) rest, (length done + length ns)%nat)).
Proof.
  revert i rest done ns. induction fuel as [|fuel IH]; intros i rest dn ns Hd Hn Hf Hi Hk Hb; [lia|]. cbn [utf8_loop].
  destruct ns as [|n ns].
  { assert (length s - i = 0)%nat as He by (rewrite <-length_drop, Hd; done). rewrite (proj2 (Nat.ltb_ge _ _)) by lia.
    rewrite Nat.add_0_r, app_nil_r, drop_0. do 3 f_equal. rewrite Nat.mul_comm. by apply Nat.div_mul. }
  apply Forall_cons in Hn as [Hn Hns]. cbn [length] in Hf, Hk.
  assert (∀ i', drop i' s = utf8 ns → (i' ≤ length s)%nat →
    (buf ← put_le16 (ucs2 dn ++ rest) (2 * length dn) n; utf8_loop fuel s 512 i' (2 * length dn + 2) buf) =
      Ret (Some (ucs2 (dn ++ n :: ns) ++ drop (2 * S (length ns)) rest, (length dn + S (length ns))%nat))) as Hgo.
  { intros i' Hd' Hi'. rewrite put_le16_ok, run_bind_l by (rewrite length_app, length_ucs2; lia).
    rewrite u16_small by (unfold is_u16; lia). rewrite splice_app, length_le_bytes by apply length_ucs2.
    specialize (IH i' (drop 2 rest) (dn ++ [n]) ns Hd' Hns). rewrite !length_app in IH. cbn [length] in IH.
    replace (ucs2 (dn ++ [n])) with (ucs2 dn ++ le_bytes 2 n) in IH
      by (unfold ucs2; rewrite map_app, concat_app; cbn [map concat]; by rewrite app_nil_r).
    rewrite <-!app_assoc, drop_drop, length_drop in IH. cbn [app] in IH.
    replace (2 * length dn + 2)%nat with (2 * (length dn + 1))%nat by lia. rewrite IH by lia.
    do 3 f_equal; [f_equal; f_equal; lia|lia]. }
  unfold utf8 in Hd. cbn [map concat] in Hd. unfold utf8_char in Hd at 1. destruct (Z.ltb_spec n 0x80) as [Hlt|Hge]; cbn [app] in Hd.
  - apply drop_cons in Hd as (Hc & Hd & Hl). rewrite (proj2 (Nat.ltb_lt _ _)) by lia. rewrite (rd_lookup s i n Hc), run_bind_l.
    cbn [negb]. rewrite (proj2 (Nat.leb_gt _ _)) by lia. rewrite (proj2 (Z.leb_le _ _)) by lia. apply Hgo; [done|lia].
  - destruct (utf8_two n) as (H1 & H2 & H3); [lia|]. apply drop_cons in Hd as (Hc & Hd & Hl). cbn [length] in Hl.
    apply drop_cons in Hd as (Hc2 & Hd & Hl2). rewrite (proj2 (Nat.ltb_lt _ _)) by lia. rewrite (rd_lookup s i _ Hc), run_bind_l.
    cbn [negb]. rewrite (proj2 (Nat.leb_gt _ _)) by lia. rewrite (proj2 (Z.leb_gt _ _)) by lia.
    rewrite (proj2 (Nat.eqb_neq i _)) by lia. rewrite (proj2 (Nat.leb_gt (512 - 1) _)) by lia. cbn [orb].
    rewrite (rd_lookup s _ _ Hc2), run_bind_l. cbv zeta. rewrite H2, Z.eqb_refl, H3. apply Hgo; [done|lia].
Qed.

(** A password of at most 256 characters below [2^11] is converted to its UCS-2 encoding. *)
Lemma utf8_decodes ns buf :
  Forall (λ n, 0 ≤ n < 0x800) ns → (length ns ≤ 256)%nat → (512 ≤ length buf)%nat →
  utf8_to_ucs2 (utf8 ns) buf 512 = Ret (Some (ucs2 ns ++ drop (2 * length ns) buf, length ns)).
Proof.
  intros Hn Hl Hb. pose proof (length_utf8 ns). apply (utf8_loop_decodes _ (utf8 ns) 0 buf [] ns); cbn [length]; try lia; done.
Qed.

(** The password hash is then the MD4 of that encoding (RFC 2759, 8.3). *)
Theorem nt_password_hash_correct mem junk ns :
  length mem = 64%nat → length junk = 512%nat → Forall (λ n, 0 ≤ n < 0x800) ns → (length ns ≤ 256)%nat →
  nt_password_hash mem junk (utf8 ns) = Ret (Some (md4_ref (ucs2 ns))).
Proof.
  intros Hm Hj Hn Hl. unfold nt_password_hash. rewrite utf8_decodes by (done || lia).
  rewrite run_bind_l, rdn_ok, run_bind_l by (rewrite length_app, length_drop, length_ucs2; lia).
  rewrite drop_0, take_app_length' by (rewrite length_ucs2; lia).
  rewrite md4_vector_correct by done. cbn [concat]. by rewrite app_nil_r.
Qed.

(** Characters of three bytes get lost: a password that consists of one has the hash of
    the empty password. *)
Example euro_is_empty : nt_password_hash (repeat 0 64) (repeat 7 512) [0xe2; 0x82; 0xac] = nt_password_hash (repeat 0 64) (repeat 7 512) [].
Proof. vm_compute. reflexivity. Qed.
(** One that is cut off is read past the end. *)
Example utf8_overread : utf8_to_ucs2 [0xe2; 0x82] (repeat 0 512) 512 = UB OutOfBounds.
Proof. reflexivity. Qed.

(** ** The encrypted new password *)

(** What the server reads from a decrypted block: the length in its last four bytes, and
    as many bytes before them. *)
Definition pw_block_read (b : list Z) : list Z :=
  let len := Z.to_nat (le_val (take 4 (drop 512 b))) in take len (drop (512 - len) b).

Lemma utf8_ascii ns : Forall (λ n, 0 ≤ n < 0x80) ns → utf8 ns = ns.
Proof.
  unfold utf8. induction 1 as [|n ns Hn _ IH]; [done|]. cbn [map concat]. rewrite IH. unfold utf8_char.
  by rewrite (proj2 (Z.ltb_lt _ _)) by lia.
Qed.
Lemma resize_ok n r : bytes_ok r → bytes_ok (resize n 0 r).
Proof. intros Hr. apply Forall_resize; [by vm_compute|done]. Qed.

Lemma ucs2_ok ns : bytes_ok (ucs2 ns).
Proof. unfold ucs2. apply Forall_concat, Forall_map, Forall_true. intros n. apply le_bytes_ok. Qed.

(** The layout of the block before encryption. *)
Lemma pw_block_layout (u z r : list Z) n :
  length u = (n * 2)%nat → length z = (516 - n * 2)%nat → (n ≤ 256)%nat →
  (if ((256 - n) * 2 =? 0)%nat then Some (u ++ z)
   else Some (splice (splice (u ++ z) ((256 - n) * 2) (take (n * 2) (u ++ z))) 0 (resize ((256 - n) * 2) 0 r))) =
  Some (resize ((256 - n) * 2) 0 r ++ u ++ drop (512 - n * 2) z).
Proof.
  intros Hu Hz Hn. rewrite (take_app_length' u) by done. destruct (Nat.eqb_spec ((256 - n) * 2) 0) as [H0|H0].
  - rewrite H0. replace (512 - n * 2)%nat with 0%nat by lia. by destruct r.
  - f_equal. set (k := ((256 - n) * 2)%nat) in *. unfold splice at 1. rewrite take_0, app_nil_l, length_resize, Nat.add_0_l. f_equal.
    unfold splice. rewrite drop_app_length' by (rewrite length_take, length_app; lia). f_equal.
    rewrite drop_app_ge by lia. f_equal. lia.
Qed.

(** For a new password of at most 256 ASCII characters the server reads its UCS-2
    encoding. *)
Theorem pw_block_roundtrip random password hash :
  Forall (λ n, 0 ≤ n < 0x80) password → (length password ≤ 256)%nat → bytes_ok random → length hash = 16%nat →
  ∃ enc b, encrypt_pw_block_with_password_hash (Some random) password hash = Ret (Some enc) ∧ length enc = PWBLOCK_LEN ∧
    rc4_skip hash 0 enc = Ret b ∧ pw_block_read b = ucs2 password.
Proof.
  intros Hp Hl Hr Hh. unfold encrypt_pw_block_with_password_hash.
  assert (Forall (λ n, 0 ≤ n < 0x800) password) as Hp' by (eapply Forall_impl; [exact Hp|]; cbn; lia).
  pose proof (utf8_decodes password (repeat 0 PWBLOCK_LEN) Hp' Hl) as Hb. rewrite utf8_ascii in Hb by done.
  rewrite Hb, run_bind_l by (by rewrite repeat_length; vm_compute; lia). clear Hb Hp Hp'.
  rewrite (proj2 (Nat.ltb_ge _ _)) by lia. cbv zeta.
  set (n := length password) in *. assert (length (ucs2 password) = (n * 2)%nat) as Hu by (rewrite length_ucs2; fold n; lia).
  pose proof (ucs2_ok password) as Huok. set (u := ucs2 password) in *. clearbody u.
  assert (drop (2 * n) (repeat 0 PWBLOCK_LEN) = repeat 0 (516 - n * 2)) as ->.
  { change PWBLOCK_LEN with 516%nat. replace 516%nat with (2 * n + (516 - n * 2))%nat at 1 by lia. rewrite repeat_app.
    by rewrite drop_app_length' by (by rewrite repeat_length). }
  rewrite pw_block_layout by (rewrite ?repeat_length; done || lia).
  assert (drop (512 - n * 2) (repeat 0 (516 - n * 2)) = repeat 0 4) as ->.
  { replace (516 - n * 2)%nat with (512 - n * 2 + 4)%nat by lia. rewrite repeat_app. by rewrite drop_app_length' by (by rewrite repeat_length). }
  set (head := resize ((256 - n) * 2) 0 random ++ u).
  assert (length head = 512%nat) as Hh5 by (unfold head; rewrite length_app, length_resize; lia).
  assert (bytes_ok head) as Hhok by (apply bytes_ok_app; split; [by apply resize_ok|done]).
  rewrite app_assoc. fold head. rewrite put_le16_ok, run_bind_l by (rewrite length_app, Hh5; cbn; lia).
  rewrite u16_small by (unfold is_u16; lia). rewrite splice_app by done. rewrite length_le_bytes. cbn [repeat drop].
  rewrite take_ge by lia. destruct (rc4_skip_roundtrip hash 0 (head ++ le_bytes 2 (Z.of_nat n * 2) ++ [0; 0])) as (enc & He & Hle & _ & Hd).
  { by destruct hash. }
  { apply bytes_ok_app. split; [done|]. apply bytes_ok_app. split; [apply le_bytes_ok|]. by apply (bool_decide_unpack _). }
  rewrite He, run_bind_l. exists enc. eexists. split; [done|]. split.
  { rewrite Hle, !length_app, Hh5, length_le_bytes. done. }
  split; [exact Hd|]. unfold pw_block_read. rewrite (drop_app_length' head) by done.
  assert (le_val (take 4 (le_bytes 2 (Z.of_nat n * 2) ++ [0; 0])) = Z.of_nat n * 2) as ->.
  { pose proof (le_val_bytes 2 (Z.of_nat n * 2)) as H. rewrite Z.mod_small in H by (cbn; lia).
    change (take 4 (le_bytes 2 (Z.of_nat n * 2) ++ [0; 0])) with (le_bytes 2 (Z.of_nat n * 2) ++ [0; 0]).
    cbn [le_bytes app le_val] in *. lia. }
  replace (Z.to_nat (Z.of_nat n * 2)) with (n * 2)%nat by lia. unfold head. rewrite <-app_assoc.
  rewrite drop_app_length' by (rewrite length_resize; lia). by rewrite take_app_length' by done.
Qed.

(** The length is the one of the UTF-8 encoding: of another password the server reads random
    bytes too. *)
Example pw_block_umlaut :
  match encrypt_pw_block_with_password_hash (Some (repeat 0x55 512)) (utf8 [0xe4]) (repeat 1 16) with
  | Ret (Some enc) => b ← rc4_skip (repeat 1 16) 0 enc; Ret (Some (pw_block_read b))
  | _ => Ret None
  end = Ret (Some ([0x55; 0x55] ++ ucs2 [0xe4])).
Proof. vm_compute. reflexivity. Qed.

(** ** Hexadecimal text *)

Definition hex_digit (n : Z) : Z := if n <? 10 then 48 + n else 97 + (n - 10).
Definition hex_text (l : list Z) : list Z := concat (map (λ b, [hex_digit (Z.shiftr b 4); hex_digit (Z.land b 15)]) l).

Lemma hex_digits b : is_byte b →
  hex2num (hex_digit (Z.shiftr b 4)) = Z.shiftr b 4 ∧ hex2num (hex_digit (Z.land b 15)) = Z.land b 15 ∧
  0 ≤ Z.shiftr b 4 ∧ 0 ≤ Z.land b 15 ∧ Z.lor (Z.shiftl (Z.shiftr b 4) 4) (Z.land b 15) = b.
Proof.
  intros Hb.
  assert (Forall (λ b : Z, hex2num (hex_digit (Z.shiftr b 4)) = Z.shiftr b 4 ∧ hex2num (hex_digit (Z.land b 15)) = Z.land b 15 ∧
    0 ≤ Z.shiftr b 4 ∧ 0 ≤ Z.land b 15 ∧ Z.lor (Z.shiftl (Z.shiftr b 4) 4) (Z.land b 15) = b) (Z.of_nat <$> seq 0 256)) as H
    by (apply (bool_decide_unpack _); by vm_compute).
  rewrite Forall_forall in H. apply H. apply list_elem_of_fmap. exists (Z.to_nat b). unfold is_byte in Hb. split; [lia|].
  apply elem_of_seq. lia.
Qed.

(** Printed bytes are read back. *)
Lemma hexstr2bin_text pre l post : bytes_ok l → hexstr2bin (pre ++ hex_text l ++ post) (length pre) (length l) = Ret (l, true).
Proof.
  intros Hl. revert pre. induction Hl as [|b l Hb Hl IH]; intros pre; [done|]. cbn [length hexstr2bin].
  destruct (hex_digits b Hb) as (H1 & H2 & H3 & H4 & H5).
  unfold hex_text. cbn [map concat]. set (hi := hex_digit (Z.shiftr b 4)) in *. set (lo := hex_digit (Z.land b 15)) in *.
  cbn [app]. fold (hex_text l).
  assert (hex2byte (pre ++ hi :: lo :: hex_text l ++ post) (length pre) = Ret b) as ->.
  { unfold hex2byte. rewrite (rd_lookup _ (length pre) hi) by (by apply list_lookup_middle). rewrite run_bind_l, H1.
    rewrite (proj2 (Z.ltb_ge _ _)) by lia.
    rewrite (rd_lookup _ (length pre + 1) lo) by (rewrite lookup_app_r by lia; by rewrite Nat.add_comm, Nat.add_sub).
    rewrite run_bind_l, H2, (proj2 (Z.ltb_ge _ _)) by lia. by rewrite H5. }
  rewrite run_bind_l, (proj2 (Z.ltb_ge _ _)) by (unfold is_byte in Hb; lia).
  replace (pre ++ hi :: lo :: hex_text l ++ post) with ((pre ++ [hi; lo]) ++ hex_text l ++ post) by (by rewrite <-app_assoc).
  replace (length pre + 2)%nat with (length (pre ++ [hi; lo])) by (by rewrite length_app). by rewrite IH.
Qed.

(** The conversion stays in the text. *)
Lemma hexstr2bin_total buf pos n :
  (pos + 2 * n ≤ length buf)%nat →
  ∃ l ok, hexstr2bin buf pos n = Ret (l, ok) ∧ (length l ≤ n)%nat ∧ (ok = true → length l = n).
Proof.
  revert pos. induction n as [|n IH]; intros pos Hn; cbn [hexstr2bin]; [by exists [], true|].
  assert (∃ a, hex2byte buf pos = Ret a) as [a ->].
  { unfold hex2byte. destruct (rd_total buf pos) as [c ->]; [lia|]. rewrite run_bind_l. cbv zeta. if_branch; [by eexists|].
    destruct (rd_total buf (pos + 1)) as [d ->]; [lia|]. rewrite run_bind_l. if_branch; by eexists. }
  rewrite run_bind_l. if_branch; [exists [], false; split_and!; [done|cbn; lia|done]|].
  destruct (IH (pos + 2)%nat) as (l & ok & -> & Hl & Hok); [lia|]. rewrite run_bind_l.
  exists (a :: l), ok. cbn [length]. split_and!; [done|lia|]. intros H. by rewrite Hok.
Qed.

(** ** The conversion does not depend on the buffer *)

Lemma utf8_loop_buffer fuel s i k b1 b2 :
  (512 ≤ length b1)%nat → (512 ≤ length b2)%nat → (k ≤ 256)%nat →
  match utf8_loop fuel s 512 i (2 * k) b1, utf8_loop fuel s 512 i (2 * k) b2 with
  | Ret (Some (x1, n1)), Ret (Some (x2, n2)) => n1 = n2
  | Ret None, Ret None => True
  | UB r1, UB r2 => r1 = r2
  | OutOfFuel, OutOfFuel => True
  | _, _ => False
  end.
Proof.
  revert i k b1 b2. induction fuel as [|fuel IH]; intros i k b1 b2 Hb1 Hb2 Hk; cbn [utf8_loop]; [done|].
  if_branch; [done|]. destruct (rd s i) as [c| |] eqn:Hc; cbn [mbind run_bind]; try done.
  destruct (Nat.leb_spec 512 (2 * k)) as [|Hj]; [done|].
  assert (∀ i' z, match (b ← put_le16 b1 (2 * k) z; utf8_loop fuel s 512 i' (2 * k + 2) b),
      (b ← put_le16 b2 (2 * k) z; utf8_loop fuel s 512 i' (2 * k + 2) b) with
    | Ret (Some (x1, n1)), Ret (Some (x2, n2)) => n1 = n2 | Ret None, Ret None => True | UB r1, UB r2 => r1 = r2
    | OutOfFuel, OutOfFuel => True | _, _ => False end) as Hgo.
  { intros i' z. rewrite !put_le16_ok by lia. cbn [mbind run_bind]. replace (2 * k + 2)%nat with (2 * (k + 1))%nat by lia.
    apply IH; rewrite ?length_put by lia; lia. }
  if_branch; [apply Hgo|]. if_branch; [done|]. destruct (rd s (i + 1)) as [c2| |]; cbn [mbind run_bind]; try done.
  if_branch; [apply Hgo|]. if_branch; [done|]. destruct (rd s (i + 1 + 1)) as [c3| |]; cbn [mbind run_bind]; try done.
  rewrite !put_le16_ok by lia. cbn [mbind run_bind]. apply IH; rewrite ?length_put by lia; lia.
Qed.

Lemma utf8_loop_length fuel s i k b x n :
  (512 ≤ length b)%nat → (k ≤ 256)%nat → utf8_loop fuel s 512 i (2 * k) b = Ret (Some (x, n)) → length x = length b ∧ (n ≤ 256)%nat.
Proof.
  revert i k b. induction fuel as [|fuel IH]; intros i k b Hb Hk; cbn [utf8_loop]; [done|]. if_branch.
  { intros H. assert (x = b ∧ n = (2 * k) / 2)%nat as [-> ->] by (split; congruence).
    split; [done|]. apply Nat.Div0.div_le_upper_bound. lia. }
  intros H. apply run_bind_Ret in H as (c & _ & H). revert H. destruct (Nat.leb_spec 512 (2 * k)) as [|Hj]; [done|].
  assert (∀ i' z, (b ← put_le16 b (2 * k) z; utf8_loop fuel s 512 i' (2 * k + 2) b) = Ret (Some (x, n)) →
    length x = length b ∧ (n ≤ 256)%nat) as Hgo.
  { intros i' z. rewrite put_le16_ok, run_bind_l by lia. replace (2 * k + 2)%nat with (2 * (k + 1))%nat by lia.
    intros H. apply IH in H; [by rewrite length_put in H by lia|by rewrite length_put by lia|lia]. }
  if_branch; [apply Hgo|]. if_branch; [done|]. intros H. apply run_bind_Ret in H as (c2 & _ & H). revert H. cbv zeta.
  if_branch; [apply Hgo|]. if_branch; [done|]. intros H. apply run_bind_Ret in H as (c3 & _ & H).
  rewrite put_le16_ok, run_bind_l in H by lia.
  apply IH in H; [by rewrite length_put in H by lia|by rewrite length_put by lia|lia].
Qed.

(** A password whose block can be encrypted has a hash. *)
Lemma encrypted_has_hash mem junk random password h enc :
  length junk = 512%nat → encrypt_pw_block_with_password_hash random password h = Ret (Some enc) →
  ∃ x, nt_password_hash mem junk password = Ret (Some x).
Proof.
  intros Hj H. unfold encrypt_pw_block_with_password_hash in H. apply run_bind_Ret in H as ([[b n]|] & Hu & H); [|done]. clear H.
  unfold utf8_to_ucs2 in Hu.
  pose proof (utf8_loop_buffer (S (List.length password)) password 0 0 (repeat 0 PWBLOCK_LEN) junk) as Hb.
  specialize (Hb ltac:(by rewrite repeat_length; vm_compute; lia) ltac:(lia) ltac:(lia)). change (2 * 0)%nat with 0%nat in Hb.
  rewrite Hu in Hb. unfold nt_password_hash, utf8_to_ucs2.
  destruct (utf8_loop _ password 512 0 0 junk) as [[[x m]|]| |] eqn:Hx; try done. subst m.
  apply (utf8_loop_length _ _ 0 0 junk) in Hx as [Hx Hn]; [|lia..]. rewrite run_bind_l, rdn_ok, run_bind_l by lia. by eexists.
Qed.

(** ** Totality *)

Lemma nt_password_hash_total mem junk pw :
  List.length junk = 512%nat → utf8_whole pw = true →
  ∃ o, nt_password_hash mem junk pw = Ret o ∧ ∀ h, o = Some h → List.length h = 16%nat.
Proof.
  intros Hj Hw. unfold nt_password_hash. destruct (utf8_total pw junk Hw) as (o & -> & Ho); [lia|]. rewrite run_bind_l.
  destruct o as [[b n]|]; [|eexists; split; [done|]; by intros h [= ]]. destruct (Ho b n eq_refl) as [Hb Hn].
  rewrite rdn_ok, run_bind_l by lia. eexists. split; [done|]. intros h Hh.
  assert (h = md4_vector mem [take (n * 2) (drop 0 b)]) as -> by congruence. apply md4_vector_ok.
Qed.

Lemma length_splice_le (a : list Z) off s : (off + length s ≤ length a)%nat → length (splice a off s) = length a.
Proof. intros H. by rewrite length_splice. Qed.

Lemma length_rc4_skip key skip data e : rc4_skip key skip data = Ret e → List.length e = List.length data.
Proof.
  unfold rc4_skip. intros H. apply run_bind_Ret in H as (S & _ & H).
  assert (e = rc4_apply (rc4_discard skip (Rc4 0 0 S)) data) as -> by congruence.
  rewrite rc4_apply_stream, length_zip_with, length_rc4_stream. lia.
Qed.

Lemma encrypt_pw_block_total random pw h :
  utf8_whole pw = true → h ≠ [] →
  ∃ o, encrypt_pw_block_with_password_hash random pw h = Ret o ∧ ∀ e, o = Some e → List.length e = PWBLOCK_LEN.
Proof.
  intros Hw Hh. unfold encrypt_pw_block_with_password_hash.
  destruct (utf8_total pw (repeat 0 PWBLOCK_LEN) Hw) as (o & -> & Ho); [by rewrite repeat_length; vm_compute; lia|]. rewrite run_bind_l.
  rewrite repeat_length in Ho. destruct o as [[b n]|]; [|eexists; split; [done|]; by intros h' [= ]].
  destruct (Ho b n eq_refl) as [Hb Hn]. clear Ho. rewrite (proj2 (Nat.ltb_ge _ _)) by lia. cbv zeta.
  set (filled := if (_ =? 0)%nat then Some b else _).
  assert (∀ x, filled = Some x → List.length x = PWBLOCK_LEN) as Hf.
  { intros x. unfold filled. destruct ((256 - n) * 2 =? 0)%nat; [by intros [= <-]|]. destruct random as [r|]; [|done]. intros Hx.
    assert (x = splice (splice b ((256 - n) * 2) (take (n * 2) b)) 0 (resize ((256 - n) * 2) 0 r)) as -> by congruence.
    unfold PWBLOCK_LEN in *. assert (List.length (take (n * 2) b) = (n * 2)%nat) as Ht by (rewrite length_take; lia).
    rewrite length_splice_le; rewrite ?length_splice_le, ?length_resize; lia. }
  clearbody filled. destruct filled as [x|]; [|eexists; split; [done|]; by intros h' [= ]]. specialize (Hf x eq_refl).
  rewrite put_le16_ok, run_bind_l by (rewrite Hf; vm_compute; lia). set (y := splice _ _ _).
  assert (List.length y = PWBLOCK_LEN) as Hy by (unfold y; rewrite length_put; [done|rewrite Hf; vm_compute; lia]). clearbody y.
  destruct (rc4_skip_total (take 16 h) 0 y) as [e He]; [by destruct h|]. rewrite He, run_bind_l. eexists. split; [done|].
  intros e' He'. assert (e' = e) as -> by congruence. by rewrite (length_rc4_skip _ _ _ _ He).
Qed.
Lemma length_challenge_response c h : List.length (challenge_response c h) = 24%nat.
Proof. done. Qed.
Lemma length_hash_block h b : List.length (nt_password_hash_encrypted_with_block h b) = 16%nat.
Proof. done. Qed.
