(* ===== verification/EapMethods.v ===== *)
(** * EAP peer methods: interface and registry
      (src/src/eap_peer/eap_i.h, eap_methods.c and the configuration access of eap.c)

    A method is a record of functions over its private data [P].  What a method can
    see and change of [struct eap_sm] and of the network configuration is the record
    [method_ctx], which the state machine embeds; allocations take their outcome from
    a list of answers. *)

From Stdlib Require Import String.
From S2P Require Import Prelude EapCommon.

(** ** Configuration *)

Record eap_peer_config := EapPeerConfig {
  identity : option (list Z); anonymous_identity : option (list Z);
  password : option (list Z); new_password : option (list Z); password_nthash : bool;
  otp : option (list Z);
  private_key2 : option (list Z);
  allowed_methods : option (list (Z * Z));
  phase1 : option string; phase2 : option string;
  pcsc : bool; fragment_size : Z;
  pending_req_identity : Z; pending_req_password : Z; pending_req_pin : Z;
  pending_req_new_password : Z; pending_req_passphrase : Z; pending_req_otp : option (list Z);
  mschapv2_retry : bool
}.

#[global] Instance eta_config : Eta eap_peer_config := λ c,
  EapPeerConfig (identity c) (anonymous_identity c) (password c) (new_password c) (password_nthash c) (otp c)
    (private_key2 c) (allowed_methods c) (phase1 c) (phase2 c) (pcsc c) (fragment_size c) (pending_req_identity c)
    (pending_req_password c) (pending_req_pin c) (pending_req_new_password c) (pending_req_passphrase c)
    (pending_req_otp c) (mschapv2_retry c).

Inductive wpa_ctrl_req_type :=
| WPA_CTRL_REQ_EAP_IDENTITY | WPA_CTRL_REQ_EAP_PASSWORD | WPA_CTRL_REQ_EAP_NEW_PASSWORD
| WPA_CTRL_REQ_EAP_PIN | WPA_CTRL_REQ_EAP_OTP | WPA_CTRL_REQ_EAP_PASSPHRASE.

(** The fields of [struct eap_sm] that methods use, the current configuration, the
    answers of the allocator (an exhausted list means success) and of the random number
    generator (an exhausted list means failure), and the calls of [eap_param_needed] made
    so far. *)
Record method_ctx := MethodCtx {
  mc_config : option eap_peer_config;
  leap_done : bool; peap_done : bool; mc_ignore : bool; ClientTimeout : Z;
  mc_workaround : Z; mc_fast_reauth : bool;
  peer_challenge : option (list Z); auth_challenge : option (list Z); init_phase2 : bool;
  allocs : list bool; randoms : list (option (list Z));
  asked : list (wpa_ctrl_req_type * option (list Z))
}.

#[global] Instance eta_ctx : Eta method_ctx := λ c,
  MethodCtx (mc_config c) (leap_done c) (peap_done c) (mc_ignore c) (ClientTimeout c) (mc_workaround c)
    (mc_fast_reauth c) (peer_challenge c) (auth_challenge c) (init_phase2 c) (allocs c) (randoms c) (asked c).

Definition os_malloc (c : method_ctx) : bool * method_ctx :=
  match allocs c with
  | [] => (true, c)
  | b :: l => (b, c <| allocs := l |>)
  end.

(** The next answer, cut or filled up to [n] bytes. *)
Definition random_get_bytes (n : nat) (c : method_ctx) : option (list Z) * method_ctx :=
  match randoms c with
  | [] => (None, c)
  | r :: l => (option_map (resize n 0) r, c <| randoms := l |>)
  end.

Definition eap_get_config (c : method_ctx) : option eap_peer_config := mc_config c.
Definition eap_get_config_identity (c : method_ctx) : option (list Z) := mc_config c ≫= identity.
Definition eap_get_config_password (c : method_ctx) : option (list Z) := mc_config c ≫= password.
Definition eap_get_config_password2 (c : method_ctx) : option (list Z) * option bool :=
  match mc_config c with
  | None => (None, None)
  | Some f => (password f, Some (password_nthash f))
  end.
Definition eap_get_config_new_password (c : method_ctx) : option (list Z) := mc_config c ≫= new_password.
Definition eap_get_config_otp (c : method_ctx) : option (list Z) := mc_config c ≫= otp.
Definition eap_get_config_phase1 (c : method_ctx) : option string := mc_config c ≫= phase1.
Definition eap_get_config_phase2 (c : method_ctx) : option string := mc_config c ≫= phase2.
Definition eap_get_config_fragment_size (c : method_ctx) : Z :=
  match mc_config c with None => -1 | Some f => fragment_size f end.

Definition eap_clear_config_otp (c : method_ctx) : method_ctx :=
  match mc_config c with
  | None => c
  | Some f => c <| mc_config := Some (f <| otp := None |>) |>
  end.

(** [eap_sm_request]: the request is counted in the configuration and passed on. *)
Definition eap_sm_request (field : wpa_ctrl_req_type) (msg : option (list Z)) (c : method_ctx) : method_ctx :=
  match mc_config c with
  | None => c
  | Some f =>
      let ask txt f c := (c <| mc_config := Some f |>) <| asked := asked c ++ [(field, txt)] |> in
      match field with
      | WPA_CTRL_REQ_EAP_IDENTITY => ask None (f <| pending_req_identity := pending_req_identity f + 1 |>) c
      | WPA_CTRL_REQ_EAP_PASSWORD => ask None (f <| pending_req_password := pending_req_password f + 1 |>) c
      | WPA_CTRL_REQ_EAP_NEW_PASSWORD => ask None (f <| pending_req_new_password := pending_req_new_password f + 1 |>) c
      | WPA_CTRL_REQ_EAP_PIN => ask None (f <| pending_req_pin := pending_req_pin f + 1 |>) c
      | WPA_CTRL_REQ_EAP_PASSPHRASE => ask None (f <| pending_req_passphrase := pending_req_passphrase f + 1 |>) c
      | WPA_CTRL_REQ_EAP_OTP =>
          match msg with
          | Some m =>
              let '(ok, c) := os_malloc c in
              if ok then
                let tmp := [91] ++ m ++ [93; 0] in
                ask (Some tmp) (f <| pending_req_otp := Some tmp |>) c
              else c
          | None => match pending_req_otp f with None => c | Some t => ask (Some t) f c end
          end
      end
  end.
Definition eap_sm_request_identity := eap_sm_request WPA_CTRL_REQ_EAP_IDENTITY None.
Definition eap_sm_request_password := eap_sm_request WPA_CTRL_REQ_EAP_PASSWORD None.
Definition eap_sm_request_new_password := eap_sm_request WPA_CTRL_REQ_EAP_NEW_PASSWORD None.
Definition eap_sm_request_pin := eap_sm_request WPA_CTRL_REQ_EAP_PIN None.
Definition eap_sm_request_otp (msg : option (list Z)) := eap_sm_request WPA_CTRL_REQ_EAP_OTP msg.
Definition eap_sm_request_passphrase := eap_sm_request WPA_CTRL_REQ_EAP_PASSPHRASE None.

(** Requests still pending are sent again, in this order. *)
Definition eap_sm_resend (c : method_ctx) : method_ctx :=
  match mc_config c with
  | None => c
  | Some f =>
      let c := if pending_req_identity f =? 0 then c else eap_sm_request_identity c in
      let c := if pending_req_password f =? 0 then c else eap_sm_request_password c in
      let c := if pending_req_new_password f =? 0 then c else eap_sm_request_new_password c in
      let c := match pending_req_otp f with None => c | Some _ => eap_sm_request_otp None c end in
      let c := if pending_req_pin f =? 0 then c else eap_sm_request_pin c in
      if pending_req_passphrase f =? 0 then c else eap_sm_request_passphrase c
  end.

(** ** Methods *)

Inductive EapDecision := DECISION_FAIL | DECISION_COND_SUCC | DECISION_UNCOND_SUCC.
Inductive EapMethodState := METHOD_NONE | METHOD_INIT | METHOD_CONT | METHOD_MAY_CONT | METHOD_DONE.

#[global] Instance EapDecision_eq_dec : EqDecision EapDecision.
Proof. solve_decision. Defined.
#[global] Instance EapMethodState_eq_dec : EqDecision EapMethodState.
Proof. solve_decision. Defined.

Record eap_method_ret := MethodRet {
  ret_ignore : bool; ret_methodState : EapMethodState; ret_decision : EapDecision; ret_allowNotifications : bool
}.

#[global] Instance eta_ret : Eta eap_method_ret := λ r,
  MethodRet (ret_ignore r) (ret_methodState r) (ret_decision r) (ret_allowNotifications r).

(** [init] gets the vendor and type of [sm->m] and returns no private data when it
    fails; absent functions are [None]. *)
Record eap_method (P : Type) := EapMethod {
  vendor : Z; method : Z; name : option string; version : Z;
  init : option (Z * Z) → method_ctx → option P * method_ctx;
  deinit : P → method_ctx → method_ctx;
  process : method_ctx → P → eap_method_ret → list Z → run (option (list Z) * eap_method_ret * P * method_ctx);
  isKeyAvailable : option (P → bool);
  getKey : option (P → method_ctx → option (list Z) * method_ctx);
  has_reauth_data : option (P → bool);
  deinit_for_reauth : P → method_ctx → P * method_ctx;
  init_for_reauth : P → method_ctx → option P * method_ctx;
  get_identity : option (P → option (list Z))
}.
Arguments EapMethod {P}. Arguments vendor {P}. Arguments method {P}. Arguments name {P}. Arguments version {P}.
Arguments init {P}. Arguments deinit {P}. Arguments process {P}. Arguments isKeyAvailable {P}.
Arguments getKey {P}. Arguments has_reauth_data {P}. Arguments deinit_for_reauth {P}.
Arguments init_for_reauth {P}. Arguments get_identity {P}.

(** What the state machine relies on, with [owns m p] the data that method [m] makes
    for itself: processing a request with it ends without leaving the defined
    behaviour, and all data stays its own. *)
Class MethodOk {P} (owns : eap_method P → P → Prop) (m : eap_method P) : Prop := {
  process_returns c p r req : owns m p → ∃ x, process m c p r req = Ret x ∧ owns m x.1.2;
  init_owns a c p : (init m a c).1 = Some p → owns m p;
  deinit_for_reauth_owns p c : owns m p → owns m (deinit_for_reauth m p c).1;
  init_for_reauth_owns p c p' : owns m p → (init_for_reauth m p c).1 = Some p' → owns m p'
}.

Class MethodsOk {P} (owns : eap_method P → P → Prop) (l : list (eap_method P)) : Prop :=
  methods_ok : Forall (MethodOk owns) l.

(** ** The registry *)

Section registry.
Context {P : Type}.
Implicit Types l : list (eap_method P).

Definition EAP_PEER_METHOD_INTERFACE_VERSION : Z := 1.

Definition is_method (v t : Z) (m : eap_method P) : bool := (vendor m =? v) && (method m =? t).
Definition has_name (n : string) (m : eap_method P) : bool :=
  match name m with Some s => (s =? n)%string | None => false end.

Definition eap_peer_get_eap_method l (v t : Z) : option (eap_method P) := List.find (is_method v t) l.

(** Type and vendor. *)
Definition eap_peer_get_type l (n : string) : Z * Z :=
  match List.find (has_name n) l with
  | Some m => (method m, vendor m)
  | None => (EAP_TYPE_NONE, EAP_VENDOR_IETF)
  end.

Definition eap_get_name l (v t : Z) : option string :=
  if (v =? EAP_VENDOR_IETF) && (t =? EAP_TYPE_EXPANDED) then Some "expanded"%string
  else match List.find (is_method v t) l with Some m => name m | None => None end.

Definition eap_peer_get_methods l : list (eap_method P) * nat := (l, length l).

(** The list after registration, and the return value. *)
Definition eap_peer_method_register (m : option (eap_method P)) l : Z * list (eap_method P) :=
  match m with
  | None => (-1, l)
  | Some m =>
      match name m with
      | None => (-1, l)
      | Some n =>
          if negb (version m =? EAP_PEER_METHOD_INTERFACE_VERSION) then (-1, l)
          else if existsb (λ x, is_method (vendor m) (method m) x || has_name n x) l then (-2, l)
          else (0, l ++ [m])
      end
  end.

Definition eap_peer_unregister_methods l : list (eap_method P) := [].

(** [eap_allowed_method]: the configured list, up to its terminator, or any method. *)
Fixpoint in_methods (v t : Z) (ms : list (Z * Z)) : bool :=
  match ms with
  | [] => false
  | (v', t') :: ms =>
      if (v' =? EAP_VENDOR_IETF) && (t' =? EAP_TYPE_NONE) then false
      else ((v' =? v) && (t' =? t)) || in_methods v t ms
  end.
Definition eap_allowed_method (c : method_ctx) (v t : Z) : bool :=
  match mc_config c ≫= allowed_methods with None => true | Some ms => in_methods v t ms end.

Definition eap_sm_allowMethod l (c : method_ctx) (v t : Z) : bool :=
  eap_allowed_method c v t && bool_decide (is_Some (eap_peer_get_eap_method l v t)).

Definition eap_allowed_phase2_type (v t : Z) : bool :=
  if negb (v =? EAP_VENDOR_IETF) then false
  else negb (t =? EAP_TYPE_PEAP) && negb (t =? EAP_TYPE_TTLS) && negb (t =? EAP_TYPE_FAST).
(** Type (kept in eight bits) and vendor. *)
Definition eap_get_phase2_type l (n : string) : Z * Z :=
  let '(t, v) := eap_peer_get_type l n in
  let t := u8 t in
  if eap_allowed_phase2_type v t then (t, v) else (EAP_TYPE_NONE, EAP_VENDOR_IETF).

(** The types allowed inside a tunnel, as many as the list of methods at most. *)
Definition eap_get_phase2_types l (malloc_ok : bool) (conf : option eap_peer_config) : option (list (Z * Z)) :=
  match l with
  | [] => None
  | _ =>
      if negb malloc_ok then None
      else
        let keep m :=
          eap_allowed_phase2_type (vendor m) (method m) &&
          negb ((vendor m =? EAP_VENDOR_IETF) && (method m =? EAP_TYPE_TLS) &&
                match conf with Some f => bool_decide (private_key2 f = None) | None => false end) in
        Some (map (λ m, (vendor m, method m)) (List.filter keep l))
  end.

(** A registry built by registrations: types and names are distinct and present. *)
Definition registry_ok l : Prop :=
  Forall (λ m, is_Some (name m) ∧ version m = EAP_PEER_METHOD_INTERFACE_VERSION) l ∧
  NoDup (map (λ m, (vendor m, method m)) l) ∧ NoDup (map name l).

Lemma is_method_spec v t (m : eap_method P) : is_method v t m = true ↔ vendor m = v ∧ method m = t.
Proof. unfold is_method. rewrite andb_true_iff, !Z.eqb_eq. done. Qed.

Lemma lookup_registered l m : registry_ok l → m ∈ l → eap_peer_get_eap_method l (vendor m) (method m) = Some m.
Proof.
  intros (_ & Hnd & _) Hm. unfold eap_peer_get_eap_method. induction l as [|x l IH]; [set_solver|].
  cbn [map List.find] in *. apply NoDup_cons in Hnd as [Hx Hnd].
  destruct (is_method (vendor m) (method m) x) eqn:E.
  - apply is_method_spec in E as [E1 E2]. apply elem_of_cons in Hm as [->|Hm]; [done|].
    exfalso. apply Hx. rewrite E1, E2. apply list_elem_of_In, in_map_iff. exists m. split; [done|by apply list_elem_of_In].
  - apply elem_of_cons in Hm as [->|Hm]; [|by apply IH].
    exfalso. assert (is_method (vendor x) (method x) x = true) by (by apply is_method_spec). congruence.
Qed.

(** Registration keeps the registry well formed, and succeeds exactly on a method with
    a name, the right version, and a type and name of its own. *)
Lemma register_ok m l : registry_ok l → registry_ok (eap_peer_method_register m l).2.
Proof.
  intros Hl. unfold eap_peer_method_register. destruct m as [m|]; [|done].
  destruct (name m) as [n|] eqn:Hn; [|done]. destruct (Z.eqb_spec (version m) EAP_PEER_METHOD_INTERFACE_VERSION) as [Hv|]; [|done].
  cbn [negb]. destruct (existsb _ l) eqn:He; [done|]. cbn [snd].
  assert (Hno : ∀ x, x ∈ l → is_method (vendor m) (method m) x = false ∧ has_name n x = false).
  { intros x Hx%list_elem_of_In. apply orb_false_iff. destruct (_ || _) eqn:E; [|done].
    rewrite <-He. symmetry. apply existsb_exists. eauto. }
  destruct Hl as (H1 & H2 & H3). split_and!.
  - apply Forall_app. split; [done|]. repeat constructor; [eauto|done].
  - rewrite map_app. apply NoDup_app. split; [done|]. split; [|apply NoDup_singleton].
    intros k Hk ->%list_elem_of_singleton. apply list_elem_of_In, in_map_iff in Hk as (x & E & Hx%list_elem_of_In).
    apply Hno in Hx as [Hx _]. simplify_eq. assert (is_method (vendor m) (method m) x = true) by (apply is_method_spec; done).
    congruence.
  - rewrite map_app. apply NoDup_app. split; [done|]. split; [|apply NoDup_singleton].
    intros k Hk ->%list_elem_of_singleton. apply list_elem_of_In, in_map_iff in Hk as (x & E & Hx%list_elem_of_In).
    apply Hno in Hx as [_ Hx]. unfold has_name in Hx. rewrite E, Hn in Hx. by rewrite String.eqb_refl in Hx.
Qed.
End registry.
