(* ===== verification/EapSimple.v ===== *)
(** * EAP methods without a tunnel
      (src/src/eap_peer/eap_md5.c, eap_otp.c, eap_gtc.c, eap_vendor_test.c,
      src/src/eap_common/chap.c)

    The methods that need nothing but the configuration, as values of [eap_method]
    with a common type of private data, and their registration.  The build is one
    without TEST_PENDING_REQUEST. *)

From Stdlib Require Import String.
From S2P Require Import Prelude Merkle Md5 EapCommon EapMethods.

(** ** Data *)

Inductive vendor_test_state := VENDOR_TEST_INIT | VENDOR_TEST_CONFIRM | VENDOR_TEST_SUCCESS.

(** The constant pointer of methods without data, and the structures of the others. *)
Inductive method_data :=
| NoData
| GtcData (prefix : bool)
| VendorTestData (state : vendor_test_state) (first_try : bool).

Definition CHAP_MD5_LEN : nat := 16.
Definition EAP_VENDOR_ID : Z := 0xfffefd.
Definition EAP_VENDOR_TYPE : Z := 0xfcfbfaf9.

(** The result of a call of [process]. *)
Definition processed : Type := option (list Z) * eap_method_ret * method_data * method_ctx.

Definition ignored (r : eap_method_ret) (p : method_data) (c : method_ctx) : run processed :=
  Ret (None, r <| ret_ignore := true |>, p, c).

(** A method without the optional functions. *)
Definition plain_method (v t : Z) (n : string) init process : eap_method method_data :=
  {| vendor := v; method := t; name := Some n; version := EAP_PEER_METHOD_INTERFACE_VERSION;
     init := init; deinit := λ _ c, c; process := process; isKeyAvailable := None; getKey := None;
     has_reauth_data := None; deinit_for_reauth := λ p c, (p, c); init_for_reauth := λ p c, (Some p, c);
     get_identity := None |}.

Section methods.
Context (mem : list Z).
Implicit Types (c : method_ctx) (p : method_data) (r : eap_method_ret) (req : list Z).

(** ** MD5 *)

Definition chap_md5 (id : Z) (secret challenge : list Z) : list Z := md5_vector mem [[id]; secret; challenge].

Definition eap_md5_init (_ : option (Z * Z)) c : option method_data * method_ctx := (Some NoData, c).

Definition eap_md5_process c p r req : run processed :=
  match eap_get_config_password c with
  | None => ignored r p (eap_sm_request_password c)
  | Some password =>
      v ← eap_hdr_validate EAP_VENDOR_IETF EAP_TYPE_MD5 req;
      match v with
      | None => ignored r p c
      | Some (pos, len) =>
          if (len =? 0)%nat then ignored r p c
          else
            challenge_len ← rd req pos;
            if (challenge_len =? 0) || (Z.of_nat (len - 1) <? challenge_len) then ignored r p c
            else
              let r := MethodRet false METHOD_DONE DECISION_COND_SUCC true in
              let '(ok, c) := os_malloc c in
              i ← eap_get_id req;
              o ← eap_msg_alloc ok EAP_VENDOR_IETF EAP_TYPE_MD5 (1 + CHAP_MD5_LEN) EAP_CODE_RESPONSE i;
              match o with
              | None => Ret (None, r, p, c)
              | Some resp =>
                  resp ← wpabuf_put_u8 resp (Z.of_nat CHAP_MD5_LEN);
                  id ← eap_get_id (buf_data resp);
                  challenge ← rdn req (pos + 1) (Z.to_nat challenge_len);
                  resp ← wpabuf_put_data resp (chap_md5 id password challenge);
                  Ret (Some (buf_data resp), r, p, c)
              end
      end
  end.

Definition eap_md5 : eap_method method_data := plain_method EAP_VENDOR_IETF EAP_TYPE_MD5 "MD5" eap_md5_init eap_md5_process.

(** ** OTP *)

(** The one-time password if there is one, else the password, and which it is. *)
Definition otp_or_password c : option (list Z * bool) :=
  match eap_get_config_otp c with
  | Some o => Some (o, true)
  | None => match eap_get_config_password c with Some w => Some (w, false) | None => None end
  end.

Definition eap_otp_init (_ : option (Z * Z)) c : option method_data * method_ctx := (Some NoData, c).

Definition eap_otp_process c p r req : run processed :=
  v ← eap_hdr_validate EAP_VENDOR_IETF EAP_TYPE_OTP req;
  match v with
  | None => ignored r p c
  | Some (pos, len) =>
      match otp_or_password c with
      | None =>
          msg ← rdn req pos len;
          ignored r p (eap_sm_request_otp (Some msg) c)
      | Some (password, otp) =>
          let r := MethodRet false METHOD_DONE DECISION_COND_SUCC false in
          let '(ok, c) := os_malloc c in
          i ← eap_get_id req;
          o ← eap_msg_alloc ok EAP_VENDOR_IETF EAP_TYPE_OTP (length password) EAP_CODE_RESPONSE i;
          match o with
          | None => Ret (None, r, p, c)
          | Some resp =>
              resp ← wpabuf_put_data resp password;
              let c := if otp : bool then eap_clear_config_otp c else c in
              Ret (Some (buf_data resp), r, p, c)
          end
      end
  end.

Definition eap_otp : eap_method method_data := plain_method EAP_VENDOR_IETF EAP_TYPE_OTP "OTP" eap_otp_init eap_otp_process.

(** ** GTC *)

(** [sm] is the vendor and type of [sm->m]: inside EAP-FAST the outer method. *)
Definition eap_gtc_init (sm : option (Z * Z)) c : option method_data * method_ctx :=
  let '(ok, c) := os_malloc c in
  if ok then
    (Some (GtcData match sm with
                   | Some (v, t) => (v =? EAP_VENDOR_IETF) && (t =? EAP_TYPE_FAST)
                   | None => false
                   end), c)
  else (None, c).

Definition gtc_answer (prefix : bool) (id : Z) c p r req (pos len : nat) : run processed :=
  match otp_or_password c with
  | None =>
      msg ← rdn req pos len;
      ignored r p (eap_sm_request_otp (Some msg) c)
  | Some (password, otp) =>
      let r := MethodRet false (if prefix then METHOD_MAY_CONT else METHOD_DONE) DECISION_COND_SUCC false in
      match eap_get_config_identity c with
      | None => Ret (None, r, p, c)
      | Some identity =>
          let plen := (length password + (if prefix then 9 + length identity + 1 else 0))%nat in
          let '(ok, c) := os_malloc c in
          o ← eap_msg_alloc ok EAP_VENDOR_IETF EAP_TYPE_GTC plen EAP_CODE_RESPONSE id;
          match o with
          | None => Ret (None, r, p, c)
          | Some resp =>
              resp ← (if prefix then
                        resp ← wpabuf_put_data resp (bytes_of "RESPONSE=");
                        resp ← wpabuf_put_data resp identity;
                        wpabuf_put_u8 resp 0
                      else Ret resp);
              resp ← wpabuf_put_data resp password;
              let c := if otp : bool then eap_clear_config_otp c else c in
              Ret (Some (buf_data resp), r, p, c)
          end
      end
  end.

(** The comparison with the prefix; [None] for data that is too short. *)
Definition gtc_prefix_ok req (pos len : nat) : run bool :=
  if (len <? 10)%nat then Ret false
  else d ← rdn req pos 10; Ret (memcmp d (bytes_of "CHALLENGE=") =? 0).

Definition eap_gtc_process c p r req : run processed :=
  match p with
  | GtcData prefix =>
      v ← eap_hdr_validate EAP_VENDOR_IETF EAP_TYPE_GTC req;
      match v with
      | None => ignored r p c
      | Some (pos, len) =>
          id ← eap_get_id req;
          go ← (if prefix then gtc_prefix_ok req pos len else Ret true);
          if go : bool then gtc_answer prefix id c p r req pos len
          else
            let '(ok, c) := os_malloc c in
            o ← eap_msg_alloc ok EAP_VENDOR_IETF EAP_TYPE_GTC 0 EAP_CODE_RESPONSE id;
            Ret (option_map buf_data o, r, p, c)
      end
  | _ => UB NullDeref
  end.

Definition eap_gtc : eap_method method_data := plain_method EAP_VENDOR_IETF EAP_TYPE_GTC "GTC" eap_gtc_init eap_gtc_process.

(** ** VENDOR-TEST *)

Definition eap_vendor_test_init (_ : option (Z * Z)) c : option method_data * method_ctx :=
  let '(ok, c) := os_malloc c in
  if ok then (Some (VendorTestData VENDOR_TEST_INIT true), c) else (None, c).

Definition eap_vendor_test_process c p r req : run processed :=
  match p with
  | VendorTestData state first_try =>
      v ← eap_hdr_validate EAP_VENDOR_ID EAP_VENDOR_TYPE req;
      match v with
      | None => ignored r p c
      | Some (pos, len) =>
          if (len <? 1)%nat then ignored r p c
          else
            t ← rd req pos;
            if match state with
               | VENDOR_TEST_INIT => negb (t =? 1)
               | VENDOR_TEST_CONFIRM => negb (t =? 3)
               | VENDOR_TEST_SUCCESS => true
               end
            then ignored r p c
            else
              let r := r <| ret_ignore := false |> <| ret_allowNotifications := true |> in
              let '(ok, c) := os_malloc c in
              i ← eap_get_id req;
              o ← eap_msg_alloc ok EAP_VENDOR_ID EAP_VENDOR_TYPE 1 EAP_CODE_RESPONSE i;
              match o, state with
              | None, _ => Ret (None, r, p, c)
              | Some resp, VENDOR_TEST_INIT =>
                  resp ← wpabuf_put_u8 resp 2;
                  Ret (Some (buf_data resp), r <| ret_methodState := METHOD_CONT |> <| ret_decision := DECISION_FAIL |>,
                       VendorTestData VENDOR_TEST_CONFIRM first_try, c)
              | Some resp, _ =>
                  resp ← wpabuf_put_u8 resp 4;
                  Ret (Some (buf_data resp), r <| ret_methodState := METHOD_DONE |> <| ret_decision := DECISION_UNCOND_SUCC |>,
                       VendorTestData VENDOR_TEST_SUCCESS first_try, c)
              end
      end
  | _ => UB NullDeref
  end.

Definition eap_vendor_test_isKeyAvailable p : bool :=
  match p with VendorTestData VENDOR_TEST_SUCCESS _ => true | _ => false end.
Definition eap_vendor_test_getKey p c : option (list Z) * method_ctx :=
  match p with
  | VendorTestData VENDOR_TEST_SUCCESS _ =>
      let '(ok, c) := os_malloc c in
      (if ok then Some (repeat 0x11 32 ++ repeat 0x22 32) else None, c)
  | _ => (None, c)
  end.

Definition eap_vendor_test : eap_method method_data :=
  {| vendor := EAP_VENDOR_ID; method := EAP_VENDOR_TYPE; name := Some "VENDOR-TEST"%string;
     version := EAP_PEER_METHOD_INTERFACE_VERSION; init := eap_vendor_test_init; deinit := λ _ c, c;
     process := eap_vendor_test_process;
     isKeyAvailable := Some eap_vendor_test_isKeyAvailable; getKey := Some eap_vendor_test_getKey;
     has_reauth_data := None; deinit_for_reauth := λ p c, (p, c); init_for_reauth := λ p c, (Some p, c);
     get_identity := None |}.

(** ** Registration *)

(** The allocation of the structure and its registration. *)
Definition register_method (malloc_ok : bool) (x : eap_method method_data) (l : list (eap_method method_data))
  : Z * list (eap_method method_data) :=
  if malloc_ok then eap_peer_method_register (Some x) l else (-1, l).
Definition eap_peer_md5_register ok l := register_method ok eap_md5 l.
Definition eap_peer_otp_register ok l := register_method ok eap_otp l.
Definition eap_peer_gtc_register ok l := register_method ok eap_gtc l.
Definition eap_peer_vendor_test_register ok l := register_method ok eap_vendor_test l.

(** The methods in the order of [eap_register_methods]. *)
Definition simple_methods : list (eap_method method_data) :=
  (eap_peer_vendor_test_register true
    (eap_peer_otp_register true (eap_peer_gtc_register true (eap_peer_md5_register true []).2).2).2).2.

(** ** The methods keep to the interface *)

(** Whose data it is. *)
Definition own_data (x : eap_method method_data) p : Prop :=
  match p with
  | NoData => method x = EAP_TYPE_MD5 ∨ method x = EAP_TYPE_OTP
  | GtcData _ => method x = EAP_TYPE_GTC
  | VendorTestData _ _ => method x = EAP_VENDOR_TYPE
  end.

Lemma eap_get_id_total msg : ∃ i, eap_get_id msg = Ret i.
Proof.
  unfold eap_get_id. destruct (Nat.ltb_spec (length msg) 4); [eauto|]. destruct (rd_total msg 1) as [i ->]; [lia|]. eauto.
Qed.

(** The bytes written so far and the next ones fit. *)
Ltac fits :=
  cbn [buf_data buf_size]; unfold eap_header, CHAP_MD5_LEN in *;
  repeat rewrite ?length_app, ?length_be_put, ?length_md5_vector in *; cbn [length] in *;
  rewrite ?length_type_field; cbn; lia.

Lemma alloc_total ok v t n code i : ∃ o, eap_msg_alloc ok v t n code i = Ret o ∧
  (o = None ∨ o = Some (Wpabuf (4 + length (eap_type_field v t) + n)
                          (eap_header code i (4 + length (eap_type_field v t) + n) ++ eap_type_field v t))).
Proof. destruct ok; [rewrite eap_msg_alloc_eq|]; eauto. Qed.

Lemma get_id_header code i n rest : eap_get_id (eap_header code i n ++ rest) = Ret (u8 i).
Proof.
  unfold eap_get_id. rewrite (proj2 (Nat.ltb_ge _ _)); [reflexivity|]. rewrite length_app.
  unfold eap_header. rewrite length_app, length_be_put. cbn. lia.
Qed.

(** The response that follows a valid challenge. *)
Lemma md5_response i w challenge :
  (resp ← Ret (Wpabuf (4 + length (eap_type_field EAP_VENDOR_IETF EAP_TYPE_MD5) + (1 + CHAP_MD5_LEN))
     (eap_header EAP_CODE_RESPONSE i (4 + length (eap_type_field EAP_VENDOR_IETF EAP_TYPE_MD5) + (1 + CHAP_MD5_LEN)) ++
      eap_type_field EAP_VENDOR_IETF EAP_TYPE_MD5));
   resp ← wpabuf_put_u8 resp (Z.of_nat CHAP_MD5_LEN);
   id ← eap_get_id (buf_data resp);
   resp ← wpabuf_put_data resp (chap_md5 id w challenge);
   Ret (buf_data resp)) =
  Ret (eap_message EAP_CODE_RESPONSE i EAP_VENDOR_IETF EAP_TYPE_MD5 (16 :: chap_md5 (u8 i) w challenge)).
Proof.
  rewrite run_bind_l. unfold wpabuf_put_u8. rewrite put_ok, run_bind_l by fits. cbn [buf_data buf_size].
  rewrite <-app_assoc, get_id_header, run_bind_l. unfold chap_md5. rewrite put_ok, run_bind_l by fits.
  cbn [buf_data]. unfold eap_message. rewrite <-!app_assoc. do 2 f_equal.
  cbn [length]. by rewrite length_md5_vector.
Qed.

Lemma eap_md5_total c p r req : ∃ x, eap_md5_process c p r req = Ret x ∧ x.1.2 = p.
Proof.
  unfold eap_md5_process. destruct (eap_get_config_password c) as [w|]; [|by eexists].
  destruct (eap_hdr_validate_total EAP_VENDOR_IETF EAP_TYPE_MD5 req) as (v & -> & Hv). rewrite run_bind_l.
  destruct v as [[pos len]|]; [|by eexists]. destruct (Hv pos len eq_refl) as [Hp Hl].
  destruct (Nat.eqb_spec len 0); [by eexists|]. destruct (rd_total req pos) as [n0 ->]; [lia|]. rewrite run_bind_l.
  destruct ((n0 =? 0) || _) eqn:En; [by eexists|]. apply orb_false_iff in En as [_ En%Z.ltb_ge].
  destruct (os_malloc c) as [ok c']. destruct (eap_get_id_total req) as [i ->]. rewrite run_bind_l.
  destruct (alloc_total ok EAP_VENDOR_IETF EAP_TYPE_MD5 (1 + CHAP_MD5_LEN) EAP_CODE_RESPONSE i) as (o & -> & Ho).
  rewrite run_bind_l. destruct Ho as [->| ->]; [by eexists|].
  unfold wpabuf_put_u8. rewrite put_ok, run_bind_l by fits. cbn [buf_data].
  rewrite <-app_assoc, get_id_header, run_bind_l. rewrite rdn_ok, run_bind_l by lia. unfold chap_md5.
  rewrite put_ok, run_bind_l by fits. by eexists.
Qed.

Lemma eap_otp_total c p r req : ∃ x, eap_otp_process c p r req = Ret x ∧ x.1.2 = p.
Proof.
  unfold eap_otp_process. destruct (eap_hdr_validate_total EAP_VENDOR_IETF EAP_TYPE_OTP req) as (v & -> & Hv).
  rewrite run_bind_l. destruct v as [[pos len]|]; [|by eexists]. destruct (Hv pos len eq_refl) as [Hp Hl].
  destruct (otp_or_password c) as [[w b]|]; [|rewrite rdn_ok by lia; by eexists].
  destruct (os_malloc c) as [ok c']. destruct (eap_get_id_total req) as [i ->]. rewrite run_bind_l.
  destruct (alloc_total ok EAP_VENDOR_IETF EAP_TYPE_OTP (length w) EAP_CODE_RESPONSE i) as (o & -> & Ho).
  rewrite run_bind_l. destruct Ho as [->| ->]; [by eexists|]. rewrite put_ok, run_bind_l by fits. by eexists.
Qed.

Lemma eap_gtc_total c b r req : ∃ x, eap_gtc_process c (GtcData b) r req = Ret x ∧ x.1.2 = GtcData b.
Proof.
  unfold eap_gtc_process. destruct (eap_hdr_validate_total EAP_VENDOR_IETF EAP_TYPE_GTC req) as (v & -> & Hv).
  rewrite run_bind_l. destruct v as [[pos len]|]; [|by eexists]. destruct (Hv pos len eq_refl) as [Hp Hl].
  destruct (eap_get_id_total req) as [i ->]. rewrite run_bind_l.
  assert (∃ go, (if b then gtc_prefix_ok req pos len else Ret true) = Ret go) as [go ->].
  { destruct b; [|eauto]. unfold gtc_prefix_ok. destruct (Nat.ltb_spec len 10); [eauto|]. rewrite rdn_ok by lia. eauto. }
  rewrite run_bind_l. destruct go.
  - unfold gtc_answer. destruct (otp_or_password c) as [[w o1]|]; [|rewrite rdn_ok by lia; by eexists].
    destruct (eap_get_config_identity c) as [d|]; [|by eexists]. destruct (os_malloc c) as [ok c'].
    set (n := (length w + _)%nat). destruct (alloc_total ok EAP_VENDOR_IETF EAP_TYPE_GTC n EAP_CODE_RESPONSE i) as (o & -> & Ho).
    rewrite run_bind_l. destruct Ho as [->| ->]; [by eexists|]. subst n. destruct b.
    + rewrite put_ok, run_bind_l by fits. rewrite put_ok, run_bind_l by fits. unfold wpabuf_put_u8.
      rewrite put_ok, run_bind_l by fits. rewrite put_ok, run_bind_l by fits. by eexists.
    + rewrite run_bind_l, put_ok, run_bind_l by fits. by eexists.
  - destruct (os_malloc c) as [ok c'].
    destruct (alloc_total ok EAP_VENDOR_IETF EAP_TYPE_GTC 0 EAP_CODE_RESPONSE i) as (o & -> & _). by eexists.
Qed.

Lemma eap_vendor_test_total c st b r req :
  ∃ x, eap_vendor_test_process c (VendorTestData st b) r req = Ret x ∧ ∃ st', x.1.2 = VendorTestData st' b.
Proof.
  unfold eap_vendor_test_process.
  destruct (eap_hdr_validate_total EAP_VENDOR_ID EAP_VENDOR_TYPE req) as (v & -> & Hv).
  rewrite run_bind_l. destruct v as [[pos len]|]; [|eexists; split; [reflexivity|by eexists]]. destruct (Hv pos len eq_refl) as [Hp Hl].
  destruct (Nat.ltb_spec len 1); [eexists; split; [reflexivity|by eexists]|]. destruct (rd_total req pos) as [t ->]; [lia|]. rewrite run_bind_l.
  if_branch; [eexists; split; [reflexivity|by eexists]|]. destruct (os_malloc c) as [ok c']. destruct (eap_get_id_total req) as [i ->].
  rewrite run_bind_l.
  destruct (alloc_total ok EAP_VENDOR_ID EAP_VENDOR_TYPE 1 EAP_CODE_RESPONSE i) as (o & -> & Ho).
  rewrite run_bind_l. destruct Ho as [->| ->]; [eexists; split; [reflexivity|by eexists]|]. unfold wpabuf_put_u8.
  destruct st; (rewrite put_ok, run_bind_l by fits; eexists; split; [reflexivity|by eexists]).
Qed.

(** A method that has only [init] and [process]. *)
Lemma plain_method_ok v t n init process :
  (∀ a c p, (init a c).1 = Some p → own_data (plain_method v t n init process) p) →
  (∀ c p r req, own_data (plain_method v t n init process) p → ∃ x, process c p r req = Ret x ∧ x.1.2 = p) →
  MethodOk own_data (plain_method v t n init process).
Proof.
  intros Hi Hp. split; cbn.
  - intros c p r req H. destruct (Hp c p r req H) as (x & -> & E). exists x. by rewrite E.
  - exact Hi.
  - done.
  - by intros p c p' H [= <-].
Qed.

#[global] Instance eap_md5_ok : MethodOk own_data eap_md5.
Proof.
  apply plain_method_ok; [|intros; apply eap_md5_total]. intros a c p [= <-]. by left.
Qed.
#[global] Instance eap_otp_ok : MethodOk own_data eap_otp.
Proof.
  apply plain_method_ok; [|intros; apply eap_otp_total]. intros a c p [= <-]. by right.
Qed.
#[global] Instance eap_gtc_ok : MethodOk own_data eap_gtc.
Proof.
  apply plain_method_ok.
  - intros a c p. unfold eap_gtc_init. destruct (os_malloc c) as [[] c']; [|done]. by intros [= <-].
  - intros c p r req. destruct p; cbn; [intros [H|H]; discriminate H|intros _; apply eap_gtc_total|intros H; discriminate H].
Qed.
#[global] Instance eap_vendor_test_ok : MethodOk own_data eap_vendor_test.
Proof.
  split; cbn [eap_vendor_test process init deinit_for_reauth init_for_reauth].
  - intros c p r req. destruct p; cbn [own_data method eap_vendor_test]; [intros [H|H]; discriminate H|intros H; discriminate H|intros _].
    destruct (eap_vendor_test_total c state first_try r req) as (x & -> & st' & E). exists x. by rewrite E.
  - intros a c p. unfold eap_vendor_test_init. destruct (os_malloc c) as [[] c']; [|done]. by intros [= <-].
  - done.
  - by intros p c p' H [= <-].
Qed.

#[global] Instance simple_methods_ok : MethodsOk own_data simple_methods.
Proof.
  unfold MethodsOk. change simple_methods with [eap_md5; eap_gtc; eap_otp; eap_vendor_test].
  repeat (apply Forall_cons; split; [apply _|]). apply Forall_nil. exact I.
Qed.

(** ** What the server gets *)

(** EAP-MD5 answers a challenge of the server with the MD5 of identifier, password
    and challenge (RFC 1994, here by the reference hash of RFC 1321), whatever follows
    the challenge, and is then satisfied with a success of the server; nothing else of
    the shared state changes. *)
Theorem eap_md5_answers c p r i password challenge nm :
  length mem = 64%nat → small password → small challenge → allocs c = [] →
  eap_get_config_password c = Some password → is_byte i → (0 < length challenge < 256)%nat →
  Z.of_nat (length challenge + length nm) < 65000 →
  eap_md5_process c p r
      (eap_message EAP_CODE_REQUEST i EAP_VENDOR_IETF EAP_TYPE_MD5 (Z.of_nat (length challenge) :: challenge ++ nm)) =
    Ret (Some (eap_message EAP_CODE_RESPONSE i EAP_VENDOR_IETF EAP_TYPE_MD5
                 (16 :: md5_ref (i :: password ++ challenge))),
         MethodRet false METHOD_DONE DECISION_COND_SUCC true, p, c).
Proof.
  intros Hmem Hpw Hch Hal Hc Hi Hlen Hlt. unfold eap_md5_process. rewrite Hc.
  set (pl := Z.of_nat (length challenge) :: challenge ++ nm).
  assert (Hpl : length pl = S (length challenge + length nm)) by (unfold pl; cbn; by rewrite length_app).
  rewrite legacy_validate, run_bind_l by (split || rewrite Hpl; lia || done). rewrite Hpl.
  destruct (legacy_message EAP_CODE_REQUEST i EAP_TYPE_MD5 pl) as (b0 & b1 & b2 & b3 & -> & -> & _). cbn [Nat.eqb].
  change (rd ([b0; u8 i; b2; b3; u8 EAP_TYPE_MD5] ++ pl) 5) with (Ret (Z.of_nat (length challenge))). rewrite run_bind_l.
  rewrite (proj2 (Z.eqb_neq _ 0)), (proj2 (Z.ltb_ge _ _)) by lia. cbn [orb].
  assert (Hm : os_malloc c = (true, c)) by (unfold os_malloc; by rewrite Hal). rewrite Hm.
  assert (Hid : eap_get_id ([b0; u8 i; b2; b3; u8 EAP_TYPE_MD5] ++ pl) = Ret (u8 i)) by reflexivity.
  rewrite Hid, run_bind_l, (u8_small i) by done. rewrite eap_msg_alloc_eq, run_bind_l.
  assert (Hrd : rdn ([b0; u8 i; b2; b3; u8 EAP_TYPE_MD5] ++ pl) (5 + 1) (Z.to_nat (Z.of_nat (length challenge))) = Ret challenge).
  { rewrite rdn_ok by (rewrite length_app, Hpl; cbn; lia). rewrite Nat2Z.id. f_equal.
    change (drop (5 + 1) ([b0; u8 i; b2; b3; u8 EAP_TYPE_MD5] ++ pl)) with (drop 0 (challenge ++ nm)). by rewrite drop_0, take_app_length. }
  rewrite u8_small in Hrd by done. rewrite Hrd.
  pose proof (md5_response i password challenge) as Hr. rewrite run_bind_l in Hr.
  destruct (wpabuf_put_u8 _ _) as [b| |]; try discriminate Hr. cbn [mbind run_bind] in Hr |- *.
  destruct (eap_get_id (buf_data b)) as [j| |]; try discriminate Hr. cbn [mbind run_bind] in Hr |- *.
  destruct (wpabuf_put_data _ _) as [b'| |]; try discriminate Hr. cbn [mbind run_bind] in Hr |- *. injection Hr as ->.
  rewrite u8_small by done. unfold chap_md5. rewrite md5_vector_ref; [cbn [concat app]; by rewrite app_nil_r|done|].
  repeat (apply Forall_cons; split); done.
Qed.

(** ** One-time passwords *)

Lemma otp_first c o : eap_get_config_otp c = Some o → otp_or_password c = Some (o, true).
Proof. unfold otp_or_password. by intros ->. Qed.

Lemma malloc_otp c ok c' : os_malloc c = (ok, c') → eap_get_config_otp c' = eap_get_config_otp c ∧
  eap_get_config_identity c' = eap_get_config_identity c.
Proof. unfold os_malloc. by destruct (allocs c); intros [= <- <-]. Qed.

Lemma clear_otp c : eap_get_config_otp (eap_clear_config_otp c) = None.
Proof. unfold eap_get_config_otp, eap_clear_config_otp. destruct (mc_config c) as [f|] eqn:E; [done|by rewrite E]. Qed.

End methods.

(** ** Concrete instances *)
Module Demo.
(** A network with an identity, a password and a one-time password. *)
Definition network (pw otp : option (list Z)) : eap_peer_config :=
  EapPeerConfig (Some (bytes_of "user")) None pw None false otp None None None None false 1398 0 0 0 0 0 None false.
Definition context (pw otp : option (list Z)) : method_ctx := MethodCtx (Some (network pw otp)) false false false 60 0 false None None false [] [] [].
Definition secret : list Z := bytes_of "secret".
Definition fresh : eap_method_ret := MethodRet false METHOD_INIT DECISION_FAIL true.

Lemma eap_md5_answers_witness :
  eap_md5_process (repeat 0 64) (context (Some secret) None) NoData fresh
      (eap_message EAP_CODE_REQUEST 7 EAP_VENDOR_IETF EAP_TYPE_MD5 (4 :: [9; 8; 7; 6] ++ bytes_of "server")) =
    Ret (Some (eap_message EAP_CODE_RESPONSE 7 EAP_VENDOR_IETF EAP_TYPE_MD5 (16 :: md5_ref (7 :: secret ++ [9; 8; 7; 6]))),
         MethodRet false METHOD_DONE DECISION_COND_SUCC true, NoData, context (Some secret) None).
Proof.
  apply (eap_md5_answers (repeat 0 64) (context (Some secret) None) NoData fresh 7 secret [9; 8; 7; 6] (bytes_of "server"));
    try reflexivity; unfold small, is_u32, is_byte; cbn; lia.
Defined.

(** A configuration with an anonymous identity and a password only: EAP-GTC sends
    nothing and yet leaves the decision to accept a success of the server. *)
Definition anonymous : method_ctx :=
  (context (Some secret) None) <| mc_config := Some ((network (Some secret) None) <| identity := None |>
                                                       <| anonymous_identity := Some [97] |>) |>.
Lemma gtc_accepts_without_response r :
  ∃ c, eap_gtc_process anonymous (GtcData false) r
         (eap_message EAP_CODE_REQUEST 7 EAP_VENDOR_IETF EAP_TYPE_GTC []) =
       Ret (None, MethodRet false METHOD_DONE DECISION_COND_SUCC false, GtcData false, c).
Proof. eexists. vm_compute. reflexivity. Qed.

Definition otp_request : list Z := eap_message EAP_CODE_REQUEST 7 EAP_VENDOR_IETF EAP_TYPE_GTC (bytes_of "code?").
End Demo.
