(* ===== verification/EapMschapv2.v ===== *)
(** * EAP-MSCHAPv2 (src/src/eap_peer/eap_mschapv2.c, mschapv2.c)

    The method with all its requests: challenge, success, failure and the change of an
    expired password.  The text of a failure is a C string, given by its bytes before the
    terminator; [atoi_big] is what [atoi] gives for a number that does not fit, which C
    leaves open.  [mem] and [junk] are uninitialised memory, as in MsFuncs. *)

From Stdlib Require Import String.
From S2P Require Import Prelude Merkle Md4 Sha1 Rc4 EapCommon EapMethods Des MsFuncs.

(** ** Data *)

Definition MSCHAPV2_CHAL_LEN : nat := 16.
Definition MSCHAPV2_NT_RESPONSE_LEN : nat := 24.
Definition MSCHAPV2_AUTH_RESPONSE_LEN : nat := 20.
Definition MSCHAPV2_MASTER_KEY_LEN : nat := 16.
Definition PASSWD_CHANGE_CHAL_LEN : nat := 16.
Definition MSCHAPV2_KEY_LEN : nat := 16.

Definition MSCHAPV2_OP_CHALLENGE : Z := 1.
Definition MSCHAPV2_OP_RESPONSE : Z := 2.
Definition MSCHAPV2_OP_SUCCESS : Z := 3.
Definition MSCHAPV2_OP_FAILURE : Z := 4.
Definition MSCHAPV2_OP_CHANGE_PASSWORD : Z := 7.

Definition ERROR_PASSWD_EXPIRED : Z := 648.
Definition ERROR_AUTHENTICATION_FAILURE : Z := 691.

(** The sizes of [struct eap_mschapv2_hdr], [ms_response] and [ms_change_password]. *)
Definition sizeof_hdr : nat := 4.
Definition sizeof_response : nat := 49.
Definition sizeof_change_password : nat := 582.

Record eap_mschapv2_data := MsData {
  auth_response : list Z; auth_response_valid : bool;
  prev_error : Z;
  passwd_change_challenge : list Z; passwd_change_challenge_valid : bool; passwd_change_version : Z;
  ms_peer_challenge : option (list Z); ms_auth_challenge : option (list Z);
  ms_phase2 : bool;
  master_key : list Z; master_key_valid : bool; success : bool;
  prev_challenge : option (list Z)
}.
#[global] Instance eta_ms : Eta eap_mschapv2_data := λ d,
  MsData (auth_response d) (auth_response_valid d) (prev_error d) (passwd_change_challenge d) (passwd_change_challenge_valid d)
    (passwd_change_version d) (ms_peer_challenge d) (ms_auth_challenge d) (ms_phase2 d) (master_key d) (master_key_valid d)
    (success d) (prev_challenge d).

(** The result of a call of [process]. *)
Definition ms_processed : Type := option (list Z) * eap_method_ret * eap_mschapv2_data * method_ctx.

(** ** Strings *)

Definition isspace (c : Z) : bool := (c =? 32) || ((9 <=? c) && (c <=? 13)).
Definition isdigit (c : Z) : bool := (48 <=? c) && (c <=? 57).
Fixpoint skip_space (s : list Z) : list Z :=
  match s with c :: s' => if isspace c then skip_space s' else s | [] => [] end.
Fixpoint digits (acc : Z) (s : list Z) : Z :=
  match s with c :: s => if isdigit c then digits (acc * 10 + (c - 48)) s else acc | [] => acc end.
(** [os_strncmp(pos, p, strlen(p)) == 0] *)
Definition starts (p s : list Z) : bool := bool_decide (take (List.length p) s = p).
(** [os_strchr(s, c)] *)
Fixpoint strchr (c : Z) (s : list Z) : option (list Z) :=
  match s with x :: s' => if x =? c then Some s else strchr c s' | [] => None end.
Definition cstring (buf : list Z) : list Z := take (List.length buf - List.length (default [] (strchr 0 buf))) buf.

Section mschapv2.
Context (mem junk : list Z) (atoi_big : list Z → Z).
Implicit Types (c : method_ctx) (d : eap_mschapv2_data) (r : eap_method_ret) (req : list Z).

Definition atoi (s : list Z) : Z :=
  let t := skip_space s in
  let v := match t with
           | 45 :: u => - digits 0 u
           | 43 :: u => digits 0 u
           | _ => digits 0 t
           end in
  if (- 2 ^ 31 <=? v) && (v <? 2 ^ 31) then v else atoi_big s.

(** ** mschapv2.c *)

Fixpoint mschapv2_remove_domain (username : list Z) : option (list Z) :=
  match username with
  | [] => None
  | x :: username => if x =? 92 then Some username else mschapv2_remove_domain username
  end.
(** The name after the first backslash, or all of it. *)
Definition user_name (identity : list Z) : list Z := default identity (mschapv2_remove_domain identity).

(** NT response, authenticator response and master key.  If the password cannot be
    converted the calls before the last one leave their results unset, and it fails. *)
Definition mschapv2_derive_response (identity password : list Z) (pwhash : bool) (auth_chal peer_chal : list Z)
    : run (option (list Z * list Z * list Z)) :=
  let username := user_name identity in
  o ← (if pwhash then h ← rdn password 0 16; Ret (Some h) else nt_password_hash mem junk password);
  match o with
  | None => Ret None
  | Some h =>
      let nt := generate_nt_response_pwhash mem auth_chal peer_chal username h in
      let auth := generate_authenticator_response_pwhash mem h peer_chal auth_chal username nt in
      Ret (Some (nt, auth, get_master_key mem (hash_nt_password_hash mem h) nt))
  end.

(** Zero is [true]. *)
Definition mschapv2_verify_auth_response (auth : list Z) (buf : list Z) (pos len : nat) : run bool :=
  if (len <? 2 + 2 * MSCHAPV2_AUTH_RESPONSE_LEN)%nat then Ret false
  else
    a ← rd buf pos;
    if negb (a =? 83) then Ret false
    else
      b ← rd buf (pos + 1);
      if negb (b =? 61) then Ret false
      else
        '(recv, ok) ← hexstr2bin buf (pos + 2) MSCHAPV2_AUTH_RESPONSE_LEN;
        Ret (ok && (memcmp auth recv =? 0)).

(** ** Initialisation *)

Definition copy_challenge (x : option (list Z)) c : option (option (list Z)) * method_ctx :=
  match x with
  | None => (Some None, c)
  | Some l => let '(ok, c) := os_malloc c in (if ok then Some (Some l) else None, c)
  end.
Definition eap_mschapv2_init (_ : option (Z * Z)) c : option eap_mschapv2_data * method_ctx :=
  let '(ok, c) := os_malloc c in
  if negb ok then (None, c)
  else
    let '(p, c) := copy_challenge (peer_challenge c) c in
    match p with
    | None => (None, c)
    | Some p =>
        let '(a, c) := copy_challenge (auth_challenge c) c in
        match a with
        | None => (None, c)
        | Some a =>
            (Some (MsData (repeat 0 20) false 0 (repeat 0 16) false 0 p a (init_phase2 c) (repeat 0 16) false false None), c)
        end
    end.

(** ** The challenge *)

Definition eap_mschapv2_challenge_reply c d (id mschapv2_id : Z) (challenge : list Z)
    : run (option (list Z) * eap_mschapv2_data * method_ctx) :=
  match eap_get_config_identity c, eap_get_config_password2 c with
  | Some identity, (Some password, Some pwhash) =>
      let ms_len := (sizeof_hdr + 1 + sizeof_response + List.length identity)%nat in
      let '(ok, c) := os_malloc c in
      o ← eap_msg_alloc ok EAP_VENDOR_IETF EAP_TYPE_MSCHAPV2 ms_len EAP_CODE_RESPONSE id;
      match o with
      | None => Ret (None, d, c)
      | Some resp =>
          let ms_id := if prev_error d =? 0 then mschapv2_id else u8 (mschapv2_id + 1) in
          resp ← wpabuf_put_data resp ([MSCHAPV2_OP_RESPONSE; ms_id] ++ be_put 2 (Z.of_nat ms_len));
          resp ← wpabuf_put_u8 resp (Z.of_nat sizeof_response);
          let '(chal, field, c) :=
            match ms_peer_challenge d with
            | Some p => (Some p, repeat 0 MSCHAPV2_CHAL_LEN, c)
            | None => let '(x, c) := random_get_bytes MSCHAPV2_CHAL_LEN c in (x, default [] x, c)
            end in
          match chal with
          | None => Ret (None, d, c)
          | Some peer_chal =>
              let auth_chal := default challenge (ms_auth_challenge d) in
              x ← mschapv2_derive_response identity password pwhash auth_chal peer_chal;
              match x with
              | None => Ret (None, d, c)
              | Some (nt, auth, key) =>
                  let d := d <| auth_response := auth |> <| master_key := key |> <| auth_response_valid := true |>
                             <| master_key_valid := true |> in
                  resp ← wpabuf_put_data resp (field ++ repeat 0 8 ++ nt ++ [0]);
                  resp ← wpabuf_put_data resp identity;
                  Ret (Some (buf_data resp), d, c)
              end
          end
      end
  | _, _ => Ret (None, d, c)
  end.

Definition ms_ignored r d c : run ms_processed := Ret (None, r <| ret_ignore := true |>, d, c).

(** [pos] is the position of the header, [len] the length from there. *)
Definition eap_mschapv2_challenge c d r req (pos len : nat) (id : Z) : run ms_processed :=
  match eap_get_config_identity c, eap_get_config_password c with
  | Some _, Some _ =>
      if (len <? sizeof_hdr + 1)%nat then ms_ignored r d c
      else
        challenge_len ← rd req (pos + 4);
        if negb (challenge_len =? Z.of_nat MSCHAPV2_CHAL_LEN) then ms_ignored r d c
        else if (len - sizeof_hdr - 1 <? MSCHAPV2_CHAL_LEN)%nat then ms_ignored r d c
        else
          received ← rdn req (pos + 5) MSCHAPV2_CHAL_LEN;
          let challenge := if passwd_change_challenge_valid d then passwd_change_challenge d else received in
          let r := MethodRet false METHOD_MAY_CONT DECISION_FAIL true in
          mschapv2_id ← rd req (pos + 1);
          '(resp, d, c) ← eap_mschapv2_challenge_reply c d id mschapv2_id challenge;
          Ret (resp, r, d, c)
  | _, _ => Ret (None, r, d, c)
  end.

(** ** Success *)

(** A hash that cannot be computed leaves the new memory as it is. *)
Definition eap_mschapv2_password_changed c d : run (eap_mschapv2_data * method_ctx) :=
  match eap_get_config c with
  | Some f =>
      match new_password f with
      | Some new =>
          let d := d <| prev_error := 0 |> in
          if password_nthash f then
            let '(ok, c) := os_malloc c in
            w ← (if ok : bool then o ← nt_password_hash mem junk new; Ret (Some (default (take 16 junk) o)) else Ret None);
            Ret (d, c <| mc_config := Some (f <| password := w |> <| new_password := None |>) |>)
          else Ret (d, c <| mc_config := Some (f <| password := Some new |> <| new_password := None |>) |>)
      | None => Ret (d, c)
      end
  | None => Ret (d, c)
  end.

Definition eap_mschapv2_success c d r req (pos len : nat) (id : Z) : run ms_processed :=
  v ← (if auth_response_valid d
       then mschapv2_verify_auth_response (auth_response d) req (pos + sizeof_hdr) (len - sizeof_hdr) else Ret false);
  if negb v then Ret (None, r <| ret_methodState := METHOD_DONE |> <| ret_decision := DECISION_FAIL |>, d, c)
  else
    let '(ok, c) := os_malloc c in
    o ← eap_msg_alloc ok EAP_VENDOR_IETF EAP_TYPE_MSCHAPV2 1 EAP_CODE_RESPONSE id;
    match o with
    | None => ms_ignored r d c
    | Some resp =>
        resp ← wpabuf_put_u8 resp MSCHAPV2_OP_SUCCESS;
        let r := MethodRet (ret_ignore r) METHOD_DONE DECISION_UNCOND_SUCC false in
        let d := d <| success := true |> in
        '(d, c) ← (if prev_error d =? ERROR_PASSWD_EXPIRED then eap_mschapv2_password_changed c d else Ret (d, c));
        Ret (Some (buf_data resp), r, d, c)
    end.

(** ** Failure *)

(** After a field: behind the next space, if there is one. *)
Definition next_field (s : list Z) : option (list Z) :=
  match strchr 32 s with Some (_ :: s) => Some s | _ => None end.
(** The text of a field with the given start. *)
Definition field (tag : string) (pos : option (list Z)) : option (list Z) :=
  match pos with Some s => if starts (bytes_of tag) s then Some (drop 2 s) else None | None => None end.

(** The challenge: the difference to a null pointer is not defined. *)
Definition failure_challenge (s : list Z) d : run eap_mschapv2_data :=
  match strchr 32 s with
  | None => UB NullDeref
  | Some rest =>
      if (List.length s - List.length rest =? PASSWD_CHANGE_CHAL_LEN * 2)%nat then
        '(l, ok) ← hexstr2bin (s ++ [0]) 0 PASSWD_CHANGE_CHAL_LEN;
        let d := d <| passwd_change_challenge := splice (passwd_change_challenge d) 0 l |> in
        Ret (if ok : bool then d <| passwd_change_challenge_valid := true |> else d)
      else Ret d
  end.

(** What the text sets, and whether a retry is allowed. *)
Definition failure_fields (txt : list Z) d : run (Z * eap_mschapv2_data) :=
  let pos := Some txt in
  let '(d, pos) :=
    match field "E=" pos with Some s => (d <| prev_error := atoi s |>, next_field s) | None => (d, pos) end in
  let '(retry, pos) := match field "R=" pos with Some s => (atoi s, next_field s) | None => (1, pos) end in
  '(d, pos) ← (match field "C=" pos with
               | Some s => d ← failure_challenge s d; Ret (d, next_field s)
               | None => Ret (d, pos)
               end);
  let d := match field "V=" pos with Some s => d <| passwd_change_version := atoi s |> | None => d end in
  Ret (retry, d).

Definition set_retry (b : bool) c : method_ctx :=
  match mc_config c with Some f => c <| mc_config := Some (f <| mschapv2_retry := b |>) |> | None => c end.

Definition eap_mschapv2_failure_txt c d (txt : list Z) : run (bool * eap_mschapv2_data * method_ctx) :=
  '(retry, d) ← failure_fields txt d;
  let c :=
    match eap_get_config c with
    | None => c
    | Some f =>
        if (prev_error d =? ERROR_PASSWD_EXPIRED) && (passwd_change_version d =? 3) then
          match new_password f with None => eap_sm_request_new_password c | Some _ => c end
        else if retry =? 1 then
          let c := if mschapv2_retry f then c else eap_sm_request_identity c in
          set_retry true (eap_sm_request_password c)
        else set_retry false c
    end in
  Ret (retry =? 1, d, c).

(** The hash functions that are given the new password find it convertible, since it was
    before; their other results, from memory that is not set, are given too.  An answer of
    the generator is used up even if the block of the password needs no filling. *)
Definition eap_mschapv2_change_password c d r req (pos : nat) (id : Z) : run ms_processed :=
  match eap_get_config_identity c, eap_get_config_password2 c, eap_get_config_new_password c with
  | Some identity, (Some password, Some pwhash), Some new_password =>
      let username := user_name identity in
      let r := MethodRet false METHOD_MAY_CONT DECISION_COND_SUCC true in
      let ms_len := (sizeof_hdr + sizeof_change_password)%nat in
      let '(ok, c) := os_malloc c in
      o ← eap_msg_alloc ok EAP_VENDOR_IETF EAP_TYPE_MSCHAPV2 ms_len EAP_CODE_RESPONSE id;
      match o with
      | None => Ret (None, r, d, c)
      | Some resp =>
          mschapv2_id ← rd req (pos + 1);
          resp ← wpabuf_put_data resp ([MSCHAPV2_OP_CHANGE_PASSWORD; u8 (mschapv2_id + 1)] ++ be_put 2 (Z.of_nat ms_len));
          let '(filler, c) := random_get_bytes 512 c in
          e ← (if pwhash : bool
               then h ← rdn password 0 16; encrypt_pw_block_with_password_hash filler new_password h
               else new_password_encrypted_with_old_nt_password_hash mem junk filler new_password password);
          match e with
          | None => Ret (None, r, d, c)
          | Some encr_password =>
              encr_hash ← (if pwhash : bool
                           then
                             h ← rdn password 0 16;
                             n ← nt_password_hash mem junk new_password;
                             Ret (nt_password_hash_encrypted_with_block h (default (take 16 junk) n))
                           else
                             x ← old_nt_password_hash_encrypted_with_new_nt_password_hash mem junk new_password password;
                             Ret (default (repeat 0 16) x));
              let '(chal, c) := random_get_bytes MSCHAPV2_CHAL_LEN c in
              match chal with
              | None => Ret (None, r, d, c)
              | Some peer_chal =>
                  n ← generate_nt_response mem junk (passwd_change_challenge d) peer_chal username new_password;
                  let nt := default (repeat 0 MSCHAPV2_NT_RESPONSE_LEN) n in
                  a ← generate_authenticator_response mem junk new_password peer_chal (passwd_change_challenge d) username nt;
                  h ← nt_password_hash mem junk new_password;
                  let key := get_master_key mem (hash_nt_password_hash mem (default (take 16 junk) h)) nt in
                  let d := d <| auth_response := default (auth_response d) a |> <| auth_response_valid := true |>
                             <| master_key := key |> <| master_key_valid := true |> in
                  resp ← wpabuf_put_data resp (encr_password ++ encr_hash ++ peer_chal ++ repeat 0 8 ++ nt ++ [0; 0]);
                  Ret (Some (buf_data resp), r, d, c)
              end
          end
      end
  | _, _, _ => Ret (None, r, d, c)
  end.

Definition failure_reply c d r (id : Z) : run ms_processed :=
  let '(ok, c) := os_malloc c in
  o ← eap_msg_alloc ok EAP_VENDOR_IETF EAP_TYPE_MSCHAPV2 1 EAP_CODE_RESPONSE id;
  match o with
  | None => Ret (None, r, d, c)
  | Some resp => resp ← wpabuf_put_u8 resp MSCHAPV2_OP_FAILURE; Ret (Some (buf_data resp), r, d, c)
  end.

Definition eap_mschapv2_failure c d r req (pos len : nat) (id : Z) : run ms_processed :=
  msdata ← rdn req (pos + sizeof_hdr) (len - sizeof_hdr);
  let '(ok, c) := os_malloc c in
  '(retry, d, c) ← (if ok : bool then eap_mschapv2_failure_txt c d (cstring msdata) else Ret (false, d, c));
  let r := MethodRet false METHOD_DONE DECISION_FAIL false in
  if (prev_error d =? ERROR_PASSWD_EXPIRED) && (passwd_change_version d =? 3) then
    match eap_get_config c with
    | Some f =>
        if bool_decide (is_Some (new_password f)) then eap_mschapv2_change_password c d r req pos id
        else if negb (pending_req_new_password f =? 0) then Ret (None, r, d, c)
        else failure_reply c d r id
    | None => failure_reply c d r id
    end
  else if retry && (prev_error d =? ERROR_AUTHENTICATION_FAILURE) then Ret (None, r, d, c)
  else failure_reply c d r id.

(** ** The method *)

(** Zero is [true]. *)
Definition eap_mschapv2_check_config c : bool * method_ctx :=
  match eap_get_config_identity c with
  | None => (false, eap_sm_request_identity c)
  | Some _ => match eap_get_config_password c with None => (false, eap_sm_request_password c) | Some _ => (true, c) end
  end.
Definition eap_mschapv2_check_mslen c (len : nat) req (pos : nat) : run bool :=
  ms_len ← WPA_GET_BE16 req (pos + 2);
  Ret ((ms_len =? Z.of_nat len) || negb (mc_workaround c =? 0)).
Definition eap_mschapv2_copy_challenge d req c : eap_mschapv2_data * method_ctx :=
  let '(ok, c) := os_malloc c in (d <| prev_challenge := if ok then Some req else None |>, c).

Definition ms_dispatch c d r req (using_prev : bool) : run ms_processed :=
  v ← eap_hdr_validate EAP_VENDOR_IETF EAP_TYPE_MSCHAPV2 req;
  match v with
  | None => ms_ignored r d c
  | Some (pos, len) =>
      if (len <? sizeof_hdr + 1)%nat then ms_ignored r d c
      else
        good ← eap_mschapv2_check_mslen c len req pos;
        if negb good then ms_ignored r d c
        else
          id ← eap_get_id req;
          op_code ← rd req pos;
          if op_code =? MSCHAPV2_OP_CHALLENGE then
            let '(d, c) := if using_prev : bool then (d, c) else eap_mschapv2_copy_challenge d req c in
            eap_mschapv2_challenge c d r req pos len id
          else if op_code =? MSCHAPV2_OP_SUCCESS then eap_mschapv2_success c d r req pos len id
          else if op_code =? MSCHAPV2_OP_FAILURE then eap_mschapv2_failure c d r req pos len id
          else ms_ignored r d c
  end.

(** After a failed attempt the pending request is replaced with the previous challenge. *)
Definition eap_mschapv2_process c d r req : run ms_processed :=
  let '(ok, c) := eap_mschapv2_check_config c in
  if negb ok then ms_ignored r d c
  else
    match eap_get_config c, prev_challenge d with
    | Some f, Some prev =>
        if mschapv2_retry f && (prev_error d =? ERROR_AUTHENTICATION_FAILURE)
        then ms_dispatch (set_retry false c) d r prev true else ms_dispatch c d r req false
    | _, _ => ms_dispatch c d r req false
    end.

Definition eap_mschapv2_isKeyAvailable d : bool := success d && master_key_valid d.
Definition eap_mschapv2_getKey d c : option (list Z) * method_ctx :=
  if negb (master_key_valid d) || negb (success d) then (None, c)
  else
    let '(ok, c) := os_malloc c in
    if ok then
      (Some (get_asymetric_start_key mem (master_key d) MSCHAPV2_KEY_LEN true false ++
             get_asymetric_start_key mem (master_key d) MSCHAPV2_KEY_LEN false false), c)
    else (None, c).

Definition eap_mschapv2 : eap_method eap_mschapv2_data :=
  {| vendor := EAP_VENDOR_IETF; method := EAP_TYPE_MSCHAPV2; name := Some "MSCHAPV2"%string;
     version := EAP_PEER_METHOD_INTERFACE_VERSION; init := eap_mschapv2_init; deinit := λ _ c, c;
     process := eap_mschapv2_process;
     isKeyAvailable := Some eap_mschapv2_isKeyAvailable; getKey := Some eap_mschapv2_getKey;
     has_reauth_data := None; deinit_for_reauth := λ p c, (p, c); init_for_reauth := λ p c, (Some p, c);
     get_identity := None |}.
Definition eap_peer_mschapv2_register (malloc_ok : bool) (l : list (eap_method eap_mschapv2_data))
    : Z * list (eap_method eap_mschapv2_data) :=
  if malloc_ok then eap_peer_method_register (Some eap_mschapv2) l else (-1, l).

(** ** What a success proves *)

#[local] Opaque sha1_vector md4_vector des_encrypt.

(** The passwords of the current configuration. *)
Definition secrets c : option (option (list Z) * option (list Z) * bool) :=
  (λ f, (password f, new_password f, password_nthash f)) <$> mc_config c.
(** The hashes of the password and of the new password. *)
Definition configured c (h : list Z) : Prop :=
  ∃ pw new nth, secrets c = Some (pw, new, nth) ∧
    ((∃ w, pw = Some w ∧ if nth : bool then h = take 16 w else nt_password_hash mem junk w = Ret (Some h)) ∨
     (∃ w, new = Some w ∧ nt_password_hash mem junk w = Ret (Some h))).

Lemma malloc_secrets c : secrets (os_malloc c).2 = secrets c.
Proof. unfold os_malloc. by destruct (allocs c). Qed.
Lemma random_secrets n c : secrets (random_get_bytes n c).2 = secrets c.
Proof. unfold random_get_bytes. by destruct (randoms c). Qed.
Lemma request_secrets t m c : secrets (eap_sm_request t m c) = secrets c.
Proof.
  unfold eap_sm_request, os_malloc. destruct (mc_config c) as [f|] eqn:Hf; [|done]. unfold secrets.
  destruct t; cbn; rewrite ?Hf; try done. destruct m; [|by destruct (pending_req_otp f); cbn; rewrite ?Hf].
  destruct (allocs c) as [|[] ?]; cbn; by rewrite ?Hf.
Qed.
Lemma retry_secrets b c : secrets (set_retry b c) = secrets c.
Proof. unfold set_retry, secrets. destruct (mc_config c) eqn:Hf; by rewrite ?Hf. Qed.
(** The answers the generator still has. *)
Lemma malloc_randoms c : randoms (os_malloc c).2 = randoms c.
Proof. unfold os_malloc. by destruct (allocs c). Qed.
Lemma request_randoms t m c : randoms (eap_sm_request t m c) = randoms c.
Proof.
  unfold eap_sm_request, os_malloc. destruct (mc_config c) as [f|]; [|done].
  destruct t; try done. destruct m; [|by destruct (pending_req_otp f)]. by destruct (allocs c) as [|[] ?].
Qed.
Lemma retry_randoms b c : randoms (set_retry b c) = randoms c.
Proof. unfold set_retry. by destruct (mc_config c). Qed.

(** The proof of the server and the master key for hash, challenges and user name. *)
Definition auth_proof (h ac pc u : list Z) : list Z :=
  generate_authenticator_response_pwhash mem h pc ac u (generate_nt_response_pwhash mem ac pc u h).
Definition ms_master_key (h ac pc u : list Z) : list Z :=
  get_master_key mem (hash_nt_password_hash mem h) (generate_nt_response_pwhash mem ac pc u h).

Section proof.
Context (W P : list Z → Prop) (junk_len : List.length junk = 512%nat).

(** Responses that count are for a hash in [W] and a challenge of the peer in [P]. *)
Definition ms_inv d : Prop :=
  (auth_response_valid d || master_key_valid d = true →
   ∃ h ac pc u, W h ∧ P pc ∧ auth_response d = auth_proof h ac pc u ∧ master_key d = ms_master_key h ac pc u) ∧
  ∀ p, ms_peer_challenge d = Some p → P p.
Definition same_proof d d' : Prop :=
  auth_response d' = auth_response d ∧ auth_response_valid d' = auth_response_valid d ∧ master_key d' = master_key d ∧
  master_key_valid d' = master_key_valid d ∧ ms_peer_challenge d' = ms_peer_challenge d.
(** [W] has the hashes of the configured passwords, [P] the challenges the generator gives. *)
Definition draws (l : list (option (list Z))) : Prop := ∀ x, Some x ∈ l → P (resize MSCHAPV2_CHAL_LEN 0 x).
Definition knows c : Prop := (∀ h, configured c h → W h) ∧ draws (randoms c).

Lemma knows_secrets c c' : secrets c' = secrets c → randoms c' = randoms c → knows c → knows c'.
Proof.
  intros Hs Hr [Hk Hd]. split; [|by rewrite Hr]. intros h (pw & new & nth & H & Hh). apply Hk. rewrite Hs in H. by exists pw, new, nth.
Qed.
Lemma knows_malloc c ok c' : os_malloc c = (ok, c') → knows c → knows c'.
Proof. intros H. pose proof (malloc_secrets c) as H1. pose proof (malloc_randoms c) as H2. rewrite H in *. by apply knows_secrets. Qed.
Lemma random_draws n c x c' : random_get_bytes n c = (x, c') → draws (randoms c) → draws (randoms c').
Proof.
  unfold random_get_bytes. destruct (randoms c) as [|a l] eqn:Hr; intros [= _ <-] Hd; [by rewrite Hr|].
  intros y Hy. apply Hd. by apply list_elem_of_further.
Qed.
Lemma random_challenge c x c' : random_get_bytes MSCHAPV2_CHAL_LEN c = (Some x, c') → draws (randoms c) → P x.
Proof.
  unfold random_get_bytes. destruct (randoms c) as [|[a|] l]; intros [= <- _] Hd. apply Hd. by apply list_elem_of_here.
Qed.
Lemma same_proof_inv d d' : same_proof d d' → ms_inv d → ms_inv d'.
Proof. intros (H1 & H2 & H3 & H4 & H5) Hi. unfold ms_inv. by rewrite H1, H2, H3, H4, H5. Qed.

Lemma derive_spec c f identity pw ac pc nt auth key :
  mc_config c = Some f → password f = Some pw → knows c →
  mschapv2_derive_response identity pw (password_nthash f) ac pc = Ret (Some (nt, auth, key)) →
  ∃ h, W h ∧ auth = auth_proof h ac pc (user_name identity) ∧ key = ms_master_key h ac pc (user_name identity).
Proof.
  intros Hf Hp [Hk _] H. unfold mschapv2_derive_response in H. cbv zeta in H. apply run_bind_Ret in H as ([h|] & Hh & H); [|done].
  assert (∀ (x y : list Z * list Z * list Z), Ret (Some x) = Ret (Some y) → x = y) as Hinj by (clear; congruence).
  apply Hinj, pair_equal_spec in H as [H <-]. apply pair_equal_spec in H as [<- <-]. clear Hinj.
  exists h. split; [|split; reflexivity]. apply Hk. exists (Some pw), (new_password f), (password_nthash f).
  split; [unfold secrets; by rewrite Hf, <-Hp|]. left. exists pw. split; [done|]. destruct (password_nthash f); [|done].
  apply run_bind_Ret in Hh as (x & Hx & Hh). injection Hh as <-. unfold rdn in Hx. destruct (_ <=? _)%nat; [|done]. by injection Hx as <-.
Qed.

Lemma reply_inv c d id mid chal o d' c' :
  eap_mschapv2_challenge_reply c d id mid chal = Ret (o, d', c') → knows c → ms_inv d → ms_inv d'.
Proof.
  unfold eap_mschapv2_challenge_reply, eap_get_config_identity, eap_get_config_password2. intros H Hk Hi. revert H.
  destruct (mc_config c) as [f|] eqn:Hf; [|by intros [= _ <- _]]. cbn [mbind option_bind]. destruct (identity f) as [ident|]; [|by intros [= _ <- _]].
  destruct (password f) as [pw|] eqn:Hp; [|by intros [= _ <- _]]. cbv zeta. destruct (os_malloc c) as [ok c1] eqn:Hm.
  intros H. apply run_bind_Ret in H as ([resp|] & _ & H); [|by injection H as _ <- _].
  apply run_bind_Ret in H as (r1 & _ & H). apply run_bind_Ret in H as (r2 & _ & H). revert H.
  destruct (match ms_peer_challenge d with Some _ => _ | None => _ end) as [[chal' fld] c2] eqn:Hc.
  destruct chal' as [pc|]; [|by intros [= _ <- _]].
  assert (P pc) as Hpc.
  { destruct (ms_peer_challenge d) as [p|] eqn:Hp'; [injection Hc as <- _ _; by apply Hi|].
    destruct (random_get_bytes MSCHAPV2_CHAL_LEN c1) as [x cx] eqn:Hx. injection Hc as -> _ _.
    eapply random_challenge; [exact Hx|]. by apply (knows_malloc _ _ _ Hm). } intros H. apply run_bind_Ret in H as ([[[nt auth] key]|] & Hd & H); [|by injection H as _ <- _].
  apply run_bind_Ret in H as (r3 & _ & H). apply run_bind_Ret in H as (r4 & _ & H). injection H as _ <- _.
  destruct (derive_spec c f _ _ _ _ _ _ _ Hf Hp Hk Hd) as (h & Hw & -> & ->). split; [|apply Hi]. intros _. cbn. by eexists _, _, _, _.
Qed.

Lemma challenge_inv c d r req pos len id o r' d' c' :
  eap_mschapv2_challenge c d r req pos len id = Ret (o, r', d', c') → knows c → ms_inv d →
  ms_inv d' ∧ (ret_decision r' = DECISION_UNCOND_SUCC → ret_decision r = DECISION_UNCOND_SUCC).
Proof.
  unfold eap_mschapv2_challenge, ms_ignored. intros H Hk Hi. revert H.
  destruct (eap_get_config_identity c), (eap_get_config_password c); try (by intros [= _ <- <- _]).
  if_branch; [by intros [= _ <- <- _]|]. intros H. apply run_bind_Ret in H as (cl & _ & H). revert H.
  if_branch; [by intros [= _ <- <- _]|]. if_branch; [by intros [= _ <- <- _]|]. intros H. apply run_bind_Ret in H as (rc & _ & H).
  apply run_bind_Ret in H as (mid & _ & H). apply run_bind_Ret in H as ([[o1 d1] c1] & Hr & H). injection H as _ <- <- _.
  split; [|done]. by eapply reply_inv.
Qed.

Lemma failure_challenge_same txt d d' : failure_challenge txt d = Ret d' → same_proof d d'.
Proof.
  unfold failure_challenge. destruct (strchr 32 txt) as [rest|]; [|done]. if_branch; [|by intros [= <-]]. intros H.
  apply run_bind_Ret in H as ([l ok] & _ & H). destruct ok; by injection H as <-.
Qed.
Lemma failure_fields_same txt d z d' : failure_fields txt d = Ret (z, d') → same_proof d d'.
Proof.
  unfold failure_fields. cbv zeta.
  destruct (match field "E=" (Some txt) with Some _ => _ | None => _ end) as [d1 pos1] eqn:E1.
  assert (same_proof d d1) as H1 by (destruct (field "E=" (Some txt)); by injection E1 as <- _). clear E1.
  destruct (match field "R=" pos1 with Some _ => _ | None => _ end) as [retry pos2]. intros H.
  apply run_bind_Ret in H as ([d2 pos3] & H2 & H). injection H as _ <-.
  assert (same_proof d d2) as H3.
  { revert H2. destruct (field "C=" pos2) as [t|]; [|by intros [= <- _]]. intros H2. apply run_bind_Ret in H2 as (d3 & H3 & H2).
    injection H2 as <- _. apply failure_challenge_same in H3. destruct H1 as (A1 & A2 & A3 & A4 & A5), H3 as (B1 & B2 & B3 & B4 & B5).
    split_and!; congruence. }
  by destruct (field "V=" pos3).
Qed.
Lemma failure_txt_same c d txt b d' c' :
  eap_mschapv2_failure_txt c d txt = Ret (b, d', c') → same_proof d d' ∧ secrets c' = secrets c ∧ randoms c' = randoms c.
Proof.
  unfold eap_mschapv2_failure_txt, eap_get_config. intros H. apply run_bind_Ret in H as ([z d1] & H1 & H).
  apply failure_fields_same in H1. cbv zeta in H. injection H as _ <- <-. split; [done|].
  destruct (mc_config c) as [f|]; [|done]. if_branch; [destruct (new_password f); [done|]; split; [apply request_secrets|apply request_randoms]|].
  if_branch; rewrite retry_secrets, retry_randoms; [|done]. unfold eap_sm_request_password. rewrite request_secrets, request_randoms.
  destruct (mschapv2_retry f); [done|]. split; [apply request_secrets|apply request_randoms].
Qed.

Lemma change_password_inv c d r req pos id o r' d' c' :
  eap_mschapv2_change_password c d r req pos id = Ret (o, r', d', c') → knows c → ms_inv d →
  ms_inv d' ∧ (ret_decision r' = DECISION_UNCOND_SUCC → ret_decision r = DECISION_UNCOND_SUCC).
Proof.
  unfold eap_mschapv2_change_password, eap_get_config_identity, eap_get_config_password2, eap_get_config_new_password.
  intros H Hk Hi. revert H.
  destruct (mc_config c) as [f|] eqn:Hf; [|by intros [= _ <- <- _]]. cbn [mbind option_bind].
  destruct (identity f) as [ident|]; [|by intros [= _ <- <- _]]. destruct (password f) as [pw|] eqn:Hp; [|by intros [= _ <- <- _]].
  destruct (new_password f) as [new|] eqn:Hn; [|by intros [= _ <- <- _]]. cbv zeta. destruct (os_malloc c) as [ok c1] eqn:Hm.
  intros H. apply run_bind_Ret in H as ([resp|] & _ & H); [|by injection H as _ <- <- _].
  apply run_bind_Ret in H as (mid & _ & H). apply run_bind_Ret in H as (r1 & _ & H). revert H.
  destruct (random_get_bytes 512 c1) as [filler c2] eqn:H512. intros H. apply run_bind_Ret in H as ([enc|] & He & H); [|by injection H as _ <- <- _].
  assert (∃ h, nt_password_hash mem junk new = Ret (Some h)) as [h Hh].
  { destruct (password_nthash f).
    - apply run_bind_Ret in He as (h0 & _ & He). by eapply encrypted_has_hash.
    - unfold new_password_encrypted_with_old_nt_password_hash in He. apply run_bind_Ret in He as ([h0|] & _ & He); [|done].
      by eapply encrypted_has_hash. }
  apply run_bind_Ret in H as (eh & _ & H). revert H. destruct (random_get_bytes MSCHAPV2_CHAL_LEN c2) as [[pc|] c3] eqn:Hpc; [|by intros [= _ <- <- _]].
  apply random_challenge in Hpc; [|eapply random_draws; [exact H512|]; by apply (knows_malloc _ _ _ Hm)].
  unfold generate_nt_response, generate_authenticator_response. rewrite Hh. cbn [mbind run_bind option_map default]. cbv zeta. intros H.
  apply run_bind_Ret in H as (r2 & _ & H). assert (W h) as Hw.
  { apply Hk. exists (Some pw), (Some new), (password_nthash f). split; [unfold secrets; by rewrite Hf, <-Hp, <-Hn|]. right. by exists new. }
  assert (∀ x y : ms_processed, Ret x = Ret y → x = y) as Hinj by (clear; congruence).
  apply Hinj, pair_equal_spec in H as [H <-]. apply pair_equal_spec in H as [H <-]. apply pair_equal_spec in H as [_ <-].
  split; [|done]. split; [|apply Hi]. intros _. exists h, (passwd_change_challenge d), pc, (user_name ident). by split_and!.
Qed.

Lemma failure_reply_inv c d r id o r' d' c' :
  failure_reply c d r id = Ret (o, r', d', c') → d' = d ∧ r' = r.
Proof.
  unfold failure_reply. destruct (os_malloc c) as [ok c1]. intros H. apply run_bind_Ret in H as ([resp|] & _ & H); [|by injection H as _ <- <- _].
  apply run_bind_Ret in H as (r1 & _ & H). by injection H as _ <- <- _.
Qed.

Lemma failure_inv c d r req pos len id o r' d' c' :
  eap_mschapv2_failure c d r req pos len id = Ret (o, r', d', c') → knows c → ms_inv d →
  ms_inv d' ∧ ret_decision r' ≠ DECISION_UNCOND_SUCC.
Proof.
  unfold eap_mschapv2_failure. intros H Hk Hi. apply run_bind_Ret in H as (txt & _ & H). revert H.
  destruct (os_malloc c) as [ok c1] eqn:Hm. apply (knows_malloc _ _ _ Hm) in Hk. clear Hm. intros H.
  apply run_bind_Ret in H as ([[retry d1] c2] & H1 & H).
  assert (ms_inv d1 ∧ knows c2) as [Hi1 Hk2].
  { revert H1. destruct ok; [|by intros [= _ <- <-]]. intros H1.
    apply failure_txt_same in H1 as (H1 & H2 & H3). split; [by eapply same_proof_inv|by eapply knows_secrets]. }
  revert H. cbv zeta.
  assert (∀ c0, failure_reply c0 d1 (MethodRet false METHOD_DONE DECISION_FAIL false) id = Ret (o, r', d', c') →
    ms_inv d' ∧ ret_decision r' ≠ DECISION_UNCOND_SUCC) as Hr by (intros c0 [-> ->]%failure_reply_inv; done).
  if_branch; [|if_branch; [by intros [= _ <- <- _]|apply Hr]].
  destruct (eap_get_config c2) as [f|]; [|apply Hr]. case_bool_decide as Hnew.
  - intros H. apply change_password_inv in H as [Hx Hy]; [|done..]. split; [done|]. intros Hz. by apply Hy in Hz.
  - if_branch; [by intros [= _ <- <- _]|apply Hr].
Qed.

Lemma password_changed_same c d d' c' : eap_mschapv2_password_changed c d = Ret (d', c') → same_proof d d' ∧ success d' = success d.
Proof.
  unfold eap_mschapv2_password_changed. destruct (eap_get_config c) as [f|]; [|by intros [= <- _]].
  destruct (new_password f); [|by intros [= <- _]]. cbv zeta. if_branch; [|by intros [= <- _]]. destruct (os_malloc c) as [ok c1].
  intros H. apply run_bind_Ret in H as (w & _ & H). by injection H as <- _.
Qed.

(** The received proof is the stored one. *)
Definition carries (m : list Z) (proof : list Z) : Prop :=
  ∃ pos len, eap_hdr_validate EAP_VENDOR_IETF EAP_TYPE_MSCHAPV2 m = Ret (Some (pos, len)) ∧ rd m pos = Ret MSCHAPV2_OP_SUCCESS ∧
    rd m (pos + 4) = Ret 83 ∧ rd m (pos + 5) = Ret 61 ∧ hexstr2bin m (pos + 6) 20 = Ret (proof, true).

Lemma hexstr2bin_length buf pos n l ok : hexstr2bin buf pos n = Ret (l, ok) → ok = true → List.length l = n.
Proof.
  revert pos l. induction n as [|n IH]; intros pos l; cbn [hexstr2bin]; [by intros [= <- _]|]. intros H Hok.
  apply run_bind_Ret in H as (a & _ & H). revert H. if_branch; [intros [= _ <-]; done|]. intros H.
  apply run_bind_Ret in H as ([l' ok'] & H1 & H). injection H as <- <-. cbn [List.length]. f_equal. by eapply IH.
Qed.
Lemma ms_verify_spec auth buf pos len :
  List.length auth = 20%nat → mschapv2_verify_auth_response auth buf pos len = Ret true →
  rd buf pos = Ret 83 ∧ rd buf (pos + 1) = Ret 61 ∧ hexstr2bin buf (pos + 2) 20 = Ret (auth, true).
Proof.
  intros Ha. unfold mschapv2_verify_auth_response. if_branch; [done|]. intros H. apply run_bind_Ret in H as (a & H1 & H). revert H.
  destruct (Z.eqb_spec a 83) as [->|]; [|done]. cbn [negb]. intros H. apply run_bind_Ret in H as (b & H2 & H). revert H.
  destruct (Z.eqb_spec b 61) as [->|]; [|done]. cbn [negb]. intros H. apply run_bind_Ret in H as ([recv ok] & H3 & H).
  assert (ok && (memcmp auth recv =? 0) = true) as [Hok Hm]%andb_true_iff by congruence. subst ok.
  pose proof (hexstr2bin_length _ _ _ _ _ H3 eq_refl) as Hl. apply Z.eqb_eq, memcmp_eq in Hm; [|unfold MSCHAPV2_AUTH_RESPONSE_LEN in Hl; congruence].
  by subst recv.
Qed.
Lemma length_auth_proof h ac pc u : List.length (auth_proof h ac pc u) = 20%nat.
Proof. apply sha1_vector_ok. Qed.

Lemma success_inv c d r req pos len id o r' d' c' :
  eap_mschapv2_success c d r req pos len id = Ret (o, r', d', c') → ms_inv d →
  ms_inv d' ∧
  (ret_decision r ≠ DECISION_UNCOND_SUCC → ret_decision r' = DECISION_UNCOND_SUCC →
   mschapv2_verify_auth_response (auth_response d) req (pos + 4) (len - 4) = Ret true ∧
   auth_response_valid d = true ∧ same_proof d d' ∧ success d' = true).
Proof.
  unfold eap_mschapv2_success, ms_ignored. intros H Hi. apply run_bind_Ret in H as (v & Hv & H). revert H.
  destruct v; cbn [negb]; [|intros [= _ <- <- _]; by split]. destruct (os_malloc c) as [ok c1]. intros H.
  apply run_bind_Ret in H as ([resp|] & _ & H); [|injection H as _ <- <- _; by split].
  apply run_bind_Ret in H as (r1 & _ & H). apply run_bind_Ret in H as ([d1 c2] & H1 & H). injection H as _ <- <- _.
  assert (same_proof d d1 ∧ success d1 = true) as [Hs Hsu].
  { revert H1. if_branch; [|by intros [= <- _]]. intros H1. apply password_changed_same in H1 as [H1 H2]. by rewrite H2. }
  split; [by eapply same_proof_inv|]. intros _ _. destruct (auth_response_valid d); [|done]. by split_and!.
Qed.

Lemma ms_dispatch_inv c d r m b o r' d' c' :
  ms_dispatch c d r m b = Ret (o, r', d', c') → knows c → ms_inv d →
  ms_inv d' ∧
  (ret_decision r ≠ DECISION_UNCOND_SUCC → ret_decision r' = DECISION_UNCOND_SUCC →
   ∃ h ac pc u, W h ∧ P pc ∧ auth_response d = auth_proof h ac pc u ∧ carries m (auth_response d) ∧ success d' = true ∧
     master_key d' = ms_master_key h ac pc u).
Proof.
  unfold ms_dispatch, ms_ignored. intros H Hk Hi. apply run_bind_Ret in H as (v & Hv & H). revert H.
  destruct v as [[pos len]|]; [|intros [= _ <- <- _]; by split]. if_branch; [intros [= _ <- <- _]; by split|]. intros H.
  apply run_bind_Ret in H as (good & _ & H). revert H. if_branch; [intros [= _ <- <- _]; by split|]. intros H.
  apply run_bind_Ret in H as (id & _ & H). apply run_bind_Ret in H as (op & Hop & H). revert H. if_branch.
  { destruct (if b then (d, c) else eap_mschapv2_copy_challenge d m c) as [d1 c1] eqn:Hc. intros H.
    assert (ms_inv d1 ∧ knows c1) as [Hi1 Hk1].
    { destruct b; [by injection Hc as <- <-|]. unfold eap_mschapv2_copy_challenge in Hc.
      destruct (os_malloc c) as [ok c2] eqn:Hm. injection Hc as <- <-. split; [exact Hi|]. by eapply knows_malloc. }
    apply challenge_inv in H as [H1 H2]; [|done..]. split; [done|]. intros Hn Hy. by apply H2 in Hy. }
  destruct (Z.eqb_spec op MSCHAPV2_OP_SUCCESS) as [->|].
  { intros H. apply success_inv in H as [H1 H2]; [|done]. split; [done|]. intros Hn Hy. destruct (H2 Hn Hy) as (Hve & Hva & Hsp & Hsu).
    destruct Hi as [(h & ac & pc & u & Hw & Hpc & Ha & Hm) _]; [by rewrite Hva|]. exists h, ac, pc, u.
    apply ms_verify_spec in Hve as (V1 & V2 & V3); [|rewrite Ha; apply length_auth_proof].
    split_and!; [done..| |done|by rewrite (proj1 (proj2 (proj2 Hsp)))].
    exists pos, len. rewrite <-!Nat.add_assoc in V2, V3. by split_and!. }
  if_branch; [|intros [= _ <- <- _]; by split]. intros H. apply failure_inv in H as [H1 H2]; [|done..]. by split.
Qed.

Lemma process_inv c d r req o r' d' c' :
  eap_mschapv2_process c d r req = Ret (o, r', d', c') → knows c → ms_inv d →
  ms_inv d' ∧
  (ret_decision r ≠ DECISION_UNCOND_SUCC → ret_decision r' = DECISION_UNCOND_SUCC →
   ∃ h ac pc u m, W h ∧ P pc ∧ auth_response d = auth_proof h ac pc u ∧
     (m = req ∨ prev_challenge d = Some m) ∧ carries m (auth_response d) ∧ success d' = true ∧ master_key d' = ms_master_key h ac pc u).
Proof.
  unfold eap_mschapv2_process, ms_ignored. intros H Hk Hi. revert H.
  destruct (eap_mschapv2_check_config c) as [ok c1] eqn:Hc.
  assert (knows c1) as Hk1.
  { unfold eap_mschapv2_check_config in Hc.
    destruct (eap_get_config_identity c); [destruct (eap_get_config_password c)|]; injection Hc as _ <-; try done;
      (eapply knows_secrets; [apply request_secrets|apply request_randoms|exact Hk]). }
  if_branch; [intros [= _ <- <- _]; by split|].
  assert (ms_dispatch c1 d r req false = Ret (o, r', d', c') →
    ms_inv d' ∧ (ret_decision r ≠ DECISION_UNCOND_SUCC → ret_decision r' = DECISION_UNCOND_SUCC →
     ∃ h ac pc u m, W h ∧ P pc ∧ auth_response d = auth_proof h ac pc u ∧
       (m = req ∨ prev_challenge d = Some m) ∧ carries m (auth_response d) ∧ success d' = true ∧ master_key d' = ms_master_key h ac pc u)) as Hreq.
  { intros H. apply ms_dispatch_inv in H as [H1 H2]; [|done..]. split; [done|]. intros Hn Hy.
    destruct (H2 Hn Hy) as (h & ac & pc & u & X1 & X2 & X3 & X4 & X5 & X6). exists h, ac, pc, u, req. split_and!; auto. }
  destruct (eap_get_config c1) as [f|]; [|apply Hreq]. destruct (prev_challenge d) as [prev|] eqn:Hp; [|apply Hreq].
  if_branch; [|apply Hreq]. intros H. apply ms_dispatch_inv in H as [H1 H2]; [|by eapply knows_secrets; [apply retry_secrets|apply retry_randoms|]|done].
  split; [done|]. intros Hn Hy. destruct (H2 Hn Hy) as (h & ac & pc & u & X1 & X2 & X3 & X4 & X5 & X6).
  exists h, ac, pc, u, prev. split_and!; auto.
Qed.

(** The data of the method in any conversation with a server, while the configured
    passwords have hashes in [W] and the peer's challenges, from an outer method or from
    the generator, are in [P]. *)
Inductive ms_reach : eap_mschapv2_data → Prop :=
| ms_start a c d c' : (∀ p, peer_challenge c = Some p → P p) → eap_mschapv2_init a c = (Some d, c') → ms_reach d
| ms_step c d r req o r' d' c' :
    ms_reach d → knows c → eap_mschapv2_process c d r req = Ret (o, r', d', c') → ms_reach d'.

Lemma reach_inv d : ms_reach d → ms_inv d.
Proof.
  induction 1 as [a c d c' Hc H|c d r req o r' d' c' _ Hi Hk H]; [|by apply process_inv in H as [H _]].
  unfold eap_mschapv2_init in H. destruct (os_malloc c) as [[] c1] eqn:Hm; [|done]. cbn [negb] in H.
  assert (peer_challenge c1 = peer_challenge c) as Hp1.
  { unfold os_malloc in Hm. by destruct (allocs c); simplify_eq. }
  destruct (copy_challenge (peer_challenge c1) c1) as [[p|] c2] eqn:Hp; [|done].
  destruct (copy_challenge (auth_challenge c2) c2) as [[x|] c3]; [|done]. injection H as <- _. split; [by intros Hf|].
  cbn. intros q ->. apply Hc. rewrite <-Hp1. unfold copy_challenge in Hp. destruct (peer_challenge c1) as [l|]; [|done].
  destruct (os_malloc c1) as [[] ?]; by simplify_eq.
Qed.

(** C6: Whatever a server sends, EAP-MSCHAPv2 reports success only for a message that
    carries, in hexadecimal, the authenticator response it computed with its last
    response.  That is the one of RFC 2759 for the hash of a configured password and a
    challenge of the peer's own, and the master key is then the one of that hash and
    challenge: a server that does not know the password is not accepted. *)
Theorem mschapv2_authenticated c d r req o r' d' c' :
  ms_reach d → knows c → eap_mschapv2_process c d r req = Ret (o, r', d', c') →
  ret_decision r ≠ DECISION_UNCOND_SUCC → ret_decision r' = DECISION_UNCOND_SUCC →
  ∃ h ac pc u m, W h ∧ P pc ∧ auth_response d = auth_proof h ac pc u ∧
    (m = req ∨ prev_challenge d = Some m) ∧ carries m (auth_response d) ∧ success d' = true ∧ master_key d' = ms_master_key h ac pc u.
Proof. intros Hr Hk H. by apply process_inv in H as [_ H]; [|done|apply reach_inv]. Qed.

(** Keys are given only after a success, and come from the hash of a configured password. *)
Theorem mschapv2_key d c k c' :
  ms_reach d → eap_mschapv2_getKey d c = (Some k, c') →
  success d = true ∧ ∃ h ac pc u, W h ∧ P pc ∧
    k = get_asymetric_start_key mem (ms_master_key h ac pc u) 16 true false ++
        get_asymetric_start_key mem (ms_master_key h ac pc u) 16 false false ∧ List.length k = 32%nat.
Proof.
  intros [Hr _]%reach_inv H. unfold eap_mschapv2_getKey in H.
  destruct (master_key_valid d); [|done]. destruct (success d); [|done]. cbn [negb orb] in H. rewrite orb_true_r in Hr.
  destruct Hr as (h & ac & pc & u & Hw & Hpc & _ & Hm); [done|]. destruct (os_malloc c) as [[] c1]; [|done]. split; [done|].
  exists h, ac, pc, u. split; [done|]. split; [done|]. rewrite Hm in H. apply pair_equal_spec in H as [H _].
  assert (∀ x y : list Z, Some x = Some y → y = x) as Hinj by (clear; congruence). apply Hinj in H. subst k. split; [done|].
  unfold get_asymetric_start_key. cbv zeta. rewrite length_app, !length_take.
  by rewrite !(proj2 (sha1_vector_ok mem _)).
Qed.
End proof.

(** ** Every request is answered or ignored *)

(** The passwords are long enough, and no character at their end is cut off. *)
Definition secrets_ok c : Prop :=
  ∀ pw new nth, secrets c = Some (pw, new, nth) →
    (∀ w, pw = Some w → if nth : bool then (16 ≤ List.length w)%nat else utf8_whole w = true) ∧
    (∀ w, new = Some w → utf8_whole w = true).
(** A challenge in the text of a failure is followed by a space. *)
Definition closed_text (s : list Z) : Prop := ∀ pre t, s = pre ++ [67; 61] ++ t → is_Some (strchr 32 t).
Definition closed_message (m : list Z) : Prop :=
  ∀ pos len txt, eap_hdr_validate EAP_VENDOR_IETF EAP_TYPE_MSCHAPV2 m = Ret (Some (pos, len)) →
    rdn m (pos + sizeof_hdr) (len - sizeof_hdr) = Ret txt → closed_text (cstring txt).

Section total.
Context (junk_512 : List.length junk = 512%nat).

Lemma secrets_ok_eq c c' : secrets c' = secrets c → secrets_ok c → secrets_ok c'.
Proof. intros Hs H pw new nth. rewrite Hs. apply H. Qed.

(** The hash of the password in use. *)
Lemma own_hash_total c f w :
  secrets_ok c → mc_config c = Some f → password f = Some w →
  (password_nthash f = true → (16 ≤ List.length w)%nat) ∧ (password_nthash f = false → utf8_whole w = true).
Proof.
  intros Hs Hf Hw. destruct (Hs (Some w) (new_password f) (password_nthash f)) as [H _]; [unfold secrets; by rewrite Hf, <-Hw|].
  specialize (H w eq_refl). by destruct (password_nthash f).
Qed.
Lemma new_whole c f w : secrets_ok c → mc_config c = Some f → new_password f = Some w → utf8_whole w = true.
Proof.
  intros Hs Hf Hw. destruct (Hs (password f) (Some w) (password_nthash f)) as [_ H]; [unfold secrets; by rewrite Hf, <-Hw|].
  by apply H.
Qed.

Lemma derive_total c f ident w ac pc :
  secrets_ok c → mc_config c = Some f → password f = Some w →
  ∃ o, mschapv2_derive_response ident w (password_nthash f) ac pc = Ret o ∧
    ∀ nt a k, o = Some (nt, a, k) → List.length nt = 24%nat.
Proof.
  intros Hs Hf Hw. destruct (own_hash_total c f w Hs Hf Hw) as [H1 H2]. unfold mschapv2_derive_response. cbv zeta.
  assert (∃ o, (if password_nthash f then h ← rdn w 0 16; Ret (Some h) else nt_password_hash mem junk w) = Ret o) as [o ->].
  { destruct (password_nthash f); [specialize (H1 eq_refl); rewrite rdn_ok by lia; by eexists|].
    destruct (nt_password_hash_total mem junk w junk_512 (H2 eq_refl)) as (o & -> & _). by eexists. }
  rewrite run_bind_l. destruct o as [h|]; [|eexists; split; [done|]; by intros nt a k [= ]]. eexists. split; [reflexivity|]. intros nt a k H.
  assert (∀ x y : list Z * list Z * list Z, Some x = Some y → x = y) as Hinj by (clear; congruence).
  apply Hinj, pair_equal_spec in H as [H _]. apply pair_equal_spec in H as [<- _]. apply length_challenge_response.
Qed.

Lemma ms_alloc ok n id : ∃ o, eap_msg_alloc ok EAP_VENDOR_IETF EAP_TYPE_MSCHAPV2 n EAP_CODE_RESPONSE id = Ret o ∧
  ∀ b, o = Some b → buf_size b = (5 + n)%nat ∧ List.length (buf_data b) = 5%nat.
Proof.
  destruct ok; [rewrite eap_msg_alloc_eq|]; eexists; (split; [done|]); intros b; [|done]. intros [= <-]. cbn [buf_size buf_data].
  done.
Qed.
Lemma ms_put b l : (List.length (buf_data b) + List.length l ≤ buf_size b)%nat →
  ∃ b', wpabuf_put_data b l = Ret b' ∧ buf_size b' = buf_size b ∧ List.length (buf_data b') = (List.length (buf_data b) + List.length l)%nat.
Proof. intros H. rewrite put_ok by done. eexists. split; [done|]. cbn [buf_size buf_data]. by rewrite length_app. Qed.
Lemma random_length n c x c' : random_get_bytes n c = (Some x, c') → List.length x = n.
Proof.
  unfold random_get_bytes. destruct (randoms c) as [|[l|] rs]; [done| |done]. intros [= <- _]. apply length_resize.
Qed.

Lemma reply_total c d id mid chal : secrets_ok c → ∃ x, eap_mschapv2_challenge_reply c d id mid chal = Ret x.
Proof.
  intros Hs. unfold eap_mschapv2_challenge_reply, eap_get_config_identity, eap_get_config_password2.
  destruct (mc_config c) as [f|] eqn:Hf; [|by eexists]. cbn [mbind option_bind]. destruct (identity f) as [ident|]; [|by eexists].
  destruct (password f) as [w|] eqn:Hw; [|by eexists]. cbv zeta. destruct (os_malloc c) as [ok c1].
  set (n := (sizeof_hdr + 1 + sizeof_response + List.length ident)%nat).
  destruct (ms_alloc ok n id) as (o & -> & Ho). cbn [mbind run_bind]. destruct o as [b|]; [|by eexists].
  destruct (Ho b eq_refl) as [Hb1 Hb2]. subst n. unfold sizeof_hdr, sizeof_response in Hb1.
  edestruct (ms_put b) as (b1 & -> & Hs1 & Hl1); [|cbn [mbind run_bind]]; [rewrite length_app, length_be_put; cbn [List.length]; lia|].
  rewrite length_app, length_be_put in Hl1. cbn [List.length] in Hl1. unfold wpabuf_put_u8.
  edestruct (ms_put b1) as (b2 & -> & Hs2 & Hl2); [|cbn [mbind run_bind]]; [rewrite length_be_put; lia|]. rewrite length_be_put in Hl2.
  destruct (match ms_peer_challenge d with Some _ => _ | None => _ end) as [[chal' fld] c2] eqn:Hc.
  destruct chal' as [pc|]; [|by eexists].
  assert (List.length fld = 16%nat) as Hfl.
  { destruct (ms_peer_challenge d); [by injection Hc as _ <- _|]. destruct (random_get_bytes MSCHAPV2_CHAL_LEN c1) as [x c3] eqn:Hr.
    injection Hc as -> <- _. cbn [default]. by eapply random_length. }
  destruct (derive_total c f ident w (default chal (ms_auth_challenge d)) pc Hs Hf Hw) as (o & -> & Ho'). cbn [mbind run_bind].
  destruct o as [[[nt a] k]|]; [|by eexists]. specialize (Ho' _ _ _ eq_refl).
  edestruct (ms_put b2) as (b3 & -> & Hs3 & Hl3); [|cbn [mbind run_bind]].
  { rewrite !length_app, repeat_length. cbn [List.length]. lia. }
  rewrite !length_app, repeat_length in Hl3. cbn [List.length] in Hl3.
  edestruct (ms_put b3 ident) as (b4 & -> & _); [lia|]. by eexists.
Qed.

Lemma change_password_total c d r req pos id :
  secrets_ok c → (pos + 1 < List.length req)%nat → ∃ x, eap_mschapv2_change_password c d r req pos id = Ret x.
Proof.
  intros Hs Hp. unfold eap_mschapv2_change_password, eap_get_config_identity, eap_get_config_password2, eap_get_config_new_password.
  destruct (mc_config c) as [f|] eqn:Hf; [|by eexists]. cbn [mbind option_bind]. destruct (identity f) as [ident|]; [|by eexists].
  destruct (password f) as [w|] eqn:Hw; [|by eexists]. destruct (new_password f) as [new|] eqn:Hn; [|by eexists]. cbv zeta.
  pose proof (new_whole c f new Hs Hf Hn) as Hnw. destruct (own_hash_total c f w Hs Hf Hw) as [Hw1 Hw2].
  destruct (nt_password_hash_total mem junk new junk_512 Hnw) as (hn & Hhn & Hhn').
  destruct (os_malloc c) as [ok c1]. destruct (ms_alloc ok (sizeof_hdr + sizeof_change_password) id) as (o & -> & Ho). cbn [mbind run_bind].
  destruct o as [b|]; [|by eexists]. destruct (Ho b eq_refl) as [Hb1 Hb2]. destruct (rd_total req (pos + 1)) as [mid ->]; [lia|].
  cbn [mbind run_bind]. unfold sizeof_hdr, sizeof_change_password in Hb1.
  edestruct (ms_put b) as (b1 & -> & Hs1 & Hl1); [|cbn [mbind run_bind]]; [rewrite length_app, length_be_put; cbn [List.length]; lia|].
  rewrite length_app, length_be_put in Hl1. cbn [List.length] in Hl1.
  destruct (random_get_bytes 512 c1) as [filler c2].
  assert (∃ e, (if password_nthash f then h ← rdn w 0 16; encrypt_pw_block_with_password_hash filler new h
    else new_password_encrypted_with_old_nt_password_hash mem junk filler new w) = Ret e ∧ ∀ x, e = Some x → List.length x = 516%nat)
    as (e & -> & He).
  { destruct (password_nthash f).
    - rewrite rdn_ok by (specialize (Hw1 eq_refl); lia). cbn [mbind run_bind]. apply encrypt_pw_block_total; [done|].
      specialize (Hw1 eq_refl). destruct w; [cbn in Hw1; lia|done].
    - unfold new_password_encrypted_with_old_nt_password_hash.
      destruct (nt_password_hash_total mem junk w junk_512 (Hw2 eq_refl)) as (o1 & -> & Ho1). cbn [mbind run_bind].
      destruct o1 as [h|]; [|eexists; split; [done|]; by intros x [= ]]. apply encrypt_pw_block_total; [done|].
      specialize (Ho1 h eq_refl). by destruct h. }
  cbn [mbind run_bind]. destruct e as [enc|]; [|by eexists]. specialize (He enc eq_refl).
  match goal with |- context [mbind ?k (if password_nthash f then ?a else ?b)] =>
    assert (∃ x, (if password_nthash f then a else b) = Ret x ∧ List.length x = 16%nat) as (eh & -> & Heh) end.
  { destruct (password_nthash f).
    - rewrite rdn_ok by (specialize (Hw1 eq_refl); lia). rewrite Hhn. cbn [mbind run_bind]. eexists. split; [reflexivity|]. apply length_hash_block.
    - unfold old_nt_password_hash_encrypted_with_new_nt_password_hash.
      destruct (nt_password_hash_total mem junk w junk_512 (Hw2 eq_refl)) as (o1 & -> & Ho1). cbn [mbind run_bind].
      destruct o1; [|by eexists]. rewrite Hhn. cbn [mbind run_bind]. eexists. split; [reflexivity|]. destruct hn; [apply length_hash_block|done]. }
  cbn [mbind run_bind]. destruct (random_get_bytes MSCHAPV2_CHAL_LEN c2) as [[pc|] c3] eqn:Hr; [|by eexists]. apply random_length in Hr.
  unfold generate_nt_response, generate_authenticator_response. rewrite Hhn. cbn [mbind run_bind]. cbv zeta.
  set (nt := default (repeat 0 MSCHAPV2_NT_RESPONSE_LEN) _). assert (List.length nt = 24%nat) as Hnt
    by (unfold nt; destruct hn; [apply length_challenge_response|done]). clearbody nt.
  edestruct (ms_put b1) as (b2 & -> & _); [|by eexists].
  rewrite !length_app, !repeat_length, He, Heh, Hnt, Hr. unfold MSCHAPV2_CHAL_LEN. cbn [List.length]. lia.
Qed.

Lemma strchr_split x s rest : strchr x s = Some rest → ∃ pre, s = pre ++ rest ∧ (x ∉ pre) ∧ ∃ t, rest = x :: t.
Proof.
  induction s as [|y s IH]; cbn [strchr]; [done|]. destruct (Z.eqb_spec y x) as [->|Hne].
  - intros [= <-]. exists []. split; [done|]. split; [by apply not_elem_of_nil|]. by eexists.
  - intros (pre & -> & Hn & Ht)%IH. exists (y :: pre). split; [done|]. split; [|done]. apply not_elem_of_cons. by split; [apply not_eq_sym|].
Qed.
(** The text that is left is a suffix. *)
Definition suffix_text (pos : option (list Z)) (s : list Z) : Prop := ∀ t, pos = Some t → ∃ pre, s = pre ++ t.
Lemma field_suffix tag pos s t :
  List.length (bytes_of tag) = 2%nat → suffix_text pos s → field tag pos = Some t → ∃ pre, s = pre ++ bytes_of tag ++ t.
Proof.
  intros Hl Hs. unfold field. destruct pos as [u|]; [|done]. destruct (Hs u eq_refl) as [pre ->]. unfold starts. case_bool_decide as Hb; [|done].
  intros [= <-]. exists pre. rewrite <-Hb at 1. rewrite Hl. by rewrite take_drop.
Qed.
Lemma next_suffix pre tag t : suffix_text (next_field t) (pre ++ tag ++ t).
Proof.
  intros u. unfold next_field. destruct (strchr 32 t) as [[|y rest]|] eqn:Hc; try done. intros [= ->].
  apply strchr_split in Hc as (p & -> & _). exists (pre ++ tag ++ p ++ [y]). by rewrite <-!app_assoc.
Qed.

Lemma failure_challenge_total t d : is_Some (strchr 32 t) → ∃ x, failure_challenge t d = Ret x.
Proof.
  intros [rest Hr]. unfold failure_challenge. rewrite Hr. destruct (Nat.eqb_spec (List.length t - List.length rest) (PASSWD_CHANGE_CHAL_LEN * 2)) as [He|]; [|by eexists].
  apply strchr_split in Hr as (p & -> & _). rewrite length_app in He. unfold PASSWD_CHANGE_CHAL_LEN in *.
  destruct (hexstr2bin_total ((p ++ rest) ++ [0]) 0 16) as (l & ok & -> & _); [rewrite !length_app; cbn; lia|]. by eexists.
Qed.
Lemma failure_fields_total txt d : closed_text txt → ∃ x, failure_fields txt d = Ret x.
Proof.
  intros Hc. unfold failure_fields. cbv zeta.
  destruct (match field "E=" (Some txt) with Some _ => _ | None => _ end) as [d1 pos1] eqn:E1.
  assert (suffix_text (Some txt) txt) as H0 by (intros t [= ->]; by exists []).
  assert (suffix_text pos1 txt) as H1.
  { destruct (field "E=" (Some txt)) as [t|] eqn:Hf; injection E1 as _ <-; [|done].
    apply (field_suffix "E=" _ txt) in Hf as [pre ->]; [|done..]. apply next_suffix. }
  clear E1 H0. destruct (match field "R=" pos1 with Some _ => _ | None => _ end) as [retry pos2] eqn:E2.
  assert (suffix_text pos2 txt) as H2.
  { destruct (field "R=" pos1) as [t|] eqn:Hf; injection E2 as _ <-; [|done].
    apply (field_suffix "R=" _ txt) in Hf as [pre ->]; [|done..]. apply next_suffix. }
  clear E2 H1. destruct (field "C=" pos2) as [t|] eqn:Hf; [|by eexists].
  apply (field_suffix "C=" _ txt) in Hf as [pre ->]; [|done..].
  destruct (failure_challenge_total t d1) as [d2 ->]; [by apply (Hc pre)|]. by eexists.
Qed.

Lemma failure_total c d r req pos len id :
  secrets_ok c → (pos + len ≤ List.length req)%nat → (5 ≤ len)%nat →
  (∀ txt, rdn req (pos + sizeof_hdr) (len - sizeof_hdr) = Ret txt → closed_text (cstring txt)) →
  ∃ x, eap_mschapv2_failure c d r req pos len id = Ret x.
Proof.
  intros Hs Hp Hl Hc. unfold eap_mschapv2_failure. unfold sizeof_hdr in *. rewrite rdn_ok in * by lia. rewrite run_bind_l.
  set (txt := take (len - 4) _) in *. specialize (Hc txt eq_refl). pose proof (malloc_secrets c) as Hm. destruct (os_malloc c) as [ok c1].
  cbn [snd] in Hm.
  assert (∃ b d1 c2, (if ok : bool then eap_mschapv2_failure_txt c1 d (cstring txt) else Ret (false, d, c1)) = Ret (b, d1, c2) ∧
    secrets c2 = secrets c) as (b & d1 & c2 & H1 & Hs2).
  { destruct ok; [|by exists false, d, c1]. destruct (failure_fields_total (cstring txt) d Hc) as [[z d1] Hf].
    destruct (eap_mschapv2_failure_txt c1 d (cstring txt)) as [[[b d2] c2]| |] eqn:Ht.
    - exists b, d2, c2. split; [done|]. apply failure_txt_same in Ht as (_ & Ht & _). congruence.
    - unfold eap_mschapv2_failure_txt in Ht. by rewrite Hf in Ht.
    - unfold eap_mschapv2_failure_txt in Ht. by rewrite Hf in Ht. }
  rewrite H1, run_bind_l. cbv zeta.
  assert (∀ c0 r0, ∃ x, failure_reply c0 d1 r0 id = Ret x) as Hr.
  { intros c0 r0. unfold failure_reply. destruct (os_malloc c0) as [ok0 c3]. destruct (ms_alloc ok0 1 id) as (o & -> & Ho). rewrite run_bind_l.
    destruct o as [b0|]; [|by eexists]. destruct (Ho b0 eq_refl) as [Hb1 Hb2]. unfold wpabuf_put_u8.
    edestruct (ms_put b0) as (b1 & -> & _); [|by eexists]. rewrite length_be_put. lia. }
  if_branch; [|if_branch; [by eexists|apply Hr]]. destruct (eap_get_config c2) as [f|]; [|apply Hr]. case_bool_decide as Hn.
  - apply change_password_total; [by eapply secrets_ok_eq|lia].
  - if_branch; [by eexists|apply Hr].
Qed.

Lemma verify_total auth buf pos len : (pos + len ≤ List.length buf)%nat → ∃ x, mschapv2_verify_auth_response auth buf pos len = Ret x.
Proof.
  intros Hl. unfold mschapv2_verify_auth_response, MSCHAPV2_AUTH_RESPONSE_LEN. destruct (Nat.ltb_spec len (2 + 2 * 20)); [by eexists|].
  destruct (rd_total buf pos) as [a ->]; [lia|]. rewrite run_bind_l. if_branch; [by eexists|].
  destruct (rd_total buf (pos + 1)) as [a1 ->]; [lia|]. rewrite run_bind_l. if_branch; [by eexists|].
  destruct (hexstr2bin_total buf (pos + 2) 20) as (l & ok & -> & _); [lia|]. by eexists.
Qed.
Lemma success_total c d r req pos len id :
  secrets_ok c → (pos + len ≤ List.length req)%nat → (5 ≤ len)%nat → ∃ x, eap_mschapv2_success c d r req pos len id = Ret x.
Proof.
  intros Hs Hp Hl. unfold eap_mschapv2_success.
  assert (∃ v, (if auth_response_valid d then mschapv2_verify_auth_response (auth_response d) req (pos + sizeof_hdr) (len - sizeof_hdr)
    else Ret false) = Ret v) as [v ->] by (destruct (auth_response_valid d); [apply verify_total; unfold sizeof_hdr; lia|by eexists]).
  rewrite run_bind_l. if_branch; [by eexists|]. pose proof (malloc_secrets c) as Hm. destruct (os_malloc c) as [ok c1]. cbn [snd] in Hm.
  destruct (ms_alloc ok 1 id) as (o & -> & Ho). rewrite run_bind_l. destruct o as [b|]; [|by eexists]. destruct (Ho b eq_refl) as [Hb1 Hb2].
  unfold wpabuf_put_u8. edestruct (ms_put b) as (b1 & -> & _); [rewrite length_be_put; lia|]. rewrite run_bind_l. cbv zeta.
  if_branch; [|by eexists]. unfold eap_mschapv2_password_changed, eap_get_config.
  destruct (mc_config c1) as [f|] eqn:Hf; [|by eexists]. destruct (new_password f) as [w|] eqn:Hw; [|by eexists].
  assert (utf8_whole w = true) as Hwh by (apply (new_whole c1 f); [by eapply secrets_ok_eq|done..]). cbv zeta.
  if_branch; [|by eexists]. destruct (os_malloc c1) as [ok1 c2]. destruct ok1; [|by eexists].
  destruct (nt_password_hash_total mem junk w junk_512 Hwh) as (o & -> & _). by eexists.
Qed.

Lemma ms_dispatch_total c d r m b : secrets_ok c → closed_message m → ∃ x, ms_dispatch c d r m b = Ret x.
Proof.
  intros Hs Hc. unfold ms_dispatch. destruct (eap_hdr_validate_total EAP_VENDOR_IETF EAP_TYPE_MSCHAPV2 m) as (v & Hv & Hp). rewrite Hv, run_bind_l.
  destruct v as [[pos len]|]; [|by eexists]. destruct (Hp pos len eq_refl) as [Hp1 Hp2].
  destruct (Nat.ltb_spec len (sizeof_hdr + 1)) as [|Hl]; [by eexists|]. unfold sizeof_hdr in Hl. unfold eap_mschapv2_check_mslen.
  destruct (get_be16_total m (pos + 2)) as [z ->]; [lia|]. rewrite !run_bind_l. if_branch; [by eexists|].
  assert (∃ i, eap_get_id m = Ret i) as [id ->].
  { unfold eap_get_id. if_branch; [by eexists|]. apply rd_total. lia. }
  rewrite run_bind_l. destruct (rd_total m pos) as [op ->]; [lia|]. rewrite run_bind_l. if_branch.
  - destruct (if b then (d, c) else eap_mschapv2_copy_challenge d m c) as [d1 c1] eqn:Hcc.
    assert (secrets_ok c1) as Hs1.
    { destruct b; [by injection Hcc as <- <-|]. unfold eap_mschapv2_copy_challenge in Hcc. pose proof (malloc_secrets c) as Hm.
      destruct (os_malloc c) as [ok c2]. injection Hcc as _ <-. by eapply secrets_ok_eq. }
    unfold eap_mschapv2_challenge. destruct (eap_get_config_identity c1), (eap_get_config_password c1); try by eexists.
    if_branch; [by eexists|]. destruct (rd_total m (pos + 4)) as [cl ->]; [lia|]. rewrite run_bind_l. if_branch; [by eexists|].
    unfold sizeof_hdr, MSCHAPV2_CHAL_LEN. destruct (Nat.ltb_spec (len - 4 - 1) 16); [by eexists|]. rewrite rdn_ok, run_bind_l by lia.
    destruct (rd_total m (pos + 1)) as [mid ->]; [lia|]. rewrite run_bind_l. cbv zeta.
    match goal with |- context [eap_mschapv2_challenge_reply ?a ?b ?e ?f ?g] => destruct (reply_total a b e f g Hs1) as [[[o1 d2] c2] ->] end.
    by eexists.
  - if_branch; [apply success_total; [done|lia|lia]|]. if_branch; [|by eexists]. apply failure_total; [done|lia|lia|]. intros txt. by apply Hc.
Qed.

(** Every request is answered or ignored, without reading or writing outside a buffer: if
    the passwords are fit for it, and if the challenge in the text of a failure is followed
    by a space. *)
Theorem mschapv2_returns c d r req :
  secrets_ok c → closed_message req → (∀ m, prev_challenge d = Some m → closed_message m) →
  ∃ x, eap_mschapv2_process c d r req = Ret x.
Proof.
  intros Hs Hq Hp. unfold eap_mschapv2_process. destruct (eap_mschapv2_check_config c) as [ok c1] eqn:Hc.
  assert (secrets_ok c1) as Hs1.
  { eapply secrets_ok_eq; [|exact Hs]. unfold eap_mschapv2_check_config in Hc.
    destruct (eap_get_config_identity c); [destruct (eap_get_config_password c)|]; injection Hc as _ <-; try done; apply request_secrets. }
  if_branch; [by eexists|]. destruct (eap_get_config c1) as [f|]; [|by apply ms_dispatch_total].
  destruct (prev_challenge d) as [prev|]; [|by apply ms_dispatch_total]. if_branch; [|by apply ms_dispatch_total].
  apply ms_dispatch_total; [by eapply secrets_ok_eq; [apply retry_secrets|]|by apply Hp].
Qed.
End total.
End mschapv2.

(** ** The conversation of RFC 2759 *)

Module MsDemo.
Import Rfc2759.

Definition ms_mem : list Z := repeat 0 64.
Definition ms_junk : list Z := repeat 7 512.
Definition no_big (_ : list Z) : Z := 0.
Definition ms_conf (new : option (list Z)) : eap_peer_config :=
  EapPeerConfig (Some (bytes_of "DOMAIN\User")) None (Some pass) new false None None None None None false 1398 0 0 0 0 0 None false.
Definition ms_ctx (new : option (list Z)) : method_ctx :=
  MethodCtx (Some (ms_conf new)) false false false 60 0 false None None false [] [Some Rfc2759.peer_challenge] [].
Definition ms_request (op : Z) (payload : list Z) : list Z :=
  eap_message EAP_CODE_REQUEST 9 EAP_VENDOR_IETF EAP_TYPE_MSCHAPV2 ([op; 9] ++ be_put 2 (Z.of_nat (4 + List.length payload)) ++ payload).
Definition ms_challenge : list Z := ms_request MSCHAPV2_OP_CHALLENGE ([16] ++ Rfc2759.auth_challenge ++ bytes_of "server").
Definition ms_proof : list Z :=
  ms_request MSCHAPV2_OP_SUCCESS (bytes_of "S=407A5589115FD0D6209F510FE9C04566932CDA56 M=Welcome").
Definition none_yet : eap_method_ret := MethodRet true METHOD_INIT DECISION_FAIL false.

Definition ms_first : option eap_mschapv2_data := (eap_mschapv2_init None (ms_ctx None)).1.
Definition ms_data0 : eap_mschapv2_data :=
  MsData (repeat 0 20) false 0 (repeat 0 16) false 0 None None false (repeat 0 16) false false None.
Definition ms_run (c : method_ctx) (d : eap_mschapv2_data) (m : list Z) := eap_mschapv2_process ms_mem ms_junk no_big c d none_yet m.
Definition ms_data1 : eap_mschapv2_data := match ms_run (ms_ctx None) ms_data0 ms_challenge with Ret (_, _, d, _) => d | _ => ms_data0 end.

(** The response to the challenge, and the end. *)
Example ms_answer :
  match ms_run (ms_ctx None) ms_data0 ms_challenge with
  | Ret (Some m, r, d, _) => Some (drop 5 m, ret_decision r)
  | _ => None
  end = Some ([2; 9; 0; 65; 49] ++ Rfc2759.peer_challenge ++ repeat 0 8 ++ nt_response ++ [0] ++ bytes_of "DOMAIN\User", DECISION_FAIL).
Proof. vm_compute. reflexivity. Qed.
Example ms_end :
  match ms_run (ms_ctx None) ms_data1 ms_proof with
  | Ret (Some m, r, d, _) => Some (drop 5 m, r, success d)
  | _ => None
  end = Some ([3], MethodRet true METHOD_DONE DECISION_UNCOND_SUCC false, true).
Proof. vm_compute. reflexivity. Qed.

(** A failure whose challenge is the last field is not handled. *)
Example ms_failure_null :
  ms_run (ms_ctx None) ms_data1 (ms_request MSCHAPV2_OP_FAILURE (bytes_of "E=691 R=1 C=0011")) = UB NullDeref.
Proof. vm_compute. reflexivity. Qed.

(** An expired password: the new one is sent, and replaces the old one after the success. *)
Definition expired : list Z :=
  ms_request MSCHAPV2_OP_FAILURE (bytes_of "E=648 R=0 C=00112233445566778899AABBCCDDEEFF V=3 M=Password expired").
Definition change_ctx : method_ctx := ms_ctx (Some (bytes_of "newPass")) <| randoms := [Some (repeat 3 512); Some Rfc2759.peer_challenge] |>.
Example ms_change :
  match ms_run change_ctx ms_data1 expired with
  | Ret (Some m, r, d, c) =>
      match ms_run c d (ms_request MSCHAPV2_OP_SUCCESS (bytes_of "S=" ++ hex_text (auth_response d))) with
      | Ret (Some _, r', d', c') => Some (List.length m, take 4 (drop 5 m), ret_decision r, ret_decision r', secrets c')
      | _ => None
      end
  | _ => None
  end = Some (591%nat, [7; 10; 2; 74], DECISION_COND_SUCC, DECISION_UNCOND_SUCC, Some (Some (bytes_of "newPass"), None, false)).
Proof. vm_compute. reflexivity. Qed.

(** The hash of the configured password. *)
Definition the_hash (h : list Z) : Prop :=
  h = [0x44; 0xeb; 0xba; 0x8d; 0x53; 0x12; 0xb8; 0xd6; 0x11; 0x47; 0x44; 0x11; 0xf5; 0x69; 0x89; 0xae].
Lemma ms_knows : knows ms_mem ms_junk the_hash (eq Rfc2759.peer_challenge) (ms_ctx None).
Proof.
  split; [|by intros x [= ->]%list_elem_of_singleton]. intros h (pw & new & nth & H & Hh). injection H as <- <- <-. destruct Hh as [(w & Hw & Hh)|(w & Hw & _)]; [|done].
  injection Hw as <-. unfold ms_mem, ms_junk in Hh. rewrite rfc2759_password_hash in Hh. unfold the_hash. congruence.
Qed.
Lemma ms_reached : ms_reach ms_mem ms_junk no_big the_hash (eq Rfc2759.peer_challenge) ms_data1.
Proof.
  apply (ms_step _ _ _ _ _ (ms_ctx None) ms_data0 none_yet ms_challenge
    (match ms_run (ms_ctx None) ms_data0 ms_challenge with Ret (o, _, _, _) => o | _ => None end)
    (match ms_run (ms_ctx None) ms_data0 ms_challenge with Ret (_, r, _, _) => r | _ => none_yet end) ms_data1
    (match ms_run (ms_ctx None) ms_data0 ms_challenge with Ret (_, _, _, c) => c | _ => ms_ctx None end)).
  - apply (ms_start _ _ _ _ _ None (ms_ctx None) ms_data0 (ms_ctx None)); [done|reflexivity].
  - exact ms_knows.
  - vm_compute. reflexivity.
Qed.

Lemma mschapv2_authenticated_witness :
  ∃ h ac pc u m, the_hash h ∧ Rfc2759.peer_challenge = pc ∧ auth_response ms_data1 = auth_proof ms_mem h ac pc u ∧
    (m = ms_proof ∨ prev_challenge ms_data1 = Some m) ∧ carries m (auth_response ms_data1) ∧
    success (ms_data1 <| success := true |>) = true ∧ master_key (ms_data1 <| success := true |>) = ms_master_key ms_mem h ac pc u.
Proof.
  apply (mschapv2_authenticated ms_mem ms_junk no_big the_hash (eq Rfc2759.peer_challenge) eq_refl (ms_ctx None) ms_data1 none_yet ms_proof
    (Some (eap_message EAP_CODE_RESPONSE 9 EAP_VENDOR_IETF EAP_TYPE_MSCHAPV2 [3]))
    (MethodRet true METHOD_DONE DECISION_UNCOND_SUCC false) (ms_data1 <| success := true |>) (ms_ctx None));
    [exact ms_reached|exact ms_knows|vm_compute; reflexivity|discriminate|reflexivity].
Defined.
End MsDemo.
