(* ===== verification/Eap.v ===== *)
(** * The EAP peer state machine (src/src/eap_peer/eap.c)

    The machine of RFC 4137 with the local additions of the code.  [struct eap_sm] is
    the record [eap_sm]; the fields that methods share with it are its component
    [mc].  The variables of the EAPOL layer ([eapReq], [eapResp], ...) are read and
    written through callbacks: during an operation [est] holds their current values
    and the writes made so far, in order.  The received message [req] does not change
    during an operation.  [history] records what the machine did, for the statements;
    no code reads it.  The build is one without PCSC_FUNCS. *)

From S2P Require Import Prelude Merkle Md5 EapCommon EapMethods EapolSupp.

(** ** Data *)

Inductive EAP_state_t :=
| EAP_INITIALIZE | EAP_DISABLED | EAP_IDLE | EAP_RECEIVED | EAP_GET_METHOD | EAP_METHOD
| EAP_SEND_RESPONSE | EAP_DISCARD | EAP_IDENTITY | EAP_NOTIFICATION | EAP_RETRANSMIT
| EAP_SUCCESS | EAP_FAILURE.

#[global] Instance EAP_state_eq_dec : EqDecision EAP_state_t.
Proof. solve_decision. Defined.

(** A session starts, a method accepts a request with a decision, success is forced
    from outside, success or failure is signalled, a request is received. *)
Inductive eap_event :=
| EvSession | EvMethod (d : EapDecision) | EvForced | EvSuccess | EvFailure | EvReceived.

Record eap_sm (P : Type) := EapSm {
  EAP_state : EAP_state_t;
  selectedMethod : Z; methodState : EapMethodState; lastId : Z; lastRespData : option (list Z);
  decision : EapDecision;
  rxReq : bool; rxSuccess : bool; rxFailure : bool; rxResp : bool;
  reqId : Z; reqMethod : Z; reqVendor : Z; reqVendorMethod : Z;
  allowNotifications : bool; eapRespData : option (list Z);
  eapKeyAvailable : bool; eapKeyData : option (list Z);
  m : option (eap_method P); eap_method_priv : option P;
  eap_changed : bool; req_md5 : list Z; last_md5 : list Z;
  num_rounds : Z; force_disabled : bool; prev_failure : bool;
  mc : method_ctx; history : list eap_event
}.
Arguments EapSm {P}. Arguments EAP_state {P}. Arguments selectedMethod {P}. Arguments methodState {P}.
Arguments lastId {P}. Arguments lastRespData {P}. Arguments decision {P}. Arguments rxReq {P}. Arguments rxSuccess {P}.
Arguments rxFailure {P}. Arguments rxResp {P}. Arguments reqId {P}. Arguments reqMethod {P}. Arguments reqVendor {P}.
Arguments reqVendorMethod {P}. Arguments allowNotifications {P}. Arguments eapRespData {P}.
Arguments eapKeyAvailable {P}. Arguments eapKeyData {P}. Arguments m {P}. Arguments eap_method_priv {P}.
Arguments eap_changed {P}. Arguments req_md5 {P}. Arguments last_md5 {P}. Arguments num_rounds {P}.
Arguments force_disabled {P}. Arguments prev_failure {P}. Arguments mc {P}. Arguments history {P}.

#[global] Instance eta_eap_sm {P} : Eta (eap_sm P) := λ s,
  EapSm (EAP_state s) (selectedMethod s) (methodState s) (lastId s) (lastRespData s) (decision s) (rxReq s)
    (rxSuccess s) (rxFailure s) (rxResp s) (reqId s) (reqMethod s) (reqVendor s) (reqVendorMethod s)
    (allowNotifications s) (eapRespData s) (eapKeyAvailable s) (eapKeyData s) (m s) (eap_method_priv s)
    (eap_changed s) (req_md5 s) (last_md5 s) (num_rounds s) (force_disabled s) (prev_failure s) (mc s) (history s).

(** An operation in progress. *)
Record est (P : Type) := Est {
  esm : eap_sm P; ebool : eapol_bool_var → bool; eidle : Z; ews : list eap_write
}.
Arguments Est {P}. Arguments esm {P}. Arguments ebool {P}. Arguments eidle {P}. Arguments ews {P}.

#[global] Instance eta_est {P} : Eta (est P) := λ s, Est (esm s) (ebool s) (eidle s) (ews s).

Definition EAP_MAX_AUTH_ROUNDS : Z := 50.
Definition EAP_CLIENT_TIMEOUT_DEFAULT : Z := 60.

Section machine.
Context {P : Type} (methods : list (eap_method P)) (mem : list Z) (req : option (list Z)).
Implicit Types s : est P.

Local Notation "s .[ f := v ]" := (update (f := esm) (λ e, update (f := f) (λ _, v) e) s)
  (at level 1, f at next level, left associativity).
Local Notation "s .{ f := v }" := (update (f := esm) (λ e, update (f := mc) (λ c, update (f := f) (λ _, v) c) e) s)
  (at level 1, f at next level, left associativity).

Definition eapol_get_bool (s : est P) (v : eapol_bool_var) : bool := ebool s v.
Definition eapol_set_bool (v : eapol_bool_var) (b : bool) (s : est P) : est P :=
  s <| ebool := λ w, if bool_decide (w = v) then b else ebool s w |> <| ews := ews s ++ [SetBool v b] |>.
Definition eapol_get_int (s : est P) : Z := eidle s.
Definition eapol_set_int (z : Z) (s : est P) : est P := s <| eidle := z |> <| ews := ews s ++ [SetIdleWhile z] |>.
Definition record (e : eap_event) (s : est P) : est P := s.[history := history (esm s) ++ [e]].

(** [SM_ENTRY] *)
Definition sm_entry (st : EAP_state_t) (global : bool) (s : est P) : est P :=
  let s := if negb global || negb (bool_decide (EAP_state (esm s) = st)) then s.[eap_changed := true] else s in
  s.[EAP_state := st].

(** Allocation through the answers in [mc]. *)
Definition sm_malloc (s : est P) : bool * est P :=
  let '(ok, c) := os_malloc (mc (esm s)) in (ok, s.[mc := c]).

(** ** Methods *)

(** Private data of the current method; the code passes it on without a check. *)
Definition priv (s : est P) : run P :=
  match eap_method_priv (esm s) with Some p => Ret p | None => UB NullDeref end.

Definition eap_deinit_prev_method (s : est P) : est P :=
  match m (esm s), eap_method_priv (esm s) with
  | Some mt, Some p =>
      let s := s.[mc := deinit mt p (mc (esm s))] in
      s.[eap_method_priv := None].[m := None]
  | _, _ => s
  end.

(** [sm->m && sm->m->has_reauth_data && sm->m->has_reauth_data(sm, priv)] *)
Definition method_has_reauth_data (s : est P) : run bool :=
  match m (esm s) with
  | None => Ret false
  | Some mt =>
      match has_reauth_data mt with
      | None => Ret false
      | Some f => p ← priv s; Ret (f p)
      end
  end.

(** ** States *)

(** The data of the previous method is kept for a fast re-authentication or dropped. *)
Definition initialize_method (s : est P) : run (est P) :=
  again ← (if mc_fast_reauth (mc (esm s)) then method_has_reauth_data s else Ret false);
  if again && negb (prev_failure (esm s)) then
    p ← priv s;
    match m (esm s) with
    | Some mt =>
        let '(p, c) := deinit_for_reauth mt p (mc (esm s)) in
        Ret (s.[mc := c].[eap_method_priv := Some p])
    | None => Ret s
    end
  else Ret (eap_deinit_prev_method s).

Definition sm_EAP_INITIALIZE_Enter (global : bool) (s : est P) : run (est P) :=
  let s := sm_entry EAP_INITIALIZE global s in
  s ← initialize_method s;
  let s := s.[selectedMethod := EAP_TYPE_NONE].[methodState := METHOD_NONE].[allowNotifications := true]
            .[decision := DECISION_FAIL] in
  let s := s.{ClientTimeout := EAP_CLIENT_TIMEOUT_DEFAULT} in
  let s := eapol_set_int (ClientTimeout (mc (esm s))) s in
  let s := eapol_set_bool EAPOL_eapSuccess false s in
  let s := eapol_set_bool EAPOL_eapFail false s in
  let s := s.[eapKeyData := None].[eapKeyAvailable := false] in
  let s := eapol_set_bool EAPOL_eapRestart false s in
  let s := s.[lastId := -1] in
  let s := eapol_set_bool EAPOL_eapResp false s in
  let s := eapol_set_bool EAPOL_eapNoResp false s in
  Ret (record EvSession (s.[num_rounds := 0].[prev_failure := false])).

Definition sm_EAP_DISABLED_Enter (global : bool) (s : est P) : run (est P) :=
  Ret ((sm_entry EAP_DISABLED global s).[num_rounds := 0]).

Definition sm_EAP_IDLE_Enter (global : bool) (s : est P) : run (est P) := Ret (sm_entry EAP_IDLE global s).

(** The switch on the code of [eap_sm_parseEapReq]. *)
Definition parse_code (r : list Z) (plen : nat) (s : est P) : run (est P) :=
  code ← rd r 0;
  if code =? EAP_CODE_REQUEST then
    if (plen <? 5)%nat then Ret s
    else
      t ← rd r 4;
      let s := s.[rxReq := true].[reqMethod := t] in
      if t =? EAP_TYPE_EXPANDED then
        if (plen <? 12)%nat then Ret s
        else
          v ← WPA_GET_BE24 r 5;
          w ← WPA_GET_BE32 r 8;
          Ret (s.[reqVendor := v].[reqVendorMethod := w])
      else Ret s
  else if code =? EAP_CODE_RESPONSE then
    if selectedMethod (esm s) =? EAP_TYPE_LEAP then
      if (plen <? 5)%nat then Ret s
      else t ← rd r 4; Ret (s.[rxResp := true].[reqMethod := t])
    else Ret s
  else if code =? EAP_CODE_SUCCESS then Ret (s.[rxSuccess := true])
  else if code =? EAP_CODE_FAILURE then Ret (s.[rxFailure := true])
  else Ret s.
Definition eap_sm_parseEapReq (s : est P) : run (est P) :=
  let s := s.[rxReq := false].[rxResp := false].[rxSuccess := false].[rxFailure := false].[reqId := 0]
            .[reqMethod := EAP_TYPE_NONE].[reqVendor := EAP_VENDOR_IETF].[reqVendorMethod := EAP_TYPE_NONE] in
  match req with
  | None => Ret s
  | Some r =>
      if (length r <? 4)%nat then Ret s
      else
        plen ← WPA_GET_BE16 r 2;
        let plen := Z.to_nat plen in
        if (length r <? plen)%nat then Ret s
        else
          i ← rd r 1;
          let s := s.[reqId := i] in
          s ← (if mc_workaround (mc (esm s)) =? 0 then Ret s
               else d ← rdn r 0 plen; Ret (s.[req_md5 := md5_vector mem [d]]));
          parse_code r plen s
  end.

Definition sm_EAP_RECEIVED_Enter (global : bool) (s : est P) : run (est P) :=
  let s := sm_entry EAP_RECEIVED global s in
  s ← eap_sm_parseEapReq s;
  Ret (record EvReceived (s.[num_rounds := num_rounds (esm s) + 1])).

(** *** Nak *)

(** The loops over the registered methods; a method that may not be proposed again is
    skipped. *)
Fixpoint expanded_nak_loop (c : method_ctx) (v t : Z) (l : list (eap_method P)) (found : bool) (resp : wpabuf)
  : run (bool * wpabuf) :=
  match l with
  | [] => Ret (found, resp)
  | x :: l =>
      if (v =? vendor x) && (t =? method x) then expanded_nak_loop c v t l found resp
      else if eap_allowed_method c (vendor x) (method x) then
        resp ← wpabuf_put_u8 resp EAP_TYPE_EXPANDED;
        resp ← wpabuf_put_be24 resp (vendor x);
        resp ← wpabuf_put_be32 resp (method x);
        expanded_nak_loop c v t l true resp
      else expanded_nak_loop c v t l found resp
  end.
Definition eap_sm_build_expanded_nak (i : Z) (s : est P) : run (option (list Z) * est P) :=
  let '(ok, s) := sm_malloc s in
  o ← eap_msg_alloc ok EAP_VENDOR_IETF EAP_TYPE_EXPANDED (8 + 8 * (length methods + 1)) EAP_CODE_RESPONSE i;
  match o with
  | None => Ret (None, s)
  | Some resp =>
      resp ← wpabuf_put_be24 resp EAP_VENDOR_IETF;
      resp ← wpabuf_put_be32 resp EAP_TYPE_NAK;
      r ← expanded_nak_loop (mc (esm s)) (reqVendor (esm s)) (reqVendorMethod (esm s)) methods false resp;
      let '(found, resp) := r in
      resp ← (if found : bool then Ret resp
              else
                resp ← wpabuf_put_u8 resp EAP_TYPE_EXPANDED;
                resp ← wpabuf_put_be24 resp EAP_VENDOR_IETF;
                wpabuf_put_be32 resp EAP_TYPE_NONE);
      Ret (Some (buf_data (eap_update_len resp)), s)
  end.

Fixpoint nak_loop (c : method_ctx) (t : Z) (l : list (eap_method P)) (found expanded_found : bool) (resp : wpabuf)
  : run (bool * wpabuf) :=
  match l with
  | [] => Ret (found, resp)
  | x :: l =>
      if (vendor x =? EAP_VENDOR_IETF) && (method x =? t) then nak_loop c t l found expanded_found resp
      else if eap_allowed_method c (vendor x) (method x) then
        if negb (vendor x =? EAP_VENDOR_IETF) then
          if expanded_found then nak_loop c t l found expanded_found resp
          else
            resp ← wpabuf_put_u8 resp EAP_TYPE_EXPANDED;
            nak_loop c t l true true resp
        else
          resp ← wpabuf_put_u8 resp (method x);
          nak_loop c t l true expanded_found resp
      else nak_loop c t l found expanded_found resp
  end.
Definition eap_sm_buildNak (i : Z) (s : est P) : run (option (list Z) * est P) :=
  match methods with
  | [] => Ret (None, s)
  | _ =>
      if reqMethod (esm s) =? EAP_TYPE_EXPANDED then eap_sm_build_expanded_nak i s
      else
        let '(ok, s) := sm_malloc s in
        o ← eap_msg_alloc ok EAP_VENDOR_IETF EAP_TYPE_NAK (4 + 1 + length methods + 1) EAP_CODE_RESPONSE i;
        match o with
        | None => Ret (None, s)
        | Some resp =>
            r ← nak_loop (mc (esm s)) (reqMethod (esm s)) methods false false resp;
            let '(found, resp) := r in
            resp ← (if found : bool then Ret resp else wpabuf_put_u8 resp EAP_TYPE_NONE);
            Ret (Some (buf_data (eap_update_len resp)), s)
        end
  end.

Definition get_method_nak (s : est P) : run (est P) :=
  r ← eap_sm_buildNak (reqId (esm s)) s;
  let '(resp, s) := r in
  Ret (s.[eapRespData := resp]).

(** *** GET_METHOD and METHOD *)

(** The method type of the request. *)
Definition req_type (s : est P) : Z :=
  if reqMethod (esm s) =? EAP_TYPE_EXPANDED then reqVendorMethod (esm s) else reqMethod (esm s).

(** Whether the data of the previous method can be used again. *)
Definition can_reauth (s : est P) : run bool :=
  if mc_fast_reauth (mc (esm s)) &&
     match m (esm s) with
     | Some mt => (vendor mt =? reqVendor (esm s)) && (method mt =? req_type s)
     | None => false
     end
  then method_has_reauth_data s else Ret false.

(** Initialisation of the selected method [mt]. *)
Definition init_method (reinit : bool) (mt : eap_method P) (s : est P) : run (est P) :=
  if reinit then
    p ← priv s;
    let '(o, c) := init_for_reauth mt p (mc (esm s)) in
    Ret (s.[mc := c].[eap_method_priv := o])
  else
    let '(o, c) := init mt (Some (vendor mt, method mt)) (mc (esm s)) in
    Ret (s.[mc := c].[eap_method_priv := o]).

(** A PIN or a passphrase has been asked for. *)
Definition pin_pending (s : est P) : bool :=
  match mc_config (mc (esm s)) with
  | Some f => negb (pending_req_pin f =? 0) || negb (pending_req_passphrase f =? 0)
  | None => false
  end.

(** The selected method is initialised, or given up with a Nak. *)
Definition start_method (reinit : bool) (mt : eap_method P) (s : est P) : run (est P) :=
  s ← init_method reinit mt s;
  match eap_method_priv (esm s) with
  | None =>
      let s := s.[m := None].[methodState := METHOD_NONE].[selectedMethod := EAP_TYPE_NONE] in
      if (reqMethod (esm s) =? EAP_TYPE_TLS) && pin_pending s then Ret s else get_method_nak s
  | Some _ => Ret (s.[methodState := METHOD_INIT])
  end.

Definition sm_EAP_GET_METHOD_Enter (global : bool) (s : est P) : run (est P) :=
  let s := sm_entry EAP_GET_METHOD global s in
  let t := req_type s in
  if negb (eap_sm_allowMethod methods (mc (esm s)) (reqVendor (esm s)) t) then get_method_nak s
  else
    reinit ← can_reauth s;
    let s := if reinit : bool then s else eap_deinit_prev_method s in
    let s := s.[selectedMethod := reqMethod (esm s)] in
    let s := match m (esm s) with
             | None => s.[m := eap_peer_get_eap_method methods (reqVendor (esm s)) t]
             | Some _ => s
             end in
    match m (esm s) with
    | None => get_method_nak s
    | Some mt =>
        let s := s.{ClientTimeout := EAP_CLIENT_TIMEOUT_DEFAULT} in
        start_method reinit mt s
    end.

(** The key of the method, when it has one. *)
Definition take_key (mt : eap_method P) (s : est P) : run (est P) :=
  match isKeyAvailable mt, getKey mt with
  | Some avail, Some key =>
      p ← priv s;
      Ret (if avail p : bool then let '(k, c) := key p (mc (esm s)) in s.[mc := c].[eapKeyData := k] else s)
  | _, _ => Ret s
  end.

Definition sm_EAP_METHOD_Enter (global : bool) (s : est P) : run (est P) :=
  let s := sm_entry EAP_METHOD global s in
  match m (esm s) with
  | None => Ret s
  | Some mt =>
      let ret := MethodRet (mc_ignore (mc (esm s))) (methodState (esm s)) (decision (esm s))
                   (allowNotifications (esm s)) in
      let s := s.[eapRespData := None] in
      p ← priv s;
      r ← (match req with Some r => Ret r | None => UB NullDeref end);
      x ← process mt (mc (esm s)) p ret r;
      let '(resp, ret, p, c) := x in
      let s := s.[mc := c].[eap_method_priv := Some p].[eapRespData := resp] in
      let s := s.{mc_ignore := ret_ignore ret} in
      if ret_ignore ret then Ret s
      else
        let s := s.[methodState := ret_methodState ret].[decision := ret_decision ret]
                  .[allowNotifications := ret_allowNotifications ret] in
        take_key mt (record (EvMethod (ret_decision ret)) s)
  end.

Definition sm_EAP_SEND_RESPONSE_Enter (global : bool) (s : est P) : run (est P) :=
  let s := sm_entry EAP_SEND_RESPONSE global s in
  let s :=
    match eapRespData (esm s) with
    | Some d =>
        let s := if mc_workaround (mc (esm s)) =? 0 then s else s.[last_md5 := req_md5 (esm s)] in
        let s := s.[lastId := reqId (esm s)] in
        let '(ok, s) := sm_malloc s in
        let s := s.[lastRespData := if ok then Some d else None] in
        eapol_set_bool EAPOL_eapResp true s
    | None => s.[lastRespData := None]
    end in
  let s := eapol_set_bool EAPOL_eapReq false s in
  Ret (eapol_set_int (ClientTimeout (mc (esm s))) s).

Definition sm_EAP_DISCARD_Enter (global : bool) (s : est P) : run (est P) :=
  let s := sm_entry EAP_DISCARD global s in
  let s := eapol_set_bool EAPOL_eapReq false s in
  Ret (eapol_set_bool EAPOL_eapNoResp true s).

(** *** Identity and notification *)

(** The identity to send: of the method, the anonymous one, or the configured one. *)
Definition pick_identity (encrypted : bool) (f : eap_peer_config) (s : est P) : run (option (list Z)) :=
  own ← (match m (esm s) with
         | Some mt => match get_identity mt with Some g => p ← priv s; Ret (g p) | None => Ret None end
         | None => Ret None
         end);
  match own with
  | Some i => Ret (Some i)
  | None =>
      match (if encrypted then None else anonymous_identity f) with
      | Some i => Ret (Some i)
      | None => Ret (identity f)
      end
  end.
(** Without PCSC_FUNCS every use of a smart card fails. *)
Definition eap_sm_set_scard_pin : Z := -1.
Definition eap_sm_get_scard_identity : Z := -1.

Definition eap_sm_buildIdentity (i : Z) (encrypted : bool) (s : est P) : run (option (list Z) * est P) :=
  match mc_config (mc (esm s)) with
  | None => Ret (None, s)
  | Some f =>
      who ← pick_identity encrypted f s;
      match who with
      | None =>
          if pcsc f then
            if eap_sm_get_scard_identity <? 0 then Ret (None, s) else Ret (None, s)
          else Ret (None, s.[mc := eap_sm_request_identity (mc (esm s))])
      | Some d =>
          if pcsc f && (eap_sm_set_scard_pin <? 0) then Ret (None, s)
          else
            let '(ok, s) := sm_malloc s in
            o ← eap_msg_alloc ok EAP_VENDOR_IETF EAP_TYPE_IDENTITY (length d) EAP_CODE_RESPONSE i;
            match o with
            | None => Ret (None, s)
            | Some resp => resp ← wpabuf_put_data resp d; Ret (Some (buf_data resp), s)
            end
      end
  end.

(** [eap_sm_processIdentity] reads the header for a debug message. *)
Definition eap_sm_processIdentity (s : est P) : run (est P) :=
  match req with None => UB NullDeref | Some r => _ ← WPA_GET_BE16 r 2; Ret s end.

Definition sm_EAP_IDENTITY_Enter (global : bool) (s : est P) : run (est P) :=
  let s := sm_entry EAP_IDENTITY global s in
  s ← eap_sm_processIdentity s;
  let s := s.[eapRespData := None] in
  r ← eap_sm_buildIdentity (reqId (esm s)) false s;
  let '(resp, s) := r in
  Ret (s.[eapRespData := resp]).

(** [eap_sm_processNotify] shows the printable text of the message. *)
Definition eap_sm_processNotify (s : est P) : run (est P) :=
  match req with
  | None => UB NullDeref
  | Some r =>
      o ← eap_hdr_validate EAP_VENDOR_IETF EAP_TYPE_NOTIFICATION r;
      match o with
      | None => Ret s
      | Some (pos, n) =>
          let '(ok, s) := sm_malloc s in
          if ok then _ ← rdn r pos n; Ret s else Ret s
      end
  end.
Definition eap_sm_buildNotify (i : Z) (s : est P) : run (option (list Z) * est P) :=
  let '(ok, s) := sm_malloc s in
  o ← eap_msg_alloc ok EAP_VENDOR_IETF EAP_TYPE_NOTIFICATION 0 EAP_CODE_RESPONSE i;
  Ret (option_map buf_data o, s).

Definition sm_EAP_NOTIFICATION_Enter (global : bool) (s : est P) : run (est P) :=
  let s := sm_entry EAP_NOTIFICATION global s in
  s ← eap_sm_processNotify s;
  let s := s.[eapRespData := None] in
  r ← eap_sm_buildNotify (reqId (esm s)) s;
  let '(resp, s) := r in
  Ret (s.[eapRespData := resp]).

Definition sm_EAP_RETRANSMIT_Enter (global : bool) (s : est P) : run (est P) :=
  let s := sm_entry EAP_RETRANSMIT global s in
  match lastRespData (esm s) with
  | Some d => let '(ok, s) := sm_malloc s in Ret (s.[eapRespData := if ok then Some d else None])
  | None => Ret (s.[eapRespData := None])
  end.

(** *** SUCCESS and FAILURE *)

Definition sm_EAP_SUCCESS_Enter (global : bool) (s : est P) : run (est P) :=
  let s := sm_entry EAP_SUCCESS global s in
  let s := match eapKeyData (esm s) with Some _ => s.[eapKeyAvailable := true] | None => s end in
  let s := eapol_set_bool EAPOL_eapSuccess true s in
  let s := eapol_set_bool EAPOL_eapReq false s in
  Ret (record EvSuccess (eapol_set_bool EAPOL_eapNoResp true s)).

Definition sm_EAP_FAILURE_Enter (global : bool) (s : est P) : run (est P) :=
  let s := sm_entry EAP_FAILURE global s in
  let s := eapol_set_bool EAPOL_eapFail true s in
  let s := eapol_set_bool EAPOL_eapReq false s in
  let s := eapol_set_bool EAPOL_eapNoResp true s in
  Ret (record EvFailure (s.[prev_failure := true])).

(** ** Transitions *)

Definition eap_success_workaround (e : eap_sm P) (i last : Z) : bool :=
  negb (mc_workaround (mc e) =? 0) &&
  ((i =? Z.land (last + 1) 0xff) || (i =? Z.land (last + 2) 0xff)).

Definition eap_peer_sm_step_idle (s : est P) : run (est P) :=
  let e := esm s in
  if eapol_get_bool s EAPOL_eapReq then sm_EAP_RECEIVED_Enter false s
  else if (eapol_get_bool s EAPOL_altAccept && negb (bool_decide (decision e = DECISION_FAIL))) ||
          ((eapol_get_int s =? 0) && bool_decide (decision e = DECISION_UNCOND_SUCC))
  then sm_EAP_SUCCESS_Enter false s
  else if eapol_get_bool s EAPOL_altReject ||
          ((eapol_get_int s =? 0) && negb (bool_decide (decision e = DECISION_UNCOND_SUCC))) ||
          (eapol_get_bool s EAPOL_altAccept && negb (bool_decide (methodState e = METHOD_CONT)) &&
           bool_decide (decision e = DECISION_FAIL))
  then sm_EAP_FAILURE_Enter false s
  else if (selectedMethod e =? EAP_TYPE_LEAP) && leap_done (mc e) &&
          negb (bool_decide (decision e = DECISION_FAIL)) && bool_decide (methodState e = METHOD_DONE)
  then sm_EAP_SUCCESS_Enter false s
  else if (selectedMethod e =? EAP_TYPE_PEAP) && peap_done (mc e) &&
          negb (bool_decide (decision e = DECISION_FAIL)) && bool_decide (methodState e = METHOD_DONE)
  then sm_EAP_SUCCESS_Enter false s
  else Ret s.

Definition eap_peer_req_is_duplicate (e : eap_sm P) : bool :=
  (reqId e =? lastId e) && rxReq e &&
  negb (negb (mc_workaround (mc e) =? 0) && negb (memcmp (req_md5 e) (last_md5 e) =? 0)).

Definition eap_peer_sm_step_received (s : est P) : run (est P) :=
  let e := esm s in
  let duplicate := eap_peer_req_is_duplicate e in
  let id_ok := (reqId e =? lastId e) || eap_success_workaround e (reqId e) (lastId e) in
  if rxSuccess e && negb (bool_decide (decision e = DECISION_FAIL)) && id_ok
  then sm_EAP_SUCCESS_Enter false s
  else if negb (bool_decide (methodState e = METHOD_CONT)) &&
          ((rxFailure e && negb (bool_decide (decision e = DECISION_UNCOND_SUCC))) ||
           (rxSuccess e && bool_decide (decision e = DECISION_FAIL) &&
            (negb (selectedMethod e =? EAP_TYPE_LEAP) || negb (bool_decide (methodState e = METHOD_MAY_CONT))))) &&
          id_ok
  then sm_EAP_FAILURE_Enter false s
  else if rxReq e && duplicate then sm_EAP_RETRANSMIT_Enter false s
  else if rxReq e && negb duplicate && (reqMethod e =? EAP_TYPE_NOTIFICATION) && allowNotifications e
  then sm_EAP_NOTIFICATION_Enter false s
  else if rxReq e && negb duplicate && (selectedMethod e =? EAP_TYPE_NONE) && (reqMethod e =? EAP_TYPE_IDENTITY)
  then sm_EAP_IDENTITY_Enter false s
  else if rxReq e && negb duplicate && (selectedMethod e =? EAP_TYPE_NONE) &&
          negb (reqMethod e =? EAP_TYPE_IDENTITY) && negb (reqMethod e =? EAP_TYPE_NOTIFICATION)
  then sm_EAP_GET_METHOD_Enter false s
  else if rxReq e && negb duplicate && (reqMethod e =? selectedMethod e) &&
          negb (bool_decide (methodState e = METHOD_DONE))
  then sm_EAP_METHOD_Enter false s
  else if (selectedMethod e =? EAP_TYPE_LEAP) && (rxSuccess e || rxResp e)
  then sm_EAP_METHOD_Enter false s
  else sm_EAP_DISCARD_Enter false s.

Definition eap_peer_sm_step_local (s : est P) : run (est P) :=
  match EAP_state (esm s) with
  | EAP_INITIALIZE => sm_EAP_IDLE_Enter false s
  | EAP_DISABLED =>
      if eapol_get_bool s EAPOL_portEnabled && negb (force_disabled (esm s))
      then sm_EAP_INITIALIZE_Enter false s else Ret s
  | EAP_IDLE => eap_peer_sm_step_idle s
  | EAP_RECEIVED => eap_peer_sm_step_received s
  | EAP_GET_METHOD =>
      if selectedMethod (esm s) =? reqMethod (esm s) then sm_EAP_METHOD_Enter false s
      else sm_EAP_SEND_RESPONSE_Enter false s
  | EAP_METHOD =>
      if mc_ignore (mc (esm s)) then sm_EAP_DISCARD_Enter false s else sm_EAP_SEND_RESPONSE_Enter false s
  | EAP_SEND_RESPONSE => sm_EAP_IDLE_Enter false s
  | EAP_DISCARD => sm_EAP_IDLE_Enter false s
  | EAP_IDENTITY => sm_EAP_SEND_RESPONSE_Enter false s
  | EAP_NOTIFICATION => sm_EAP_SEND_RESPONSE_Enter false s
  | EAP_RETRANSMIT => sm_EAP_SEND_RESPONSE_Enter false s
  | EAP_SUCCESS => Ret s
  | EAP_FAILURE => Ret s
  end.

Definition SM_STEP_EAP (s : est P) : run (est P) :=
  if eapol_get_bool s EAPOL_eapRestart && eapol_get_bool s EAPOL_portEnabled
  then sm_EAP_INITIALIZE_Enter true s
  else if negb (eapol_get_bool s EAPOL_portEnabled) || force_disabled (esm s)
  then sm_EAP_DISABLED_Enter true s
  else if EAP_MAX_AUTH_ROUNDS <? num_rounds (esm s) then
    if num_rounds (esm s) =? EAP_MAX_AUTH_ROUNDS + 1 then
      let s := s.[num_rounds := num_rounds (esm s) + 1] in
      sm_EAP_FAILURE_Enter true s
    else Ret s
  else eap_peer_sm_step_local s.

(** The loop of [eap_peer_sm_step]: until a step changes nothing. *)
Fixpoint eap_step_loop (fuel : nat) (res : bool) (s : est P) : run (bool * est P) :=
  match fuel with
  | O => OutOfFuel
  | S fuel =>
      s ← SM_STEP_EAP (s.[eap_changed := false]);
      if eap_changed (esm s) then eap_step_loop fuel true s else Ret (res, s)
  end.
End machine.

(** [eap_peer_sm_step] from a state and a view of the EAPOL variables. *)
Definition est_of {P} (e : eap_sm P) (v : eap_view) : est P := Est e (view_bool v) (view_idleWhile v) [].
Definition eap_step_run {P} (methods : list (eap_method P)) (mem : list Z) (e : eap_sm P) (v : eap_view)
  : run (bool * est P) :=
  eap_step_loop methods mem (view_eapReqData v) 10 false (est_of e v).

(** ** Other operations *)

Section operations.
Context {P : Type} (methods : list (eap_method P)) (mem : list Z).

(** The zeroed structure of [eap_peer_sm_init], with the configuration [c]. *)
Definition eap_peer_sm_init (c : method_ctx) : eap_sm P :=
  EapSm EAP_INITIALIZE EAP_TYPE_NONE METHOD_NONE 0 None DECISION_FAIL false false false false 0 EAP_TYPE_NONE
    EAP_VENDOR_IETF EAP_TYPE_NONE false None false None None None false (repeat 0 16) (repeat 0 16) 0 false false
    (c <| leap_done := false |> <| peap_done := false |> <| mc_ignore := false |>
       <| ClientTimeout := EAP_CLIENT_TIMEOUT_DEFAULT |> <| mc_workaround := 0 |> <| mc_fast_reauth := false |>)
    [].

Definition sm_abort (e : eap_sm P) : eap_sm P * list eap_write :=
  (e <| lastRespData := None |> <| eapRespData := None |> <| eapKeyData := None |>,
   [SetBool EAPOL_eapSuccess false]).

Definition notify_success (e : eap_sm P) : eap_sm P :=
  e <| decision := DECISION_COND_SUCC |> <| EAP_state := EAP_SUCCESS |> <| history := history e ++ [EvForced] |>.

Definition notify_lower_layer_success (e : eap_sm P) (v : eap_view) : eap_sm P * list eap_write :=
  if view_bool v EAPOL_eapSuccess || bool_decide (decision e = DECISION_FAIL) ||
     (negb (bool_decide (methodState e = METHOD_MAY_CONT)) && negb (bool_decide (methodState e = METHOD_DONE)))
  then (e, [])
  else
    let e := match eapKeyData e with Some _ => e <| eapKeyAvailable := true |> | None => e end in
    (e <| history := history e ++ [EvSuccess] |>, [SetBool EAPOL_eapSuccess true]).

Definition get_eapRespData (e : eap_sm P) : eap_sm P * option (list Z) :=
  match eapRespData e with
  | None => (e, None)
  | Some d => (e <| eapRespData := None |>, Some d)
  end.

Definition set_fast_reauth (e : eap_sm P) (b : bool) : eap_sm P := e <| mc := (mc e) <| mc_fast_reauth := b |> |>.
Definition set_workaround (e : eap_sm P) (z : Z) : eap_sm P := e <| mc := (mc e) <| mc_workaround := z |> |>.
Definition set_force_disabled (e : eap_sm P) (b : bool) : eap_sm P := e <| force_disabled := b |>.
Definition sm_notify_ctrl_attached (e : eap_sm P) : eap_sm P := e <| mc := eap_sm_resend (mc e) |>.

Definition invalidate_cached_session (e : eap_sm P) : eap_sm P :=
  esm (eap_deinit_prev_method (Est e (λ _, false) 0 [])).

Definition eap_peer_sm_deinit (e : eap_sm P) : eap_sm P * list eap_write := sm_abort (invalidate_cached_session e).

(** The machine behind the interface of the EAPOL layer. *)
#[global] Instance eap_peer : EapPeer (eap_sm P) := {
  eap_peer_sm_step e v :=
    match eap_step_run methods mem e v with
    | Ret (res, s) => (esm s, ews s, res)
    | _ => (e, [], false)
    end;
  eap_sm_abort := sm_abort;
  eap_key_available := eapKeyAvailable;
  eap_get_eapKeyData := eapKeyData;
  eap_get_eapRespData := get_eapRespData;
  eap_notify_success := notify_success;
  eap_notify_lower_layer_success := notify_lower_layer_success;
  eap_set_fast_reauth := set_fast_reauth;
  eap_set_workaround := set_workaround;
  eap_set_force_disabled := set_force_disabled;
  eap_sm_notify_ctrl_attached := sm_notify_ctrl_attached;
  eap_invalidate_cached_session := invalidate_cached_session
}.
End operations.
