(* ===== verification/EapNak.v ===== *)
(** * The Nak of the EAP peer

    What [eap_sm_buildNak] of Eap sends when it refuses a method: the list of the
    methods that the build has and the configuration allows, without the one
    refused, in a buffer that is always large enough. *)

From S2P Require Import Prelude EapCommon EapMethods EapolSupp EapSimple Eap.

Lemma update_len_eq n code id k rest :
  eap_update_len (Wpabuf n (eap_header code id k ++ rest)) = Wpabuf n (eap_header code id (4 + length rest) ++ rest).
Proof.
  unfold eap_update_len. cbn [buf_data buf_size]. rewrite (proj2 (Nat.ltb_ge _ _)).
  - f_equal.
  - rewrite length_app. unfold eap_header. rewrite length_app, length_be_put. simpl. lia.
Qed.

(** The bytes written so far and the next ones fit. *)
Ltac buf_fits :=
  cbn [buf_data buf_size]; unfold eap_header; rewrite ?length_app, ?length_be_put, ?length_app, ?length_be_put; cbn; lia.

Section nak.
Context {P : Type} (methods : list (eap_method P)).
Implicit Types (x : eap_method P) (l : list (eap_method P)).

(** A method that may be proposed instead of vendor [v] and type [t]. *)
Definition proposable (c : method_ctx) (v t : Z) x : bool :=
  negb ((vendor x =? v) && (method x =? t)) && eap_allowed_method c (vendor x) (method x).

(** ** The legacy Nak *)

(** One octet per method; the methods of all vendors share one. *)
Fixpoint legacy_types (c : method_ctx) (t : Z) l (seen : bool) : list Z :=
  match l with
  | [] => []
  | x :: l =>
      if proposable c EAP_VENDOR_IETF t x then
        if vendor x =? EAP_VENDOR_IETF then u8 (method x) :: legacy_types c t l seen
        else if seen then legacy_types c t l seen else EAP_TYPE_EXPANDED :: legacy_types c t l true
      else legacy_types c t l seen
  end.

Lemma length_legacy c t l seen : (length (legacy_types c t l seen) ≤ length l)%nat.
Proof. revert seen. induction l as [|x l IH]; intros seen; cbn; [lia|]. repeat case_match; cbn; rewrite ?IH; lia || (specialize (IH seen); lia) || (specialize (IH true); lia). Qed.

Lemma put_u8_ok n d z : (length d < n)%nat → wpabuf_put_u8 (Wpabuf n d) z = Ret (Wpabuf n (d ++ [u8 z])).
Proof. intros H. unfold wpabuf_put_u8. by rewrite put_ok by (rewrite length_be_put; cbn; lia). Qed.

Definition nonempty (l : list Z) : bool := match l with [] => false | _ => true end.

Lemma nak_loop_eq c t l found seen n d : (length d + length l ≤ n)%nat →
  nak_loop c t l found seen (Wpabuf n d) =
    Ret (found || nonempty (legacy_types c t l seen), Wpabuf n (d ++ legacy_types c t l seen)).
Proof.
  revert found seen d. induction l as [|x l IH]; intros found seen d Hn; cbn [nak_loop legacy_types length] in *.
  { by rewrite orb_false_r, app_nil_r. }
  unfold proposable. destruct ((vendor x =? EAP_VENDOR_IETF) && (method x =? t)) eqn:Es; cbn [negb andb].
  { apply IH. lia. }
  destruct (eap_allowed_method _ _ _); [|apply IH; lia].
  destruct (vendor x =? EAP_VENDOR_IETF); cbn [negb].
  - rewrite put_u8_ok, run_bind_l, IH by (rewrite ?length_app; cbn [length]; lia).
    rewrite <-app_assoc. cbn. by rewrite orb_true_r.
  - destruct seen; [apply IH; lia|]. rewrite put_u8_ok, run_bind_l, IH by (rewrite ?length_app; cbn [length]; lia).
    rewrite <-app_assoc. cbn. by rewrite orb_true_r.
Qed.

(** ** The expanded Nak *)

Definition expanded_types (c : method_ctx) (v t : Z) l : list Z :=
  flat_map (λ x, be_put 1 EAP_TYPE_EXPANDED ++ be_put 3 (vendor x) ++ be_put 4 (method x))
    (List.filter (proposable c v t) l).

Lemma expanded_nak_loop_eq c v t l found n d : (length d + 8 * length l ≤ n)%nat →
  expanded_nak_loop c v t l found (Wpabuf n d) =
    Ret (found || nonempty (expanded_types c v t l), Wpabuf n (d ++ expanded_types c v t l)).
Proof.
  revert found d. unfold expanded_types. induction l as [|x l IH]; intros found d Hn; cbn [expanded_nak_loop List.filter length] in *.
  { by rewrite orb_false_r, app_nil_r. }
  assert (Ex : proposable c v t x = negb ((vendor x =? v) && (method x =? t)) && eap_allowed_method c (vendor x) (method x))
    by done. rewrite Ex, (Z.eqb_sym v), (Z.eqb_sym t).
  destruct ((vendor x =? v) && (method x =? t)) eqn:Es; cbn [negb andb].
  { apply IH. lia. }
  destruct (eap_allowed_method _ _ _); [|apply IH; lia]. unfold wpabuf_put_u8, wpabuf_put_be24, wpabuf_put_be32.
  repeat (rewrite put_ok, run_bind_l by (cbn [buf_data buf_size]; rewrite ?length_app, ?length_be_put; lia)).
  cbn [buf_data buf_size]. rewrite IH by (rewrite ?length_app, ?length_be_put; lia).
  cbn [flat_map]. rewrite <-!app_assoc. by rewrite orb_true_r.
Qed.

(** ** The message *)

(** The type data of the Nak. *)
Definition nak_types (e : eap_sm P) : list Z :=
  if reqMethod e =? EAP_TYPE_EXPANDED then
    let l := expanded_types (mc e) (reqVendor e) (reqVendorMethod e) methods in
    be_put 3 EAP_VENDOR_IETF ++ be_put 4 EAP_TYPE_NAK ++
    (if nonempty l then l else be_put 1 EAP_TYPE_EXPANDED ++ be_put 3 EAP_VENDOR_IETF ++ be_put 4 EAP_TYPE_NONE)
  else
    let l := legacy_types (mc e) (reqMethod e) methods false in
    if nonempty l then l else [EAP_TYPE_NONE].
Definition nak_type (e : eap_sm P) : Z :=
  if reqMethod e =? EAP_TYPE_EXPANDED then EAP_TYPE_EXPANDED else EAP_TYPE_NAK.

Lemma nak_eq i s : methods ≠ [] →
  eap_sm_buildNak methods i s =
    Ret (if (sm_malloc s).1 then
           Some (eap_message EAP_CODE_RESPONSE i EAP_VENDOR_IETF (nak_type (esm s)) (nak_types (esm (sm_malloc s).2)))
         else None, (sm_malloc s).2).
Proof.
  intros Hne. unfold eap_sm_buildNak, eap_sm_build_expanded_nak, nak_types, nak_type.
  destruct (sm_malloc s) as [ok s'] eqn:Em. assert (Er : reqMethod (esm s') = reqMethod (esm s)).
  { unfold sm_malloc in Em. destruct (os_malloc _) as [ok' c]. by injection Em as _ <-. }
  cbn [fst snd]. rewrite Er. destruct methods as [|y l0] eqn:El; [done|]. rewrite <-El.
  destruct (reqMethod (esm s) =? EAP_TYPE_EXPANDED).
  - destruct ok; [|done]. rewrite eap_msg_alloc_eq, run_bind_l.
    unfold wpabuf_put_be24, wpabuf_put_be32, wpabuf_put_u8.
    do 2 rewrite put_ok, run_bind_l
      by buf_fits.
    cbn [buf_data buf_size]. rewrite expanded_nak_loop_eq, run_bind_l
      by buf_fits.
    cbn [orb]. destruct (nonempty _) eqn:Enn.
    + rewrite run_bind_l. rewrite <-!app_assoc, update_len_eq. done.
    + assert (Enil : expanded_types (mc (esm s')) (reqVendor (esm s')) (reqVendorMethod (esm s')) methods = [])
        by (by destruct (expanded_types _ _ _ _)).
      rewrite Enil, app_nil_r.
      do 2 rewrite put_ok, run_bind_l
        by buf_fits.
      rewrite put_ok, run_bind_l
        by buf_fits.
      cbn [buf_data buf_size]. rewrite <-!app_assoc, update_len_eq. done.
  - destruct ok; [|done]. rewrite eap_msg_alloc_eq, run_bind_l.
    rewrite nak_loop_eq, run_bind_l by buf_fits.
    cbn [orb]. destruct (nonempty _) eqn:Enn.
    + rewrite run_bind_l, <-app_assoc, update_len_eq. done.
    + assert (Enil : legacy_types (mc (esm s')) (reqMethod (esm s)) methods false = []) by (by destruct (legacy_types _ _ _ _)).
      rewrite Enil, app_nil_r. rewrite put_u8_ok, run_bind_l by buf_fits.
      rewrite <-app_assoc, update_len_eq. done.
Qed.

(** ** What is proposed *)

Lemma proposable_spec c t x : proposable c EAP_VENDOR_IETF t x = true ↔
  eap_allowed_method c (vendor x) (method x) = true ∧ (vendor x = EAP_VENDOR_IETF → method x ≠ t).
Proof.
  unfold proposable. rewrite andb_true_iff, negb_true_iff, andb_false_iff, !Z.eqb_neq. split; [naive_solver|].
  intros [H1 H2]. split; [|done]. destruct (Z.eq_dec (vendor x) EAP_VENDOR_IETF); auto.
Qed.

(** [t] stands for method [x] in a Nak. *)
Definition stands_for (t : Z) x : Prop :=
  (vendor x = EAP_VENDOR_IETF ∧ u8 (method x) = t) ∨ (vendor x ≠ EAP_VENDOR_IETF ∧ t = EAP_TYPE_EXPANDED).

Lemma elem_legacy c r l seen t : t ∈ legacy_types c r l seen ∨ (seen = true ∧ t = EAP_TYPE_EXPANDED) ↔
  (∃ x, x ∈ l ∧ proposable c EAP_VENDOR_IETF r x = true ∧ stands_for t x) ∨ (seen = true ∧ t = EAP_TYPE_EXPANDED).
Proof.
  revert seen. induction l as [|x l IH]; intros seen; cbn [legacy_types]; [set_solver|].
  assert (Hx : (∃ y, y ∈ x :: l ∧ proposable c EAP_VENDOR_IETF r y = true ∧ stands_for t y) ↔
    (proposable c EAP_VENDOR_IETF r x = true ∧ stands_for t x) ∨
    (∃ y, y ∈ l ∧ proposable c EAP_VENDOR_IETF r y = true ∧ stands_for t y)) by set_solver.
  rewrite Hx. clear Hx. pose proof (IH true) as IHt. specialize (IH seen). unfold stands_for at 1.
  revert IH IHt. generalize (∃ y, y ∈ l ∧ proposable c EAP_VENDOR_IETF r y = true ∧ stands_for t y). intros Q IH IHt.
  destruct (proposable _ _ _ x); [|intuition congruence].
  destruct (Z.eqb_spec (vendor x) EAP_VENDOR_IETF) as [Hv|Hv].
  - rewrite elem_of_cons. intuition congruence.
  - destruct seen; [intuition congruence|]. rewrite elem_of_cons. intuition congruence.
Qed.

End nak.

Module Demo.
Definition known : list (eap_method method_data) := simple_methods (repeat 0 64).

(** A request for PEAP (type 25), which the build does not have. *)
Definition asked_peap : est method_data :=
  let s := Est (eap_peer_sm_init (EapSimple.Demo.context None None)) (λ _, false) 60 [] in
  s <| esm := (esm s) <| reqMethod := EAP_TYPE_PEAP |> |>.

End Demo.
