(* ===== verification/EapSafety.v ===== *)
(** * What the EAP peer state machine guarantees

    Theorems about Eap: every call of [eap_peer_sm_step] ends, without undefined
    behaviour and in a state of rest; success is never signalled on the word of a
    plain EAP-Success message; the number of rounds of a session is bounded.  They are
    stated over [reach], the states that the operations of the machine lead to, in any
    order and with any received data, configuration and allocator. *)

From S2P Require Import Prelude Merkle Md5 EapCommon EapMethods EapolSupp EapSimple Eap EapNak.

(** ** Sessions as sequences of events *)

(** Whether the latest word on the peer is in its favour. *)
Definition judge (b : bool) (e : eap_event) : bool :=
  match e with
  | EvSession => false
  | EvMethod d => negb (bool_decide (d = DECISION_FAIL))
  | EvForced => true
  | _ => b
  end.
Definition authenticated (h : list eap_event) : bool := fold_left judge h false.

Lemma authenticated_snoc h e : authenticated (h ++ [e]) = judge (authenticated h) e.
Proof. unfold authenticated. by rewrite fold_left_app. Qed.

(** Success is signalled only then. *)
Definition history_ok (h : list eap_event) : Prop :=
  ∀ h1 h2, h = h1 ++ EvSuccess :: h2 → authenticated h1 = true.

Lemma history_ok_nil : history_ok [].
Proof. intros [|??] ?; discriminate. Qed.
Lemma history_ok_snoc h e :
  history_ok h → (e = EvSuccess → authenticated h = true) → history_ok (h ++ [e]).
Proof.
  intros Hh He h1 h2. destruct h2 as [|x h2 _] using rev_ind.
  - intros [-> ->]%app_inj_tail. auto.
  - rewrite app_comm_cons, app_assoc. intros [-> _]%app_inj_tail. by eapply Hh.
Qed.

(** The witness of [authenticated]. *)
Lemma authenticated_origin h : authenticated h = true →
  ∃ a ev b, h = a ++ ev :: b ∧ (ev = EvForced ∨ ∃ d, d ≠ DECISION_FAIL ∧ ev = EvMethod d) ∧
            (EvSession ∉ b) ∧ (EvMethod DECISION_FAIL ∉ b).
Proof.
  induction h as [|e h IH] using rev_ind; [discriminate|]. rewrite authenticated_snoc.
  assert (Hlast : (e = EvForced ∨ ∃ d, d ≠ DECISION_FAIL ∧ e = EvMethod d) →
                  ∃ a ev b, h ++ [e] = a ++ ev :: b ∧ (ev = EvForced ∨ ∃ d, d ≠ DECISION_FAIL ∧ ev = EvMethod d) ∧
                            (EvSession ∉ b) ∧ (EvMethod DECISION_FAIL ∉ b)).
  { intros. exists h, e, []. split_and!; [done|done|set_solver..]. }
  destruct e as [|d| | | |]; cbn [judge]; intros H; try discriminate H; eauto.
  { apply Hlast. right. exists d. split; [|done]. by apply negb_true_iff, bool_decide_eq_false in H. }
  all: destruct (IH H) as (a & ev & b & -> & Hev & H1 & H2).
  all: match goal with |- context [(_ ++ _) ++ [?e]] => exists a, ev, (b ++ [e]) end; rewrite <-app_assoc; split_and!; [reflexivity|done|set_solver..].
Qed.

(** Whether success has been signalled in the current session. *)
Definition vouch (b : bool) (e : eap_event) : bool :=
  match e with EvSession => false | EvSuccess | EvForced => true | _ => b end.
Definition vouched (h : list eap_event) : bool := fold_left vouch h false.

Lemma vouched_snoc h e : vouched (h ++ [e]) = vouch (vouched h) e.
Proof. unfold vouched. by rewrite fold_left_app. Qed.

Lemma vouched_origin h : vouched h = true →
  ∃ h1 ev h2, h = h1 ++ ev :: h2 ∧ (ev = EvForced ∨ ev = EvSuccess) ∧ (EvSession ∉ h2).
Proof.
  induction h as [|e h IH] using rev_ind; [discriminate|]. rewrite vouched_snoc.
  destruct e; cbn [vouch]; intros H; try discriminate H.
  2, 3: (eexists h, _, []; split_and!; [reflexivity|auto|set_solver]).
  all: destruct (IH H) as (h1 & ev & h2 & -> & Hev & Hs).
  all: match goal with |- context [(_ ++ _) ++ [?e]] => exists h1, ev, (h2 ++ [e]) end; rewrite <-app_assoc; split_and!; [reflexivity|done|set_solver].
Qed.

(** [eapSuccess] of the EAPOL layer after the writes [ws]. *)
Definition success_write (b : bool) (w : eap_write) : bool :=
  match w with SetBool EAPOL_eapSuccess x => x | _ => b end.
Definition success_after (b : bool) (ws : list eap_write) : bool := fold_left success_write ws b.

Section safety.
Context {P : Type} (methods : list (eap_method P)) (mem : list Z) {owns : eap_method P → P → Prop} `{!MethodsOk owns methods}.

(** ** Invariants *)

(** A method is selected exactly when there is private data for it, its own. *)
Definition consistent (o : option (eap_method P)) (p : option P) : Prop :=
  match o, p with
  | None, None => True
  | Some mt, Some p => mt ∈ methods ∧ owns mt p
  | _, _ => False
  end.

Definition trusted (d : EapDecision) (h : list eap_event) : Prop :=
  negb (bool_decide (d = DECISION_FAIL)) = authenticated h ∧ history_ok h.

(** The writes [ws] made since the history was [h0]: success is written only together
    with the event, and [portEnabled] is not written. *)
Definition reported (h0 h : list eap_event) (ws : list eap_write) : Prop :=
  (∃ hs, h = h0 ++ hs ∧ (SetBool EAPOL_eapSuccess true ∈ ws → EvSuccess ∈ hs)) ∧ Forall write_ok ws.

(** [b], the value of [eapSuccess] after the writes [ws], is true only in a session in
    which success was signalled, if its value [b0] before was. *)
Definition told (h0 : list eap_event) (b0 b : bool) (h : list eap_event) (ws : list eap_write) : Prop :=
  b = success_after b0 ws ∧ ((b0 = true → vouched h0 = true) → b = true → vouched h = true).

Definition invariant (h0 : list eap_event) b0 b o p d h ws : Prop :=
  consistent o p ∧ trusted d h ∧ reported h0 h ws ∧ told h0 b0 b h ws.

Definition Inv (h0 : list eap_event) (b0 : bool) (s : est P) : Prop :=
  invariant h0 b0 (ebool s EAPOL_eapSuccess) (m (esm s)) (eap_method_priv (esm s)) (decision (esm s))
    (history (esm s)) (ews s).

(** Writes that need no event. *)
Definition quiet (w : eap_write) : Prop :=
  match w with SetBool EAPOL_eapSuccess _ => False | _ => write_ok w end.

Lemma quiet_ok w : quiet w → write_ok w ∧ w ≠ SetBool EAPOL_eapSuccess true ∧ ∀ b, success_write b w = b.
Proof. destruct w as [[] ?|]; cbn; intros ?; by split_and!. Qed.

Lemma success_after_snoc b ws w : success_after b (ws ++ [w]) = success_write (success_after b ws) w.
Proof. unfold success_after. by rewrite fold_left_app. Qed.

Lemma invariant_write h0 b0 b o p d h ws w :
  quiet w → invariant h0 b0 b o p d h ws → invariant h0 b0 b o p d h (ws ++ [w]).
Proof.
  intros (Hw1 & Hw2 & Hw3)%quiet_ok (Hc & Ht & [(hs & -> & Hs) Hws] & Hb & Hv). split; [done|split; [done|split]].
  - split; [|by apply Forall_app; split; [|repeat constructor]].
    exists hs. split; [done|]. intros [?|?%list_elem_of_singleton]%elem_of_app; [auto|by subst].
  - split; [by rewrite success_after_snoc, Hw3|done].
Qed.

(** Events that do not start or end a session. *)
Lemma invariant_event h0 b0 b o p d h ws d' e :
  match e with EvMethod _ | EvFailure | EvReceived => True | _ => False end →
  negb (bool_decide (d' = DECISION_FAIL)) = judge (negb (bool_decide (d = DECISION_FAIL))) e →
  invariant h0 b0 b o p d h ws → invariant h0 b0 b o p d' (h ++ [e]) ws.
Proof.
  intros He Hd (Hc & [Ht Hh] & [(hs & -> & Hs) Hws] & Hb & Hv). split; [done|split; [|split]].
  - split; [by rewrite authenticated_snoc, Hd, Ht|]. apply history_ok_snoc; [done|]. by intros ->.
  - split; [|done]. exists (hs ++ [e]). split; [by rewrite app_assoc|]. set_solver.
  - split; [done|]. intros H0 Hb1. rewrite vouched_snoc. specialize (Hv H0 Hb1). by destruct e.
Qed.

Lemma success_after_app b ws ws' : success_after b (ws ++ ws') = success_after (success_after b ws) ws'.
Proof. apply fold_left_app. Qed.

(** A new session clears [eapSuccess]. *)
Lemma invariant_session h0 b0 b o p d h ws ws' :
  Forall write_ok ws' → (∀ b, success_after b ws' = false) → (SetBool EAPOL_eapSuccess true ∉ ws') →
  invariant h0 b0 b o p d h ws → invariant h0 b0 false o p DECISION_FAIL (h ++ [EvSession]) (ws ++ ws').
Proof.
  intros Hok Hf Hno (Hc & [Ht Hh] & [(hs & -> & Hs) Hws] & Hb & Hv). split; [done|split; [|split]].
  - split; [by rewrite authenticated_snoc|]. by apply history_ok_snoc.
  - split; [|by apply Forall_app]. exists (hs ++ [EvSession]). split; [by rewrite app_assoc|]. set_solver.
  - split; [by rewrite success_after_app, Hf|done].
Qed.

(** Success: the writes of [sm_EAP_SUCCESS_Enter] and the event. *)
Lemma invariant_success h0 b0 b o p d h ws ws' : d ≠ DECISION_FAIL → Forall write_ok ws' →
  (∀ b, success_after b ws' = true) →
  invariant h0 b0 b o p d h ws → invariant h0 b0 true o p d (h ++ [EvSuccess]) (ws ++ ws').
Proof.
  intros Hd Hok Hf (Hc & [Ht Hh] & [(hs & -> & Hs) Hws] & Hb & Hv). split; [done|split; [|split]].
  - split; [by rewrite authenticated_snoc|]. apply history_ok_snoc; [done|].
    intros _. by rewrite <-Ht, bool_decide_eq_false_2.
  - split; [|by apply Forall_app]. exists (hs ++ [EvSuccess]). split; [by rewrite app_assoc|]. set_solver.
  - split; [by rewrite success_after_app, Hf|]. intros _ _. by rewrite vouched_snoc.
Qed.

(** ** What the control flow depends on *)

Record ctl := Ctl {
  c_state : EAP_state_t; c_rounds : Z; c_disabled : bool; c_port : bool; c_restart : bool; c_req : bool
}.

Definition ctl_of (s : est P) : ctl :=
  Ctl (EAP_state (esm s)) (num_rounds (esm s)) (force_disabled (esm s)) (ebool s EAPOL_portEnabled)
    (ebool s EAPOL_eapRestart) (ebool s EAPOL_eapReq).

(** The result of entering a state: the control data, and the rest is in order. *)
Definition enters (h0 : list eap_event) (b0 : bool) (r : run (est P)) (c : ctl) : Prop :=
  ∃ s', r = Ret s' ∧ ctl_of s' = c ∧ eap_changed (esm s') = true ∧ Inv h0 b0 s'.

Section entries.
Context (req : option (list Z)) (h0 : list eap_event) (b0 : bool).
Implicit Types s : est P.

(** The control data of [s] with another state and [eapReq]. *)
Definition goto (s : est P) (st : EAP_state_t) (rq : bool) : ctl :=
  Ctl st (num_rounds (esm s)) (force_disabled (esm s)) (ebool s EAPOL_portEnabled) (ebool s EAPOL_eapRestart) rq.

Lemma idle_enters s : Inv h0 b0 s → enters h0 b0 (sm_EAP_IDLE_Enter false s) (goto s EAP_IDLE (ebool s EAPOL_eapReq)).
Proof. intros H. eexists. split; [reflexivity|]. split; [reflexivity|]. split; [reflexivity|exact H]. Qed.

Lemma disabled_enters s : Inv h0 b0 s → eap_changed (esm s) = false →
  ∃ s', sm_EAP_DISABLED_Enter true s = Ret s' ∧
        ctl_of s' = Ctl EAP_DISABLED 0 (force_disabled (esm s)) (ebool s EAPOL_portEnabled) (ebool s EAPOL_eapRestart)
                      (ebool s EAPOL_eapReq) ∧
        eap_changed (esm s') = negb (bool_decide (EAP_state (esm s) = EAP_DISABLED)) ∧ Inv h0 b0 s'.
Proof.
  intros H Hc. eexists. split; [reflexivity|]. unfold sm_entry. cbn [negb orb].
  destruct (bool_decide _); cbn [negb]; (split; [reflexivity|]; split; [done || exact Hc|exact H]).
Qed.

Lemma discard_enters s : Inv h0 b0 s → enters h0 b0 (sm_EAP_DISCARD_Enter false s) (goto s EAP_DISCARD false).
Proof.
  intros H. eexists. split; [reflexivity|]. split; [reflexivity|]. split; [reflexivity|].
  do 2 (apply invariant_write; [exact I|]). exact H.
Qed.

Lemma failure_enters g s : Inv h0 b0 s → (g = true → EAP_state (esm s) ≠ EAP_FAILURE) →
  enters h0 b0 (sm_EAP_FAILURE_Enter g s) (goto s EAP_FAILURE false).
Proof.
  intros H Hg. unfold sm_EAP_FAILURE_Enter, sm_entry.
  replace (negb g || _) with true by (destruct g; [by rewrite bool_decide_eq_false_2 by auto|done]).
  eexists. split; [reflexivity|]. split; [reflexivity|]. split; [reflexivity|].
  eapply (invariant_event _ _ _ _ _ (decision (esm s))); [done|done|].
  do 3 (apply invariant_write; [exact I|]). exact H.
Qed.

Lemma success_enters s : Inv h0 b0 s → decision (esm s) ≠ DECISION_FAIL →
  enters h0 b0 (sm_EAP_SUCCESS_Enter false s) (goto s EAP_SUCCESS false).
Proof.
  intros H Hd. unfold sm_EAP_SUCCESS_Enter.
  destruct (eapKeyData _); (eexists; split; [reflexivity|]; split; [reflexivity|]; split; [reflexivity|]).
  all: unfold Inv; cbn; rewrite <-!app_assoc; apply (invariant_success _ _ (ebool s EAPOL_eapSuccess)); [done|by repeat constructor|done|exact H].
Qed.

Lemma retransmit_enters s : Inv h0 b0 s →
  enters h0 b0 (sm_EAP_RETRANSMIT_Enter false s) (goto s EAP_RETRANSMIT (ebool s EAPOL_eapReq)).
Proof.
  intros H. unfold sm_EAP_RETRANSMIT_Enter. destruct (lastRespData _).
  - unfold sm_malloc. destruct (os_malloc _) as [ok c]. eexists. do 3 (split; [reflexivity|]). exact H.
  - eexists. do 3 (split; [reflexivity|]). exact H.
Qed.

Lemma send_response_enters s : Inv h0 b0 s →
  enters h0 b0 (sm_EAP_SEND_RESPONSE_Enter false s) (goto s EAP_SEND_RESPONSE false).
Proof.
  intros H. unfold sm_EAP_SEND_RESPONSE_Enter. destruct (eapRespData _).
  - unfold sm_malloc. destruct (mc_workaround _ =? 0); destruct (os_malloc _) as [ok c].
    all: eexists; do 3 (split; [reflexivity|]); do 3 (apply invariant_write; [exact I|]); exact H.
  - eexists. do 3 (split; [reflexivity|]). do 2 (apply invariant_write; [exact I|]). exact H.
Qed.

(** *** Entries that run the method *)

(** [s'] differs from [s] in data of the method and of the message only. *)
Definition same (s s' : est P) : Prop :=
  ctl_of s' = ctl_of s ∧ decision (esm s') = decision (esm s) ∧ history (esm s') = history (esm s) ∧
  eap_changed (esm s') = eap_changed (esm s) ∧ ebool s' = ebool s ∧ ews s' = ews s ∧
  consistent (m (esm s')) (eap_method_priv (esm s')).

Lemma same_inv s s' : same s s' → Inv h0 b0 s → Inv h0 b0 s'.
Proof. intros (_ & Hd & Hh & _ & He & Hw & Hc) (_ & Ht). unfold Inv. rewrite Hd, Hh, Hw, He. by split. Qed.

Lemma same_enters s s' c : same s s' → enters h0 b0 (Ret s) c → enters h0 b0 (Ret s') c.
Proof.
  intros Hs (s1 & [= <-] & Hc & Hch & Hi). exists s'. split; [done|].
  pose proof (same_inv _ _ Hs Hi) as Hi'. destruct Hs as (E & _ & _ & E' & _). by rewrite E, E'.
Qed.

Lemma priv_some s mt : m (esm s) = Some mt → consistent (m (esm s)) (eap_method_priv (esm s)) →
  ∃ p, priv s = Ret p ∧ eap_method_priv (esm s) = Some p ∧ mt ∈ methods ∧ owns mt p.
Proof. unfold priv. intros ->. destruct (eap_method_priv _) as [p|]; [|done]. intros [? ?]. by exists p. Qed.

Lemma method_ok mt : mt ∈ methods → MethodOk owns mt.
Proof. intros H. by apply (proj1 (Forall_forall _ _) MethodsOk0). Qed.

Lemma deinit_same s : consistent (m (esm s)) (eap_method_priv (esm s)) → same s (eap_deinit_prev_method s).
Proof.
  intros H. unfold eap_deinit_prev_method. destruct (m (esm s)) as [mt|] eqn:Em; [|by split_and!; rewrite ?Em].
  destruct (eap_method_priv (esm s)) as [p|] eqn:Ep; [|done]. by split_and!.
Qed.
Lemma deinit_none s : consistent (m (esm s)) (eap_method_priv (esm s)) → m (esm (eap_deinit_prev_method s)) = None.
Proof.
  unfold eap_deinit_prev_method. destruct (m (esm s)) as [mt|] eqn:Em; [|by rewrite Em].
  by destruct (eap_method_priv (esm s)) as [p|] eqn:Ep.
Qed.

Lemma has_reauth_total s : consistent (m (esm s)) (eap_method_priv (esm s)) → ∃ b, method_has_reauth_data s = Ret b.
Proof.
  intros H. unfold method_has_reauth_data. destruct (m (esm s)) as [mt|] eqn:Em; [|eauto].
  destruct (has_reauth_data mt); [|eauto]. rewrite <-Em in H. destruct (priv_some s mt Em H) as (p & -> & _). cbn. eauto.
Qed.

Lemma initialize_same s : consistent (m (esm s)) (eap_method_priv (esm s)) →
  ∃ s', initialize_method s = Ret s' ∧ same s s'.
Proof.
  intros H. unfold initialize_method. destruct (m (esm s)) as [mt|] eqn:Em.
  - rewrite <-Em in H.
    assert (∃ b, (if mc_fast_reauth (mc (esm s)) then method_has_reauth_data s else Ret false) = Ret b) as [b ->].
    { destruct (mc_fast_reauth _); [by apply has_reauth_total|eauto]. }
    rewrite run_bind_l. destruct (b && _); [|eexists; split; [done|by apply deinit_same]].
    destruct (priv_some s mt Em H) as (p & -> & Ep & Hin & Hown). rewrite run_bind_l.
    pose proof (deinit_for_reauth_owns (MethodOk := method_ok mt Hin) p (mc (esm s)) Hown) as Hown'.
    destruct (deinit_for_reauth _ _ _) as [p' c]. eexists. split; [done|]. split_and!; try done. cbn. by rewrite Em.
  - unfold method_has_reauth_data. rewrite Em.
    replace (if mc_fast_reauth _ then _ else _) with (@Ret bool false) by (by destruct (mc_fast_reauth _)).
    eexists. split; [reflexivity|]. apply deinit_same. by rewrite Em.
Qed.

Lemma initialize_enters g s : Inv h0 b0 s → eap_changed (esm s) = false →
  ∃ s', sm_EAP_INITIALIZE_Enter g s = Ret s' ∧
        ctl_of s' = Ctl EAP_INITIALIZE 0 (force_disabled (esm s)) (ebool s EAPOL_portEnabled) false (ebool s EAPOL_eapReq) ∧
        eap_changed (esm s') = negb g || negb (bool_decide (EAP_state (esm s) = EAP_INITIALIZE)) ∧ Inv h0 b0 s'.
Proof.
  intros H Hc. unfold sm_EAP_INITIALIZE_Enter.
  assert (Hent : ctl_of (sm_entry EAP_INITIALIZE g s) = goto s EAP_INITIALIZE (ebool s EAPOL_eapReq) ∧
                 eap_changed (esm (sm_entry EAP_INITIALIZE g s)) = negb g || negb (bool_decide (EAP_state (esm s) = EAP_INITIALIZE)) ∧
                 ebool (sm_entry EAP_INITIALIZE g s) = ebool s ∧ Inv h0 b0 (sm_entry EAP_INITIALIZE g s)).
  { unfold sm_entry. destruct (negb g || _); (split; [reflexivity|split; [done || exact Hc|split; [reflexivity|exact H]]]). }
  destruct Hent as (E1 & E2 & E3 & Hi). revert E1 E2 E3 Hi. generalize (sm_entry EAP_INITIALIZE g s) as s1. intros s1 E1 E2 E3 Hi.
  destruct (initialize_same s1) as (s2 & -> & Hs); [apply Hi|]. rewrite run_bind_l.
  pose proof (same_inv _ _ Hs Hi) as Hi2. destruct Hs as (E4 & _ & _ & E5 & E6 & _). rewrite E1 in E4. injection E4 as E41 E42 E43 E44 E45 E46.
  eexists. split; [reflexivity|]. split; [|split].
  - transitivity (Ctl (EAP_state (esm s2)) 0 (force_disabled (esm s2)) (ebool s2 EAPOL_portEnabled) false (ebool s2 EAPOL_eapReq));
      [reflexivity|]. by rewrite E41, E43, E44, E46.
  - transitivity (eap_changed (esm s2)); [reflexivity|]. by rewrite E5, E2.
  - unfold Inv. cbn. rewrite <-!app_assoc. apply (invariant_session _ _ (ebool s2 EAPOL_eapSuccess) _ _ (decision (esm s2)));
      [by repeat constructor|done|set_solver|exact Hi2].
Qed.

(** *** Received messages *)

(** A message that is acted upon has a complete header. *)
Definition received (s : est P) : Prop :=
  rxReq (esm s) = true ∨ rxResp (esm s) = true ∨ rxSuccess (esm s) = true →
  ∃ r, req = Some r ∧ (4 ≤ length r)%nat.

Ltac parsed := eexists; split; [reflexivity|]; split; [by split_and!|unfold received in *; cbn in *; intuition (discriminate || eauto)].

Lemma parse_code_ok r plen s : req = Some r → (4 ≤ length r)%nat → (plen ≤ length r)%nat →
  consistent (m (esm s)) (eap_method_priv (esm s)) → received s →
  ∃ s', parse_code r plen s = Ret s' ∧ same s s' ∧ received s'.
Proof.
  intros Er Hr Hp H Hrx. unfold parse_code. destruct (rd_total r 0) as [code ->]; [lia|]. rewrite run_bind_l.
  repeat (destruct (code =? _); [|]).
  - destruct (Nat.ltb_spec plen 5); [parsed|]. destruct (rd_total r 4) as [t ->]; [lia|]. rewrite run_bind_l. cbn zeta.
    destruct (t =? _); [|parsed]. destruct (Nat.ltb_spec plen 12); [parsed|].
    destruct (get_be24_total r 5) as [v ->]; [lia|]. rewrite run_bind_l.
    destruct (get_be32_total r 8) as [w ->]; [lia|]. rewrite run_bind_l. parsed.
  - destruct (selectedMethod _ =? _); [|parsed]. destruct (Nat.ltb_spec plen 5); [parsed|].
    destruct (rd_total r 4) as [t ->]; [lia|]. rewrite run_bind_l. parsed.
  - parsed.
  - parsed.
  - parsed.
Qed.

Lemma same_trans s1 s2 s3 : same s1 s2 → same s2 s3 → same s1 s3.
Proof. unfold same. intros (? & ? & ? & ? & ? & ? & ?) (? & ? & ? & ? & ? & ? & ?). split_and!; congruence || done. Qed.

Lemma parse_ok s : consistent (m (esm s)) (eap_method_priv (esm s)) →
  ∃ s', eap_sm_parseEapReq mem req s = Ret s' ∧ same s s' ∧ received s'.
Proof.
  intros H. unfold eap_sm_parseEapReq. destruct req as [r|] eqn:Er; [|parsed].
  destruct (Nat.ltb_spec (length r) 4) as [|Hr]; [parsed|].
  destruct (get_be16_total r 2) as [z Hz]; [lia|]. rewrite Hz, run_bind_l.
  destruct (Nat.ltb_spec (length r) (Z.to_nat z)) as [|Hz']; [parsed|].
  destruct (rd_total r 1) as [i ->]; [lia|]. rewrite run_bind_l.
  match goal with |- context [mbind _ (if ?b then Ret ?s1 else _)] =>
    assert (Hmd5 : ∃ s2, (if b then Ret s1 else d ← rdn r 0 (Z.to_nat z); Ret (update (f := esm) (λ e, e <| req_md5 := md5_vector mem [d] |>) s1)) = Ret s2 ∧ same s s2 ∧ received s2) end.
  { if_branch; [|rewrite rdn_ok by lia]; parsed. }
  destruct Hmd5 as (s2 & -> & Hs & Hrx). rewrite run_bind_l.
  destruct (parse_code_ok r (Z.to_nat z) s2) as (s3 & -> & Hs3 & Hrx3); [done|done|done|apply Hs|done|].
  exists s3. split_and!; [done|by eapply same_trans|done].
Qed.

Lemma received_enters s : Inv h0 b0 s →
  ∃ s', sm_EAP_RECEIVED_Enter mem req false s = Ret s' ∧
        ctl_of s' = Ctl EAP_RECEIVED (num_rounds (esm s) + 1) (force_disabled (esm s)) (ebool s EAPOL_portEnabled)
                      (ebool s EAPOL_eapRestart) (ebool s EAPOL_eapReq) ∧
        eap_changed (esm s') = true ∧ Inv h0 b0 s' ∧ received s'.
Proof.
  intros H. unfold sm_EAP_RECEIVED_Enter.
  destruct (parse_ok (sm_entry EAP_RECEIVED false s)) as (s2 & -> & Hs & Hrx); [apply H|]. rewrite run_bind_l.
  pose proof (same_inv _ _ Hs H) as Hi. destruct Hs as (E & _ & _ & Ec & _). injection E as E1 E2 E3 E4 E5 E6.
  eexists. split; [reflexivity|]. split; [|split; [exact Ec|split; [|exact Hrx]]].
  - transitivity (Ctl (EAP_state (esm s2)) (num_rounds (esm s2) + 1) (force_disabled (esm s2)) (ebool s2 EAPOL_portEnabled)
                    (ebool s2 EAPOL_eapRestart) (ebool s2 EAPOL_eapReq)); [reflexivity|]. by rewrite E1, E2, E3, E4, E5, E6.
  - eapply (invariant_event _ _ _ _ _ (decision (esm s2))); [done|done|exact Hi].
Qed.

(** *** Responses *)

Lemma malloc_same s ok s' : consistent (m (esm s)) (eap_method_priv (esm s)) → sm_malloc s = (ok, s') → same s s'.
Proof. unfold sm_malloc. destruct (os_malloc _) as [b c]. intros H [= <- <-]. by split_and!. Qed.

Lemma same_resp s s' o : same s s' → same s (update (f := esm) (λ e, e <| eapRespData := o |>) s').
Proof. intros H. exact H. Qed.

Lemma nak_same s : consistent (m (esm s)) (eap_method_priv (esm s)) → ∃ s', get_method_nak methods s = Ret s' ∧ same s s'.
Proof.
  intros H. unfold get_method_nak. destruct (decide (methods = [])) as [E|Hne].
  - unfold eap_sm_buildNak. rewrite E. eexists. split; [reflexivity|by split_and!].
  - rewrite nak_eq by done. rewrite run_bind_l. eexists. split; [reflexivity|]. apply same_resp.
    destruct (sm_malloc s) as [ok s'] eqn:Em. by eapply malloc_same.
Qed.

Lemma identity_total i enc s : consistent (m (esm s)) (eap_method_priv (esm s)) →
  ∃ o s', eap_sm_buildIdentity i enc s = Ret (o, s') ∧ same s s'.
Proof.
  intros H. unfold eap_sm_buildIdentity. destruct (mc_config _) as [f|]; [|do 2 eexists; split; [reflexivity|by split_and!]].
  assert (∃ who, pick_identity enc f s = Ret who) as [who ->].
  { unfold pick_identity.
    assert (∃ own, (match m (esm s) with
       | Some mt => match get_identity mt with Some g => p ← priv s; Ret (g p) | None => Ret None end
       | None => Ret None end) = Ret own) as [own ->].
    { destruct (m (esm s)) as [mt|] eqn:Em; [|eauto]. destruct (get_identity mt); [|eauto].
      rewrite <-Em in H. destruct (priv_some s mt Em H) as (p & -> & _). cbn. eauto. }
    rewrite run_bind_l. repeat case_match; eauto. }
  rewrite run_bind_l. destruct who as [d|].
  - destruct (pcsc f && _); [do 2 eexists; split; [reflexivity|by split_and!]|].
    destruct (sm_malloc s) as [ok s'] eqn:Em. pose proof (malloc_same _ _ _ H Em). destruct ok; [|by eauto].
    rewrite eap_msg_alloc_eq, run_bind_l, put_ok by buf_fits. eauto.
  - destruct (pcsc f); do 2 eexists; (split; [reflexivity|by split_and!]).
Qed.

Lemma entered_enters st s : Inv h0 b0 s → enters h0 b0 (Ret (sm_entry st false s)) (goto s st (ebool s EAPOL_eapReq)).
Proof. intros H. eexists. do 3 (split; [reflexivity|]). exact H. Qed.

Lemma identity_enters s : Inv h0 b0 s → received s → rxReq (esm s) = true →
  enters h0 b0 (sm_EAP_IDENTITY_Enter req false s) (goto s EAP_IDENTITY (ebool s EAPOL_eapReq)).
Proof.
  intros H Hrx Hreq. unfold sm_EAP_IDENTITY_Enter, eap_sm_processIdentity.
  destruct Hrx as (r & -> & Hr); [by left|]. destruct (get_be16_total r 2) as [z ->]; [lia|]. rewrite !run_bind_l.
  match goal with |- enters _ _ (mbind _ (eap_sm_buildIdentity ?i ?b ?s0)) _ => destruct (identity_total i b s0) as (o & s' & -> & Hs) end;
    [apply H|].
  rewrite run_bind_l. eapply same_enters; [|by apply (entered_enters EAP_IDENTITY)]. apply same_resp, Hs.
Qed.

Lemma notification_enters s : Inv h0 b0 s → received s → rxReq (esm s) = true →
  enters h0 b0 (sm_EAP_NOTIFICATION_Enter req false s) (goto s EAP_NOTIFICATION (ebool s EAPOL_eapReq)).
Proof.
  intros H Hrx Hreq. unfold sm_EAP_NOTIFICATION_Enter.
  pose proof (entered_enters EAP_NOTIFICATION s H) as He. assert (Hc : consistent (m (esm (sm_entry EAP_NOTIFICATION false s))) (eap_method_priv (esm (sm_entry EAP_NOTIFICATION false s)))) by apply H.
  revert He Hc. generalize (sm_entry EAP_NOTIFICATION false s) as s1. intros s1 He Hc.
  assert (∃ s2, eap_sm_processNotify req s1 = Ret s2 ∧ same s1 s2) as (s2 & -> & Hs2).
  { unfold eap_sm_processNotify. destruct Hrx as (r & -> & Hr); [by left|].
    destruct (eap_hdr_validate_total EAP_VENDOR_IETF EAP_TYPE_NOTIFICATION r) as (o & -> & Ho). rewrite run_bind_l.
    destruct o as [[pos n]|]; [|eexists; split; [reflexivity|by split_and!]].
    destruct (sm_malloc s1) as [ok s2] eqn:Em. pose proof (malloc_same _ _ _ Hc Em).
    destruct (Ho pos n eq_refl) as [_ Hle]. destruct ok; [|eauto]. rewrite rdn_ok by exact Hle. eauto. }
  rewrite run_bind_l. unfold eap_sm_buildNotify. cbn zeta.
  destruct (sm_malloc _) as [ok s3] eqn:Em. apply malloc_same in Em; [|apply Hs2].
  assert (Ho : ∀ i, ∃ o, eap_msg_alloc ok EAP_VENDOR_IETF EAP_TYPE_NOTIFICATION 0 EAP_CODE_RESPONSE i = Ret o).
  { intros i. destruct ok; [rewrite eap_msg_alloc_eq|]; eauto. }
  match goal with |- context [eap_msg_alloc ok _ _ _ _ ?i] => destruct (Ho i) as [o ->] end. rewrite !run_bind_l.
  eapply same_enters; [|exact He]. apply same_resp. eapply same_trans; [exact Hs2|exact Em].
Qed.

(** *** Methods *)

Lemma method_enters s : Inv h0 b0 s → is_Some req →
  enters h0 b0 (sm_EAP_METHOD_Enter req false s) (goto s EAP_METHOD (ebool s EAPOL_eapReq)).
Proof.
  intros H [r Hr]. unfold sm_EAP_METHOD_Enter. rewrite Hr.
  pose proof (entered_enters EAP_METHOD s H) as He. assert (Hi : Inv h0 b0 (sm_entry EAP_METHOD false s)) by exact H.
  revert He Hi. generalize (sm_entry EAP_METHOD false s) as s1. intros s1 He Hi.
  destruct (m (esm s1)) as [mt|] eqn:Em; [|exact He].
  assert (Hc : consistent (m (esm s1)) (eap_method_priv (esm s1))) by apply Hi.
  destruct (priv_some s1 mt Em Hc) as (p & Hp & Ep & Hin & Hown). cbn zeta.
  change (priv _) with (priv s1). rewrite Hp, !run_bind_l.
  match goal with |- context [process mt ?c p ?ret r] => destruct (process_returns (MethodOk := method_ok mt Hin) c p ret r Hown) as ([[[o ret'] p'] c'] & -> & Hown') end.
  cbn [fst snd] in Hown'.
  rewrite run_bind_l. destruct (ret_ignore ret').
  - eapply same_enters; [|exact He]. split_and!; try reflexivity. cbn. by rewrite Em.
  - match goal with |- enters _ _ (take_key mt ?s2) _ => assert (Hs2 : enters h0 b0 (Ret s2) (goto s EAP_METHOD (ebool s EAPOL_eapReq)) ∧ ∃ p, priv s2 = Ret p) end.
    { split; [|by eexists]. destruct He as (s1' & [= <-] & E1 & E2 & _). eexists. split; [reflexivity|].
      split; [rewrite <-E1; reflexivity|]. split; [rewrite <-E2; reflexivity|].
      eapply (invariant_event _ _ _ _ _ (decision (esm s1))); [done|done|]. destruct Hi as (_ & Hrep). split; [|exact Hrep].
      change (consistent (m (esm s1)) (Some p')). by rewrite Em. }
    revert Hs2. match goal with |- context [take_key mt ?x] => generalize x end. intros s2 [He2 [q Hq]]. unfold take_key.
    destruct (isKeyAvailable mt) as [av|]; [|exact He2]. destruct (getKey mt) as [key|]; [|exact He2].
    rewrite Hq, run_bind_l. destruct (av q); [|exact He2]. destruct (key q _) as [k ck].
    eapply same_enters; [|exact He2]. destruct He2 as (s3 & [= <-] & _ & _ & Hi3). split_and!; try reflexivity. apply Hi3.
Qed.

(** Without [consistent]: the selected method may not be initialised yet. *)
Definition alike (s s' : est P) : Prop :=
  ctl_of s' = ctl_of s ∧ decision (esm s') = decision (esm s) ∧ history (esm s') = history (esm s) ∧
  eap_changed (esm s') = eap_changed (esm s) ∧ ebool s' = ebool s ∧ ews s' = ews s.

Lemma alike_same s s' : alike s s' → consistent (m (esm s')) (eap_method_priv (esm s')) → same s s'.
Proof. intros (? & ? & ? & ? & ? & ?) ?. by split_and!. Qed.
Lemma alike_trans s1 s2 s3 : alike s1 s2 → same s2 s3 → same s1 s3.
Proof. intros (? & ? & ? & ? & ? & ?) (? & ? & ? & ? & ? & ? & ?). split_and!; congruence || done. Qed.

Lemma init_same reinit mt s :
  mt ∈ methods → m (esm s) = Some mt → (reinit = true → ∃ p, priv s = Ret p ∧ owns mt p) →
  ∃ s', start_method methods reinit mt s = Ret s' ∧ same s s'.
Proof.
  intros Hin Hm Hre. unfold start_method.
  assert (∃ o c, init_method reinit mt s = Ret (update (f := esm) (λ e, e <| eap_method_priv := o |>)
                   (update (f := esm) (λ e, e <| mc := c |>) s)) ∧ ∀ p, o = Some p → owns mt p) as (o & c & -> & Hown).
  { pose proof (method_ok mt Hin) as Hok. unfold init_method. destruct reinit.
    - destruct Hre as (p & -> & Hp); [done|]. rewrite run_bind_l.
      pose proof (λ p', init_for_reauth_owns p (mc (esm s)) p' Hp) as Ho.
      destruct (init_for_reauth _ _ _) as [o c]. exists o, c. by split.
    - pose proof (init_owns (MethodOk := Hok) (Some (vendor mt, method mt)) (mc (esm s))) as Ho.
      destruct (init _ _ _) as [o c]. exists o, c. by split. }
  rewrite run_bind_l. match goal with |- context [match eap_method_priv ?x with _ => _ end] => change (eap_method_priv x) with o end.
  destruct o as [p|].
  - eexists. split; [reflexivity|]. split_and!; try reflexivity. change (consistent (m (esm s)) (Some p)). rewrite Hm. split; [done|by apply Hown].
  - cbn zeta. match goal with |- context [get_method_nak methods ?x] => assert (Hx : alike s x ∧ consistent (m (esm x)) (eap_method_priv (esm x))) by (by split_and!); revert Hx; generalize x end.
    intros s2 [Ha Hc]. destruct (_ && _); [eexists; split; [reflexivity|by apply alike_same]|].
    destruct (nak_same s2 Hc) as (s3 & -> & Hs). exists s3. split; [done|by eapply alike_trans].
Qed.

Lemma can_reauth_ok s : consistent (m (esm s)) (eap_method_priv (esm s)) →
  ∃ b, can_reauth s = Ret b ∧ (b = true → is_Some (m (esm s))).
Proof.
  intros H. unfold can_reauth. destruct (m (esm s)) as [mt|] eqn:Em; [|rewrite andb_false_r; exists false; by split].
  rewrite <-Em in H. destruct (_ && _); [|exists false; by split]. destruct (has_reauth_total s H) as [b ->]. by eauto.
Qed.

Lemma get_method_enters s : Inv h0 b0 s →
  enters h0 b0 (sm_EAP_GET_METHOD_Enter methods false s) (goto s EAP_GET_METHOD (ebool s EAPOL_eapReq)).
Proof.
  intros H. unfold sm_EAP_GET_METHOD_Enter.
  pose proof (entered_enters EAP_GET_METHOD s H) as He.
  assert (Hc : consistent (m (esm (sm_entry EAP_GET_METHOD false s))) (eap_method_priv (esm (sm_entry EAP_GET_METHOD false s)))) by apply H.
  revert He Hc. generalize (sm_entry EAP_GET_METHOD false s) as s1. intros s1 He Hc. cbn zeta.
  destruct (eap_sm_allowMethod _ _ _ _); cbn [negb].
  2: { destruct (nak_same s1 Hc) as (s2 & -> & Hs). by eapply same_enters. }
  destruct (can_reauth_ok s1 Hc) as (b & -> & Hb). rewrite run_bind_l.
  assert (Hs2 : same s1 (if b then s1 else eap_deinit_prev_method s1)) by (destruct b; [by split_and!|by apply deinit_same]).
  assert (Hm2 : b = false → m (esm (if b then s1 else eap_deinit_prev_method s1)) = None) by (intros ->; by apply deinit_none).
  revert Hs2 Hm2. assert (Hm2' : b = true → is_Some (m (esm (if b then s1 else eap_deinit_prev_method s1)))) by (destruct b; [exact Hb|discriminate]).
  revert Hm2'. generalize (if b then s1 else eap_deinit_prev_method s1) as s2. intros s2 Hsome Hs2 Hnone.
  assert (Hc2 : consistent (m (esm s2)) (eap_method_priv (esm s2))) by apply Hs2.
  match goal with |- context [match m ?x with Some _ => ?y | None => _ end] => change (m x) with (m (esm s2)) end.
  destruct (m (esm s2)) as [mt|] eqn:Em.
  - rewrite <-Em in Hc2. destruct (priv_some s2 mt Em Hc2) as (p & Hp & Ep & Hin & Hown).
    match goal with |- context [match m ?x with _ => _ end] => change (m x) with (m (esm s2)) end. rewrite Em.
    match goal with |- context [start_method methods b mt ?x] => destruct (init_same b mt x) as (s3 & -> & Hs3) end; [done|exact Em|eauto|].
    eapply same_enters; [|exact He]. eapply same_trans; [exact Hs2|exact Hs3].
  - destruct b; [destruct (Hsome eq_refl) as [? ?]; discriminate|].
    match goal with |- context [match m ?x with _ => _ end] => change (m x) with (eap_peer_get_eap_method methods (reqVendor (esm s2)) (req_type s1)) end.
    destruct (eap_peer_get_eap_method _ _ _) as [mt|] eqn:Ef.
    + assert (Hin : mt ∈ methods) by (apply find_some in Ef as [Hf _]; by apply list_elem_of_In).
      match goal with |- context [start_method methods false mt ?x] => destruct (init_same false mt x) as (s3 & -> & Hs3) end; [done|done|done|].
      eapply same_enters; [|exact He]. eapply same_trans; [exact Hs2|exact Hs3].
    + match goal with |- context [get_method_nak methods ?x] => destruct (nak_same x) as (s3 & -> & Hs3) end; [exact Hc2|].
      eapply same_enters; [|exact He]. eapply same_trans; [exact Hs2|exact Hs3].
Qed.

(** ** Steps *)

Definition rounds_ok (st : EAP_state_t) (n : Z) : Prop :=
  0 ≤ n ∧ (n ≤ EAP_MAX_AUTH_ROUNDS ∨ (n = EAP_MAX_AUTH_ROUNDS + 1 ∧ st = EAP_RECEIVED) ∨
           (n = EAP_MAX_AUTH_ROUNDS + 2 ∧ (st = EAP_FAILURE ∨ st = EAP_SUCCESS))).

(** Between two steps of a call. *)
Definition mid (s : est P) : Prop :=
  Inv h0 b0 s ∧ rounds_ok (EAP_state (esm s)) (num_rounds (esm s)) ∧
  (EAP_state (esm s) = EAP_RECEIVED → received s) ∧ (EAP_state (esm s) = EAP_GET_METHOD → is_Some req).

(** How many steps can follow. *)
Definition local_rank (st : EAP_state_t) (rq : bool) : nat :=
  let idle := if rq then 6%nat else 1%nat in
  match st with
  | EAP_DISABLED => 8
  | EAP_INITIALIZE | EAP_SEND_RESPONSE | EAP_DISCARD => S idle
  | EAP_IDLE => idle
  | EAP_RECEIVED => 5
  | EAP_GET_METHOD => 4
  | EAP_METHOD | EAP_IDENTITY | EAP_NOTIFICATION | EAP_RETRANSMIT => 3
  | EAP_SUCCESS | EAP_FAILURE => 0
  end.
Definition rank (c : ctl) : nat :=
  if c_restart c && c_port c then 9
  else if negb (c_port c) || c_disabled c then (if bool_decide (c_state c = EAP_DISABLED) then 0 else 1)
  else if EAP_MAX_AUTH_ROUNDS <? c_rounds c then (if c_rounds c =? EAP_MAX_AUTH_ROUNDS + 1 then 1 else 0)
  else local_rank (c_state c) (c_req c).

(** Where a call may end. *)
Definition at_rest (st : EAP_state_t) : bool :=
  match st with EAP_IDLE | EAP_DISABLED | EAP_SUCCESS | EAP_FAILURE => true | _ => false end.

Definition progress (s : est P) (r : run (est P)) : Prop :=
  ∃ s', r = Ret s' ∧ mid s' ∧
    (eap_changed (esm s') = true →
       (rank (ctl_of s') < rank (ctl_of s))%nat ∧ (EAP_state (esm s') = EAP_INITIALIZE → ebool s' EAPOL_eapRestart = false)) ∧
    (eap_changed (esm s') = false →
       (at_rest (EAP_state (esm s')) = true ∧ s' = update (f := esm) (λ e, e <| num_rounds := num_rounds (esm s') |>) s ∧
        (num_rounds (esm s') ≠ num_rounds (esm s) →
           EAP_state (esm s') = EAP_DISABLED ∧ num_rounds (esm s') = 0 ∧
           ebool s EAPOL_eapRestart && ebool s EAPOL_portEnabled = false ∧
           negb (ebool s EAPOL_portEnabled) || force_disabled (esm s) = true)) ∨
       (EAP_state (esm s) = EAP_INITIALIZE ∧ EAP_state (esm s') = EAP_INITIALIZE ∧ ebool s EAPOL_eapRestart = true ∧
        num_rounds (esm s') = 0)).

Lemma enters_progress s r c : enters h0 b0 r c → (rank c < rank (ctl_of s))%nat → rounds_ok (c_state c) (c_rounds c) →
  c_state c ≠ EAP_RECEIVED → c_state c ≠ EAP_INITIALIZE → (c_state c = EAP_GET_METHOD → is_Some req) → progress s r.
Proof.
  intros (s' & -> & <- & Hch & Hi) Hr Hn H1 H0 H2. exists s'. split; [done|]. split; [by split_and!|].
  split; [|congruence]. intros _. by split.
Qed.

Lemma update_rounds_id s : s = update (f := esm) (λ e, e <| num_rounds := num_rounds (esm s) |>) s.
Proof. by destruct s as [[] ? ? ?]. Qed.

Lemma stay_progress s : mid s → eap_changed (esm s) = false → at_rest (EAP_state (esm s)) = true → progress s (Ret s).
Proof.
  intros Hm Hc Hs. exists s. split; [done|]. split; [done|]. split; [congruence|]. intros _. left.
  split; [done|]. split; [apply update_rounds_id|done].
Qed.

(** The local transitions apply. *)
Definition local (s : est P) : Prop :=
  ebool s EAPOL_eapRestart = false ∧ ebool s EAPOL_portEnabled = true ∧ force_disabled (esm s) = false ∧
  0 ≤ num_rounds (esm s) ≤ EAP_MAX_AUTH_ROUNDS.

Lemma rank_local s st rq : local s → rank (goto s st rq) = local_rank st rq.
Proof.
  intros (E1 & E2 & E3 & E4). unfold rank, goto. cbn [c_restart c_port c_disabled c_rounds c_state c_req].
  rewrite E1, E2, E3. by rewrite (proj2 (Z.ltb_ge _ _)) by lia.
Qed.
Lemma rank_here s : local s → rank (ctl_of s) = local_rank (EAP_state (esm s)) (ebool s EAPOL_eapReq).
Proof. apply (rank_local s (EAP_state (esm s))). Qed.

(** An entry by a local transition. *)
Lemma local_progress s r st rq : local s → enters h0 b0 r (goto s st rq) →
  (local_rank st rq < local_rank (EAP_state (esm s)) (ebool s EAPOL_eapReq))%nat →
  st ≠ EAP_RECEIVED ∧ st ≠ EAP_INITIALIZE → (st = EAP_GET_METHOD → is_Some req) → progress s r.
Proof.
  intros Hl He Hr [H1 H0] H2. eapply enters_progress; [exact He| | |exact H1|exact H0|exact H2]; [rewrite rank_local, rank_here by exact Hl; exact Hr|].
  destruct Hl as (_ & _ & _ & Hn). split; [apply Hn|left; apply Hn].
Qed.

Lemma idle_progress s : mid s → local s → eap_changed (esm s) = false → EAP_state (esm s) = EAP_IDLE →
  progress s (eap_peer_sm_step_idle mem req s).
Proof.
  intros Hm Hl Hc Hst. pose proof Hm as (Hi & _). unfold eap_peer_sm_step_idle, eapol_get_bool, eapol_get_int.
  destruct (ebool s EAPOL_eapReq) eqn:Erq.
  { destruct (received_enters s Hi) as (s' & -> & Hctl & Hch & Hi' & Hrx). exists s'. split; [done|].
    pose proof (f_equal c_state Hctl) as Hs. pose proof (f_equal c_rounds Hctl) as Hn. cbn in Hs, Hn.
    pose proof Hl as (E1 & E2 & E3 & E4). split.
    - split; [done|]. rewrite Hs, Hn. split; [|split; [done|discriminate]].
      split; [lia|]. destruct (Z.eq_dec (num_rounds (esm s)) EAP_MAX_AUTH_ROUNDS); [right; left; split; [lia|done]|left; lia].
    - split; [|congruence]. intros _. split; [|congruence]. rewrite (rank_here s Hl), Hctl, Hst, Erq. unfold rank.
      cbn [c_restart c_port c_disabled c_rounds c_state c_req]. rewrite E1, E2, E3. cbn. repeat case_match; lia. }
  assert (Hd : ∀ b, b && negb (bool_decide (decision (esm s) = DECISION_FAIL)) = true → decision (esm s) ≠ DECISION_FAIL).
  { intros b [_ Hb%negb_true_iff%bool_decide_eq_false]%andb_true_iff. done. }
  assert (Hsucc : decision (esm s) ≠ DECISION_FAIL → progress s (sm_EAP_SUCCESS_Enter false s)).
  { intros Hdd. eapply local_progress; [done|by apply success_enters| |done|done]. rewrite Hst, Erq. cbn. lia. }
  destruct (_ || _) eqn:Ea; [|destruct (_ || _ || _)].
  - apply Hsucc. apply orb_true_iff in Ea as [Ea|Ea]; [by eapply Hd|].
    apply andb_true_iff in Ea as [_ Ea%bool_decide_eq_true]. congruence.
  - eapply local_progress; [done|by apply failure_enters| |done|done]. rewrite Hst, Erq. cbn. lia.
  - destruct (_ && leap_done _ && _ && _) eqn:E1; [|destruct (_ && peap_done _ && _ && _) eqn:E2].
    + apply Hsucc. by apply andb_true_iff in E1 as [E1%Hd _].
    + apply Hsucc. by apply andb_true_iff in E2 as [E2%Hd _].
    + apply stay_progress; [done|done|by rewrite Hst].
Qed.

Lemma received_progress s : mid s → local s → EAP_state (esm s) = EAP_RECEIVED →
  progress s (eap_peer_sm_step_received methods req s).
Proof.
  intros (Hi & _ & Hrx & _) Hl Hst. specialize (Hrx Hst). unfold eap_peer_sm_step_received. cbn zeta.
  set (id_ok := (_ =? _) || _). set (dup := eap_peer_req_is_duplicate _).
  assert (Hr : rxReq (esm s) = true → is_Some req) by (intros; destruct Hrx as (r & -> & _); eauto).
  destruct (rxSuccess (esm s) && _ && id_ok) eqn:E1.
  { eapply local_progress; [done|apply success_enters; [done|]|rewrite Hst; cbn; lia|done|done].
    by apply andb_true_iff in E1 as [[_ E1%negb_true_iff%bool_decide_eq_false]%andb_true_iff _]. }
  destruct (_ && (_ || _) && id_ok).
  { eapply local_progress; [done|by apply failure_enters|rewrite Hst; cbn; lia|done|done]. }
  destruct (rxReq (esm s)) eqn:Erq; cbn [andb].
  - destruct dup; cbn [negb andb].
    { eapply local_progress; [done|by apply retransmit_enters|rewrite Hst; cbn; lia|done|done]. }
    if_branch.
    { eapply local_progress; [done|by apply notification_enters|rewrite Hst; cbn; lia|done|done]. }
    if_branch.
    { eapply local_progress; [done|by apply identity_enters|rewrite Hst; cbn; lia|done|done]. }
    if_branch.
    { eapply local_progress; [done|by apply get_method_enters|rewrite Hst; cbn; lia|done|auto]. }
    if_branch.
    { eapply local_progress; [done|by apply method_enters; auto|rewrite Hst; cbn; lia|done|done]. }
    if_branch.
    { eapply local_progress; [done|by apply method_enters; auto|rewrite Hst; cbn; lia|done|done]. }
    eapply local_progress; [done|by apply discard_enters|rewrite Hst; cbn; lia|done|done].
  - destruct (_ && (_ || _)) eqn:E2.
    + eapply local_progress; [done|apply method_enters; [done|]|rewrite Hst; cbn; lia|done|done].
      apply andb_true_iff in E2 as [_ E2%orb_true_iff]. destruct Hrx as (r & -> & _); [tauto|eauto].
    + eapply local_progress; [done|by apply discard_enters|rewrite Hst; cbn; lia|done|done].
Qed.

Lemma local_step_progress s : mid s → local s → eap_changed (esm s) = false →
  progress s (eap_peer_sm_step_local methods mem req s).
Proof.
  intros Hm Hl Hc. pose proof Hm as (Hi & _ & _ & Hg). unfold eap_peer_sm_step_local.
  destruct (EAP_state (esm s)) eqn:Hst.
  - eapply local_progress; [done|by apply idle_enters|rewrite Hst; destruct (ebool s EAPOL_eapReq); cbn; lia|done|done].
  - pose proof Hl as (E1 & E2 & E3 & E4). unfold eapol_get_bool. rewrite E2, E3. cbn [negb andb].
    destruct (initialize_enters false s Hi Hc) as (s' & -> & Hctl & Hch & Hi'). exists s'. split; [done|].
    pose proof (f_equal c_state Hctl) as Hs. pose proof (f_equal c_rounds Hctl) as Hn. cbn in Hs, Hn.
    split; [|split; [|rewrite Hch; discriminate]].
    + split; [done|]. rewrite Hs, Hn. split; [|done]. split; [lia|left; unfold EAP_MAX_AUTH_ROUNDS; lia].
    + intros _. split; [|intros _; exact (f_equal c_restart Hctl)]. rewrite (rank_here s Hl), Hctl, Hst, E2, E3. unfold rank. cbn. by destruct (ebool s EAPOL_eapReq); lia.
  - by apply idle_progress.
  - by apply received_progress.
  - if_branch; [eapply local_progress; [done|apply method_enters; auto|rewrite Hst; cbn; lia|done|done]|].
    eapply local_progress; [done|by apply send_response_enters|rewrite Hst; cbn; lia|done|done].
  - if_branch; [eapply local_progress; [done|by apply discard_enters|rewrite Hst; cbn; lia|done|done]|].
    eapply local_progress; [done|by apply send_response_enters|rewrite Hst; cbn; lia|done|done].
  - eapply local_progress; [done|by apply idle_enters|rewrite Hst; destruct (ebool s EAPOL_eapReq); cbn; lia|done|done].
  - eapply local_progress; [done|by apply idle_enters|rewrite Hst; destruct (ebool s EAPOL_eapReq); cbn; lia|done|done].
  - eapply local_progress; [done|by apply send_response_enters|rewrite Hst; destruct (ebool s EAPOL_eapReq); cbn; lia|done|done].
  - eapply local_progress; [done|by apply send_response_enters|rewrite Hst; destruct (ebool s EAPOL_eapReq); cbn; lia|done|done].
  - eapply local_progress; [done|by apply send_response_enters|rewrite Hst; destruct (ebool s EAPOL_eapReq); cbn; lia|done|done].
  - apply stay_progress; [done|done|by rewrite Hst].
  - apply stay_progress; [done|done|by rewrite Hst].
Qed.

(** Every step of the machine makes progress. *)
Lemma step_progress s : mid s → eap_changed (esm s) = false → progress s (SM_STEP_EAP methods mem req s).
Proof.
  intros Hm Hc. pose proof Hm as (Hi & Hn & _). unfold SM_STEP_EAP, eapol_get_bool.
  destruct (ebool s EAPOL_eapRestart && ebool s EAPOL_portEnabled) eqn:Er.
  { destruct (initialize_enters true s Hi Hc) as (s' & -> & Hctl & Hch & Hi'). exists s'. split; [done|].
    pose proof (f_equal c_state Hctl) as Hs. pose proof (f_equal c_rounds Hctl) as Hn'. cbn in Hs, Hn'.
    split; [split; [done|]; rewrite Hs, Hn'; split; [|done]; split; [lia|left; unfold EAP_MAX_AUTH_ROUNDS; lia]|].
    split.
    - intros _. split; [|intros _; exact (f_equal c_restart Hctl)]. rewrite Hctl. unfold rank at 2. cbn [ctl_of c_restart c_port]. rewrite Er. unfold rank. cbn. repeat case_match; cbn; lia.
    - rewrite Hch. cbn [negb orb]. intros Hst%negb_false_iff%bool_decide_eq_true. right. by apply andb_true_iff in Er as [-> _]. }
  destruct (negb (ebool s EAPOL_portEnabled) || force_disabled (esm s)) eqn:Ed.
  { destruct (disabled_enters s Hi Hc) as (s' & Es & Hctl & Hch & Hi'). exists s'. split; [done|].
    pose proof (f_equal c_state Hctl) as Hs. pose proof (f_equal c_rounds Hctl) as Hn'. cbn in Hs, Hn'.
    split; [split; [done|]; rewrite Hs, Hn'; split; [|done]; split; [lia|left; unfold EAP_MAX_AUTH_ROUNDS; lia]|].
    split.
    - rewrite Hch. intros Hst%negb_true_iff. split; [|by rewrite Hs]. rewrite Hctl. unfold rank. cbn [ctl_of c_restart c_port c_disabled c_state].
      rewrite Er, Ed, Hst. rewrite (bool_decide_eq_true_2 (EAP_DISABLED = EAP_DISABLED)) by done. lia.
    - rewrite Hch. intros Hst%negb_false_iff%bool_decide_eq_true. left. rewrite Hs, Hn'. split; [done|]. split; [|done].
      injection Es as <-. unfold sm_entry. rewrite bool_decide_eq_true_2 by done. cbn [negb orb].
      destruct s as [[] ? ? ?]. cbn in Hst. by subst. }
  apply orb_false_iff in Ed as [Ep%negb_false_iff Ed]. rewrite Ep, andb_true_r in Er.
  destruct (Z.ltb_spec EAP_MAX_AUTH_ROUNDS (num_rounds (esm s))) as [Hlt|Hle].
  - destruct (Z.eqb_spec (num_rounds (esm s)) (EAP_MAX_AUTH_ROUNDS + 1)) as [He|He].
    + assert (Hst : EAP_state (esm s) = EAP_RECEIVED) by (destruct Hn as [_ [?|[[_ ?]|[? _]]]]; [lia|done|lia]).
      eapply enters_progress; [apply failure_enters; [exact Hi|intros _; cbn; by rewrite Hst]| | |done|done|done].
      * unfold rank, goto. cbn [ctl_of c_restart c_port c_disabled c_state c_rounds].
        replace (ebool _ EAPOL_eapRestart) with false by (symmetry; exact Er).
        replace (ebool (update _ s) EAPOL_portEnabled) with true by (symmetry; exact Ep).
        replace (force_disabled (esm (update _ s))) with false by (symmetry; exact Ed).
        change (num_rounds (esm (update _ s))) with (num_rounds (esm s) + 1). rewrite Er, Ep, Ed, He. exact Nat.lt_0_1.
      * cbn. rewrite He. split; [unfold EAP_MAX_AUTH_ROUNDS; lia|]. right. right. split; [lia|by left].
    + apply stay_progress; [done|done|]. destruct Hn as [_ [?|[[? _]|[_ [->| ->]]]]]; [lia|lia|done|done].
  - apply local_step_progress; [done| |done]. split_and!; try done. apply Hn.
Qed.

Lemma mid_unchange s : mid s → mid (update (f := esm) (λ e, e <| eap_changed := false |>) s).
Proof. intros H. exact H. Qed.

Lemma step_disabled s : EAP_state (esm s) = EAP_DISABLED → num_rounds (esm s) = 0 →
  ebool s EAPOL_eapRestart && ebool s EAPOL_portEnabled = false →
  negb (ebool s EAPOL_portEnabled) || force_disabled (esm s) = true → SM_STEP_EAP methods mem req s = Ret s.
Proof.
  intros H1 H2 H3 H4. unfold SM_STEP_EAP, eapol_get_bool. rewrite H3, H4. unfold sm_EAP_DISABLED_Enter, sm_entry.
  rewrite H1. rewrite bool_decide_eq_true_2 by done. f_equal. destruct s as [[] ? ? ?]. cbn in H1, H2. by subst.
Qed.

(** The loop ends within its fuel, where no further step changes anything; the
    exception is a restart requested in the initial state. *)
Lemma loop_ends fuel res s : mid s → (rank (ctl_of s) < fuel)%nat →
  ∃ res' s', eap_step_loop methods mem req fuel res s = Ret (res', s') ∧ mid s' ∧ eap_changed (esm s') = false ∧
    ((at_rest (EAP_state (esm s')) = true ∧ SM_STEP_EAP methods mem req s' = Ret s') ∨
     (EAP_state (esm s) = EAP_INITIALIZE ∧ ebool s EAPOL_eapRestart = true ∧ EAP_state (esm s') = EAP_INITIALIZE)).
Proof.
  revert res s. induction fuel as [|fuel IH]; intros res s Hm Hr; [lia|]. cbn [eap_step_loop].
  change (rank (ctl_of s)) with (rank (ctl_of (update (f := esm) (λ e, e <| eap_changed := false |>) s))) in Hr.
  change (EAP_state (esm s)) with (EAP_state (esm (update (f := esm) (λ e, e <| eap_changed := false |>) s))).
  change (ebool s) with (ebool (update (f := esm) (λ e, e <| eap_changed := false |>) s)).
  assert (Hm0 : mid (update (f := esm) (λ e, e <| eap_changed := false |>) s)) by exact Hm.
  assert (Hc0 : eap_changed (esm (update (f := esm) (λ e, e <| eap_changed := false |>) s)) = false) by done.
  revert Hr Hm0 Hc0. generalize (update (f := esm) (λ e, e <| eap_changed := false |>) s) as s0. clear s Hm. intros s Hr Hm Hc.
  destruct (step_progress s) as (s' & Es & Hm' & H1 & H2); [done|done|]. rewrite Es, run_bind_l.
  destruct (eap_changed (esm s')) eqn:Ec.
  - destruct (H1 eq_refl) as [H1r H1i]. destruct (IH true s') as (res' & s'' & -> & Hm2 & Hc2 & [H|(E1 & E2 & _)]); [done|lia|eauto 10|].
    rewrite (H1i E1) in E2. discriminate.
  - exists res, s'. split_and!; [done|done|done|]. destruct (H2 eq_refl) as [(Hrest & Eq & Hn)|(E1 & E2 & E3 & _)]; [left|right; by split_and!].
    split; [done|]. destruct (Z.eq_dec (num_rounds (esm s')) (num_rounds (esm s))) as [En|Hne].
    + rewrite En, <-update_rounds_id in Eq. by subst s'.
    + destruct (Hn Hne) as (F1 & F2 & F3 & F4). apply step_disabled; [done|done| |]; rewrite Eq; [exact F3|exact F4].
Qed.
End entries.

(** ** Reachable states *)

(** The states that the operations lead to: calls of [eap_peer_sm_step] with any
    variables and any received message, the other operations of the EAPOL layer, and
    any change of what the machine shares with methods and configuration. *)
Inductive reach : eap_sm P → Prop :=
| reach_init c : reach (eap_peer_sm_init c)
| reach_step e v res s : reach e → eap_step_run methods mem e v = Ret (res, s) → reach (esm s)
| reach_abort e : reach e → reach (sm_abort e).1
| reach_success e : reach e → reach (notify_success e)
| reach_lower e v : reach e → reach (notify_lower_layer_success e v).1
| reach_response e : reach e → reach (get_eapRespData e).1
| reach_disable e b : reach e → reach (set_force_disabled e b)
| reach_invalidate e : reach e → reach (invalidate_cached_session e)
| reach_shared e c : reach e → reach (e <| mc := c |>).

(** Between two calls. *)
Definition ready (e : eap_sm P) : Prop :=
  consistent (m e) (eap_method_priv e) ∧ trusted (decision e) (history e) ∧
  rounds_ok (EAP_state e) (num_rounds e) ∧ (at_rest (EAP_state e) = true ∨ EAP_state e = EAP_INITIALIZE).

Lemma ready_mid e v req : ready e → mid req (history e) (view_bool v EAPOL_eapSuccess) (est_of e v).
Proof.
  intros (Hc & Ht & Hn & Hst). split; [|split; [exact Hn|split]].
  - split; [exact Hc|split; [exact Ht|split]]; [|split; [done|auto]]. split; [|constructor]. exists []. rewrite app_nil_r. split; [done|]. cbn. set_solver.
  - intros E. cbn in E. rewrite E in Hst. by destruct Hst.
  - intros E. cbn in E. rewrite E in Hst. by destruct Hst.
Qed.

Lemma rank_bound c : (rank c < 10)%nat.
Proof. unfold rank, local_rank. repeat case_match; lia. Qed.

(** One call from a state of rest. *)
Lemma run_ends e v : ready e →
  ∃ res s, eap_step_run methods mem e v = Ret (res, s) ∧ mid (view_eapReqData v) (history e) (view_bool v EAPOL_eapSuccess) s ∧ eap_changed (esm s) = false ∧
    ((at_rest (EAP_state (esm s)) = true ∧ SM_STEP_EAP methods mem (view_eapReqData v) s = Ret s) ∨
     (EAP_state e = EAP_INITIALIZE ∧ view_bool v EAPOL_eapRestart = true ∧ EAP_state (esm s) = EAP_INITIALIZE)).
Proof. intros He. apply loop_ends; [by apply ready_mid|apply rank_bound]. Qed.

Lemma forced_trusted d h : trusted d h → trusted DECISION_COND_SUCC (h ++ [EvForced]).
Proof. intros [_ Hh]. split; [by rewrite authenticated_snoc|]. by apply history_ok_snoc. Qed.

Lemma reach_ready e : reach e → ready e.
Proof.
  induction 1 as [c|e v res s He IH Hr|e He IH|e He IH|e v He IH|e He IH|e b He IH|e He IH|e c He IH].
  - split; [done|]. split; [split; [done|apply history_ok_nil]|]. split; [|by right]. split; [done|by left].
  - destruct (run_ends e v IH) as (res' & s' & Es & (Hi & Hn & _) & _ & Hst). rewrite Hr in Es. injection Es as -> ->.
    destruct Hi as (Hc & Ht & _). split; [done|split; [done|split; [done|]]]. destruct Hst as [[? _]|(_ & _ & ?)]; auto.
  - exact IH.
  - destruct IH as (Hc & Ht & Hn & Hst). split; [exact Hc|split; [by apply (forced_trusted (decision e))|split]].
    + split; [apply Hn|]. destruct Hn as [_ [?|[[_ E]|[E _]]]]; [by left| |right; right; split; [exact E|by right]].
      rewrite E in Hst. by destruct Hst.
    + by left.
  - unfold notify_lower_layer_success. if_branch; [exact IH|]. destruct IH as (Hc & [Ht Hh] & Hn).
    apply orb_false_iff in Heqb as [Heqb _]. apply orb_false_iff in Heqb as [_ Hd].
    assert (Hnew : trusted (decision e) (history e ++ [EvSuccess])).
    { split; [by rewrite authenticated_snoc|]. apply history_ok_snoc; [done|]. intros _. by rewrite <-Ht, Hd. }
    destruct (eapKeyData e); (split; [exact Hc|split; [exact Hnew|exact Hn]]).
  - unfold get_eapRespData. destruct (eapRespData e); exact IH.
  - exact IH.
  - destruct IH as (Hc & Ht & Hn). set (s := Est e (λ _, false) 0 []).
    destruct (deinit_same s Hc) as (E1 & E2 & E3 & _ & _ & _ & E4). injection E1 as E1 E1' _.
    unfold invalidate_cached_session. fold s. split; [exact E4|]. rewrite E2, E3, E1, E1'. by split.
  - exact IH.
Qed.

(** ** Theorems *)


(** C5: success is signalled only to an authenticated peer.  Whenever the machine has
    signalled success, a method had accepted the server with a decision other than
    failure (or success had been forced from outside) and neither a new session nor a
    failing method came in between; so a forged EAP-Success message alone is not
    enough.  And [eapSuccess] is set for the EAPOL layer only with that event. *)
Theorem eap_success_authenticated e : reach e →
  (∀ h1 h2, history e = h1 ++ EvSuccess :: h2 →
     ∃ a ev b, h1 = a ++ ev :: b ∧ (ev = EvForced ∨ ∃ d, d ≠ DECISION_FAIL ∧ ev = EvMethod d) ∧
               (EvSession ∉ b) ∧ (EvMethod DECISION_FAIL ∉ b)) ∧
  (∀ v res s, eap_step_run methods mem e v = Ret (res, s) → SetBool EAPOL_eapSuccess true ∈ ews s →
     ∃ hs, history (esm s) = history e ++ hs ∧ EvSuccess ∈ hs).
Proof.
  intros H. pose proof (reach_ready e H) as Hr. split.
  - intros h1 h2 E. apply authenticated_origin. destruct Hr as (_ & [_ Hh] & _). by eapply Hh.
  - intros v res s Es Hw. destruct (run_ends e v Hr) as (res' & s' & Es' & (Hi & _) & _).
    rewrite Es in Es'. injection Es' as <- <-. destruct Hi as (_ & _ & [(hs & Hhs & Hw') _] & _). eauto.
Qed.

(** C39: a session never goes beyond its limit of messages: the count stays within the
    limit, except in FAILURE, where the first message over it leads, or in a success
    forced from outside. *)
Theorem eap_rounds_bounded e : reach e →
  0 ≤ num_rounds e ≤ EAP_MAX_AUTH_ROUNDS + 2 ∧
  (EAP_MAX_AUTH_ROUNDS < num_rounds e → EAP_state e = EAP_FAILURE ∨ EAP_state e = EAP_SUCCESS).
Proof.
  intros H. destruct (reach_ready e H) as (_ & _ & [H0 Hn] & Hst).
  destruct Hn as [Hn|[[Hn E]|[Hn E]]]; [split; [lia|intros; lia]| |split; [lia|done]].
  rewrite E in Hst. by destruct Hst.
Qed.

(** ** The machine behind the EAPOL layer *)

(** Its reachable states discharge what EapolSupp requires of an EAP layer. *)
Definition peer : Type := { e : eap_sm P | reach e }.

Definition lift (e : eap_sm P) (H : reach e) : peer := e ↾ H.

Definition peer_step (e : peer) (v : eap_view) : peer * list eap_write * bool :=
  match eap_step_run methods mem (`e) v as r
        return eap_step_run methods mem (`e) v = r → peer * list eap_write * bool with
  | Ret (res, s) => λ E, (lift (esm s) (reach_step _ _ _ _ (proj2_sig e) E), ews s, res)
  | UB _ | OutOfFuel => λ _, (e, [], false)
  end eq_refl.

Definition peer_response (e : peer) : peer * option (list Z) :=
  (lift _ (reach_response _ (proj2_sig e)), (get_eapRespData (`e)).2).

#[global] Instance reachable_peer : EapPeer peer := {
  eap_peer_sm_step := peer_step;
  eap_sm_abort e := (lift _ (reach_abort _ (proj2_sig e)), (sm_abort (`e)).2);
  eap_key_available e := eapKeyAvailable (`e);
  eap_get_eapKeyData e := eapKeyData (`e);
  eap_get_eapRespData := peer_response;
  eap_notify_success e := lift _ (reach_success _ (proj2_sig e));
  eap_notify_lower_layer_success e v :=
    (lift _ (reach_lower _ v (proj2_sig e)), (notify_lower_layer_success (`e) v).2);
  eap_set_fast_reauth e b := lift (set_fast_reauth (`e) b) (reach_shared _ _ (proj2_sig e));
  eap_set_workaround e z := lift (set_workaround (`e) z) (reach_shared _ _ (proj2_sig e));
  eap_set_force_disabled e b := lift _ (reach_disable _ b (proj2_sig e));
  eap_sm_notify_ctrl_attached e := lift (sm_notify_ctrl_attached (`e)) (reach_shared _ _ (proj2_sig e));
  eap_invalidate_cached_session e := lift _ (reach_invalidate _ (proj2_sig e))
}.

(** The machine always runs: the other branch of [peer_step] is dead. *)
Lemma peer_step_eq e v : ∃ res s H,
  eap_step_run methods mem (`e) v = Ret (res, s) ∧ peer_step e v = (lift (esm s) H, ews s, res).
Proof.
  destruct e as [e He]. destruct (run_ends e v (reach_ready e He)) as (res & s & Es & _). cbn [proj1_sig].
  assert (Hgen : ∀ r (E : eap_step_run methods mem e v = r), r = Ret (res, s) → ∃ H,
            match r as r' return eap_step_run methods mem e v = r' → peer * list eap_write * bool with
            | Ret (res, s) => λ E, (lift (esm s) (reach_step _ _ _ _ He E), ews s, res)
            | UB _ | OutOfFuel => λ _, (e ↾ He, [], false)
            end E = (lift (esm s) H, ews s, res)).
  { intros r E ->. eexists. reflexivity. }
  destruct (Hgen _ eq_refl Es) as [H Heq]. exists res, s, H. by split.
Qed.

#[global] Instance reachable_peer_ok : EapPeerOk peer.
Proof.
  split.
  - intros e v e' ws c E. destruct (peer_step_eq e v) as (res & s & H & Es & Ep). cbn in E. rewrite Ep in E.
    injection E as <- <- <-. destruct (run_ends (`e) v (reach_ready _ (proj2_sig e))) as (res' & s' & Es' & (Hi & _) & _).
    rewrite Es in Es'. injection Es' as <- <-. apply Hi.
  - intros e e' ws [= <- <-]. by repeat constructor.
  - intros e v e' ws [= <- <-]. unfold notify_lower_layer_success. if_branch; [constructor|]. by repeat constructor.
Qed.
End safety.

(** ** A session *)
Module Demo.
Definition zeros : list Z := repeat 0 64.
Definition known : list (eap_method method_data) := simple_methods zeros.

(** What the machine sees: the link is up, and a message is waiting or not. *)
Definition sees (req : option (list Z)) : eap_view :=
  EapView (λ v, match v with EAPOL_portEnabled => true | EAPOL_eapReq => bool_decide (is_Some req) | _ => false end) 60 req.

(** Some calls of [eap_peer_sm_step]. *)
Fixpoint play (vs : list eap_view) (e : eap_sm method_data) : run (eap_sm method_data) :=
  match vs with
  | [] => Ret e
  | v :: vs => x ← eap_step_run known zeros e v; play vs (esm x.2)
  end.

Lemma play_reach vs e e' : reach known zeros e → play vs e = Ret e' → reach known zeros e'.
Proof.
  revert e. induction vs as [|v vs IH]; intros e He H; cbn [play] in H; [by injection H as <-|].
  apply run_bind_Ret in H as ([res s] & Hr & H). eapply IH; [|exact H]. by eapply reach_step.
Qed.

Definition start : eap_sm method_data := eap_peer_sm_init (EapSimple.Demo.context (Some EapSimple.Demo.secret) None).

(** Identity, a challenge for EAP-MD5 and EAP-Success. *)
Definition session : list eap_view :=
  [ sees None;
    sees (Some (eap_message EAP_CODE_REQUEST 1 EAP_VENDOR_IETF EAP_TYPE_IDENTITY []));
    sees (Some (eap_message EAP_CODE_REQUEST 2 EAP_VENDOR_IETF EAP_TYPE_MD5 (4 :: [9; 8; 7; 6])));
    sees (Some [EAP_CODE_SUCCESS; 2; 0; 4]) ].
(** The forged message alone. *)
Definition forged : list eap_view := [sees None; sees (Some [EAP_CODE_SUCCESS; 0; 0; 4])].

Definition after (vs : list eap_view) : eap_sm method_data := match play vs start with Ret e => e | _ => start end.

Lemma after_reach vs : match play vs start with Ret _ => true | _ => false end = true → reach known zeros (after vs).
Proof.
  intros H. unfold after. destruct (play vs start) as [e| |] eqn:E; [|discriminate H..].
  eapply play_reach; [apply reach_init|exact E].
Qed.

Lemma session_reach : reach known zeros (after session).
Proof. apply after_reach. vm_compute. reflexivity. Qed.


Lemma eap_success_authenticated_witness :
  ∃ h1 h2, history (after session) = h1 ++ EvSuccess :: h2 ∧
    ∃ a ev b, h1 = a ++ ev :: b ∧ (EvSession ∉ b) ∧ (EvMethod DECISION_FAIL ∉ b).
Proof.
  destruct (eap_success_authenticated known zeros (after session) session_reach) as [H _].
  exists [EvReceived; EvReceived; EvMethod DECISION_COND_SUCC; EvReceived], [].
  assert (E : history (after session) =
    [EvReceived; EvReceived; EvMethod DECISION_COND_SUCC; EvReceived] ++ EvSuccess :: []) by (vm_compute; reflexivity).
  split; [exact E|]. destruct (H _ _ E) as (a & ev & b & E1 & _ & E2 & E3). exists a, ev, b. by split_and!.
Defined.

(** An identity request without a configured identity: the request is dropped with
    neither [eapResp] nor [eapNoResp] set. *)
Definition nobody : eap_sm method_data :=
  let c := EapSimple.Demo.context None None in
  eap_peer_sm_init (c <| mc_config := Some ((EapSimple.Demo.network None None) <| identity := None |>) |>).
Lemma request_without_answer :
  match eap_step_run known zeros nobody (sees (Some (eap_message EAP_CODE_REQUEST 1 EAP_VENDOR_IETF EAP_TYPE_IDENTITY []))) with
  | Ret (_, s) => Some (EAP_state (esm s), ebool s EAPOL_eapReq, ebool s EAPOL_eapResp, ebool s EAPOL_eapNoResp)
  | _ => None
  end = Some (EAP_IDLE, false, false, false).
Proof. vm_compute. reflexivity. Qed.

(** Success alone is a failure. *)
Example forged_fails : EAP_state (after forged) = EAP_FAILURE ∧ (EvSuccess ∉ history (after forged)).
Proof. split; [vm_compute; reflexivity|]. vm_compute. set_solver. Qed.

Lemma eap_rounds_bounded_witness : 0 ≤ num_rounds (after session) ≤ EAP_MAX_AUTH_ROUNDS + 2 ∧ num_rounds (after session) = 3.
Proof.
  destruct (eap_rounds_bounded known zeros (after session) session_reach) as [H _]. split; [exact H|vm_compute; reflexivity].
Defined.
End Demo.
