(* ===== verification/EapRfc.v ===== *)
(** * The EAP peer state machine against RFC 4137

    The transitions out of RECEIVED as the standard gives them (RFC 4137, figure 3),
    and the function of the code that takes them. *)

From S2P Require Import Prelude EapCommon EapMethods EapolSupp EapSimple Eap EapNak EapSafety.

Section rfc.
Context {P : Type} (methods : list (eap_method P)) {owns : eap_method P → P → Prop} `{!MethodsOk owns methods}.

(** The guard of the arc to a state; [false] where there is no arc. *)
Definition rfc4137_arc (e : eap_sm P) (st : EAP_state_t) : bool :=
  let fresh := rxReq e && negb (reqId e =? lastId e) in
  match st with
  | EAP_SUCCESS => rxSuccess e && (reqId e =? lastId e) && negb (bool_decide (decision e = DECISION_FAIL))
  | EAP_FAILURE =>
      negb (bool_decide (methodState e = METHOD_CONT)) &&
      ((rxFailure e && negb (bool_decide (decision e = DECISION_UNCOND_SUCC))) ||
       (rxSuccess e && bool_decide (decision e = DECISION_FAIL))) && (reqId e =? lastId e)
  | EAP_RETRANSMIT => rxReq e && (reqId e =? lastId e)
  | EAP_NOTIFICATION => fresh && (reqMethod e =? EAP_TYPE_NOTIFICATION) && allowNotifications e
  | EAP_IDENTITY => fresh && (selectedMethod e =? EAP_TYPE_NONE) && (reqMethod e =? EAP_TYPE_IDENTITY)
  | EAP_GET_METHOD =>
      fresh && (selectedMethod e =? EAP_TYPE_NONE) && negb (reqMethod e =? EAP_TYPE_IDENTITY) &&
      negb (reqMethod e =? EAP_TYPE_NOTIFICATION)
  | EAP_METHOD => fresh && (reqMethod e =? selectedMethod e) && negb (bool_decide (methodState e = METHOD_DONE))
  | _ => false
  end.

(** The arc taken: an enabled one, or to DISCARD when none is. *)
Definition rfc4137_received (e : eap_sm P) (st : EAP_state_t) : Prop :=
  rfc4137_arc e st = true ∨ (st = EAP_DISCARD ∧ ∀ st', rfc4137_arc e st' = false).

(** What the parser gives: at most one kind of message. *)
Definition one_kind (e : eap_sm P) : Prop :=
  match rxReq e, rxSuccess e, rxFailure e with
  | true, false, false | false, true, false | false, false, true | false, false, false => True
  | _, _, _ => False
  end.

(** The target of the code, its tests in its order. *)
Definition target (e : eap_sm P) : EAP_state_t :=
  if rfc4137_arc e EAP_SUCCESS then EAP_SUCCESS
  else if rfc4137_arc e EAP_FAILURE then EAP_FAILURE
  else if rfc4137_arc e EAP_RETRANSMIT then EAP_RETRANSMIT
  else if rfc4137_arc e EAP_NOTIFICATION then EAP_NOTIFICATION
  else if rfc4137_arc e EAP_IDENTITY then EAP_IDENTITY
  else if rfc4137_arc e EAP_GET_METHOD then EAP_GET_METHOD
  else if rfc4137_arc e EAP_METHOD then EAP_METHOD
  else EAP_DISCARD.

Lemma target_rfc e : rfc4137_received e (target e).
Proof.
  unfold target, rfc4137_received. repeat (if_branch; [by left|]). right. split; [done|]. by intros [].
Qed.

Ltac arcs :=
  unfold rfc4137_received, rfc4137_arc in *;
  repeat match goal with
  | H : _ && _ = true |- _ => apply andb_true_iff in H as [? ?]
  | H : negb _ = true |- _ => apply negb_true_iff in H
  | H : (_ =? _) = true |- _ => apply Z.eqb_eq in H
  | H : (_ =? _) = false |- _ => apply Z.eqb_neq in H
  | H : bool_decide _ = true |- _ => apply bool_decide_eq_true in H
  | H : bool_decide _ = false |- _ => apply bool_decide_eq_false in H
  | H : _ || _ = true |- _ => apply orb_true_iff in H as [?|?]
  end.

(** At most one arc is enabled. *)
Lemma arc_unique e st st' : one_kind e → (rxReq e = true → reqMethod e ≠ EAP_TYPE_NONE) →
  selectedMethod e ≠ EAP_TYPE_NOTIFICATION → rfc4137_arc e st = true → rfc4137_arc e st' = true → st = st'.
Proof.
  unfold one_kind. intros H1 H2 H3 Ha Hb.
  destruct st; try discriminate Ha; destruct st'; try discriminate Hb; try reflexivity; exfalso; arcs; try congruence.
  all: destruct (rxReq e), (rxSuccess e), (rxFailure e); try done; try congruence.
  all: specialize (H2 eq_refl); unfold EAP_TYPE_NONE, EAP_TYPE_IDENTITY, EAP_TYPE_NOTIFICATION in *; lia.
Qed.

(** Where an entry function of the code leads. *)
Lemma enters_target h0 b0 (s : est P) r st rq : enters (owns := owns) methods h0 b0 r (goto s st rq) →
  ∃ s', r = Ret s' ∧ EAP_state (esm s') = st.
Proof. intros (s' & -> & Hc & _). exists s'. split; [done|]. exact (f_equal c_state Hc). Qed.

(** C12: without the workarounds for broken servers and outside LEAP, the code leaves
    RECEIVED exactly along the arcs of RFC 4137: the state it enters is the one that
    the standard prescribes, which is unique, for every message and every state of the
    session; it always enters one. *)
Theorem received_is_rfc4137 req h0 b0 (s : est P) :
  mid (owns := owns) methods req h0 b0 s → EAP_state (esm s) = EAP_RECEIVED →
  mc_workaround (mc (esm s)) = 0 → selectedMethod (esm s) ≠ EAP_TYPE_LEAP →
  ∃ s', eap_peer_sm_step_received methods req s = Ret s' ∧ rfc4137_received (esm s) (EAP_state (esm s')) ∧
    (one_kind (esm s) → (rxReq (esm s) = true → reqMethod (esm s) ≠ EAP_TYPE_NONE) →
     selectedMethod (esm s) ≠ EAP_TYPE_NOTIFICATION →
     ∀ st, rfc4137_received (esm s) st ↔ st = EAP_state (esm s')).
Proof.
  intros Hm Hst Hw Hl.
  assert (Hgo : ∃ s', eap_peer_sm_step_received methods req s = Ret s' ∧ EAP_state (esm s') = target (esm s)).
  { destruct Hm as (Hi & _ & Hrx & _). specialize (Hrx Hst). unfold eap_peer_sm_step_received, target. cbn zeta.
    unfold eap_peer_req_is_duplicate, eap_success_workaround, rfc4137_arc. rewrite Hw. cbn [Z.eqb negb andb].
    rewrite !orb_false_r, (proj2 (Z.eqb_neq _ _) Hl). cbn [negb orb andb]. rewrite !andb_true_r.
    assert (Hr : rxReq (esm s) = true → is_Some req) by (intros; destruct Hrx as (r & -> & _); eauto).
    destruct (reqId (esm s) =? lastId (esm s)); destruct (rxReq (esm s)) eqn:Erq; destruct (rxSuccess (esm s)) eqn:Ers;
      cbn [negb andb orb]; rewrite ?andb_false_r, ?andb_true_r, ?orb_false_r; cbn [negb andb orb].
    all: repeat (if_branch; [|]).
    all: lazymatch goal with
      | |- ∃ s', sm_EAP_SUCCESS_Enter _ _ = _ ∧ _ =>
          eapply enters_target, (success_enters methods h0 b0); [exact Hi|by eapply bool_decide_eq_false_1, negb_true_iff]
      | |- ∃ s', sm_EAP_FAILURE_Enter _ _ = _ ∧ _ => eapply enters_target, (failure_enters methods h0 b0 false); [exact Hi|done]
      | |- ∃ s', sm_EAP_RETRANSMIT_Enter _ _ = _ ∧ _ => eapply enters_target, (retransmit_enters methods h0 b0); exact Hi
      | |- ∃ s', sm_EAP_NOTIFICATION_Enter _ _ _ = _ ∧ _ => eapply enters_target, (notification_enters methods req h0 b0); [exact Hi|exact Hrx|exact Erq]
      | |- ∃ s', sm_EAP_IDENTITY_Enter _ _ _ = _ ∧ _ => eapply enters_target, (identity_enters methods req h0 b0); [exact Hi|exact Hrx|exact Erq]
      | |- ∃ s', sm_EAP_GET_METHOD_Enter _ _ _ = _ ∧ _ => eapply enters_target, (get_method_enters methods h0 b0); exact Hi
      | |- ∃ s', sm_EAP_METHOD_Enter _ _ _ = _ ∧ _ => eapply enters_target, (method_enters methods req h0 b0); [exact Hi|auto]
      | |- ∃ s', sm_EAP_DISCARD_Enter _ _ = _ ∧ _ => eapply enters_target, (discard_enters methods h0 b0); exact Hi
      end. }
  destruct Hgo as (s' & Es & Et). exists s'. split; [done|]. rewrite Et. split; [apply target_rfc|].
  intros H1 H2 H3 st. split; [|intros ->; apply target_rfc]. pose proof (target_rfc (esm s)) as Ht.
  intros [Ha|[-> Ha]].
  - destruct Ht as [Hb|[_ Hb]]; [by eapply arc_unique|]. by rewrite Hb in Ha.
  - destruct Ht as [Hb|[-> _]]; [by rewrite Ha in Hb|done].
Qed.
End rfc.

Module Demo.
Import EapSafety.Demo.

(** The challenge of the session, just parsed. *)
Definition challenge : option (list Z) := Some (eap_message EAP_CODE_REQUEST 2 EAP_VENDOR_IETF EAP_TYPE_MD5 (4 :: [9; 8; 7; 6])).
Definition before : eap_sm method_data := after (take 2 session).

Lemma before_reach : reach known zeros before.
Proof. apply after_reach. vm_compute. reflexivity. Qed.

Lemma received_is_rfc4137_witness :
  ∃ s s', EAP_state (esm s) = EAP_RECEIVED ∧ eap_peer_sm_step_received known challenge s = Ret s' ∧
    EAP_state (esm s') = EAP_GET_METHOD ∧ ∀ st, rfc4137_received (esm s) st ↔ st = EAP_state (esm s').
Proof.
  set (s0 := est_of before (sees challenge)).
  destruct (step_progress known zeros challenge (history before) false s0) as (s & Es & Hm & _);
    [exact (ready_mid known before (sees challenge) challenge (reach_ready known zeros before before_reach))|vm_compute; reflexivity|].
  assert (Hf : match SM_STEP_EAP known zeros challenge s0 with
               | Ret s => bool_decide (EAP_state (esm s) = EAP_RECEIVED) && (mc_workaround (mc (esm s)) =? 0) &&
                          (selectedMethod (esm s) =? 0) && rxReq (esm s) && negb (rxSuccess (esm s)) && negb (rxFailure (esm s)) &&
                          (reqMethod (esm s) =? EAP_TYPE_MD5)
               | _ => false end = true) by (vm_compute; reflexivity).
  assert (Hg : match (s ← SM_STEP_EAP known zeros challenge s0; eap_peer_sm_step_received known challenge s) with
               | Ret s => EAP_state (esm s) | _ => EAP_IDLE end = EAP_GET_METHOD) by (vm_compute; reflexivity).
  rewrite Es in Hf, Hg. rewrite run_bind_l in Hg. rewrite !andb_true_iff, !negb_true_iff, !Z.eqb_eq in Hf.
  destruct Hf as ((((((H1%bool_decide_eq_true & H2) & H3) & H4) & H5) & H6) & H7).
  destruct (received_is_rfc4137 known challenge (history before) false s Hm H1 H2) as (s' & Es' & _ & Hu);
    [rewrite H3; discriminate|].
  exists s, s'. split; [exact H1|]. split; [exact Es'|]. rewrite Es' in Hg. split; [exact Hg|].
  apply Hu; [unfold one_kind; by rewrite H4, H5, H6|rewrite H7; discriminate|rewrite H3; discriminate].
Defined.
End Demo.
