(* ===== verification/EapolEap.v ===== *)
(** * EAPOL over the EAP peer state machine

    The supplicant of EapolSupp on top of the machine of Eap: what the EAPOL layer
    believes about the outcome of EAP is what the EAP machine vouches for.  The
    statements about the EAPOL layer are proved for any EAP layer with the interface
    [EapPeerVouch], and the reachable states of the EAP machine implement it. *)

From S2P Require Import Prelude EapolSupp EapCommon EapMethods EapSimple Eap EapNak EapSafety.

(** [good e]: the EAP layer stands by its success.  What it must do: write
    [eapSuccess] only then, and not lose it in an operation that does not write. *)
Class EapPeerVouch (E : Type) `{!EapPeer E} (good : E → Prop) : Prop := {
  good_step e v e' ws c : eap_peer_sm_step e v = (e', ws, c) →
    (view_bool v EAPOL_eapSuccess = true → good e) →
    success_after (view_bool v EAPOL_eapSuccess) ws = true → good e';
  good_abort e e' ws b : eap_sm_abort e = (e', ws) → success_after b ws = false;
  good_lower e v e' ws : eap_notify_lower_layer_success e v = (e', ws) →
    (view_bool v EAPOL_eapSuccess = true → good e) →
    success_after (view_bool v EAPOL_eapSuccess) ws = true → good e';
  good_forced e : good (eap_notify_success e);
  good_response e : good e → good (eap_get_eapRespData e).1;
  good_fast_reauth e b : good e → good (eap_set_fast_reauth e b);
  good_workaround e z : good e → good (eap_set_workaround e z);
  good_disabled e b : good e → good (eap_set_force_disabled e b);
  good_attached e : good e → good (eap_sm_notify_ctrl_attached e);
  good_invalidate e : good e → good (eap_invalidate_cached_session e)
}.

Ltac if_in H := match type of H with (if ?b then _ else _) = _ => destruct b eqn:? end.

Section vouching.
Context {E : Type} `{!EapPeer E, !EapPeerOk E} {good : E → Prop} `{!EapPeerVouch E good}.
Context (ctx : eapol_ctx) (config_wps : bool) (junk mem : list Z).
Implicit Types s : sys (E := E).

(** What the EAPOL layer believes is true. *)
Definition belief s : Prop := eapSuccess (sm s) = true → good (eap s).

Definition key s : bool * E := (eapSuccess (sm s), eap s).

Lemma key_belief s s' : key s' = key s → belief s → belief s'.
Proof. unfold key, belief. by intros [= -> ->]. Qed.

(** *** Functions that touch neither [eapSuccess] nor the EAP layer *)

(** Assignments are followed one at a time: the state after each has the same key. *)
Create HintDb eapol_key.

Lemma key_trans s s' k : key s = k → key s' = key s → key s' = k.
Proof. congruence. Qed.

Lemma key_let (A : sys (E := E)) (B : sys (E := E) → sys (E := E)) k :
  key A = k → (∀ s, key s = k → key (B s) = k) → key (let s := A in B s) = k.
Proof. auto. Qed.
Lemma key_let' {T} (A : T) (B : T → sys (E := E)) k : (∀ x, key (B x) = k) → key (let x := A in B x) = k.
Proof. auto. Qed.

Ltac strip :=
  repeat first
    [ match goal with
      | |- key ?y = _ => is_var y; first [eassumption | reflexivity]
      | |- key (let x := ?A in @?B x) = ?k =>
          first [ refine (key_let A B k _ _); [|let s := fresh "s" in let H := fresh "H" in intros s H; cbv beta]
                | refine (key_let' A B k _); let x := fresh "x" in intros x; cbv beta ]
      | |- key (update ?g ?Y) = _ => change (key (update g Y)) with (key Y)
      | |- key (emit ?e ?Y) = _ => change (key (emit e Y)) with (key Y)
      | |- key (if ?b then _ else _) = _ => destruct b
      | |- key (match ?b with _ => _ end) = _ => destruct b
      | |- key (?f ?Y) = ?k => apply (key_trans Y); [|solve [auto with eapol_key nocore]]
      end ].

Lemma key_tick s : key (eapol_enable_timer_tick s) = key s.
Proof. cbv beta delta [eapol_enable_timer_tick]. strip. Qed.
Lemma key_authorized s : key (eapol_sm_set_port_authorized ctx s) = key s.
Proof. cbv beta delta [eapol_sm_set_port_authorized]. strip. Qed.
Lemma key_unauthorized s : key (eapol_sm_set_port_unauthorized ctx s) = key s.
Proof. cbv beta delta [eapol_sm_set_port_unauthorized]. strip. Qed.
Lemma key_done s : key (eapol_done ctx s) = key s.
Proof. cbv beta delta [eapol_done]. strip. Qed.
Lemma key_start s : key (eapol_sm_txStart s) = key s.
Proof. cbv beta delta [eapol_sm_txStart]. strip. Qed.
Lemma key_logoff s : key (eapol_sm_txLogoff s) = key s.
Proof. cbv beta delta [eapol_sm_txLogoff]. strip. Qed.
Lemma key_pae_entry g st s : key (pae_entry g st s) = key s.
Proof. cbv beta delta [pae_entry]. strip. Qed.
Lemma key_be_entry g st s : key (be_entry g st s) = key s.
Proof. cbv beta delta [be_entry]. strip. Qed.
Lemma key_key_rx_entry g st s : key (key_rx_entry g st s) = key s.
Proof. cbv beta delta [key_rx_entry]. strip. Qed.

#[local] Hint Resolve key_tick key_authorized key_unauthorized key_done key_start key_logoff key_pae_entry
  key_be_entry key_key_rx_entry : eapol_key.

Lemma key_enter_state st g s : key (enter_state ctx config_wps st g s) = key s.
Proof.
  destruct st; cbn [enter_state]; [reflexivity|..].
  all: cbv beta delta [sm_SUPP_PAE_DISCONNECTED_Enter sm_SUPP_PAE_LOGOFF_Enter sm_SUPP_PAE_CONNECTING_Enter
    sm_SUPP_PAE_AUTHENTICATING_Enter sm_SUPP_PAE_AUTHENTICATED_Enter sm_SUPP_PAE_HELD_Enter sm_SUPP_PAE_RESTART_Enter
    sm_SUPP_PAE_S_FORCE_AUTH_Enter sm_SUPP_PAE_S_FORCE_UNAUTH_Enter]; strip.
Qed.

Lemma key_pae s : key (SM_STEP_SUPP_PAE ctx config_wps s) = key s.
Proof.
  destruct (pae_step_move ctx config_wps s); [reflexivity|apply key_enter_state..|].
  apply (key_trans (eapol_done ctx (s <| sm := (sm s) <| portValid := true |> |>))).
  - by rewrite key_done.
  - apply (key_enter_state SUPP_PAE_AUTHENTICATED).
Qed.

Lemma key_install s i k : key (processKey_install ctx s i k) = key s.
Proof. cbv beta delta [processKey_install]. strip. Qed.

(** *** Functions that call the EAP layer *)

Lemma apply_writes_key s ws :
  key (apply_writes s ws) = (success_after (eapSuccess (sm s)) ws, eap s).
Proof.
  revert s. induction ws as [|w ws IH]; intros s; [done|].
  change (apply_writes s (w :: ws)) with (apply_writes (apply_write s w) ws). rewrite IH.
  assert (Hw : key (apply_write s w) = (success_write (eapSuccess (sm s)) w, eap s)).
  { destruct w as [[] b|n]; [reflexivity..|]. cbn [apply_write]. cbv beta delta [eapol_sm_set_int]. strip. }
  unfold key in Hw. by injection Hw as -> ->.
Qed.

Lemma writes_belief s e ws :
  (success_after (eapSuccess (sm s)) ws = true → good e) → belief (apply_writes (s <| eap := e |>) ws).
Proof.
  intros H. pose proof (apply_writes_key (s <| eap := e |>) ws) as Hk. revert Hk.
  generalize (apply_writes (s <| eap := e |>) ws). unfold key, belief. intros s' [= -> ->]. exact H.
Qed.

Lemma lower_belief s : belief s → belief (eapol_sm_lower_layer_success s).
Proof.
  intros H. unfold eapol_sm_lower_layer_success. destruct (eap_notify_lower_layer_success _ _) as [e ws] eqn:Ee.
  apply writes_belief. intros Hs. by eapply good_lower.
Qed.

Lemma eap_step_belief s : belief s → belief (eapol_eap_step s).
Proof.
  intros H. unfold eapol_eap_step. destruct (eap_peer_sm_step _ _) as [[e ws] c] eqn:Ee.
  assert (Hb : belief (apply_writes (s <| eap := e |>) ws)).
  { apply writes_belief. intros Hs. by eapply good_step. }
  by destruct c.
Qed.

Lemma verify_belief s frame hlen len kd klen s' :
  processKey_verify ctx mem s frame hlen len kd klen = Ret s' → key s' = key s.
Proof.
  intros H. unfold processKey_verify in H.
  repeat (first [match type of H with (if ?b then _ else _) = _ => destruct b | match ?x with _ => _ end = _ => destruct x end | progress run_inv]).
  all: rewrite ?key_install; reflexivity.
Qed.

Lemma process_key_belief s s' : belief s → eapol_sm_processKey ctx junk mem s = Ret s' → belief s'.
Proof.
  intros Hb H. unfold eapol_sm_processKey in H. destruct (last_rx_key _); [|by run_inv].
  destruct (negb _); [by run_inv|]. run_inv. if_in H; [by run_inv|]. run_inv.
  destruct (processKey_keydata _ _) as [[kd klen]|]; [|run_inv; by apply lower_belief].
  apply verify_belief in H. eapply key_belief; [exact H|by apply lower_belief].
Qed.

Lemma key_rx_belief s s' : belief s → SM_STEP_KEY_RX ctx junk mem s = Ret s' → belief s'.
Proof.
  intros Hb H. unfold SM_STEP_KEY_RX in H. revert H.
  assert (Hk : ∀ c : bool, key (if c then sm_KEY_RX_NO_KEY_RECEIVE_Enter true s else s) = key s).
  { intros []; [apply key_key_rx_entry|reflexivity]. }
  specialize (Hk (initialize (sm s) || negb (portEnabled (sm s)))). revert Hk.
  generalize (if initialize (sm s) || negb (portEnabled (sm s)) then sm_KEY_RX_NO_KEY_RECEIVE_Enter true s else s).
  intros s1 Hk. apply key_belief in Hk; [|done].
  assert (Hrec : ∀ s', sm_KEY_RX_KEY_RECEIVE_Enter ctx junk mem false s1 = Ret s' → belief s').
  { intros s2 H. unfold sm_KEY_RX_KEY_RECEIVE_Enter in H. run_inv. eapply process_key_belief in Hrun; [exact Hrun|].
    eapply key_belief; [apply key_key_rx_entry|done]. }
  destruct (KEY_RX_state _); [|destruct (rxKey _)..]; intros H; try by run_inv.
  all: by apply Hrec.
Qed.

Lemma tx_belief s : belief s → belief (eapol_sm_txSuppRsp s).
Proof.
  intros Hb. unfold eapol_sm_txSuppRsp. pose proof (good_response (eap s)) as Hg.
  destruct (eap_get_eapRespData (eap s)) as [e o]. cbn [fst] in Hg.
  assert (Hb1 : belief (s <| eap := e |>)) by (intros Hs; by apply Hg, Hb).
  destruct o as [r|]; [|done]. destruct (initial_req _); exact Hb1.
Qed.

Lemma abort_belief s : belief (eapol_sm_abortSupp s).
Proof.
  unfold eapol_sm_abortSupp. destruct (eap_sm_abort _) as [e ws] eqn:Ee.
  apply writes_belief. by erewrite good_abort.
Qed.

Lemma be_keys g s :
  key (sm_SUPP_BE_REQUEST_Enter g s) = key s ∧ key (sm_SUPP_BE_SUCCESS_Enter g s) = key s ∧
  key (sm_SUPP_BE_FAIL_Enter g s) = key s ∧ key (sm_SUPP_BE_TIMEOUT_Enter g s) = key s ∧
  key (sm_SUPP_BE_IDLE_Enter g s) = key s ∧ key (sm_SUPP_BE_RECEIVE_Enter g s) = key s.
Proof.
  split_and!; cbv beta delta [sm_SUPP_BE_REQUEST_Enter sm_SUPP_BE_SUCCESS_Enter sm_SUPP_BE_FAIL_Enter
    sm_SUPP_BE_TIMEOUT_Enter sm_SUPP_BE_IDLE_Enter sm_SUPP_BE_RECEIVE_Enter]; strip.
Qed.

Lemma be_response_belief g s : belief s → belief (sm_SUPP_BE_RESPONSE_Enter g s).
Proof.
  intros Hb. apply (key_belief (eapol_sm_txSuppRsp (be_entry g SUPP_BE_RESPONSE s))); [reflexivity|].
  apply tx_belief. eapply key_belief; [apply key_be_entry|done].
Qed.
Lemma be_initialize_belief g s : belief (sm_SUPP_BE_INITIALIZE_Enter g s).
Proof. apply (key_belief (eapol_sm_abortSupp (be_entry g SUPP_BE_INITIALIZE s))); [reflexivity|apply abort_belief]. Qed.

Lemma be_belief s : belief s → belief (SM_STEP_SUPP_BE s).
Proof.
  intros Hb. unfold SM_STEP_SUPP_BE. destruct (be_keys false s) as (K1 & K2 & K3 & K4 & K5 & K6).
  assert (Hk : ∀ s', key s' = key s → belief s') by (intros s' Hs'; by apply (key_belief s)).
  if_branch; [apply be_initialize_belief|].
  destruct (SUPP_BE_state (sm s)); repeat (if_branch; [|]); auto using be_response_belief.
Qed.

(** *** The step function and the operations *)

Lemma round_belief s s' : belief s → eapol_sm_round ctx config_wps junk mem s = Ret s' → belief s'.
Proof.
  intros Hb H. unfold eapol_sm_round in H. run_inv. apply eap_step_belief, be_belief.
  eapply key_rx_belief; [|exact Hrun]. eapply key_belief; [apply key_pae|]. exact Hb.
Qed.

Lemma loop_belief n s s' : belief s → eapol_sm_loop ctx config_wps junk mem n s = Ret s' → belief s'.
Proof.
  revert s. induction n as [|n IH]; intros s Hb H; cbn [eapol_sm_loop] in H; run_inv; [done|].
  apply round_belief in Hrun; [|done]. destruct (changed _); [by eapply IH|by run_inv].
Qed.

Lemma step_belief s s' : belief s → eapol_sm_step ctx config_wps junk mem s = Ret s' → belief s'.
Proof.
  intros Hb H. unfold eapol_sm_step in H. run_inv. apply loop_belief in Hrun; [|done].
  revert H. match goal with |- context [if changed (sm ?x) then ?a else ?b] => assert (Hb1 : belief (if changed (sm x) then a else b)) by (by destruct (changed (sm x))); revert Hb1; generalize (if changed (sm x) then a else b) end.
  intros s2 Hb2 H. if_in H; run_inv; exact Hb2.
Qed.

Lemma abort_cached_key s : key (eapol_sm_abort_cached ctx s) = key s.
Proof. cbv beta delta [eapol_sm_abort_cached]. strip. Qed.

Lemma rx_packet_belief ok body s s' : belief s →
  rx_eap_packet ctx config_wps junk mem ok body s = Ret s' → belief s'.
Proof.
  intros Hb H. unfold rx_eap_packet in H. revert H.
  assert (Hk : ∀ c : bool, key (if c then eapol_sm_abort_cached ctx s else s) = key s).
  { intros []; [apply abort_cached_key|reflexivity]. }
  specialize (Hk (cached_pmk (sm s))). apply key_belief in Hk; [|done]. revert Hk.
  generalize (if cached_pmk (sm s) then eapol_sm_abort_cached ctx s else s). intros s1 Hb1 H.
  destruct ok; [|run_inv; exact Hb1]. eapply step_belief; [|exact H]. exact Hb1.
Qed.
Lemma rx_key_belief ok f s s' : belief s → rx_eapol_key ctx config_wps junk mem ok f s = Ret s' → belief s'.
Proof.
  intros Hb H. unfold rx_eapol_key in H. destruct ok; [|run_inv; exact Hb]. eapply step_belief; [|exact H]. exact Hb.
Qed.
Lemma rx_belief ok src buf s r s' : belief s →
  eapol_sm_rx_eapol ctx config_wps junk mem ok src buf s = Ret (r, s') → belief s'.
Proof.
  intros Hb H. unfold eapol_sm_rx_eapol in H.
  repeat (first [if_in H | progress run_inv]); try exact Hb.
  - eapply rx_packet_belief; [|eassumption]. exact Hb.
  - eapply rx_key_belief; [|eassumption]. exact Hb.
Qed.

Lemma configure_key a b c d s : key (eapol_sm_configure a b c d s) = key s.
Proof. cbv beta delta [eapol_sm_configure]. strip. Qed.

(** Operations that end with [eapol_sm_step], one assignment at a time. *)
Definition stays (r : run (sys (E := E))) : Prop := ∀ s', r = Ret s' → belief s'.

Lemma stays_let (A : sys (E := E)) (B : sys (E := E) → run (sys (E := E))) :
  belief A → (∀ s, belief s → stays (B s)) → stays (let s := A in B s).
Proof. auto. Qed.
Lemma stays_let' {T} (A : T) (B : T → run (sys (E := E))) : (∀ x, stays (B x)) → stays (let x := A in B x).
Proof. auto. Qed.
Lemma stays_step s : belief s → stays (eapol_sm_step ctx config_wps junk mem s).
Proof. intros Hb s' H. by eapply step_belief. Qed.

Ltac walk :=
  repeat match goal with
  | H : belief ?s |- belief (update _ ?s) => exact H
  | H : belief ?s |- belief (emit _ ?s) => exact H
  | |- belief (if ?b then _ else _) => destruct b
  | |- belief (eapol_sm_set_port_authorized _ ?s) => apply (key_belief s); [apply key_authorized|]
  | |- belief ?s => is_var s; assumption
  | |- stays (let x := ?A in @?B x) =>
      first [ refine (stays_let A B _ _); [|let s := fresh "s" in let H := fresh "H" in intros s H; cbv beta]
            | refine (stays_let' A B _); let x := fresh "x" in intros x; cbv beta ]
  | |- stays (eapol_sm_step _ _ _ _ _) => apply stays_step
  end.

Lemma timers_belief s : belief s → stays (eapol_port_timers_tick ctx config_wps junk mem s).
Proof. intros Hb. cbv beta delta [eapol_port_timers_tick]. walk. Qed.

Lemma cached_belief s : belief s → stays (eapol_sm_notify_cached ctx config_wps junk mem s).
Proof. intros Hb. cbv beta delta [eapol_sm_notify_cached]. walk. all: try (intros _; apply good_forced). Qed.

Lemma eap_success_belief b s : belief s → stays (eapol_sm_notify_eap_success ctx config_wps junk mem b s).
Proof.
  intros Hb s'. unfold eapol_sm_notify_eap_success. apply step_belief.
  destruct b; [|done]. intros _. apply good_forced.
Qed.
Lemma config_belief c s : belief s → belief (eapol_sm_notify_config c s).
Proof.
  intros Hb. destruct c as [c|]; [|exact Hb]. intros Hs. apply good_disabled, good_workaround, good_fast_reauth, Hb, Hs.
Qed.
Lemma reauth_belief s : belief s → belief (eapol_sm_request_reauth s).
Proof. intros Hb. unfold eapol_sm_request_reauth. if_branch; exact Hb. Qed.

Lemma stays_ret s : belief s → stays (Ret s).
Proof. by intros Hb s' [= <-]. Qed.

Lemma waiting_belief s : belief s →
  stays (eapol_sm_notify_ctrl_response ctx config_wps junk mem s) ∧ stays (eapol_sm_notify_pending ctx config_wps junk mem s).
Proof.
  intros Hb. cbv beta delta [eapol_sm_notify_ctrl_response eapol_sm_notify_pending].
  split; (destruct (_ && _); [walk|by apply stays_ret]).
Qed.

Lemma notify_belief s : belief s →
  (∀ b, stays (eapol_sm_notify_portEnabled ctx config_wps junk mem b s)) ∧
  (∀ b, stays (eapol_sm_notify_portValid ctx config_wps junk mem b s)) ∧
  (∀ b, stays (eapol_sm_notify_eap_fail ctx config_wps junk mem b s)) ∧
  (∀ b, stays (eapol_sm_notify_logoff ctx config_wps junk mem b s)) ∧
  (∀ pc, stays (eapol_sm_notify_portControl ctx config_wps junk mem pc s)).
Proof.
  intros Hb. split_and!; intros b; cbv beta delta [eapol_sm_notify_portEnabled eapol_sm_notify_portValid
    eapol_sm_notify_eap_fail eapol_sm_notify_logoff eapol_sm_notify_portControl]; walk.
Qed.

Lemma rx_stays ok src buf s : belief s → stays ('(_, s) ← eapol_sm_rx_eapol ctx config_wps junk mem ok src buf s; Ret s).
Proof. intros Hb s' ([r s1] & Hr & [= <-])%run_bind_Ret. by eapply rx_belief. Qed.

Lemma pmkid_belief b s : belief s → belief (eapol_sm_notify_pmkid_attempt b s).
Proof. intros Hb. unfold eapol_sm_notify_pmkid_attempt. if_branch; exact Hb. Qed.

Lemma op_belief o s : belief s → stays (run_op ctx config_wps junk mem o s).
Proof.
  intros Hb. destruct (notify_belief s Hb) as (N1 & N2 & N3 & N4 & N5). destruct (waiting_belief s Hb) as [W1 W2].
  destruct o.
  - by apply timers_belief.
  - by apply stays_step.
  - apply stays_ret. eapply key_belief; [apply configure_key|done].
  - by apply rx_stays.
  - by apply stays_ret.
  - apply N1.
  - apply N2.
  - by apply eap_success_belief.
  - apply N3.
  - by apply stays_ret, config_belief.
  - apply N4.
  - by apply cached_belief.
  - by apply stays_ret, pmkid_belief.
  - apply N5.
  - apply stays_ret. intros Hs. by apply good_attached, Hb.
  - apply W1.
  - apply W2.
  - by apply stays_ret, reauth_belief.
  - by apply stays_step, lower_belief.
  - apply stays_ret. intros Hs. by apply good_invalidate, Hb.
Qed.

Lemma reachable_belief s : reachable ctx config_wps junk mem s → belief s.
Proof.
  induction 1 as [e s H|s o s' Hs IH H]; [|by eapply (op_belief o s)]. unfold eapol_sm_init in H.
  destruct e as [e|]; run_inv. eapply step_belief in Hrun; [eapply step_belief in Hrun0; [exact Hrun0|exact Hrun]|].
  by intros Hs.
Qed.
End vouching.

(** ** The EAP machine *)

Section composition.
Context {P : Type} (methods : list (eap_method P)) (mem : list Z) {owns : eap_method P → P → Prop} `{!MethodsOk owns methods}.

Definition stands_by (e : peer methods mem) : Prop := vouched (history (`e)) = true.

#[global] Instance peer_vouch : EapPeerVouch (peer methods mem) stands_by.
Proof.
  split.
  - intros e v e' ws c Ee H0 Hs. destruct (peer_step_eq methods mem e v) as (res & s & H & Es & Ep).
    change (peer_step methods mem e v = (e', ws, c)) in Ee. rewrite Ep in Ee. injection Ee as <- <- <-.
    destruct (run_ends methods mem (`e) v (reach_ready _ _ _ (proj2_sig e))) as (res' & s' & Es' & (Hi & _) & _).
    rewrite Es in Es'. injection Es' as <- <-. destruct Hi as (_ & _ & _ & Hb & Hv). apply Hv; [exact H0|by rewrite Hb].
  - intros e e' ws b [= <- <-]. done.
  - intros e v e' ws [= <- <-] H0. unfold notify_lower_layer_success, stands_by. cbn [lift proj1_sig].
    unfold notify_lower_layer_success. if_branch; [exact H0|]. intros _. destruct (eapKeyData _); apply vouched_snoc.
  - intros e. apply vouched_snoc.
  - intros e H. unfold stands_by. cbn. unfold get_eapRespData. by destruct (eapRespData _).
  - intros e b H. exact H.
  - intros e b H. exact H.
  - intros e b H. exact H.
  - intros e H. exact H.
  - intros e H. unfold stands_by. cbn. unfold invalidate_cached_session, eap_deinit_prev_method. repeat case_match; exact H.
Qed.

Context (ctx : eapol_ctx) (config_wps : bool) (junk mem' : list Z).

(** The supplicant with this EAP machine, and the states it gets into. *)
Definition supplicant : Type := sys (E := peer methods mem).
Definition running (s : supplicant) : Prop := reachable ctx config_wps junk mem' s.

(** C7: the EAPOL supplicant over the EAP machine: in every reachable state of the two
    together, [eapSuccess] means that the EAP machine signalled success in its current
    session, with a method that had accepted the server before (or that success was
    forced through the interface), whatever frames were received. *)
Theorem supplicant_success_vouched (s : supplicant) :
  running s → eapSuccess (sm s) = true →
  ∃ h1 ev h2, history (proj1_sig (eap s)) = h1 ++ ev :: h2 ∧ (EvSession ∉ h2) ∧
    (ev = EvForced ∨ (ev = EvSuccess ∧
       ∃ a x b, h1 = a ++ x :: b ∧ (x = EvForced ∨ ∃ d, d ≠ DECISION_FAIL ∧ x = EvMethod d) ∧
                (EvSession ∉ b) ∧ (EvMethod DECISION_FAIL ∉ b))).
Proof.
  intros Hs Hb. pose proof (reachable_belief ctx config_wps junk mem' s Hs Hb) as Hv.
  destruct (vouched_origin _ Hv) as (h1 & ev & h2 & Eh & Hev & Hses). exists h1, ev, h2. split; [done|]. split; [done|].
  destruct Hev as [->| ->]; [by left|right]. split; [done|]. apply authenticated_origin.
  destruct (reach_ready _ _ _ (proj2_sig (eap s))) as (_ & [_ Hh] & _). by eapply Hh.
Qed.

End composition.

(** ** An authentication, frame by frame *)
Module Demo.
Import EapSafety.Demo.
Notation machine := (peer known zeros).
Notation system := (@sys machine).

Definition owner : eapol_ctx := EapolCtx true true true true (Some (λ _ _ _, 0)).
Definition frame (body : list Z) : list Z := [1; 0; 0; Z.of_nat (length body)] ++ body.

(** A network without WPA: EAP-Success opens the port. *)
Definition ops : list op :=
  [ OpConfig (Some (EapolConfig true 0 false 0 false)); OpPortEnabled true;
    OpRx true (repeat 2 6) (frame (eap_message EAP_CODE_REQUEST 1 EAP_VENDOR_IETF EAP_TYPE_IDENTITY []));
    OpRx true (repeat 2 6) (frame (eap_message EAP_CODE_REQUEST 2 EAP_VENDOR_IETF EAP_TYPE_MD5 (4 :: [9; 8; 7; 6])));
    OpRx true (repeat 2 6) (frame [EAP_CODE_SUCCESS; 2; 0; 4]) ].

Fixpoint perform (l : list op) (s : system) : run system :=
  match l with
  | [] => Ret s
  | o :: l => s ← run_op owner true zeros zeros o s; perform l s
  end.
Definition machine_start : machine := lift known zeros start (reach_init known zeros _).
Definition perform_all : run (option system) :=
  s ← eapol_sm_init owner true zeros zeros (Some machine_start);
  match s with Some s => s ← perform ops s; Ret (Some s) | None => Ret None end.

Lemma perform_reachable l s s' :
  reachable owner true zeros zeros s → perform l s = Ret s' → reachable owner true zeros zeros s'.
Proof.
  revert s. induction l as [|o l IH]; intros s Hs H; cbn [perform] in H; [by injection H as <-|].
  apply run_bind_Ret in H as (s1 & Ho & H). eapply IH; [|exact H]. by eapply reachable_op.
Qed.
Lemma all_reachable s : perform_all = Ret (Some s) → reachable owner true zeros zeros s.
Proof.
  unfold perform_all. intros ([s0|] & H0 & H)%run_bind_Ret; [|discriminate].
  apply run_bind_Ret in H as (s1 & H1 & [= <-]). eapply perform_reachable; [by eapply reachable_init|exact H1].
Qed.

Definition summary (r : run (option system)) : option (bool * PortStatus * list eap_event) :=
  match r with
  | Ret (Some s) => Some (eapSuccess (sm s), suppPortStatus (sm s), history (proj1_sig (eap s)))
  | _ => None
  end.

Lemma session_opens_port : summary perform_all =
  Some (true, Authorized, [EvSession; EvSession; EvReceived; EvReceived; EvMethod DECISION_COND_SUCC; EvReceived; EvSuccess]).
Proof. vm_compute. reflexivity. Qed.

Lemma supplicant_success_vouched_witness :
  ∃ s : system, reachable owner true zeros zeros s ∧ suppPortStatus (sm s) = Authorized ∧
    ∃ h1 ev h2, history (proj1_sig (eap s)) = h1 ++ ev :: h2 ∧ (EvSession ∉ h2) ∧ (ev = EvForced ∨ ev = EvSuccess).
Proof.
  pose proof session_opens_port as H. destruct perform_all as [[s|]| |] eqn:E; try discriminate H.
  injection H as H1 H2 H3. exists s. split; [by apply all_reachable|]. split; [exact H2|].
  destruct (supplicant_success_vouched known zeros owner true zeros zeros s (all_reachable s E) H1) as (h1 & ev & h2 & Eh & Hs & Hev).
  exists h1, ev, h2. split; [exact Eh|]. split; [exact Hs|]. destruct Hev as [->|[-> _]]; auto.
Defined.

End Demo.
